(* ===== verification/_CoqProject ===== *)
-Q . S2P
Prelude.v
GoStrings.v
RingBuffer.v
Async.v
StreamObject.v
Envoy.v
Grpc.v
FilterState.v
Filter.v
FilterFacts.v
FlushProps.v
RequestProps.v
CalloutProps.v
Finalized.v
StreamProps.v
Handshake.v
Goroutine.v
GoPath.v
GrpcProps.v
HostSet.v
HostSetProps.v
HostRefresh.v
Promise.v
Completion.v
Selector.v
PipelineConfig.v
FileWatch.v
Router.v
ClusterAbi.v
Group.v
Registry.v
ResponseFlags.v
Compress.v
McpSession.v
McpRouter.v
McpRouterProps.v
HostLookup.v
ConfigFetch.v
ClusterRouter.v
ShardRouter.v
CalloutGate.v
RateLimit.v
LbPolicy.v
PluginAbi.v
StreamKeys.v
ExchangeHooks.v
Background.v
Logging.v
StaticCluster.v
McpGateway.v
McpGatewayProps.v
SseTap.v
AsyncRouter.v
ClusterDfp.v
Discovery.v
WsProxy.v
McpCatalog.v
RequestSink.v
RequestUi.v
McpGatewayHttp.v
LlmDecider.v
AbiHandles.v
GoHeap.v
DemoConfig.v
ControlPlane.v
DemoRoutes.v
DemoControl.v
ShardFetch.v
Metrics.v
McpBackend.v
WsSetup.v
SinkServe.v
ServeLoop.v
ExampleFilters.v
FakeHandle.v
GoFlag.v
DemoCli.v
DemoMcp.v
GrpcGate.v
