(* ===== verification/Prelude.v ===== *)
(** * Verification of transit

    transit is a Go library for writing Envoy extensions as dynamic modules.  Package [up]
    is what users program against: HTTP stream filters with a [Writer], callouts and
    goroutines, clusters with host sets, promises and host selection, configuration and
    background groups.  Package [down] and [down/abi_impl] connect it to Envoy's C ABI.
    Under examples/ are extensions written with it: routers, load balancers, gateways, taps;
    under integrations/ the control planes, command lines and servers of their deployments.
    This library models both packages, the fakes users test with, and the examples and
    integrations that carry logic of their own in Rocq, and proves the properties their
    comments promise.

    ** How the program is modelled

    Envoy and its SDK are not part of the repository.  Their answers are the fields of the
    record [Envoy] (Envoy.v), functions of the calls made so far; every call on the SDK's
    handle is recorded in a list ([call]), so a statement about what the extension does to
    Envoy is a statement about that list.  What the code relies on is stated as classes with
    laws ([FoldEquiv], [HeaderMapLaws], [FilterStateLaws], [ClusterHandleLaws],
    [AddressedClusterLaws], [HostTableLaws], [SseJsonLaws], [RouteStoreLaws],
    [DocumentedMetrics], and [documented] for the ABI class [LbAbi]), each with a concrete
    instance used by the witnesses.  What one component promises another is stated alike
    ([HandlerLaws] of ControlPlane, [ApplyLaws] of ConfigFetch), and the implementations
    discharge it.  Third-party and system code (encoding/json, protobuf, net/url, DNS, HTTP
    clients, compression codecs, Unicode tables) are parameters of the definitions.  User
    code is a program over the [Writer] API: the inductive [prog] (FilterState.v) has one
    constructor per method, callbacks and continuations included, and [run] (Filter.v)
    executes it.  Go panics are the [Panic] case of [res].
    Integers are [Z] with the wrap-around written out where the code can reach it; byte
    slices are lists of bytes; maps are finite maps, and the order in which Go ranges over a
    map is an argument over which theorems quantify.  Concurrency is modelled by step
    relations at the granularity of the code's locks and atomic operations.

    Envoy may refuse hosts: [AddHosts] of down/abi_impl/cluster.go ignores the result of the
    call and returns as many pointers as hosts, all nil after a refusal.  The laws of the
    cluster interfaces ([ClusterHandleLaws], [AddressedClusterLaws], [HostTableLaws]) have
    both outcomes, and the theorems about hosts say which hosts they are about: the ones that
    are not nil, or those of addresses Envoy takes ([takes], [taken]).

    ** The files

    - Prelude: the panic monad, fixed-width conversions, the Go string functions the
      sources use ([EqualFold], [Cut], [StripPrefix], [ParseUint10], [Atoi]), list lemmas and
      tactics.
    - GoStrings: the functions of strings, bytes, sort and net/textproto the sources use,
      with their lemmas.
    - RingBuffer (up/buffer/buffer.go): [Ring] and [HeadTail].
    - Async (up/async.go): callout requests and responses, error values, buffer ownership and
      the queued mutation records.
    - StreamObject (down/stream_object.go): the process-wide registry of per-stream bags.
    - Envoy: calls, answers and laws of the SDK.
    - Grpc (up/grpc.go): frame codec and header parsing.
    - FilterState, Filter (up/filter.go, up/writer.go, up/stream_object.go, up/metadata.go,
      up/request.go, up/stream_finalized.go): the state of a stream and every operation on
      it: the [Writer] methods, [flush], the four callout forms, the callbacks of the request
      and response phases and [OnStreamComplete].
    - FilterFacts: the shared proof machinery: predicates stable under every step of a
      handler ([stable], [run_stable]), what a queueing writer leaves alone ([quiet]), what a
      writer that started a callout can still do ([run_started]).
    - FlushProps: deferred and direct mutations make the same calls, a flush replays nothing
      twice, a handler reads its own writes.
    - RequestProps: isolation of handler effects, finality of local replies, resumption of a
      paused stream.
    - CalloutProps: early and late delivery agree, callbacks after the end are inert, batches
      settle once and in order, sequences run in order.
    - Finalized (up/stream_finalized.go): the access logger that runs the finalized callback.
    - StreamProps: steps of a whole stream; the end of the response is always delivered; the
      stream-object round trip.
    - Handshake: the callout handoff as two racing threads.
    - Goroutine ([Writer.Go], [Writer.Do]): goroutine, scheduler queue and worker; the finish
      applies the queues as they are when only it is left to run.  GoPath: a sequential
      execution of the goroutine's code ([gexec]) against which the interleaved one is
      related, the answers of [Do] being those that arrived on its channel ([answers]).
    - GrpcProps: the codec round trip and unary delivery.
    - HostSet, HostSetProps (up/host_set.go): reconciliation of the published host map
      against the interface [ClusterHandle], refusals included.
    - HostRefresh (up/host_refresh_loop.go): the periodic refresh of a host set; claiming the
      pending flag and scheduling the apply are two steps, as in the code.
    - Promise (up/stream_promise.go), Completion (down/cluster.go, down/abi_impl/internal.go),
      Selector (up/async_host_selector.go with the ABI's token table): asynchronous host
      selection, with every lock and atomic operation of choosing, cancelling and completing
      a step of its own.
    - ClusterAbi (down/abi_impl/cluster.go): host packing, the main-thread scheduler and the
      life of the user's objects behind ABI handles, for every callback Envoy makes.
    - PipelineConfig (up/pipeline_config*.go) and FileWatch (up/pipeline_config_file.go): the
      published configuration, and the watch of its file as a step relation in which reads
      may fail; Group (up/group.go, up/cluster_group.go),
      Router (up/router.go), Registry (up/up.go, up/filter.go), ResponseFlags
      (down/response_flags.go), Compress (up/compress/compress.go).
    - StreamKeys (up/stream_key.go, up/stream_object.go): typed keys, and the stream object
      as the load balancer finds it through filter state.
    - ExchangeHooks (up/exchange_hooks.go): the request/response observer and its slot pool.
    - Background: the retry loop (Module [Watch], up/watch.go) and the life of the embedded
      server (Module [Sidecar], up/sidecar.go) as two goroutines.
    - Logging (up/writer.go, up/up.go, up/metadata.go): log attributes, the slog handler and
      typed metadata.
    - PluginAbi (down/abi_impl/lb_policy.go, down/abi_impl/access_logger.go, down/lb.go,
      up/access_logger.go): load-balancing policies and access loggers behind ABI handles.
    - AbiHandles (down/abi_impl): the methods of the handles Envoy's objects are read through,
      with their integer conversions and copies out of Envoy's memory.
    - Metrics (up/cluster.go, up/filter.go, up/access_logger.go, down/cluster.go): registration
      of cluster factories, and the metrics they define, as a table.
    - GoHeap: maps and slices shared by reference, as locations of a heap.
    - FakeHandle (up/testutil/testutil.go): the fakes; the fake handle is an [Envoy] that
      satisfies the laws, so that the theorems hold of tests against it.

    The examples, each proved against the interfaces above:
    - McpSession, McpRouter, McpRouterProps (mcp-profile-router) and McpGateway,
      McpGatewayProps (mcp-profile-gateway): composite sessions, fan-out to the backends and
      confinement of credentials; McpGatewayHttp: the net/http implementation of the gateway
      and its equivalence with the filter; McpBackend: the demo server behind the router;
      McpCatalog (mcp-catalog-router): forwarding to one server.
    - HostLookup, ClusterRouter, ShardRouter, ClusterDfp (cluster-router,
      cluster-shard-router, cluster-dfp): clusters whose hosts are found by address;
      ConfigFetch: the goroutine that fetches their configuration, against [ApplyLaws], and
      ShardFetch: the shard router under it, down to what a request sees of an update of the
      control plane.
    - StaticCluster (cluster-least-conn, cluster-filter-state, metadata, header-router):
      clusters of fixed hosts and the filters that steer them, against [HostTableLaws].
    - AsyncRouter (cluster-async-router): the upstream named by the request body, as a step
      relation over streams, load balancers, goroutines and main-thread tasks.
    - Discovery (cluster-group): hosts reconciled with a polled list.
    - RequestSink, SinkServe, RequestUi (request-ui): the inspector's stores (memory, and
      Postgres with its errors), broadcaster and writer goroutine, its HTTP handlers with the server-sent events, and the hooks that
      feed it.
    - CalloutGate (jwt-callout, async-callout) and GrpcGate (grpc-callout): filters that ask
      a service before they forward; ExampleFilters (filter-chain, spa, body-transform and
      two filters of e2e).
    - LlmDecider (llm-decider): a model chosen by a judge, and the host it is routed to.
    - DemoConfig (integrations/tiered-router-eg) and DemoRoutes (integrations/cluster-router-eg):
      configuration stores whose callers share memory with them, over GoHeap; ControlPlane:
      HTTP handlers over a store as interleaved steps, serializable under [HandlerLaws], and
      their client; DemoControl: the tiered router's control plane.
    - GoFlag: the package flag; DemoCli: the command lines of three demos, run against the
      control plane; ServeLoop: how their servers run and stop, as a step relation; DemoMcp
      (integrations/mcp-profile-tiered-router-eg): the catalog routers in front of the fake
      MCP servers.
    - RateLimit (ratelimit), LbPolicy (lb-policy*, cluster, cluster-least-conn), SseTap
      (sse-tap, on RingBuffer), WsProxy and WsSetup (ws-proxy: a session, and the wiring of
      the proxy and of its credential filter, with [os.Expand]).

    A definition has the name of the Go function or type it models; loops and closures that
    the Go code writes in place have names of their own, documented where they are defined.
    A theorem's comment that begins with a number states a property of the program; its
    instance on a concrete stream is the lemma of the same name with [_witness].  Theorems
    without a number are facts shared by proofs, or show where the code departs from its
    comments ([ring_zero_diverges], [specEqual_confuses_missing_with_empty],
    [handoff_can_lose_the_wakeup], [body_released_while_goroutine_runs],
    [grpc_header_status_overwritten], [concurrent_refresh_can_stick],
    [config_reload_stops_shared_group], [start_after_stop_runs],
    [second_filter_hides_objects], [second_execute_panics], [address_before_ready],
    [nested_group_replaces], [dotted_prefix_lists_uncallable_tools],
    [separator_in_profile_refuses_every_session], [version_of_another_snapshot],
    [metadata_route_misreads_unhealthy], [retry_aware_misreads_unhealthy],
    [user_flush_is_never_called], [nil_logger_is_recorded], [empty_frame_restarts_capture],
    [refused_host_is_known_as_nil], [published_entry_is_kept],
    [refused_address_is_remembered], [cancellation_record_leaks],
    [failed_read_waits_for_poll], [unfinished_stream_keeps_entry],
    [retried_selection_finds_nothing], [bad_path_panics], [router_bad_path_panics],
    [stores_disagree_on_errors_since], [stores_disagree_on_broadcast_order],
    [only_last_chunk_recorded], [response_body_flag_ignored], [failed_decision_not_logged],
    [client_decides_after_failure], [negative_timeout_wraps],
    [access_logger_drops_tag_keys], [slashed_shard_out_of_reach],
    [blank_shard_freezes_router], [shared_store_leaves_no_host], [long_refresh_panics],
    [case_collision_depends_on_order], [split_answer_is_refused],
    [replaced_file_waits_for_poll], [ws_auth_injects_nothing],
    [unset_reference_is_rewritten], [every_session_is_an_error],
    [failed_insert_drops_batch], [scan_row], [text_key_is_replaced],
    [fake_metrics_accept_unknown], [fake_gauges_look_alike], [fake_reads_string_as_number],
    [help_is_taken_for_the_model], [flags_before_the_name_are_refused],
    [leftover_arguments_are_ignored]).

    ** Bounds

    [Write_loop] takes as fuel the length of its input: each iteration of the loop consumes
    at least one byte when the capacity is positive, and [ring_keeps_last] proves that this
    fuel is enough.  [mint_bag] draws nonces until one is unused, with fuel one more than the
    number of bags: by then a source that does not repeat itself has given a fresh one
    ([stream_object_roundtrip]).  [seq_step] recurses while Envoy rejects callouts; its fuel
    is [ev_stack], the depth of the Go stack, whose exhaustion is a panic as in Go.
    [FormatUint16] and [digits36] have fuel for the digits of a [uint64].  [scan_loop]
    takes the length of the text, since each turn consumes a line ([scanLines_lines] proves
    it enough), [scan] and [least_loop] one unit per host index, and [RunRetry] counts
    iterations: [retry_until_cancelled] says how many it needs.  The tokens of the
    asynchronous router are distinct for fewer than 2^64 streams ([bounded]).
    [status_digits] has fuel for the digits of an [int], and record identifiers of the
    inspector's store stay below 2^63.  [expand_loop] takes the length of the string, since
    each turn consumes a character ([expand_loop_any] proves any larger fuel equal).

    ** What is not modelled

    Durations and timers (ticks are steps, fetch results are inputs); the admin page; the
    identifiers of attributes and the declarations of interfaces, which have no behaviour; the
    C glue; Postgres itself and the WebSocket library; the echo handlers of the demo
    upstreams and the example programs that only start what is modelled; the trace-propagation
    and observability examples, whose work OpenTelemetry does; the filters and sinks of e2e
    and the harnesses that run Envoy (egtest, e2etest), which are tests.  Sharing of memory is
    modelled where a component hands its maps to callers (GoHeap); elsewhere a returned slice
    is its contents, and ownership of Envoy buffers is a tag on the buffer ([owner]).  Go's
    data races are outside the model: each step is atomic at the level of a lock or an atomic
    operation. *)
From stdpp Require Import base list gmap strings pretty.
From Stdlib Require Import ZArith Lia.
From Stdlib Require Export Strings.Byte.

(** ** Data shared by every component *)


(** A Go [[]byte] value: the contents of the slice. *)
Abbreviation bytes := (list Byte.byte).

#[export] Instance byte_eq_dec : EqDecision Byte.byte := Byte.byte_eq_dec.

(** ** Results of Go code that may panic *)

Inductive res (A : Type) : Type :=
  | Ok (a : A)
  | Panic (msg : string).
Arguments Ok {A} a.
Arguments Panic {A} msg.

#[export] Instance res_ret : MRet res := fun A a => Ok a.
#[export] Instance res_bind : MBind res := fun A B f m =>
  match m with
  | Ok a => f a
  | Panic msg => Panic msg
  end.

(** ** Fixed-width conversions *)

Definition uint32_of (z : Z) : Z := (z mod 2 ^ 32)%Z.
Definition uint64_of (z : Z) : Z := (z mod 2 ^ 64)%Z.

(** ** The development's hint database and tactics *)

Create HintDb transit.
Create Rewrite HintDb transit.

(** Case analysis on every [match] or [if] scrutinee of the goal, keeping the equations. *)
Ltac case_all :=
  repeat (case_match; simplify_eq/=).

(** Split conjunctions and records of the context, then finish the easy goals. *)
Ltac crush :=
  intros; simplify_eq/=; repeat (split_and! || case_match || simplify_eq/=);
  try done; eauto with transit.

(** ** What the code uses of Go's [strings] and [strconv] *)

(** A byte of a string as a number. *)
Definition code (c : Ascii.ascii) : N := Ascii.N_of_ascii c.

Lemma code_inj a b : code a = code b -> a = b.
Proof.
  unfold code. intros H. by rewrite <-(Ascii.ascii_N_embedding a), <-(Ascii.ascii_N_embedding b), H.
Qed.

(** The ASCII case test of [strings.EqualFold] on two bytes below 0x80. *)
Definition fold_eq_ascii (s t : Ascii.ascii) : bool :=
  let lo := N.min (code s) (code t) in
  let hi := N.max (code s) (code t) in
  bool_decide (s = t) ||
  ((65 <=? lo)%N && (lo <=? 90)%N && (hi =? lo + 32)%N).

(** [strings.EqualFold]: the ASCII loop of the library, with what it does from the first
    non-ASCII byte on as the argument [unicode]. *)
Fixpoint EqualFold (unicode : string -> string -> bool) (s t : string) : bool :=
  match s, t with
  | EmptyString, EmptyString => true
  | String a s', String b t' =>
      if (128 <=? N.lor (code a) (code b))%N then unicode s t
      else if fold_eq_ascii a b then EqualFold unicode s' t' else false
  | _, _ => false
  end.

(** [strings.HasPrefix] and the rest [path[len(prefix):]] when it holds. *)
Fixpoint StripPrefix (p s : string) : option string :=
  match p, s with
  | EmptyString, _ => Some s
  | String a p', String b s' => if bool_decide (a = b) then StripPrefix p' s' else None
  | _, EmptyString => None
  end.

Definition HasPrefix (s p : string) : bool := bool_decide (is_Some (StripPrefix p s)).

Lemma StripPrefix_Some p s r : StripPrefix p s = Some r <-> s = p +:+ r.
Proof.
  revert s. induction p as [|a p IH]; intros s; [by split; intros [= ->]|].
  destruct s as [|b s]; [done|]. cbn. case_bool_decide as Hab.
  - subst b. rewrite IH. split; [by intros ->|by intros [= ->]].
  - split; [done|]. intros [= ? ?]. congruence.
Qed.

(** [strings.Cut(s, sep)] for a one-byte separator: the part before it, the part after
    it, and whether it was found. *)
Fixpoint Cut (s : string) (sep : Ascii.ascii) : string * string * bool :=
  match s with
  | EmptyString => (EmptyString, EmptyString, false)
  | String a s' =>
      if bool_decide (a = sep) then (EmptyString, s', true)
      else let '(b, aft, found) := Cut s' sep in (String a b, aft, found)
  end.

(** The value of a string of decimal digits; [None] when a byte is not a digit. *)
Fixpoint digits (acc : Z) (s : string) : option Z :=
  match s with
  | EmptyString => Some acc
  | String a s' =>
      if ((48 <=? code a) && (code a <=? 57))%N
      then digits (acc * 10 + (Z.of_N (code a) - 48))%Z s' else None
  end.

(** [strconv.ParseUint(s, 10, bits)]: [None] on a syntax or range error. *)
Definition ParseUint10 (s : string) (bits : Z) : option Z :=
  if decide (s = EmptyString) then None
  else match digits 0 s with
       | Some v => if (v <? 2 ^ bits)%Z then Some v else None
       | None => None
       end.

(** The first result of [strconv.Atoi]: 0 on a syntax error, the nearest [int] on a
    range error. *)
Definition Atoi_value (s : string) : Z :=
  let '(neg, d) := match s with
                   | String a s' => if (code a =? 45)%N then (true, s')
                                    else if (code a =? 43)%N then (false, s') else (false, s)
                   | EmptyString => (false, s)
                   end in
  if decide (d = EmptyString) then 0%Z
  else match digits 0 d with
       | None => 0%Z
       | Some v => if neg then Z.max (- 2 ^ 63) (- v) else Z.min (2 ^ 63 - 1) v
       end.

(** [strconv.Itoa(len(b))]. *)
Definition Itoa_len (b : bytes) : string := pretty (Z.of_nat (length b)).

(** ** Lists *)

(** [lastn n l]: the last [n] elements of [l]. *)
Definition lastn {A} (n : nat) (l : list A) : list A := drop (length l - n) l.

Section lists.
Context {A : Type}.
Implicit Types l k : list A.

Lemma lastn_length n l : length (lastn n l) = n `min` length l.
Proof. unfold lastn. rewrite length_drop. lia. Qed.

Lemma lastn_all n l : length l <= n -> lastn n l = l.
Proof. intros. unfold lastn. by replace (length l - n) with 0 by lia. Qed.

Lemma lastn_app_ge n l k : n <= length k -> lastn n (l ++ k) = lastn n k.
Proof.
  intros. unfold lastn. rewrite length_app, drop_app_ge by lia. f_equal. lia.
Qed.

Lemma lastn_app_le n l k :
  length k <= n -> lastn n (l ++ k) = lastn (n - length k) l ++ k.
Proof.
  intros. unfold lastn. rewrite length_app.
  destruct (decide (length l + length k - n <= length l)).
  - rewrite drop_app_le by lia. f_equal. f_equal. lia.
  - lia.
Qed.

(** Appending to a window keeps only the window of the appended history. *)
Lemma lastn_app_lastn n l k : lastn n (lastn n l ++ k) = lastn n (l ++ k).
Proof.
  destruct (decide (n <= length k)).
  - by rewrite !lastn_app_ge.
  - rewrite !lastn_app_le by lia. f_equal. unfold lastn.
    rewrite length_drop, drop_drop. f_equal. lia.
Qed.
End lists.

(** ** Maps *)

(** Writing a value per key, one key after the other: the order does not matter. *)
Lemma lookup_foldl_insert {V} (f : string -> V) ids : forall (m : gmap string V) k,
  foldl (fun m id => <[id := f id]> m) m ids !! k =
  if decide (k ∈ ids) then Some (f k) else m !! k.
Proof.
  induction ids as [|id ids IH]; intros m k; [done|]. cbn. rewrite IH.
  destruct (decide (k = id)) as [->|Hk].
  - rewrite (decide_True (P := id ∈ id :: ids)) by apply list_elem_of_here.
    case_decide; [done|]. apply lookup_insert_eq.
  - rewrite lookup_insert_ne by done.
    by repeat case_decide; rewrite ?elem_of_cons in *; naive_solver.
Qed.

Lemma foldl_insert_perm {V} (f : string -> V) ids ids' (m : gmap string V) :
  ids ≡ₚ ids' ->
  foldl (fun m id => <[id := f id]> m) m ids = foldl (fun m id => <[id := f id]> m) m ids'.
Proof.
  intros Hp. apply map_eq. intros k. rewrite !lookup_foldl_insert.
  repeat case_decide; try done; by rewrite Hp in *.
Qed.
