(* ===== verification/GoStrings.v ===== *)
(** * GoStrings: what the components use of Go's [strings] and [sort]

    [TrimSpace], [ToLower], [Split], [Index], [LastIndex], [TrimRight], [Contains] and the
    byte-wise order of strings.  [TrimSpace] is exact, with the encodings of the Unicode
    white space characters written out; lower-casing of a string with a non-ASCII byte needs
    the Unicode tables and is the field of the class [GoUnicode]. *)
From stdpp Require Import base list strings sorting sets.
From Stdlib Require Import ZArith Lia Ascii.
From S2P Require Import Prelude.

Abbreviation chars := (list Ascii.ascii).
Abbreviation to_chars := String.list_ascii_of_string.
Abbreviation of_chars := String.string_of_list_ascii.

Lemma of_to_chars s : of_chars (to_chars s) = s.
Proof. apply String.string_of_list_ascii_of_string. Qed.

Lemma to_of_chars l : to_chars (of_chars l) = l.
Proof. apply String.list_ascii_of_string_of_list_ascii. Qed.

#[export] Hint Rewrite of_to_chars to_of_chars : transit.

Lemma to_chars_app s t : to_chars (s +:+ t) = to_chars s ++ to_chars t.
Proof.
  induction s as [|a s IH]; [done|].
  change (a :: to_chars (s +:+ t) = a :: (to_chars s ++ to_chars t)). by rewrite IH.
Qed.

Lemma to_chars_inj s t : to_chars s = to_chars t -> s = t.
Proof. intros H. by rewrite <- (of_to_chars s), <- (of_to_chars t), H. Qed.

Lemma of_chars_app k l : of_chars (k ++ l) = of_chars k +:+ of_chars l.
Proof. apply to_chars_inj. by rewrite to_chars_app, !to_of_chars. Qed.

(** ** Trimming *)

(** [strings.TrimSpace] drops from both ends the characters whose encodings are recognised
    by the three tests: one byte, two bytes, three bytes. *)
Section trim.
Context (sp1 : ascii -> bool) (sp2 : ascii -> ascii -> bool)
        (sp3 : ascii -> ascii -> ascii -> bool).

Fixpoint trim_front (l : chars) : chars :=
  match l with
  | [] => []
  | a :: l1 =>
      if sp1 a then trim_front l1 else
      match l1 with
      | [] => l
      | b :: l2 =>
          if sp2 a b then trim_front l2 else
          match l2 with
          | [] => l
          | c :: l3 => if sp3 a b c then trim_front l3 else l
          end
      end
  end.

(** The list begins with one of the trimmed characters. *)
Definition front_space (l : chars) : bool :=
  match l with
  | [] => false
  | a :: l1 => sp1 a ||
      match l1 with
      | [] => false
      | b :: l2 => sp2 a b ||
          match l2 with [] => false | c :: _ => sp3 a b c end
      end
  end.

Lemma trim_front_id l : front_space l = false -> trim_front l = l.
Proof.
  destruct l as [|a [|b [|c l]]]; cbn; [done| | |]; intros H;
    repeat apply orb_false_iff in H as [? H]; by repeat case_match.
Qed.

(** What is left is a suffix that begins with no such character. *)
Lemma trim_front_spec l :
  front_space (trim_front l) = false /\ exists k, l = k ++ trim_front l.
Proof.
  remember (length l) as n eqn:Hn. revert l Hn.
  induction (lt_wf n) as [n _ IH]. intros l ->.
  assert (Hrec : forall k m, l = k ++ m -> k <> [] -> trim_front l = trim_front m ->
    front_space (trim_front l) = false /\ exists j, l = j ++ trim_front l).
  { intros k m -> Hk ->. destruct (IH (length m)) with (l := m) as [? [j Hj]]; [|done|].
    - rewrite length_app. destruct k; [done|]. cbn; lia.
    - split; [done|]. exists (k ++ j). by rewrite <- app_assoc, <- Hj. }
  destruct l as [|a l1]; [split; [done|by exists []]|].
  destruct (sp1 a) eqn:E1; [apply (Hrec [a] l1); by cbn; rewrite ?E1|].
  destruct l1 as [|b l2]; [cbn; rewrite E1; split; [by cbn; rewrite E1|by exists []]|].
  destruct (sp2 a b) eqn:E2; [apply (Hrec [a; b] l2); by cbn; rewrite ?E1, ?E2|].
  destruct l2 as [|c l3].
  { cbn; rewrite E1, E2. split; [by cbn; rewrite E1, E2|by exists []]. }
  destruct (sp3 a b c) eqn:E3; [apply (Hrec [a; b; c] l3); by cbn; rewrite ?E1, ?E2, ?E3|].
  cbn; rewrite E1, E2, E3. split; [by cbn; rewrite E1, E2, E3|by exists []].
Qed.

Lemma front_space_app k l : front_space k = true -> front_space (k ++ l) = true.
Proof.
  destruct k as [|a [|b [|c k]]]; cbn; rewrite ?orb_true_iff, ?orb_false_r; naive_solver.
Qed.
End trim.

(** The encodings of the white space characters: the ASCII ones; U+0085 and U+00A0; U+1680,
    U+2000 to U+200A, U+2028, U+2029, U+202F, U+205F and U+3000. *)
Definition space1 (a : ascii) : bool :=
  let n := code a in (((9 <=? n) && (n <=? 13)) || (n =? 32))%N.

Definition space2 (a b : ascii) : bool :=
  ((code a =? 0xC2) && ((code b =? 0x85) || (code b =? 0xA0)))%N.

Definition space3 (a b c : ascii) : bool :=
  let '(x, y, z) := (code a, code b, code c) in
  (((x =? 0xE1) && (y =? 0x9A) && (z =? 0x80)) ||
   ((x =? 0xE2) && (y =? 0x80) &&
      (((0x80 <=? z) && (z <=? 0x8A)) || (z =? 0xA8) || (z =? 0xA9) || (z =? 0xAF))) ||
   ((x =? 0xE2) && (y =? 0x81) && (z =? 0x9F)) ||
   ((x =? 0xE3) && (y =? 0x80) && (z =? 0x80)))%N.

Definition TrimLeftSpace (l : chars) : chars := trim_front space1 space2 space3 l.
Definition TrimRightSpace (l : chars) : chars :=
  reverse (trim_front space1 (flip space2) (fun c b a => space3 a b c) (reverse l)).

Definition TrimSpace (s : string) : string :=
  of_chars (TrimRightSpace (TrimLeftSpace (to_chars s))).

Lemma TrimRightSpace_prefix l : exists k, l = TrimRightSpace l ++ k.
Proof.
  unfold TrimRightSpace.
  destruct (trim_front_spec space1 (flip space2) (fun c b a => space3 a b c) (reverse l))
    as [_ [k Hk]].
  exists (reverse k). by rewrite <- reverse_app, <- Hk, reverse_involutive.
Qed.

Lemma TrimRightSpace_idem l : TrimRightSpace (TrimRightSpace l) = TrimRightSpace l.
Proof.
  unfold TrimRightSpace. rewrite reverse_involutive. f_equal.
  apply trim_front_id, trim_front_spec.
Qed.

(** Trimming twice is trimming once. *)
Lemma TrimSpace_idem s : TrimSpace (TrimSpace s) = TrimSpace s.
Proof.
  unfold TrimSpace. rewrite to_of_chars. f_equal.
  set (u := TrimLeftSpace (to_chars s)).
  destruct (TrimRightSpace_prefix u) as [k Hk].
  assert (Hu : front_space space1 space2 space3 u = false) by apply trim_front_spec.
  assert (Hl : TrimLeftSpace (TrimRightSpace u) = TrimRightSpace u).
  { apply trim_front_id. destruct (front_space _ _ _ (TrimRightSpace u)) eqn:E; [|done].
    apply (front_space_app _ _ _ _ k) in E. rewrite <- Hk in E. congruence. }
  by rewrite Hl, TrimRightSpace_idem.
Qed.

(** A string whose ends are not white space is left alone. *)
Lemma TrimSpace_id s :
  front_space space1 space2 space3 (to_chars s) = false ->
  front_space space1 (flip space2) (fun c b a => space3 a b c) (reverse (to_chars s)) = false ->
  TrimSpace s = s.
Proof.
  intros Hf Hb. unfold TrimSpace, TrimRightSpace, TrimLeftSpace.
  rewrite (trim_front_id _ _ _ _ Hf), (trim_front_id _ _ _ _ Hb), reverse_involutive.
  apply of_to_chars.
Qed.

(** ** Lower case *)

Definition lower_ascii (a : ascii) : ascii :=
  if ((65 <=? code a) && (code a <=? 90))%N then ascii_of_N (code a + 32) else a.

Definition isASCII (s : string) : bool :=
  forallb (fun a => code a <? 128)%N (to_chars s).

(** [strings.Map(unicode.ToLower, s)] on a string that has a byte of 0x80 or more. *)
Class GoUnicode := map_unicode_lower : string -> string.

Definition ToLower `{GoUnicode} (s : string) : string :=
  if isASCII s then of_chars (map lower_ascii (to_chars s)) else map_unicode_lower s.

Lemma ToLower_ascii `{GoUnicode} s :
  isASCII s = true -> ToLower s = of_chars (map lower_ascii (to_chars s)).
Proof. unfold ToLower. by intros ->. Qed.

(** ** Splitting and searching *)

(** [strings.Split(s, sep)] for a one-byte separator. *)
Fixpoint split_chars (sep : ascii) (cur : chars) (l : chars) : list chars :=
  match l with
  | [] => [reverse cur]
  | a :: l' => if bool_decide (a = sep) then reverse cur :: split_chars sep [] l'
               else split_chars sep (a :: cur) l'
  end.

Definition Split (s : string) (sep : ascii) : list string :=
  map of_chars (split_chars sep [] (to_chars s)).

(** [strings.Join(parts, sep)]. *)
Fixpoint join_chars (sep : ascii) (ls : list chars) : chars :=
  match ls with
  | [] => []
  | [l] => l
  | l :: ls' => l ++ sep :: join_chars sep ls'
  end.

Lemma split_chars_free sep cur l :
  sep ∉ l -> split_chars sep cur l = [reverse cur ++ l].
Proof.
  revert cur. induction l as [|a l IH]; intros cur Hn; cbn.
  - by rewrite app_nil_r.
  - rewrite bool_decide_false by set_solver. rewrite IH by set_solver.
    by rewrite reverse_cons, <- app_assoc.
Qed.

Lemma split_chars_app sep cur l k :
  sep ∉ l -> split_chars sep cur (l ++ sep :: k) = (reverse cur ++ l) :: split_chars sep [] k.
Proof.
  revert cur. induction l as [|a l IH]; intros cur Hn; cbn.
  - rewrite bool_decide_true by done. by rewrite app_nil_r.
  - rewrite bool_decide_false by set_solver. rewrite IH by set_solver.
    by rewrite reverse_cons, <- app_assoc.
Qed.

(** Splitting undoes joining when no part holds the separator. *)
Lemma Split_join sep ls :
  ls <> [] -> Forall (fun l => sep ∉ l) ls -> split_chars sep [] (join_chars sep ls) = ls.
Proof.
  intros Hne Hf. induction Hf as [|l ls Hl Hf IH]; [done|].
  destruct ls as [|k ls].
  - cbn [join_chars]. by rewrite split_chars_free.
  - cbn [join_chars]. rewrite split_chars_app by done. f_equal. by apply IH.
Qed.

(** [strings.Index(s, c)] and [strings.LastIndex(s, c)] for a one-byte string; [None] for
    -1. *)
Fixpoint index_chars (c : ascii) (l : chars) : option nat :=
  match l with
  | [] => None
  | a :: l' => if bool_decide (a = c) then Some 0 else S <$> index_chars c l'
  end.

Definition last_index_chars (c : ascii) (l : chars) : option nat :=
  (fun i => length l - 1 - i) <$> index_chars c (reverse l).

Lemma index_chars_app c l k : c ∉ l -> index_chars c (l ++ c :: k) = Some (length l).
Proof.
  induction l as [|a l IH]; intros Hn; cbn.
  - by rewrite bool_decide_true.
  - rewrite bool_decide_false by set_solver. rewrite IH by set_solver. done.
Qed.

Lemma index_chars_free c l : c ∉ l -> index_chars c l = None.
Proof.
  induction l as [|a l IH]; intros Hn; cbn; [done|].
  rewrite bool_decide_false by set_solver. by rewrite IH by set_solver.
Qed.

Lemma last_index_chars_app c l k :
  c ∉ k -> last_index_chars c (l ++ c :: k) = Some (length l).
Proof.
  intros Hk. unfold last_index_chars.
  rewrite reverse_app, reverse_cons, <- app_assoc. cbn [app].
  rewrite index_chars_app by (by rewrite elem_of_reverse). cbn [fmap option_fmap option_map].
  f_equal. rewrite length_reverse, length_app. cbn. lia.
Qed.

(** [strings.TrimRight(s, cutset)] for a one-byte cut set. *)
Definition TrimRight (s : string) (c : ascii) : string :=
  of_chars (reverse (trim_front (fun a => bool_decide (a = c)) (fun _ _ => false)
                                (fun _ _ _ => false) (reverse (to_chars s)))).

(** [strconv.Quote(s)], the verb [%q]: quotes and backslashes are escaped, control
    characters are written by name or by code; the rest of the text, taken to be printable,
    is kept. *)
Definition hex_digit (n : N) : ascii :=
  ascii_of_N (if (n <? 10)%N then n + 48 else n + 87)%N.
Definition quote_char (c : ascii) : chars :=
  let n := code c in
  let esc (d : ascii) := [ascii_of_N 92; d] in
  if decide (n = 34 \/ n = 92)%N then esc c
  else if decide (n = 7)%N then esc "a"%char else if decide (n = 8)%N then esc "b"%char
  else if decide (n = 12)%N then esc "f"%char else if decide (n = 10)%N then esc "n"%char
  else if decide (n = 13)%N then esc "r"%char else if decide (n = 9)%N then esc "t"%char
  else if decide (n = 11)%N then esc "v"%char
  else if decide (n < 32 \/ n = 127)%N
  then [ascii_of_N 92; "x"; hex_digit (n / 16); hex_digit (n mod 16)]%char
  else [c].
Definition Quote (s : string) : string :=
  let q := ascii_of_N 34 in of_chars (q :: (to_chars s ≫= quote_char) ++ [q]).

(** [strings.Contains(s, sub)]. *)
Fixpoint Contains (s sub : string) : bool :=
  HasPrefix s sub || match s with EmptyString => false | String _ s' => Contains s' sub end.

(** Cutting at the first separator. *)
Lemma Cut_app s t sep :
  sep ∉ to_chars s -> Cut (s +:+ String sep t) sep = (s, t, true).
Proof.
  induction s as [|a s IH]; intros Hn.
  - change (Cut (String sep t) sep = (EmptyString, t, true)). cbn [Cut].
    by rewrite bool_decide_true.
  - change (Cut (String a (s +:+ String sep t)) sep = (String a s, t, true)).
    cbn [Cut]. cbn in Hn. rewrite bool_decide_false by set_solver.
    by rewrite IH by set_solver.
Qed.

(** The parts [Cut] returns when it finds the separator, and their recomposition. *)
Lemma Cut_spec s sep b aft found :
  Cut s sep = (b, aft, found) ->
  (sep ∉ to_chars b) /\
  (if found then s = b +:+ String sep aft else s = b /\ aft = EmptyString).
Proof.
  revert b aft found. induction s as [|a s IH]; intros b aft found; cbn.
  - intros [= <- <- <-]. split; [cbn; set_solver|done].
  - case_bool_decide as Ha.
    + intros [= <- <- <-]. subst. split; [cbn; set_solver|done].
    + destruct (Cut s sep) as [[b' aft'] found'] eqn:E. intros [= <- <- <-].
      destruct (IH _ _ _ eq_refl) as [Hn Hf]. split; [cbn; set_solver|].
      destruct found'; [by rewrite Hf at 1|]. by destruct Hf as [-> ->].
Qed.

(** ** The order of strings *)

(** Go's [<] on strings: byte-wise lexicographic. *)
Fixpoint str_lt (s t : string) : bool :=
  match s, t with
  | _, EmptyString => false
  | EmptyString, String _ _ => true
  | String a s', String b t' =>
      (code a <? code b)%N || ((code a =? code b)%N && str_lt s' t')
  end.

(** Case analysis on the comparison of two bytes. *)
Ltac str_cases :=
  repeat rewrite ?orb_true_iff, ?andb_true_iff, ?N.ltb_lt, ?N.eqb_eq in *.

Lemma str_lt_irrefl s : str_lt s s = false.
Proof.
  induction s as [|a s IH]; [done|]. cbn. by rewrite N.ltb_irrefl, IH, andb_false_r.
Qed.

Lemma str_lt_trans s t u : str_lt s t = true -> str_lt t u = true -> str_lt s u = true.
Proof.
  revert t u. induction s as [|a s IH]; intros [|b t] [|c u]; cbn; try done.
  str_cases. intros [H|[H H']] [K|[K K']]; [left; lia|left; lia|left; lia|].
  right. split; [lia|eauto].
Qed.

Lemma str_lt_tricho s t : str_lt s t = true \/ s = t \/ str_lt t s = true.
Proof.
  revert t. induction s as [|a s IH]; intros [|b t]; cbn; eauto. str_cases.
  destruct (N.lt_trichotomy (code a) (code b)) as [H|[H|H]]; eauto.
  apply code_inj in H as ->. destruct (IH t) as [|[->|]]; eauto.
Qed.

Definition str_le (s t : string) : Prop := str_lt t s = false.

#[export] Instance str_le_dec : RelDecision str_le.
Proof. intros s t. unfold str_le. apply _. Defined.

#[export] Instance str_le_refl : Reflexive str_le.
Proof. intros s. apply str_lt_irrefl. Qed.

#[export] Instance str_le_trans : Transitive str_le.
Proof.
  intros s t u Hst Htu. unfold str_le in *. destruct (str_lt u s) eqn:E; [|done].
  destruct (str_lt_tricho t s) as [H|[->|H]]; [congruence|congruence|].
  rewrite (str_lt_trans _ _ _ E H) in Htu. done.
Qed.

#[export] Instance str_le_antisym : AntiSymm (=) str_le.
Proof. intros s t Hst Hts. unfold str_le in *. destruct (str_lt_tricho s t) as [|[|]]; congruence. Qed.

#[export] Instance str_le_total : Total str_le.
Proof.
  intros s t. unfold str_le. destruct (str_lt t s) eqn:E; [|by left].
  right. destruct (str_lt s t) eqn:E'; [|done].
  by rewrite <- (str_lt_irrefl s), (str_lt_trans _ _ _ E' E).
Qed.

(** [sort.Strings] and [sort.Slice] by name: some sorted arrangement; equal strings are
    indistinguishable, so there is one. *)
Definition sort_Strings (l : list string) : list string := merge_sort str_le l.

Lemma sort_Strings_unique l k : l ≡ₚ k -> sort_Strings l = sort_Strings k.
Proof.
  intros Hp. apply (Sorted_unique str_le); try (apply Sorted_merge_sort; apply _).
  unfold sort_Strings. by rewrite !merge_sort_Permutation.
Qed.

(** ** Header names *)

Definition upper_ascii (a : ascii) : ascii :=
  if ((97 <=? code a) && (code a <=? 122))%N then ascii_of_N (code a - 32) else a.

(** A byte allowed in a header name. *)
Definition token_byte (a : ascii) : bool :=
  let n := code a in
  (((48 <=? n) && (n <=? 57)) || ((65 <=? n) && (n <=? 90)) || ((97 <=? n) && (n <=? 122)))%N
  || bool_decide (a ∈ to_chars "!#$%&'*+-.^_`|~").

Fixpoint canonical_chars (up : bool) (l : chars) : chars :=
  match l with
  | [] => []
  | a :: l' => (if up then upper_ascii a else lower_ascii a) ::
               canonical_chars (bool_decide (a = "-"%char)) l'
  end.

(** [textproto.CanonicalMIMEHeaderKey], the key under which [http.Header] stores. *)
Definition CanonicalMIMEHeaderKey (s : string) : string :=
  if forallb token_byte (to_chars s) then of_chars (canonical_chars true (to_chars s)) else s.

(** ** Concatenation *)

Lemma append_nil (s : string) : s +:+ "" = s.
Proof. induction s as [|c s IH]; [done|]. change (String c s +:+ "") with (String c (s +:+ "")). by rewrite IH. Qed.

Lemma append_assoc (a b c : string) : (a +:+ b) +:+ c = a +:+ b +:+ c.
Proof. induction a as [|x a IH]; [done|]. change (String x ((a +:+ b) +:+ c) = String x (a +:+ b +:+ c)). by rewrite IH. Qed.
