(* ===== verification/RingBuffer.v ===== *)
(** * up/buffer/buffer.go: the ring that keeps the last bytes of a stream, and HeadTail

    [Ring] is the fixed-size circular buffer, [HeadTail] the pair of a head slab
    and a tail ring.  The abstract state of both is the history of the bytes
    written since construction, [Reset], or the last linearisation. *)
From stdpp Require Import base list strings.
From Stdlib Require Import ZArith Lia.
From S2P Require Import Prelude.

(** ** Go's [copy] and [slices.Reverse] on a sub-slice *)

(** [copy(dst[at:], src)]: the number of bytes copied and the new contents of [dst]. *)
Definition copy_at (dst : bytes) (at_ : nat) (src : bytes) : nat * bytes :=
  let n := (length dst - at_) `min` length src in
  (n, take at_ dst ++ take n src ++ drop (at_ + n) dst).

(** [slices.Reverse(data[lo:hi])]. *)
Definition reverse_slice (data : bytes) (lo hi : nat) : bytes :=
  take lo data ++ reverse (take (hi - lo) (drop lo data)) ++ drop hi data.

(** ** Ring *)

Record Ring := mkRing {
  data : bytes;
  size : nat;
  pos : nat;
  full : bool;
}.

(** [NewRing(size)]: [make] panics on a negative length. *)
Definition NewRing (size : Z) : res Ring :=
  if (size <? 0)%Z then Panic "makeslice: len out of range"
  else Ok (mkRing (replicate (Z.to_nat size) x00) (Z.to_nat size) 0 false).

(** One iteration of the loop of [Write] on the remaining input. *)
Definition Write_step (rb : Ring) (p : bytes) : Ring * bytes :=
  let '(n, d) := copy_at (data rb) (pos rb) p in
  let pos' := pos rb + n in
  let p' := drop n p in
  if size rb <=? pos'
  then (mkRing d (size rb) 0 true, p')
  else (mkRing d (size rb) pos' (full rb), p').

(** [for len(p) > 0 { ... }], with [None] when [fuel] iterations do not end it. *)
Fixpoint Write_loop (fuel : nat) (rb : Ring) (p : bytes) : option Ring :=
  match p, fuel with
  | [], _ => Some rb
  | _, O => None
  | _, S fuel => let '(rb', p') := Write_step rb p in Write_loop fuel rb' p'
  end.

(** [Write(p)]: at most one iteration per byte is needed ([Write_terminates]). *)
Definition Write (rb : Ring) (p : bytes) : option Ring := Write_loop (length p) rb p.

(** [Bytes()]: the returned contents and the ring left behind. *)
Definition Bytes (rb : Ring) : bytes * Ring :=
  if full rb then
    let d := reverse_slice (data rb) 0 (pos rb) in
    let d := reverse_slice d (pos rb) (size rb) in
    let d := reverse_slice d 0 (size rb) in
    (take (size rb) d, mkRing d (size rb) 0 false)
  else (take (pos rb) (data rb), rb).

Definition Reset (rb : Ring) : Ring := mkRing (data rb) (size rb) 0 false.

Definition Len (rb : Ring) : nat := if full rb then size rb else pos rb.

(** ** HeadTail *)

Record HeadTail := mkHeadTail {
  head : bytes;
  headN : nat;
  headSize : nat;
  tail : Ring;
}.

Definition NewHeadTail (headSize tailSize : Z) : res HeadTail :=
  if (headSize <? 0)%Z then Panic "makeslice: len out of range"
  else
    t ← NewRing tailSize;
    Ok (mkHeadTail (replicate (Z.to_nat headSize) x00) 0 (Z.to_nat headSize) t).

Definition HT_Write (ht : HeadTail) (p : bytes) : option HeadTail :=
  let ht :=
    if headN ht <? headSize ht then
      let '(n, h) := copy_at (head ht) (headN ht) p in
      mkHeadTail h (headN ht + n) (headSize ht) (tail ht)
    else ht in
  match Write (tail ht) p with
  | Some t => Some (mkHeadTail (head ht) (headN ht) (headSize ht) t)
  | None => None
  end.

Definition Head (ht : HeadTail) : bytes := take (headN ht) (head ht).

Definition Tail (ht : HeadTail) : bytes * HeadTail :=
  let '(b, t) := Bytes (tail ht) in
  (b, mkHeadTail (head ht) (headN ht) (headSize ht) t).

Definition HT_Reset (ht : HeadTail) : HeadTail :=
  mkHeadTail (head ht) 0 (headSize ht) (Reset (tail ht)).

(** ** The abstract state: the history the ring stands for *)

(** The bytes held by the ring, oldest first. *)
Definition content (rb : Ring) : bytes :=
  if full rb then drop (pos rb) (data rb) ++ take (pos rb) (data rb)
  else take (pos rb) (data rb).

(** [ring_ok rb hist]: [rb] is well formed and stands for the history [hist]. *)
Record ring_ok (rb : Ring) (hist : bytes) : Prop := {
  ok_length : length (data rb) = size rb;
  ok_pos : pos rb < size rb;
  ok_content : content rb = lastn (size rb) hist;
  ok_full : full rb = true -> size rb <= length hist;
  ok_part : full rb = false -> length hist = pos rb;
}.

(** [ht_ok ht hist]: the head slab holds the first bytes of [hist], the ring the last. *)
Record ht_ok (ht : HeadTail) (hist : bytes) : Prop := {
  ok_head_length : length (head ht) = headSize ht;
  ok_headN : headN ht = headSize ht `min` length hist;
  ok_head : take (headN ht) (head ht) = take (headSize ht) hist;
  ok_tail : ring_ok (tail ht) hist;
}.

(** A sequence of [Write]s, in order. *)
Definition Writes (rb : Ring) (ps : list bytes) : option Ring :=
  foldl (fun r p => r ≫= fun rb => Write rb p) (Some rb) ps.

Definition HT_Writes (ht : HeadTail) (ps : list bytes) : option HeadTail :=
  foldl (fun r p => r ≫= fun ht => HT_Write ht p) (Some ht) ps.

(** ** Lemmas *)

Lemma copy_at_length d i p n d' :
  i <= length d -> copy_at d i p = (n, d') -> length d' = length d.
Proof.
  unfold copy_at. intros Hi [= <- <-].
  rewrite !length_app, !length_take, length_drop. lia.
Qed.

Lemma ring_window rb hist : ring_ok rb hist ->
  lastn (size rb) hist = content rb /\
  length (content rb) = (if full rb then size rb else pos rb).
Proof.
  intros [Hl Hp Hc Hf Hn]. split; [done|]. unfold content.
  destruct (full rb); [rewrite length_app, length_drop|]; rewrite length_take; lia.
Qed.

(** One iteration consumes a non-empty prefix and extends the history by it. *)
Lemma Write_step_ok rb hist p rb' p' :
  ring_ok rb hist -> p ≠ [] -> Write_step rb p = (rb', p') ->
  exists q, p = q ++ p' /\ q ≠ [] /\ ring_ok rb' (hist ++ q) /\ size rb' = size rb.
Proof.
  intros Hok Hp Hstep. destruct (ring_window rb hist Hok) as [Hw Hwl].
  destruct Hok as [Hl Hpos Hc Hf Hn]. unfold Write_step, copy_at in Hstep.
  set (n := (length (data rb) - pos rb) `min` length p) in *.
  assert (0 < n) as Hn0 by (destruct p; [done|]; subst n; simpl; lia).
  assert (n <= length p) as Hnp by (subst n; lia).
  assert (pos rb + n <= size rb) as Hpn by (subst n; lia).
  assert (pos rb + n < size rb -> n = length p) as Hall by (subst n; lia).
  clearbody n.
  exists (take n p). split; [|split].
  { destruct (size rb <=? pos rb + n); simplify_eq; by rewrite take_drop. }
  { intros Heq%(f_equal length). rewrite length_take in Heq. simpl in Heq. lia. }
  assert (length (take n p) = n) as Hq by (rewrite length_take; lia).
  assert (length (take (pos rb) (data rb)) = pos rb) as Ht by (rewrite length_take; lia).
  destruct (size rb <=? pos rb + n) eqn:E; simplify_eq; (split; [|done]).
  - apply Nat.leb_le in E. assert (pos rb + n = size rb) as Heq by lia.
    assert (drop (pos rb + n) (data rb) = []) as Hd.
    { apply skipn_all2. lia. }
    constructor; simpl; rewrite ?Hd, ?app_nil_r.
    + rewrite length_app, Ht, Hq. lia.
    + lia.
    + unfold content; simpl. rewrite drop_0, app_nil_r.
      rewrite <-lastn_app_lastn, Hw. unfold content.
      assert (length (take (pos rb) (data rb) ++ take n p) = size rb) as Hs.
      { rewrite length_app, Ht, Hq. lia. }
      destruct (full rb).
      * rewrite <-(assoc_L (++)), lastn_app_ge by lia. by rewrite lastn_all by lia.
      * by rewrite lastn_all by lia.
    + intros _. rewrite length_app, Hq. destruct (full rb) eqn:Ef;
        [specialize (Hf eq_refl)|specialize (Hn eq_refl)]; lia.
    + done.
  - apply Nat.leb_gt in E.
    assert (take (pos rb + n) (take (pos rb) (data rb) ++ take n p ++ drop (pos rb + n) (data rb))
            = take (pos rb) (data rb) ++ take n p) as Htk.
    { rewrite (assoc_L (++)), take_app_length'; [done|]. rewrite length_app, Ht, Hq. lia. }
    assert (drop (pos rb + n) (take (pos rb) (data rb) ++ take n p ++ drop (pos rb + n) (data rb))
            = drop (pos rb + n) (data rb)) as Hdk.
    { rewrite (assoc_L (++)), drop_app_length'; [done|]. rewrite length_app, Ht, Hq. lia. }
    constructor; simpl.
    + rewrite !length_app, Ht, Hq, length_drop. lia.
    + lia.
    + unfold content; simpl. rewrite Htk, Hdk.
      rewrite <-lastn_app_lastn, Hw. unfold content. destruct (full rb).
      * unfold lastn. rewrite !length_app, length_drop, Ht, Hq.
        rewrite <-(assoc_L (++)).
        rewrite drop_app_le by (rewrite length_drop; lia).
        rewrite drop_drop. f_equal. f_equal. lia.
      * rewrite lastn_all; [done|]. rewrite length_app, Ht, Hq. lia.
    + intros H. rewrite length_app. specialize (Hf H). lia.
    + intros H. rewrite length_app, Hq. specialize (Hn H). lia.
Qed.

(** Enough fuel: one iteration per remaining byte ends the loop. *)
Lemma Write_loop_ok fuel rb hist p :
  ring_ok rb hist -> length p <= fuel ->
  exists rb', Write_loop fuel rb p = Some rb' /\ ring_ok rb' (hist ++ p) /\ size rb' = size rb.
Proof.
  revert rb hist p. induction fuel as [|fuel IH]; intros rb hist p Hok Hlen.
  - destruct p; [|simpl in Hlen; lia]. exists rb. rewrite app_nil_r. done.
  - destruct p as [|b p]; [exists rb; rewrite app_nil_r; done|].
    simpl. destruct (Write_step rb (b :: p)) as [rb1 p1] eqn:E.
    destruct (Write_step_ok rb hist (b :: p) rb1 p1) as (q & Hp & Hq & Hok1 & Hs); [done..|].
    destruct (IH rb1 (hist ++ q) p1 Hok1) as (rb' & Hr & Hok' & Hs').
    { apply (f_equal length) in Hp. rewrite length_app in Hp.
      destruct q; [done|]. simpl in *. lia. }
    exists rb'. rewrite Hp, (assoc_L (++)). split; [done|]. split; [done|lia].
Qed.

Lemma Write_ok rb hist p : ring_ok rb hist ->
  exists rb', Write rb p = Some rb' /\ ring_ok rb' (hist ++ p) /\ size rb' = size rb.
Proof. intros H. by apply Write_loop_ok. Qed.

Lemma NewRing_ok n : (0 < n)%Z ->
  exists rb, NewRing n = Ok rb /\ ring_ok rb [] /\ size rb = Z.to_nat n.
Proof.
  intros H. unfold NewRing. destruct (n <? 0)%Z eqn:E; [lia|].
  eexists; split; [done|]. split; [|done]. constructor; simpl; try done.
  - by rewrite length_replicate.
  - lia.
Qed.

Lemma Writes_ok rb hist ps : ring_ok rb hist ->
  exists rb', Writes rb ps = Some rb' /\ ring_ok rb' (hist ++ concat ps) /\ size rb' = size rb.
Proof.
  unfold Writes. revert rb hist. induction ps as [|p ps IH]; intros rb hist H; simpl.
  - exists rb. by rewrite app_nil_r.
  - destruct (Write_ok rb hist p H) as (rb1 & E & H1 & Hs). rewrite E.
    destruct (IH rb1 (hist ++ p) H1) as (rb' & E' & H' & Hs'). exists rb'.
    rewrite (assoc_L (++)), <-Hs. done.
Qed.

Lemma reverse_slice_whole d : reverse_slice d 0 (length d) = reverse d.
Proof.
  unfold reverse_slice. rewrite Nat.sub_0_r, drop_0, firstn_all, drop_all. simpl.
  by rewrite app_nil_r.
Qed.

(** The three in-place reversals rotate the slab so the oldest byte comes first. *)
Lemma three_reversals d i : i <= length d ->
  reverse_slice (reverse_slice (reverse_slice d 0 i) i (length d)) 0 (length d)
  = drop i d ++ take i d.
Proof.
  intros Hi.
  assert (reverse_slice d 0 i = reverse (take i d) ++ drop i d) as ->.
  { unfold reverse_slice. by rewrite Nat.sub_0_r, drop_0. }
  set (a := reverse (take i d)).
  assert (length a = i) as Ha by (subst a; rewrite length_reverse, length_take; lia).
  assert (reverse_slice (a ++ drop i d) i (length d) = a ++ reverse (drop i d)) as ->.
  { unfold reverse_slice. rewrite take_app_length', drop_app_length' by lia.
    rewrite firstn_all2 by (rewrite length_drop; lia).
    rewrite (drop_ge (a ++ drop i d)) by (rewrite length_app, length_drop; lia).
    by rewrite app_nil_r. }
  assert (length d = length (a ++ reverse (drop i d))) as ->.
  { rewrite length_app, length_reverse, length_drop. lia. }
  rewrite reverse_slice_whole, reverse_app, reverse_involutive. subst a.
  by rewrite reverse_involutive.
Qed.

Lemma Bytes_ok rb hist : ring_ok rb hist -> (Bytes rb).1 = lastn (size rb) hist.
Proof.
  intros H. destruct (ring_window rb hist H) as [-> Hlen]. destruct H as [Hl Hp Hc Hf Hn].
  unfold Bytes, content in *. destruct (full rb); [|done]. simpl.
  rewrite <-Hl, three_reversals by lia. rewrite firstn_all2; [done|].
  rewrite length_app, length_drop, length_take. lia.
Qed.

Lemma NewHeadTail_ok h t : (0 <= h)%Z -> (0 < t)%Z ->
  exists ht, NewHeadTail h t = Ok ht /\ ht_ok ht [] /\
    headSize ht = Z.to_nat h /\ size (tail ht) = Z.to_nat t.
Proof.
  intros Hh Ht. destruct (NewRing_ok t Ht) as (rb & E & Hok & Hs).
  unfold NewHeadTail. destruct (h <? 0)%Z eqn:Eh; [lia|]. simpl. rewrite E; simpl.
  eexists; split; [done|]. split; [|done]. constructor; simpl; try done.
  - by rewrite length_replicate.
  - lia.
  - by rewrite take_nil.
Qed.

Lemma HT_Write_ok ht hist p : ht_ok ht hist ->
  exists ht', HT_Write ht p = Some ht' /\ ht_ok ht' (hist ++ p) /\
    headSize ht' = headSize ht /\ size (tail ht') = size (tail ht).
Proof.
  intros [Hl HN Hh Hr]. destruct (Write_ok (tail ht) hist p Hr) as (t & Et & Ht & Hs).
  unfold HT_Write. destruct (headN ht <? headSize ht) eqn:E; simpl; rewrite Et.
  - apply Nat.ltb_lt in E. assert (headN ht = length hist) as HN' by lia.
    eexists; split; [done|]. split; [|done].
    set (n := (length (head ht) - headN ht) `min` length p).
    assert (length (take (headN ht) (head ht)) = headN ht) as Htl by (rewrite length_take; lia).
    constructor; simpl.
    + rewrite !length_app, Htl, length_take, length_drop. lia.
    + rewrite length_app. lia.
    + fold n. rewrite (assoc_L (++)), take_app_length';
        [|rewrite length_app, Htl, length_take; lia].
      rewrite take_app_ge by lia. rewrite Hh, take_ge by lia. f_equal.
      destruct (decide (length p <= headSize ht - headN ht)).
      * rewrite !take_ge; [done|lia..].
      * f_equal. lia.
    + done.
  - apply Nat.ltb_ge in E. eexists; split; [done|]. split; [|done].
    constructor; simpl; [done|rewrite length_app; lia| |done].
    rewrite Hh, take_app_le; [done|lia].
Qed.

Lemma HT_Writes_ok ht hist ps : ht_ok ht hist ->
  exists ht', HT_Writes ht ps = Some ht' /\ ht_ok ht' (hist ++ concat ps) /\
    headSize ht' = headSize ht /\ size (tail ht') = size (tail ht).
Proof.
  unfold HT_Writes. revert ht hist. induction ps as [|p ps IH]; intros ht hist H; simpl.
  - exists ht. by rewrite app_nil_r.
  - destruct (HT_Write_ok ht hist p H) as (ht1 & E & H1 & Hs & Ht). rewrite E.
    destruct (IH ht1 (hist ++ p) H1) as (ht' & E' & H' & Hs' & Ht'). exists ht'.
    rewrite (assoc_L (++)), <-Hs, <-Ht. done.
Qed.

(** ** Properties *)

(** However a stream is cut into chunks, a ring of positive capacity [n] accepts
    every [Write] (each write loop ends) and [Bytes] then returns exactly the last [n]
    bytes of the stream, oldest first; [Len] counts them. *)
Theorem ring_keeps_last (n : Z) (ps : list bytes) :
  (0 < n)%Z ->
  exists rb rb', NewRing n = Ok rb /\ Writes rb ps = Some rb' /\
    (Bytes rb').1 = lastn (Z.to_nat n) (concat ps) /\
    Len rb' = Z.to_nat n `min` length (concat ps).
Proof.
  intros Hn. destruct (NewRing_ok n Hn) as (rb & E & Hok & Hs).
  destruct (Writes_ok rb [] ps Hok) as (rb' & E' & Hok' & Hs'). exists rb, rb'.
  simpl in Hok'. split; [done|]. split; [done|]. rewrite (Bytes_ok rb' _ Hok'), Hs', Hs.
  split; [done|]. destruct (ring_window rb' _ Hok') as [Hw Hl].
  rewrite <-Hw, lastn_length in Hl. unfold Len. rewrite <-Hl. lia.
Qed.

Lemma ring_keeps_last_witness :
  exists rb rb', NewRing 4 = Ok rb /\
    Writes rb [[x61; x62; x63]; [x64; x65]] = Some rb' /\
    (Bytes rb').1 = [x62; x63; x64; x65] /\ Len rb' = 4.
Proof. exact (ring_keeps_last 4 [[x61; x62; x63]; [x64; x65]] eq_refl). Defined.

(** On an empty-capacity ring the write loop never ends: no number of iterations
    consumes a non-empty input, so [Write] on [NewRing 0] (and every [HeadTail] with
    [tailSize = 0]) does not return. *)
Theorem ring_zero_diverges (p : bytes) (fuel : nat) :
  p ≠ [] ->
  exists rb, NewRing 0 = Ok rb /\ Write_loop fuel rb p = None.
Proof.
  intros Hp. eexists; split; [done|].
  assert (forall fuel b, Write_loop fuel (mkRing [] 0 0 b) p = None) as H; [|apply H].
  clear fuel. induction fuel as [|fuel IH]; intros b; destruct p; [done..|].
  simpl. apply IH.
Qed.

Lemma ring_zero_diverges_witness :
  exists rb, NewRing 0 = Ok rb /\ Write_loop 1000 rb [x61] = None.
Proof. apply (ring_zero_diverges [x61] 1000). discriminate. Defined.

(** [HeadTail] with a head of [h] and a tail of [t > 0] bytes: after any sequence of
    chunks [Head] is the first [h] bytes of the stream and [Tail] its last [t]. *)
Theorem headtail_captures_both_ends (h t : Z) (ps : list bytes) :
  (0 <= h)%Z -> (0 < t)%Z ->
  exists ht ht', NewHeadTail h t = Ok ht /\ HT_Writes ht ps = Some ht' /\
    Head ht' = take (Z.to_nat h) (concat ps) /\
    (Tail ht').1 = lastn (Z.to_nat t) (concat ps).
Proof.
  intros Hh Ht. destruct (NewHeadTail_ok h t Hh Ht) as (ht & E & Hok & Hs & Hz).
  destruct (HT_Writes_ok ht [] ps Hok) as (ht' & E' & Hok' & Hs' & Hz'). simpl in Hok'.
  exists ht, ht'. split; [done|]. split; [done|]. unfold Head, Tail.
  destruct Hok' as [_ _ Hhd Hrg]. rewrite Hhd, Hs', Hs. split; [done|].
  pose proof (Bytes_ok _ _ Hrg) as Hb. destruct (Bytes (tail ht')) as [b t']. simpl in *.
  by rewrite Hb, Hz', Hz.
Qed.

Lemma headtail_captures_both_ends_witness :
  exists ht ht', NewHeadTail 2 3 = Ok ht /\
    HT_Writes ht [[x61; x62; x63]; [x64; x65]] = Some ht' /\
    Head ht' = [x61; x62] /\ (Tail ht').1 = [x63; x64; x65].
Proof.
  apply (headtail_captures_both_ends 2 3 [[x61; x62; x63]; [x64; x65]]); lia.
Defined.

(** Linearising a full ring empties it.  After [Bytes] on a ring that has wrapped, the
    ring reports length 0 and a second [Bytes] returns nothing, although the comments of
    [Ring] and of [HeadTail.Tail] promise the last bytes received. *)
Theorem ring_bytes_consumes (rb : Ring) :
  full rb = true -> Len (Bytes rb).2 = 0 /\ (Bytes (Bytes rb).2).1 = [].
Proof. intros H. unfold Bytes. rewrite H. simpl. by rewrite take_0. Qed.

Lemma ring_bytes_consumes_witness :
  (Bytes (mkRing [x61; x62] 2 1 true)).1 = [x62; x61] /\
  Len (Bytes (mkRing [x61; x62] 2 1 true)).2 = 0 /\
  (Bytes (Bytes (mkRing [x61; x62] 2 1 true)).2).1 = [].
Proof. split; [done|]. apply (ring_bytes_consumes (mkRing [x61; x62] 2 1 true)). done. Defined.
