(* ===== verification/Async.v ===== *)
(** * up/async.go: data of asynchronous HTTP callouts and of queued mutations

    Callout requests, results and response slots; the deferred mutations a handler
    queues on the filter; and the copies that detach a callout response from memory
    owned by Envoy. *)
From stdpp Require Import base list strings pretty.
From Stdlib Require Import ZArith Lia.
From S2P Require Import Prelude.

(** ** Dynamic values ([any]) *)

(** The numeric kinds a metadata value may have. *)
Inductive numkind :=
  | KInt | KInt8 | KInt16 | KInt32 | KInt64
  | KUint | KUint8 | KUint16 | KUint32 | KUint64.

(** A Go [any]: [nil], the kinds the metadata code switches on (floats by their IEEE
    bits), and every other dynamic type as an opaque object. *)
Inductive any :=
  | VNil
  | VString (s : string)
  | VBool (b : bool)
  | VNum (k : numkind) (z : Z)
  | VFloat32 (bits : Z)
  | VFloat64 (bits : Z)
  | VOther (id : Z).

(** ** Envoy buffers *)

(** Who owns the memory behind a buffer. *)
Inductive owner := OEnvoy | OGo.

(** [shared.UnsafeEnvoyBuffer]: a pointer ([None] is nil) and the bytes it covers. *)
Record UnsafeEnvoyBuffer := mkBuf {
  Ptr : option owner;
  buf_bytes : bytes;
}.

Definition buf_zero : UnsafeEnvoyBuffer := mkBuf None [].

(** [raw.ToBytes()]: a Go-owned copy. *)
Definition ToBytes (b : UnsafeEnvoyBuffer) : bytes := buf_bytes b.

(** [raw.ToString()]. *)
Definition ToString (b : UnsafeEnvoyBuffer) : string := String.string_of_list_byte (buf_bytes b).

Definition copyUnsafeEnvoyBuffer (raw : UnsafeEnvoyBuffer) : UnsafeEnvoyBuffer :=
  let owned := ToBytes raw in
  if decide (owned = []) then buf_zero else mkBuf (Some OGo) owned.

(** A slice that may be nil is an [option]. *)
Definition copyUnsafeEnvoyBuffers (raw : option (list UnsafeEnvoyBuffer)) :
    option (list UnsafeEnvoyBuffer) :=
  match raw with
  | None => None
  | Some raw => Some (copyUnsafeEnvoyBuffer <$> raw)
  end.

Definition copyUnsafeEnvoyHeaderBuffers (raw : option (list (UnsafeEnvoyBuffer * UnsafeEnvoyBuffer))) :
    option (list (UnsafeEnvoyBuffer * UnsafeEnvoyBuffer)) :=
  match raw with
  | None => None
  | Some raw =>
      Some ((fun h => (copyUnsafeEnvoyBuffer h.1, copyUnsafeEnvoyBuffer h.2)) <$> raw)
  end.

(** ** Callouts *)

Record HTTPCalloutRequest := mkReq {
  Cluster : string;
  rq_Headers : list (string * string);
  rq_Body : bytes;
  TimeoutMillis : Z;
}.

(** [HTTPCalloutInitResult] and [HTTPCalloutResult] are [uint32]s; the constants have the
    values of the enumerations of abi.h. *)
Definition HTTPCalloutInitSuccess : Z := 0.
Definition HTTPCalloutInitMissingRequiredHeaders : Z := 1.
Definition HTTPCalloutInitClusterNotFound : Z := 2.
Definition HTTPCalloutInitDuplicateCalloutID : Z := 3.
Definition HTTPCalloutInitCannotCreateRequest : Z := 4.

Definition HTTPCalloutSuccess : Z := 0.
Definition HTTPCalloutReset : Z := 1.
Definition HTTPCalloutExceedResponseBufferLimit : Z := 2.

(** A nil [error] is [None]; an error is its message. *)
Definition errCalloutInitResult (r : Z) : option string :=
  if decide (r = HTTPCalloutInitSuccess) then None
  else if decide (r = HTTPCalloutInitMissingRequiredHeaders)
  then Some "up: HTTP callout: missing required headers"
  else if decide (r = HTTPCalloutInitClusterNotFound)
  then Some "up: HTTP callout: cluster not found"
  else if decide (r = HTTPCalloutInitDuplicateCalloutID)
  then Some "up: HTTP callout: duplicate callout ID"
  else if decide (r = HTTPCalloutInitCannotCreateRequest)
  then Some "up: HTTP callout: cannot create request"
  else Some ("up: HTTP callout: unknown init result " +:+ pretty r).

Definition errCalloutResult (r : Z) : option string :=
  if decide (r = HTTPCalloutSuccess) then None
  else if decide (r = HTTPCalloutReset) then Some "up: HTTP callout: reset"
  else if decide (r = HTTPCalloutExceedResponseBufferLimit)
  then Some "up: HTTP callout: response buffer limit exceeded"
  else Some ("up: HTTP callout: unknown result " +:+ pretty r).

(** What Envoy hands to a callout callback: result, headers, body. *)
Record CalloutDelivery := mkDelivery {
  d_result : Z;
  d_headers : option (list (UnsafeEnvoyBuffer * UnsafeEnvoyBuffer));
  d_body : option (list UnsafeEnvoyBuffer);
}.

Record HTTPCalloutResponse := mkResponse {
  rs_Result : Z;
  rs_Headers : option (list (UnsafeEnvoyBuffer * UnsafeEnvoyBuffer));
  rs_Body : option (list UnsafeEnvoyBuffer);
}.

Record HTTPCalloutAllSettledResponse := mkSettled {
  Result : Z;
  Init : Z;
  Err : option string;
  Headers : option (list (UnsafeEnvoyBuffer * UnsafeEnvoyBuffer));
  Body : option (list UnsafeEnvoyBuffer);
}.

(** The zero value, which fills a slot before it settles. *)
Definition settled_zero : HTTPCalloutAllSettledResponse := mkSettled 0 0 None None None.

Definition OK (r : HTTPCalloutAllSettledResponse) : bool :=
  bool_decide (Err r = None) && bool_decide (Init r = HTTPCalloutInitSuccess)
  && bool_decide (Result r = HTTPCalloutSuccess).

Definition Failed (r : HTTPCalloutAllSettledResponse) : bool := negb (OK r).

(** The slot built by the callback of an accepted callout. *)
Definition settled_done (d : CalloutDelivery) : HTTPCalloutAllSettledResponse :=
  mkSettled (d_result d) HTTPCalloutInitSuccess (errCalloutResult (d_result d))
    (copyUnsafeEnvoyHeaderBuffers (d_headers d)) (copyUnsafeEnvoyBuffers (d_body d)).

(** The slot built when Envoy rejects the callout. *)
Definition settled_rejected (init : Z) : HTTPCalloutAllSettledResponse :=
  mkSettled 0 init (errCalloutInitResult init) None None.

(** ** Deferred mutations *)

Record requestHeaderMutation := mkHdrMut {
  hm_name : string;
  hm_value : string;
  hm_del : bool;
  hm_add : bool;
}.

Record localResponse := mkLocal {
  lr_status : Z;
  lr_headers : list (string * string);
  lr_body : bytes;
}.

Record filterStateMutation := mkFsMut { fs_key : string; fs_value : bytes }.

Record counterMutation := mkCtrMut { cm_id : Z; cm_delta : Z; cm_labels : list string }.

Inductive gaugeOp := gaugeOpSet | gaugeOpIncrement | gaugeOpDecrement.

Record gaugeMutation := mkGaugeMut { gm_id : Z; gm_value : Z; gm_op : gaugeOp }.

Record histogramMutation := mkHistMut { hi_id : Z; hi_value : Z; hi_labels : list string }.

Record upstreamOverrideMutation := mkOverride { ov_host : string; ov_strict : bool }.

Record dynamicMetadataMutation := mkMdMut { md_ns : string; md_key : string; md_value : any }.

(** ** Lemmas *)

(** A buffer that Go code may keep after the callback returns. *)
Definition go_owned (b : UnsafeEnvoyBuffer) : Prop := Ptr b ≠ Some OEnvoy.

Lemma copyUnsafeEnvoyBuffer_owned b : go_owned (copyUnsafeEnvoyBuffer b).
Proof. unfold copyUnsafeEnvoyBuffer, go_owned. by case_decide. Qed.

Lemma copyUnsafeEnvoyBuffer_bytes b : ToBytes (copyUnsafeEnvoyBuffer b) = ToBytes b.
Proof. unfold copyUnsafeEnvoyBuffer, ToBytes. case_decide as E; simpl in *; congruence. Qed.
#[export] Hint Resolve copyUnsafeEnvoyBuffer_owned : transit.
#[export] Hint Rewrite copyUnsafeEnvoyBuffer_bytes : transit.

Lemma copyUnsafeEnvoyBuffers_spec raw out :
  copyUnsafeEnvoyBuffers raw = Some out ->
  Forall go_owned out /\ exists l, raw = Some l /\ ToBytes <$> out = ToBytes <$> l.
Proof.
  destruct raw as [l|]; intros [= <-]. split.
  - apply Forall_fmap, Forall_true. intros. apply copyUnsafeEnvoyBuffer_owned.
  - exists l. split; [done|]. rewrite <-list_fmap_compose.
    apply list_fmap_ext. intros. apply copyUnsafeEnvoyBuffer_bytes.
Qed.

Lemma OK_settled_done d : OK (settled_done d) = bool_decide (d_result d = HTTPCalloutSuccess).
Proof.
  unfold OK, settled_done, errCalloutResult; simpl.
  destruct (decide (d_result d = HTTPCalloutSuccess)) as [->|Hn]; [done|].
  rewrite (bool_decide_eq_false_2 (d_result d = _)) by done. by rewrite andb_false_r.
Qed.
