(* ===== verification/StreamObject.v ===== *)
(** * down/stream_object.go: the process-wide registry of per-stream object bags

    A bag is a shared object, so the model has a heap of bags and a registry that maps a
    nonce to a reference into it: two holders of a reference see the same bag, and
    dropping a nonce leaves the object itself to whoever still holds it. *)
From stdpp Require Import base list gmap strings.
From Stdlib Require Import Lia.
From S2P Require Import Prelude Async.

(** A reference to a [*StreamObjects]. *)
Abbreviation bagref := nat.

Record bag_registry := mkReg {
  streamObjectBags : gmap string bagref;
  bag_heap : list (gmap string any);
}.

Definition reg_empty : bag_registry := mkReg ∅ [].

Definition StreamObjectIDKey : string := "up.stream_object_id".

(** [bag.Set(key, v)] on the referenced bag. *)
Definition bag_Set (b : bagref) (key : string) (v : any) (g : bag_registry) : bag_registry :=
  mkReg (streamObjectBags g) (alter (fun m => <[key := v]> m) b (bag_heap g)).

(** [bag.Get(key)]. *)
Definition bag_Get (b : bagref) (key : string) (g : bag_registry) : option any :=
  bag_heap g !! b ≫= fun m => m !! key.

Definition LookupStreamObjectBag (nonce : string) (g : bag_registry) : option bagref :=
  if decide (nonce = EmptyString) then None else streamObjectBags g !! nonce.

(** The bag and whether it was already there. *)
Definition InsertStreamObjectBag (nonce : string) (g : bag_registry) :
    bagref * bool * bag_registry :=
  match streamObjectBags g !! nonce with
  | Some existing => (existing, true, g)
  | None =>
      let b := length (bag_heap g) in
      (b, false, mkReg (<[nonce := b]> (streamObjectBags g)) (bag_heap g ++ [∅]))
  end.

Definition DropStreamObjectBag (nonce : string) (g : bag_registry) : bag_registry :=
  if decide (nonce = EmptyString) then g
  else mkReg (delete nonce (streamObjectBags g)) (bag_heap g).

Definition StreamObjectBagCount (g : bag_registry) : nat := base.size (streamObjectBags g).

(** ** Well-formedness: registered references are allocated and not shared *)

Record reg_ok (g : bag_registry) : Prop := {
  reg_alloc : forall n b, streamObjectBags g !! n = Some b -> b < length (bag_heap g);
  reg_inj : forall n m b, streamObjectBags g !! n = Some b ->
              streamObjectBags g !! m = Some b -> n = m;
}.

Lemma reg_empty_ok : reg_ok reg_empty.
Proof. split; intros *; simpl; by rewrite lookup_empty. Qed.

Lemma bag_Set_ok b k v g : reg_ok g -> reg_ok (bag_Set b k v g).
Proof. intros [Ha Hi]. split; simpl; [|done]. intros. rewrite length_alter. eauto. Qed.

Lemma Insert_ok n g b l g' :
  reg_ok g -> InsertStreamObjectBag n g = (b, l, g') -> reg_ok g'.
Proof.
  intros [Ha Hi]. unfold InsertStreamObjectBag.
  destruct (streamObjectBags g !! n) eqn:E; intros [= <- <- <-]; [done|].
  split; simpl; intros *; rewrite ?length_app; simpl; rewrite !lookup_insert; repeat case_decide;
    intros; simplify_eq; try done; eauto.
  - lia.
  - match goal with H : _ !! _ = Some _ |- _ => apply Ha in H; lia end.
  - match goal with H : _ !! _ = Some _ |- _ => apply Ha in H; lia end.
  - match goal with H : _ !! _ = Some _ |- _ => apply Ha in H; lia end.
Qed.

Lemma Drop_ok n g : reg_ok g -> reg_ok (DropStreamObjectBag n g).
Proof.
  intros [Ha Hi]. unfold DropStreamObjectBag. case_decide; [done|].
  split; simpl; intros *; rewrite ?lookup_delete; repeat case_decide; naive_solver.
Qed.
#[export] Hint Resolve reg_empty_ok bag_Set_ok Drop_ok : transit.

Lemma bag_Get_Set_same b k v g :
  b < length (bag_heap g) -> bag_Get b k (bag_Set b k v g) = Some v.
Proof.
  intros Hb. unfold bag_Get, bag_Set; simpl.
  destruct (lookup_lt_is_Some_2 (bag_heap g) b Hb) as [m Hm].
  rewrite list_lookup_alter_eq, Hm; simpl. by rewrite lookup_insert_eq.
Qed.

Lemma bag_Get_Set_other b b' k k' v g :
  (b ≠ b' \/ k ≠ k') -> bag_Get b' k' (bag_Set b k v g) = bag_Get b' k' g.
Proof.
  intros Hn. unfold bag_Get, bag_Set; simpl.
  destruct (decide (b = b')) as [->|].
  - rewrite list_lookup_alter_eq. destruct (bag_heap g !! b') as [m|]; simpl; [|done].
    rewrite lookup_insert_ne; [done|]. naive_solver.
  - by rewrite list_lookup_alter_ne.
Qed.
