(* ===== verification/Envoy.v ===== *)
(** * The Envoy SDK as transit sees it

    The Envoy SDK ([shared.HttpFilterHandle] and the objects it returns) is not part of
    the repository, so it is a parameter: what a filter does to Envoy is the list of
    calls it made so far, and what Envoy answers is a function of that list.  The laws
    the code relies on are named classes of this file. *)
From stdpp Require Import base list strings.
From Stdlib Require Import ZArith Lia.
From S2P Require Import Prelude Async.

(** ** Values handed to user callbacks *)

(** up/body.go. *)
Record BodyChunk := mkBodyChunk {
  bc_Data : bytes;
  bc_EndStream : bool;
  bc_ContentEncoding : string;
  bc_ContentType : string;
}.

(** up/response.go; [rc_HasHeaders] tells whether [Headers] is set. *)
Record ResponseChunk := mkResponseChunk {
  rc_StatusCode : Z;
  rc_HasHeaders : bool;
  rc_Data : bytes;
  rc_EndStream : bool;
  rc_ContentEncoding : string;
  rc_ContentType : string;
}.

(** down/access_logger.go. *)
Record TimingInfo := mkTiming {
  StartTimeUnixNs : Z;
  RequestCompleteDurationNs : Z;
  FirstUpstreamTxByteSentNs : Z;
  LastUpstreamTxByteSentNs : Z;
  FirstUpstreamRxByteReceivedNs : Z;
  LastUpstreamRxByteReceivedNs : Z;
  FirstDownstreamTxByteSentNs : Z;
  LastDownstreamTxByteSentNs : Z;
}.

Record BytesInfo := mkBytesInfo {
  BytesReceived : Z;
  BytesSent : Z;
  WireBytesReceived : Z;
  WireBytesSent : Z;
}.

(** up/up.go. *)
Record FinalizedInfo := mkFinalized {
  fi_Timing : TimingInfo;
  fi_Bytes : BytesInfo;
  fi_ResponseCode : Z;
  fi_ResponseCodeDetails : string;
  fi_ResponseFlags : Z;
  fi_UpstreamFailure : string;
  fi_UpstreamLocalAddress : string;
  fi_UpstreamAddress : string;
  fi_RequestProtocol : string;
  fi_UpstreamPoolReadyDurationNs : Z;
  fi_UpstreamRequestAttempts : Z;
  fi_TraceID : string;
  fi_SpanID : string;
  fi_TraceSampled : bool;
  fi_LocalReplyBody : string;
}.

(** ** Calls into Envoy, in the order they are made *)

(** The body buffer an operation is applied to. *)
Inductive bodyref := BufferedRequest | CurrentBody | BufferedResponse.

#[export] Instance bodyref_eq_dec : EqDecision bodyref.
Proof. solve_decision. Defined.

(** The callback object registered with a callout. *)
Inductive target :=
  | TFilter
  | TBatch (b i : nat)
  | TSeq (s : nat)
  | TGrpc (g : nat)
  | TDo (g : nat).

(** Calls of the handle, and the invocations of user callbacks (the last four), which are
    recorded so that their order relative to Envoy calls can be stated. *)
Inductive call :=
  | CSendLocalResponse (status : Z) (headers : list (string * string)) (body : bytes) (details : string)
  | CReqHeaderSet (name value : string)
  | CReqHeaderAdd (name value : string)
  | CReqHeaderRemove (name : string)
  | CRespHeaderSet (name value : string)
  | CRespHeaderAdd (name value : string)
  | CRespHeaderRemove (name : string)
  | CSetFilterState (key : string) (value : bytes)
  | CIncrementCounterValue (id delta : Z) (labels : list string)
  | CSetGaugeValue (id value : Z)
  | CIncrementGaugeValue (id value : Z)
  | CDecrementGaugeValue (id value : Z)
  | CRecordHistogramValue (id value : Z) (labels : list string)
  | CSetMetadata (ns key : string) (value : any)
  | CSetUpstreamOverrideHost (host : string) (strict : bool)
  | CDrain (b : bodyref) (n : nat)
  | CAppend (b : bodyref) (data : bytes)
  | CContinueRequest
  | CHttpCallout (req : HTTPCalloutRequest) (t : target)
  | CStartHttpStream (req : HTTPCalloutRequest) (endStream : bool) (t : target)
  | CGetScheduler
  | CLog (level : Z) (msg : string)
  | UserRequestBody (chunk : BodyChunk)
  | UserResponse (chunk : ResponseChunk)
  | UserStreamComplete (ctx : any)
  | UserStreamFinalized (ctx : any) (info : FinalizedInfo).

(** An event of a streamed callout (the [shared.HttpStreamCallback] methods). *)
Inductive stream_event :=
  | SHeaders (headers : list (UnsafeEnvoyBuffer * UnsafeEnvoyBuffer))
  | SData (body : list UnsafeEnvoyBuffer)
  | STrailers (trailers : list (UnsafeEnvoyBuffer * UnsafeEnvoyBuffer))
  | SComplete
  | SReset.

(** Envoy's answers, as functions of the calls made so far. *)
Record Envoy := mkEnvoy {
  (** [RequestHeaders().GetAll()] *)
  ev_request_headers : list call -> list (string * string);
  (** [RequestHeaders().GetOne(name)]; an absent header is empty *)
  ev_request_header : list call -> string -> string;
  (** [ResponseHeaders().GetOne(name)] *)
  ev_response_header : list call -> string -> string;
  (** [GetFilterState(key)] *)
  ev_filter_state : list call -> string -> option string;
  (** [GetAttributeString(AttributeIDRequestId)] *)
  ev_request_id : list call -> option string;
  (** the chunks of a buffered body; [None] when the handle returns nil *)
  ev_body : list call -> bodyref -> option (list bytes);
  (** the result of [SetUpstreamOverrideHost] *)
  ev_override : list call -> string -> bool -> bool;
  (** [HttpCallout]: the init result, and the response when Envoy delivers it before
      returning *)
  ev_callout : list call -> HTTPCalloutRequest -> Z * option CalloutDelivery;
  (** [StartHttpStream]: the init result and the events delivered before it returns *)
  ev_stream : list call -> HTTPCalloutRequest -> Z * list stream_event;
  (** the n-th nonce drawn from [crypto/rand], in hexadecimal *)
  ev_nonce : nat -> string;
  (** [strings.EqualFold] from the first non-ASCII byte on *)
  ev_unicode : string -> string -> bool;
  (** how many nested calls the Go stack holds before it overflows *)
  ev_stack : nat;
}.

(** [GetSize()] of a body. *)
Definition body_size (chunks : list bytes) : nat := length (concat chunks).

(** ** Laws *)

(** [strings.EqualFold] is an equivalence, as documented (equality under case folding). *)
Class FoldEquiv (E : Envoy) : Prop := {
  fold_refl : forall s, EqualFold (ev_unicode E) s s = true;
  fold_sym : forall s t, EqualFold (ev_unicode E) s t = EqualFold (ev_unicode E) t s;
  fold_trans : forall s t u, EqualFold (ev_unicode E) s t = true ->
    EqualFold (ev_unicode E) t u = true -> EqualFold (ev_unicode E) s u = true;
}.

(** The values of the header [name] in a header list, in order. *)
Definition header_values (E : Envoy) (name : string) (hs : list (string * string)) : list string :=
  snd <$> filter (fun h => EqualFold (ev_unicode E) h.1 name = true) hs.

(** The calls on the request header map. *)
Definition header_op (c : call) : bool :=
  match c with
  | CReqHeaderSet _ _ | CReqHeaderAdd _ _ | CReqHeaderRemove _ => true
  | _ => false
  end.

(** The request header map: [Set] replaces every value, [Add] appends one, [Remove]
    removes all; other names and other calls are unaffected. *)
Class HeaderMapLaws (E : Envoy) : Prop := {
  hdr_set : forall tr n v m,
    header_values E m (ev_request_headers E (tr ++ [CReqHeaderSet n v])) =
    if EqualFold (ev_unicode E) n m then [v] else header_values E m (ev_request_headers E tr);
  hdr_add : forall tr n v m,
    header_values E m (ev_request_headers E (tr ++ [CReqHeaderAdd n v])) =
    header_values E m (ev_request_headers E tr) ++
      (if EqualFold (ev_unicode E) n m then [v] else []);
  hdr_remove : forall tr n m,
    header_values E m (ev_request_headers E (tr ++ [CReqHeaderRemove n])) =
    if EqualFold (ev_unicode E) n m then [] else header_values E m (ev_request_headers E tr);
  hdr_other : forall tr c m, header_op c = false ->
    header_values E m (ev_request_headers E (tr ++ [c])) =
    header_values E m (ev_request_headers E tr);
}.
