(* ===== verification/Grpc.v ===== *)
(** * up/grpc.go: the gRPC frame and status codecs

    The 5-byte length-prefixed frame of a unary message, its decoder, and the parsing of
    [grpc-status] and [grpc-message].  The callout itself is in Filter.v, with the other
    callouts.  [url.QueryUnescape] is written out as the library does it. *)
From stdpp Require Import base list strings.
From Stdlib Require Import ZArith Lia Ascii.
From S2P Require Import Prelude Async.

Record GRPCCalloutRequest := mkGrpcReq {
  g_Cluster : string;
  g_Authority : string;
  g_Method : string;
  g_Message : bytes;
  g_TimeoutMillis : Z;
}.

Record GRPCCalloutResponse := mkGrpcResp {
  gr_Result : Z;
  gr_GRPCStatus : Z;
  gr_GRPCMessage : string;
  gr_Body : bytes;
}.

(** ** Frames *)

(** A byte of a [uint32]. *)
Definition byte_of_Z (z : Z) : Byte.byte :=
  match Byte.of_N (Z.to_N (z mod 256)) with Some b => b | None => x00 end.

Definition Z_of_byte (b : Byte.byte) : Z := Z.of_N (Byte.to_N b).

(** [binary.BigEndian.PutUint32] of [v]. *)
Definition PutUint32 (v : Z) : bytes :=
  [byte_of_Z (Z.shiftr v 24); byte_of_Z (Z.shiftr v 16); byte_of_Z (Z.shiftr v 8); byte_of_Z v].

(** [binary.BigEndian.Uint32]. *)
Definition Uint32 (b : bytes) : Z :=
  match b with
  | b0 :: b1 :: b2 :: b3 :: _ =>
      Z.lor (Z_of_byte b3)
        (Z.lor (Z.shiftl (Z_of_byte b2) 8)
           (Z.lor (Z.shiftl (Z_of_byte b1) 16) (Z.shiftl (Z_of_byte b0) 24)))
  | _ => 0
  end.

(** [encodeGRPCFrame(msg)]; the length is truncated to a [uint32]. *)
Definition encodeGRPCFrame (msg : bytes) : bytes :=
  x00 :: PutUint32 (uint32_of (Z.of_nat (length msg))) ++ msg.

(** [decodeGRPCFrame(raw)]: [None] is the nil slice.  [end] is an [int] (64 bits), so
    adding 5 to a [uint32] does not wrap. *)
Definition decodeGRPCFrame (raw : bytes) : option bytes :=
  if length raw <? 5 then None
  else match raw with
       | [] => None
       | b0 :: rest =>
           if decide (b0 = x00) then
             let msgLen := Uint32 (take 4 rest) in
             let end_ := (5 + msgLen)%Z in
             if (end_ <? 5)%Z || (Z.of_nat (length raw) <? end_)%Z then None
             else Some (drop 5 (take (Z.to_nat end_) raw))
           else None
       end.

Definition decodeGRPCBody (chunks : list UnsafeEnvoyBuffer) : option bytes :=
  decodeGRPCFrame (concat (ToBytes <$> chunks)).

(** ** Status headers *)

(** The value of a hexadecimal digit. *)
Definition unhex (c : Ascii.ascii) : option N :=
  let n := code c in
  if ((48 <=? n) && (n <=? 57))%N then Some (n - 48)%N
  else if ((97 <=? n) && (n <=? 102))%N then Some (n - 97 + 10)%N
  else if ((65 <=? n) && (n <=? 70))%N then Some (n - 65 + 10)%N
  else None.

(** [url.QueryUnescape]: "%XX" becomes a byte, "+" a space; [None] on a bad escape. *)
Fixpoint QueryUnescape (s : string) : option string :=
  match s with
  | EmptyString => Some EmptyString
  | String c s' =>
      if decide (c = "%"%char) then
        match s' with
        | String h1 (String h2 s'') =>
            match unhex h1, unhex h2 with
            | Some a, Some b =>
                match QueryUnescape s'' with
                | Some r => Some (String (Ascii.ascii_of_N (a * 16 + b)) r)
                | None => None
                end
            | _, _ => None
            end
        | _ => None
        end
      else
        match QueryUnescape s' with
        | Some r => Some (String (if decide (c = "+"%char) then " "%char else c) r)
        | None => None
        end
  end.

Definition decodeGRPCMessage (msg : string) : string :=
  match QueryUnescape msg with
  | Some decoded => decoded
  | None => msg
  end.

(** One header of [parseGRPCHeaders]. *)
Definition parseGRPCHeader (acc : Z * string) (h : UnsafeEnvoyBuffer * UnsafeEnvoyBuffer) : Z * string :=
  let '(status, msg) := acc in
  if decide (ToString h.1 = "grpc-status") then
    match ParseUint10 (ToString h.2) 32 with
    | Some v => (v, msg)
    | None => (status, msg)
    end
  else if decide (ToString h.1 = "grpc-message") then (status, decodeGRPCMessage (ToString h.2))
  else (status, msg).

Definition parseGRPCHeaders (headers : list (UnsafeEnvoyBuffer * UnsafeEnvoyBuffer)) : Z * string :=
  foldl parseGRPCHeader (0%Z, EmptyString) headers.
