(* ===== verification/FilterState.v ===== *)
(** * up/filter.go, up/writer.go: programs and state of the per-stream HTTP filter

    A stream's state is the [filter] struct, the [Writer]s created for it, the process-wide
    registries it can reach and the list of calls made to Envoy.  User handlers are programs
    over the [Writer] API ([prog]).  The operations on this state are in Filter.v. *)
From stdpp Require Import base list gmap strings pretty.
From Stdlib Require Import ZArith Lia.
From S2P Require Import Prelude Async StreamObject Envoy Grpc.

(** ** User code *)

(** Writer methods without a result a handler can branch on. *)
Inductive act :=
  | ASendLocalResponse (status : Z) (body : bytes) (headers : list (string * string))
  | ASetRequestHeader (name value : string)
  | AAddRequestHeader (name value : string)
  | ARemoveRequestHeader (name : string)
  | ASetFilterState (key value : string)
  | ASetStreamObject (key : string) (v : any)
  | ASetResponseHeader (name value : string)
  | AAddResponseHeader (name value : string)
  | ARemoveResponseHeader (name : string)
  | ASetRequestBody (data : bytes)
  | ASetResponseBody (data : bytes)
  | AIncrementCounterLabels (id delta : Z) (labels : list string)
  | AIncrementGauge (id delta : Z)
  | ADecrementGauge (id delta : Z)
  | ASetGauge (id value : Z)
  | ARecordHistogramLabels (id value : Z) (labels : list string)
  | ASetMetadata (ns key : string) (value : any)
  | ALog (level : Z) (msg : string)
  | ASetContext (v : any).

(** Methods whose result a handler can branch on. *)
Inductive query : Type -> Type :=
  | QRequestHeaders : query (list (string * string))
  | QRequestHeader (name : string) : query string
  | QHeader (name : string) : query string
  | QGetFilterState (key : string) : query (option string)
  | QGetStreamObject (key : string) : query (option any)
  | QSetUpstreamOverrideHost (host : string) (strict : bool) : query bool
  | QContext : query any.

(** The body of a goroutine started by [Writer.Go]. *)
Inductive gprog :=
  | GRet
  | GAct (a : act) (k : gprog)
  | GDo (req : HTTPCalloutRequest) (k : HTTPCalloutResponse + string -> gprog).

(** A handler or a callout callback. *)
Inductive prog :=
  | PRet
  | PAct (a : act) (k : prog)
  | PQuery {A : Type} (q : query A) (k : A -> prog)
  | PHTTPCallout (req : HTTPCalloutRequest) (fn : CalloutDelivery -> prog)
      (k : Z -> option string -> prog)
  | PHTTPCalloutAllSettled (reqs : list HTTPCalloutRequest)
      (fn : list HTTPCalloutAllSettledResponse -> prog) (k : prog)
  | PHTTPCalloutSequence
      (next : nat -> option HTTPCalloutAllSettledResponse -> option HTTPCalloutRequest)
      (done_ : list HTTPCalloutAllSettledResponse -> prog) (k : prog)
  | PGRPCCallout (req : GRPCCalloutRequest) (fn : GRPCCalloutResponse -> prog)
      (k : Z -> option string -> prog)
  | PGo (fn : gprog) (k : prog).

(** up/request.go: the fields a request handler receives. *)
Record Request := mkRequest {
  r_Method : string;
  r_Path : string;
  r_Host : string;
  r_FilterName : string;
}.

(** ** State *)

(** [calloutState]: the four states of the callout handoff. *)
Inductive calloutStateT :=
  | calloutStateActive | calloutStatePaused | calloutStateDone | calloutStateFlushed.

#[export] Instance calloutState_eq_dec : EqDecision calloutStateT.
Proof. solve_decision. Defined.

(** The configuration part of [filter] (copied from the factory, never written after). *)
Record filterConfig := mkConfig {
  name : string;
  handler : Request -> prog;
  responseHandler : option (ResponseChunk -> prog);
  requestBodyHandler : option (BodyChunk -> prog);
  onStreamComplete : option (any -> any);
  onStreamFinalized : option (any -> FinalizedInfo -> any);
  bufferBody : bool;
  mutableRequestBody : bool;
}.

(** The mutation queues of [filter]. *)
Record queues := mkQueues {
  q_reqHeaders : list requestHeaderMutation;
  q_filterState : list filterStateMutation;
  q_counters : list counterMutation;
  q_gauges : list gaugeMutation;
  q_histograms : list histogramMutation;
  q_dynamicMetadata : list dynamicMetadataMutation;
  q_override : option upstreamOverrideMutation;
}.

Definition set_q_reqHeaders (v : list requestHeaderMutation) (r : queues) : queues :=
  mkQueues v (q_filterState r) (q_counters r) (q_gauges r) (q_histograms r)
    (q_dynamicMetadata r) (q_override r).
Definition set_q_filterState (v : list filterStateMutation) (r : queues) : queues :=
  mkQueues (q_reqHeaders r) v (q_counters r) (q_gauges r) (q_histograms r) (q_dynamicMetadata r)
    (q_override r).
Definition set_q_counters (v : list counterMutation) (r : queues) : queues :=
  mkQueues (q_reqHeaders r) (q_filterState r) v (q_gauges r) (q_histograms r)
    (q_dynamicMetadata r) (q_override r).
Definition set_q_gauges (v : list gaugeMutation) (r : queues) : queues :=
  mkQueues (q_reqHeaders r) (q_filterState r) (q_counters r) v (q_histograms r)
    (q_dynamicMetadata r) (q_override r).
Definition set_q_histograms (v : list histogramMutation) (r : queues) : queues :=
  mkQueues (q_reqHeaders r) (q_filterState r) (q_counters r) (q_gauges r) v
    (q_dynamicMetadata r) (q_override r).
Definition set_q_dynamicMetadata (v : list dynamicMetadataMutation) (r : queues) : queues :=
  mkQueues (q_reqHeaders r) (q_filterState r) (q_counters r) (q_gauges r) (q_histograms r) v
    (q_override r).
Definition set_q_override (v : option upstreamOverrideMutation) (r : queues) : queues :=
  mkQueues (q_reqHeaders r) (q_filterState r) (q_counters r) (q_gauges r) (q_histograms r)
    (q_dynamicMetadata r) v.

Definition queues_empty : queues := mkQueues [] [] [] [] [] [] None.

(** [filter]: the per-stream instance.  [calloutFn] carries the index of the [Writer] its
    closure captured; [goCancelled] records that the goroutine context was cancelled. *)
Record filter := mkFilter {
  cfg : filterConfig;
  reqID : string;
  context : any;
  finalizedKey : string;
  streamObjectNonce : string;
  requestContentType : string;
  requestContentEncoding : string;
  responseContentType : string;
  responseContentEncoding : string;
  goStarted : bool;
  goCompleted : bool;
  goCancelled : bool;
  stopped : bool;
  qs : queues;
  localReply : option localResponse;
  stripFramingOnResume : bool;
  requestBodyReplacement : bytes;
  hasRequestBodyReplacement : bool;
  responseBodyReplacement : bytes;
  hasResponseBodyReplacement : bool;
  calloutFn : option (nat * (CalloutDelivery -> prog));
  calloutState : calloutStateT;
  responseEndSeen : bool;
  streamDone : bool;
  localReplyBody : bytes;
}.

Definition set_reqID (v : string) (r : filter) : filter :=
  mkFilter (cfg r) v (context r) (finalizedKey r) (streamObjectNonce r) (requestContentType r)
    (requestContentEncoding r) (responseContentType r) (responseContentEncoding r) (goStarted r)
    (goCompleted r) (goCancelled r) (stopped r) (qs r) (localReply r) (stripFramingOnResume r)
    (requestBodyReplacement r) (hasRequestBodyReplacement r) (responseBodyReplacement r)
    (hasResponseBodyReplacement r) (calloutFn r) (calloutState r) (responseEndSeen r)
    (streamDone r) (localReplyBody r).
Definition set_context (v : any) (r : filter) : filter :=
  mkFilter (cfg r) (reqID r) v (finalizedKey r) (streamObjectNonce r) (requestContentType r)
    (requestContentEncoding r) (responseContentType r) (responseContentEncoding r) (goStarted r)
    (goCompleted r) (goCancelled r) (stopped r) (qs r) (localReply r) (stripFramingOnResume r)
    (requestBodyReplacement r) (hasRequestBodyReplacement r) (responseBodyReplacement r)
    (hasResponseBodyReplacement r) (calloutFn r) (calloutState r) (responseEndSeen r)
    (streamDone r) (localReplyBody r).
Definition set_finalizedKey (v : string) (r : filter) : filter :=
  mkFilter (cfg r) (reqID r) (context r) v (streamObjectNonce r) (requestContentType r)
    (requestContentEncoding r) (responseContentType r) (responseContentEncoding r) (goStarted r)
    (goCompleted r) (goCancelled r) (stopped r) (qs r) (localReply r) (stripFramingOnResume r)
    (requestBodyReplacement r) (hasRequestBodyReplacement r) (responseBodyReplacement r)
    (hasResponseBodyReplacement r) (calloutFn r) (calloutState r) (responseEndSeen r)
    (streamDone r) (localReplyBody r).
Definition set_streamObjectNonce (v : string) (r : filter) : filter :=
  mkFilter (cfg r) (reqID r) (context r) (finalizedKey r) v (requestContentType r)
    (requestContentEncoding r) (responseContentType r) (responseContentEncoding r) (goStarted r)
    (goCompleted r) (goCancelled r) (stopped r) (qs r) (localReply r) (stripFramingOnResume r)
    (requestBodyReplacement r) (hasRequestBodyReplacement r) (responseBodyReplacement r)
    (hasResponseBodyReplacement r) (calloutFn r) (calloutState r) (responseEndSeen r)
    (streamDone r) (localReplyBody r).
Definition set_requestContentType (v : string) (r : filter) : filter :=
  mkFilter (cfg r) (reqID r) (context r) (finalizedKey r) (streamObjectNonce r) v
    (requestContentEncoding r) (responseContentType r) (responseContentEncoding r) (goStarted r)
    (goCompleted r) (goCancelled r) (stopped r) (qs r) (localReply r) (stripFramingOnResume r)
    (requestBodyReplacement r) (hasRequestBodyReplacement r) (responseBodyReplacement r)
    (hasResponseBodyReplacement r) (calloutFn r) (calloutState r) (responseEndSeen r)
    (streamDone r) (localReplyBody r).
Definition set_requestContentEncoding (v : string) (r : filter) : filter :=
  mkFilter (cfg r) (reqID r) (context r) (finalizedKey r) (streamObjectNonce r)
    (requestContentType r) v (responseContentType r) (responseContentEncoding r) (goStarted r)
    (goCompleted r) (goCancelled r) (stopped r) (qs r) (localReply r) (stripFramingOnResume r)
    (requestBodyReplacement r) (hasRequestBodyReplacement r) (responseBodyReplacement r)
    (hasResponseBodyReplacement r) (calloutFn r) (calloutState r) (responseEndSeen r)
    (streamDone r) (localReplyBody r).
Definition set_responseContentType (v : string) (r : filter) : filter :=
  mkFilter (cfg r) (reqID r) (context r) (finalizedKey r) (streamObjectNonce r)
    (requestContentType r) (requestContentEncoding r) v (responseContentEncoding r)
    (goStarted r) (goCompleted r) (goCancelled r) (stopped r) (qs r) (localReply r)
    (stripFramingOnResume r) (requestBodyReplacement r) (hasRequestBodyReplacement r)
    (responseBodyReplacement r) (hasResponseBodyReplacement r) (calloutFn r) (calloutState r)
    (responseEndSeen r) (streamDone r) (localReplyBody r).
Definition set_responseContentEncoding (v : string) (r : filter) : filter :=
  mkFilter (cfg r) (reqID r) (context r) (finalizedKey r) (streamObjectNonce r)
    (requestContentType r) (requestContentEncoding r) (responseContentType r) v (goStarted r)
    (goCompleted r) (goCancelled r) (stopped r) (qs r) (localReply r) (stripFramingOnResume r)
    (requestBodyReplacement r) (hasRequestBodyReplacement r) (responseBodyReplacement r)
    (hasResponseBodyReplacement r) (calloutFn r) (calloutState r) (responseEndSeen r)
    (streamDone r) (localReplyBody r).
Definition set_goStarted (v : bool) (r : filter) : filter :=
  mkFilter (cfg r) (reqID r) (context r) (finalizedKey r) (streamObjectNonce r)
    (requestContentType r) (requestContentEncoding r) (responseContentType r)
    (responseContentEncoding r) v (goCompleted r) (goCancelled r) (stopped r) (qs r)
    (localReply r) (stripFramingOnResume r) (requestBodyReplacement r)
    (hasRequestBodyReplacement r) (responseBodyReplacement r) (hasResponseBodyReplacement r)
    (calloutFn r) (calloutState r) (responseEndSeen r) (streamDone r) (localReplyBody r).
Definition set_goCompleted (v : bool) (r : filter) : filter :=
  mkFilter (cfg r) (reqID r) (context r) (finalizedKey r) (streamObjectNonce r)
    (requestContentType r) (requestContentEncoding r) (responseContentType r)
    (responseContentEncoding r) (goStarted r) v (goCancelled r) (stopped r) (qs r)
    (localReply r) (stripFramingOnResume r) (requestBodyReplacement r)
    (hasRequestBodyReplacement r) (responseBodyReplacement r) (hasResponseBodyReplacement r)
    (calloutFn r) (calloutState r) (responseEndSeen r) (streamDone r) (localReplyBody r).
Definition set_goCancelled (v : bool) (r : filter) : filter :=
  mkFilter (cfg r) (reqID r) (context r) (finalizedKey r) (streamObjectNonce r)
    (requestContentType r) (requestContentEncoding r) (responseContentType r)
    (responseContentEncoding r) (goStarted r) (goCompleted r) v (stopped r) (qs r)
    (localReply r) (stripFramingOnResume r) (requestBodyReplacement r)
    (hasRequestBodyReplacement r) (responseBodyReplacement r) (hasResponseBodyReplacement r)
    (calloutFn r) (calloutState r) (responseEndSeen r) (streamDone r) (localReplyBody r).
Definition set_stopped (v : bool) (r : filter) : filter :=
  mkFilter (cfg r) (reqID r) (context r) (finalizedKey r) (streamObjectNonce r)
    (requestContentType r) (requestContentEncoding r) (responseContentType r)
    (responseContentEncoding r) (goStarted r) (goCompleted r) (goCancelled r) v (qs r)
    (localReply r) (stripFramingOnResume r) (requestBodyReplacement r)
    (hasRequestBodyReplacement r) (responseBodyReplacement r) (hasResponseBodyReplacement r)
    (calloutFn r) (calloutState r) (responseEndSeen r) (streamDone r) (localReplyBody r).
Definition set_qs (v : queues) (r : filter) : filter :=
  mkFilter (cfg r) (reqID r) (context r) (finalizedKey r) (streamObjectNonce r)
    (requestContentType r) (requestContentEncoding r) (responseContentType r)
    (responseContentEncoding r) (goStarted r) (goCompleted r) (goCancelled r) (stopped r) v
    (localReply r) (stripFramingOnResume r) (requestBodyReplacement r)
    (hasRequestBodyReplacement r) (responseBodyReplacement r) (hasResponseBodyReplacement r)
    (calloutFn r) (calloutState r) (responseEndSeen r) (streamDone r) (localReplyBody r).
Definition set_localReply (v : option localResponse) (r : filter) : filter :=
  mkFilter (cfg r) (reqID r) (context r) (finalizedKey r) (streamObjectNonce r)
    (requestContentType r) (requestContentEncoding r) (responseContentType r)
    (responseContentEncoding r) (goStarted r) (goCompleted r) (goCancelled r) (stopped r) (qs r)
    v (stripFramingOnResume r) (requestBodyReplacement r) (hasRequestBodyReplacement r)
    (responseBodyReplacement r) (hasResponseBodyReplacement r) (calloutFn r) (calloutState r)
    (responseEndSeen r) (streamDone r) (localReplyBody r).
Definition set_stripFramingOnResume (v : bool) (r : filter) : filter :=
  mkFilter (cfg r) (reqID r) (context r) (finalizedKey r) (streamObjectNonce r)
    (requestContentType r) (requestContentEncoding r) (responseContentType r)
    (responseContentEncoding r) (goStarted r) (goCompleted r) (goCancelled r) (stopped r) (qs r)
    (localReply r) v (requestBodyReplacement r) (hasRequestBodyReplacement r)
    (responseBodyReplacement r) (hasResponseBodyReplacement r) (calloutFn r) (calloutState r)
    (responseEndSeen r) (streamDone r) (localReplyBody r).
Definition set_requestBodyReplacement (v : bytes) (r : filter) : filter :=
  mkFilter (cfg r) (reqID r) (context r) (finalizedKey r) (streamObjectNonce r)
    (requestContentType r) (requestContentEncoding r) (responseContentType r)
    (responseContentEncoding r) (goStarted r) (goCompleted r) (goCancelled r) (stopped r) (qs r)
    (localReply r) (stripFramingOnResume r) v (hasRequestBodyReplacement r)
    (responseBodyReplacement r) (hasResponseBodyReplacement r) (calloutFn r) (calloutState r)
    (responseEndSeen r) (streamDone r) (localReplyBody r).
Definition set_hasRequestBodyReplacement (v : bool) (r : filter) : filter :=
  mkFilter (cfg r) (reqID r) (context r) (finalizedKey r) (streamObjectNonce r)
    (requestContentType r) (requestContentEncoding r) (responseContentType r)
    (responseContentEncoding r) (goStarted r) (goCompleted r) (goCancelled r) (stopped r) (qs r)
    (localReply r) (stripFramingOnResume r) (requestBodyReplacement r) v
    (responseBodyReplacement r) (hasResponseBodyReplacement r) (calloutFn r) (calloutState r)
    (responseEndSeen r) (streamDone r) (localReplyBody r).
Definition set_responseBodyReplacement (v : bytes) (r : filter) : filter :=
  mkFilter (cfg r) (reqID r) (context r) (finalizedKey r) (streamObjectNonce r)
    (requestContentType r) (requestContentEncoding r) (responseContentType r)
    (responseContentEncoding r) (goStarted r) (goCompleted r) (goCancelled r) (stopped r) (qs r)
    (localReply r) (stripFramingOnResume r) (requestBodyReplacement r)
    (hasRequestBodyReplacement r) v (hasResponseBodyReplacement r) (calloutFn r)
    (calloutState r) (responseEndSeen r) (streamDone r) (localReplyBody r).
Definition set_hasResponseBodyReplacement (v : bool) (r : filter) : filter :=
  mkFilter (cfg r) (reqID r) (context r) (finalizedKey r) (streamObjectNonce r)
    (requestContentType r) (requestContentEncoding r) (responseContentType r)
    (responseContentEncoding r) (goStarted r) (goCompleted r) (goCancelled r) (stopped r) (qs r)
    (localReply r) (stripFramingOnResume r) (requestBodyReplacement r)
    (hasRequestBodyReplacement r) (responseBodyReplacement r) v (calloutFn r) (calloutState r)
    (responseEndSeen r) (streamDone r) (localReplyBody r).
Definition set_calloutFn (v : option (nat * (CalloutDelivery -> prog))) (r : filter) : filter :=
  mkFilter (cfg r) (reqID r) (context r) (finalizedKey r) (streamObjectNonce r)
    (requestContentType r) (requestContentEncoding r) (responseContentType r)
    (responseContentEncoding r) (goStarted r) (goCompleted r) (goCancelled r) (stopped r) (qs r)
    (localReply r) (stripFramingOnResume r) (requestBodyReplacement r)
    (hasRequestBodyReplacement r) (responseBodyReplacement r) (hasResponseBodyReplacement r) v
    (calloutState r) (responseEndSeen r) (streamDone r) (localReplyBody r).
Definition set_calloutState (v : calloutStateT) (r : filter) : filter :=
  mkFilter (cfg r) (reqID r) (context r) (finalizedKey r) (streamObjectNonce r)
    (requestContentType r) (requestContentEncoding r) (responseContentType r)
    (responseContentEncoding r) (goStarted r) (goCompleted r) (goCancelled r) (stopped r) (qs r)
    (localReply r) (stripFramingOnResume r) (requestBodyReplacement r)
    (hasRequestBodyReplacement r) (responseBodyReplacement r) (hasResponseBodyReplacement r)
    (calloutFn r) v (responseEndSeen r) (streamDone r) (localReplyBody r).
Definition set_responseEndSeen (v : bool) (r : filter) : filter :=
  mkFilter (cfg r) (reqID r) (context r) (finalizedKey r) (streamObjectNonce r)
    (requestContentType r) (requestContentEncoding r) (responseContentType r)
    (responseContentEncoding r) (goStarted r) (goCompleted r) (goCancelled r) (stopped r) (qs r)
    (localReply r) (stripFramingOnResume r) (requestBodyReplacement r)
    (hasRequestBodyReplacement r) (responseBodyReplacement r) (hasResponseBodyReplacement r)
    (calloutFn r) (calloutState r) v (streamDone r) (localReplyBody r).
Definition set_streamDone (v : bool) (r : filter) : filter :=
  mkFilter (cfg r) (reqID r) (context r) (finalizedKey r) (streamObjectNonce r)
    (requestContentType r) (requestContentEncoding r) (responseContentType r)
    (responseContentEncoding r) (goStarted r) (goCompleted r) (goCancelled r) (stopped r) (qs r)
    (localReply r) (stripFramingOnResume r) (requestBodyReplacement r)
    (hasRequestBodyReplacement r) (responseBodyReplacement r) (hasResponseBodyReplacement r)
    (calloutFn r) (calloutState r) (responseEndSeen r) v (localReplyBody r).
Definition set_localReplyBody (v : bytes) (r : filter) : filter :=
  mkFilter (cfg r) (reqID r) (context r) (finalizedKey r) (streamObjectNonce r)
    (requestContentType r) (requestContentEncoding r) (responseContentType r)
    (responseContentEncoding r) (goStarted r) (goCompleted r) (goCancelled r) (stopped r) (qs r)
    (localReply r) (stripFramingOnResume r) (requestBodyReplacement r)
    (hasRequestBodyReplacement r) (responseBodyReplacement r) (hasResponseBodyReplacement r)
    (calloutFn r) (calloutState r) (responseEndSeen r) (streamDone r) v.

(** [filterFactory.Create]: every field not copied from the factory is the zero value. *)
Definition newFilter (c : filterConfig) : filter :=
  mkFilter c "" VNil "" "" "" "" "" "" false false false false queues_empty None false
    [] false [] false None calloutStateActive false false [].

(** [Writer]: the per-invocation view over the filter. *)
Record Writer := mkWriter {
  calloutStarted : bool;
  w_goStarted : bool;
  directWrite : bool;
}.

Definition set_calloutStarted (v : bool) (r : Writer) : Writer :=
  mkWriter v (w_goStarted r) (directWrite r).
Definition set_w_goStarted (v : bool) (r : Writer) : Writer :=
  mkWriter (calloutStarted r) v (directWrite r).

(** [allSettledBatch], with the writer its callback captured. *)
Record allSettledBatch := mkBatch {
  b_w : nat;
  b_fn : list HTTPCalloutAllSettledResponse -> prog;
  b_responses : list HTTPCalloutAllSettledResponse;
  b_remaining : Z;
  b_flushed : bool;
}.

(** [calloutSequence]. *)
Record calloutSequence := mkSeq {
  sq_w : nat;
  sq_next : nat -> option HTTPCalloutAllSettledResponse -> option HTTPCalloutRequest;
  sq_done : list HTTPCalloutAllSettledResponse -> prog;
  sq_responses : list HTTPCalloutAllSettledResponse;
  sq_finished : bool;
}.

(** [grpcStreamCallback]. *)
Record grpcStreamCallback := mkGrpcCb {
  gc_w : nat;
  gc_fn : GRPCCalloutResponse -> prog;
  gc_once : bool;
  gc_resp : GRPCCalloutResponse;
  gc_body : bytes;
}.

(** An entry of the finalized-callback registry: the callback and the stream whose fields
    it points into (up/stream_finalized.go). *)
Record streamFinalizedEntry := mkFinEntry {
  fe_fn : any -> FinalizedInfo -> any;
  fe_stream : nat;
}.

(** Process-wide state: the bag registry, the finalized registry, and how many nonces were
    drawn from the random source. *)
Record process := mkProcess {
  p_bags : bag_registry;
  p_finalized : gmap string streamFinalizedEntry;
  p_drawn : nat;
}.

Definition set_p_bags (v : bag_registry) (r : process) : process :=
  mkProcess v (p_finalized r) (p_drawn r).
Definition set_p_finalized (v : gmap string streamFinalizedEntry) (r : process) : process :=
  mkProcess (p_bags r) v (p_drawn r).
Definition set_p_drawn (v : nat) (r : process) : process :=
  mkProcess (p_bags r) (p_finalized r) v.

(** The state a callback of one stream works on: the stream id, its filter, the writers
    created for it, the calls made to Envoy, the process, the callout objects in flight and
    the goroutines started (with the writer each captured). *)
Record st := mkSt {
  s_id : nat;
  s_f : filter;
  s_ws : list Writer;
  s_tr : list call;
  s_proc : process;
  s_batches : list allSettledBatch;
  s_seqs : list calloutSequence;
  s_grpcs : list grpcStreamCallback;
  s_gos : list (nat * gprog);
}.

Definition set_s_f (v : filter) (r : st) : st :=
  mkSt (s_id r) v (s_ws r) (s_tr r) (s_proc r) (s_batches r) (s_seqs r) (s_grpcs r) (s_gos r).
Definition set_s_ws (v : list Writer) (r : st) : st :=
  mkSt (s_id r) (s_f r) v (s_tr r) (s_proc r) (s_batches r) (s_seqs r) (s_grpcs r) (s_gos r).
Definition set_s_tr (v : list call) (r : st) : st :=
  mkSt (s_id r) (s_f r) (s_ws r) v (s_proc r) (s_batches r) (s_seqs r) (s_grpcs r) (s_gos r).
Definition set_s_proc (v : process) (r : st) : st :=
  mkSt (s_id r) (s_f r) (s_ws r) (s_tr r) v (s_batches r) (s_seqs r) (s_grpcs r) (s_gos r).
Definition set_s_batches (v : list allSettledBatch) (r : st) : st :=
  mkSt (s_id r) (s_f r) (s_ws r) (s_tr r) (s_proc r) v (s_seqs r) (s_grpcs r) (s_gos r).
Definition set_s_seqs (v : list calloutSequence) (r : st) : st :=
  mkSt (s_id r) (s_f r) (s_ws r) (s_tr r) (s_proc r) (s_batches r) v (s_grpcs r) (s_gos r).
Definition set_s_grpcs (v : list grpcStreamCallback) (r : st) : st :=
  mkSt (s_id r) (s_f r) (s_ws r) (s_tr r) (s_proc r) (s_batches r) (s_seqs r) v (s_gos r).
Definition set_s_gos (v : list (nat * gprog)) (r : st) : st :=
  mkSt (s_id r) (s_f r) (s_ws r) (s_tr r) (s_proc r) (s_batches r) (s_seqs r) (s_grpcs r) v.

(** Update the filter, one writer, one callout object, or append a call. *)
Definition upd_f (u : filter -> filter) (s : st) : st := set_s_f (u (s_f s)) s.
Definition upd_q (u : queues -> queues) (s : st) : st := upd_f (fun f => set_qs (u (qs f)) f) s.
Definition upd_w (w : nat) (u : Writer -> Writer) (s : st) : st := set_s_ws (alter u w (s_ws s)) s.
Definition emit (c : call) (s : st) : st := set_s_tr (s_tr s ++ [c]) s.
Definition emits (cs : list call) (s : st) : st := set_s_tr (s_tr s ++ cs) s.
Definition upd_proc (u : process -> process) (s : st) : st := set_s_proc (u (s_proc s)) s.

(** The writer with index [w]; every index a program is run with is allocated. *)
Definition writer (w : nat) (s : st) : Writer :=
  match s_ws s !! w with Some x => x | None => mkWriter false false false end.

(** [&Writer{...}]: allocate a writer. *)
Definition newWriter (x : Writer) (s : st) : nat * st :=
  (length (s_ws s), set_s_ws (s_ws s ++ [x]) s).
