(* ===== verification/Filter.v ===== *)
(** * up/filter.go, up/writer.go, up/metadata.go, up/grpc.go: the operations of a stream

    The [Writer] methods, [flush], the callout machinery and the callbacks Envoy invokes,
    as functions on the state of FilterState.v.  [run] executes a handler program on the
    worker thread: a callout whose response Envoy delivers before returning runs its
    callback inside [run], as the code does. *)
From stdpp Require Import base list gmap strings pretty.
From Stdlib Require Import ZArith Lia.
From S2P Require Import Prelude Async StreamObject Envoy Grpc FilterState.

Section filter.
Context (E : Envoy).

(** ** Writer: request mutations *)

Definition queued (w : nat) (s : st) : bool :=
  negb (directWrite (writer w s)) || goStarted (s_f s) || calloutStarted (writer w s).

Definition SendLocalResponse (w : nat) (status : Z) (body : bytes)
    (headers : list (string * string)) (s : st) : st :=
  if queued w s then
    let s :=
      match localReply (s_f s) with
      | None => upd_f (fun f => set_localReply (Some (mkLocal (uint32_of status) headers body))
                                  (set_localReplyBody body f)) s
      | Some _ => s
      end in
    upd_f (set_stopped true) s
  else if stopped (s_f s) then s
  else
    upd_f (set_stopped true)
      (emit (CSendLocalResponse (uint32_of status) headers body "")
         (upd_f (set_localReplyBody body) s)).

Definition push_reqHeader (m : requestHeaderMutation) : st -> st :=
  upd_q (fun q => set_q_reqHeaders (q_reqHeaders q ++ [m]) q).

Definition SetRequestHeader (w : nat) (n v : string) (s : st) : st :=
  if queued w s then push_reqHeader (mkHdrMut n v false false) s
  else emit (CReqHeaderSet n v) s.

Definition AddRequestHeader (w : nat) (n v : string) (s : st) : st :=
  if queued w s then push_reqHeader (mkHdrMut n v false true) s
  else emit (CReqHeaderAdd n v) s.

Definition RemoveRequestHeader (w : nat) (n : string) (s : st) : st :=
  if queued w s then push_reqHeader (mkHdrMut n "" true false) s
  else emit (CReqHeaderRemove n) s.

Definition SetFilterState (w : nat) (key value : string) (s : st) : st :=
  if queued w s
  then upd_q (fun q => set_q_filterState
                         (q_filterState q ++ [mkFsMut key (String.list_byte_of_string value)]) q) s
  else emit (CSetFilterState key (String.list_byte_of_string value)) s.

Definition GetFilterState (key : string) (s : st) : option string :=
  ev_filter_state E (s_tr s) key.

Definition SetUpstreamOverrideHost (w : nat) (host : string) (strict : bool) (s : st) : bool * st :=
  if queued w s
  then (true, upd_q (set_q_override (Some (mkOverride host strict))) s)
  else (ev_override E (s_tr s) host strict, emit (CSetUpstreamOverrideHost host strict) s).

Definition SetResponseHeader (n v : string) : st -> st := emit (CRespHeaderSet n v).
Definition AddResponseHeader (n v : string) : st -> st := emit (CRespHeaderAdd n v).
Definition RemoveResponseHeader (n : string) : st -> st := emit (CRespHeaderRemove n).

Definition SetRequestBody (data : bytes) (s : st) : st :=
  if mutableRequestBody (cfg (s_f s))
  then upd_f (fun f => set_hasRequestBodyReplacement true (set_requestBodyReplacement data f)) s
  else s.

Definition SetResponseBody (data : bytes) : st -> st :=
  upd_f (fun f => set_hasResponseBodyReplacement true (set_responseBodyReplacement data f)).

Definition IncrementCounterLabels (w : nat) (id delta : Z) (labels : list string) (s : st) : st :=
  if queued w s
  then upd_q (fun q => set_q_counters (q_counters q ++ [mkCtrMut id delta labels]) q) s
  else emit (CIncrementCounterValue id delta labels) s.

Definition push_gauge (m : gaugeMutation) : st -> st :=
  upd_q (fun q => set_q_gauges (q_gauges q ++ [m]) q).

Definition IncrementGauge (w : nat) (id delta : Z) (s : st) : st :=
  if queued w s then push_gauge (mkGaugeMut id delta gaugeOpIncrement) s
  else emit (CIncrementGaugeValue id delta) s.

Definition DecrementGauge (w : nat) (id delta : Z) (s : st) : st :=
  if queued w s then push_gauge (mkGaugeMut id delta gaugeOpDecrement) s
  else emit (CDecrementGaugeValue id delta) s.

Definition SetGauge (w : nat) (id value : Z) (s : st) : st :=
  if queued w s then push_gauge (mkGaugeMut id value gaugeOpSet) s
  else emit (CSetGaugeValue id value) s.

Definition RecordHistogramLabels (w : nat) (id value : Z) (labels : list string) (s : st) : st :=
  if queued w s
  then upd_q (fun q => set_q_histograms (q_histograms q ++ [mkHistMut id value labels]) q) s
  else emit (CRecordHistogramValue id value labels) s.

(** The type switch of [SetMetadata]. *)
Definition metadata_ok (v : any) : bool :=
  match v with
  | VString _ | VBool _ | VNum _ _ | VFloat32 _ | VFloat64 _ => true
  | VNil | VOther _ => false
  end.

Definition SetMetadata (w : nat) (ns key : string) (value : any) (s : st) : res st :=
  if metadata_ok value then
    Ok (if queued w s
        then upd_q (fun q => set_q_dynamicMetadata
                               (q_dynamicMetadata q ++ [mkMdMut ns key value]) q) s
        else emit (CSetMetadata ns key value) s)
  else Panic "up: SetMetadata: unsupported value type; use string, bool, or a numeric type".

(** ** Writer: reading the request headers through the queue *)

Definition removeRequestHeader (hs : list (string * string)) (n : string) : list (string * string) :=
  base.filter (fun h => EqualFold (ev_unicode E) h.1 n = false) hs.

Definition applyRequestHeaderMutation (hs : list (string * string)) (m : requestHeaderMutation) :
    list (string * string) :=
  if hm_del m then removeRequestHeader hs (hm_name m)
  else if hm_add m then hs ++ [(hm_name m, hm_value m)]
  else removeRequestHeader hs (hm_name m) ++ [(hm_name m, hm_value m)].

Definition RequestHeaders (s : st) : list (string * string) :=
  foldl applyRequestHeaderMutation (ev_request_headers E (s_tr s)) (q_reqHeaders (qs (s_f s))).

Fixpoint first_value (n : string) (hs : list (string * string)) : string :=
  match hs with
  | [] => ""
  | h :: hs => if EqualFold (ev_unicode E) h.1 n then h.2 else first_value n hs
  end.

Definition RequestHeader (n : string) (s : st) : string := first_value n (RequestHeaders s).

(** ** Stream objects (up/stream_object.go) *)

Definition set_bags (g : bag_registry) : st -> st := upd_proc (set_p_bags g).

(** [mintStreamObjectNonce()]: the next nonce of the random source. *)
Definition mintStreamObjectNonce (s : st) : string * st :=
  (ev_nonce E (p_drawn (s_proc s)), upd_proc (fun p => set_p_drawn (S (p_drawn p)) p) s).

(** The loop that draws nonces until one is free; [None] when [fuel] draws all collide. *)
Fixpoint mint_bag (fuel : nat) (s : st) : option (bagref * string * st) :=
  match fuel with
  | O => None
  | S fuel =>
      let '(nonce, s) := mintStreamObjectNonce s in
      let '(bag, loaded, g) := InsertStreamObjectBag nonce (p_bags (s_proc s)) in
      if loaded then mint_bag fuel s else Some (bag, nonce, set_bags g s)
  end.

(** One draw more than there are bags: enough when the source does not repeat itself
    ([mint_bag_total]). *)
Definition getOrCreateBag (w : nat) (s : st) : res (bagref * st) :=
  let fast :=
    if decide (streamObjectNonce (s_f s) = "") then None
    else LookupStreamObjectBag (streamObjectNonce (s_f s)) (p_bags (s_proc s)) in
  match fast with
  | Some bag => Ok (bag, s)
  | None =>
      match mint_bag (S (StreamObjectBagCount (p_bags (s_proc s)))) s with
      | Some (bag, nonce, s) =>
          let s := upd_f (set_streamObjectNonce nonce) s in
          Ok (bag, SetFilterState w StreamObjectIDKey nonce s)
      | None => Panic "getOrCreateBag: every nonce collides"
      end
  end.

Definition dropBag (nonce : string) (s : st) : st :=
  set_bags (DropStreamObjectBag nonce (p_bags (s_proc s))) s.

Definition SetStreamObject (w : nat) (key : string) (v : any) (s : st) : res st :=
  '(bag, s) ← getOrCreateBag w s;
  Ok (set_bags (bag_Set bag key v (p_bags (s_proc s))) s).

Definition GetStreamObject (key : string) (s : st) : option any * st :=
  let found :=
    if decide (streamObjectNonce (s_f s) = "") then
      match GetFilterState StreamObjectIDKey s with
      | Some nonce => if decide (nonce = "") then None
                      else Some (upd_f (set_streamObjectNonce nonce) s)
      | None => None
      end
    else Some s in
  match found with
  | None => (None, s)
  | Some s =>
      match LookupStreamObjectBag (streamObjectNonce (s_f s)) (p_bags (s_proc s)) with
      | None => (None, s)
      | Some bag => (bag_Get bag key (p_bags (s_proc s)), s)
      end
  end.

(** ** Dispatch of one handler operation *)

Definition do_act (w : nat) (a : act) (s : st) : res st :=
  match a with
  | ASendLocalResponse status body headers => Ok (SendLocalResponse w status body headers s)
  | ASetRequestHeader n v => Ok (SetRequestHeader w n v s)
  | AAddRequestHeader n v => Ok (AddRequestHeader w n v s)
  | ARemoveRequestHeader n => Ok (RemoveRequestHeader w n s)
  | ASetFilterState k v => Ok (SetFilterState w k v s)
  | ASetStreamObject k v => SetStreamObject w k v s
  | ASetResponseHeader n v => Ok (SetResponseHeader n v s)
  | AAddResponseHeader n v => Ok (AddResponseHeader n v s)
  | ARemoveResponseHeader n => Ok (RemoveResponseHeader n s)
  | ASetRequestBody d => Ok (SetRequestBody d s)
  | ASetResponseBody d => Ok (SetResponseBody d s)
  | AIncrementCounterLabels id d ls => Ok (IncrementCounterLabels w id d ls s)
  | AIncrementGauge id d => Ok (IncrementGauge w id d s)
  | ADecrementGauge id d => Ok (DecrementGauge w id d s)
  | ASetGauge id v => Ok (SetGauge w id v s)
  | ARecordHistogramLabels id v ls => Ok (RecordHistogramLabels w id v ls s)
  | ASetMetadata ns k v => SetMetadata w ns k v s
  | ALog l m => Ok (emit (CLog l m) s)
  | ASetContext v => Ok (upd_f (set_context v) s)
  end.

Definition do_query {A} (w : nat) (q : query A) (s : st) : A * st :=
  match q in query A return A * st with
  | QRequestHeaders => (RequestHeaders s, s)
  | QRequestHeader n => (RequestHeader n s, s)
  | QHeader n => (ev_request_header E (s_tr s) n, s)
  | QGetFilterState k => (GetFilterState k s, s)
  | QGetStreamObject k => GetStreamObject k s
  | QSetUpstreamOverrideHost h strict => SetUpstreamOverrideHost w h strict s
  | QContext => (context (s_f s), s)
  end.

(** ** flush *)

(** [requestBodyReplacementBuffer(handle, current)]; [None] is a nil buffer. *)
Definition requestBodyReplacementBuffer (current : option bodyref) (s : st) : option bodyref :=
  match ev_body E (s_tr s) BufferedRequest with
  | Some chunks =>
      if 0 <? body_size chunks then Some BufferedRequest
      else match current with Some c => Some c | None => Some BufferedRequest end
  | None => current
  end.

(** [buf.GetSize()], where the bytes of the frame being processed are [cur]. *)
Definition buffer_size (b : bodyref) (cur : list bytes) (s : st) : nat :=
  match b with
  | CurrentBody => body_size cur
  | _ => match ev_body E (s_tr s) b with Some chunks => body_size chunks | None => 0 end
  end.

Definition header_call (m : requestHeaderMutation) : call :=
  if hm_del m then CReqHeaderRemove (hm_name m)
  else if hm_add m then CReqHeaderAdd (hm_name m) (hm_value m)
  else CReqHeaderSet (hm_name m) (hm_value m).

Definition gauge_call (m : gaugeMutation) : call :=
  match gm_op m with
  | gaugeOpSet => CSetGaugeValue (gm_id m) (gm_value m)
  | gaugeOpIncrement => CIncrementGaugeValue (gm_id m) (gm_value m)
  | gaugeOpDecrement => CDecrementGaugeValue (gm_id m) (gm_value m)
  end.

(** The calls that apply the queues, in the order [flush] makes them. *)
Definition queue_calls (q : queues) (strip : bool) : list call :=
  (header_call <$> q_reqHeaders q) ++
  (if strip then [CReqHeaderRemove "content-length"; CReqHeaderRemove "transfer-encoding"] else []) ++
  ((fun m => CSetFilterState (fs_key m) (fs_value m)) <$> q_filterState q) ++
  ((fun m => CIncrementCounterValue (cm_id m) (cm_delta m) (cm_labels m)) <$> q_counters q) ++
  (gauge_call <$> q_gauges q) ++
  ((fun m => CRecordHistogramValue (hi_id m) (hi_value m) (hi_labels m)) <$> q_histograms q) ++
  ((fun m => CSetMetadata (md_ns m) (md_key m) (md_value m)) <$> q_dynamicMetadata q) ++
  match q_override q with
  | Some o => [CSetUpstreamOverrideHost (ov_host o) (ov_strict o)]
  | None => []
  end.

Definition flush (continueReq : bool) (s : st) : st :=
  match localReply (s_f s) with
  | Some lr =>
      upd_f (set_localReply None)
        (emit (CSendLocalResponse (lr_status lr) (lr_headers lr) (lr_body lr) "") s)
  | None =>
      let s := emits (queue_calls (qs (s_f s)) (stripFramingOnResume (s_f s))) s in
      let s := upd_f (fun f => set_stripFramingOnResume false (set_qs queues_empty f)) s in
      let s :=
        if hasRequestBodyReplacement (s_f s) then
          let data := requestBodyReplacement (s_f s) in
          let s :=
            match requestBodyReplacementBuffer None s with
            | Some buf =>
                emits [CDrain buf (buffer_size buf [] s); CAppend buf data;
                       CReqHeaderSet "content-length" (Itoa_len data)] s
            | None => s
            end in
          upd_f (fun f => set_hasRequestBodyReplacement false (set_requestBodyReplacement [] f)) s
        else s in
      let s := upd_f (set_stopped false) s in
      if continueReq then emit CContinueRequest s else s
  end.

(** ** Callouts *)

(** [calloutState.CompareAndSwap(old, new)]. *)
Definition cas (old new : calloutStateT) (s : st) : bool * st :=
  if decide (calloutState (s_f s) = old)
  then (true, upd_f (set_calloutState new) s) else (false, s).

(** The end of every callout callback: resume a paused stream, or leave the flush to the
    request callback that has not paused yet. *)
Definition handoff (s : st) : st :=
  let '(won, s) := cas calloutStatePaused calloutStateFlushed s in
  if won then flush true s
  else (cas calloutStateActive calloutStateDone s).2.

(** [filter.OnHttpCalloutDone], where [cb] is the stored callback applied to what Envoy
    delivered. *)
Definition calloutDone (cb : option (st -> res st)) (s : st) : res st :=
  if streamDone (s_f s) then Ok s
  else match cb with
       | None => Ok s
       | Some fn =>
           s ← fn (upd_f (set_calloutFn None) s);
           Ok (handoff s)
       end.

(** [allSettledBatch.finish], where [runfn] runs the batch callback. *)
Definition batch_finish (runfn : list HTTPCalloutAllSettledResponse -> st -> res st)
    (b i : nat) (resp : HTTPCalloutAllSettledResponse) (s : st) : res st :=
  match s_batches s !! b with
  | None => Ok s
  | Some x =>
      if b_flushed x then Ok s
      else
        let responses := <[i := resp]> (b_responses x) in
        let remaining := (b_remaining x - 1)%Z in
        if (0 <? remaining)%Z
        then Ok (set_s_batches (<[b := mkBatch (b_w x) (b_fn x) responses remaining false]>
                                  (s_batches s)) s)
        else
          let s := set_s_batches (<[b := mkBatch (b_w x) (b_fn x) responses remaining true]>
                                    (s_batches s)) s in
          if streamDone (s_f s) then Ok s
          else
            s ← runfn responses s;
            if streamDone (s_f s) then Ok s else Ok (handoff s)
  end.

(** One iteration of the loop of [HTTPCalloutAllSettled]. *)
Definition settle_one (runfn : list HTTPCalloutAllSettledResponse -> st -> res st)
    (b : nat) (ireq : nat * HTTPCalloutRequest) (s : st) : res st :=
  let '(i, req) := ireq in
  let '(init, sync) := ev_callout E (s_tr s) req in
  let s := emit (CHttpCallout req (TBatch b i)) s in
  s ← match sync with
      | Some d => batch_finish runfn b i (settled_done d) s
      | None => Ok s
      end;
  if decide (init = HTTPCalloutInitSuccess) then Ok s
  else batch_finish runfn b i (settled_rejected init) s.

Fixpoint settle_all (runfn : list HTTPCalloutAllSettledResponse -> st -> res st)
    (b : nat) (reqs : list (nat * HTTPCalloutRequest)) (s : st) : res st :=
  match reqs with
  | [] => Ok s
  | ireq :: reqs => s ← settle_one runfn b ireq s; settle_all runfn b reqs s
  end.

(** [calloutSequence.finish], where [rundone] runs the completion callback. *)
Definition seq_finish (rundone : list HTTPCalloutAllSettledResponse -> st -> res st)
    (q : nat) (s : st) : res st :=
  match s_seqs s !! q with
  | None => Ok s
  | Some x =>
      if sq_finished x || streamDone (s_f s) then Ok s
      else
        let s := set_s_seqs (<[q := mkSeq (sq_w x) (sq_next x) (sq_done x) (sq_responses x) true]>
                               (s_seqs s)) s in
        s ← rundone (sq_responses x) s;
        if streamDone (s_f s) then Ok s else Ok (handoff s)
  end.

(** [s.responses = append(s.responses, resp)]. *)
Definition seq_push (q : nat) (resp : HTTPCalloutAllSettledResponse) (s : st) : st :=
  set_s_seqs (alter (fun x => mkSeq (sq_w x) (sq_next x) (sq_done x)
                                (sq_responses x ++ [resp]) (sq_finished x)) q (s_seqs s)) s.

(** [calloutSequence.step]; [fuel] bounds the nesting of calls on the Go stack. *)
Fixpoint seq_step (fuel : nat) (rundone : list HTTPCalloutAllSettledResponse -> st -> res st)
    (q : nat) (previous : option HTTPCalloutAllSettledResponse) (s : st) : res st :=
  match fuel with
  | O => Panic "stack overflow"
  | S fuel =>
      match s_seqs s !! q with
      | None => Ok s
      | Some x =>
          if sq_finished x || streamDone (s_f s) then Ok s
          else match sq_next x (length (sq_responses x)) previous with
               | None => seq_finish rundone q s
               | Some req =>
                   let '(init, sync) := ev_callout E (s_tr s) req in
                   let s := emit (CHttpCallout req (TSeq q)) s in
                   s ← match sync with
                       | Some d => seq_step fuel rundone q (Some (settled_done d))
                                     (seq_push q (settled_done d) s)
                       | None => Ok s
                       end;
                   if decide (init = HTTPCalloutInitSuccess) then Ok s
                   else seq_step fuel rundone q (Some (settled_rejected init))
                          (seq_push q (settled_rejected init) s)
               end
      end
  end.

(** ** gRPC callouts (up/grpc.go) *)

Definition upd_grpc (g : nat) (u : grpcStreamCallback -> grpcStreamCallback) (s : st) : st :=
  set_s_grpcs (alter u g (s_grpcs s)) s.

(** [applyGRPCHeaders]: the status is overwritten, the message only when present. *)
Definition applyGRPCHeaders (headers : list (UnsafeEnvoyBuffer * UnsafeEnvoyBuffer))
    (c : grpcStreamCallback) : grpcStreamCallback :=
  let '(status, msg) := parseGRPCHeaders headers in
  let r := gc_resp c in
  mkGrpcCb (gc_w c) (gc_fn c) (gc_once c)
    (mkGrpcResp (gr_Result r) status (if decide (msg = "") then gr_GRPCMessage r else msg) (gr_Body r))
    (gc_body c).

(** [grpcStreamCallback.finish]. *)
Definition grpc_finish (runfn : GRPCCalloutResponse -> st -> res st) (g : nat) (result : Z)
    (s : st) : res st :=
  match s_grpcs s !! g with
  | None => Ok s
  | Some c =>
      if gc_once c then Ok s
      else
        let s := set_s_grpcs (<[g := mkGrpcCb (gc_w c) (gc_fn c) true (gc_resp c) (gc_body c)]>
                                (s_grpcs s)) s in
        let body := if decide (result = HTTPCalloutSuccess)
                    then match decodeGRPCFrame (gc_body c) with Some b => b | None => [] end
                    else gr_Body (gc_resp c) in
        let resp := mkGrpcResp result (gr_GRPCStatus (gc_resp c)) (gr_GRPCMessage (gc_resp c)) body in
        if streamDone (s_f s) then Ok s
        else s ← runfn resp s; Ok (handoff s)
  end.

(** The [shared.HttpStreamCallback] methods of [grpcStreamCallback]. *)
Definition grpc_event (runfn : GRPCCalloutResponse -> st -> res st) (g : nat) (e : stream_event)
    (s : st) : res st :=
  match e with
  | SHeaders h => Ok (upd_grpc g (applyGRPCHeaders h) s)
  | STrailers h => Ok (upd_grpc g (applyGRPCHeaders h) s)
  | SData body =>
      Ok (upd_grpc g (fun c => mkGrpcCb (gc_w c) (gc_fn c) (gc_once c) (gc_resp c)
                                 (gc_body c ++ concat (ToBytes <$> body))) s)
  | SComplete => grpc_finish runfn g HTTPCalloutSuccess s
  | SReset => grpc_finish runfn g HTTPCalloutReset s
  end.

Fixpoint grpc_events (runfn : GRPCCalloutResponse -> st -> res st) (g : nat)
    (es : list stream_event) (s : st) : res st :=
  match es with
  | [] => Ok s
  | e :: es => s ← grpc_event runfn g e s; grpc_events runfn g es s
  end.

(** The HTTP request that carries a gRPC call. *)
Definition grpc_request (req : GRPCCalloutRequest) : HTTPCalloutRequest :=
  let authority := if decide (g_Authority req = "") then g_Cluster req else g_Authority req in
  mkReq (g_Cluster req)
    [(":method", "POST"); (":path", g_Method req); (":scheme", "http"); ("host", authority);
     ("content-type", "application/grpc+proto"); ("te", "trailers")]
    (encodeGRPCFrame (g_Message req)) (g_TimeoutMillis req).

(** ** Writer: starting callouts and goroutines *)

(** [calloutStarted = true] and [calloutState.Store(calloutStateActive)]. *)
Definition start_callout (w : nat) (s : st) : st :=
  upd_f (set_calloutState calloutStateActive) (upd_w w (set_calloutStarted true) s).

(** The reset after Envoy rejects a callout. *)
Definition reject_callout (w : nat) (s : st) : st :=
  upd_f (set_calloutState calloutStateActive) (upd_w w (set_calloutStarted false) s).

(** [w.Go(fn)]: the goroutine is recorded; its execution is in Goroutine.v. *)
Definition Go (w : nat) (fn : gprog) (s : st) : res st :=
  if w_goStarted (writer w s) then Panic "up: Go called twice on the same request"
  else if calloutStarted (writer w s) then Panic "up: Go cannot be started after HTTPCallout"
  else
    let s := emit CGetScheduler s in
    let s := upd_f (fun f => set_goStarted true (set_goCompleted false (set_goCancelled false f))) s in
    let s := upd_w w (set_w_goStarted true) s in
    Ok (set_s_gos (s_gos s ++ [(w, fn)]) s).

(** ** The callout methods of a writer

    Each takes what the caller does with the result as [return_] and the execution of the
    user's callback as [runfn]; Go's nil callbacks are outside the type [prog]. *)

(** [w.HTTPCallout(req, fn)]. *)
Definition HTTPCallout (w : nat) (req : HTTPCalloutRequest) (fn : CalloutDelivery -> prog)
    (runfn : CalloutDelivery -> st -> res st) (return_ : Z -> option string -> st -> res st)
    (s : st) : res st :=
  if calloutStarted (writer w s) || w_goStarted (writer w s)
  then Panic "up: HTTPCallout cannot be started after Go or another HTTPCallout"
  else
    let s := upd_f (set_calloutFn (Some (w, fn))) s in
    let s := start_callout w s in
    let '(init, sync) := ev_callout E (s_tr s) req in
    let s := emit (CHttpCallout req TFilter) s in
    s ← match sync with
        | Some d => calloutDone (Some (runfn d)) s
        | None => Ok s
        end;
    if decide (init = HTTPCalloutInitSuccess)
    then return_ HTTPCalloutInitSuccess None s
    else
      let s := reject_callout w (upd_f (set_calloutFn None) s) in
      return_ init (errCalloutInitResult init) s.

(** [w.HTTPCalloutAllSettled(reqs, fn)]. *)
Definition HTTPCalloutAllSettled (w : nat) (reqs : list HTTPCalloutRequest)
    (fn : list HTTPCalloutAllSettledResponse -> prog)
    (runfn : list HTTPCalloutAllSettledResponse -> st -> res st) (return_ : st -> res st)
    (s : st) : res st :=
  if calloutStarted (writer w s) || w_goStarted (writer w s)
  then Panic "up: HTTPCalloutAllSettled cannot be started after Go or another HTTPCallout"
  else if decide (reqs = [])
  then s ← runfn [] s; return_ s
  else
    let s := start_callout w s in
    let b := length (s_batches s) in
    let s := set_s_batches (s_batches s ++
               [mkBatch w fn (replicate (length reqs) settled_zero)
                  (Z.of_nat (length reqs)) false]) s in
    s ← settle_all runfn b (zip (seq 0 (length reqs)) reqs) s;
    return_ s.

(** [w.HTTPCalloutSequence(next, done)]. *)
Definition HTTPCalloutSequence (w : nat)
    (next : nat -> option HTTPCalloutAllSettledResponse -> option HTTPCalloutRequest)
    (done_ : list HTTPCalloutAllSettledResponse -> prog)
    (rundone : list HTTPCalloutAllSettledResponse -> st -> res st) (return_ : st -> res st)
    (s : st) : res st :=
  if calloutStarted (writer w s) || w_goStarted (writer w s)
  then Panic "up: HTTPCalloutSequence cannot be started after Go or another HTTPCallout"
  else
    let s := start_callout w s in
    let q := length (s_seqs s) in
    let s := set_s_seqs (s_seqs s ++ [mkSeq w next done_ [] false]) s in
    s ← seq_step (ev_stack E) rundone q None s;
    return_ s.

(** [w.GRPCCallout(req, fn)]. *)
Definition GRPCCallout (w : nat) (req : GRPCCalloutRequest) (fn : GRPCCalloutResponse -> prog)
    (runfn : GRPCCalloutResponse -> st -> res st) (return_ : Z -> option string -> st -> res st)
    (s : st) : res st :=
  if calloutStarted (writer w s) || w_goStarted (writer w s)
  then Panic "up: GRPCCallout cannot be started after Go or another callout"
  else
    let g := length (s_grpcs s) in
    let s := set_s_grpcs (s_grpcs s ++
               [mkGrpcCb w fn false (mkGrpcResp HTTPCalloutSuccess 0 "" []) []]) s in
    let s := start_callout w s in
    let '(init, events) := ev_stream E (s_tr s) (grpc_request req) in
    let s := emit (CStartHttpStream (grpc_request req) true (TGrpc g)) s in
    s ← grpc_events runfn g events s;
    if decide (init = HTTPCalloutInitSuccess)
    then return_ HTTPCalloutInitSuccess None s
    else return_ init (errCalloutInitResult init) (reject_callout w s).

(** ** Execution of a handler program *)

Fixpoint run (w : nat) (p : prog) (s : st) {struct p} : res st :=
  match p with
  | PRet => Ok s
  | PAct a k => s ← do_act w a s; run w k s
  | PQuery q k => let '(a, s) := do_query w q s in run w (k a) s
  | PHTTPCallout req fn k =>
      HTTPCallout w req fn (fun d => run w (fn d)) (fun init err => run w (k init err)) s
  | PHTTPCalloutAllSettled reqs fn k =>
      HTTPCalloutAllSettled w reqs fn (fun rs => run w (fn rs)) (run w k) s
  | PHTTPCalloutSequence next done_ k =>
      HTTPCalloutSequence w next done_ (fun rs => run w (done_ rs)) (run w k) s
  | PGRPCCallout req fn k =>
      GRPCCallout w req fn (fun r => run w (fn r)) (fun init err => run w (k init err)) s
  | PGo fn k => s ← Go w fn s; run w k s
  end.

(** ** Callbacks of a stream *)

Inductive HeadersStatus := HeadersStatusContinue | HeadersStatusStop.
Inductive BodyStatus := BodyStatusContinue | BodyStatusStopAndBuffer.
Inductive TrailersStatus := TrailersStatusContinue | TrailersStatusStop.

Definition pausePendingCallout (w : nat) (s : st) : bool * st :=
  if calloutStarted (writer w s) then cas calloutStateActive calloutStatePaused s else (false, s).

Definition flushCompletedCallout (w : nat) (s : st) : st :=
  if calloutStarted (writer w s) then (cas calloutStateDone calloutStateFlushed s).2 else s.

(** up/stream_finalized.go: the registry key and the registration of the stream. *)
Definition streamFinalizedKey (n streamKey : string) : string :=
  n +:+ String (Ascii.ascii_of_nat 0) streamKey.

Definition finalizedFallbackKeyHeader : string := "x-transit-stream-id".

Definition putFinalizedEntry (key : string) (e : streamFinalizedEntry) : st -> st :=
  upd_proc (fun p => set_p_finalized (<[key := e]> (p_finalized p)) p).

Definition registerFinalized (s : st) : st :=
  match onStreamFinalized (cfg (s_f s)) with
  | None => s
  | Some fn =>
      if decide (finalizedKey (s_f s) = "") then
        let streamKey := match ev_request_id E (s_tr s) with Some v => v | None => "" end in
        let '(streamKey, s) :=
          if decide (streamKey = "") then
            let '(nonce, s) := mintStreamObjectNonce s in
            (nonce, emit (CReqHeaderSet finalizedFallbackKeyHeader nonce) s)
          else (streamKey, s) in
        let key := streamFinalizedKey (name (cfg (s_f s))) streamKey in
        putFinalizedEntry key (mkFinEntry fn (s_id s)) (upd_f (set_finalizedKey key) s)
      else s
  end.

(** up/request.go: [newRequestWithContext]. *)
Definition newRequestWithContext (s : st) : Request :=
  mkRequest (ev_request_header E (s_tr s) ":method") (ev_request_header E (s_tr s) ":path")
    (ev_request_header E (s_tr s) ":authority") (name (cfg (s_f s))).

(** A call of the request body handler. *)
Definition call_requestBodyHandler (w : nat) (data : bytes) (eos : bool) (s : st) : res st :=
  match requestBodyHandler (cfg (s_f s)) with
  | None => Ok s
  | Some h =>
      let chunk := mkBodyChunk data eos (requestContentEncoding (s_f s)) (requestContentType (s_f s)) in
      run w (h chunk) (emit (UserRequestBody chunk) s)
  end.

Definition OnRequestHeaders (endOfStream : bool) (s : st) : res (HeadersStatus * st) :=
  let s := if decide (reqID (s_f s) = "")
           then upd_f (set_reqID (ev_request_header E (s_tr s) "x-request-id")) s else s in
  let s := match requestBodyHandler (cfg (s_f s)) with
           | Some _ =>
               upd_f (fun f => set_requestContentType (ev_request_header E (s_tr s) "content-type")
                        (set_requestContentEncoding (ev_request_header E (s_tr s) "content-encoding") f)) s
           | None => s
           end in
  let '(w, s) := newWriter (mkWriter false false false) s in
  s ← run w (handler (cfg (s_f s)) (newRequestWithContext s)) s;
  let s := registerFinalized s in
  let stopForBufferedBody :=
    negb endOfStream && bufferBody (cfg (s_f s)) &&
    bool_decide (is_Some (requestBodyHandler (cfg (s_f s)))) in
  let s := if stopForBufferedBody && mutableRequestBody (cfg (s_f s))
           then upd_f (set_stripFramingOnResume true) s else s in
  let '(paused, s) := pausePendingCallout w s in
  if paused then Ok (HeadersStatusStop, s)
  else if goStarted (s_f s) then Ok (HeadersStatusStop, s)
  else if endOfStream then
    s ← call_requestBodyHandler w [] true s;
    let '(paused, s) := pausePendingCallout w s in
    if paused then Ok (HeadersStatusStop, s)
    else if goStarted (s_f s) then Ok (HeadersStatusStop, s)
    else
      let s := flush false (flushCompletedCallout w s) in
      Ok (if stopped (s_f s) then HeadersStatusStop else HeadersStatusContinue, s)
  else
    let s := flush false (flushCompletedCallout w s) in
    if stopped (s_f s) then Ok (HeadersStatusStop, s)
    else Ok (if stopForBufferedBody then HeadersStatusStop else HeadersStatusContinue, s).

(** [body] is the frame Envoy passes ([None] for a nil buffer). *)
Definition OnRequestBody (body : option (list bytes)) (endOfStream : bool) (s : st) :
    res (BodyStatus * st) :=
  match requestBodyHandler (cfg (s_f s)) with
  | None =>
      if bool_decide (calloutState (s_f s) = calloutStatePaused) || stopped (s_f s)
      then Ok (BodyStatusStopAndBuffer, s) else Ok (BodyStatusContinue, s)
  | Some _ =>
      if bufferBody (cfg (s_f s)) && negb endOfStream then Ok (BodyStatusStopAndBuffer, s)
      else
        let src :=
          if bufferBody (cfg (s_f s)) then
            match ev_body E (s_tr s) BufferedRequest with
            | Some chunks => if 0 <? body_size chunks then Some chunks else body
            | None => body
            end
          else body in
        match src with
        | None => Panic "nil body buffer"
        | Some chunks =>
            let data := concat chunks in
            let cur := match body with Some c => c | None => [] end in
            let '(w, s) := newWriter (mkWriter false false false) s in
            s ← call_requestBodyHandler w data endOfStream s;
            let '(paused, s) := pausePendingCallout w s in
            if paused then Ok (BodyStatusStopAndBuffer, s)
            else if goStarted (s_f s) then Ok (BodyStatusStopAndBuffer, s)
            else
              let s := flushCompletedCallout w s in
              if bufferBody (cfg (s_f s)) && mutableRequestBody (cfg (s_f s)) &&
                 hasRequestBodyReplacement (s_f s)
              then
                let replacement := requestBodyReplacement (s_f s) in
                let s := upd_f (fun f => set_requestBodyReplacement []
                                           (set_hasRequestBodyReplacement false f)) s in
                let s := flush false s in
                if stopped (s_f s) then Ok (BodyStatusStopAndBuffer, s)
                else
                  match requestBodyReplacementBuffer ((fun _ => CurrentBody) <$> body) s with
                  | None => Panic "nil body buffer"
                  | Some buf =>
                      let s := emits [CDrain buf (buffer_size buf cur s); CAppend buf replacement;
                                      CReqHeaderSet "content-length" (Itoa_len replacement)] s in
                      Ok (BodyStatusContinue, s)
                  end
              else
                let s := flush false s in
                if stopped (s_f s) then Ok (BodyStatusStopAndBuffer, s)
                else
                  let s := if bufferBody (cfg (s_f s)) && mutableRequestBody (cfg (s_f s))
                           then emit (CReqHeaderSet "content-length" (Itoa_len data)) s else s in
                  Ok (BodyStatusContinue, s)
        end
  end.

Definition OnRequestTrailers (s : st) : TrailersStatus :=
  if bool_decide (calloutState (s_f s) = calloutStatePaused) || stopped (s_f s)
  then TrailersStatusStop else TrailersStatusContinue.

Definition OnHttpCalloutDone (d : CalloutDelivery) (s : st) : res st :=
  calloutDone ((fun x => run x.1 (x.2 d)) <$> calloutFn (s_f s)) s.

(** The callbacks of the other callouts, when Envoy delivers later. *)
Definition OnBatchCalloutDone (b i : nat) (d : CalloutDelivery) (s : st) : res st :=
  match s_batches s !! b with
  | None => Ok s
  | Some x => batch_finish (fun rs => run (b_w x) (b_fn x rs)) b i (settled_done d) s
  end.

Definition OnSequenceCalloutDone (q : nat) (d : CalloutDelivery) (s : st) : res st :=
  match s_seqs s !! q with
  | None => Ok s
  | Some x => seq_step (ev_stack E) (fun rs => run (sq_w x) (sq_done x rs)) q
                (Some (settled_done d)) (seq_push q (settled_done d) s)
  end.

Definition OnGrpcStreamEvent (g : nat) (e : stream_event) (s : st) : res st :=
  match s_grpcs s !! g with
  | None => Ok s
  | Some c => grpc_event (fun r => run (gc_w c) (gc_fn c r)) g e s
  end.

(** A call of the response handler. *)
Definition call_responseHandler (w : nat) (chunk : ResponseChunk) (s : st) : res st :=
  match responseHandler (cfg (s_f s)) with
  | None => Ok s
  | Some h => run w (h chunk) (emit (UserResponse chunk) s)
  end.

Definition response_end_chunk (s : st) : ResponseChunk :=
  mkResponseChunk 0 false [] true (responseContentEncoding (s_f s)) (responseContentType (s_f s)).

Definition OnStreamComplete (s : st) : res st :=
  s ← (if bool_decide (is_Some (responseHandler (cfg (s_f s)))) && negb (responseEndSeen (s_f s)) then
         let '(w, s) := newWriter (mkWriter false false true) s in
         s ← call_responseHandler w (response_end_chunk s) s;
         Ok (upd_f (set_responseEndSeen true) s)
       else Ok s);
  let s := match onStreamComplete (cfg (s_f s)) with
           | Some fn => upd_f (fun f => set_context (fn (context f)) f)
                          (emit (UserStreamComplete (context (s_f s))) s)
           | None => s
           end in
  let s := match onStreamFinalized (cfg (s_f s)) with
           | None => dropBag (streamObjectNonce (s_f s)) s
           | Some _ => s
           end in
  let s := upd_f (set_streamDone true) s in
  Ok (if goStarted (s_f s)
      then upd_f (fun f => set_goCancelled true (set_goCompleted true f)) s else s).

Definition OnResponseHeaders (endOfStream : bool) (s : st) : res (HeadersStatus * st) :=
  match responseHandler (cfg (s_f s)) with
  | None => Ok (HeadersStatusContinue, s)
  | Some _ =>
      let s := upd_f (fun f => set_responseContentType (ev_response_header E (s_tr s) "content-type")
                 (set_responseContentEncoding (ev_response_header E (s_tr s) "content-encoding") f)) s in
      let s := if bufferBody (cfg (s_f s)) then emit (CRespHeaderRemove "content-length") s else s in
      let status := ev_response_header E (s_tr s) ":status" in
      let statusCode := if decide (status = "") then 0%Z else Atoi_value status in
      let '(w, s) := newWriter (mkWriter false false true) s in
      s ← call_responseHandler w
            (mkResponseChunk statusCode true [] endOfStream
               (responseContentEncoding (s_f s)) (responseContentType (s_f s))) s;
      if endOfStream then
        let s := upd_f (set_responseEndSeen true) s in
        s ← call_responseHandler w (response_end_chunk s) s;
        Ok (HeadersStatusContinue, s)
      else Ok (HeadersStatusContinue, s)
  end.

Definition OnResponseBody (body : option (list bytes)) (endOfStream : bool) (s : st) :
    res (BodyStatus * st) :=
  match responseHandler (cfg (s_f s)) with
  | None => Ok (BodyStatusContinue, s)
  | Some _ =>
      if bufferBody (cfg (s_f s)) && negb endOfStream then Ok (BodyStatusStopAndBuffer, s)
      else
        match (if bufferBody (cfg (s_f s)) then ev_body E (s_tr s) BufferedResponse else body) with
        | None => Panic "nil body buffer"
        | Some chunks =>
            let '(w, s) := newWriter (mkWriter false false true) s in
            s ← call_responseHandler w
                  (mkResponseChunk 0 false (concat chunks) endOfStream
                     (responseContentEncoding (s_f s)) (responseContentType (s_f s))) s;
            let s := if endOfStream then upd_f (set_responseEndSeen true) s else s in
            if bufferBody (cfg (s_f s)) && hasResponseBodyReplacement (s_f s) then
              let data := responseBodyReplacement (s_f s) in
              let s := emits [CDrain BufferedResponse (buffer_size BufferedResponse [] s);
                              CAppend BufferedResponse data;
                              CRespHeaderSet "content-length" (Itoa_len data)] s in
              Ok (BodyStatusContinue,
                  upd_f (fun f => set_responseBodyReplacement []
                                    (set_hasResponseBodyReplacement false f)) s)
            else Ok (BodyStatusContinue, s)
        end
  end.

End filter.
