(* ===== verification/FilterFacts.v ===== *)
(** * Facts about handler programs and the callout machinery

    [frame]: the parts of a stream no handler can change.  [quiet]: what a handler run by a
    filter-created writer may do before the flush, which is to queue; the calls that change
    the request are made by [flush] alone. *)
From stdpp Require Import base list gmap strings.
From Stdlib Require Import ZArith Lia.
From S2P Require Import Prelude Async StreamObject Envoy Grpc FilterState Filter.

(** ** What changes the request *)

(** Calls that change the request or answer it; the others read, log, start asynchronous
    work, touch the response, or record user callbacks. *)
Definition mutating (c : call) : bool :=
  match c with
  | CSendLocalResponse _ _ _ _ | CReqHeaderSet _ _ | CReqHeaderAdd _ _ | CReqHeaderRemove _
  | CSetFilterState _ _ | CIncrementCounterValue _ _ _ | CSetGaugeValue _ _
  | CIncrementGaugeValue _ _ | CDecrementGaugeValue _ _ | CRecordHistogramValue _ _ _
  | CSetMetadata _ _ _ | CSetUpstreamOverrideHost _ _ | CDrain _ _ | CAppend _ _
  | CContinueRequest => true
  | _ => false
  end.

(** The mutating calls of a trace, in order. *)
Definition mutations (tr : list call) : list call := base.filter (fun c => mutating c = true) tr.

(** ** The frame of a callback *)

(** What neither handlers nor [flush] change. *)
Definition frame (s : st) : nat * filterConfig * bool * bool :=
  (s_id s, cfg (s_f s), streamDone (s_f s), responseEndSeen (s_f s)).

(** Peel one bind of a successful computation. *)
Ltac inv_bind :=
  match goal with
  | H : mbind _ ?m = Ok _ |- _ =>
      let E := fresh "E" in destruct m eqn:E; simpl in H; [|discriminate H]
  | H : (match ?m with Ok _ => _ | Panic _ => _ end) = Ok _ |- _ =>
      let E := fresh "E" in destruct m eqn:E; simpl in H; [|discriminate H]
  end.

(** A predicate every step of a handler run by writer [w] preserves.  [run_stable] lifts it
    to whole programs, with the callouts they start and the callbacks these deliver. *)
Record stable (E : Envoy) (w : nat) (P : st -> Prop) : Prop := mkStable {
  stable_act : forall a s s', P s -> do_act E w a s = Ok s' -> P s';
  stable_query : forall A (q : query A) s, P s -> P (do_query E w q s).2;
  stable_emit : forall c s, mutating c = false -> P s -> P (emit c s);
  stable_fn : forall v s, P s -> P (upd_f (set_calloutFn v) s);
  stable_start : forall s, P s -> P (start_callout w s);
  stable_reject : forall s, P s -> P (reject_callout w s);
  stable_handoff : forall s, P s -> P (handoff E s);
  stable_batches : forall v s, P s -> P (set_s_batches v s);
  stable_seqs : forall v s, P s -> P (set_s_seqs v s);
  stable_grpcs : forall v s, P s -> P (set_s_grpcs v s);
  stable_go : forall fn s s', P s -> Go w fn s = Ok s' -> P s';
}.

(** Writer [w] is one the request callbacks allocate (it queues), no flush is owed to a
    paused stream, and the mutating calls made so far are [T]. *)
Definition quiet (w : nat) (T : list call) (s : st) : Prop :=
  w < length (s_ws s) /\ directWrite (writer w s) = false /\
  calloutState (s_f s) <> calloutStatePaused /\ mutations (s_tr s) = T.

(** What only callouts and goroutines change. *)
Definition ctl (s : st) :=
  (s_ws s, calloutFn (s_f s), calloutState (s_f s), goStarted (s_f s),
   s_batches s, s_seqs s, s_grpcs s, s_gos s).

(** The answer [lr] is recorded and the request is stopped. *)
Definition replied (lr : localResponse) (s : st) : Prop :=
  localReply (s_f s) = Some lr /\ stopped (s_f s) = true.

(** [F] preserves [P] when it does not panic. *)
Definition preserves (P : st -> Prop) (F : st -> res st) : Prop :=
  forall s s', P s -> F s = Ok s' -> P s'.

Lemma mutations_app tr k : mutations (tr ++ k) = mutations tr ++ mutations k.
Proof. apply filter_app. Qed.

Lemma mutations_quiet tr c : mutating c = false -> mutations (tr ++ [c]) = mutations tr.
Proof.
  intros H. rewrite mutations_app. unfold mutations at 2.
  rewrite filter_cons_False by (rewrite H; done). by rewrite filter_nil, app_nil_r.
Qed.

(** Expose the body of the callout method a program calls. *)
Ltac unfold_callouts :=
  unfold HTTPCallout, HTTPCalloutAllSettled, HTTPCalloutSequence, GRPCCallout.

(** Discharge [P] of a state reached by stable updates. *)
Ltac stab HP :=
  repeat first
    [ assumption
    | apply (stable_emit _ _ _ HP); [reflexivity|]
    | apply (stable_fn _ _ _ HP) | apply (stable_start _ _ _ HP) | apply (stable_reject _ _ _ HP)
    | apply (stable_handoff _ _ _ HP) | apply (stable_batches _ _ _ HP)
    | apply (stable_seqs _ _ _ HP) | apply (stable_grpcs _ _ _ HP) ].

Section stable.
Context (E : Envoy) (w : nat) (P : st -> Prop) (HP : stable E w P).

Lemma calloutDone_stable (F : st -> res st) : preserves P F -> preserves P (calloutDone E (Some F)).
Proof using HP.
  intros HF s s' Hs. unfold calloutDone. case_match; [by intros [= <-]|]. intros Hok.
  inv_bind. injection Hok as <-. apply HP. eapply HF; [|done]. by stab HP.
Qed.

Lemma batch_finish_stable F b i r :
  (forall rs, preserves P (F rs)) -> preserves P (batch_finish E F b i r).
Proof using HP.
  intros HF s s' Hs. unfold batch_finish. destruct (s_batches s !! b) as [x|]; [|by intros [= <-]].
  case_match; [by intros [= <-]|]. case_match; [intros [= <-]; by stab HP|].
  case_match; [intros [= <-]; by stab HP|]. intros Hok. inv_bind.
  eapply HF in E0; [|by stab HP]. case_match; injection Hok as <-; [done|by stab HP].
Qed.

Lemma settle_all_stable F b l :
  (forall rs, preserves P (F rs)) -> preserves P (settle_all E F b l).
Proof using HP.
  intros HF. induction l as [|[i req] l IH]; intros s s' Hs; simpl; [by intros [= <-]|].
  intros Hok. inv_bind. eapply IH; [|done]. clear Hok.
  unfold settle_one in E0. destruct (ev_callout E (s_tr s) req) as [init [d|]]; simpl in E0.
  - inv_bind. apply (batch_finish_stable F b i _ HF) in E1; [|by stab HP].
    case_decide; [by injection E0 as <-|]. by eapply (batch_finish_stable F).
  - case_decide; [injection E0 as <-; by stab HP|].
    eapply (batch_finish_stable F); [done| |done]. by stab HP.
Qed.

Lemma seq_finish_stable F q : (forall rs, preserves P (F rs)) -> preserves P (seq_finish E F q).
Proof using HP.
  intros HF s s' Hs. unfold seq_finish. destruct (s_seqs s !! q) as [x|]; [|by intros [= <-]].
  case_match; [by intros [= <-]|]. intros Hok. inv_bind. eapply HF in E0; [|by stab HP].
  case_match; injection Hok as <-; [done|by stab HP].
Qed.

Lemma seq_step_stable n F q p :
  (forall rs, preserves P (F rs)) -> preserves P (seq_step E n F q p).
Proof using HP.
  intros HF. revert p. induction n as [|n IH]; intros p s s' Hs; simpl; [done|].
  destruct (s_seqs s !! q) as [x|]; [|by intros [= <-]].
  case_match; [by intros [= <-]|]. case_match; [|by apply seq_finish_stable].
  destruct (ev_callout E (s_tr s) _) as [init sync]. destruct sync; simpl; intros Hok.
  - inv_bind. apply IH in E0; [|by stab HP]. case_decide; [by injection Hok as <-|].
    apply IH in Hok; [done|by stab HP].
  - case_decide; [injection Hok as <-; by stab HP|]. apply IH in Hok; [done|by stab HP].
Qed.

Lemma grpc_event_stable F g e : (forall r, preserves P (F r)) -> preserves P (grpc_event E F g e).
Proof using HP.
  intros HF s s' Hs. destruct e; simpl; try (intros [= <-]; by stab HP);
    unfold grpc_finish; (destruct (s_grpcs s !! g); [|by intros [= <-]]);
    (case_match; [by intros [= <-]|]); (case_match; [intros [= <-]; by stab HP|]);
    intros Hok; inv_bind; injection Hok as <-; apply HP; (eapply HF; [|done]); by stab HP.
Qed.

Lemma grpc_events_stable F g l :
  (forall r, preserves P (F r)) -> preserves P (grpc_events E F g l).
Proof using HP.
  intros HF. induction l as [|e l IH]; intros s s' Hs; simpl; [by intros [= <-]|].
  intros Hok. inv_bind. eapply IH; [|done]. by eapply grpc_event_stable.
Qed.

(** A stable predicate is preserved by every handler program. *)
Lemma run_stable p : preserves P (run E w p).
Proof using HP.
  induction p as [|a k IH|A q k IH|req fn IHf k IH|reqs fn IHf k IH|next dn IHf k IH
                  |req fn IHf k IH|fn k IH]; intros s s' Hs; simpl; unfold_callouts.
  - by intros [= <-].
  - intros Hok. inv_bind. eapply IH; [|done]. by eapply (stable_act _ _ _ HP).
  - pose proof (stable_query _ _ _ HP A q s Hs) as Hq. destruct (do_query E w q s) as [a s1].
    intros Hok. by eapply IH.
  - case_match; [done|]. destruct (ev_callout E _ req) as [init sync]. intros Hok.
    inv_bind.
    assert (P a) as Ha.
    { destruct sync; [|injection E0 as <-; by stab HP].
      apply (calloutDone_stable _ (IHf _)) in E0; [done|by stab HP]. }
    case_decide; (eapply IH; [|done]); [done|by stab HP].
  - case_match; [done|]. case_decide; intros Hok; inv_bind; (eapply IH; [|done]).
    + by eapply IHf.
    + eapply (settle_all_stable _ _ _ (fun rs => IHf rs)); [|done]. by stab HP.
  - case_match; [done|]. intros Hok. inv_bind. eapply IH; [|done].
    eapply (seq_step_stable _ _ _ _ (fun rs => IHf rs)); [|done]. by stab HP.
  - case_match; [done|]. destruct (ev_stream E _ _) as [init evs]. intros Hok. inv_bind.
    apply (grpc_events_stable _ _ _ (fun r => IHf r)) in E0; [|by stab HP].
    case_decide; (eapply IH; [|done]); [done|by stab HP].
  - intros Hok. inv_bind. eapply IH; [|done]. by eapply (stable_go _ _ _ HP).
Qed.
End stable.

Section facts.
Context (E : Envoy).

Lemma flush_frame c s : frame (flush E c s) = frame s.
Proof. unfold flush, frame. repeat (case_match; simpl in *; try done). Qed.

Lemma cas_frame o n s : frame (cas o n s).2 = frame s.
Proof. unfold cas. by case_decide. Qed.

Lemma handoff_frame s : frame (handoff E s) = frame s.
Proof.
  unfold handoff, cas. repeat case_decide; simpl; try done. by rewrite flush_frame.
Qed.

Lemma mint_bag_frame n s b k s' : mint_bag E n s = Some (b, k, s') -> frame s' = frame s.
Proof.
  revert s. induction n as [|n IH]; intros s; simpl; [done|].
  destruct (InsertStreamObjectBag _ _) as [[b' l] g]. destruct l.
  - intros H%IH. by rewrite H.
  - intros [= <- <- <-]. done.
Qed.

Lemma SetFilterState_frame w k v s : frame (SetFilterState w k v s) = frame s.
Proof. unfold SetFilterState. by case_match. Qed.

Lemma getOrCreateBag_frame w s b s' : getOrCreateBag E w s = Ok (b, s') -> frame s' = frame s.
Proof.
  unfold getOrCreateBag. case_match; [by intros [= <- <-]|].
  destruct (mint_bag _ _ _) as [[[b' k] s1]|] eqn:Em; [|done].
  intros [= <- <-]. rewrite SetFilterState_frame. by rewrite <-(mint_bag_frame _ _ _ _ _ Em).
Qed.

Lemma do_act_frame w a s s' : do_act E w a s = Ok s' -> frame s' = frame s.
Proof.
  destruct a; simpl; try (intros [= <-]; done);
    try (intros [= <-]; unfold SendLocalResponse, SetRequestHeader, AddRequestHeader,
      RemoveRequestHeader, SetFilterState, SetRequestBody, IncrementCounterLabels, IncrementGauge,
      DecrementGauge, SetGauge, RecordHistogramLabels; repeat case_match; done).
  - unfold SetStreamObject. destruct (getOrCreateBag E w s) as [[b s1]|] eqn:Eb; [|done].
    simpl. intros [= <-]. by rewrite <-(getOrCreateBag_frame _ _ _ _ Eb).
  - unfold SetMetadata. case_match; [|done]. intros [= <-]. by case_match.
Qed.

Lemma do_query_frame {A} w (q : query A) s : frame (do_query E w q s).2 = frame s.
Proof.
  destruct q; simpl; try done.
  - unfold GetStreamObject. repeat (case_match; simplify_eq/=; try done).
  - unfold SetUpstreamOverrideHost. by case_match.
Qed.

Lemma Go_frame w fn s s' : Go w fn s = Ok s' -> frame s' = frame s.
Proof. unfold Go. repeat (case_match; [done|]). by intros [= <-]. Qed.

(** A handler never changes the frame, whatever it calls. *)
Lemma run_frame w p s s' : run E w p s = Ok s' -> frame s' = frame s.
Proof.
  apply (run_stable E w (fun x => frame x = frame s)); [|done].
  split; intros; try done.
  - erewrite do_act_frame; done.
  - by rewrite do_query_frame.
  - by rewrite handoff_frame.
  - erewrite Go_frame; done.
Qed.

(** ** Handlers only queue *)

Lemma quiet_queued w T s : quiet w T s -> queued w s = true.
Proof. intros (_ & Hd & _). unfold queued. by rewrite Hd. Qed.

Lemma mint_bag_ctl n s b k s' :
  mint_bag E n s = Some (b, k, s') -> ctl s' = ctl s /\ s_tr s' = s_tr s.
Proof.
  revert s. induction n as [|n IH]; intros s; simpl; [done|].
  destruct (InsertStreamObjectBag _ _) as [[b' l] g]. destruct l.
  - intros [H1 H2]%IH. split; [exact H1|exact H2].
  - intros [= <- <- <-]. done.
Qed.

Lemma mint_bag_filter n s b k s' : mint_bag E n s = Some (b, k, s') -> s_f s' = s_f s.
Proof.
  revert s. induction n as [|n IH]; intros s; simpl; [done|].
  destruct (InsertStreamObjectBag _ _) as [[b' l] g]. destruct l; [by intros ->%IH|].
  by intros [= <- <- <-].
Qed.

Lemma queued_ctl w s s' : ctl s' = ctl s -> queued w s' = queued w s.
Proof. unfold ctl, queued, writer. intros [= -> _ _ -> _ _ _ _]. done. Qed.

(** A queued operation makes no mutating call, and no operation touches the callouts. *)
Lemma getOrCreateBag_ctl w s b s' :
  getOrCreateBag E w s = Ok (b, s') ->
  ctl s' = ctl s /\ (queued w s = true -> mutations (s_tr s') = mutations (s_tr s)).
Proof.
  unfold getOrCreateBag. case_match; [by intros [= <- <-]|].
  destruct (mint_bag _ _ _) as [[[b' k] s1]|] eqn:Em; [|done]. intros [= <- <-].
  apply mint_bag_ctl in Em as [Hc Ht]. unfold SetFilterState. split.
  - by destruct (queued w _).
  - intros Hq. rewrite (queued_ctl w s), Hq by exact Hc. simpl. by rewrite Ht.
Qed.

Lemma do_act_ctl w a s s' :
  do_act E w a s = Ok s' ->
  ctl s' = ctl s /\ (queued w s = true -> mutations (s_tr s') = mutations (s_tr s)).
Proof.
  destruct a; simpl; try (intros [= <-]);
    unfold SendLocalResponse, SetRequestHeader, AddRequestHeader, RemoveRequestHeader,
      SetFilterState, SetRequestBody, SetResponseBody, IncrementCounterLabels, IncrementGauge,
      DecrementGauge, SetGauge, RecordHistogramLabels, SetMetadata;
    try (destruct (queued w s); repeat case_match; done);
    try (split; [done|intros _; by apply mutations_quiet]).
  - unfold SetStreamObject. destruct (getOrCreateBag E w s) as [[b s1]|] eqn:Eb; [|done].
    simpl. intros [= <-]. by apply getOrCreateBag_ctl in Eb.
  - case_match; [|done]. intros [= <-]. by destruct (queued w s).
Qed.

Lemma do_query_ctl {A} w (q : query A) s :
  ctl (do_query E w q s).2 = ctl s /\
  (queued w s = true -> mutations (s_tr (do_query E w q s).2) = mutations (s_tr s)).
Proof.
  destruct q; simpl; try done.
  - unfold GetStreamObject. repeat case_match; simplify_eq/=; done.
  - unfold SetUpstreamOverrideHost. by destruct (queued w s).
Qed.

Lemma quiet_ctl w T s s' :
  ctl s' = ctl s -> mutations (s_tr s') = mutations (s_tr s) -> quiet w T s -> quiet w T s'.
Proof. unfold ctl, quiet, writer. intros [= -> _ -> _ _ _ _ _] ->. done. Qed.

Lemma quiet_do_act w T a s s' : quiet w T s -> do_act E w a s = Ok s' -> quiet w T s'.
Proof.
  intros Hs [Hc Hm]%do_act_ctl. eapply quiet_ctl; [done| |done].
  by eapply Hm, quiet_queued.
Qed.

Lemma quiet_do_query {A} w T (q : query A) s : quiet w T s -> quiet w T (do_query E w q s).2.
Proof.
  intros Hs. destruct (do_query_ctl w q s) as [Hc Hm]. eapply quiet_ctl; [done| |done].
  by eapply Hm, quiet_queued.
Qed.

Lemma quiet_upd_f w T u s :
  calloutState (u (s_f s)) <> calloutStatePaused -> quiet w T s -> quiet w T (upd_f u s).
Proof. intros H (? & ? & ? & ?). done. Qed.

Lemma quiet_emit w T c s : mutating c = false -> quiet w T s -> quiet w T (emit c s).
Proof. intros Hc (? & ? & ? & Ht). repeat split; try done. simpl. by rewrite mutations_quiet. Qed.

Lemma quiet_upd_w w T u s :
  (forall x, directWrite (u x) = directWrite x) -> quiet w T s -> quiet w T (upd_w w u s).
Proof.
  intros Hu (Hw & Hd & ? & ?). repeat split; try done; simpl.
  - by rewrite length_alter.
  - unfold writer in *. simpl. rewrite list_lookup_alter_eq.
    destruct (s_ws s !! w); simpl in *; [by rewrite Hu|done].
Qed.

Lemma handoff_not_paused s :
  calloutState (s_f s) <> calloutStatePaused ->
  handoff E s = (cas calloutStateActive calloutStateDone s).2.
Proof. intros Hp. unfold handoff, cas at 1. by rewrite decide_False. Qed.

Lemma quiet_handoff w T s : quiet w T s -> quiet w T (handoff E s).
Proof.
  intros Hs. rewrite handoff_not_paused by apply Hs. unfold cas. case_decide; [|done].
  by apply quiet_upd_f.
Qed.

Lemma quiet_Go w T fn s s' : quiet w T s -> Go w fn s = Ok s' -> quiet w T s'.
Proof.
  intros Hs. unfold Go. repeat (case_match; [done|]). intros [= <-].
  apply (quiet_upd_w w T); [done|]. apply quiet_upd_f; [apply Hs|]. by apply quiet_emit.
Qed.

Lemma quiet_stable w T : stable E w (quiet w T).
Proof.
  split; intros; try done.
  - by eapply quiet_do_act.
  - by apply quiet_do_query.
  - by apply quiet_emit.
  - apply quiet_upd_f, (quiet_upd_w w T); done.
  - apply quiet_upd_f, (quiet_upd_w w T); done.
  - by apply quiet_handoff.
  - by eapply quiet_Go.
Qed.

(** Handlers, and the callbacks of the callouts they start, only queue. *)
Lemma run_quiet w T p s s' : quiet w T s -> run E w p s = Ok s' -> quiet w T s'.
Proof. apply run_stable, quiet_stable. Qed.

(** Once a writer has started a callout, a program it runs is made of operations and
    queries: starting anything else panics. *)
Lemma run_started w p s s' :
  calloutStarted (writer w s) = true -> run E w p s = Ok s' ->
  ctl s' = ctl s /\ mutations (s_tr s') = mutations (s_tr s).
Proof.
  revert s s'. induction p as [|a k IH|A q k IH|req fn IHf k IH|reqs fn IHf k IH|next dn IHf k IH
                  |req fn IHf k IH|fn k IH]; intros s s' Hs; simpl; unfold_callouts; try (by rewrite Hs).
  - by intros [= <-].
  - intros Hok. inv_bind. rename a0 into s1. apply do_act_ctl in E0 as [Hc Hm].
    assert (queued w s = true) as Hq by (unfold queued; rewrite Hs; apply orb_true_r).
    assert (writer w s1 = writer w s) as Hw by (unfold writer; by injection Hc as ->).
    rewrite <-Hc, <-Hm by done. apply IH; [by rewrite Hw|done].
  - destruct (do_query_ctl w q s) as [Hc Hm]. destruct (do_query E w q s) as [a s1]; simpl in *.
    assert (queued w s = true) as Hq by (unfold queued; rewrite Hs; apply orb_true_r).
    assert (writer w s1 = writer w s) as Hw by (unfold writer; by injection Hc as ->).
    rewrite <-Hc, <-Hm by done. apply IH. by rewrite Hw.
  - unfold Go. case_match; simpl; [done|]. by rewrite Hs.
Qed.

(** The same for any predicate that queued operations and queries preserve. *)
Lemma run_started_preserves (P : st -> Prop) w p s s' :
  (forall a s s', queued w s = true -> P s -> do_act E w a s = Ok s' -> P s') ->
  (forall A (q : query A) s, queued w s = true -> P s -> P (do_query E w q s).2) ->
  calloutStarted (writer w s) = true -> P s -> run E w p s = Ok s' -> P s'.
Proof.
  intros HA HQ. revert s s'. induction p as [|a k IH|A q k IH|req fn IHf k IH|reqs fn IHf k IH
    |next dn IHf k IH|req fn IHf k IH|fn k IH]; intros s s' Hs HP; simpl; unfold_callouts; try (by rewrite Hs);
    assert (queued w s = true) as Hq by (unfold queued; rewrite Hs; apply orb_true_r).
  - by intros [= <-].
  - intros Hok. inv_bind. rename a0 into s1. eapply IH; [|by eapply HA|done].
    apply do_act_ctl in E0 as [Hc _]. unfold writer in *. by injection Hc as ->.
  - pose proof (HQ _ q s Hq HP) as HP'. destruct (do_query_ctl w q s) as [Hc _].
    destruct (do_query E w q s) as [a s1]; simpl in *. apply IH; [|done].
    unfold writer in *. by injection Hc as ->.
  - unfold Go. case_match; simpl; [done|]. by rewrite Hs.
Qed.
End facts.
