(* ===== verification/FlushProps.v ===== *)
(** * up/writer.go, up/filter.go: the mutation queues and [flush]

    A handler run by a request callback does not touch Envoy: its operations queue, reads
    see the queue, and [flush] applies it.  The theorems compare the deferred execution with
    the direct one and describe what [flush] leaves behind. *)
From stdpp Require Import base list gmap strings.
From Stdlib Require Import ZArith Lia.
From S2P Require Import Prelude Async StreamObject Envoy Grpc FilterState Filter FilterFacts.

(** ** Vocabulary of the statements *)

(** The calls of a body replacement when [flush] is reached by a resumed callout. *)
Definition replacement_calls (E : Envoy) (s : st) : list call :=
  match requestBodyReplacementBuffer E None s with
  | Some buf => [CDrain buf (buffer_size E buf [] s); CAppend buf (requestBodyReplacement (s_f s));
                 CReqHeaderSet "content-length" (Itoa_len (requestBodyReplacement (s_f s)))]
  | None => []
  end.

(** The operations a queue exists for, one value per queue. *)
Inductive kind := KHeader | KFilterState | KCounter | KGauge | KHistogram | KMetadata.

#[export] Instance kind_eq_dec : EqDecision kind.
Proof. solve_decision. Defined.

Definition kind_of (c : call) : option kind :=
  match c with
  | CReqHeaderSet _ _ | CReqHeaderAdd _ _ | CReqHeaderRemove _ => Some KHeader
  | CSetFilterState _ _ => Some KFilterState
  | CIncrementCounterValue _ _ _ => Some KCounter
  | CSetGaugeValue _ _ | CIncrementGaugeValue _ _ | CDecrementGaugeValue _ _ => Some KGauge
  | CRecordHistogramValue _ _ _ => Some KHistogram
  | CSetMetadata _ _ _ => Some KMetadata
  | _ => None
  end.

(** The calls of one kind, in order. *)
Definition of_kind (k : kind) (tr : list call) : list call :=
  base.filter (fun c => kind_of c = Some k) tr.

(** The program that performs a list of operations. *)
Definition acts (l : list act) : prog := foldr PAct PRet l.

(** Operations with a queue of their own or with an immediate effect: all but the local
    reply, the body replacements and the stream objects. *)
Definition plain (a : act) : bool :=
  match a with
  | ASendLocalResponse _ _ _ | ASetStreamObject _ _ | ASetRequestBody _ => false
  | _ => true
  end.

(** Nothing is pending. *)
Definition idle (f : filter) : Prop :=
  localReply f = None /\ qs f = queues_empty /\ hasRequestBodyReplacement f = false /\
  stripFramingOnResume f = false.

(** The same state with writer [w] writing through. *)
Definition direct (w : nat) (s : st) : st := upd_w w (fun _ => mkWriter false false true) s.

(** A concrete Envoy whose header map interprets the calls made on it. *)
Definition lower (n : N) : N := if ((65 <=? n) && (n <=? 90))%N then (n + 32)%N else n.
Fixpoint lowers (s : string) : list N :=
  match s with EmptyString => [] | String a s => lower (code a) :: lowers s end.
Definition fold_spec (s t : string) : bool := bool_decide (lowers s = lowers t).

Definition interp (hs : list (string * string)) (c : call) : list (string * string) :=
  match c with
  | CReqHeaderSet n v => base.filter (fun h => fold_spec h.1 n = false) hs ++ [(n, v)]
  | CReqHeaderAdd n v => hs ++ [(n, v)]
  | CReqHeaderRemove n => base.filter (fun h => fold_spec h.1 n = false) hs
  | _ => hs
  end.

Definition simEnvoy (hs : list (string * string)) (calloutResult : Z * option CalloutDelivery) : Envoy :=
  mkEnvoy (fun tr => foldl interp hs tr)
    (fun tr n => match base.filter (fun h => fold_spec h.1 n = true) (foldl interp hs tr) with
                 | h :: _ => h.2 | [] => "" end)
    (fun _ _ => "") (fun _ _ => None) (fun _ => None) (fun _ _ => None) (fun _ _ _ => true)
    (fun _ _ => calloutResult) (fun _ _ => (0%Z, [])) (fun n => "n" +:+ pretty.pretty n) fold_spec 100.

(** The state in which Envoy first calls a stream the factory has created. *)
Definition newStream (c : filterConfig) : st :=
  mkSt 0 (newFilter c) [] [] (mkProcess reg_empty ∅ 0) [] [] [] [].

(** A configuration with only a request handler. *)
Definition onlyRequest (h : Request -> prog) : filterConfig :=
  mkConfig "demo" h None None None None false false.

(** The state a callback ends in (a fresh stream when it panics). *)
Definition out {A} (r : res (A * st)) : st :=
  match r with Ok (_, s) => s | Panic _ => newStream (onlyRequest (fun _ => PRet)) end.

(** The calls a plain operation makes when it writes through. *)
Definition act_calls (a : act) : list call :=
  match a with
  | ASetRequestHeader n v => [CReqHeaderSet n v]
  | AAddRequestHeader n v => [CReqHeaderAdd n v]
  | ARemoveRequestHeader n => [CReqHeaderRemove n]
  | ASetFilterState k v => [CSetFilterState k (String.list_byte_of_string v)]
  | AIncrementCounterLabels id d ls => [CIncrementCounterValue id d ls]
  | AIncrementGauge id d => [CIncrementGaugeValue id d]
  | ADecrementGauge id d => [CDecrementGaugeValue id d]
  | ASetGauge id v => [CSetGaugeValue id v]
  | ARecordHistogramLabels id v ls => [CRecordHistogramValue id v ls]
  | ASetMetadata ns k v => [CSetMetadata ns k v]
  | ASetResponseHeader n v => [CRespHeaderSet n v]
  | AAddResponseHeader n v => [CRespHeaderAdd n v]
  | ARemoveResponseHeader n => [CRespHeaderRemove n]
  | ALog l m => [CLog l m]
  | _ => []
  end.

(** The queue of each kind. *)
Definition queue_of (k : kind) (q : queues) : list call :=
  match k with
  | KHeader => header_call <$> q_reqHeaders q
  | KFilterState => (fun m => CSetFilterState (fs_key m) (fs_value m)) <$> q_filterState q
  | KCounter => (fun m => CIncrementCounterValue (cm_id m) (cm_delta m) (cm_labels m)) <$> q_counters q
  | KGauge => gauge_call <$> q_gauges q
  | KHistogram => (fun m => CRecordHistogramValue (hi_id m) (hi_value m) (hi_labels m)) <$> q_histograms q
  | KMetadata => (fun m => CSetMetadata (md_ns m) (md_key m) (md_value m)) <$> q_dynamicMetadata q
  end.

Section flush.
Context (E : Envoy).

(** ** [flush] *)

Lemma flush_reply c s lr :
  localReply (s_f s) = Some lr ->
  flush E c s = upd_f (set_localReply None)
    (emit (CSendLocalResponse (lr_status lr) (lr_headers lr) (lr_body lr) "") s).
Proof. intros H. unfold flush. by rewrite H. Qed.

Lemma flush_trace c s :
  localReply (s_f s) = None ->
  s_tr (flush E c s) =
    s_tr s ++ queue_calls (qs (s_f s)) (stripFramingOnResume (s_f s)) ++
    (if hasRequestBodyReplacement (s_f s)
     then replacement_calls E (emits (queue_calls (qs (s_f s)) (stripFramingOnResume (s_f s))) s)
     else []) ++ (if c then [CContinueRequest] else []).
Proof.
  intros H. unfold flush, replacement_calls. rewrite H. simpl.
  destruct (hasRequestBodyReplacement (s_f s)).
  - change (requestBodyReplacementBuffer E None (upd_f ?u ?x)) with (requestBodyReplacementBuffer E None x).
    destruct (requestBodyReplacementBuffer E None _) as [b|];
      destruct c; simpl; rewrite <-?app_assoc, ?app_nil_r; done.
  - destruct c; simpl; rewrite <-?app_assoc, ?app_nil_r; done.
Qed.

Lemma flush_filter c s :
  localReply (s_f s) = None ->
  s_f (flush E c s) =
    set_stopped false (set_hasRequestBodyReplacement false
      (set_requestBodyReplacement (if hasRequestBodyReplacement (s_f s) then [] else requestBodyReplacement (s_f s))
        (set_stripFramingOnResume false (set_qs queues_empty (s_f s))))).
Proof.
  intros H. unfold flush. rewrite H. simpl.
  destruct (hasRequestBodyReplacement (s_f s)) eqn:Hr; destruct c; simpl; try case_match;
    simpl; destruct (s_f s); simpl in *; by subst.
Qed.

(** A flush that answered nothing leaves nothing to apply: the next one only resumes. *)
Lemma flush_then_flush c c' s :
  localReply (s_f s) = None ->
  s_tr (flush E c' (flush E c s)) =
    s_tr (flush E c s) ++ (if c' then [CContinueRequest] else []).
Proof.
  intros H. rewrite flush_trace; rewrite !flush_filter by done; done.
Qed.

(** ** Deferred and direct execution *)

Lemma of_kind_app k l1 l2 : of_kind k (l1 ++ l2) = of_kind k l1 ++ of_kind k l2.
Proof. apply filter_app. Qed.

Lemma of_kind_fmap {A} (f : A -> call) k k' (l : list A) :
  (forall a, kind_of (f a) = Some k') ->
  of_kind k (f <$> l) = if decide (k = k') then f <$> l else [].
Proof.
  intros Hf. unfold of_kind. induction l as [|a l IH]; [by case_decide|].
  rewrite fmap_cons, filter_cons, Hf, IH. by repeat case_decide; simplify_eq.
Qed.

(** Flushing applies each queue whole, in order. *)
Lemma pending_spec k q : of_kind k (queue_calls q false) = queue_of k q.
Proof.
  unfold queue_calls. rewrite !of_kind_app.
  rewrite (of_kind_fmap header_call k KHeader), (of_kind_fmap _ k KFilterState),
    (of_kind_fmap _ k KCounter), (of_kind_fmap gauge_call k KGauge),
    (of_kind_fmap _ k KHistogram), (of_kind_fmap _ k KMetadata);
    try done; try (intros []; simpl; unfold header_call, gauge_call; simpl; by repeat case_match).
  destruct k, (q_override q); simpl; by rewrite ?app_nil_r.
Qed.

(** One operation, queued: the queue of its kind grows by its call. *)
Lemma act_deferred w a s s' k :
  plain a = true -> queued w s = true -> do_act E w a s = Ok s' ->
  of_kind k (s_tr s') ++ queue_of k (qs (s_f s')) =
    of_kind k (s_tr s) ++ queue_of k (qs (s_f s)) ++ of_kind k (act_calls a) /\
  queued w s' = true /\ localReply (s_f s') = localReply (s_f s) /\
  hasRequestBodyReplacement (s_f s') = hasRequestBodyReplacement (s_f s) /\
  stripFramingOnResume (s_f s') = stripFramingOnResume (s_f s).
Proof.
  intros Hp Hq Ha. pose proof (do_act_ctl _ _ _ _ _ Ha) as [Hc _].
  split; [|split; [by rewrite (queued_ctl _ _ _ Hc)|]];
    destruct a; try discriminate Hp; simpl in Ha;
    unfold SetRequestHeader, AddRequestHeader, RemoveRequestHeader, SetFilterState,
      SetResponseBody, IncrementCounterLabels, IncrementGauge, DecrementGauge, SetGauge,
      RecordHistogramLabels, SetMetadata in Ha; rewrite ?Hq in Ha;
    try (destruct (metadata_ok _); [|discriminate Ha]); injection Ha as <-; try done;
    destruct k; simpl; rewrite ?fmap_app, ?of_kind_app, ?app_nil_r, <-?app_assoc; done.
Qed.

(** One operation, written through: its call is made. *)
Lemma act_direct w a s s1 s1' :
  plain a = true -> queued w s = false -> do_act E w a s1 = Ok s1' ->
  exists s', do_act E w a s = Ok s' /\ s_tr s' = s_tr s ++ act_calls a /\ queued w s' = false.
Proof.
  intros Hp Hq H1.
  assert (exists s', do_act E w a s = Ok s' /\ s_tr s' = s_tr s ++ act_calls a) as (s' & Ha & Ht).
  { destruct a; try discriminate Hp; simpl in *;
      unfold SetRequestHeader, AddRequestHeader, RemoveRequestHeader, SetFilterState,
        SetResponseBody, IncrementCounterLabels, IncrementGauge, DecrementGauge, SetGauge,
        RecordHistogramLabels, SetMetadata in *; rewrite ?Hq;
      try (destruct (metadata_ok _); [|discriminate H1]); eexists; (split; [done|]);
      simpl; rewrite ?app_nil_r; done. }
  exists s'. repeat split; [done..|]. apply do_act_ctl in Ha as [Hc _].
  by rewrite (queued_ctl _ _ _ Hc).
Qed.

Lemma acts_deferred w l s s' k :
  Forall (fun a => plain a = true) l -> queued w s = true -> run E w (acts l) s = Ok s' ->
  of_kind k (s_tr s') ++ queue_of k (qs (s_f s')) =
    of_kind k (s_tr s) ++ queue_of k (qs (s_f s)) ++ of_kind k (concat (act_calls <$> l)) /\
  localReply (s_f s') = localReply (s_f s) /\
  hasRequestBodyReplacement (s_f s') = hasRequestBodyReplacement (s_f s) /\
  stripFramingOnResume (s_f s') = stripFramingOnResume (s_f s).
Proof.
  intros Hl. revert s. induction Hl as [|a l Ha Hl IH]; intros s Hq; simpl.
  - intros [= <-]. by rewrite app_nil_r.
  - intros Hok. inv_bind. destruct (act_deferred _ _ _ _ k Ha Hq E0) as (H1 & H2 & H3 & H4 & H5).
    destruct (IH _ H2 Hok) as (H6 & -> & -> & ->). rewrite H6, app_assoc, H1, of_kind_app.
    by rewrite <-!app_assoc.
Qed.

Lemma acts_direct w l s s1 s1' :
  Forall (fun a => plain a = true) l -> queued w s = false -> run E w (acts l) s1 = Ok s1' ->
  exists s', run E w (acts l) s = Ok s' /\ s_tr s' = s_tr s ++ concat (act_calls <$> l).
Proof.
  intros Hl. revert s s1. induction Hl as [|a l Ha Hl IH]; intros s s1 Hq; simpl.
  - intros [= <-]. exists s. by rewrite app_nil_r.
  - intros Hok. inv_bind. destruct (act_direct _ _ _ _ _ Ha Hq E0) as (s2 & -> & Ht & Hq2).
    destruct (IH _ _ Hq2 Hok) as (s3 & H3 & Ht3). exists s3. simpl. split; [done|].
    by rewrite Ht3, Ht, <-app_assoc.
Qed.

(** C1: deferring does not change what a handler does to Envoy, kind by kind: when a
    program of header, filter-state, counter, gauge, histogram, metadata, response and log
    operations is run by a queueing writer and flushed, Envoy receives for each kind
    exactly the calls, in the same order, that the same program makes when the writer writes
    through. *)
Theorem deferred_same_calls w l s s1 k :
  Forall (fun a => plain a = true) l ->
  w < length (s_ws s) -> directWrite (writer w s) = false -> goStarted (s_f s) = false ->
  idle (s_f s) -> run E w (acts l) s = Ok s1 ->
  exists s2, run E w (acts l) (direct w s) = Ok s2 /\
    of_kind k (s_tr (flush E false s1)) = of_kind k (s_tr s2).
Proof.
  intros Hl Hw Hd Hg (Hr & Hqs & Hb & Hf) Hrun.
  assert (queued w (direct w s) = false) as Hq.
  { unfold queued, direct, writer. simpl. rewrite list_lookup_alter_eq, Hg.
    apply lookup_lt_is_Some_2 in Hw as [x ->]. done. }
  destruct (acts_direct _ _ _ _ _ Hl Hq Hrun) as (s2 & Hrun2 & Ht2).
  exists s2. split; [done|].
  assert (queued w s = true) as Hq' by (unfold queued; by rewrite Hd).
  destruct (acts_deferred _ _ _ _ k Hl Hq' Hrun) as (H1 & H2 & H3 & H4).
  rewrite flush_trace by congruence. rewrite H3, H4, Hb, Hf. simpl.
  rewrite app_nil_r, of_kind_app, pending_spec, H1, Hqs, Ht2. simpl.
  by destruct k; rewrite of_kind_app.
Qed.

(** After a flush that had no local reply to send, every queue, the pending body
    replacement and the framing strip are gone: a second flush makes no call except the
    [ContinueRequest] it is asked for, so nothing is applied twice. *)
Theorem flush_no_stale_replay c c' s :
  localReply (s_f s) = None ->
  idle (s_f (flush E c s)) /\ stopped (s_f (flush E c s)) = false /\
  s_tr (flush E c' (flush E c s)) = s_tr (flush E c s) ++ (if c' then [CContinueRequest] else []).
Proof.
  intros H. rewrite flush_then_flush by done.
  rewrite (flush_filter c s H). unfold idle. done.
Qed.

(** ** Reading through the queue *)

Section headers.
Context `{!FoldEquiv E, !HeaderMapLaws E}.

Lemma header_values_app n hs hs' :
  header_values E n (hs ++ hs') = header_values E n hs ++ header_values E n hs'.
Proof. unfold header_values. by rewrite filter_app, fmap_app. Qed.

(** Removing the headers named [n] removes exactly the values of the names equal to it. *)
Lemma header_values_remove n m hs :
  header_values E m (removeRequestHeader E hs n) =
  if EqualFold (ev_unicode E) n m then [] else header_values E m hs.
Proof.
  unfold header_values, removeRequestHeader. induction hs as [|[a v] hs IH].
  { by case_match. }
  rewrite !filter_cons. cbn [fst]. destruct (EqualFold (ev_unicode E) a n) eqn:Han.
  - rewrite (decide_False (P := true = false)), IH by done.
    destruct (EqualFold (ev_unicode E) n m) eqn:Hnm; [done|].
    rewrite decide_False; [done|]. intros Ham.
    rewrite (fold_trans n a m) in Hnm; [done| |done]. by rewrite fold_sym.
  - rewrite decide_True, filter_cons by done. cbn [fst].
    destruct (EqualFold (ev_unicode E) a m) eqn:Ham.
    + rewrite !(decide_True (P := true = true)), !fmap_cons, IH by done.
      destruct (EqualFold (ev_unicode E) n m) eqn:Hnm; [|done].
      rewrite (fold_trans a m n) in Han; [done|done|]. by rewrite fold_sym.
    + by rewrite !(decide_False (P := false = true)), IH.
Qed.

Lemma header_values_one n v m :
  header_values E m [(n, v)] = if EqualFold (ev_unicode E) n m then [v] else [].
Proof. unfold header_values. rewrite filter_cons. cbn [fst]. by destruct (EqualFold _ n m). Qed.

(** The overlay and the header map agree after the queued header calls. *)
Lemma overlay_agrees tr hs ms n :
  header_values E n hs = header_values E n (ev_request_headers E tr) ->
  header_values E n (foldl (applyRequestHeaderMutation E) hs ms) =
  header_values E n (ev_request_headers E (tr ++ (header_call <$> ms))).
Proof.
  revert tr hs. induction ms as [|x ms IH]; intros tr hs Hh; simpl; [by rewrite app_nil_r|].
  rewrite (cons_middle (header_call x)), app_assoc. apply IH.
  unfold applyRequestHeaderMutation, header_call.
  destruct (hm_del x); [|destruct (hm_add x)]; simpl.
  - by rewrite hdr_remove, header_values_remove, Hh.
  - by rewrite hdr_add, header_values_app, header_values_one, Hh.
  - rewrite hdr_set, header_values_app, header_values_remove, header_values_one, Hh.
    by destruct (EqualFold (ev_unicode E) (hm_name x) n); rewrite ?app_nil_r.
Qed.

(** Whether the flush replaces the buffered body. *)
Definition replaces_body (s : st) : bool :=
  hasRequestBodyReplacement (s_f s) &&
  bool_decide (is_Some (requestBodyReplacementBuffer E None
                          (emits (queue_calls (qs (s_f s)) (stripFramingOnResume (s_f s))) s))).

(** The calls after the queued header mutations that touch headers. *)
Definition framing_calls (s : st) : list call :=
  (if stripFramingOnResume (s_f s)
   then [CReqHeaderRemove "content-length"; CReqHeaderRemove "transfer-encoding"] else []) ++
  (if replaces_body s then [CReqHeaderSet "content-length" (Itoa_len (requestBodyReplacement (s_f s)))] else []).

(** Calls that are no header operations can be left out. *)
Lemma header_values_relevant n tr cs :
  header_values E n (ev_request_headers E (tr ++ cs)) =
  header_values E n (ev_request_headers E (tr ++ base.filter (fun c => header_op c = true) cs)).
Proof.
  induction cs as [|c cs IH] using rev_ind; [done|]. rewrite filter_app, filter_cons, filter_nil.
  assert (Hc : forall tr1 tr2, header_values E n (ev_request_headers E tr1) = header_values E n (ev_request_headers E tr2) ->
            header_values E n (ev_request_headers E (tr1 ++ [c])) = header_values E n (ev_request_headers E (tr2 ++ [c]))).
  { intros tr1 tr2 He. destruct (header_op c) eqn:Ho; [|by rewrite !hdr_other].
    destruct c; try discriminate Ho; by rewrite ?hdr_set, ?hdr_add, ?hdr_remove, He. }
  case_decide as Ho; rewrite !app_assoc; [by apply Hc|]. rewrite app_nil_r, hdr_other; [exact IH|]. by destruct (header_op c).
Qed.

Lemma no_header_calls {A} (f : A -> call) (l : list A) :
  (forall a, header_op (f a) = false) -> base.filter (fun c => header_op c = true) (f <$> l) = [].
Proof. intros Hf. induction l as [|a l IH]; [done|]. rewrite fmap_cons, filter_cons, decide_False; [done|]. by rewrite Hf. Qed.

Lemma flush_header_calls c s :
  localReply (s_f s) = None ->
  exists rest, s_tr (flush E c s) = s_tr s ++ (header_call <$> q_reqHeaders (qs (s_f s))) ++ rest /\
    base.filter (fun c => header_op c = true) rest = framing_calls s.
Proof.
  intros Hr. rewrite flush_trace by done. unfold queue_calls at 1. rewrite <-!app_assoc. eexists. split; [reflexivity|].
  unfold framing_calls, replaces_body, replacement_calls. rewrite !filter_app.
  rewrite !no_header_calls by (intros m; unfold gauge_call; try destruct (gm_op m); done).
  destruct (q_override _), (stripFramingOnResume _), (hasRequestBodyReplacement _), c; cbn [andb];
    try (destruct (requestBodyReplacementBuffer _ _ _)); done.
Qed.

(** C2: a handler reads its own writes.  For every header name, the values [RequestHeaders]
    returns while mutations are queued are the values Envoy's header map holds once the queue is
    flushed, with the three exceptions the flush makes: a pending local reply discards the
    queue, so the map stays as it was; the framing of a mutable body that is still to come
    removes content-length and transfer-encoding; and a body replacement for which Envoy has a
    buffer sets content-length to its length. *)
Theorem request_headers_read_your_writes c s n :
  header_values E n (ev_request_headers E (s_tr (flush E c s))) =
  match localReply (s_f s) with
  | Some _ => header_values E n (ev_request_headers E (s_tr s))
  | None =>
      if replaces_body s && EqualFold (ev_unicode E) "content-length" n
      then [Itoa_len (requestBodyReplacement (s_f s))]
      else if stripFramingOnResume (s_f s) &&
              (EqualFold (ev_unicode E) "content-length" n || EqualFold (ev_unicode E) "transfer-encoding" n)
      then []
      else header_values E n (RequestHeaders E s)
  end.
Proof.
  destruct (localReply (s_f s)) as [lr|] eqn:Hr.
  { erewrite flush_reply by exact Hr. cbn. by rewrite hdr_other. }
  destruct (flush_header_calls c s Hr) as (rest & -> & Hrest). rewrite app_assoc, header_values_relevant, Hrest.
  pose proof (overlay_agrees (s_tr s) (ev_request_headers E (s_tr s)) (q_reqHeaders (qs (s_f s))) n eq_refl) as Ho.
  unfold RequestHeaders. rewrite Ho. set (tr := s_tr s ++ _). unfold framing_calls.
  destruct (stripFramingOnResume (s_f s)), (replaces_body s); cbn [andb app]; rewrite ?app_nil_r; try done;
    change [?a; ?b; ?c] with ([a] ++ [b] ++ [c]); change [?a; ?b] with ([a] ++ [b]); rewrite ?app_assoc;
    rewrite ?hdr_set, ?hdr_remove;
    repeat match goal with |- context [EqualFold ?u ?a ?b] => destruct (EqualFold u a b) end; done.
Qed.
End headers.
End flush.

(** ** The concrete Envoy satisfies the laws *)

Lemma fold_eq_ascii_spec a b :
  fold_eq_ascii a b = bool_decide (lower (code a) = lower (code b)).
Proof.
  apply eq_true_iff_eq. unfold fold_eq_ascii, lower.
  rewrite orb_true_iff, !andb_true_iff, !bool_decide_eq_true, !N.leb_le, N.eqb_eq.
  split.
  - intros [->|H]; [done|].
    destruct (N.leb_spec 65 (code a)), (N.leb_spec (code a) 90), (N.leb_spec 65 (code b)),
      (N.leb_spec (code b) 90); simpl; lia.
  - intros H. destruct (N.eq_dec (code a) (code b)); [left; by apply code_inj|right].
    destruct (N.leb_spec 65 (code a)), (N.leb_spec (code a) 90), (N.leb_spec 65 (code b)),
      (N.leb_spec (code b) 90); simpl in H; lia.
Qed.

Lemma EqualFold_spec s t : EqualFold fold_spec s t = fold_spec s t.
Proof.
  revert t. induction s as [|a s IH]; intros [|b t]; simpl; try done.
  case_match; [done|]. rewrite fold_eq_ascii_spec, IH. unfold fold_spec. simpl.
  repeat case_bool_decide; simplify_eq/=; congruence.
Qed.

#[export] Instance simEnvoy_fold hs r : FoldEquiv (simEnvoy hs r).
Proof.
  split; intros *; simpl; rewrite ?EqualFold_spec; unfold fold_spec.
  - by rewrite bool_decide_eq_true.
  - apply bool_decide_ext. split; congruence.
  - rewrite !bool_decide_eq_true. congruence.
Qed.

(** [interp] does to a list what [removeRequestHeader] does. *)
Lemma interp_remove hs r l n :
  base.filter (fun h => fold_spec h.1 n = false) l = removeRequestHeader (simEnvoy hs r) l n.
Proof.
  unfold removeRequestHeader. apply list_filter_iff. intros h. simpl. by rewrite EqualFold_spec.
Qed.

#[export] Instance simEnvoy_headers hs r : HeaderMapLaws (simEnvoy hs r).
Proof.
  assert (forall tr c, ev_request_headers (simEnvoy hs r) (tr ++ [c]) =
            interp (ev_request_headers (simEnvoy hs r) tr) c) as Hs.
  { intros tr c. simpl. by rewrite foldl_app. }
  split; intros *; rewrite Hs; simpl interp; rewrite ?(interp_remove hs r).
  - rewrite header_values_app, header_values_remove, header_values_one by apply _.
    by destruct (EqualFold _ n m); rewrite ?app_nil_r.
  - by rewrite header_values_app, header_values_one.
  - by rewrite header_values_remove by apply _.
  - by destruct c.
Qed.

(** ** Witnesses *)

Lemma deferred_same_calls_witness :
  exists s1 s2,
    let s := (newWriter (mkWriter false false false) (newStream (onlyRequest (fun _ => PRet)))).2 in
    let l := [ASetRequestHeader "a" "1"; AIncrementGauge 7 1; ARemoveRequestHeader "b"] in
    run (simEnvoy [] (0%Z, None)) 0 (acts l) s = Ok s1 /\
    run (simEnvoy [] (0%Z, None)) 0 (acts l) (direct 0 s) = Ok s2 /\
    of_kind KHeader (s_tr (flush (simEnvoy [] (0%Z, None)) false s1)) = of_kind KHeader (s_tr s2).
Proof.
  set (s := (newWriter (mkWriter false false false) (newStream (onlyRequest (fun _ => PRet)))).2).
  set (l := [ASetRequestHeader "a" "1"; AIncrementGauge 7 1; ARemoveRequestHeader "b"]).
  eexists. edestruct (deferred_same_calls (simEnvoy [] (0%Z, None)) 0 l s) as (s2 & H2 & H3).
  - by repeat constructor.
  - simpl. lia.
  - done.
  - done.
  - done.
  - reflexivity.
  - exists s2. split; [reflexivity|]. split; [exact H2|exact H3].
Defined.

Lemma flush_no_stale_replay_witness :
  let s := upd_q (set_q_reqHeaders [mkHdrMut "a" "1" false false]) (newStream (onlyRequest (fun _ => PRet))) in
  s_tr (flush (simEnvoy [] (0%Z, None)) true (flush (simEnvoy [] (0%Z, None)) false s)) =
  [CReqHeaderSet "a" "1"; CContinueRequest].
Proof.
  intros s. destruct (flush_no_stale_replay (simEnvoy [] (0%Z, None)) false true s eq_refl)
    as (_ & _ & H). exact H.
Defined.

Lemma request_headers_read_your_writes_witness :
  let s := upd_q (set_q_reqHeaders [mkHdrMut "A" "1" false false; mkHdrMut "b" "2" false true])
             (newStream (onlyRequest (fun _ => PRet))) in
  let E := simEnvoy [("a", "0"); ("b", "1")] (0%Z, None) in
  header_values E "a" (ev_request_headers E (s_tr (flush E true s))) = header_values E "a" (RequestHeaders E s) /\
  header_values E "a" (RequestHeaders E s) = ["1"].
Proof.
  intros s E. split; [|reflexivity].
  exact (request_headers_read_your_writes E true s "a").
Defined.
