(* ===== verification/RequestProps.v ===== *)
(** * up/filter.go: the request callbacks

    What [OnRequestHeaders], [OnRequestBody] and the callout callbacks do to the request:
    they never resume it from inside a request callback, a local reply is final, and a
    paused stream is resumed exactly once. *)
From stdpp Require Import base list gmap strings.
From Stdlib Require Import ZArith Lia.
From S2P Require Import Prelude Async StreamObject Envoy Grpc FilterState Filter FilterFacts FlushProps.

(** The headers the finalized registration may add when Envoy has no request id. *)
Definition fallback_only (fb : list call) : Prop :=
  Forall (fun c => exists n, c = CReqHeaderSet finalizedFallbackKeyHeader n) fb.

(** The mutating calls since trace [T] are at most that header, and nothing else is owed. *)
Definition only_queued (T : list call) (w : nat) (s : st) : Prop :=
  exists fb, fallback_only fb /\ quiet w (T ++ fb) s.

(** Nothing [l] of the calls made resumes the request. *)
Definition no_continue (l : list call) : Prop := CContinueRequest ∉ l.

Definition stops (x : HeadersStatus) : bool :=
  match x with HeadersStatusStop => true | HeadersStatusContinue => false end.
Definition stops_body (x : BodyStatus) : bool :=
  match x with BodyStatusStopAndBuffer => true | BodyStatusContinue => false end.

Section callbacks.
Context (E : Envoy).

(** ** A predicate carried through a request callback *)

Record carried (P : nat -> st -> Prop) : Prop := mkCarried {
  carried_run : forall w p s s', P w s -> run E w p s = Ok s' -> P w s';
  carried_emit : forall w c s, mutating c = false -> P w s -> P w (emit c s);
  carried_fin : forall w s, P w s -> P w (registerFinalized E s);
  carried_strip : forall w b s, P w s -> P w (upd_f (set_stripFramingOnResume b) s);
}.

(** How a request callback can end: stopped and owed a flush, or flushed. *)
Definition ends (P : nat -> st -> Prop) (w : nat) (stop : bool) (s' : st) : Prop :=
  (stop = true /\ exists s1, P w s1 /\ calloutStarted (writer w s1) = true /\
     calloutState (s_f s1) = calloutStateActive /\
     s' = upd_f (set_calloutState calloutStatePaused) s1) \/
  (stop = true /\ P w s' /\ goStarted (s_f s') = true) \/
  (exists s1, P w s1 /\ s' = flush E false (flushCompletedCallout w s1) /\
     goStarted (s_f s1) = false /\ (stop = false -> stopped (s_f s') = false)).

Lemma pausePendingCallout_true w s s' :
  pausePendingCallout w s = (true, s') ->
  calloutStarted (writer w s) = true /\ calloutState (s_f s) = calloutStateActive /\
  s' = upd_f (set_calloutState calloutStatePaused) s.
Proof.
  unfold pausePendingCallout, cas. repeat case_match; intros; simplify_eq. done.
Qed.

Lemma pausePendingCallout_false w s s' : pausePendingCallout w s = (false, s') -> s' = s.
Proof. unfold pausePendingCallout, cas. repeat case_match; intros; by simplify_eq. Qed.

Lemma call_requestBodyHandler_carried P w d eos s s' :
  carried P -> P w s -> call_requestBodyHandler E w d eos s = Ok s' -> P w s'.
Proof.
  intros HP Hs. unfold call_requestBodyHandler. case_match; [|by intros [= <-]].
  intros Hr. eapply (carried_run _ HP); [|done]. by apply (carried_emit _ HP).
Qed.

(** The tail shared by the request callbacks once the handlers have run. *)
Lemma ends_pause P w s s' : P w s -> pausePendingCallout w s = (true, s') -> ends P w true s'.
Proof. intros Hs (? & ? & ?)%pausePendingCallout_true. left. eauto 10. Qed.

Lemma ends_flush P w s stop :
  P w s -> goStarted (s_f s) = false -> (stop = false -> stopped (s_f (flush E false (flushCompletedCallout w s))) = false) ->
  ends P w stop (flush E false (flushCompletedCallout w s)).
Proof. right; right. eauto. Qed.

(** The shape of [OnRequestHeaders], for a predicate the handler establishes. *)
Lemma OnRequestHeaders_shape P eos s status s' :
  carried P ->
  (forall s0 s1, s_tr s0 = s_tr s -> s_ws s0 = s_ws s ++ [mkWriter false false false] ->
     localReply (s_f s0) = localReply (s_f s) -> stopped (s_f s0) = stopped (s_f s) ->
     calloutState (s_f s0) = calloutState (s_f s) -> frame s0 = frame s ->
     run E (length (s_ws s)) (handler (cfg (s_f s)) (newRequestWithContext E s0)) s0 = Ok s1 ->
     P (length (s_ws s)) s1) ->
  OnRequestHeaders E eos s = Ok (status, s') ->
  ends P (length (s_ws s)) (stops status) s'.
Proof.
  intros HP H0. unfold OnRequestHeaders.
  match goal with |- context [newWriter _ ?y] => set (sa := y) end.
  assert (s_tr sa = s_tr s /\ s_ws sa = s_ws s /\ localReply (s_f sa) = localReply (s_f s) /\
    stopped (s_f sa) = stopped (s_f s) /\ calloutState (s_f sa) = calloutState (s_f s) /\
    frame sa = frame s) as (A1 & A2 & A3 & A4 & A5 & A6)
    by (unfold sa; case_match; case_decide; done).
  assert (cfg (s_f sa) = cfg (s_f s)) as A7 by (by injection A6).
  clearbody sa. simpl. rewrite A2, A7.
  destruct (run E _ _ _) as [s1|] eqn:Er; simpl; [|done].
  eapply H0 in Er; simpl; [|first [congruence|exact A6]..]. apply (carried_fin _ HP) in Er.
  match goal with |- context [pausePendingCallout _ ?y] =>
    set (s2 := y); assert (P (length (s_ws s)) s2) as H2 end.
  { unfold s2. case_match; [by apply (carried_strip _ HP)|done]. }
  clearbody s2.
  destruct (pausePendingCallout _ s2) as [[] s3] eqn:Ep.
  { intros [= <- <-]. by eapply ends_pause. }
  apply pausePendingCallout_false in Ep as ->.
  destruct (goStarted (s_f s2)) eqn:Hg. { intros [= <- <-]. right; left. done. }
  destruct eos; simpl.
  - destruct (call_requestBodyHandler E _ _ _ s2) as [s4|] eqn:Eb; simpl; [|done].
    eapply call_requestBodyHandler_carried in Eb; [|done..].
    destruct (pausePendingCallout _ s4) as [[] s5] eqn:Ep.
    { intros [= <- <-]. by eapply ends_pause. }
    apply pausePendingCallout_false in Ep as ->.
    destruct (goStarted (s_f s4)) eqn:Hg4. { intros [= <- <-]. right; left. done. }
    intros [= <- <-]. apply ends_flush; [done..|]. by case_match.
  - case_match eqn:Hst; intros [= <- <-]; (apply ends_flush; [done..|]); [done|].
    intros _. done.
Qed.

(** ** [only_queued] and recorded replies are carried *)

Lemma registerFinalized_quiet w T s :
  quiet w T s -> exists fb, fallback_only fb /\ quiet w (T ++ fb) (registerFinalized E s) /\
    localReply (s_f (registerFinalized E s)) = localReply (s_f s) /\
    stopped (s_f (registerFinalized E s)) = stopped (s_f s).
Proof.
  intros Hs. unfold registerFinalized.
  destruct (onStreamFinalized _) as [fn|];
    [|exists []; rewrite app_nil_r; repeat split; [constructor|apply Hs..]].
  destruct (decide (finalizedKey _ = ""));
    [|exists []; rewrite app_nil_r; repeat split; [constructor|apply Hs..]].
  destruct Hs as (H1 & H2 & H3 & H4).
  destruct (decide (match ev_request_id E (s_tr s) with Some v => v | None => "" end = "")); simpl.
  - eexists [_]. split; [by repeat econstructor|]. repeat split; try done. simpl.
    by rewrite mutations_app, H4.
  - exists []. rewrite app_nil_r. split; [constructor|done].
Qed.

Lemma fallback_only_app l k : fallback_only l -> fallback_only k -> fallback_only (l ++ k).
Proof. apply Forall_app_2. Qed.

Lemma only_queued_carried T : carried (only_queued T).
Proof.
  split.
  - intros w p s s' (fb & Hf & Hq) Hr. exists fb. split; [done|]. by eapply run_quiet.
  - intros w c s Hc (fb & Hf & Hq). exists fb. split; [done|]. by apply quiet_emit.
  - intros w s (fb & Hf & Hq). destruct (registerFinalized_quiet _ _ _ Hq) as (fb' & Hf' & Hq' & _).
    exists (fb ++ fb'). rewrite app_assoc. auto using fallback_only_app.
  - intros w b s (fb & Hf & Hq). exists fb. split; [done|]. by apply quiet_upd_f; [apply Hq|].
Qed.

Lemma getOrCreateBag_replied w lr s b s' :
  queued w s = true -> replied lr s -> getOrCreateBag E w s = Ok (b, s') -> replied lr s'.
Proof.
  intros Hq Hr. unfold getOrCreateBag. case_match; [by intros [= <- <-]|].
  destruct (mint_bag _ _ _) as [[[b' k] s1]|] eqn:Em; [|done]. intros [= <- <-].
  apply mint_bag_filter in Em as Hf.
  unfold SetFilterState, replied in *. destruct (queued w (upd_f _ s1)); simpl; by rewrite Hf.
Qed.

(** A recorded reply has stopped the request. *)
Lemma do_act_reply_stops w a s s' :
  queued w s = true -> (localReply (s_f s) = None \/ stopped (s_f s) = true) ->
  do_act E w a s = Ok s' -> localReply (s_f s') = None \/ stopped (s_f s') = true.
Proof.
  intros Hq Hr Ha. destruct a; simpl in Ha; try (injection Ha as <-);
    unfold SendLocalResponse, SetRequestHeader, AddRequestHeader, RemoveRequestHeader,
      SetFilterState, SetRequestBody, SetResponseBody, IncrementCounterLabels, IncrementGauge,
      DecrementGauge, SetGauge, RecordHistogramLabels, SetMetadata in *; rewrite ?Hq in *;
    try (by right); try (by case_match); try done.
  - unfold SetStreamObject, getOrCreateBag in Ha.
    destruct (if decide _ then None else _) as [b|]; [by injection Ha as <-|].
    destruct (mint_bag _ _ _) as [[[b k] s1]|] eqn:Em; [|done].
    cbn in Ha. injection Ha as <-. apply mint_bag_filter in Em.
    unfold SetFilterState. destruct (queued w (upd_f _ s1)); simpl; by rewrite Em.
  - case_match; [|done]. by injection Ha as <-.
Qed.

Lemma do_query_reply_stops {A} w (q : query A) s :
  queued w s = true -> (localReply (s_f s) = None \/ stopped (s_f s) = true) ->
  localReply (s_f (do_query E w q s).2) = None \/ stopped (s_f (do_query E w q s).2) = true.
Proof.
  intros Hq Hr. destruct q; simpl; try done.
  - unfold GetStreamObject. repeat case_match; simplify_eq/=; done.
  - unfold SetUpstreamOverrideHost. by rewrite Hq.
Qed.

Lemma do_act_replied w lr a s s' :
  queued w s = true -> replied lr s -> do_act E w a s = Ok s' -> replied lr s'.
Proof.
  intros Hq Hr Ha. pose proof Hr as [Hl Hs]. destruct a; simpl in Ha; try (injection Ha as <-);
    unfold SendLocalResponse, SetRequestHeader, AddRequestHeader, RemoveRequestHeader,
      SetFilterState, SetRequestBody, SetResponseBody, IncrementCounterLabels, IncrementGauge,
      DecrementGauge, SetGauge, RecordHistogramLabels, SetMetadata in *; rewrite ?Hq, ?Hl in *;
    try done; try (by case_match).
  - unfold SetStreamObject in Ha. destruct (getOrCreateBag E w s) as [[b s1]|] eqn:Eb; [|done].
    simpl in Ha. injection Ha as <-. apply (getOrCreateBag_replied w lr) in Eb; done.
  - case_match; [|done]. by injection Ha as <-.
Qed.

(** The first reply is kept whatever the program goes on to do. *)
Lemma replied_stable w T lr : stable E w (fun s => quiet w T s /\ replied lr s).
Proof.
  pose proof (quiet_stable E w T) as Hst.
  split; intros *; try (intros [Hq Hr]; split; [by stab Hst|done]).
  - intros [Hq Hr] Ha. split; [by eapply (stable_act _ _ _ Hst)|].
    eapply do_act_replied; [by eapply quiet_queued|done..].
  - intros [Hq Hr]. split; [by apply (stable_query _ _ _ Hst)|].
    destruct q; simpl; try done.
    + unfold GetStreamObject. repeat case_match; simplify_eq/=; done.
    + unfold SetUpstreamOverrideHost. by rewrite (quiet_queued _ _ _ Hq).
  - intros Hc [Hq Hr]. split; [by apply quiet_emit|done].
  - intros [Hq Hr]. split; [by apply quiet_handoff|].
    rewrite handoff_not_paused by apply Hq. unfold cas. by case_decide.
  - intros [Hq Hr] Hg. split; [by eapply (stable_go _ _ _ Hst)|].
    unfold Go in Hg. repeat (case_match; [done|]). by injection Hg as <-.
Qed.

Lemma replied_carried T lr :
  carried (fun w s => exists fb, fallback_only fb /\ quiet w (T ++ fb) s /\ replied lr s).
Proof.
  split.
  - intros w p s s' (fb & Hf & Hq) Hr. exists fb. split; [done|].
    by eapply (run_stable E w _ (replied_stable w (T ++ fb) lr)).
  - intros w c s Hc (fb & Hf & Hq & Hr). exists fb. split; [done|]. split; [by apply quiet_emit|done].
  - intros w s (fb & Hf & Hq & Hr).
    destruct (registerFinalized_quiet _ _ _ Hq) as (fb' & Hf' & Hq' & H1 & H2).
    exists (fb ++ fb'). rewrite app_assoc. unfold replied. rewrite H1, H2.
    auto using fallback_only_app.
  - intros w b s (fb & Hf & Hq & Hr). exists fb. split; [done|].
    split; [by apply quiet_upd_f; [apply Hq|]|done].
Qed.

(** ** What a flush inside a request callback does *)

Lemma queue_calls_mutations q b :
  mutations (queue_calls q b) = queue_calls q b /\ no_continue (queue_calls q b).
Proof.
  assert (Forall (fun c => mutating c = true /\ c <> CContinueRequest) (queue_calls q b)) as H.
  { unfold queue_calls. repeat apply Forall_app_2;
      try (apply Forall_fmap, Forall_true; intros []; simpl; unfold header_call, gauge_call;
           simpl; by repeat case_match).
    - destruct b; by repeat constructor.
    - destruct (q_override q); by repeat constructor. }
  split.
  - unfold mutations. induction H as [|c l [Hc _] _ IH]; [done|].
    by rewrite filter_cons_True, IH.
  - intros Hin. rewrite Forall_forall in H. by destruct (H _ Hin).
Qed.

Lemma replacement_calls_mutations s :
  mutations (replacement_calls E s) = replacement_calls E s /\ no_continue (replacement_calls E s).
Proof.
  unfold replacement_calls. case_match; [|by split; [|apply not_elem_of_nil]].
  split; [done|]. unfold no_continue. set_solver.
Qed.

Lemma flush_no_continue s :
  exists k, s_tr (flush E false s) = s_tr s ++ k /\ mutations k = k /\ no_continue k.
Proof.
  destruct (localReply (s_f s)) as [lr|] eqn:Hl.
  - rewrite (flush_reply E false s lr Hl). eexists [_]. repeat split. unfold no_continue. set_solver.
  - rewrite flush_trace by done. eexists. split; [done|]. rewrite app_nil_r.
    destruct (queue_calls_mutations (qs (s_f s)) (stripFramingOnResume (s_f s))) as [H1 H2].
    destruct (hasRequestBodyReplacement (s_f s)).
    + destruct (replacement_calls_mutations
        (emits (queue_calls (qs (s_f s)) (stripFramingOnResume (s_f s))) s)) as [H3 H4].
      rewrite mutations_app, H1, H3. split; [done|]. unfold no_continue in *.
      rewrite not_elem_of_app. done.
    + by rewrite app_nil_r.
Qed.

Lemma flushCompletedCallout_trace w s :
  s_tr (flushCompletedCallout w s) = s_tr s /\
  localReply (s_f (flushCompletedCallout w s)) = localReply (s_f s) /\
  stopped (s_f (flushCompletedCallout w s)) = stopped (s_f s) /\
  goStarted (s_f (flushCompletedCallout w s)) = goStarted (s_f s) /\
  (calloutState (s_f s) <> calloutStatePaused ->
   calloutState (s_f (flushCompletedCallout w s)) <> calloutStatePaused).
Proof. unfold flushCompletedCallout, cas. repeat case_match; done. Qed.

Lemma flush_ctl c s : ctl (flush E c s) = ctl s.
Proof.
  unfold flush. destruct (localReply (s_f s)); [done|]. simpl.
  destruct (hasRequestBodyReplacement (s_f s)), c; simpl; try case_match; done.
Qed.

(** The start of a request callback: a fresh queueing writer. *)
Lemma fresh_quiet s T :
  calloutState (s_f s) <> calloutStatePaused -> mutations (s_tr s) = T ->
  forall s0, s_tr s0 = s_tr s -> s_ws s0 = s_ws s ++ [mkWriter false false false] ->
    calloutState (s_f s0) = calloutState (s_f s) -> quiet (length (s_ws s)) T s0.
Proof.
  intros Hp HT s0 H1 H2 H3. unfold quiet, writer. rewrite H1, H2, H3.
  rewrite lookup_app_r, Nat.sub_diag by lia. rewrite length_app. simpl. repeat split; [lia|done..].
Qed.

(** *** The two halves of [OnRequestHeaders] *)

(** The stream waits for a callout or for a goroutine. *)
Definition waiting (w : nat) (s : st) : bool :=
  calloutStarted (writer w s) && bool_decide (calloutState (s_f s) = calloutStateActive) || goStarted (s_f s).

(** Envoy is still to deliver a body that the filter buffers. *)
Definition awaits_body (eos : bool) (s : st) : bool :=
  negb eos && bufferBody (cfg (s_f s)) && bool_decide (is_Some (requestBodyHandler (cfg (s_f s)))).

(** The user's code: the handler and, when the request has no body and nothing is waited for,
    the body handler. *)
Definition request_handlers (eos : bool) (s : st) : res st :=
  let s := if decide (reqID (s_f s) = "")
           then upd_f (set_reqID (ev_request_header E (s_tr s) "x-request-id")) s else s in
  let s := match requestBodyHandler (cfg (s_f s)) with
           | Some _ =>
               upd_f (fun f => set_requestContentType (ev_request_header E (s_tr s) "content-type")
                        (set_requestContentEncoding (ev_request_header E (s_tr s) "content-encoding") f)) s
           | None => s
           end in
  let '(w, s) := newWriter (mkWriter false false false) s in
  s ← run E w (handler (cfg (s_f s)) (newRequestWithContext E s)) s;
  let s := registerFinalized E s in
  let s := if awaits_body eos s && mutableRequestBody (cfg (s_f s))
           then upd_f (set_stripFramingOnResume true) s else s in
  if eos && negb (waiting w s) then call_requestBodyHandler E w [] true s else Ok s.

(** What follows it. *)
Definition request_decision (w : nat) (eos : bool) (s : st) : HeadersStatus * st :=
  let '(paused, s1) := pausePendingCallout w s in
  if paused || goStarted (s_f s1) then (HeadersStatusStop, s1)
  else
    let s2 := flush E false (flushCompletedCallout w s1) in
    (if stopped (s_f s2) || awaits_body eos s then HeadersStatusStop else HeadersStatusContinue, s2).

Lemma pausePendingCallout_waiting w s : (pausePendingCallout w s).1 || goStarted (s_f s) = waiting w s.
Proof. unfold pausePendingCallout, cas, waiting. destruct (calloutStarted _); [|done]. by case_decide; case_bool_decide. Qed.

Lemma OnRequestHeaders_halves eos s :
  OnRequestHeaders E eos s = (s1 ← request_handlers eos s; Ok (request_decision (length (s_ws s)) eos s1)).
Proof.
  unfold OnRequestHeaders, request_handlers.
  match goal with |- context [newWriter _ ?y] => set (sa := y) end.
  assert (length (s_ws sa) = length (s_ws s)) as Hl by (unfold sa; case_match; by case_decide).
  clearbody sa. cbn [newWriter]. rewrite Hl. set (w := length (s_ws s)).
  destruct (run E w _ _) as [s1|]; cbn [mbind res_bind]; [|done].
  change (negb eos && bufferBody (cfg (s_f (registerFinalized E s1))) &&
          bool_decide (is_Some (requestBodyHandler (cfg (s_f (registerFinalized E s1))))))
    with (awaits_body eos (registerFinalized E s1)).
  match goal with |- context [pausePendingCallout w ?y] => set (s2 := y) end.
  assert (awaits_body eos s2 = awaits_body eos (registerFinalized E s1)) as Ha by (unfold s2; by case_match).
  rewrite <-Ha. clearbody s2. clear Ha. pose proof (pausePendingCallout_waiting w s2) as Hw.
  destruct (pausePendingCallout w s2) as [[] s3] eqn:Ep; cbn [fst orb] in Hw.
  { rewrite <-Hw, andb_false_r. cbn. unfold request_decision. by rewrite Ep. }
  apply pausePendingCallout_false in Ep as Hs. subst s3. destruct (goStarted (s_f s2)) eqn:Hg.
  { rewrite <-Hw, andb_false_r. cbn. unfold request_decision. by rewrite Ep, Hg. }
  rewrite <-Hw. destruct eos; cbn [andb negb].
  - destruct (call_requestBodyHandler E w [] true s2) as [s4|]; cbn [mbind res_bind]; [|done]. unfold request_decision.
    destruct (pausePendingCallout w s4) as [[] s5]; [done|]. cbn [orb]. destruct (goStarted (s_f s5)); [done|].
    unfold awaits_body. cbn [negb andb]. by rewrite orb_false_r.
  - cbn [mbind res_bind]. unfold request_decision. rewrite Ep. cbn [orb]. rewrite Hg. by destruct (stopped _).
Qed.

(** The user's code alone changes nothing but the queues. *)
Lemma request_handlers_quiet eos s s1 :
  calloutState (s_f s) <> calloutStatePaused -> request_handlers eos s = Ok s1 ->
  only_queued (mutations (s_tr s)) (length (s_ws s)) s1.
Proof.
  intros Hp. unfold request_handlers.
  match goal with |- context [newWriter _ ?y] => set (sa := y) end.
  assert (s_tr sa = s_tr s /\ s_ws sa = s_ws s /\ calloutState (s_f sa) = calloutState (s_f s)) as (A1 & A2 & A3)
    by (unfold sa; case_match; by case_decide).
  clearbody sa. cbn [newWriter]. rewrite A2. set (w := length (s_ws s)).
  pose proof (only_queued_carried (mutations (s_tr s))) as HP.
  destruct (run E w _ _) as [s2|] eqn:Er; cbn [mbind res_bind]; [|done].
  assert (only_queued (mutations (s_tr s)) w s2) as Hq.
  { exists []. rewrite app_nil_r. split; [constructor|]. eapply run_quiet; [|exact Er].
    apply (fresh_quiet s _ Hp eq_refl); [exact A1 | done | exact A3]. }
  apply (carried_fin _ HP) in Hq.
  match goal with |- context [waiting w ?y] => assert (only_queued (mutations (s_tr s)) w y) as H3; [|set (s3 := y) in *] end.
  { case_match; [by apply (carried_strip _ HP)|done]. }
  clearbody s3. case_match; [|by intros [= <-]]. intros Hb. by eapply call_requestBodyHandler_carried.
Qed.

(** The calls of a flush that does not resume. *)
Definition flush_calls (s : st) : list call :=
  match localReply (s_f s) with
  | Some lr => [CSendLocalResponse (lr_status lr) (lr_headers lr) (lr_body lr) ""]
  | None =>
      queue_calls (qs (s_f s)) (stripFramingOnResume (s_f s)) ++
      (if hasRequestBodyReplacement (s_f s)
       then replacement_calls E (emits (queue_calls (qs (s_f s)) (stripFramingOnResume (s_f s))) s) else [])
  end.

Lemma flush_calls_spec s : s_tr (flush E false s) = s_tr s ++ flush_calls s.
Proof.
  unfold flush_calls. destruct (localReply (s_f s)) as [lr|] eqn:Hl; [by erewrite flush_reply by exact Hl|].
  rewrite flush_trace by done. by rewrite !app_nil_r.
Qed.

Lemma flush_completed_spec w s :
  let s' := flush E false (flushCompletedCallout w s) in
  s_tr s' = s_tr s ++ flush_calls s /\
  match localReply (s_f s) with
  | Some _ => stopped (s_f s') = stopped (s_f s)
  | None => stopped (s_f s') = false /\ qs (s_f s') = queues_empty /\ hasRequestBodyReplacement (s_f s') = false
  end.
Proof.
  intros s'. unfold s'. rewrite flush_calls_spec. destruct (flushCompletedCallout_trace w s) as (F1 & F2 & F3 & _).
  split; [rewrite F1; f_equal; unfold flushCompletedCallout, cas; by repeat case_match|].
  destruct (localReply (s_f s)) as [lr|] eqn:Hl; [erewrite flush_reply by exact F2; exact F3|].
  by rewrite flush_filter by exact F2.
Qed.


(** The reply a handler's [SendLocalResponse] records. *)
Lemma SendLocalResponse_replies w T code body hs s :
  quiet w T s -> localReply (s_f s) = None ->
  quiet w T (SendLocalResponse w code body hs s) /\
  replied (mkLocal (uint32_of code) hs body) (SendLocalResponse w code body hs s).
Proof.
  intros Hq Hl. unfold SendLocalResponse. rewrite (quiet_queued _ _ _ Hq), Hl.
  split; [|done]. by repeat (apply quiet_upd_f; [apply Hq|]).
Qed.

(** C4: a local reply is final.  When a handler's first action is [SendLocalResponse],
    [OnRequestHeaders] answers Stop whatever the handler goes on to do (more replies, header
    changes, callouts), and of all its effects Envoy sees the first reply alone, at once or,
    when a callout or goroutine is pending, not yet. *)
Theorem local_reply_is_final eos s status s' code body hs k :
  (forall r, handler (cfg (s_f s)) r = PAct (ASendLocalResponse code body hs) (k r)) ->
  calloutState (s_f s) <> calloutStatePaused -> localReply (s_f s) = None ->
  OnRequestHeaders E eos s = Ok (status, s') ->
  status = HeadersStatusStop /\ exists fb, fallback_only fb /\
    ((mutations (s_tr s') = mutations (s_tr s) ++ fb /\
      replied (mkLocal (uint32_of code) hs body) s' /\
      (calloutState (s_f s') = calloutStatePaused \/ goStarted (s_f s') = true)) \/
     mutations (s_tr s') =
       mutations (s_tr s) ++ fb ++ [CSendLocalResponse (uint32_of code) hs body ""]).
Proof.
  intros Hh Hp Hl Hok.
  apply (OnRequestHeaders_shape
    (fun w s1 => exists fb, fallback_only fb /\ quiet w (mutations (s_tr s) ++ fb) s1 /\
       replied (mkLocal (uint32_of code) hs body) s1)) in Hok; [|apply replied_carried|].
  2: { intros s0 s1 H1 H2 H3 _ H4 _ Hr. rewrite Hh in Hr. simpl in Hr.
       exists []. rewrite app_nil_r. split; [constructor|].
       eapply (run_stable E _ _ (replied_stable _ _ _)); [|exact Hr].
       apply SendLocalResponse_replies; [by eapply fresh_quiet|congruence]. }
  destruct Hok as [(Hst & s1 & (fb & Hf & Hq & Hr) & _ & _ & ->)|
    [(Hst & (fb & Hf & Hq & Hr) & Hg)|(s1 & (fb & Hf & Hq & Hr) & -> & Hg & Hst)]].
  - split; [by destruct status|]. exists fb. split; [done|]. left.
    destruct Hq as (_ & _ & _ & Hq). auto.
  - split; [by destruct status|]. exists fb. split; [done|]. left.
    destruct Hq as (_ & _ & _ & Hq). auto.
  - destruct (flushCompletedCallout_trace (length (s_ws s)) s1) as (F1 & F2 & F3 & _).
    destruct Hr as [Hr1 Hr2]. destruct Hq as (_ & _ & _ & Hq).
    rewrite (flush_reply E _ _ (mkLocal (uint32_of code) hs body)) in * by congruence.
    simpl in *. rewrite F1, F3 in *. split; [destruct status; [by rewrite Hst in Hr2|done]|].
    exists fb. split; [done|]. right. by rewrite mutations_app, Hq, <-app_assoc.
Qed.

(** ** Callouts *)

(** C5: a callout that finds the stream paused resumes it exactly once.  The callback runs
    with the response, makes no mutating call itself, and the stream is then flushed: the
    recorded reply alone, or every queued mutation, the body replacement and one
    [ContinueRequest].  The handoff is over (Flushed) and delivering the callout again, to
    the same or a later state of the same callout, changes nothing. *)
Theorem paused_callout_resumes_once s s' w fn d :
  calloutState (s_f s) = calloutStatePaused -> streamDone (s_f s) = false ->
  calloutFn (s_f s) = Some (w, fn) -> calloutStarted (writer w s) = true ->
  OnHttpCalloutDone E d s = Ok s' ->
  exists s1, run E w (fn d) (upd_f (set_calloutFn None) s) = Ok s1 /\
    mutations (s_tr s') = mutations (s_tr s) ++
      match localReply (s_f s1) with
      | Some lr => [CSendLocalResponse (lr_status lr) (lr_headers lr) (lr_body lr) ""]
      | None => queue_calls (qs (s_f s1)) (stripFramingOnResume (s_f s1)) ++
          (if hasRequestBodyReplacement (s_f s1)
           then replacement_calls E
                  (emits (queue_calls (qs (s_f s1)) (stripFramingOnResume (s_f s1))) s1)
           else []) ++ [CContinueRequest]
      end /\
    calloutState (s_f s') = calloutStateFlushed /\
    forall d', OnHttpCalloutDone E d' s' = Ok s'.
Proof.
  intros Hp Hd Hf Hw. unfold OnHttpCalloutDone, calloutDone. rewrite Hd, Hf. simpl.
  destruct (run E w _ _) as [s1|] eqn:Er; simpl; [|done]. intros [= <-].
  exists s1. split; [done|]. pose proof (run_frame _ _ _ _ _ Er) as Hfr.
  apply run_started in Er as [Hc Hm]; [|done]. injection Hc as Hws Hfn Hcs Hg _ _ _ _.
  simpl in Hfn, Hcs, Hm. rewrite Hp in Hcs.
  assert (handoff E s1 = flush E true (upd_f (set_calloutState calloutStateFlushed) s1)) as ->
    by (unfold handoff, cas at 1; by rewrite decide_True).
  pose proof (flush_ctl true (upd_f (set_calloutState calloutStateFlushed) s1)) as Hc.
  injection Hc as _ C1 C2 _ _ _ _ _. simpl in C1, C2. rewrite C1, C2, Hfn.
  split; [|split; [done|intros d'; by case_match]].
  rewrite <-Hm. destruct (localReply (s_f s1)) as [lr|] eqn:Hl.
  - rewrite (flush_reply E true _ lr) by done. simpl. by rewrite mutations_app.
  - rewrite flush_trace by done. simpl. rewrite mutations_app. f_equal.
    destruct (queue_calls_mutations (qs (s_f s1)) (stripFramingOnResume (s_f s1))) as [H1 _].
    rewrite !mutations_app, H1. f_equal. f_equal. case_match; [|done].
    by rewrite (proj1 (replacement_calls_mutations _)).
Qed.
End callbacks.

(** ** Witnesses *)

(** A callout request and a delivered response. *)
Definition demo_req : HTTPCalloutRequest := mkReq "auth" [(":method", "GET")] [] 100.
Definition demo_delivery : CalloutDelivery := mkDelivery HTTPCalloutSuccess None None.

(** A handler that sets a header. *)
Definition setting : st := newStream (onlyRequest (fun _ => acts [ASetRequestHeader "a" "1"])).


(** A handler that answers twice. *)
Definition replying : st :=
  newStream (onlyRequest (fun _ => acts [ASendLocalResponse 403 [] [];
    ASetRequestHeader "a" "1"; ASendLocalResponse 200 [] []])).

Lemma local_reply_is_final_witness :
  let r := OnRequestHeaders (simEnvoy [] (0%Z, None)) true replying in
  exists fb, fallback_only fb /\
    ((mutations (s_tr (out r)) = fb /\ replied (mkLocal (uint32_of 403) [] []) (out r) /\
      (calloutState (s_f (out r)) = calloutStatePaused \/ goStarted (s_f (out r)) = true)) \/
     mutations (s_tr (out r)) = fb ++ [CSendLocalResponse (uint32_of 403) [] [] ""]).
Proof.
  intros r. assert (r = Ok (HeadersStatusStop, out r)) as H by (vm_compute; reflexivity).
  destruct (local_reply_is_final (simEnvoy [] (0%Z, None)) true replying HeadersStatusStop (out r)
    403 [] [] (fun _ => acts [ASetRequestHeader "a" "1"; ASendLocalResponse 200 [] []])
    (fun _ => eq_refl) ltac:(done) eq_refl H) as (_ & fb & H1 & H2).
  exists fb. split; [exact H1|exact H2].
Defined.

(** A stream paused on a callout. *)
Definition paused_stream : st :=
  let s := (newWriter (mkWriter true false false) (newStream (onlyRequest (fun _ => PRet)))).2 in
  upd_f (fun f => set_calloutState calloutStatePaused
    (set_calloutFn (Some (0, fun _ => acts [ASetRequestHeader "user" "u"])) f)) s.

Lemma paused_callout_resumes_once_witness :
  let E := simEnvoy [] (0%Z, None) in
  let r := (s ← OnHttpCalloutDone E demo_delivery paused_stream; Ok (tt, s)) in
  mutations (s_tr (out r)) = [CReqHeaderSet "user" "u"; CContinueRequest] /\
  OnHttpCalloutDone E demo_delivery (out r) = Ok (out r).
Proof.
  intros E r. split; [vm_compute; reflexivity|].
  assert (OnHttpCalloutDone E demo_delivery paused_stream = Ok (out r)) as H
    by (vm_compute; reflexivity).
  destruct (paused_callout_resumes_once E paused_stream (out r) 0
    (fun _ => acts [ASetRequestHeader "user" "u"]) demo_delivery eq_refl eq_refl eq_refl eq_refl H)
    as (s1 & _ & _ & _ & H2).
  apply H2.
Defined.
