(* ===== verification/CalloutProps.v ===== *)
(** * up/writer.go, up/async.go, up/filter.go: callouts

    When the response of a callout arrives does not matter (before the call returns or
    after the stream has paused), a settled batch reports every slot in request order
    whatever the order of completion, and a callback that arrives after the stream has
    completed does nothing. *)
From stdpp Require Import base list gmap strings.
From Stdlib Require Import ZArith Lia.
From S2P Require Import Prelude Async StreamObject Envoy Grpc FilterState Filter FilterFacts FlushProps RequestProps.

(** The same Envoy, except for what it answers to [HttpCallout]. *)
Definition with_callout (E : Envoy) (r : Z * option CalloutDelivery) : Envoy :=
  mkEnvoy (ev_request_headers E) (ev_request_header E) (ev_response_header E) (ev_filter_state E)
    (ev_request_id E) (ev_body E) (ev_override E) (fun _ _ => r) (ev_stream E) (ev_nonce E)
    (ev_unicode E) (ev_stack E).

(** A handler that makes one callout and leaves the rest to its callback. *)
Definition one_callout (req : HTTPCalloutRequest) (fn : CalloutDelivery -> prog) : Request -> prog :=
  fun _ => PHTTPCallout req fn (fun _ _ => PRet).

(** Change the state of the handoff. *)
Abbreviation set_cs c := (upd_f (set_calloutState c)).

(** Change it and whether the framing headers are to be removed. *)
Abbreviation set_hs c b := (upd_f (fun f => set_stripFramingOnResume b (set_calloutState c f))).

(** Deliveries to the slots of batch [b], one after the other. *)
Fixpoint deliver (E : Envoy) (b : nat) (ds : list (nat * CalloutDelivery)) (s : st) : res st :=
  match ds with
  | [] => Ok s
  | (i, d) :: ds => s ← OnBatchCalloutDone E b i d s; deliver E b ds s
  end.

(** The state in which [OnRequestHeaders] runs the handler, without a body handler. *)
Definition request_start (E : Envoy) (s : st) : st :=
  (newWriter (mkWriter false false false)
     (if decide (reqID (s_f s) = "")
      then upd_f (set_reqID (ev_request_header E (s_tr s) "x-request-id")) s else s)).2.

(** The end of [OnRequestHeaders] once the handler has run, without a body handler. *)
Definition request_end (E : Envoy) (w : nat) (s : st) : res (HeadersStatus * st) :=
  let '(paused, s) := pausePendingCallout w s in
  if paused then Ok (HeadersStatusStop, s)
  else if goStarted (s_f s) then Ok (HeadersStatusStop, s)
  else
    let s := flush E false (flushCompletedCallout w s) in
    Ok (if stopped (s_f s) then HeadersStatusStop else HeadersStatusContinue, s).

Section early_late.
Context (E : Envoy).

Lemma mint_bag_comm r1 r2 c b n s :
  mint_bag (with_callout E r2) n (set_hs c b s) =
  (fun x => (x.1, set_hs c b x.2)) <$> mint_bag (with_callout E r1) n s.
Proof.
  revert s. induction n as [|n IH]; intros s; [done|]. simpl.
  destruct (InsertStreamObjectBag _ _) as [[x l] g]. destruct l; [|done]. apply (IH (upd_proc _ s)).
Qed.

Lemma do_act_comm r1 r2 c b w a s :
  do_act (with_callout E r2) w a (set_hs c b s) =
  (s' ← do_act (with_callout E r1) w a s; Ok (set_hs c b s')).
Proof.
  destruct a; simpl; try done;
    unfold SendLocalResponse, SetRequestHeader, AddRequestHeader, RemoveRequestHeader,
      SetFilterState, SetRequestBody, SetResponseBody, IncrementCounterLabels, IncrementGauge,
      DecrementGauge, SetGauge, RecordHistogramLabels, SetMetadata;
    change (queued w (set_hs c b s)) with (queued w s); simpl; try (by repeat case_match).
  unfold SetStreamObject, getOrCreateBag. simpl s_f. simpl streamObjectNonce. simpl s_proc.
  destruct (if decide _ then None else _) as [x|]; [done|].
  rewrite (mint_bag_comm r1 r2 c b).
  destruct (mint_bag _ _ _) as [[[x k] s1]|]; [|done]. cbn.
  unfold SetFilterState. change (queued w (upd_f ?u (set_hs c b s1))) with (queued w (upd_f u s1)).
  by destruct (queued w _).
Qed.

Lemma do_query_comm {A} r1 r2 c b w (q : query A) s :
  do_query (with_callout E r2) w q (set_hs c b s) =
  let '(a, s') := do_query (with_callout E r1) w q s in (a, set_hs c b s').
Proof.
  destruct q; simpl; try done.
  - unfold GetStreamObject, GetFilterState. simpl.
    destruct (decide (streamObjectNonce (s_f s) = "")); simpl;
      [destruct (ev_filter_state E (s_tr s) StreamObjectIDKey); simpl; [case_decide|]|];
      simpl; try done; by destruct (LookupStreamObjectBag _ _).
  - unfold SetUpstreamOverrideHost. change (queued w (set_hs c b s)) with (queued w s).
    by destruct (queued w s).
Qed.

(** A callback's program depends neither on the state of the handoff nor on what Envoy
    would answer to another callout: it cannot start one. *)
Lemma run_started_comm r1 r2 c b w p s :
  calloutStarted (writer w s) = true ->
  run (with_callout E r2) w p (set_hs c b s) =
  (s' ← run (with_callout E r1) w p s; Ok (set_hs c b s')).
Proof.
  revert s. induction p as [|a k IH|A q k IH|req fn IHf k IH|reqs fn IHf k IH|next dn IHf k IH
                  |req fn IHf k IH|fn k IH]; intros s Hs; cbn [run]; unfold_callouts;
    change (writer w (set_hs c b s)) with (writer w s); try (by rewrite Hs).
  - done.
  - rewrite (do_act_comm r1 r2). destruct (do_act _ w a s) as [s1|] eqn:Ea; simpl; [|done].
    apply IH. apply do_act_ctl in Ea as [Hc _]. unfold writer in *. by injection Hc as ->.
  - rewrite (do_query_comm r1 r2). pose proof (do_query_ctl (with_callout E r1) w q s) as [Hc _].
    destruct (do_query _ w q s) as [x s1]. simpl in Hc. apply IH.
    unfold writer in *. by injection Hc as ->.
  - unfold Go. change (writer w (set_hs c b s)) with (writer w s). rewrite Hs.
    by destruct (w_goStarted (writer w s)).
Qed.

Lemma run_started_strip r w p s s' :
  calloutStarted (writer w s) = true -> run (with_callout E r) w p s = Ok s' ->
  stripFramingOnResume (s_f s') = stripFramingOnResume (s_f s).
Proof.
  intros Hw Hr. pose proof (run_started_comm r r (calloutState (s_f s)) (stripFramingOnResume (s_f s)) w p s Hw) as Hs.
  assert (set_hs (calloutState (s_f s)) (stripFramingOnResume (s_f s)) s = s) as Hsy by (by destruct s as [? []]).
  rewrite Hsy, Hr in Hs. injection Hs as Hs. by rewrite Hs.
Qed.

(** Asking again whether to pause changes nothing. *)
Lemma pause_again w s : pausePendingCallout w s = (false, s) \/ exists s', pausePendingCallout w s = (true, s').
Proof. unfold pausePendingCallout, cas. repeat case_match; simplify_eq; eauto. Qed.

Lemma OnRequestHeaders_plain r eos s :
  requestBodyHandler (cfg (s_f s)) = None -> onStreamFinalized (cfg (s_f s)) = None ->
  OnRequestHeaders (with_callout E r) eos s =
  (s1 ← run (with_callout E r) (length (s_ws s))
          (handler (cfg (s_f s)) (newRequestWithContext E (request_start E s))) (request_start E s);
   request_end (with_callout E r) (length (s_ws s)) s1).
Proof.
  intros Hb Hf. unfold OnRequestHeaders.
  match goal with |- context [newWriter _ ?y] => set (sa := y) end.
  assert (sa = if decide (reqID (s_f s) = "")
               then upd_f (set_reqID (ev_request_header E (s_tr s) "x-request-id")) s else s) as Hsa.
  { unfold sa. destruct (decide (reqID (s_f s) = "")); cbn; by rewrite Hb. }
  clearbody sa. assert (s_ws sa = s_ws s /\ cfg (s_f sa) = cfg (s_f s)) as [Hw Hc]
    by (rewrite Hsa; by case_decide).
  unfold request_start. rewrite <-Hsa. simpl. rewrite Hw, Hc.
  change (newRequestWithContext (with_callout E r)) with (newRequestWithContext E).
  destruct (run _ _ _ _) as [s1|] eqn:Er; simpl; [|done].
  apply run_frame in Er. injection Er as _ Hc1 _ _. simpl in Hc1. rewrite Hc in Hc1.
  assert (registerFinalized (with_callout E r) s1 = s1) as -> by (unfold registerFinalized; by rewrite Hc1, Hf).
  rewrite Hc1, Hb, bool_decide_false, !andb_false_r by by intros [? [=]].
  unfold request_end, call_requestBodyHandler. simpl.
  destruct (pause_again (length (s_ws s)) s1) as [Hp|[s2 Hp]]; rewrite Hp; [|done].
  rewrite Hc1, Hb. destruct (goStarted (s_f s1)) eqn:Hg; [done|].
  destruct eos; simpl; rewrite ?Hp, ?Hg; repeat case_match; done.
Qed.

(** The state in which Envoy is asked for the callout. *)
Definition callout_start (w : nat) (req : HTTPCalloutRequest) (fn : CalloutDelivery -> prog)
    (s : st) : st :=
  emit (CHttpCallout req TFilter) (start_callout w (upd_f (set_calloutFn (Some (w, fn))) s)).

Lemma run_one_callout sync w req fn k s :
  calloutStarted (writer w s) = false -> w_goStarted (writer w s) = false -> k HTTPCalloutInitSuccess None = PRet ->
  run (with_callout E (HTTPCalloutInitSuccess, sync)) w (PHTTPCallout req fn k) s =
  match sync with
  | Some d => calloutDone (with_callout E (HTTPCalloutInitSuccess, sync))
      (Some (run (with_callout E (HTTPCalloutInitSuccess, sync)) w (fn d))) (callout_start w req fn s)
  | None => Ok (callout_start w req fn s)
  end.
Proof.
  intros H1 H2 Hk. cbn [run]. unfold_callouts. rewrite H1, H2. cbn [orb].
  change (ev_callout (with_callout E (HTTPCalloutInitSuccess, sync)) _ _)
    with (HTTPCalloutInitSuccess, sync). cbn iota beta.
  fold (callout_start w req fn s). rewrite Hk. destruct sync; [|done]. by destruct (calloutDone _ _ _).
Qed.

(** The stream in which the handler of [OnRequestHeaders] starts. *)
Definition handler_start (s : st) : st :=
  let s := if decide (reqID (s_f s) = "")
           then upd_f (set_reqID (ev_request_header E (s_tr s) "x-request-id")) s else s in
  let s := match requestBodyHandler (cfg (s_f s)) with
           | Some _ =>
               upd_f (fun f => set_requestContentType (ev_request_header E (s_tr s) "content-type")
                        (set_requestContentEncoding (ev_request_header E (s_tr s) "content-encoding") f)) s
           | None => s
           end in
  (newWriter (mkWriter false false false) s).2.

(** A stream in which a writer can start a callout. *)
Record may_call (w : nat) (s : st) : Prop := {
  mc_started : calloutStarted (writer w s) = false;
  mc_go : w_goStarted (writer w s) = false;
  mc_direct : directWrite (writer w s) = false;
  mc_bound : w < length (s_ws s);
  mc_live : streamDone (s_f s) = false;
  mc_stream : goStarted (s_f s) = false;
  mc_reply : localReply (s_f s) = None \/ stopped (s_f s) = true;
}.

Lemma handler_start_ok s :
  streamDone (s_f s) = false -> goStarted (s_f s) = false ->
  (localReply (s_f s) = None \/ stopped (s_f s) = true) -> may_call (length (s_ws s)) (handler_start s).
Proof.
  intros Hd Hg Hls. unfold handler_start. case_decide; case_match; split; try done; unfold writer; cbn;
    rewrite ?lookup_app_r, ?Nat.sub_diag, ?length_app by lia; cbn; done || lia.
Qed.

Lemma may_call_ctl w s s' :
  ctl s' = ctl s -> frame s' = frame s -> (localReply (s_f s') = None \/ stopped (s_f s') = true) ->
  may_call w s -> may_call w s'.
Proof.
  intros Hc Hf Hr [H1 H2 H3 H4 H5 H6 _]. injection Hc as Hw _ _ Hg _ _ _ _. injection Hf as _ _ Hd _.
  by split; unfold writer in *; rewrite ?Hw, ?Hg, ?Hd.
Qed.

(** Programs that change and read the stream, and whose last action is a callout: nothing
    follows when Envoy accepts it. *)
Inductive ends_in_callout : prog -> Prop :=
  | ec_call req fn k : k HTTPCalloutInitSuccess None = PRet -> ends_in_callout (PHTTPCallout req fn k)
  | ec_act a p : ends_in_callout p -> ends_in_callout (PAct a p)
  | ec_query A (q : query A) k : (forall a, ends_in_callout (k a)) -> ends_in_callout (PQuery q k).

(** Up to the callout it does not matter what Envoy answers to it. *)
Lemma run_to_callout w p : ends_in_callout p -> forall s, may_call w s ->
  (exists msg, forall r, run (with_callout E r) w p s = Panic msg) \/
  exists s0 req fn k, k HTTPCalloutInitSuccess None = PRet /\ may_call w s0 /\ frame s0 = frame s /\
    forall r, run (with_callout E r) w p s = run (with_callout E r) w (PHTTPCallout req fn k) s0.
Proof.
  induction 1 as [req fn k Hk|a p Hp IH|A q k Hp IH]; intros s Hm.
  - right. by exists s, req, fn, k.
  - assert (Hq : queued w s = true) by (unfold queued; by rewrite (mc_direct _ _ Hm)).
    assert (Hr : forall r1 r2, do_act (with_callout E r2) w a s = do_act (with_callout E r1) w a s).
    { intros r1 r2. by destruct a. }
    set (r0 := (HTTPCalloutInitSuccess, @None CalloutDelivery)).
    destruct (do_act (with_callout E r0) w a s) as [s1|msg] eqn:Ea.
    + destruct (IH s1) as [[msg Hmsg]|(s0 & req & fn & k & Hk & Hm0 & Hf & Hrun)].
      * apply do_act_ctl in Ea as Hc. apply do_act_frame in Ea as Hf.
        eapply may_call_ctl; [apply Hc | exact Hf | | exact Hm].
        eapply do_act_reply_stops; [exact Hq | apply Hm | exact Ea].
      * left. exists msg. intros r. cbn [run]. rewrite (Hr r0), Ea. apply Hmsg.
      * right. exists s0, req, fn, k. split_and!; [done | done | by rewrite Hf, (do_act_frame _ _ _ _ _ Ea) |].
        intros r. cbn [run]. rewrite (Hr r0), Ea. apply Hrun.
    + left. exists msg. intros r. cbn [run]. by rewrite (Hr r0), Ea.
  - assert (Hq : queued w s = true) by (unfold queued; by rewrite (mc_direct _ _ Hm)).
    assert (Hr : forall r1 r2, do_query (with_callout E r2) w q s = do_query (with_callout E r1) w q s).
    { intros r1 r2. by destruct q. }
    set (r0 := (HTTPCalloutInitSuccess, @None CalloutDelivery)).
    pose proof (do_query_ctl (with_callout E r0) w q s) as [Hc _].
    pose proof (do_query_frame (with_callout E r0) w q s) as Hf.
    pose proof (do_query_reply_stops (with_callout E r0) w q s Hq (mc_reply _ _ Hm)) as Hrs.
    destruct (do_query (with_callout E r0) w q s) as [x s1] eqn:Ea. cbn [snd] in Hc, Hf, Hrs.
    destruct (IH x s1) as [[msg Hmsg]|(s0 & req & fn & k0 & Hk & Hm0 & Hf0 & Hrun)].
    + by eapply may_call_ctl.
    + left. exists msg. intros r. cbn [run]. rewrite (Hr r0), Ea. apply Hmsg.
    + right. exists s0, req, fn, k0. split_and!; [done | done | congruence |].
      intros r. cbn [run]. rewrite (Hr r0), Ea. apply Hrun.
Qed.

(** [OnRequestHeaders] without a finalizer, when the body handler is not called in it. *)
Definition strip_for_body (eos : bool) (s : st) : st :=
  if awaits_body eos s && mutableRequestBody (cfg (s_f s)) then upd_f (set_stripFramingOnResume true) s else s.

Lemma OnRequestHeaders_nobody r eos s :
  onStreamFinalized (cfg (s_f s)) = None -> (eos = false \/ requestBodyHandler (cfg (s_f s)) = None) ->
  OnRequestHeaders (with_callout E r) eos s =
  (s1 ← run (with_callout E r) (length (s_ws s))
          (handler (cfg (s_f s)) (newRequestWithContext E (handler_start s))) (handler_start s);
   Ok (request_decision (with_callout E r) (length (s_ws s)) eos (strip_for_body eos s1))).
Proof.
  intros Hf Hb. rewrite OnRequestHeaders_halves. unfold request_handlers.
  match goal with |- context [newWriter _ ?y] => set (sa := y) end.
  assert (Hsa : (newWriter (mkWriter false false false) sa).2 = handler_start s) by done.
  assert (s_ws sa = s_ws s /\ cfg (s_f sa) = cfg (s_f s)) as [Hw Hc] by (unfold sa; case_match; by case_decide).
  cbn [newWriter]. cbn [newWriter snd] in Hsa. rewrite Hsa, Hw.
  assert (Hch : cfg (s_f (handler_start s)) = cfg (s_f s)) by (unfold handler_start; case_decide; by case_match).
  rewrite Hch.
  change (newRequestWithContext (with_callout E r)) with (newRequestWithContext E).
  destruct (run _ _ _ _) as [s1|] eqn:Er; cbn [mbind res_bind]; [|done].
  assert (Hc1 : cfg (s_f s1) = cfg (s_f s)) by (apply run_frame, (f_equal (fun x => x.1.1.2)) in Er; etrans; [exact Er|exact Hch]).
  assert (registerFinalized (with_callout E r) s1 = s1) as -> by (unfold registerFinalized; by rewrite Hc1, Hf).
  fold (strip_for_body eos s1). assert (Hcs : cfg (s_f (strip_for_body eos s1)) = cfg (s_f s))
    by (unfold strip_for_body; by case_match).
  case_match; [|done]. unfold call_requestBodyHandler. rewrite Hcs. by destruct Hb as [-> | ->].
Qed.

(** After an early delivery the request callback flushes itself. *)
Lemma request_end_early r w s :
  calloutStarted (writer w s) = true -> goStarted (s_f s) = false -> calloutState (s_f s) = calloutStateActive ->
  let s' := flush (with_callout E r) false (set_cs calloutStateFlushed s) in
  request_end (with_callout E r) w (handoff (with_callout E r) s) =
    Ok (if stopped (s_f s') then HeadersStatusStop else HeadersStatusContinue, s').
Proof.
  intros Hw Hg Hc.
  assert (handoff (with_callout E r) s = set_cs calloutStateDone s) as ->.
  { rewrite handoff_not_paused by congruence. unfold cas. by rewrite decide_True. }
  unfold request_end, pausePendingCallout, cas.
  change (writer w (set_cs calloutStateDone s)) with (writer w s). rewrite Hw, decide_False by done.
  change (goStarted (s_f (set_cs calloutStateDone s))) with (goStarted (s_f s)). rewrite Hg.
  unfold flushCompletedCallout, cas.
  change (writer w (set_cs calloutStateDone s)) with (writer w s). by rewrite Hw, decide_True by done.
Qed.

(** A flush that resumes makes the calls of one that does not, and the resume. *)
Lemma flush_resume_tr r1 r2 s :
  (localReply (s_f s) = None \/ stopped (s_f s) = true) ->
  s_tr (flush (with_callout E r2) true s) =
  s_tr (flush (with_callout E r1) false s) ++
    (if stopped (s_f (flush (with_callout E r1) false s)) then [] else [CContinueRequest]).
Proof.
  intros Hst. destruct (localReply (s_f s)) as [lr|] eqn:Hl.
  - rewrite !(flush_reply _ _ _ lr) by done. simpl.
    destruct Hst as [?|Hst]; [done|]. by rewrite Hst, app_nil_r.
  - rewrite flush_filter, !flush_trace by done. simpl. by rewrite app_nil_r, <-!app_assoc.
Qed.

(** The value of the framing flag when the stream is decided. *)
Lemma strip_for_body_hs eos s :
  exists b, forall s', cfg (s_f s') = cfg (s_f s) -> stripFramingOnResume (s_f s') = stripFramingOnResume (s_f s) ->
    strip_for_body eos s' = set_hs (calloutState (s_f s')) b s'.
Proof.
  exists (if awaits_body eos s && mutableRequestBody (cfg (s_f s)) then true else stripFramingOnResume (s_f s)).
  intros s' Hc Hs. unfold strip_for_body, awaits_body. rewrite Hc. destruct (_ && _ && _ && _); [by destruct s' as [? []]|].
  rewrite <-Hs. by destruct s' as [? []].
Qed.

Lemma request_decision_early r w eos s :
  calloutStarted (writer w s) = true -> goStarted (s_f s) = false -> calloutState (s_f s) = calloutStateDone ->
  (request_decision (with_callout E r) w eos s).2 = flush (with_callout E r) false (set_cs calloutStateFlushed s).
Proof.
  intros Hw Hg Hc. unfold request_decision, pausePendingCallout, cas. rewrite Hw, decide_False by by rewrite Hc.
  cbn [orb]. rewrite Hg. unfold flushCompletedCallout, cas. by rewrite Hw, decide_True.
Qed.

(** C6: it does not matter when the response of a callout arrives.  Let the handler do anything
    that is neither a callout nor a goroutine and then make one callout as its last action.  If
    the response is delivered before [HttpCallout] returns, [OnRequestHeaders] applies the
    effects of handler and callback itself; if it is delivered after the stream has paused,
    [OnRequestHeaders] answers Stop and the delivery then makes exactly the same calls, followed
    by the [ContinueRequest] that resumes the stream unless the request was answered.  This is
    for a filter without a finalized callback, whose registration comes between the two, and for
    a request whose body handler does not run in [OnRequestHeaders]: there is none, or the
    request has a body (a body handler of a request without one runs only if the response has
    already arrived). *)
Theorem early_and_late_callout_agree d eos s status s1 :
  (forall r, ends_in_callout (handler (cfg (s_f s)) r)) -> (eos = false \/ requestBodyHandler (cfg (s_f s)) = None) ->
  onStreamFinalized (cfg (s_f s)) = None -> streamDone (s_f s) = false ->
  goStarted (s_f s) = false -> (localReply (s_f s) = None \/ stopped (s_f s) = true) ->
  OnRequestHeaders (with_callout E (HTTPCalloutInitSuccess, Some d)) eos s = Ok (status, s1) ->
  exists s2 s3,
    OnRequestHeaders (with_callout E (HTTPCalloutInitSuccess, None)) eos s =
      Ok (HeadersStatusStop, s2) /\
    OnHttpCalloutDone (with_callout E (HTTPCalloutInitSuccess, None)) d s2 = Ok s3 /\
    s_tr s3 = s_tr s1 ++ (if stopped (s_f s1) then [] else [CContinueRequest]).
Proof.
  intros Hh Hb Hfin Hd Hg Hls. rewrite !OnRequestHeaders_nobody by done.
  pose proof (handler_start_ok s Hd Hg Hls) as Hm. set (w := length (s_ws s)) in *.
  destruct (run_to_callout w _ (Hh (newRequestWithContext E (handler_start s))) _ Hm)
    as [[msg Hmsg]|(s0 & req & fn & k & Hk & [A1 A2 _ A5 A3 A4 A6] & _ & Hrun)]; [by rewrite Hmsg|].
  rewrite !Hrun, !run_one_callout by done. clear Hrun Hm.
  set (sx := callout_start w req fn s0).
  assert (calloutStarted (writer w sx) = true) as B1.
  { unfold sx, writer. simpl. rewrite list_lookup_alter_eq. by apply lookup_lt_is_Some_2 in A5 as [x ->]. }
  unfold calloutDone at 1. assert (streamDone (s_f sx) = false) as -> by done.
  set (sy := upd_f (set_calloutFn None) sx).
  destruct (run _ w (fn d) sy) as [sb|] eqn:Er; cbn [mbind res_bind]; [|done].
  pose proof (fun c b => run_started_comm (HTTPCalloutInitSuccess, Some d) (HTTPCalloutInitSuccess, None)
    c b w (fn d) sy B1) as Hcomm. rewrite Er in Hcomm. cbn [mbind res_bind] in Hcomm.
  destruct (strip_for_body_hs eos sx) as [b Hstrip].
  assert (Hsb : stripFramingOnResume (s_f sb) = stripFramingOnResume (s_f sy)) by exact (run_started_strip _ w _ sy sb B1 Er).
  assert (localReply (s_f sb) = None \/ stopped (s_f sb) = true) as Hst.
  { refine (run_started_preserves _ (fun x => localReply (s_f x) = None \/ stopped (s_f x) = true)
      w _ sy _ (do_act_reply_stops _ w) (fun A q x => do_query_reply_stops _ w q x) B1 _ Er).
    exact A6. }
  assert (Hcf : cfg (s_f sb) = cfg (s_f sx)) by (by apply run_frame, (f_equal (fun x => x.1.1.2)) in Er).
  apply run_started in Er as [Hc _]; [|done]. injection Hc as Hws Hfn Hcs Hg2 _ _ _ _.
  assert (handoff (with_callout E (HTTPCalloutInitSuccess, Some d)) sb = set_cs calloutStateDone sb) as ->.
  { rewrite handoff_not_paused by congruence. unfold cas. by rewrite decide_True. }
  rewrite (Hstrip (set_cs calloutStateDone sb)) by done. rewrite (Hstrip sx) by done.
  intros [= Hs1]. apply (f_equal snd) in Hs1. cbn [snd] in Hs1. rewrite request_decision_early in Hs1;
    [|unfold writer; cbn; rewrite Hws; exact B1 | exact (eq_trans Hg2 A4) | done]. subst s1.
  set (sp := set_hs calloutStatePaused b sx).
  assert (Hpause : request_decision (with_callout E (HTTPCalloutInitSuccess, None)) w eos (set_hs (calloutState (s_f sx)) b sx) =
            (HeadersStatusStop, sp)).
  { unfold request_decision, pausePendingCallout, cas. change (writer w (set_hs _ b sx)) with (writer w sx).
    by rewrite B1, decide_True. }
  rewrite Hpause. eexists sp, _. split; [done|].
  split; [|exact (flush_resume_tr _ (HTTPCalloutInitSuccess, None) (set_hs calloutStateFlushed b sb) Hst)].
  unfold OnHttpCalloutDone, calloutDone. change (streamDone (s_f sp)) with (streamDone (s_f s0)). rewrite A3.
  change (calloutFn (s_f sp)) with (Some (w, fn)). cbn [fmap option_fmap option_map fst snd].
  change (upd_f (set_calloutFn None) sp) with (set_hs calloutStatePaused b sy). by rewrite Hcomm.
Qed.
End early_late.

(** ** After the stream has completed *)

Section complete.
Context (E : Envoy).

Lemma OnStreamComplete_done s s' : OnStreamComplete E s = Ok s' -> streamDone (s_f s') = true.
Proof.
  unfold OnStreamComplete. intros Hok. inv_bind. injection Hok as <-.
  repeat (case_match; simpl); done.
Qed.

(** C7: once [OnStreamComplete] has run, every callout callback that still arrives, for a
    single callout, a batch slot, a sequence step or a gRPC stream, returns without running
    user code, without a call into Envoy and without changing the filter. *)
Theorem late_callbacks_are_inert s s1 :
  OnStreamComplete E s = Ok s1 -> 0 < ev_stack E ->
  (forall d, OnHttpCalloutDone E d s1 = Ok s1) /\
  (forall b i d, exists s2, OnBatchCalloutDone E b i d s1 = Ok s2 /\ s_tr s2 = s_tr s1 /\ s_f s2 = s_f s1) /\
  (forall q d, exists s2, OnSequenceCalloutDone E q d s1 = Ok s2 /\ s_tr s2 = s_tr s1 /\ s_f s2 = s_f s1) /\
  (forall g e, exists s2, OnGrpcStreamEvent E g e s1 = Ok s2 /\ s_tr s2 = s_tr s1 /\ s_f s2 = s_f s1).
Proof.
  intros Hd%OnStreamComplete_done Hst. repeat split; intros *.
  - unfold OnHttpCalloutDone, calloutDone. by rewrite Hd.
  - unfold OnBatchCalloutDone, batch_finish. destruct (s_batches s1 !! b) as [x|]; [|by eexists].
    case_match; [by eexists|]. case_match; [by eexists|]. simpl. rewrite Hd. by eexists.
  - unfold OnSequenceCalloutDone. destruct (s_seqs s1 !! q) as [x|] eqn:Hq; [|by eexists].
    destruct (ev_stack E) as [|n]; [lia|]. simpl. rewrite list_lookup_alter_eq, Hq. simpl.
    rewrite Hd, orb_true_r. by eexists.
  - unfold OnGrpcStreamEvent. destruct (s_grpcs s1 !! g) as [c|] eqn:Hg; [|by eexists].
    destruct e; simpl; try (by eexists); unfold grpc_finish; rewrite Hg; simpl;
      (case_match; [by eexists|]); rewrite Hd; by eexists.
Qed.

(** ** Settled batches *)

(** A batch that still waits for [n] of its slots, with responses so far [rs]. *)
Definition waiting (b : nat) (x : allSettledBatch) (rs : list HTTPCalloutAllSettledResponse)
    (n : nat) (s : st) : Prop :=
  s_batches s !! b = Some (mkBatch (b_w x) (b_fn x) rs (Z.of_nat n) false).

Lemma OnBatchCalloutDone_wait b x rs n i d s :
  waiting b x rs (S (S n)) s ->
  exists s', OnBatchCalloutDone E b i d s = Ok s' /\
    waiting b x (<[i := settled_done d]> rs) (S n) s' /\
    s' = set_s_batches (s_batches s') s.
Proof.
  intros Hb. unfold OnBatchCalloutDone, batch_finish. rewrite Hb. cbn [b_flushed b_remaining].
  rewrite (proj2 (Z.ltb_lt _ _)) by lia. eexists. split; [done|]. split.
  - unfold waiting. simpl. rewrite list_lookup_insert_eq by by eapply lookup_lt_Some.
    do 2 f_equal. lia.
  - by destruct s.
Qed.

Lemma OnBatchCalloutDone_last b x rs i d s :
  waiting b x rs 1 s -> streamDone (s_f s) = false ->
  OnBatchCalloutDone E b i d s =
  (let rs := <[i := settled_done d]> rs in
   s ← run E (b_w x) (b_fn x rs)
         (set_s_batches (<[b := mkBatch (b_w x) (b_fn x) rs 0 true]> (s_batches s)) s);
   Ok (handoff E s)).
Proof.
  intros Hb Hd. unfold waiting in Hb. unfold OnBatchCalloutDone, batch_finish. rewrite !Hb.
  cbn [b_flushed b_remaining b_w b_fn b_responses].
  change (Z.of_nat 1 - 1)%Z with 0%Z. cbn iota beta zeta delta [Z.ltb Z.compare].
  change (streamDone (s_f (set_s_batches _ s))) with (streamDone (s_f s)). rewrite Hd.
  destruct (run E _ _ _) as [s1|] eqn:Er; simpl; [|done].
  apply run_frame in Er. injection Er as _ _ Hd1 _. simpl in Hd1. by rewrite Hd1, Hd.
Qed.

(** The slots after the deliveries [ds]. *)
Definition fill (rs : list HTTPCalloutAllSettledResponse) (ds : list (nat * CalloutDelivery)) :
    list HTTPCalloutAllSettledResponse :=
  foldl (fun rs x => <[x.1 := settled_done x.2]> rs) rs ds.

Lemma fill_length rs ds : length (fill rs ds) = length rs.
Proof.
  revert rs. induction ds as [|[i d] ds IH]; intros rs; [done|]. simpl. unfold fill in *. simpl.
  by rewrite IH, length_insert.
Qed.

Lemma fill_other rs ds i : i ∉ ds.*1 -> fill rs ds !! i = rs !! i.
Proof.
  revert rs. induction ds as [|[j d] ds IH]; intros rs Hi; [done|].
  rewrite fmap_cons, not_elem_of_cons in Hi. unfold fill in *. simpl.
  rewrite IH by apply Hi. apply list_lookup_insert_ne. simpl in Hi. naive_solver.
Qed.

Lemma fill_lookup rs ds i d :
  NoDup ds.*1 -> (i, d) ∈ ds -> i < length rs -> fill rs ds !! i = Some (settled_done d).
Proof.
  intros Hnd. revert rs. induction ds as [|[j e] ds IH]; intros rs Hin Hi; [by apply elem_of_nil in Hin|].
  rewrite fmap_cons, NoDup_cons in Hnd. destruct Hnd as [Hj Hnd].
  apply elem_of_cons in Hin as [[= <- <-]|Hin].
  - change (fill (<[i := settled_done d]> rs) ds !! i = Some (settled_done d)).
    rewrite fill_other by done. by apply list_lookup_insert_eq.
  - apply (IH Hnd (<[j := settled_done e]> rs)); [done|]. by rewrite length_insert.
Qed.

Lemma deliver_spec b x ds : forall rs s,
  waiting b x rs (length ds) s -> ds <> [] -> streamDone (s_f s) = false ->
  exists s0, s0 = set_s_batches (s_batches s0) s /\
    s_batches s0 !! b = Some (mkBatch (b_w x) (b_fn x) (fill rs ds) 0 true) /\
    deliver E b ds s =
      (s1 ← run E (b_w x) (b_fn x (fill rs ds)) s0; Ok (handoff E s1)).
Proof.
  induction ds as [|[i d] ds IH]; intros rs s Hw Hne Hd; [done|]. clear Hne.
  destruct ds as [|[j e] ds].
  - exists (set_s_batches (<[b := mkBatch (b_w x) (b_fn x) (fill rs [(i, d)]) 0 true]> (s_batches s)) s).
    split_and!; [by destruct s| |].
    + simpl. apply list_lookup_insert_eq. by eapply lookup_lt_Some.
    + cbn [deliver]. rewrite (OnBatchCalloutDone_last b x rs) by done. cbn [fill foldl fst snd].
      by destruct (run E (b_w x) _ _).
  - destruct (OnBatchCalloutDone_wait b x rs (length ds) i d s) as (s' & H1 & H2 & H3); [done|].
    destruct (IH (<[i := settled_done d]> rs) s') as (s0 & H4 & H5 & H6); [done|done|by rewrite H3|].
    exists s0. split_and!; [by rewrite H4, H3; destruct s|done|].
    cbn [deliver]. rewrite H1. simpl. exact H6.
Qed.

(** C8: [HTTPCalloutAllSettled] calls back exactly once, with every slot in request order.
    For a batch of [n] pending callouts that complete in any order, the deliveries run the
    batch callback once, after the last one, on the list whose slot [i] is the response of
    request [i]; a further delivery to the batch changes nothing. *)
Theorem all_settled_once_in_order b x n ds s :
  waiting b x (replicate n settled_zero) n s -> ds.*1 ≡ₚ seq 0 n -> 0 < n ->
  streamDone (s_f s) = false -> calloutStarted (writer (b_w x) s) = true ->
  exists s0 rs, s0 = set_s_batches (s_batches s0) s /\ length rs = n /\
    (forall i d, (i, d) ∈ ds -> rs !! i = Some (settled_done d)) /\
    deliver E b ds s = (s1 ← run E (b_w x) (b_fn x rs) s0; Ok (handoff E s1)) /\
    forall s1 i d, deliver E b ds s = Ok s1 -> OnBatchCalloutDone E b i d s1 = Ok s1.
Proof.
  intros Hw Hp Hn Hd Hst.
  assert (length ds = n) as Hlen by (rewrite <-(length_fmap fst), Hp; apply length_seq).
  assert (NoDup ds.*1) as Hnd by (rewrite Hp; apply NoDup_seq).
  rewrite <-Hlen in Hw at 2.
  destruct (deliver_spec b x ds _ s Hw) as (s0 & H0 & Hb & Hdel); [by intros ->; simpl in *; lia|done|].
  exists s0, (fill (replicate n settled_zero) ds). split_and!; [done| | |done|].
  - by rewrite fill_length, length_replicate.
  - intros i d Hin. apply fill_lookup; [done..|]. rewrite length_replicate.
    assert (i ∈ seq 0 n) as Hi by (rewrite <-Hp; apply list_elem_of_fmap; by exists (i, d)).
    apply elem_of_seq in Hi. lia.
  - intros s1 i d. rewrite Hdel. destruct (run E _ _ _) as [s2|] eqn:Er; simpl; [|done].
    intros [= <-]. apply run_started in Er as [Hc _]; [|by rewrite H0].
    injection Hc as _ _ _ _ Hbs _ _ _.
    assert (s_batches (handoff E s2) = s_batches s2) as Hh.
    { unfold handoff, cas. repeat case_decide; simpl; [|done|done].
      pose proof (flush_ctl E true (set_cs calloutStateFlushed s2)) as Hc.
      by injection Hc as _ _ _ _ -> _ _ _. }
    unfold OnBatchCalloutDone, batch_finish. by rewrite Hh, Hbs, Hb.
Qed.

(** ** Sequences *)

(** Deliveries to sequence [q], one after the other. *)
Fixpoint deliver_seq (q : nat) (ds : list CalloutDelivery) (s : st) : res st :=
  match ds with
  | [] => Ok s
  | d :: ds => s ← OnSequenceCalloutDone E q d s; deliver_seq q ds s
  end.

(** The calls of a sequence. *)
Definition seq_calls (q : nat) (reqs : list HTTPCalloutRequest) : list call :=
  (fun r => CHttpCallout r (TSeq q)) <$> reqs.

Lemma OnSequenceCalloutDone_next q w next dn rs r d s :
  s_seqs s !! q = Some (mkSeq w next dn rs false) -> streamDone (s_f s) = false ->
  0 < ev_stack E -> (forall tr req, ev_callout E tr req = (HTTPCalloutInitSuccess, None)) ->
  next (S (length rs)) (Some (settled_done d)) = Some r ->
  OnSequenceCalloutDone E q d s =
    Ok (emit (CHttpCallout r (TSeq q)) (seq_push q (settled_done d) s)).
Proof.
  intros Hq Hd Hst Hasync Hn. unfold OnSequenceCalloutDone. rewrite Hq.
  destruct (ev_stack E) as [|n]; [lia|]. cbn [seq_step].
  change (s_seqs (seq_push q (settled_done d) s)) with
    (alter (fun x => mkSeq (sq_w x) (sq_next x) (sq_done x) (sq_responses x ++ [settled_done d])
              (sq_finished x)) q (s_seqs s)).
  rewrite list_lookup_alter_eq, Hq. cbn. rewrite Hd, length_app, Nat.add_1_r, Hn, Hasync. done.
Qed.

Lemma OnSequenceCalloutDone_end q w next dn rs d s :
  s_seqs s !! q = Some (mkSeq w next dn rs false) -> streamDone (s_f s) = false ->
  0 < ev_stack E -> next (S (length rs)) (Some (settled_done d)) = None ->
  exists s0, s_f s0 = s_f s /\ s_tr s0 = s_tr s /\ s_ws s0 = s_ws s /\
    OnSequenceCalloutDone E q d s =
      (s1 ← run E w (dn (rs ++ [settled_done d])) s0; Ok (handoff E s1)).
Proof.
  intros Hq Hd Hst Hn. unfold OnSequenceCalloutDone. rewrite Hq.
  destruct (ev_stack E) as [|n]; [lia|]. cbn [seq_step].
  change (s_seqs (seq_push q (settled_done d) s)) with
    (alter (fun x => mkSeq (sq_w x) (sq_next x) (sq_done x) (sq_responses x ++ [settled_done d])
              (sq_finished x)) q (s_seqs s)).
  rewrite list_lookup_alter_eq, Hq. cbn. rewrite Hd, length_app, Nat.add_1_r, Hn. unfold seq_finish.
  simpl. rewrite list_lookup_alter_eq, Hq. simpl. rewrite Hd.
  match goal with |- context [run E w _ ?x] => exists x end.
  split_and!; [done..|].
  destruct (run E w _ _) as [s1|] eqn:Er; simpl; [|done].
  apply run_frame in Er. injection Er as _ _ Hd1 _. simpl in Hd1. by rewrite Hd1, Hd.
Qed.

(** [HTTPCalloutSequence] is sequential and complete.  When the step function walks a
    list of requests and Envoy accepts each callout, one callout is outstanding at a time:
    each delivery starts the next request and the last one runs the completion callback
    exactly once, with all the responses in request order. *)
Theorem sequence_runs_in_order q w dn reqs ds : forall rs s,
  s_seqs s !! q = Some (mkSeq w (fun i _ => reqs !! i) dn rs false) ->
  streamDone (s_f s) = false -> 0 < ev_stack E ->
  (forall tr req, ev_callout E tr req = (HTTPCalloutInitSuccess, None)) ->
  ds <> [] -> length rs + length ds = length reqs ->
  exists s0, s_f s0 = s_f s /\ s_ws s0 = s_ws s /\
    s_tr s0 = s_tr s ++ seq_calls q (drop (S (length rs)) reqs) /\
    deliver_seq q ds s =
      (s1 ← run E w (dn (rs ++ (settled_done <$> ds))) s0; Ok (handoff E s1)).
Proof.
  induction ds as [|d ds IH]; intros rs s Hq Hd Hst Hasync Hne Hlen; [done|].
  destruct ds as [|d' ds].
  - destruct (OnSequenceCalloutDone_end q w _ dn rs d s Hq Hd Hst) as (s0 & H1 & H2 & H3 & H4).
    { apply lookup_ge_None_2. simpl in Hlen. lia. }
    exists s0. rewrite drop_ge by (simpl in *; lia). unfold seq_calls. rewrite app_nil_r.
    split_and!; [done..|]. cbn [deliver_seq]. rewrite H4.
    by destruct (run E w _ _).
  - assert (S (length rs) < length reqs) as [r Hr]%lookup_lt_is_Some_2 by (simpl in *; lia).
    cbn [deliver_seq]. rewrite (OnSequenceCalloutDone_next q w (fun i _ => reqs !! i) dn rs r) by done.
    destruct (IH (rs ++ [settled_done d])
      (emit (CHttpCallout r (TSeq q)) (seq_push q (settled_done d) s))) as (s0 & H1 & H2 & H3 & H4).
    { simpl. by rewrite list_lookup_alter_eq, Hq. }
    all: try done. { rewrite length_app. simpl in *. lia. }
    exists s0. split_and!; [done..| |].
    + rewrite H3. simpl. rewrite length_app, Nat.add_1_r, <-app_assoc. f_equal.
      by rewrite (drop_S _ _ _ Hr).
    + etrans; [exact H4|]. by rewrite <-app_assoc.
Qed.
End complete.

(** ** Witnesses *)

(** A handler that sets a header, makes one callout and sets another header when it returns. *)
Definition calling : st :=
  newStream (onlyRequest (fun r => PAct (ASetRequestHeader "asked" "1")
    (one_callout demo_req (fun _ => acts [ASetRequestHeader "user" "u"]) r))).

Lemma early_and_late_callout_agree_witness :
  let E := simEnvoy [] (0%Z, None) in
  let r := OnRequestHeaders (with_callout E (HTTPCalloutInitSuccess, Some demo_delivery)) true calling in
  exists s2 s3,
    OnRequestHeaders (with_callout E (HTTPCalloutInitSuccess, None)) true calling = Ok (HeadersStatusStop, s2) /\
    OnHttpCalloutDone (with_callout E (HTTPCalloutInitSuccess, None)) demo_delivery s2 = Ok s3 /\
    s_tr s3 = s_tr (out r) ++ (if stopped (s_f (out r)) then [] else [CContinueRequest]) /\
    mutations (s_tr (out r)) = [CReqHeaderSet "asked" "1"; CReqHeaderSet "user" "u"].
Proof.
  intros E r. assert (r = Ok (HeadersStatusContinue, out r)) as H by (vm_compute; reflexivity).
  destruct (early_and_late_callout_agree E demo_delivery true calling HeadersStatusContinue (out r)
    (fun _ => ec_act _ _ (ec_call _ _ _ eq_refl)) (or_intror eq_refl) eq_refl eq_refl eq_refl
    (or_introl eq_refl) H) as (s2 & s3 & H1 & H2 & H3).
  exists s2, s3. split; [exact H1|]. split; [exact H2|]. split; [exact H3|]. vm_compute. reflexivity.
Defined.

Lemma late_callbacks_are_inert_witness :
  let E := simEnvoy [] (0%Z, None) in
  let r := (s ← OnStreamComplete E paused_stream; Ok (tt, s)) in
  OnHttpCalloutDone E demo_delivery (out r) = Ok (out r).
Proof.
  intros E r. assert (OnStreamComplete E paused_stream = Ok (out r)) as H by (vm_compute; reflexivity).
  apply (late_callbacks_are_inert E paused_stream (out r) H). simpl. lia.
Defined.

(** A stream that has started a batch of two callouts. *)
Definition batch_stream : st :=
  out (OnRequestHeaders (simEnvoy [] (0%Z, None)) true
         (newStream (onlyRequest (fun _ =>
            PHTTPCalloutAllSettled [demo_req; demo_req]
              (fun rs => acts [ALog (Z.of_nat (length rs)) "settled"]) PRet)))).

Definition batch_of (s : st) : allSettledBatch :=
  match s_batches s !! 0 with Some x => x | None => mkBatch 0 (fun _ => PRet) [] 0 false end.

Lemma all_settled_once_in_order_witness :
  let E := simEnvoy [] (0%Z, None) in
  exists s0 rs, length rs = 2 /\
    deliver E 0 [(1, demo_delivery); (0, demo_delivery)] batch_stream =
      (s1 ← run E (b_w (batch_of batch_stream)) (b_fn (batch_of batch_stream) rs) s0;
       Ok (handoff E s1)).
Proof.
  intros E.
  destruct (all_settled_once_in_order E 0 (batch_of batch_stream) 2
    [(1, demo_delivery); (0, demo_delivery)] batch_stream) as (s0 & rs & _ & H1 & _ & H2 & _);
    [reflexivity|apply perm_swap|lia|reflexivity|reflexivity|].
  exists s0, rs. split; [exact H1|exact H2].
Defined.

(** A stream that has started a sequence of two callouts. *)
Definition sequence_stream : st :=
  out (OnRequestHeaders (simEnvoy [] (0%Z, None)) true
         (newStream (onlyRequest (fun _ =>
            PHTTPCalloutSequence (fun i _ => [demo_req; demo_req] !! i)
              (fun rs => acts [ALog (Z.of_nat (length rs)) "done"]) PRet)))).

Lemma sequence_runs_in_order_witness :
  let E := simEnvoy [] (0%Z, None) in
  exists s0, s_tr s0 = s_tr sequence_stream ++ [CHttpCallout demo_req (TSeq 0)] /\
    deliver_seq E 0 [demo_delivery; demo_delivery] sequence_stream =
      (s1 ← run E 0 (acts [ALog 2 "done"]) s0; Ok (handoff E s1)).
Proof.
  intros E.
  destruct (sequence_runs_in_order E 0 0 (fun rs => acts [ALog (Z.of_nat (length rs)) "done"])
    [demo_req; demo_req] [demo_delivery; demo_delivery] [] sequence_stream)
    as (s0 & _ & _ & H1 & H2); [reflexivity|reflexivity|simpl; lia|done|done|done|].
  exists s0. split; [exact H1|exact H2].
Defined.
