(* ===== verification/Finalized.v ===== *)
(** * up/stream_finalized.go: the finalized callback of a stream

    The filter deposits an entry in a process-wide registry ([registerFinalized] in
    Filter.v); the access logger registered under the filter's name takes it when Envoy
    logs the end of the stream, builds a [FinalizedInfo], runs the user's callback on the
    stream's context and drops the stream's object bag.  The entry points into the stream's
    filter, so the logger works on the state of the whole process: every live filter and the
    registries. *)
From stdpp Require Import base list gmap strings.
From Stdlib Require Import ZArith Lia.
From S2P Require Import Prelude Async StreamObject Envoy Grpc FilterState Filter FilterFacts FlushProps.

(** down/access_logger.go: [AccessLogType]. *)
Definition AccessLogTypeDownstreamEnd : Z := 6.

(** The attributes [OnLog] reads. *)
Inductive log_attr :=
  | ResponseCodeDetails | UpstreamTransportFailureReason | UpstreamLocalAddress
  | UpstreamAddress | RequestProtocol.

(** What an [AccessLoggerHandle] answers; [None] for a missing value. *)
Record AccessLoggerHandle := mkLogHandle {
  lh_header : string -> option string;
  lh_timing : TimingInfo;
  lh_bytes : BytesInfo;
  lh_code : Z;
  lh_flags : Z;
  lh_pool : Z;
  lh_attempts : Z;
  lh_sampled : bool;
  lh_attr : log_attr -> option string;
  lh_trace : option string;
  lh_span : option string;
  lh_reply : option string;
}.

(** The live filters, the process-wide registries and the finalized callbacks run so far. *)
Record world := mkWorld {
  wd_filters : gmap nat filter;
  wd_proc : process;
  wd_tr : list call;
}.

(** [if v, ok := ...; ok && v.Len > 0 { v.ToString() }], else empty. *)
Definition value_or_empty (v : option string) : string :=
  match v with Some s => s | None => "" end.

(** [takeFinalizedEntry(key)]. *)
Definition takeFinalizedEntry (key : string) (p : process) : option streamFinalizedEntry * process :=
  match p_finalized p !! key with
  | Some e => (Some e, set_p_finalized (delete key (p_finalized p)) p)
  | None => (None, p)
  end.

(** The stream key [OnLog] looks up: the request id header, else the fallback header. *)
Definition log_stream_key (h : AccessLoggerHandle) : string :=
  let streamKey := value_or_empty (lh_header h "x-request-id") in
  if decide (streamKey = "") then value_or_empty (lh_header h finalizedFallbackKeyHeader)
  else streamKey.

(** The [FinalizedInfo] built from the handle and the local reply the filter recorded. *)
Definition finalized_info (h : AccessLoggerHandle) (localReplyBody : string) : FinalizedInfo :=
  mkFinalized (lh_timing h) (lh_bytes h) (lh_code h)
    (value_or_empty (lh_attr h ResponseCodeDetails)) (lh_flags h)
    (value_or_empty (lh_attr h UpstreamTransportFailureReason))
    (value_or_empty (lh_attr h UpstreamLocalAddress)) (value_or_empty (lh_attr h UpstreamAddress))
    (value_or_empty (lh_attr h RequestProtocol)) (lh_pool h) (lh_attempts h)
    (value_or_empty (lh_trace h)) (value_or_empty (lh_span h)) (lh_sampled h)
    (if decide (value_or_empty (lh_reply h) = "") then localReplyBody else value_or_empty (lh_reply h)).

(** [finalizedLogger.OnLog], for the logger registered under [name]. *)
Definition OnLog (name : string) (h : AccessLoggerHandle) (logType : Z) (wd : world) : world :=
  if decide (logType = AccessLogTypeDownstreamEnd) then
    let streamKey := log_stream_key h in
    if decide (streamKey = "") then wd
    else
      match takeFinalizedEntry (streamFinalizedKey name streamKey) (wd_proc wd) with
      | (None, _) => wd
      | (Some entry, p) =>
          match wd_filters wd !! fe_stream entry with
          | None => mkWorld (wd_filters wd) p (wd_tr wd)
          | Some f =>
              let info := finalized_info h (String.string_of_list_byte (localReplyBody f)) in
              let f' := set_context (fe_fn entry (context f) info) f in
              mkWorld (<[fe_stream entry := f']> (wd_filters wd))
                (set_p_bags (DropStreamObjectBag (streamObjectNonce f') (p_bags p)) p)
                (wd_tr wd ++ [UserStreamFinalized (context f) info])
          end
      end
  else wd.

(** The world seen from one stream's state. *)
Definition world_of (s : st) : world := mkWorld {[ s_id s := s_f s ]} (s_proc s) (s_tr s).

(** The key under which [registerFinalized] files the stream. *)
Definition stream_key (E : Envoy) (s : st) : string :=
  let k := value_or_empty (ev_request_id E (s_tr s)) in
  if decide (k = "") then ev_nonce E (p_drawn (s_proc s)) else k.

(** ** Theorems *)

(** A name without NUL bytes, as a configured filter name is. *)
Fixpoint no_nul (s : string) : bool :=
  match s with
  | EmptyString => true
  | String a s => negb (bool_decide (a = Ascii.ascii_of_nat 0)) && no_nul s
  end.

(** Registry keys do not collide: two filters with different names that share a request
    id, or two streams with different ids, never use the same key. *)
Theorem finalized_keys_distinct n1 n2 k1 k2 :
  no_nul n1 = true -> no_nul n2 = true ->
  streamFinalizedKey n1 k1 = streamFinalizedKey n2 k2 -> n1 = n2 /\ k1 = k2.
Proof.
  unfold streamFinalizedKey. revert n2.
  induction n1 as [|a n1 IH]; intros [|b n2] H1 H2 H; simpl in *.
  - by injection H.
  - injection H as Ha H. by rewrite bool_decide_true in H2.
  - injection H as Ha H. by rewrite bool_decide_true in H1.
  - injection H as -> H. apply andb_true_iff in H1 as [_ H1], H2 as [_ H2].
    by destruct (IH n2 H1 H2 H) as [-> ->].
Qed.

Section lifecycle.
Context (E : Envoy).

(** What [OnStreamComplete] keeps when no response handler is configured. *)
Lemma OnStreamComplete_plain s fn :
  responseHandler (cfg (s_f s)) = None -> onStreamFinalized (cfg (s_f s)) = Some fn ->
  exists s', OnStreamComplete E s = Ok s' /\ s_proc s' = s_proc s /\ s_id s' = s_id s /\
    streamObjectNonce (s_f s') = streamObjectNonce (s_f s) /\
    localReplyBody (s_f s') = localReplyBody (s_f s) /\
    match onStreamComplete (cfg (s_f s)) with
    | Some c => s_tr s' = s_tr s ++ [UserStreamComplete (context (s_f s))] /\
                context (s_f s') = c (context (s_f s))
    | None => s_tr s' = s_tr s /\ context (s_f s') = context (s_f s)
    end.
Proof.
  intros Hr Hf. unfold OnStreamComplete. rewrite Hr. simpl.
  destruct (onStreamComplete (cfg (s_f s))) as [c|]; simpl; rewrite Hf;
    destruct (goStarted _); simpl; eexists; repeat split.
Qed.

Lemma registerFinalized_spec s fn :
  onStreamFinalized (cfg (s_f s)) = Some fn -> finalizedKey (s_f s) = "" ->
  let s' := registerFinalized E s in
  let key := streamFinalizedKey (name (cfg (s_f s))) (stream_key E s) in
  p_finalized (s_proc s') !! key = Some (mkFinEntry fn (s_id s)) /\
  s_f s' = set_finalizedKey key (s_f s) /\ s_id s' = s_id s /\
  p_bags (s_proc s') = p_bags (s_proc s).
Proof.
  intros Hf Hk. unfold registerFinalized, stream_key, value_or_empty. rewrite Hf, Hk. simpl.
  destruct (decide (match ev_request_id E (s_tr s) with Some v => v | None => "" end = ""));
    simpl; rewrite lookup_insert_eq; done.
Qed.

Lemma OnLog_again n h wd :
  (forall e, p_finalized (wd_proc wd) !! streamFinalizedKey n (log_stream_key h) = Some e -> False) ->
  OnLog n h AccessLogTypeDownstreamEnd wd = wd.
Proof.
  intros H. unfold OnLog, takeFinalizedEntry. rewrite decide_True by done. case_decide; [done|].
  destruct (p_finalized _ !! _) as [e|] eqn:He; [by destruct (H e)|done].
Qed.

(** The end of a stream happens in order and once.  For a stream with a finalized
    callback, registered and then completed, the object bag survives [OnStreamComplete];
    when the access log for the stream's key arrives, the user's completion callback has
    run, the finalized callback runs after it, on the context it left, with the body of the
    local reply unless Envoy reports one, the bag is dropped after both, and a second log
    event does nothing. *)
Theorem finalized_after_complete s fn c h :
  onStreamFinalized (cfg (s_f s)) = Some fn -> onStreamComplete (cfg (s_f s)) = Some c ->
  responseHandler (cfg (s_f s)) = None -> finalizedKey (s_f s) = "" ->
  log_stream_key h = stream_key E s -> log_stream_key h <> "" ->
  exists s2, OnStreamComplete E (registerFinalized E s) = Ok s2 /\
    p_bags (s_proc s2) = p_bags (s_proc s) /\
    let ctx := c (context (s_f s)) in
    let info := finalized_info h (String.string_of_list_byte (localReplyBody (s_f s))) in
    let wd := OnLog (name (cfg (s_f s))) h AccessLogTypeDownstreamEnd (world_of s2) in
    wd_tr wd = s_tr (registerFinalized E s) ++
      [UserStreamComplete (context (s_f s)); UserStreamFinalized ctx info] /\
    LookupStreamObjectBag (streamObjectNonce (s_f s)) (p_bags (wd_proc wd)) = None /\
    (context <$> wd_filters wd !! s_id s) = Some (fn ctx info) /\
    OnLog (name (cfg (s_f s))) h AccessLogTypeDownstreamEnd wd = wd.
Proof.
  intros Hf Hc Hr Hk Hkey Hne.
  destruct (registerFinalized_spec s fn Hf Hk) as (R1 & R2 & R3 & R4).
  destruct (OnStreamComplete_plain (registerFinalized E s) fn) as (s2 & C1 & C2 & C3 & C4 & C5 & C6);
    [by rewrite R2..|].
  rewrite R2 in C4, C5, C6. simpl in C4, C5, C6. rewrite Hc in C6. destruct C6 as [C6 C7].
  exists s2. split; [done|]. split; [by rewrite C2|]. cbn zeta.
  set (key := streamFinalizedKey _ _) in *.
  assert (OnLog (name (cfg (s_f s))) h AccessLogTypeDownstreamEnd (world_of s2) =
    let info := finalized_info h (String.string_of_list_byte (localReplyBody (s_f s))) in
    let p := set_p_finalized (delete key (p_finalized (s_proc s2))) (s_proc s2) in
    mkWorld {[ s_id s2 := set_context (fn (c (context (s_f s))) info) (s_f s2) ]}
      (set_p_bags (DropStreamObjectBag (streamObjectNonce (s_f s)) (p_bags (s_proc s2))) p)
      (s_tr s2 ++ [UserStreamFinalized (c (context (s_f s))) info])) as Hlog.
  { unfold OnLog. rewrite decide_True, decide_False, Hkey by done. unfold takeFinalizedEntry.
    cbn [world_of wd_proc wd_filters wd_tr]. rewrite C2. fold key. rewrite R1. cbn [fe_stream].
    rewrite C3, R3, lookup_singleton_eq. cbn zeta.
    change (streamObjectNonce (set_context _ (s_f s2))) with (streamObjectNonce (s_f s2)).
    by rewrite C5, C7, C4, insert_singleton_eq. }
  rewrite Hlog. cbn zeta. cbn [wd_tr wd_proc wd_filters].
  split_and!.
  - rewrite C6, <-app_assoc. done.
  - simpl. unfold LookupStreamObjectBag, DropStreamObjectBag. case_decide; [done|].
    simpl. apply lookup_delete_eq.
  - by rewrite C3, R3, lookup_singleton_eq.
  - apply OnLog_again. intros e. simpl. rewrite Hkey. fold key. by rewrite lookup_delete_eq.
Qed.
End lifecycle.

(** ** Witnesses *)

Lemma finalized_keys_distinct_witness :
  streamFinalizedKey "auth" "id-1" <> streamFinalizedKey "log" "id-1".
Proof.
  intros H. by destruct (finalized_keys_distinct "auth" "log" "id-1" "id-1" eq_refl eq_refl H).
Defined.

(** A stream with both callbacks, and the handle of its access log. *)
Definition finalizing : st :=
  newStream (mkConfig "demo" (fun _ => PRet) None None (Some (fun _ => VString "completed"))
               (Some (fun c _ => c)) false false).

Definition demo_handle : AccessLoggerHandle :=
  mkLogHandle (fun n => if decide (n = finalizedFallbackKeyHeader) then Some "n0" else None)
    (mkTiming 0 0 0 0 0 0 0 0) (mkBytesInfo 0 0 0 0) 200 0 0 1 false (fun _ => None) None None None.

Lemma finalized_after_complete_witness :
  let E := simEnvoy [] (0%Z, None) in
  exists s2, OnStreamComplete E (registerFinalized E finalizing) = Ok s2 /\
    wd_tr (OnLog "demo" demo_handle AccessLogTypeDownstreamEnd (world_of s2)) =
      [CReqHeaderSet finalizedFallbackKeyHeader "n0"; UserStreamComplete VNil;
       UserStreamFinalized (VString "completed") (finalized_info demo_handle "")].
Proof.
  intros E.
  destruct (finalized_after_complete E finalizing (fun c _ => c) (fun _ => VString "completed")
    demo_handle) as (s2 & H1 & _ & H2 & _); [reflexivity..|done|].
  exists s2. split; [exact H1|exact H2].
Defined.
