(* ===== verification/StreamProps.v ===== *)
(** * up/filter.go, up/stream_object.go: the life of a stream

    The callbacks Envoy may invoke on a stream as a transition relation, the promise that
    the response handler is told of the end of the response, and the objects handlers
    share through a stream. *)
From stdpp Require Import base list gmap strings.
From Stdlib Require Import ZArith Lia.
From S2P Require Import Prelude Async StreamObject Envoy Grpc FilterState Filter FilterFacts FlushProps RequestProps.

(** ** Callbacks as steps *)

Inductive step (E : Envoy) : st -> st -> Prop :=
  | step_request_headers eos s status s' :
      OnRequestHeaders E eos s = Ok (status, s') -> step E s s'
  | step_request_body body eos s status s' :
      OnRequestBody E body eos s = Ok (status, s') -> step E s s'
  | step_response_headers eos s status s' :
      OnResponseHeaders E eos s = Ok (status, s') -> step E s s'
  | step_response_body body eos s status s' :
      OnResponseBody E body eos s = Ok (status, s') -> step E s s'
  | step_callout d s s' : OnHttpCalloutDone E d s = Ok s' -> step E s s'
  | step_batch b i d s s' : OnBatchCalloutDone E b i d s = Ok s' -> step E s s'
  | step_sequence q d s s' : OnSequenceCalloutDone E q d s = Ok s' -> step E s s'
  | step_grpc g e s s' : OnGrpcStreamEvent E g e s = Ok s' -> step E s s'
  | step_complete s s' : OnStreamComplete E s = Ok s' -> step E s s'.

(** The response handler was called with the end of the response. *)
Definition end_delivered (tr : list call) : Prop :=
  exists c, UserResponse c ∈ tr /\ rc_EndStream c = true.

(** The flag is raised only by a delivery. *)
Definition end_inv (s : st) : Prop := responseEndSeen (s_f s) = true -> end_delivered (s_tr s).

(** ** Traces only grow *)

Section grow.
Context (E : Envoy).

Lemma end_delivered_app tr k : end_delivered tr -> end_delivered (tr ++ k).
Proof. intros (c & Hc & He). exists c. split; [set_solver|done]. Qed.

Lemma do_act_grows w a s s' : do_act E w a s = Ok s' -> s_tr s `prefix_of` s_tr s'.
Proof.
  destruct a; simpl; try (intros [= <-]);
    unfold SendLocalResponse, SetRequestHeader, AddRequestHeader, RemoveRequestHeader,
      SetFilterState, SetRequestBody, SetResponseBody, IncrementCounterLabels, IncrementGauge,
      DecrementGauge, SetGauge, RecordHistogramLabels, SetMetadata, getOrCreateBag;
    try (repeat case_match; simpl; by first [done|apply prefix_app_r]).
  - unfold SetStreamObject, getOrCreateBag.
    destruct (if decide _ then None else _) as [b|]; [by intros [= <-]|].
    destruct (mint_bag _ _ _) as [[[b k] s1]|] eqn:Em; [|done]. cbn. intros [= <-].
    apply mint_bag_ctl in Em as [_ Ht]. unfold SetFilterState. simpl.
    destruct (queued w (upd_f _ s1)); simpl; rewrite Ht; by first [done|apply prefix_app_r].
  - case_match; [|done]. intros [= <-]. case_match; [done|]. by apply prefix_app_r.
Qed.

Lemma do_query_grows {A} w (q : query A) s : s_tr s `prefix_of` s_tr (do_query E w q s).2.
Proof.
  destruct q; simpl; try done.
  - unfold GetStreamObject. repeat case_match; simplify_eq/=; done.
  - unfold SetUpstreamOverrideHost. case_match; [done|]. by apply prefix_app_r.
Qed.

Lemma flush_grows c s : s_tr s `prefix_of` s_tr (flush E c s).
Proof.
  destruct (localReply (s_f s)) as [lr|] eqn:Hl.
  - rewrite (flush_reply E c s lr Hl). by apply prefix_app_r.
  - rewrite flush_trace by done. by apply prefix_app_r.
Qed.

Lemma handoff_grows s : s_tr s `prefix_of` s_tr (handoff E s).
Proof.
  unfold handoff, cas. repeat case_decide; simpl; try done. apply (flush_grows true (upd_f _ s)).
Qed.

Lemma grows_stable w l : stable E w (fun s => l `prefix_of` s_tr s).
Proof.
  split; intros *; try done; intros.
  - etrans; [done|]. by eapply do_act_grows.
  - etrans; [done|]. apply do_query_grows.
  - by apply prefix_app_r.
  - etrans; [done|]. apply handoff_grows.
  - unfold Go in *. repeat case_match; simplify_eq/=. by apply prefix_app_r.
Qed.

Lemma run_grows w p s s' : run E w p s = Ok s' -> s_tr s `prefix_of` s_tr s'.
Proof. by apply (run_stable E w _ (grows_stable w (s_tr s))). Qed.

(** ** The end of the response *)

(** [s'] extends the trace of [s] and keeps its frame. *)
Definition extends (s s' : st) : Prop := frame s' = frame s /\ s_tr s `prefix_of` s_tr s'.

Lemma extends_refl s : extends s s.
Proof. done. Qed.

Lemma extends_trans s1 s2 s3 : extends s1 s2 -> extends s2 s3 -> extends s1 s3.
Proof. intros [H1 H2] [H3 H4]. split; [by rewrite H3|by etrans]. Qed.

Lemma extends_inv s s' : extends s s' -> end_inv s -> end_inv s'.
Proof.
  intros [Hf [k Hk]] Hi Hs. injection Hf as _ _ _ He. rewrite Hk. apply end_delivered_app, Hi.
  by rewrite <-He.
Qed.

Lemma run_extends w p s s' : run E w p s = Ok s' -> extends s s'.
Proof. intros H. split; [by eapply run_frame|by eapply run_grows]. Qed.

Lemma flush_extends c s : extends s (flush E c s).
Proof. split; [apply flush_frame|apply flush_grows]. Qed.

Lemma handoff_extends s : extends s (handoff E s).
Proof. split; [apply handoff_frame|apply handoff_grows]. Qed.

Lemma flushCompleted_extends w s : extends s (flushCompletedCallout w s).
Proof. unfold flushCompletedCallout, cas. repeat case_match; done. Qed.

Lemma pause_extends w s : extends s (pausePendingCallout w s).2.
Proof. unfold pausePendingCallout, cas. repeat case_match; done. Qed.

Lemma emits_extends l s : extends s (emits l s).
Proof. split; [done|]. by apply prefix_app_r. Qed.

Lemma emit_extends c s : extends s (emit c s).
Proof. apply emits_extends. Qed.

Lemma registerFinalized_extends s : extends s (registerFinalized E s).
Proof.
  unfold registerFinalized. destruct (onStreamFinalized _); [|done].
  destruct (decide (finalizedKey _ = "")); [|done].
  destruct (decide (match ev_request_id E (s_tr s) with Some v => v | None => "" end = "")); [|done].
  split; [done|]. simpl. by apply prefix_app_r.
Qed.

Lemma call_requestBodyHandler_extends w d eos s s' :
  call_requestBodyHandler E w d eos s = Ok s' -> extends s s'.
Proof.
  unfold call_requestBodyHandler. case_match; [|by intros [= <-]]. intros Hr%run_extends.
  by eapply extends_trans; [apply emit_extends|].
Qed.

Lemma carried_extends s : carried E (fun _ s1 => extends s s1).
Proof.
  split; intros; (eapply extends_trans; [done|]); try done.
  - by eapply run_extends.
  - apply emit_extends.
  - apply registerFinalized_extends.
Qed.

Lemma OnRequestHeaders_extends eos s status s' :
  OnRequestHeaders E eos s = Ok (status, s') -> extends s s'.
Proof.
  intros H. apply (OnRequestHeaders_shape E (fun _ s1 => extends s s1)) in H;
    [|apply carried_extends|].
  - destruct H as [(_ & s1 & H & _ & _ & ->)|[(_ & H & _)|(s1 & H & -> & _)]]; [done..|].
    eapply extends_trans; [exact H|].
    eapply extends_trans; [apply flushCompleted_extends|apply flush_extends].
  - intros s0 s1 H0 _ _ _ _ Hf Hr%run_extends. eapply extends_trans; [|done].
    split; [done|]. by rewrite H0.
Qed.

Lemma OnRequestBody_extends body eos s status s' :
  OnRequestBody E body eos s = Ok (status, s') -> extends s s'.
Proof.
  unfold OnRequestBody. destruct (requestBodyHandler _); [|case_match; by intros [= <- <-]].
  case_match; [by intros [= <- <-]|].
  destruct (if bufferBody _ then _ else body) as [chunks|]; [|done].
  cbn beta iota zeta delta [newWriter].
  destruct (call_requestBodyHandler E _ _ _ _) as [s1|] eqn:Eb; simpl; [|done].
  apply call_requestBodyHandler_extends in Eb.
  assert (extends s s1) as H1 by exact Eb.
  pose proof (pause_extends (length (s_ws s)) s1) as Hp.
  destruct (pausePendingCallout _ s1) as [[] s2]; simpl in Hp.
  { intros [= <- <-]. by eapply extends_trans. }
  apply (extends_trans _ _ _ H1) in Hp. clear Eb H1.
  case_match; [by intros [= <- <-]|].
  pose proof (extends_trans _ _ _ Hp (flushCompleted_extends (length (s_ws s)) s2)) as H3.
  revert H3. generalize (flushCompletedCallout (length (s_ws s)) s2). intros s3 H3.
  case_match.
  - set (s4 := upd_f _ s3). assert (extends s (flush E false s4)) as H4.
    { eapply extends_trans; [exact H3|]. apply (flush_extends false s4). }
    case_match; [by intros [= <- <-]|]. case_match; [|done]. intros [= <- <-].
    eapply extends_trans; [exact H4|]. apply emits_extends.
  - assert (extends s (flush E false s3)) as H4.
    { eapply extends_trans; [exact H3|apply flush_extends]. }
    case_match; [by intros [= <- <-]|]. intros [= <- <-]. case_match; [|done].
    eapply extends_trans; [exact H4|]. apply emit_extends.
Qed.

Lemma calloutDone_extends F s s' :
  (forall s s', F s = Ok s' -> extends s s') -> calloutDone E (Some F) s = Ok s' -> extends s s'.
Proof.
  intros HF. unfold calloutDone. case_match; [by intros [= <-]|]. intros Hok. inv_bind.
  injection Hok as <-. apply HF in E0. eapply extends_trans; [exact E0|apply handoff_extends].
Qed.

(** The callout callbacks preserve what handlers preserve. *)
Lemma extends_stable w s : stable E w (extends s).
Proof.
  split; intros *; try done; intros.
  - eapply extends_trans; [done|]. split; [by eapply do_act_frame|by eapply do_act_grows].
  - eapply extends_trans; [done|]. split; [apply do_query_frame|apply do_query_grows].
  - eapply extends_trans; [done|]. apply emit_extends.
  - eapply extends_trans; [done|]. apply handoff_extends.
  - eapply extends_trans; [done|]. split; [by eapply Go_frame|].
    unfold Go in *. repeat case_match; simplify_eq/=. by apply prefix_app_r.
Qed.

Lemma callback_extends s s' :
  (exists d, OnHttpCalloutDone E d s = Ok s') \/ (exists b i d, OnBatchCalloutDone E b i d s = Ok s') \/
  (exists q d, OnSequenceCalloutDone E q d s = Ok s') \/ (exists g e, OnGrpcStreamEvent E g e s = Ok s') ->
  extends s s'.
Proof.
  intros [[d H]|[(b & i & d & H)|[(q & d & H)|(g & e & H)]]].
  - unfold OnHttpCalloutDone in H. destruct (calloutFn _) as [[w fn]|]; simpl in H.
    + eapply calloutDone_extends; [|done]. intros *. apply run_extends.
    + unfold calloutDone in H. case_match; by injection H as <-.
  - unfold OnBatchCalloutDone in H. destruct (s_batches s !! b) as [x|]; [|by injection H as <-].
    eapply (batch_finish_stable E (b_w x) (extends s)); [apply extends_stable| |apply extends_refl|done].
    intros rs s1 s2 H1 H2%run_extends. by eapply extends_trans.
  - unfold OnSequenceCalloutDone in H. destruct (s_seqs s !! q) as [x|]; [|by injection H as <-].
    eapply (seq_step_stable E (sq_w x) (extends s)); [apply extends_stable| | |done]; [|done].
    intros rs s1 s2 H1 H2%run_extends. by eapply extends_trans.
  - unfold OnGrpcStreamEvent in H. destruct (s_grpcs s !! g) as [c|]; [|by injection H as <-].
    eapply (grpc_event_stable E (gc_w c) (extends s)); [apply extends_stable| |apply extends_refl|done].
    intros rs s1 s2 H1 H2%run_extends. by eapply extends_trans.
Qed.

(** A call of the response handler is recorded. *)
Lemma call_responseHandler_spec w chunk s s' :
  is_Some (responseHandler (cfg (s_f s))) ->
  call_responseHandler E w chunk s = Ok s' -> extends s s' /\ UserResponse chunk ∈ s_tr s'.
Proof.
  intros [h Hh]. unfold call_responseHandler. rewrite Hh. intros Hr%run_extends. split.
  - by eapply extends_trans; [apply emit_extends|].
  - destruct Hr as [_ [k ->]]. simpl. set_solver.
Qed.

Lemma end_raised w chunk s s' :
  is_Some (responseHandler (cfg (s_f s))) -> rc_EndStream chunk = true ->
  call_responseHandler E w chunk s = Ok s' -> end_delivered (s_tr s').
Proof. intros Hh He Hc. exists chunk. by apply call_responseHandler_spec in Hc as [_ ?]. Qed.

Lemma OnResponseHeaders_inv eos s status s' :
  OnResponseHeaders E eos s = Ok (status, s') -> end_inv s -> end_inv s'.
Proof.
  unfold OnResponseHeaders. destruct (responseHandler (cfg (s_f s))) as [h|] eqn:Hh;
    [|by intros [= <- <-]].
  cbn beta iota zeta delta [newWriter]. set (sb := if bufferBody _ then _ else _).
  assert (extends s sb) as Hsb.
  { unfold sb. case_match; [|done]. split; [done|]. by apply prefix_app_r. }
  clearbody sb. pose proof Hsb as [Hf _]. injection Hf as _ Hc _ _.
  intros Hok Hi. apply (extends_inv _ _ Hsb) in Hi. inv_bind. rename a into s1.
  apply call_responseHandler_spec in E0 as [H1 H2]; [|simpl; rewrite Hc, Hh; by eexists].
  pose proof H1 as [Hf1 _]. injection Hf1 as _ Hc1 _ _.
  apply (extends_inv _ _ H1) in Hi.
  destruct eos; [|by injection Hok as <- <-]. inv_bind. injection Hok as <- <-.
  intros _. eapply end_raised; [| |exact E0]; [|done]. simpl. rewrite Hc1. simpl. rewrite Hc, Hh. by eexists.
Qed.

Lemma OnResponseBody_inv body eos s status s' :
  OnResponseBody E body eos s = Ok (status, s') -> end_inv s -> end_inv s'.
Proof.
  unfold OnResponseBody. destruct (responseHandler (cfg (s_f s))) as [h|] eqn:Hh;
    [|by intros [= <- <-]].
  case_match; [by intros [= <- <-]|].
  destruct (if bufferBody _ then _ else body) as [chunks|]; [|done].
  cbn beta iota zeta delta [newWriter].
  intros Hok Hi. inv_bind. rename a into s1.
  apply call_responseHandler_spec in E0 as [H1 H2]; [|simpl; rewrite Hh; by eexists].
  apply (extends_inv _ _ H1) in Hi.
  assert (end_inv (if eos then upd_f (set_responseEndSeen true) s1 else s1)) as Hi2.
  { destruct eos; [|done]. intros _. by eexists. }
  revert Hok Hi2. generalize (if eos then upd_f (set_responseEndSeen true) s1 else s1). intros s2 Hok Hi2.
  case_match; injection Hok as <- <-; [|done].
  refine (extends_inv s2 _ _ Hi2). split; [done|]. by apply prefix_app_r.
Qed.

Lemma OnStreamComplete_inv s s' :
  OnStreamComplete E s = Ok s' -> end_inv s ->
  end_inv s' /\ (is_Some (responseHandler (cfg (s_f s))) -> end_delivered (s_tr s')).
Proof.
  unfold OnStreamComplete. intros Hok Hi. inv_bind. rename a into s1.
  assert (end_inv s1 /\ (is_Some (responseHandler (cfg (s_f s))) -> end_delivered (s_tr s1))) as [H1 H2].
  { clear Hok. destruct (bool_decide _ && _) eqn:Hc.
    - apply andb_true_iff in Hc as [Hh%bool_decide_eq_true _].
      cbn beta iota zeta delta [newWriter] in E0. inv_bind. injection E0 as <-.
      assert (end_delivered (s_tr a)) as Hd by (eapply end_raised; [| |exact E1]; done).
      split; intros _; exact Hd.
    - injection E0 as <-. split; [done|]. intros Hh. apply Hi.
      rewrite bool_decide_true in Hc by done. by destruct (responseEndSeen _). }
  clear E0 Hi. injection Hok as <-.
  assert (forall x, responseEndSeen (s_f x) = responseEndSeen (s_f s1) -> s_tr s1 `prefix_of` s_tr x ->
    end_inv x /\ (is_Some (responseHandler (cfg (s_f s))) -> end_delivered (s_tr x))) as Hx.
  { intros x X1 [k X2]. unfold end_inv. rewrite X1, X2. split; intros; apply end_delivered_app; auto. }
  destruct (onStreamComplete (cfg (s_f s1))); simpl; destruct (onStreamFinalized (cfg (s_f s1)));
    simpl; destruct (goStarted (s_f s1)); apply Hx; try done; by apply prefix_app_r.
Qed.

Lemma step_inv s s' : step E s s' -> end_inv s -> end_inv s'.
Proof.
  intros Hs Hi. destruct Hs.
  - by eapply extends_inv, Hi; eapply OnRequestHeaders_extends.
  - by eapply extends_inv, Hi; eapply OnRequestBody_extends.
  - by eapply OnResponseHeaders_inv.
  - by eapply OnResponseBody_inv.
  - eapply extends_inv, Hi; apply callback_extends; eauto 10.
  - eapply extends_inv, Hi; apply callback_extends; eauto 10.
  - eapply extends_inv, Hi; apply callback_extends; eauto 10.
  - eapply extends_inv, Hi; apply callback_extends; eauto 10.
  - by eapply OnStreamComplete_inv.
Qed.

Lemma reachable_inv s s' : rtc (step E) s s' -> end_inv s -> end_inv s'.
Proof. induction 1; eauto using step_inv. Qed.

(** C13: the response handler always learns that the response ended.  Whatever callbacks
    Envoy makes on a stream and in whatever order, a reset before the last body frame
    included, after [OnStreamComplete] a configured response handler has been called with
    [EndStream] set. *)
Theorem response_end_always_delivered s s1 s2 :
  responseEndSeen (s_f s) = false -> rtc (step E) s s1 -> OnStreamComplete E s1 = Ok s2 ->
  is_Some (responseHandler (cfg (s_f s1))) -> end_delivered (s_tr s2).
Proof.
  intros H0 Hr Hc Hh. eapply OnStreamComplete_inv; [done| |done].
  eapply reachable_inv; [done|]. intros H. by rewrite H0 in H.
Qed.
End grow.

(** ** Stream objects *)

Section objects.
Context (E : Envoy).

(** Every draw that fails names a registered bag. *)
Lemma mint_bag_None n s :
  mint_bag E n s = None ->
  forall i, i < n -> is_Some (streamObjectBags (p_bags (s_proc s)) !! ev_nonce E (p_drawn (s_proc s) + i)).
Proof.
  revert s. induction n as [|n IH]; intros s; simpl; [lia|].
  unfold InsertStreamObjectBag. simpl.
  destruct (streamObjectBags _ !! _) as [b|] eqn:Hb; [|done]. intros Hn [|i] Hi.
  - rewrite Nat.add_0_r. by eexists.
  - specialize (IH _ Hn i ltac:(lia)). simpl in IH. by rewrite <-Nat.add_succ_comm.
Qed.

(** With a source that does not repeat itself the loop of [getOrCreateBag] ends. *)
Lemma mint_bag_total s :
  Inj (=) (=) (ev_nonce E) ->
  is_Some (mint_bag E (S (StreamObjectBagCount (p_bags (s_proc s)))) s).
Proof.
  intros Hinj. set (m := streamObjectBags (p_bags (s_proc s))).
  destruct (mint_bag _ _ s) eqn:Em; [by eexists|exfalso].
  pose proof (mint_bag_None _ _ Em) as Hall. fold m in Hall.
  set (l := (fun i => ev_nonce E (p_drawn (s_proc s) + i)) <$> seq 0 (S (base.size m))).
  assert (NoDup l) as Hnd.
  { apply NoDup_fmap_2; [|apply NoDup_seq]. intros i j Hij%Hinj. lia. }
  assert (list_to_set l ⊆@{gset string} dom m) as Hsub.
  { intros k. rewrite elem_of_list_to_set. unfold l. intros (i & -> & Hi)%list_elem_of_fmap.
    apply elem_of_seq in Hi. apply elem_of_dom, Hall. unfold StreamObjectBagCount. fold m. lia. }
  apply subseteq_size in Hsub. rewrite size_list_to_set, size_dom in Hsub by done.
  unfold l in Hsub. rewrite length_fmap, length_seq in Hsub. lia.
Qed.

(** What [getOrCreateBag] returns: the stream's registered bag, apart from every other one. *)
Definition bag_ready (s s' : st) (b : bagref) : Prop :=
  let g := p_bags (s_proc s) in
  let g' := p_bags (s_proc s') in
  reg_ok g' /\ LookupStreamObjectBag (streamObjectNonce (s_f s')) g' = Some b /\
  bag_heap g `prefix_of` bag_heap g' /\
  forall n b', streamObjectBags g !! n = Some b' -> n <> streamObjectNonce (s_f s') -> b' <> b.

Lemma mint_bag_spec n s b k s' :
  mint_bag E n s = Some (b, k, s') -> reg_ok (p_bags (s_proc s)) -> (forall i, ev_nonce E i <> "") ->
  bag_ready s (upd_f (set_streamObjectNonce k) s') b.
Proof.
  revert s. induction n as [|n IH]; intros s; simpl; [done|].
  destruct (InsertStreamObjectBag _ _) as [[b1 l] g] eqn:Ei. destruct l.
  { intros Hm Hok Hne. apply (IH _ Hm Hok Hne). }
  intros [= -> <- <-] Hok Hne. pose proof (Insert_ok _ _ _ _ _ Hok Ei) as Hok'.
  unfold InsertStreamObjectBag in Ei. simpl in Ei.
  destruct (streamObjectBags _ !! _) eqn:Hk; [done|]. injection Ei as <- <-.
  unfold bag_ready, LookupStreamObjectBag. simpl.
  rewrite decide_False, lookup_insert_eq by apply Hne.
  split_and!; [done|done|by apply prefix_app_r|].
  intros n' b' Hb' _. apply (reg_alloc _ Hok) in Hb'. lia.
Qed.

Lemma getOrCreateBag_spec w s :
  Inj (=) (=) (ev_nonce E) -> (forall i, ev_nonce E i <> "") -> reg_ok (p_bags (s_proc s)) ->
  exists b s', getOrCreateBag E w s = Ok (b, s') /\ bag_ready s s' b.
Proof.
  intros Hinj Hne Hok. unfold getOrCreateBag.
  destruct (if decide _ then None else _) as [b|] eqn:Hfast.
  - exists b, s. split; [done|]. case_decide; [done|]. split_and!; [done..|].
    intros n b' Hb' Hn ->. unfold LookupStreamObjectBag in Hfast. rewrite decide_False in Hfast by done.
    by apply Hn, (reg_inj _ Hok _ _ _ Hb' Hfast).
  - destruct (mint_bag_total s Hinj) as [[[b k] s1] Hm]. rewrite Hm.
    eexists b, _. split; [done|]. apply mint_bag_spec in Hm; [|done..].
    unfold SetFilterState. by destruct (queued w _).
Qed.

(** What a handler stores under a key of its stream is what any later handler of the
    stream reads back, and no other stream sees it.  With a random source that does not
    repeat itself [SetStreamObject] always returns; [GetStreamObject] of the key then gives
    the value, the registry stays well formed, and every bag registered by another stream
    has the contents it had. *)
Theorem stream_object_roundtrip w k v s :
  Inj (=) (=) (ev_nonce E) -> (forall i, ev_nonce E i <> "") -> reg_ok (p_bags (s_proc s)) ->
  exists s', SetStreamObject E w k v s = Ok s' /\ (GetStreamObject E k s').1 = Some v /\
    reg_ok (p_bags (s_proc s')) /\
    forall n b k', streamObjectBags (p_bags (s_proc s)) !! n = Some b ->
      n <> streamObjectNonce (s_f s') ->
      bag_Get b k' (p_bags (s_proc s')) = bag_Get b k' (p_bags (s_proc s)).
Proof.
  intros Hinj Hne Hok. destruct (getOrCreateBag_spec w s Hinj Hne Hok) as (b & s1 & Hb & Hr).
  unfold SetStreamObject. rewrite Hb. simpl. eexists. split; [done|].
  destruct Hr as (Hok1 & Hl & [t Ht] & Hoth).
  assert (streamObjectNonce (s_f s1) <> "") as Hn.
  { intros Hn. unfold LookupStreamObjectBag in Hl. by rewrite Hn in Hl. }
  pose proof Hl as Hl'. unfold LookupStreamObjectBag in Hl'. rewrite decide_False in Hl' by done.
  split_and!.
  - unfold GetStreamObject. simpl. rewrite decide_False by done. simpl.
    change (LookupStreamObjectBag _ (bag_Set b k v (p_bags (s_proc s1)))) with
      (LookupStreamObjectBag (streamObjectNonce (s_f s1)) (p_bags (s_proc s1))).
    rewrite Hl. simpl. apply bag_Get_Set_same. by eapply reg_alloc.
  - by apply bag_Set_ok.
  - intros n b' k' Hb' Hn'. simpl. rewrite bag_Get_Set_other by (left; apply not_eq_sym; eauto).
    unfold bag_Get. rewrite Ht, lookup_app_l; [done|]. by eapply reg_alloc.
Qed.
End objects.

(** ** Witnesses *)

#[export] Instance sim_nonce_inj hs r : Inj (=) (=) (ev_nonce (simEnvoy hs r)).
Proof. intros n m H. simpl in H. injection H as H. by apply (inj pretty.pretty). Qed.

Lemma stream_object_roundtrip_witness :
  let E := simEnvoy [] (0%Z, None) in
  exists s', SetStreamObject E 0 "user" (VString "u") setting = Ok s' /\
    (GetStreamObject E "user" s').1 = Some (VString "u").
Proof.
  intros E. destruct (stream_object_roundtrip E 0 "user" (VString "u") setting)
    as (s' & H1 & H2 & _).
  - apply _.
  - done.
  - apply reg_empty_ok.
  - exists s'. split; [exact H1|exact H2].
Defined.

(** A stream whose response is cut short. *)
Definition responding : st :=
  newStream (mkConfig "demo" (fun _ => PRet) (Some (fun _ => PRet)) None None None false false).

Lemma response_end_always_delivered_witness :
  let E := simEnvoy [] (0%Z, None) in
  let r := OnResponseHeaders E false responding in
  let c := (s ← OnStreamComplete E (out r); Ok (tt, s)) in
  end_delivered (s_tr (out c)).
Proof.
  intros E r c. apply (response_end_always_delivered E responding (out r) (out c)).
  - reflexivity.
  - apply rtc_once. apply (step_response_headers E false responding HeadersStatusContinue).
    vm_compute. reflexivity.
  - vm_compute. reflexivity.
  - vm_compute. by eexists.
Defined.
