(* ===== verification/Handshake.v ===== *)
(** * up/writer.go, up/filter.go: the callout handoff between two threads

    The request callback and [OnHttpCalloutDone] share the atomic [calloutState].  Filter.v
    runs them one after the other, as one worker thread does; here they run concurrently,
    one atomic operation (compare-and-swap or flush) per step, as the comments on both
    functions allow. *)
From stdpp Require Import base list relations.
From Stdlib Require Import Lia.
From S2P Require Import Prelude Async StreamObject Envoy Grpc FilterState Filter.

(** Where the request callback is, once its handler has started a callout. *)
Inductive pcR :=
  | RPause      (** about to CAS Active to Paused ([pausePendingCallout]) *)
  | RCompleted  (** about to CAS Done to Flushed ([flushCompletedCallout]) *)
  | RFlush      (** about to [flush(false)] *)
  | RStop       (** returned Stop *)
  | RContinue.  (** returned Continue *)

(** Where [OnHttpCalloutDone] is, once the user's callback has returned. *)
Inductive pcC :=
  | CResume  (** about to CAS Paused to Flushed *)
  | CEarly   (** about to CAS Active to Done *)
  | CFlush   (** about to [flush(true)] *)
  | CEnd.

(** The shared state: the handoff word, both threads, and the flushes made: without and
    with [ContinueRequest]. *)
Record hs := mkHs {
  word : calloutStateT;
  reqPc : pcR;
  outPc : pcC;
  flushed_in : nat;
  flushed_out : nat;
}.

(** [HTTPCallout] has stored Active and Envoy has accepted the callout. *)
Definition hs_init : hs := mkHs calloutStateActive RPause CResume 0 0.

(** A compare-and-swap on the handoff word. *)
Definition cas_word (old new : calloutStateT) (x : hs) : bool * hs :=
  if decide (word x = old) then (true, mkHs new (reqPc x) (outPc x) (flushed_in x) (flushed_out x))
  else (false, x).

Definition set_reqPc (p : pcR) (x : hs) : hs := mkHs (word x) p (outPc x) (flushed_in x) (flushed_out x).
Definition set_outPc (p : pcC) (x : hs) : hs := mkHs (word x) (reqPc x) p (flushed_in x) (flushed_out x).

(** The next atomic operation of the request callback. *)
Definition stepR (x : hs) : option hs :=
  match reqPc x with
  | RPause => let '(won, x) := cas_word calloutStateActive calloutStatePaused x in
              Some (set_reqPc (if won then RStop else RCompleted) x)
  | RCompleted => Some (set_reqPc RFlush (cas_word calloutStateDone calloutStateFlushed x).2)
  | RFlush => Some (mkHs (word x) RContinue (outPc x) (S (flushed_in x)) (flushed_out x))
  | RStop | RContinue => None
  end.

(** The next atomic operation of [OnHttpCalloutDone]. *)
Definition stepC (x : hs) : option hs :=
  match outPc x with
  | CResume => let '(won, x) := cas_word calloutStatePaused calloutStateFlushed x in
               Some (set_outPc (if won then CFlush else CEarly) x)
  | CEarly => Some (set_outPc CEnd (cas_word calloutStateActive calloutStateDone x).2)
  | CFlush => Some (mkHs (word x) (reqPc x) CEnd (flushed_in x) (S (flushed_out x)))
  | CEnd => None
  end.

(** One step of either thread. *)
Inductive hstep : hs -> hs -> Prop :=
  | hstep_req x x' : stepR x = Some x' -> hstep x x'
  | hstep_out x x' : stepC x = Some x' -> hstep x x'.

(** Both threads have returned. *)
Definition finished (x : hs) : bool :=
  match reqPc x, outPc x with
  | RStop, CEnd | RContinue, CEnd => true
  | _, _ => false
  end.

(** Run a thread to its end (at most three operations). *)
Fixpoint run_out (n : nat) (x : hs) : hs :=
  match n with
  | O => x
  | S n => match stepC x with Some x' => run_out n x' | None => x end
  end.

(** The flush that resumes or finishes the request has been made exactly once: by the
    callback with a resume after Stop, or by the request callback itself before Continue. *)
Definition served (x : hs) : Prop :=
  (reqPc x = RStop /\ flushed_in x = 0 /\ flushed_out x = 1) \/
  (reqPc x = RContinue /\ flushed_in x = 1 /\ flushed_out x = 0).

(** ** Safety under every interleaving *)

(** What holds in every reachable state. *)
Definition hs_ok (x : hs) : Prop :=
  match reqPc x with
  | RPause => flushed_in x = 0 /\ flushed_out x = 0 /\ outPc x <> CFlush /\
      match word x with
      | calloutStateActive => outPc x <> CEnd
      | calloutStateDone => outPc x = CEnd
      | _ => False
      end
  | RStop => flushed_in x = 0 /\
      match word x with
      | calloutStatePaused => flushed_out x = 0 /\ outPc x <> CFlush
      | calloutStateFlushed => (outPc x = CFlush /\ flushed_out x = 0) \/
                               (outPc x = CEnd /\ flushed_out x = 1)
      | _ => False
      end
  | RCompleted => word x = calloutStateDone /\ outPc x = CEnd /\ flushed_in x = 0 /\ flushed_out x = 0
  | RFlush => word x = calloutStateFlushed /\ outPc x = CEnd /\ flushed_in x = 0 /\ flushed_out x = 0
  | RContinue => word x = calloutStateFlushed /\ outPc x = CEnd /\ flushed_in x = 1 /\ flushed_out x = 0
  end.

Lemma hs_ok_step x x' : hstep x x' -> hs_ok x -> hs_ok x'.
Proof.
  intros Hs. destruct x as [w r c fi fo].
  destruct Hs as [x x' Hs|x x' Hs]; destruct x as [w' r' c' fi' fo']; revert Hs;
    unfold stepR, stepC, cas_word, hs_ok; destruct r', c', w'; simpl; intros [= <-]; simpl;
    intuition (try congruence; try lia).
Qed.

Lemma hs_ok_reachable x : rtc hstep hs_init x -> hs_ok x.
Proof.
  intros H. assert (hs_ok hs_init) as Hi by (unfold hs_ok; simpl; intuition congruence).
  revert Hi. induction H; eauto using hs_ok_step.
Qed.

(** C12: the effects of a callout are never applied twice: under every interleaving of the
    request callback with [OnHttpCalloutDone] at most one of them flushes, and
    [ContinueRequest] is only called after the request callback has returned Stop. *)
Theorem handoff_flushes_at_most_once x :
  rtc hstep hs_init x ->
  flushed_in x + flushed_out x <= 1 /\ (0 < flushed_out x -> reqPc x = RStop).
Proof.
  intros H%hs_ok_reachable. unfold hs_ok in H.
  destruct x as [w r c fi fo]. destruct r, w; simpl in *; intuition (try congruence; try lia).
Qed.

(** When [OnHttpCalloutDone] is not interleaved with the request callback's own
    operations, at whatever point of the request callback it runs, the request is served:
    flushed exactly once and, if stopped, resumed. *)
Theorem handoff_served_when_atomic x y :
  rtc (fun a b => stepR a = Some b) hs_init x ->
  rtc (fun a b => stepR a = Some b) (run_out 3 x) y -> finished y = true -> served y.
Proof.
  intros H1 H2 Hf.
  assert (x = hs_init \/ x = mkHs calloutStatePaused RStop CResume 0 0) as Hx.
  { apply rtc_inv in H1 as [->|(z & Hz & H1)]; [by left|]. injection Hz as <-.
    apply rtc_inv in H1 as [<-|(z & Hz & H1)]; [by right|discriminate]. }
  assert (forall z, rtc (fun a b => stepR a = Some b) z y -> finished y = true ->
            (finished z = true -> served z) ->
            (forall z', stepR z = Some z' -> rtc (fun a b => stepR a = Some b) z' y -> served y) ->
            served y) as Hstep.
  { intros z Hz Hy H0 H3. apply rtc_inv in Hz as [->|(z' & E1 & E2)]; eauto. }
  destruct Hx as [->| ->]; simpl in H2.
  - apply (Hstep _ H2 Hf); [done|]. intros z [= <-] Hz. simpl in Hz.
    apply (Hstep _ Hz Hf); [done|]. intros z' [= <-] Hz'. simpl in Hz'.
    apply (Hstep _ Hz' Hf); [done|]. intros z'' [= <-] Hz''. simpl in Hz''.
    apply (Hstep _ Hz'' Hf); [by right|done].
  - apply (Hstep _ H2 Hf); [by left|done].
Qed.

(** A wakeup can be lost.  If the request callback pauses between the two
    compare-and-swaps of [OnHttpCalloutDone], both threads return, the request is stopped,
    nobody flushes and nobody resumes it: the final state has no successor. *)
Theorem handoff_can_lose_the_wakeup :
  exists x, rtc hstep hs_init x /\ finished x = true /\ reqPc x = RStop /\
    flushed_in x = 0 /\ flushed_out x = 0 /\ forall y, ~ hstep x y.
Proof.
  exists (mkHs calloutStatePaused RStop CEnd 0 0). split_and!; try done.
  - eapply rtc_l; [by apply hstep_out|]. simpl.
    eapply rtc_l; [by apply hstep_req|]. simpl.
    eapply rtc_l; [by apply hstep_out|]. simpl. apply rtc_refl.
  - intros y Hy. inversion Hy; subst; discriminate.
Qed.

(** ** Witnesses *)

Lemma handoff_flushes_at_most_once_witness :
  flushed_in (mkHs calloutStateFlushed RStop CEnd 0 1) +
  flushed_out (mkHs calloutStateFlushed RStop CEnd 0 1) <= 1.
Proof.
  apply (handoff_flushes_at_most_once (mkHs calloutStateFlushed RStop CEnd 0 1)).
  eapply rtc_l; [by apply hstep_req|]. simpl. eapply rtc_l; [by apply hstep_out|]. simpl.
  eapply rtc_l; [by apply hstep_out|]. simpl. apply rtc_refl.
Defined.

Lemma handoff_served_when_atomic_witness :
  served (run_out 3 (mkHs calloutStatePaused RStop CResume 0 0)).
Proof.
  apply (handoff_served_when_atomic (mkHs calloutStatePaused RStop CResume 0 0)).
  - apply rtc_once. reflexivity.
  - apply rtc_refl.
  - reflexivity.
Defined.
