(* ===== verification/Goroutine.v ===== *)
(** * up/writer.go: [Writer.Go] and [Writer.Do]

    The goroutine started by [Go] and Envoy's worker thread as a transition system.  The
    goroutine performs operations, blocks in [Do] and finally schedules its finish; the
    worker runs what was scheduled, delivers callout responses, and may complete the stream
    at any time.  The scheduler queue of the SDK keeps the order of [Schedule] calls. *)
From stdpp Require Import base list gmap strings relations.
From Stdlib Require Import ZArith Lia.
From S2P Require Import Prelude Async StreamObject Envoy Grpc FilterState Filter FilterFacts FlushProps RequestProps CalloutProps StreamProps.

(** Where the goroutine is. *)
Inductive gpc :=
  | GRun (p : gprog)
  | GWait (n : nat) (k : HTTPCalloutResponse + string -> gprog)  (** blocked in the n-th [Do] *)
  | GCheck    (** [fn] has returned *)
  | GExit
  | GPanicked.

(** A function handed to [goScheduler.Schedule]. *)
Inductive task :=
  | TDoCallout (n : nat) (req : HTTPCalloutRequest)
  | TFinish.

#[export] Instance task_finish_dec t : Decision (t = TFinish).
Proof. destruct t; [by right|by left]. Defined.

(** The stream, the goroutine with its writer, the scheduler queue, the callouts in flight,
    the values sent on the channels of the [Do] calls, and how many [Do]s were made. *)
Record gst := mkGst {
  g_st : st;
  g_w : nat;
  g_pc : gpc;
  g_queue : list task;
  g_inflight : list nat;
  g_chan : list (nat * (HTTPCalloutResponse + string));
  g_dos : nat;
}.

(** The answer a delivered callout gives to [Do]: Go-owned copies. *)
Definition do_response (d : CalloutDelivery) : HTTPCalloutResponse :=
  mkResponse (d_result d) (copyUnsafeEnvoyHeaderBuffers (d_headers d)) (copyUnsafeEnvoyBuffers (d_body d)).

Definition context_canceled : string := "context canceled".

(** The finish scheduled by the goroutine: [goCompleted.Swap(true)], then the resume. *)
Definition go_finish (E : Envoy) (s : st) : st :=
  if goCompleted (s_f s) then s
  else flush E true (upd_f (fun f => set_goStarted false (set_goCompleted true f)) s).

(** The callout a [Do] scheduled: the channel gets an error at once, or the response now or
    later. *)
Definition do_callout (E : Envoy) (n : nat) (req : HTTPCalloutRequest) (g : gst) : gst :=
  let s := g_st g in
  if goCompleted (s_f s) then
    mkGst s (g_w g) (g_pc g) (g_queue g) (g_inflight g) (g_chan g ++ [(n, inr context_canceled)]) (g_dos g)
  else
    let '(init, sync) := ev_callout E (s_tr s) req in
    let s := emit (CHttpCallout req (TDo n)) s in
    let '(inflight, chan) :=
      match sync with
      | Some d => (g_inflight g, g_chan g ++ [(n, inl (do_response d))])
      | None => if decide (init = HTTPCalloutInitSuccess) then (g_inflight g ++ [n], g_chan g)
                else (g_inflight g, g_chan g)
      end in
    let chan := match errCalloutInitResult init with
                | Some e => chan ++ [(n, inr e)]
                | None => chan
                end in
    mkGst s (g_w g) (g_pc g) (g_queue g) inflight chan (g_dos g).

Definition set_g_pc (p : gpc) (g : gst) : gst :=
  mkGst (g_st g) (g_w g) p (g_queue g) (g_inflight g) (g_chan g) (g_dos g).
Definition set_g_st (s : st) (g : gst) : gst :=
  mkGst s (g_w g) (g_pc g) (g_queue g) (g_inflight g) (g_chan g) (g_dos g).
Definition schedule (t : task) (g : gst) : gst :=
  mkGst (g_st g) (g_w g) (g_pc g) (g_queue g ++ [t]) (g_inflight g) (g_chan g) (g_dos g).

(** One operation of the goroutine. *)
Inductive gostep (E : Envoy) : gst -> gst -> Prop :=
  | go_act a k g s' : g_pc g = GRun (GAct a k) -> do_act E (g_w g) a (g_st g) = Ok s' ->
      gostep E g (set_g_pc (GRun k) (set_g_st s' g))
  | go_act_panic a k g msg : g_pc g = GRun (GAct a k) -> do_act E (g_w g) a (g_st g) = Panic msg ->
      gostep E g (set_g_pc GPanicked g)
  | go_do req k g : g_pc g = GRun (GDo req k) -> goStarted (s_f (g_st g)) = true ->
      gostep E g (schedule (TDoCallout (g_dos g) req)
        (mkGst (g_st g) (g_w g) (GWait (g_dos g) k) (g_queue g) (g_inflight g) (g_chan g) (S (g_dos g))))
  | go_do_panic req k g : g_pc g = GRun (GDo req k) -> goStarted (s_f (g_st g)) = false ->
      gostep E g (set_g_pc GPanicked g)
  | go_cancelled n k g : g_pc g = GWait n k -> goCancelled (s_f (g_st g)) = true ->
      gostep E g (set_g_pc (GRun (k (inr context_canceled))) g)
  | go_receive n k r g : g_pc g = GWait n k -> (n, r) ∈ g_chan g ->
      gostep E g (set_g_pc (GRun (k r)) g)
  | go_return g : g_pc g = GRun GRet -> gostep E g (set_g_pc GCheck g)
  | go_check_dead g : g_pc g = GCheck -> goCompleted (s_f (g_st g)) = true ->
      gostep E g (set_g_pc GExit g)
  | go_check g : g_pc g = GCheck -> goCompleted (s_f (g_st g)) = false ->
      gostep E g (schedule TFinish (set_g_pc GExit g)).

(** What the worker thread does for the goroutine. *)
Inductive workstep (E : Envoy) : gst -> gst -> Prop :=
  | work_do n req q g : g_queue g = TDoCallout n req :: q ->
      workstep E g (do_callout E n req
        (mkGst (g_st g) (g_w g) (g_pc g) q (g_inflight g) (g_chan g) (g_dos g)))
  | work_finish q g : g_queue g = TFinish :: q ->
      workstep E g (mkGst (go_finish E (g_st g)) (g_w g) (g_pc g) q (g_inflight g) (g_chan g) (g_dos g))
  | work_deliver n l1 l2 d g : g_inflight g = l1 ++ n :: l2 ->
      workstep E g (mkGst (g_st g) (g_w g) (g_pc g) (g_queue g) (l1 ++ l2)
        (g_chan g ++ [(n, inl (do_response d))]) (g_dos g)).

(** A run without the end of the stream, and one with it. *)
Definition gstep (E : Envoy) (g g' : gst) : Prop := gostep E g g' \/ workstep E g g'.

Inductive gstep_complete (E : Envoy) : gst -> gst -> Prop :=
  | gc_step g g' : gstep E g g' -> gstep_complete E g g'
  | gc_complete g s' : OnStreamComplete E (g_st g) = Ok s' -> gstep_complete E g (set_g_st s' g).

(** [Go] has just been called on the stream [s] by writer [w]. *)
Definition gstart (w : nat) (fn : gprog) (s : st) : gst := mkGst s w (GRun fn) [] [] [] 0.

Definition gfinal (g : gst) : Prop := (g_pc g = GExit /\ g_queue g = []) \/ g_pc g = GPanicked.

(** ** Facts about the goroutine's flags *)

Lemma elem_of_snoc {A} (x : A) l : x ∈ l ++ [x].
Proof. set_solver. Qed.

Lemma elem_of_snoc_old {A} (x y : A) l : x ∈ l -> x ∈ l ++ [y].
Proof. set_solver. Qed.

Section go.
Context (E : Envoy).

(** The flags operations of the goroutine do not touch. *)
Definition go_flags (s : st) : bool * bool * bool :=
  (goStarted (s_f s), goCompleted (s_f s), goCancelled (s_f s)).

Lemma do_act_go_flags w a s s' : do_act E w a s = Ok s' -> go_flags s' = go_flags s.
Proof.
  destruct a; simpl; try (intros [= <-]);
    unfold SendLocalResponse, SetRequestHeader, AddRequestHeader, RemoveRequestHeader,
      SetFilterState, SetRequestBody, SetResponseBody, IncrementCounterLabels, IncrementGauge,
      DecrementGauge, SetGauge, RecordHistogramLabels, SetMetadata;
    try (repeat case_match; done).
  - unfold SetStreamObject, getOrCreateBag.
    destruct (if decide _ then None else _) as [b|]; [by intros [= <-]|].
    destruct (mint_bag _ _ _) as [[[b k] s1]|] eqn:Em; [|done]. cbn. intros [= <-].
    apply mint_bag_filter in Em. unfold SetFilterState, go_flags.
    destruct (queued w (upd_f _ s1)); simpl; by rewrite Em.
  - case_match; [|done]. intros [= <-]. by case_match.
Qed.

Lemma goStarted_queued w s : goStarted (s_f s) = true -> queued w s = true.
Proof. intros H. unfold queued. by rewrite H, orb_true_r. Qed.

(** One operation of a running goroutine only queues. *)
Lemma go_act_quiet w a s s' :
  goStarted (s_f s) = true -> do_act E w a s = Ok s' ->
  go_flags s' = go_flags s /\ mutations (s_tr s') = mutations (s_tr s).
Proof.
  intros Hg Ha. split; [by eapply do_act_go_flags|].
  apply do_act_ctl in Ha as [_ Hm]. by apply Hm, goStarted_queued.
Qed.

Lemma do_callout_spec n req g :
  go_flags (g_st (do_callout E n req g)) = go_flags (g_st g) /\
  mutations (s_tr (g_st (do_callout E n req g))) = mutations (s_tr (g_st g)) /\
  g_pc (do_callout E n req g) = g_pc g /\ g_queue (do_callout E n req g) = g_queue g /\
  (forall m, m ∈ g_inflight g -> m ∈ g_inflight (do_callout E n req g)) /\
  (forall x, x ∈ g_chan g -> x ∈ g_chan (do_callout E n req g)) /\
  (n ∈ g_inflight (do_callout E n req g) \/ exists r, (n, r) ∈ g_chan (do_callout E n req g)).
Proof.
  unfold do_callout. destruct (goCompleted (s_f (g_st g))); simpl.
  - split_and!; try done; [intros; by apply elem_of_snoc_old|]. right. eexists. apply elem_of_snoc.
  - destruct (ev_callout E (s_tr (g_st g)) req) as [init sync]. destruct sync as [d|]; simpl.
    + split_and!; try done; [by apply mutations_quiet| |]; case_match.
      * intros. by repeat apply elem_of_snoc_old.
      * intros. by apply elem_of_snoc_old.
      * right. eexists. apply elem_of_snoc.
      * right. eexists. apply elem_of_snoc.
    + destruct (decide (init = HTTPCalloutInitSuccess)) as [->|Hi]; simpl.
      * split_and!; try done; [by apply mutations_quiet|intros; by apply elem_of_snoc_old|].
        left. apply elem_of_snoc.
      * assert (exists e, errCalloutInitResult init = Some e) as [e ->].
        { unfold errCalloutInitResult. rewrite decide_False by done. repeat case_decide; by eexists. }
        split_and!; try done; [by apply mutations_quiet|intros; by apply elem_of_snoc_old|].
        right. eexists. apply elem_of_snoc.
Qed.

(** ** The goroutine resumes the stream exactly once *)

(** A [Do] that blocks will be answered. *)
Definition answered (g : gst) : Prop :=
  forall n k, g_pc g = GWait n k ->
    (exists req, TDoCallout n req ∈ g_queue g) \/ n ∈ g_inflight g \/
    (exists r, (n, r) ∈ g_chan g).

(** Before the finish: nothing was applied and a finish is still to come. *)
Definition before (T : list call) (g : gst) : Prop :=
  go_flags (g_st g) = (true, false, false) /\ mutations (s_tr (g_st g)) = T /\ answered g /\
  ((g_pc g <> GExit /\ (TFinish ∉ g_queue g)) \/
   (g_pc g = GExit /\ exists q, (TFinish ∉ q) /\ g_queue g = q ++ [TFinish])).

(** The goroutine has exited and only its finish is still to run. *)
Definition finishing (T : list call) (g : gst) : Prop :=
  g_pc g = GExit /\ g_queue g = [TFinish] /\ go_flags (g_st g) = (true, false, false) /\
  mutations (s_tr (g_st g)) = T.

(** After the finish, in a run from [gi]: the stream is that of the state in which only the
    finish was left, flushed and resumed once, and nothing is left to run. *)
Definition after (gi : gst) (T : list call) (g : gst) : Prop :=
  goStarted (s_f (g_st g)) = false /\ goCompleted (s_f (g_st g)) = true /\
  g_pc g = GExit /\ g_queue g = [] /\
  exists g0, rtc (gstep E) gi g0 /\ finishing T g0 /\
    g_st g = flush E true (upd_f (fun f => set_goStarted false (set_goCompleted true f)) (g_st g0)).

Lemma flush_go_flags c s : go_flags (flush E c s) = go_flags s.
Proof.
  unfold flush, go_flags. destruct (localReply (s_f s)); [done|]. simpl.
  destruct (hasRequestBodyReplacement (s_f s)), c; simpl; try case_match; done.
Qed.

Lemma gostep_before T g g' : gostep E g g' -> before T g -> before T g'.
Proof.
  intros Hs (Hf & Hm & Ha & Hq). injection Hf as F1 F2 F3.
  assert (g_pc g = GExit -> False) as Hne.
  { intros He. destruct Hs; congruence. }
  destruct Hq as [[Hp Hq]|[Hp _]]; [|done].
  destruct Hs; unfold before, go_flags; simpl.
  - destruct (go_act_quiet _ _ _ _ F1 H0) as [G1 G2]. injection G1 as -> -> ->.
    rewrite F1, F2, F3, G2. split_and!; [done..| |by left]. intros ???. done.
  - rewrite F1, F2, F3. split_and!; [done..| |by left]. intros ???. done.
  - rewrite F1, F2, F3. split_and!; [done..| |left; set_solver].
    intros n k' [= <- <-]. left. eexists. apply elem_of_snoc.
  - congruence.
  - congruence.
  - rewrite F1, F2, F3. split_and!; [done..| |by left]. intros ???. done.
  - rewrite F1, F2, F3. split_and!; [done..| |by left]. intros ???. done.
  - congruence.
  - rewrite F1, F2, F3. split_and!; [done..| |right; split; [done|by exists (g_queue g)]].
    intros ???. done.
Qed.

Lemma workstep_before gi T g g' :
  rtc (gstep E) gi g -> workstep E g g' -> before T g -> before T g' \/ after gi T g'.
Proof.
  intros Hrt Hs (Hf & Hm & Ha & Hq). destruct Hs as [n req q g Hg|q g Hg|n l1 l2 d g Hg].
  - left. set (g0 := mkGst _ _ _ _ _ _ _).
    destruct (do_callout_spec n req g0) as (D1 & D2 & D3 & D4 & D5 & D6 & D7).
    unfold before. rewrite D1, D2, D3, D4. split_and!; [done..| |].
    + intros m k Hp. rewrite D3 in Hp. destruct (Ha m k Hp) as [[r Hr]|[Hi|[r Hr]]].
      * rewrite Hg in Hr. apply elem_of_cons in Hr as [[= -> ->]|Hr]; [by right|].
        left. exists r. by rewrite D4.
      * right; left. by apply D5.
      * right; right. exists r. by apply D6.
    + simpl. rewrite Hg in Hq. destruct Hq as [[H1 H2]|[H1 (q' & H2 & H3)]]; [left; set_solver|].
      right. split; [done|]. destruct q' as [|t q']; [done|]. injection H3 as <- ->.
      exists q'. split; [set_solver|done].
  - right. rewrite Hg in Hq. destruct Hq as [[_ Hq]|[Hp (q' & Hq & Hq')]]; [set_solver|].
    destruct q' as [|t q']; [injection Hq' as ->|injection Hq' as <- ->; set_solver].
    unfold after, go_finish. injection Hf as F1 F2 F3. simpl. rewrite F2.
    pose proof (flush_go_flags true (upd_f (fun f => set_goStarted false (set_goCompleted true f)) (g_st g)))
      as Hfl. injection Hfl as L1 L2 L3. simpl in *.
    split_and!; [done..|]. exists g. split; [done|split; [|done]]. unfold finishing, go_flags. by rewrite F1, F2, F3.
  - left. unfold before. simpl. split_and!; [done..| |done].
    intros m k Hp. destruct (Ha m k Hp) as [Hr|[Hi|[r Hr]]]; simpl.
    + by left.
    + rewrite Hg in Hi. destruct (decide (m = n)) as [->|Hmn].
      * right; right. eexists. apply elem_of_snoc.
      * right; left. set_solver.
    + right; right. exists r. by apply elem_of_snoc_old.
Qed.

Lemma after_step gi T g g' : gstep E g g' -> after gi T g -> after gi T g'.
Proof.
  intros Hs (A1 & A2 & A3 & A4 & A5). destruct Hs as [Hs|Hs]; destruct Hs; try congruence.
  unfold after. simpl. done.
Qed.

Lemma go_reachable T g g' :
  rtc (gstep E) g g' -> before T g -> before T g' \/ after g T g'.
Proof.
  intros H Hb. revert g' H. refine (rtc_ind_r _ _ _ _); [by left|]. intros g1 g2 Hr Hs IH.
  destruct IH as [H0|H0]; [|right; by eapply after_step].
  destruct Hs as [Hs|Hs]; [left; by eapply gostep_before|by eapply workstep_before].
Qed.

(** C9: a goroutine resumes its stream exactly once.  From [Go] on, while the stream lives,
    no step of the goroutine or of the worker changes the request until the finish it
    schedules runs.  When the goroutine has exited and nothing is scheduled any more, the run
    has passed through a state in which the request was still untouched and only the finish
    was left to run, and the stream is now that state's stream, everything it had queued
    included, with the goroutine flags reset and one flush that resumes: nothing was applied
    before that flush, dropped by it, or done after it. *)
Theorem goroutine_resumes_exactly_once w fn s g :
  go_flags s = (true, false, false) -> rtc (gstep E) (gstart w fn s) g ->
  (mutations (s_tr (g_st g)) = mutations (s_tr s) /\ ~ (g_pc g = GExit /\ g_queue g = [])) \/
  (g_pc g = GExit /\ g_queue g = [] /\
   exists g0, rtc (gstep E) (gstart w fn s) g0 /\ finishing (mutations (s_tr s)) g0 /\
     g_st g = flush E true
       (upd_f (fun f => set_goStarted false (set_goCompleted true f)) (g_st g0))).
Proof.
  intros Hf H. apply (go_reachable (mutations (s_tr s))) in H.
  - destruct H as [(_ & Hm & _ & Hq)|(_ & _ & H1 & H2 & H3)]; [left|by right].
    split; [done|]. intros [Hp Hn]. destruct Hq as [[? _]|[_ (q & _ & Hq)]]; [done|].
    rewrite Hn in Hq. by destruct q.
  - split_and!; [done..| |left; set_solver]. intros ???. done.
Qed.

(** C10: nothing deadlocks.  While the stream lives every reachable state in which the
    goroutine has not finished (or panicked) has a next step: a blocked [Do] is always
    waiting for something the worker or Envoy can do, and a finished goroutine for its
    scheduled finish. *)
Theorem goroutine_never_stuck w fn s g :
  go_flags s = (true, false, false) -> rtc (gstep E) (gstart w fn s) g ->
  gfinal g \/ exists g', gstep E g g'.
Proof.
  intros Hf H. apply (go_reachable (mutations (s_tr s))) in H.
  2: { split_and!; [done..| |left; set_solver]. intros ???. done. }
  destruct H as [(Hfl & Hm & Ha & Hq)|(_ & _ & H1 & H2 & H3)]; [|left; by left].
  injection Hfl as F1 F2 F3. destruct (g_pc g) as [p|n k| | |] eqn:Hp.
  - right. destruct p as [|a k|req k].
    + eexists. left. by apply go_return.
    + destruct (do_act E (g_w g) a (g_st g)) eqn:Ea; eexists; left;
        [by eapply go_act|by eapply go_act_panic].
    + eexists. left. by eapply go_do.
  - right. destruct (Ha n k Hp) as [[req Hr]|[Hi|[r Hr]]].
    + destruct (g_queue g) as [|[m rq|] q] eqn:Eq; [by apply elem_of_nil in Hr| |].
      * eexists. right. by eapply work_do.
      * eexists. right. by eapply work_finish.
    + apply list_elem_of_split in Hi as (l1 & l2 & Hi).
      eexists. right. by apply (work_deliver E n l1 l2 (mkDelivery 0 None None)).
    + eexists. left. by eapply go_receive.
  - right. eexists. left. by apply go_check.
  - destruct (g_queue g) as [|[m rq|] q] eqn:Eq; [by left; left| |]; right; eexists; right.
    + by eapply work_do.
    + by eapply work_finish.
  - by left; right.
Qed.

(** ** Completion of the stream while the goroutine runs *)

Lemma goStarted_stable w : stable E w (fun s => goStarted (s_f s) = true).
Proof.
  split; intros *; try done; intros.
  - apply do_act_go_flags in H0. injection H0 as -> _ _. done.
  - destruct q; simpl; try done.
    + unfold GetStreamObject. repeat case_match; simplify_eq/=; done.
    + unfold SetUpstreamOverrideHost. by case_match.
  - unfold handoff, cas. repeat case_decide; simpl; try done.
    pose proof (flush_go_flags true (upd_f (set_calloutState calloutStateFlushed) s)) as Hfl.
    injection Hfl as -> _ _. done.
  - unfold Go in *. repeat case_match; simplify_eq/=. done.
Qed.

Lemma OnStreamComplete_go s s' :
  goStarted (s_f s) = true -> OnStreamComplete E s = Ok s' -> go_flags s' = (true, true, true).
Proof.
  intros Hg. unfold OnStreamComplete. intros Hok. inv_bind.
  assert (goStarted (s_f a) = true) as Ha.
  { clear Hok. destruct (bool_decide _ && _); [|by injection E0 as <-].
    cbn beta iota zeta delta [newWriter] in E0. inv_bind. injection E0 as <-. simpl.
    unfold call_responseHandler in E1. case_match; [|by injection E1 as <-].
    by apply (run_stable E _ _ (goStarted_stable _)) in E1. }
  injection Hok as <-.
  destruct (onStreamComplete (cfg (s_f a))); simpl; destruct (onStreamFinalized (cfg (s_f a)));
    simpl; rewrite Ha; unfold go_flags; simpl; rewrite Ha; done.
Qed.

(** A stream that completes while its goroutine runs is left alone: from
    [OnStreamComplete] on, whatever the goroutine and the worker still do, no call changes
    or resumes the request, and a pending [Do] returns instead of reaching Envoy. *)
Theorem completed_stream_is_not_resumed g s' g' :
  goStarted (s_f (g_st g)) = true -> OnStreamComplete E (g_st g) = Ok s' ->
  rtc (gstep E) (set_g_st s' g) g' ->
  mutations (s_tr (g_st g')) = mutations (s_tr s') /\ goCompleted (s_f (g_st g')) = true.
Proof.
  intros Hg Hc%OnStreamComplete_go; [|done]. intros H.
  assert (go_flags (g_st g') = (true, true, true) /\ mutations (s_tr (g_st g')) = mutations (s_tr s'))
    as [Hf ?]; [|by injection Hf as _ -> _].
  remember (set_g_st s' g) as g0 eqn:Hg0.
  assert (go_flags (g_st g0) = (true, true, true) /\ mutations (s_tr (g_st g0)) = mutations (s_tr s'))
    as H0 by by rewrite Hg0. clear Hg0 Hg. revert H0.
  induction H as [|g1 g2 g3 Hs _ IH]; intros [Hf Hm]; [done|]. apply IH. clear IH.
  injection Hf as F1 F2 F3. unfold go_flags.
  destruct Hs as [Hs|Hs]; destruct Hs; simpl; try (by rewrite F1, F2, F3).
  - destruct (go_act_quiet _ _ _ _ F1 H0) as [G1 G2]. injection G1 as -> -> ->.
    by rewrite F1, F2, F3, G2.
  - unfold do_callout. simpl. rewrite F2. simpl. by rewrite F1, F2, F3.
  - unfold go_finish. rewrite F2. by rewrite F1, F2, F3.
Qed.

(** A running goroutine does not hold the request body.  Without a body handler a body
    frame that arrives while the goroutine of a stopped header callback is still running is
    answered Continue, which releases the request before the goroutine's finish applies what
    it queued. *)
Theorem body_released_while_goroutine_runs body eos s :
  requestBodyHandler (cfg (s_f s)) = None -> goStarted (s_f s) = true ->
  calloutState (s_f s) <> calloutStatePaused -> stopped (s_f s) = false ->
  OnRequestBody E body eos s = Ok (BodyStatusContinue, s) /\
  OnRequestTrailers s = TrailersStatusContinue.
Proof.
  intros Hb _ Hp Hs. unfold OnRequestBody, OnRequestTrailers.
  by rewrite Hb, Hs, bool_decide_false.
Qed.
End go.

(** ** Witnesses *)

Definition go_body : gprog := GAct (ASetRequestHeader "user" "u") GRet.

(** A stream whose handler has started a goroutine. *)
Definition going : st := Eval vm_compute in
  out (OnRequestHeaders (simEnvoy [] (0%Z, None)) false (newStream (onlyRequest (fun _ => PGo go_body PRet)))).

(** The goroutine runs to its end. *)
Lemma go_body_ends :
  exists g, rtc (gstep (simEnvoy [] (0%Z, None))) (gstart 0 go_body going) g /\
    g_pc g = GExit /\ g_queue g = [].
Proof.
  eexists. split; [|split].
  - eapply rtc_l; [left; eapply (go_act _ (ASetRequestHeader "user" "u") GRet); reflexivity|].
    eapply rtc_l; [left; eapply go_return; reflexivity|].
    eapply rtc_l; [left; eapply go_check; reflexivity|].
    eapply rtc_l; [right; eapply (work_finish _ []); reflexivity|]. apply rtc_refl.
  - reflexivity.
  - reflexivity.
Qed.

Lemma goroutine_resumes_exactly_once_witness :
  let E := simEnvoy [] (0%Z, None) in
  exists g g0, rtc (gstep E) (gstart 0 go_body going) g /\
    finishing (mutations (s_tr going)) g0 /\
    g_st g = flush E true (upd_f (fun f => set_goStarted false (set_goCompleted true f)) (g_st g0)).
Proof.
  intros E. destruct go_body_ends as (g & H & H1 & H2).
  destruct (goroutine_resumes_exactly_once E 0 go_body going g eq_refl H)
    as [[_ Hn]|(_ & _ & g0 & _ & Hs1 & Hs2)].
  - exfalso. apply Hn. split; [exact H1|exact H2].
  - exists g, g0. split; [exact H|]. split; [exact Hs1|exact Hs2].
Defined.

Lemma goroutine_never_stuck_witness :
  let E := simEnvoy [] (0%Z, None) in
  gfinal (gstart 0 go_body going) \/ exists g', gstep E (gstart 0 go_body going) g'.
Proof.
  intros E. apply (goroutine_never_stuck E 0 go_body going); [reflexivity|apply rtc_refl].
Defined.

(** The stream after [OnStreamComplete]. *)
Definition completed : st := Eval vm_compute in
  out (s ← OnStreamComplete (simEnvoy [] (0%Z, None)) going; Ok (tt, s)).

Lemma completed_stream_is_not_resumed_witness :
  let E := simEnvoy [] (0%Z, None) in
  exists g', g_pc g' = GCheck /\
    mutations (s_tr (g_st g')) = mutations (s_tr completed) /\ goCompleted (s_f (g_st g')) = true.
Proof.
  intros E.
  assert (exists g', rtc (gstep E) (set_g_st completed (gstart 0 go_body going)) g' /\
            g_pc g' = GCheck) as (g' & H1 & H2).
  { eexists. split.
    - eapply rtc_l; [left; eapply (go_act _ (ASetRequestHeader "user" "u") GRet); reflexivity|].
      eapply rtc_l; [left; eapply go_return; reflexivity|]. apply rtc_refl.
    - reflexivity. }
  exists g'. split; [exact H2|].
  refine (completed_stream_is_not_resumed E (gstart 0 go_body going) completed g' eq_refl _ H1).
  vm_compute. reflexivity.
Defined.

Lemma body_released_while_goroutine_runs_witness :
  OnRequestBody (simEnvoy [] (0%Z, None)) (Some []) true going = Ok (BodyStatusContinue, going).
Proof.
  by apply (body_released_while_goroutine_runs (simEnvoy [] (0%Z, None)) (Some []) true going).
Defined.
