(* ===== verification/GoPath.v ===== *)
(** * up/writer.go: what a goroutine does to its stream

    The body of a goroutine started by [Writer.Go] is a program of operations and blocking
    [Do] calls (Goroutine.v runs it beside the worker thread).  [gexec] is the sequential
    reading of such a program: each operation performed on the stream in turn, each [Do] a
    callout made and its answer received.  The interleaved execution implements it: when the
    stream is resumed, it is the stream of one sequential execution, whose answers are the
    values the channels of the [Do] calls got, flushed once. *)
From stdpp Require Import base list gmap strings relations.
From Stdlib Require Import ZArith Lia.
From S2P Require Import Prelude Async StreamObject Envoy Grpc FilterState Filter FilterFacts FlushProps RequestProps CalloutProps StreamProps Goroutine.

(** ** The sequential reading *)

(** A [Do] and what it returned. *)
Abbreviation exchange := (HTTPCalloutRequest * (HTTPCalloutResponse + string))%type.

(** [gexec E w n p s d l s']: started on stream [s] as writer [w] with [n] [Do]s made before,
    the program [p] performs the operations [l], gets the answers [d] and leaves [s']. *)
Inductive gexec (E : Envoy) (w : nat) : nat -> gprog -> st -> list exchange -> list act -> st -> Prop :=
  | gx_ret n s : gexec E w n GRet s [] [] s
  | gx_act n a k s s1 d l s' : do_act E w a s = Ok s1 -> gexec E w n k s1 d l s' ->
      gexec E w n (GAct a k) s d (a :: l) s'
  | gx_do n req k r s d l s' : gexec E w (S n) (k r) (emit (CHttpCallout req (TDo n)) s) d l s' ->
      gexec E w n (GDo req k) s ((req, r) :: d) l s'.

(** Every operation the program can reach has a queue of its own or an immediate effect: it
    makes no local reply, replaces no body and attaches no stream object. *)
Inductive all_plain : gprog -> Prop :=
  | ap_ret : all_plain GRet
  | ap_act a k : plain a = true -> all_plain k -> all_plain (GAct a k)
  | ap_do req k : (forall r, all_plain (k r)) -> all_plain (GDo req k).

(** The calls of a list of operations. *)
Definition path_calls (l : list act) : list call := l ≫= act_calls.

(** What Envoy has been told or will be told at the next flush. *)
Definition told (k : kind) (s : st) : list call := of_kind k (s_tr s) ++ queue_of k (qs (s_f s)).

(** Nothing but the queues is pending. *)
Definition only_queues (f : filter) : Prop :=
  localReply f = None /\ hasRequestBodyReplacement f = false /\ stripFramingOnResume f = false.

(** The i-th answer of [d] is what the channel of the i-th [Do] got. *)
Definition answers (g : gst) (d : list exchange) : Prop :=
  length d = g_dos g /\ forall i req r, d !! i = Some (req, r) -> (i, r) ∈ g_chan g.

(** The goroutine's flags when its finish runs. *)
Definition finished_flags (s : st) : st :=
  upd_f (fun f => set_goStarted false (set_goCompleted true f)) s.

Section path.
Context (E : Envoy) (w : nat) (fn : gprog) (s0 : st).

(** The rest of the execution completes one of [fn]. *)
Definition rest (n : nat) (p : gprog) (s : st) (d : list exchange) (l : list act) : Prop :=
  forall d' l' s', gexec E w n p s d' l' s' -> gexec E w 0 fn s0 (d ++ d') (l ++ l') s'.

(** The channel entries and the callouts in flight belong to the first [n] [Do]s, and the
    answers used are those of the channels. *)
Definition used (n : nat) (d : list exchange) (g : gst) : Prop :=
  (forall i req r, d !! i = Some (req, r) -> (i, r) ∈ g_chan g) /\
  (forall m r, (m, r) ∈ g_chan g -> m < n) /\ (forall m, m ∈ g_inflight g -> m < n).

(** Where a live goroutine is on an execution of [fn]. *)
Definition on_path (g : gst) (d : list exchange) (l : list act) : Prop :=
  match g_pc g with
  | GRun p => g_queue g = [] /\ g_dos g = length d /\ used (length d) d g /\ rest (length d) p (g_st g) d l
  | GWait n k => n = length d /\ g_dos g = S n /\ exists req,
      (g_queue g = [TDoCallout n req] /\ used n d g /\
       rest n (GDo req k) (g_st g) d l) \/
      (g_queue g = [] /\ used (S n) d g /\
       forall r, rest (S n) (k r) (g_st g) (d ++ [(req, r)]) l)
  | GCheck => g_queue g = [] /\ g_dos g = length d /\ used (length d) d g /\ gexec E w 0 fn s0 d l (g_st g)
  | GExit => g_queue g = [TFinish] /\ g_dos g = length d /\ used (length d) d g /\ gexec E w 0 fn s0 d l (g_st g)
  | GPanicked => g_queue g = []
  end.

Definition live_path (g : gst) : Prop :=
  go_flags (g_st g) = (true, false, false) /\ g_w g = w /\ exists d l, on_path g d l.

(** After the finish. *)
Definition ended (g : gst) : Prop :=
  g_pc g = GExit /\ g_queue g = [] /\ exists d l s1, gexec E w 0 fn s0 d l s1 /\ answers g d /\
    goCompleted (s_f s1) = false /\ g_st g = flush E true (finished_flags s1).

Lemma rest_act n a k s s1 d l :
  do_act E w a s = Ok s1 -> rest n (GAct a k) s d l -> rest n k s1 d (l ++ [a]).
Proof. intros Ha Hr d' l' s' Hk. rewrite <- app_assoc. apply Hr. by eapply gx_act. Qed.

Lemma rest_ret n s d l : rest n GRet s d l -> gexec E w 0 fn s0 d l s.
Proof. intros Hr. specialize (Hr _ _ _ (gx_ret E w n s)). by rewrite !app_nil_r in Hr. Qed.

Lemma rest_do n req k s d l r :
  rest n (GDo req k) s d l ->
  rest (S n) (k r) (emit (CHttpCallout req (TDo n)) s) (d ++ [(req, r)]) l.
Proof. intros Hr d' l' s' Hk. rewrite <- app_assoc. apply Hr. by constructor. Qed.

Lemma used_answer d g req r :
  used (S (length d)) d g -> (length d, r) ∈ g_chan g -> used (S (length d)) (d ++ [(req, r)]) g.
Proof.
  intros (U1 & U2 & U3) Hr. split_and!; [|done|done]. intros i req' r' Hi.
  apply lookup_app_Some in Hi as [Hi|[Hl Hi]]; [by eapply U1|].
  destruct (i - length d) eqn:Hd; [|done]. injection Hi as <- <-. by replace i with (length d) by lia.
Qed.

Lemma gostep_path g g' : gostep E g g' -> live_path g -> live_path g'.
Proof.
  intros Hs (Hf & Hw & d & l & Hp). unfold live_path.
  assert (go_flags (g_st g') = go_flags (g_st g) /\ g_w g' = g_w g) as [-> ->].
  { destruct Hs; cbn; try done. split; [by eapply do_act_go_flags|done]. }
  split; [done|split; [done|]]. injection Hf as F1 F2 F3.
  destruct Hs as [a k g s' Hpc Ha|a k g msg Hpc Ha|req k g Hpc Hg|req k g Hpc Hg|n k g Hpc Hc|n k r g Hpc Hr
                 |g Hpc|g Hpc Hc|g Hpc Hc]; unfold on_path in Hp; rewrite Hpc in Hp; try congruence.
  - destruct Hp as (P1 & P2 & P3 & P4). exists d, (l ++ [a]). split_and!; [done..|].
    rewrite Hw in Ha. by eapply rest_act.
  - exists d, l. by destruct Hp.
  - destruct Hp as (P1 & P2 & P3 & P4). exists d, l. cbn. rewrite P1, P2. split_and!; [done..|].
    exists req. left. done.
  - destruct Hp as (-> & P2 & req & [(Q1 & (U1 & U2 & U3) & Q3)|(Q1 & Q2 & Q3)]).
    { apply U2 in Hr. lia. }
    exists (d ++ [(req, r)]), l. cbn. rewrite length_app. cbn. rewrite Nat.add_1_r.
    split_and!; [done..| |apply Q3]. by apply used_answer.
  - destruct Hp as (P1 & P2 & P3 & P4). exists d, l. split_and!; [done..|]. by eapply rest_ret.
  - destruct Hp as (P1 & P2 & P3 & P4). exists d, l. cbn. rewrite P1. split_and!; [done..|]. exact P4.
Qed.

(** What the worker does for the callout of a live goroutine's [Do]. *)
Lemma do_callout_live n req g : goCompleted (s_f (g_st g)) = false ->
  g_st (do_callout E n req g) = emit (CHttpCallout req (TDo n)) (g_st g) /\
  g_w (do_callout E n req g) = g_w g /\ g_dos (do_callout E n req g) = g_dos g /\
  (forall m r, (m, r) ∈ g_chan (do_callout E n req g) -> (m, r) ∈ g_chan g \/ m = n) /\
  (forall m, m ∈ g_inflight (do_callout E n req g) -> m ∈ g_inflight g \/ m = n).
Proof.
  intros Hc. unfold do_callout. rewrite Hc. destruct (ev_callout E (s_tr (g_st g)) req) as [init sync].
  destruct sync; [|case_decide]; case_match; cbn; set_solver.
Qed.

Lemma used_callout n req d g : goCompleted (s_f (g_st g)) = false ->
  used n d g -> used (S n) d (do_callout E n req g).
Proof.
  intros Hc (U1 & U2 & U3). destruct (do_callout_live n req g Hc) as (_ & _ & _ & D1 & D2).
  destruct (do_callout_spec E n req g) as (_ & _ & _ & _ & _ & D3 & _). split_and!.
  - intros i rq r Hi. by eapply D3, U1.
  - intros m r [Hm%U2| ->]%D1; lia.
  - intros m [Hm%U3| ->]%D2; lia.
Qed.

Lemma workstep_path g g' : workstep E g g' -> live_path g -> live_path g' \/ ended g'.
Proof.
  intros Hs (Hf & Hw & d & l & Hp). pose proof Hf as Hf'. injection Hf' as F1 F2 F3.
  destruct Hs as [n req q g Hg|q g Hg|n l1 l2 dl g Hg].
  - left. set (g0 := mkGst _ _ _ _ _ _ _).
    assert (goCompleted (s_f (g_st g0)) = false) as Hc0 by done.
    destruct (do_callout_live n req g0 Hc0) as (D1 & D2 & D3 & _).
    destruct (do_callout_spec E n req g0) as (D4 & _ & D5 & D6 & _).
    split; [by rewrite D4|split; [by rewrite D2|]]. exists d, l. unfold on_path in *. rewrite D1, D3, D5, D6.
    cbn [g_pc g0 g_st g_dos g_queue]. destruct (g_pc g) as [p|m k| | |]; try first [congruence|destruct Hp; congruence].
    destruct Hp as (-> & P2 & rq & [(Q1 & Q2 & Q3)|(Q1 & _)]); [|congruence].
    rewrite Hg in Q1. injection Q1 as -> -> ->. split_and!; [done..|]. exists rq. right.
    split; [done|split; [by apply used_callout|]]. intros r. by apply rest_do.
  - unfold on_path in Hp. destruct (g_pc g) as [p|m k| | |] eqn:Hpc; try first [congruence|destruct Hp; congruence].
    + destruct Hp as (-> & P2 & rq & [(Q1 & _)|(Q1 & _)]); congruence.
    + right. destruct Hp as (P1 & P2 & P3 & P4). rewrite Hg in P1. injection P1 as ->.
      split; [done|split; [done|]]. exists d, l, (g_st g). split; [done|]. split; [|split; [done|]].
      * split; [done|]. by destruct P3.
      * cbn. unfold go_finish. by rewrite F2.
  - left. split; [done|split; [done|]]. exists d, l. unfold on_path in *. cbn [g_pc g_queue g_dos g_st].
    assert (forall m, used m d g ->
      used m d (mkGst (g_st g) (g_w g) (g_pc g) (g_queue g) (l1 ++ l2) (g_chan g ++ [(n, inl (do_response dl))]) (g_dos g)))
      as Hu.
    { intros m (U1 & U2 & U3). assert (n < m) by (apply U3; rewrite Hg; set_solver). split_and!; cbn.
      - intros i rq r Hi. apply elem_of_snoc_old. by eapply U1.
      - intros m' r [Hm%U2|[= -> _]%list_elem_of_singleton]%elem_of_app; lia.
      - intros m' Hm. apply U3. rewrite Hg. set_solver. }
    destruct (g_pc g); naive_solver.
Qed.

Lemma ended_step g g' : gstep E g g' -> ended g -> ended g'.
Proof.
  intros Hs (A1 & A2 & d & l & s1 & A3 & [A4 A5] & A6). destruct Hs as [Hs|Hs]; destruct Hs; try congruence.
  split; [done|split; [done|]]. exists d, l, s1. split; [done|]. split; [|done].
  split; [done|]. intros i rq r Hi. apply elem_of_snoc_old. by eapply A5.
Qed.

Lemma reachable_path g :
  go_flags s0 = (true, false, false) -> rtc (gstep E) (gstart w fn s0) g -> live_path g \/ ended g.
Proof.
  intros Hf. revert g. refine (rtc_ind_r _ _ _ _).
  - left. split_and!; [done..|]. exists [], []. split_and!; [done..| |by intros d l s'].
    split_and!; [done| |]; intros *; by intros ?%not_elem_of_nil.
  - intros g g' _ Hs [Hg|Hg]; [|right; by eapply ended_step].
    destruct Hs as [Hs|Hs]; [left; by eapply gostep_path|by eapply workstep_path].
Qed.

(** When the goroutine has finished and nothing is scheduled any more, the stream is that of
    one sequential execution, flushed. *)
Lemma finished_exec g :
  go_flags s0 = (true, false, false) -> rtc (gstep E) (gstart w fn s0) g ->
  g_pc g = GExit -> g_queue g = [] ->
  exists d l s1, gexec E w 0 fn s0 d l s1 /\ answers g d /\ goCompleted (s_f s1) = false /\
    g_st g = flush E true (finished_flags s1).
Proof.
  intros Hf Hr He Hq. apply reachable_path in Hr as [(_ & _ & d & l & Hp)|(_ & _ & H)]; [|done|done].
  unfold on_path in Hp. rewrite He, Hq in Hp. by destruct Hp.
Qed.
End path.

(** ** Operations that only queue *)

Lemma path_calls_cons a l : path_calls (a :: l) = act_calls a ++ path_calls l.
Proof. done. Qed.

Lemma told_emit k c s : kind_of c = None -> told k (emit c s) = told k s.
Proof.
  intros Hc. unfold told. change (s_tr (emit c s)) with (s_tr s ++ [c]). rewrite of_kind_app.
  assert (of_kind k [c] = []) as -> by (unfold of_kind; by rewrite filter_cons, Hc).
  by rewrite app_nil_r.
Qed.

(** One operation goes to the queue of its kind. *)
Lemma act_told E w a s s' : plain a = true -> goStarted (s_f s) = true -> only_queues (s_f s) ->
  do_act E w a s = Ok s' ->
  (forall k, told k s' = told k s ++ of_kind k (act_calls a)) /\ only_queues (s_f s').
Proof.
  intros Hp Hg Ho Ha. pose proof (goStarted_queued w _ Hg) as Hq. split.
  - intros k. destruct (act_deferred _ _ _ _ _ k Hp Hq Ha) as (Hd & _). unfold told.
    by rewrite Hd, app_assoc.
  - destruct (act_deferred _ _ _ _ _ KHeader Hp Hq Ha) as (_ & _ & D1 & D2 & D3).
    unfold only_queues in *. by rewrite D1, D2, D3.
Qed.

(** A sequential execution of such operations queues them in order. *)
Lemma gexec_told E w n p s d l s' :
  gexec E w n p s d l s' -> all_plain p -> goStarted (s_f s) = true -> only_queues (s_f s) ->
  (forall k, told k s' = told k s ++ of_kind k (path_calls l)) /\ only_queues (s_f s').
Proof.
  induction 1 as [n s|n a k s s1 d l s' Ha _ IH|n req k r s d l s' _ IH]; intros Hp Hg Ho.
  - split; [|done]. intros k. by rewrite app_nil_r.
  - inversion Hp as [|? ? Hpa Hpk|]; subst. destruct (act_told _ _ _ _ _ Hpa Hg Ho Ha) as [Ht Ho1].
    assert (goStarted (s_f s1) = true) as Hg1.
    { apply do_act_go_flags in Ha. by injection Ha as -> _ _. }
    destruct (IH Hpk Hg1 Ho1) as [Ht1 Ho2]. split; [|done]. intros kd.
    by rewrite Ht1, Ht, path_calls_cons, of_kind_app, app_assoc.
  - inversion Hp as [| |? ? Hk]; subst. destruct (IH (Hk r) Hg Ho) as [Ht Ho1]. split; [|done].
    intros kd. by rewrite Ht, told_emit.
Qed.

(** The flush of the finish tells Envoy what was queued. *)
Lemma finish_told E s k : only_queues (s_f s) ->
  of_kind k (s_tr (flush E true (finished_flags s))) = told k s.
Proof.
  intros (H1 & H2 & H3). unfold finished_flags. set (s1 := upd_f _ s).
  assert (localReply (s_f s1) = None) as Hl by done. rewrite flush_trace by done.
  change (hasRequestBodyReplacement (s_f s1)) with (hasRequestBodyReplacement (s_f s)).
  change (stripFramingOnResume (s_f s1)) with (stripFramingOnResume (s_f s)).
  change (qs (s_f s1)) with (qs (s_f s)). change (s_tr s1) with (s_tr s). rewrite H2, H3.
  rewrite !of_kind_app, pending_spec.
  change (of_kind k []) with (@nil call). by destruct k; cbn; rewrite app_nil_r.
Qed.

(** ** Property *)

(** C11: what a goroutine does to its stream is what its program says, read sequentially.  For
    every interleaving of a goroutine with the worker thread, when it has finished on a live
    stream there is one sequential execution of its program such that: the answer of its i-th
    [Do] is the one the channel of that [Do] got (there is one for every [Do] made); the
    stream is the one that execution leaves, with every operation performed in the order of
    the program and every callout made, flushed once.  Where moreover the program makes no
    local reply, replaces no body and attaches no stream object, and only queued mutations
    were pending when it started, Envoy has been told, for each kind of mutation, what was
    pending at the start and then exactly the operations of that execution, in order. *)
Theorem goroutine_applies_its_path E w fn s g :
  go_flags s = (true, false, false) ->
  rtc (gstep E) (gstart w fn s) g -> g_pc g = GExit -> g_queue g = [] ->
  exists d l s1, gexec E w 0 fn s d l s1 /\ answers g d /\
    g_st g = flush E true (finished_flags s1) /\
    (only_queues (s_f s) -> all_plain fn -> forall k,
       of_kind k (s_tr (g_st g)) =
         of_kind k (s_tr s) ++ queue_of k (qs (s_f s)) ++ of_kind k (path_calls l)).
Proof.
  intros Hf Hr He Hq. destruct (finished_exec _ _ _ _ _ Hf Hr He Hq) as (d & l & s1 & Hx & Ha & _ & Hg).
  exists d, l, s1. split_and!; [done..|]. intros Ho Hp k.
  assert (goStarted (s_f s) = true) as Hst by by injection Hf.
  destruct (gexec_told _ _ _ _ _ _ _ _ Hx Hp Hst Ho) as [Ht Ho1].
  rewrite Hg, finish_told, Ht by done. unfold told. by rewrite app_assoc.
Qed.

Lemma goroutine_applies_its_path_witness :
  let E := simEnvoy [] (0%Z, None) in
  exists g, rtc (gstep E) (gstart 0 go_body going) g /\
    of_kind KHeader (s_tr (g_st g)) = [CReqHeaderSet "user" "u"].
Proof.
  intros E. destruct go_body_ends as (g & H & H1 & H2). exists g. split; [exact H|].
  destruct (goroutine_applies_its_path E 0 go_body going g) as (d & l & s1 & Hp & _ & _ & Hk).
  - reflexivity.
  - exact H.
  - exact H1.
  - exact H2.
  - rewrite Hk; [|repeat split|repeat constructor].
    inversion Hp as [|? ? ? ? ? ? ? ? _ Hp'|]; subst. inversion Hp'; subst. reflexivity.
Defined.
