(* ===== verification/GrpcProps.v ===== *)
(** * up/grpc.go: correctness of the frame codec and of the unary callout

    Decoding accepts exactly the encodings of messages shorter than 2^32 bytes (with
    whatever follows the frame ignored), and a unary call whose response arrives in any
    number of chunks reports the message and the status of the trailers, once. *)
From stdpp Require Import base list gmap strings.
From Stdlib Require Import ZArith Lia.
From S2P Require Import Prelude Async StreamObject Envoy Grpc FilterState Filter FilterFacts FlushProps RequestProps.

(** ** Bytes and big-endian words *)

Lemma Z_of_byte_range b : (0 <= Z_of_byte b < 256)%Z.
Proof. unfold Z_of_byte. pose proof (Byte.to_N_bounded b). lia. Qed.

Lemma Z_of_byte_of_Z z : Z_of_byte (byte_of_Z z) = (z mod 256)%Z.
Proof.
  unfold Z_of_byte, byte_of_Z. pose proof (Z.mod_pos_bound z 256 ltac:(lia)).
  destruct (Byte.of_N _) as [b|] eqn:Hb.
  - apply Byte.to_of_N in Hb. rewrite Hb. lia.
  - apply Byte.of_N_None_iff in Hb. lia.
Qed.

Lemma byte_of_Z_of_byte b z : (z mod 256 = Z_of_byte b)%Z -> byte_of_Z z = b.
Proof.
  intros H. unfold byte_of_Z. rewrite H. unfold Z_of_byte.
  rewrite N2Z.id. by rewrite Byte.of_to_N.
Qed.

(** A bit of a byte. *)
Lemma Z_of_byte_testbit_high b n : (8 <= n)%Z -> Z.testbit (Z_of_byte b) n = false.
Proof.
  intros Hn. pose proof (Z_of_byte_range b).
  destruct (decide (Z_of_byte b = 0%Z)) as [->|]; [apply Z.testbit_0_l|].
  apply Z.bits_above_log2; [lia|]. apply Z.lt_le_trans with 8%Z; [|lia].
  apply Z.log2_lt_pow2; lia.
Qed.

Lemma Uint32_PutUint32 v rest : (0 <= v < 2 ^ 32)%Z -> Uint32 (PutUint32 v ++ rest) = v.
Proof.
  intros Hv. unfold PutUint32, Uint32. cbn [app]. rewrite !Z_of_byte_of_Z. change 256%Z with (2 ^ 8)%Z.
  apply Z.bits_inj'. intros n Hn. rewrite !Z.lor_spec.
  rewrite !Z.shiftl_spec by lia. rewrite !Z.testbit_mod_pow2 by lia.
  destruct (Z.ltb_spec n 8).
  { rewrite !(Z.testbit_neg_r _ (n - _)) by lia. by rewrite !andb_false_r, !orb_false_r. }
  destruct (Z.ltb_spec (n - 8) 8).
  { rewrite !(Z.testbit_neg_r _ (n - 16)), !(Z.testbit_neg_r _ (n - 24)), !Z.shiftr_spec by lia.
    rewrite !andb_false_r, !orb_false_r. simpl. f_equal. lia. }
  destruct (Z.ltb_spec (n - 16) 8).
  { rewrite !(Z.testbit_neg_r _ (n - 24)), !Z.shiftr_spec by lia.
    rewrite !andb_false_r, !orb_false_r. simpl. f_equal. lia. }
  destruct (Z.ltb_spec (n - 24) 8).
  { rewrite !Z.shiftr_spec by lia. simpl. f_equal. lia. }
  simpl. symmetry. destruct (decide (v = 0%Z)) as [->|]; [apply Z.testbit_0_l|].
  apply Z.bits_above_log2; [lia|]. apply Z.lt_le_trans with 32%Z; [|lia]. apply Z.log2_lt_pow2; lia.
Qed.

(** One byte of the word, read back. *)
Lemma Uint32_byte b0 b1 b2 b3 rest k b :
  (k, b) ∈ [(0%Z, b3); (8%Z, b2); (16%Z, b1); (24%Z, b0)] ->
  byte_of_Z (Z.shiftr (Uint32 (b0 :: b1 :: b2 :: b3 :: rest)) k) = b.
Proof.
  intros Hin. apply byte_of_Z_of_byte. unfold Uint32. change 256%Z with (2 ^ 8)%Z.
  assert (k = 0 \/ k = 8 \/ k = 16 \/ k = 24)%Z as Hk by set_solver.
  apply Z.bits_inj'. intros n Hn. rewrite Z.testbit_mod_pow2 by lia.
  destruct (Z.ltb_spec n 8); simpl; [|by rewrite Z_of_byte_testbit_high].
  rewrite Z.shiftr_spec, !Z.lor_spec, !Z.shiftl_spec by lia.
  rewrite !elem_of_cons, elem_of_nil in Hin.
  destruct Hin as [[= -> ->]|[[= -> ->]|[[= -> ->]|[[= -> ->]|[]]]]];
    repeat match goal with
    | |- context [Z.testbit (Z_of_byte ?x) ?i] =>
        first [rewrite (Z.testbit_neg_r (Z_of_byte x) i) by lia
              |rewrite (Z_of_byte_testbit_high x i) by lia
              |progress replace i with n by lia]
    end; by rewrite ?orb_false_r, ?orb_false_l.
Qed.

Lemma Uint32_range b0 b1 b2 b3 rest : (0 <= Uint32 (b0 :: b1 :: b2 :: b3 :: rest) < 2 ^ 32)%Z.
Proof.
  unfold Uint32. pose proof (Z_of_byte_range b0). pose proof (Z_of_byte_range b1).
  pose proof (Z_of_byte_range b2). pose proof (Z_of_byte_range b3).
  assert (forall a b n, 0 <= a < 2 ^ n -> 0 <= b < 2 ^ n -> 0 <= n -> 0 <= Z.lor a b < 2 ^ n)%Z as Hlor.
  { intros a b n Ha Hb Hn. split; [apply Z.lor_nonneg; lia|].
    destruct (decide (Z.lor a b = 0)%Z) as [->|Hne]; [lia|].
    assert (0 < n)%Z as Hn0.
    { destruct (decide (n = 0)%Z) as [->|]; [|lia]. destruct Hne.
      replace a with 0%Z by lia. replace b with 0%Z by lia. done. }
    apply Z.log2_lt_pow2; [pose proof (proj2 (Z.lor_nonneg a b) ltac:(lia)); lia|].
    rewrite Z.log2_lor by lia. apply Z.max_lub_lt.
    - destruct (decide (a = 0)%Z) as [->|]; [done|apply Z.log2_lt_pow2; lia].
    - destruct (decide (b = 0)%Z) as [->|]; [done|apply Z.log2_lt_pow2; lia]. }
  repeat apply Hlor; rewrite ?Z.shiftl_mul_pow2 by lia; lia.
Qed.

(** ** Frames *)

(** Decoding accepts exactly the frames: [decodeGRPCFrame] returns a message if and only
    if the bytes start with the encoding of that message, and the message is shorter than
    2^32 bytes.  In particular decoding an encoded message gives it back. *)
Theorem grpc_frame_decode_iff raw msg :
  decodeGRPCFrame raw = Some msg <->
  (Z.of_nat (length msg) < 2 ^ 32)%Z /\ exists rest, raw = encodeGRPCFrame msg ++ rest.
Proof.
  split.
  - unfold decodeGRPCFrame. destruct (Nat.ltb_spec (length raw) 5) as [|Hlen]; [done|].
    destruct raw as [|b0 [|b1 [|b2 [|b3 [|b4 rest]]]]]; simpl in Hlen; try lia.
    case_decide as Hb0; [|done]. subst b0.
    change (take 4 (b1 :: b2 :: b3 :: b4 :: rest)) with [b1; b2; b3; b4].
    pose proof (Uint32_range b1 b2 b3 b4 []) as Hr.
    pose proof (Uint32_byte b1 b2 b3 b4 [] 0 b4 ltac:(set_solver)) as B4.
    pose proof (Uint32_byte b1 b2 b3 b4 [] 8 b3 ltac:(set_solver)) as B3.
    pose proof (Uint32_byte b1 b2 b3 b4 [] 16 b2 ltac:(set_solver)) as B2.
    pose proof (Uint32_byte b1 b2 b3 b4 [] 24 b1 ltac:(set_solver)) as B1.
    revert Hr B1 B2 B3 B4. generalize (Uint32 [b1; b2; b3; b4]). intros v Hr B1 B2 B3 B4.
    rewrite Z.shiftr_0_r in B4.
    destruct (Z.ltb_spec (5 + v) 5) as [|_]; [lia|].
    destruct (Z.ltb_spec (Z.of_nat (length (x00 :: b1 :: b2 :: b3 :: b4 :: rest))) (5 + v)) as [|Hv];
      [done|]. cbn [length orb] in *.
    replace (Z.to_nat (5 + v)) with (5 + Z.to_nat v) by lia.
    change (Some (take (Z.to_nat v) rest) = Some msg ->
      (Z.of_nat (length msg) < 2 ^ 32)%Z /\
      exists rest', x00 :: b1 :: b2 :: b3 :: b4 :: rest = encodeGRPCFrame msg ++ rest').
    intros [= <-].
    assert (length (take (Z.to_nat v) rest) = Z.to_nat v) as Hl by (rewrite length_take; lia).
    split; [rewrite Hl; lia|]. exists (drop (Z.to_nat v) rest). unfold encodeGRPCFrame.
    rewrite Hl, Z2Nat.id by lia. unfold uint32_of. rewrite Z.mod_small by lia. unfold PutUint32.
    rewrite B1, B2, B3, B4. simpl. by rewrite take_drop.
  - intros [Hl [rest ->]]. unfold decodeGRPCFrame, encodeGRPCFrame, uint32_of.
    rewrite Z.mod_small by lia. cbn [app length].
    rewrite <-app_assoc.
    assert (take 4 (PutUint32 (Z.of_nat (length msg)) ++ msg ++ rest) = PutUint32 (Z.of_nat (length msg))) as ->
      by done.
    pose proof (Uint32_PutUint32 (Z.of_nat (length msg)) [] ltac:(lia)) as Hu.
    rewrite app_nil_r in Hu. rewrite Hu.
    rewrite !length_app. simpl length.
    destruct (Nat.ltb_spec (S (4 + (length msg + length rest))) 5); [lia|].
    destruct (Z.ltb_spec (5 + Z.of_nat (length msg)) 5); [lia|].
    destruct (Z.ltb_spec (Z.of_nat (S (4 + (length msg + length rest)))) (5 + Z.of_nat (length msg)));
      [lia|]. simpl.
    replace (Z.to_nat (5 + Z.of_nat (length msg))) with (5 + length msg) by lia. simpl.
    by rewrite take_app_length.
Qed.

(** ** The unary callout *)

Section unary.
Context (E : Envoy) (F : GRPCCalloutResponse -> st -> res st).

Lemma grpc_events_data g w fn resp datas : forall body s,
  s_grpcs s !! g = Some (mkGrpcCb w fn false resp body) ->
  exists s', s_f s' = s_f s /\ s_tr s' = s_tr s /\ s_ws s' = s_ws s /\
    s_grpcs s' !! g = Some (mkGrpcCb w fn false resp (body ++ concat (ToBytes <$> concat datas))) /\
    forall k, grpc_events E F g ((SData <$> datas) ++ k) s = grpc_events E F g k s'.
Proof.
  induction datas as [|d datas IH]; intros body s Hg.
  - exists s. rewrite app_nil_r. done.
  - set (s1 := upd_grpc g (fun c => mkGrpcCb (gc_w c) (gc_fn c) (gc_once c) (gc_resp c)
                                 (gc_body c ++ concat (ToBytes <$> d))) s).
    destruct (IH (body ++ concat (ToBytes <$> d)) s1) as (s' & H1 & H2 & H3 & H4 & H5).
    { unfold s1, upd_grpc. simpl. by rewrite list_lookup_alter_eq, Hg. }
    exists s'. split_and!; [done..| |].
    + rewrite H4. simpl. by rewrite fmap_app, concat_app, <-app_assoc.
    + intros k. simpl. apply H5.
Qed.

(** C26: a unary gRPC call delivers its response once and whole.  However the response body
    is split into data frames, when the frames form the encoding of [msg] the callback runs
    once, at the end of the stream, with [msg] as the body, the status of the trailers and
    the message of the trailers, or of the headers when the trailers have none. *)
Theorem grpc_unary_delivers_response g w fn h datas t msg s :
  s_grpcs s !! g = Some (mkGrpcCb w fn false (mkGrpcResp HTTPCalloutSuccess 0 "" []) []) ->
  streamDone (s_f s) = false -> (Z.of_nat (length msg) < 2 ^ 32)%Z ->
  concat (ToBytes <$> concat datas) = encodeGRPCFrame msg ->
  exists s0, s_f s0 = s_f s /\ s_tr s0 = s_tr s /\ s_ws s0 = s_ws s /\
    (gc_once <$> s_grpcs s0 !! g) = Some true /\
    grpc_events E F g (SHeaders h :: (SData <$> datas) ++ [STrailers t; SComplete]) s =
      (s1 ← F (mkGrpcResp HTTPCalloutSuccess (parseGRPCHeaders t).1
                 (if decide ((parseGRPCHeaders t).2 = "") then (parseGRPCHeaders h).2
                  else (parseGRPCHeaders t).2) msg) s0;
       Ok (handoff E s1)).
Proof.
  intros Hg Hd Hl Hc. destruct (parseGRPCHeaders h) as [sh mh] eqn:Eh.
  destruct (parseGRPCHeaders t) as [stt mt] eqn:Et. cbn [fst snd].
  set (r1 := mkGrpcResp HTTPCalloutSuccess sh mh []).
  destruct (grpc_events_data g w fn r1 datas [] (upd_grpc g (applyGRPCHeaders h) s))
    as (s2 & H1 & H2 & H3 & H4 & H5).
  { unfold upd_grpc. simpl. rewrite list_lookup_alter_eq, Hg. simpl. unfold applyGRPCHeaders.
    rewrite Eh. simpl. by case_decide; subst. }
  cbn [grpc_events grpc_event mbind res_bind]. rewrite H5. clear H5.
  cbn [grpc_events grpc_event mbind res_bind].
  set (s3 := upd_grpc g (applyGRPCHeaders t) s2).
  set (r2 := mkGrpcResp HTTPCalloutSuccess stt (if decide (mt = "") then mh else mt) []).
  assert (s_grpcs s3 !! g = Some (mkGrpcCb w fn false r2 (encodeGRPCFrame msg))) as Hg3.
  { unfold s3, upd_grpc. simpl. rewrite list_lookup_alter_eq, H4. simpl. unfold applyGRPCHeaders.
    rewrite Et. simpl. by rewrite Hc. }
  unfold grpc_finish. rewrite Hg3. cbn [gc_once gc_body gc_resp gc_w gc_fn].
  rewrite decide_True by done.
  assert (decodeGRPCFrame (encodeGRPCFrame msg) = Some msg) as ->.
  { apply grpc_frame_decode_iff. split; [done|]. exists []. by rewrite app_nil_r. }
  exists (set_s_grpcs (<[g := mkGrpcCb w fn true r2 (encodeGRPCFrame msg)]> (s_grpcs s3)) s3).
  split_and!; try done.
  - simpl. rewrite list_lookup_insert_eq; [done|]. by eapply lookup_lt_Some.
  - change (streamDone (s_f (set_s_grpcs _ s3))) with (streamDone (s_f s2)). rewrite H1.
    change (s_f (upd_grpc g (applyGRPCHeaders h) s)) with (s_f s). rewrite Hd.
    cbn [gr_GRPCStatus gr_GRPCMessage r2]. by destruct (F _ _).
Qed.
End unary.

(** The status of the headers does not survive trailers without one: after a header
    block with a [grpc-status] and trailers that carry none, the recorded status is 0 (OK). *)
Theorem grpc_header_status_overwritten h t c :
  (forall x, x ∈ t -> ToString x.1 <> "grpc-status") ->
  gr_GRPCStatus (gc_resp (applyGRPCHeaders t (applyGRPCHeaders h c))) = 0%Z.
Proof.
  intros Ht. unfold applyGRPCHeaders.
  assert (forall st m, (foldl parseGRPCHeader (st, m) t).1 = st) as Hf.
  { induction t as [|x t IH]; intros st m; [done|]. cbn [foldl].
    assert (exists m', parseGRPCHeader (st, m) x = (st, m')) as [m' ->].
    { unfold parseGRPCHeader. rewrite decide_False by (apply Ht; set_solver).
      case_decide; by eexists. }
    apply IH. set_solver. }
  destruct (parseGRPCHeaders h). specialize (Hf 0%Z ""). unfold parseGRPCHeaders.
  destruct (foldl parseGRPCHeader _ t). exact Hf.
Qed.

(** ** Witnesses *)

Definition ebuf (s : string) : UnsafeEnvoyBuffer := mkBuf (Some OGo) (String.list_byte_of_string s).

Definition grpc_stream : st :=
  set_s_grpcs [mkGrpcCb 0 (fun _ => PRet) false (mkGrpcResp HTTPCalloutSuccess 0 "" []) []] setting.

Lemma grpc_frame_decode_iff_witness :
  decodeGRPCFrame (encodeGRPCFrame [x61; x62] ++ [x7a]) = Some [x61; x62].
Proof.
  apply (grpc_frame_decode_iff (encodeGRPCFrame [x61; x62] ++ [x7a]) [x61; x62]).
  split; [simpl; lia|by exists [x7a]].
Defined.

Lemma grpc_unary_delivers_response_witness :
  let E := simEnvoy [] (0%Z, None) in
  exists s0, grpc_events E (fun r s => Ok (emit (CLog (gr_GRPCStatus r) (gr_GRPCMessage r)) s)) 0
      (SHeaders [] :: (SData <$> [[mkBuf (Some OGo) [x00; x00; x00]]; [mkBuf (Some OGo) [x00; x01; x61]]]) ++
       [STrailers [(ebuf "grpc-status", ebuf "5")]; SComplete]) grpc_stream =
    (s1 ← Ok (emit (CLog 5 "") s0); Ok (handoff E s1)).
Proof.
  intros E.
  destruct (grpc_unary_delivers_response E
    (fun r s => Ok (emit (CLog (gr_GRPCStatus r) (gr_GRPCMessage r)) s)) 0 0 (fun _ => PRet) []
    [[mkBuf (Some OGo) [x00; x00; x00]]; [mkBuf (Some OGo) [x00; x01; x61]]]
    [(ebuf "grpc-status", ebuf "5")] [x61] grpc_stream)
    as (s0 & _ & _ & _ & _ & H); [reflexivity|reflexivity|simpl; lia|reflexivity|].
  exists s0. exact H.
Defined.

Lemma grpc_header_status_overwritten_witness :
  gr_GRPCStatus (gc_resp (applyGRPCHeaders [] (applyGRPCHeaders [(ebuf "grpc-status", ebuf "7")]
    (mkGrpcCb 0 (fun _ => PRet) false (mkGrpcResp 0 0 "" []) [])))) = 0%Z.
Proof. apply (grpc_header_status_overwritten [(ebuf "grpc-status", ebuf "7")] []). set_solver. Defined.
