(* ===== verification/HostSet.v ===== *)
(** * up/host_set.go: the published host set of a cluster

    [Apply] turns a snapshot of desired hosts into calls on the cluster (add, mark healthy,
    remove) and publishes the new map in between.  The cluster is the interface
    [ClusterHandle]: the operations [HostSet] uses, with the set of hosts the cluster
    currently has, and the laws Envoy documents for them.  The order in which Go ranges over
    a map is a parameter: every theorem holds for every order. *)
From stdpp Require Import base list gmap strings sets.
From Stdlib Require Import ZArith Lia.
From S2P Require Import Prelude.

(** A [HostPtr]; nil is 0. *)
Abbreviation HostPtr := Z.

(** down/cluster.go: [HostHealth]. *)
Definition HostUnhealthy : Z := 0.
Definition HostDegraded : Z := 1.
Definition HostHealthy : Z := 2.

(** down/cluster.go: [HostSpec]; [Weight] is a [uint32]. *)
Record HostSpec := mkSpec {
  Address : string;
  Hostname : string;
  Weight : Z;
  Metadata : gmap string string;
}.

#[export] Instance HostSpec_eq_dec : EqDecision HostSpec.
Proof. solve_decision. Defined.

(** [HostEntry]. *)
Record HostEntry := mkEntry {
  Spec : HostSpec;
  Host : HostPtr;
}.

(** ** What a cluster promises *)

Class ClusterHandle (C : Type) := {
  AddHosts : list HostSpec -> C -> list HostPtr * C;
  UpdateHostHealth : HostPtr -> Z -> C -> C;
  RemoveHosts : list HostPtr -> C -> C;
  (** the hosts the cluster currently has *)
  live : C -> gset HostPtr;
}.

(** What Envoy did with a batch.  It took it: one new host per spec, none of them nil.  Or it
    refused it (an invalid address or weight): nothing was added, and the slice the handle
    made for the pointers is returned as it was made, all nil, because the handle does not
    look at the result of the call. *)
Definition added {C} `{ClusterHandle C} (ps : list HostPtr) (c c' : C) : Prop :=
  NoDup ps /\ (forall p, p ∈ ps -> p <> 0%Z /\ p ∉ live c) /\ live c' = live c ∪ list_to_set ps.

Definition refused {C} `{ClusterHandle C} (specs : list HostSpec) (ps : list HostPtr) (c c' : C) : Prop :=
  ps = replicate (length specs) 0%Z /\ live c' = live c.

(** Adding takes or refuses the batch; health updates change no membership; removing
    removes; nil is no host. *)
Class ClusterHandleLaws (C : Type) `{ClusterHandle C} : Prop := {
  add_length : forall specs c ps c', AddHosts specs c = (ps, c') -> length ps = length specs;
  add_outcome : forall specs c ps c', AddHosts specs c = (ps, c') -> added ps c c' \/ refused specs ps c c';
  health_live : forall p h c, live (UpdateHostHealth p h c) = live c;
  remove_live : forall ps c, live (RemoveHosts ps c) = live c ∖ list_to_set ps;
  nil_not_live : forall c, 0%Z ∉ live c;
}.

(** Envoy refuses the batch. *)
Definition refuses {C} `{ClusterHandle C} (specs : list HostSpec) (c : C) : bool :=
  bool_decide (specs <> [] /\ (AddHosts specs c).1 = replicate (length specs) 0%Z).

(** ** The host set *)

(** [specEqual(a, b)]: the loop asks for [b.Metadata[k]], which is empty for a missing key. *)
Definition specEqual (a b : HostSpec) : bool :=
  if negb (bool_decide (Address a = Address b)) || negb (bool_decide (Hostname a = Hostname b)) ||
     negb (Weight a =? Weight b)%Z
  then false
  else if negb (base.size (Metadata a) =? base.size (Metadata b)) then false
  else bool_decide (map_Forall (fun k v => default "" (Metadata b !! k) = v) (Metadata a)).

Section hostset.
Context {K : Type} `{Countable K} {C : Type} `{ClusterHandle C}.

(** [HostSet]: the cluster and the published map. *)
Record HostSet := mkHostSet {
  handle : C;
  current : gmap K HostEntry;
}.

Definition NewHostSet (c : C) : HostSet := mkHostSet c ∅.

(** One iteration of the loop over the snapshot: reuse the entry of an unchanged spec,
    collect the others. *)
Definition classify (prev : gmap K HostEntry) (acc : gmap K HostEntry * list K * list HostSpec)
    (ks : K * HostSpec) : gmap K HostEntry * list K * list HostSpec :=
  let '(nextEntries, newKeys, newSpecs) := acc in
  let '(k, spec) := ks in
  match prev !! k with
  | Some entry =>
      if specEqual (Spec entry) spec then (<[k := entry]> nextEntries, newKeys, newSpecs)
      else (nextEntries, newKeys ++ [k], newSpecs ++ [spec])
  | None => (nextEntries, newKeys ++ [k], newSpecs ++ [spec])
  end.

(** The loop over [newKeys]: publish each new host in the next map and mark it healthy;
    [ptrs[i]] out of range panics. *)
Fixpoint install (ks : list K) (specs : list HostSpec) (ptrs : list HostPtr)
    (next : gmap K HostEntry) (c : C) : res (gmap K HostEntry * C) :=
  match ks, specs with
  | k :: ks, spec :: specs =>
      match ptrs with
      | p :: ptrs => install ks specs ptrs (<[k := mkEntry spec p]> next) (UpdateHostHealth p HostHealthy c)
      | [] => Panic "index out of range"
      end
  | _, _ => Ok (next, c)
  end.

(** The hosts of [prev] that the next map no longer has. *)
Definition toRemove (prev next : gmap K HostEntry) (order : list (K * HostEntry)) : list HostPtr :=
  mjoin ((fun '(k, entry) =>
    match next !! k with
    | None => [Host entry]
    | Some kept => if decide (Host kept = Host entry) then [] else [Host entry]
    end) <$> order).

(** [Apply(snapshot)], ranging over the snapshot in order [o1] and over the published map
    in order [o2].  The result lists the states other goroutines can see: after the
    additions, after the publication, and after the removals. *)
Definition Apply (o1 : list (K * HostSpec)) (o2 : list (K * HostEntry)) (s : HostSet) :
    res (list HostSet) :=
  let prev := current s in
  let '(nextEntries, newKeys, newSpecs) := foldl (classify prev) (∅, [], []) o1 in
  '(next, c) ← (if decide (newSpecs = []) then Ok (nextEntries, handle s)
                else let '(ptrs, c) := AddHosts newSpecs (handle s) in
                     install newKeys newSpecs ptrs nextEntries c);
  let gone := toRemove prev next o2 in
  let c' := if decide (gone = []) then c else RemoveHosts gone c in
  Ok [mkHostSet c prev; mkHostSet c next; mkHostSet c' next].

(** [Get], [Entry], [Current]. *)
Definition Get (key : K) (s : HostSet) : option HostPtr := Host <$> current s !! key.
Definition Entry (key : K) (s : HostSet) : option HostEntry := current s !! key.
Definition Current (s : HostSet) : gmap K HostEntry := current s.

(** ** Invariant *)

(** The published hosts that are not nil are the cluster's hosts, each published once. *)
Definition hostset_inv (s : HostSet) : Prop :=
  (forall p, p ∈ live (handle s) <-> p <> 0%Z /\ exists k e, current s !! k = Some e /\ Host e = p) /\
  (forall k1 k2 e1 e2, current s !! k1 = Some e1 -> current s !! k2 = Some e2 ->
     Host e1 = Host e2 -> Host e1 <> 0%Z -> k1 = k2).

(** Every published host is live or nil: a reader never gets a dangling pointer. *)
Definition no_dangling (s : HostSet) : Prop :=
  forall k p, Get k s = Some p -> p <> 0%Z -> p ∈ live (handle s).

(** The specs [Apply] asks the cluster to add. *)
Definition newSpecs (o1 : list (K * HostSpec)) (s : HostSet) : list HostSpec :=
  (foldl (classify (current s)) (∅, [], []) o1).2.

(** [next] is what [Apply] should publish for [snapshot] over [prev]: nothing else than the
    snapshot, the old entry of a spec taken for unchanged, and for every other spec a host
    that is new when the batch was taken and nil when it was refused. *)
Definition published (ok : bool) (prev : gmap K HostEntry) (snapshot : gmap K HostSpec)
    (next : gmap K HostEntry) : Prop :=
  forall k, match snapshot !! k with
    | None => next !! k = None
    | Some spec =>
        let fresh := exists p, next !! k = Some (mkEntry spec p) /\
          if ok then p <> 0%Z /\ forall e, prev !! k = Some e -> p <> Host e else p = 0%Z in
        match prev !! k with
        | Some e => if specEqual (Spec e) spec then next !! k = Some e else fresh
        | None => fresh
        end
    end.
End hostset.
Arguments HostSet K {_ _} C.
