(* ===== verification/HostSetProps.v ===== *)
(** * up/host_set.go: correctness of [Apply]

    [Apply] never panics, publishes exactly the snapshot while reusing the hosts of
    unchanged specs, never lets a reader see a host the cluster does not have, and leaks
    none: the cluster's hosts stay exactly the published ones that are not nil.  A batch
    Envoy refuses is published with nil hosts and never asked for again. *)
From stdpp Require Import base list gmap strings sets.
From Stdlib Require Import ZArith Lia.
From S2P Require Import Prelude HostSet.

Section props.
Context {K : Type} `{Countable K} {C : Type} `{!ClusterHandle C, !ClusterHandleLaws C}.
Implicit Types (prev next : gmap K HostEntry).

Lemma nodup_keys_unique {A} (o : list (K * A)) k x y :
  NoDup o.*1 -> (k, x) ∈ o -> (k, y) ∈ o -> x = y.
Proof.
  intros Hnd Hx%(elem_of_list_to_map_1 (M := gmap K)) Hy%(elem_of_list_to_map_1 (M := gmap K)); [|done..].
  congruence.
Qed.

(** The entries of the snapshot that are reused, and those that are new. *)
Definition unchanged prev (ks : K * HostSpec) : option (K * HostEntry) :=
  match prev !! ks.1 with
  | Some e => if specEqual (Spec e) ks.2 then Some (ks.1, e) else None
  | None => None
  end.

Definition changed prev (ks : K * HostSpec) : Prop := unchanged prev ks = None.

#[local] Instance changed_dec prev ks : Decision (changed prev ks).
Proof. unfold changed. destruct (unchanged prev ks); [by right|by left]. Defined.

(** Insert the pairs of a list, in order. *)
Definition inserts (l : list (K * HostEntry)) (m : gmap K HostEntry) : gmap K HostEntry :=
  foldl (fun m x => <[x.1 := x.2]> m) m l.

Lemma inserts_lookup l m k e :
  NoDup l.*1 -> inserts l m !! k = Some e <-> (k, e) ∈ l \/ ((k ∉ l.*1) /\ m !! k = Some e).
Proof.
  revert m. induction l as [|[k' e'] l IH]; intros m Hnd.
  { simpl. set_solver. }
  rewrite fmap_cons, NoDup_cons in Hnd. destruct Hnd as [Hk Hnd].
  change (inserts ((k', e') :: l) m) with (inserts l (<[k' := e']> m)).
  rewrite IH by done. rewrite fmap_cons, !elem_of_cons. cbn [fst snd].
  destruct (decide (k = k')) as [->|Hne].
  - rewrite lookup_insert_eq. split.
    + intros [Hin|[_ [= ->]]]; [|by left; left]. exfalso. apply Hk, list_elem_of_fmap. by exists (k', e).
    + intros [[[= ->]|Hin]|[Hn _]]; [by right|by left|naive_solver].
  - rewrite lookup_insert_ne by done. naive_solver.
Qed.

Lemma classify_fold prev o m a b :
  foldl (classify prev) (m, a, b) o =
  (inserts (omap (unchanged prev) o) m, a ++ (base.filter (changed prev) o).*1,
   b ++ (base.filter (changed prev) o).*2).
Proof.
  revert m a b. induction o as [|[k spec] o IH]; intros m a b.
  { simpl. by rewrite !app_nil_r. }
  cbn [foldl]. destruct (unchanged prev (k, spec)) as [x|] eqn:Hu.
  - rewrite filter_cons_False by (unfold changed; by rewrite Hu).
    cbn [omap list_omap]. rewrite Hu. unfold unchanged in Hu. cbn [fst snd] in Hu. unfold classify at 2.
    destruct (prev !! k) as [e|]; [|done]. destruct (specEqual (Spec e) spec); [|done].
    injection Hu as <-. rewrite IH. done.
  - rewrite filter_cons_True by done. cbn [omap list_omap]. rewrite Hu. rewrite !fmap_cons. cbn [fst snd].
    rewrite (cons_middle k), (cons_middle spec), !app_assoc. unfold classify at 2.
    unfold unchanged in Hu. cbn [fst snd] in Hu.
    destruct (prev !! k) as [e|]; [|apply IH]. by destruct (specEqual (Spec e) spec).
Qed.

(** The entries [AddHosts] yields for the new specs. *)
Definition fresh_entries (ch : list (K * HostSpec)) (ptrs : list HostPtr) : list (K * HostEntry) :=
  zip_with (fun ks p => (ks.1, mkEntry ks.2 p)) ch ptrs.

Lemma install_ok ch ptrs next (c : C) :
  length ptrs = length ch ->
  exists c', install ch.*1 ch.*2 ptrs next c = Ok (inserts (fresh_entries ch ptrs) next, c') /\ live c' = live c.
Proof.
  revert ptrs next c. induction ch as [|[k spec] ch IH]; intros ptrs next c Hl.
  { by exists c. }
  destruct ptrs as [|p ptrs]; [done|]. cbn.
  destruct (IH ptrs (<[k := mkEntry spec p]> next) (UpdateHostHealth p HostHealthy c)) as (c' & H1 & H2).
  { by injection Hl. }
  exists c'. split; [exact H1|]. by rewrite H2, health_live.
Qed.

(** Both outcomes of [AddHosts] at once. *)
Lemma add_unified specs (c : C) ps c' : AddHosts specs c = (ps, c') -> specs <> [] ->
  (forall p, p ∈ ps -> p = 0%Z <-> refuses specs c = true) /\
  (forall i j p, ps !! i = Some p -> ps !! j = Some p -> p <> 0%Z -> i = j) /\
  (forall p, p ∈ ps -> p <> 0%Z -> p ∉ live c) /\
  live c' = live c ∪ (list_to_set ps ∖ {[0%Z]}).
Proof.
  intros Ha Hne. unfold refuses. rewrite Ha. cbn [fst].
  destruct (add_outcome _ _ _ _ Ha) as [(H1 & H2 & H3)|[-> H3]].
  - split_and!.
    + intros p Hp. rewrite bool_decide_eq_true. split; [intros ->; by destruct (H2 _ Hp)|].
      intros [_ ->]. by apply elem_of_replicate in Hp as [-> _].
    + intros i j p Hi Hj _. by eapply NoDup_lookup.
    + intros p Hp _. by apply H2.
    + rewrite H3. f_equal. apply set_eq. intros p. rewrite elem_of_difference, elem_of_singleton, elem_of_list_to_set.
      split; [|by intros [? _]]. intros Hp. split; [done|by apply H2].
  - split_and!.
    + intros p [-> _]%elem_of_replicate. by rewrite bool_decide_true.
    + intros i j p [-> _]%lookup_replicate. done.
    + intros p [-> _]%elem_of_replicate. done.
    + rewrite H3. apply set_eq. intros p. rewrite elem_of_union, elem_of_difference, elem_of_list_to_set.
      split; [by left|]. intros [?|[[-> _]%elem_of_replicate Hn]]; [done|]. by destruct Hn; apply elem_of_singleton.
Qed.

(** What [Apply] does, with the new hosts [ptrs] it obtained. *)
Lemma Apply_spec o1 o2 (s : HostSet K C) :
  exists ptrs c, let ch := base.filter (changed (current s)) o1 in
    length ptrs = length ch /\
    (forall p, p ∈ ptrs -> p = 0%Z <-> refuses (newSpecs o1 s) (handle s) = true) /\
    (forall i j p, ptrs !! i = Some p -> ptrs !! j = Some p -> p <> 0%Z -> i = j) /\
    (forall p, p ∈ ptrs -> p <> 0%Z -> p ∉ live (handle s)) /\
    live c = live (handle s) ∪ (list_to_set ptrs ∖ {[0%Z]}) /\
    let next := inserts (omap (unchanged (current s)) o1 ++ fresh_entries ch ptrs) ∅ in
    Apply o1 o2 s = Ok [mkHostSet c (current s); mkHostSet c next;
      mkHostSet (if decide (toRemove (current s) next o2 = []) then c
                 else RemoveHosts (toRemove (current s) next o2) c) next].
Proof.
  unfold Apply, newSpecs. rewrite classify_fold. cbn [app snd]. set (ch := base.filter _ o1).
  destruct (decide (ch.*2 = [])) as [Hnil|Hne].
  - assert (ch = []) as -> by (by destruct ch).
    exists [], (handle s). split_and!; [done|set_solver|done|set_solver|set_solver|].
    cbn. by rewrite app_nil_r.
  - destruct (AddHosts ch.*2 (handle s)) as [ptrs c0] eqn:Ea.
    pose proof (add_length _ _ _ _ Ea) as Hl. rewrite length_fmap in Hl.
    destruct (install_ok ch ptrs (inserts (omap (unchanged (current s)) o1) ∅) c0 Hl) as (c & Hi & Hlive).
    exists ptrs, c. cbn zeta. destruct (add_unified _ _ _ _ Ea Hne) as (A1 & A2 & A3 & A4).
    split_and!; [done..|by rewrite Hlive|]. rewrite Hi. cbn. unfold inserts. by rewrite foldl_app.
Qed.

(** ** The keys of the next map *)

Lemma elem_of_unchanged prev (o : list (K * HostSpec)) k e :
  (k, e) ∈ omap (unchanged prev) o <->
  exists spec, (k, spec) ∈ o /\ prev !! k = Some e /\ specEqual (Spec e) spec = true.
Proof.
  rewrite list_elem_of_omap. unfold unchanged. split.
  - intros ([k' spec] & Hin & Hu). cbn in Hu. destruct (prev !! k') as [e'|] eqn:Hp; [|done].
    destruct (specEqual _ _) eqn:Hs; [|done]. injection Hu as <- <-. eauto.
  - intros (spec & Hin & Hp & Hs). exists (k, spec). cbn. by rewrite Hp, Hs.
Qed.

Lemma elem_of_fresh ch ptrs k e :
  (k, e) ∈ fresh_entries ch ptrs <->
  exists i spec p, ch !! i = Some (k, spec) /\ ptrs !! i = Some p /\ e = mkEntry spec p.
Proof.
  unfold fresh_entries. rewrite list_elem_of_lookup. split.
  - intros (i & Hi). apply lookup_zip_with_Some in Hi as ([k' spec] & p & [= -> ->] & H1 & H2).
    by exists i, spec, p.
  - intros (i & spec & p & H1 & H2 & ->). exists i. apply lookup_zip_with_Some.
    by exists (k, spec), p.
Qed.

Lemma keys_nodup prev (o : list (K * HostSpec)) ptrs :
  NoDup o.*1 -> length ptrs = length (base.filter (changed prev) o) ->
  NoDup (omap (unchanged prev) o ++ fresh_entries (base.filter (changed prev) o) ptrs).*1.
Proof.
  intros Hnd Hl. rewrite fmap_app. apply NoDup_app. split_and!.
  - clear Hl. induction o as [|[k spec] o IH]; [constructor|]. rewrite fmap_cons, NoDup_cons in Hnd.
    cbn. destruct (unchanged prev (k, spec)) as [[k' e]|] eqn:Hu; [|exact (IH (proj2 Hnd))].
    rewrite fmap_cons. apply NoDup_cons. split; [|exact (IH (proj2 Hnd))]. unfold unchanged in Hu. cbn in *.
    assert (k' = k) as -> by (destruct (prev !! k); [|done]; destruct (specEqual _ _); congruence).
    intros ([k2 e2] & -> & Hin)%list_elem_of_fmap. apply elem_of_unchanged in Hin as (sp & Hin & _).
    apply Hnd, list_elem_of_fmap. by exists (k2, sp).
  - intros k ([k1 e1] & -> & H1)%list_elem_of_fmap ([k2 e2] & Hk & H2)%list_elem_of_fmap.
    cbn in Hk. subst k2. apply elem_of_unchanged in H1 as (sp & H1 & Hp & Hs).
    apply elem_of_fresh in H2 as (i & sp2 & p & H2 & _).
    apply list_elem_of_lookup_2, list_elem_of_filter in H2 as [Hc H2].
    assert (sp2 = sp) as ->.
    { by apply (nodup_keys_unique o k1). }
    unfold changed, unchanged in Hc. cbn in Hc. by rewrite Hp, Hs in Hc.
  - assert ((fresh_entries (base.filter (changed prev) o) ptrs).*1 = (base.filter (changed prev) o).*1) as ->.
    { revert ptrs Hl. generalize (base.filter (changed prev) o). intros l.
      induction l as [|x l IH]; intros [|p ptrs] Hl; try done. cbn. f_equal. apply IH. by injection Hl. }
    clear ptrs Hl. induction o as [|x o IH]; [constructor|]. rewrite fmap_cons, NoDup_cons in Hnd.
    rewrite filter_cons. case_decide; [|exact (IH (proj2 Hnd))]. rewrite fmap_cons. apply NoDup_cons.
    split; [|exact (IH (proj2 Hnd))]. intros (y & Hy & Hin)%list_elem_of_fmap.
    apply list_elem_of_filter in Hin as [_ Hin]. apply Hnd, list_elem_of_fmap. eauto.
Qed.

(** The next map, entry by entry: reused entries and fresh ones. *)
Lemma next_lookup prev (o : list (K * HostSpec)) ptrs k e :
  NoDup o.*1 -> length ptrs = length (base.filter (changed prev) o) ->
  inserts (omap (unchanged prev) o ++ fresh_entries (base.filter (changed prev) o) ptrs) ∅ !! k = Some e <->
  (exists spec, (k, spec) ∈ o /\ prev !! k = Some e /\ specEqual (Spec e) spec = true) \/
  (exists i spec p, base.filter (changed prev) o !! i = Some (k, spec) /\ ptrs !! i = Some p /\ e = mkEntry spec p).
Proof.
  intros Hnd Hl. rewrite inserts_lookup by by apply keys_nodup.
  rewrite lookup_empty, elem_of_app, elem_of_unchanged, elem_of_fresh. naive_solver.
Qed.

Lemma elem_of_toRemove prev next o p :
  p ∈ toRemove prev next o <->
  exists k e, (k, e) ∈ o /\ Host e = p /\ forall e', next !! k = Some e' -> Host e' <> p.
Proof.
  unfold toRemove. rewrite list_elem_of_join. split.
  - intros (l & Hp & Hl). apply list_elem_of_fmap in Hl as ([k e] & -> & Hin). exists k, e.
    destruct (next !! k) as [e'|] eqn:Hk; [case_decide as Hd; [by apply elem_of_nil in Hp|]|];
      apply list_elem_of_singleton in Hp as ->; (split; [done|]); (split; [done|]); congruence.
  - intros (k & e & Hin & He & Hn). exists [p]. split; [by apply list_elem_of_singleton|].
    apply list_elem_of_fmap. exists (k, e). split; [|done]. subst p.
    destruct (next !! k) as [e'|] eqn:Hk; [|done]. by rewrite decide_False by by apply Hn.
Qed.

Section one_apply.
Context (snapshot : gmap K HostSpec) (o1 : list (K * HostSpec)) (o2 : list (K * HostEntry)) (s : HostSet K C).
Context (Ho1 : o1 ≡ₚ map_to_list snapshot) (Ho2 : o2 ≡ₚ map_to_list (current s)).
Context (ptrs : list HostPtr) (c : C).
Let ch := base.filter (changed (current s)) o1.
Let next := inserts (omap (unchanged (current s)) o1 ++ fresh_entries ch ptrs) ∅.
Context (Hlen : length ptrs = length ch)
  (Hnil : forall p, p ∈ ptrs -> p = 0%Z <-> refuses (newSpecs o1 s) (handle s) = true)
  (Hnd : forall i j p, ptrs !! i = Some p -> ptrs !! j = Some p -> p <> 0%Z -> i = j)
  (Hfresh : forall p, p ∈ ptrs -> p <> 0%Z -> p ∉ live (handle s))
  (Hlive : live c = live (handle s) ∪ (list_to_set ptrs ∖ {[0%Z]})).

Lemma o1_nodup : NoDup o1.*1.
Proof. rewrite Ho1. apply NoDup_fst_map_to_list. Qed.

Lemma o1_elem k spec : (k, spec) ∈ o1 <-> snapshot !! k = Some spec.
Proof. rewrite Ho1. apply elem_of_map_to_list. Qed.

Lemma o2_elem k e : (k, e) ∈ o2 <-> current s !! k = Some e.
Proof. rewrite Ho2. apply elem_of_map_to_list. Qed.

Lemma next_published : hostset_inv s ->
  published (negb (refuses (newSpecs o1 s) (handle s))) (current s) snapshot next.
Proof.
  intros [Hinv _] k. assert (forall e, next !! k = Some e <-> _) as Hn by (intros e; apply next_lookup; [apply o1_nodup|done]).
  destruct (snapshot !! k) as [spec|] eqn:Hk.
  - assert ((k, spec) ∈ o1) as Hin by by apply o1_elem. set (fresh := exists p, _).
    assert (changed (current s) (k, spec) -> fresh) as Hch.
    { intros Hc. assert ((k, spec) ∈ ch) as Hi by by apply list_elem_of_filter.
      apply list_elem_of_lookup in Hi as [i Hi].
      destruct (lookup_lt_is_Some_2 ptrs i) as [p Hp].
      { rewrite Hlen. by eapply lookup_lt_Some. }
      exists p. split; [apply Hn; right; eauto 10|]. apply list_elem_of_lookup_2 in Hp.
      pose proof (Hnil p Hp) as Hz. destruct (refuses _ _); cbn; [by apply Hz|].
      assert (p <> 0%Z) as Hp0 by (intros ->; by destruct Hz as [Hz _]; specialize (Hz eq_refl)).
      split; [done|]. intros e He ->. apply (Hfresh _ Hp Hp0), Hinv. eauto. }
    cbn zeta. destruct (current s !! k) as [e|] eqn:He; [destruct (specEqual (Spec e) spec) eqn:Hs|].
    + apply Hn. left. eauto.
    + apply Hch. unfold changed, unchanged. cbn. by rewrite He, Hs.
    + apply Hch. unfold changed, unchanged. cbn. by rewrite He.
  - apply eq_None_not_Some. intros [e He]. apply Hn in He as [(spec & Hin & _)|(i & spec & p & Hi & _)].
    + apply o1_elem in Hin. congruence.
    + apply list_elem_of_lookup_2, list_elem_of_filter in Hi as [_ Hi]. apply o1_elem in Hi. congruence.
Qed.

(** Where a published host comes from. *)
Lemma next_host k e :
  next !! k = Some e -> current s !! k = Some e \/ Host e ∈ ptrs.
Proof.
  intros He. apply next_lookup in He as [(spec & _ & H1 & _)|(i & spec & p & _ & Hp & ->)];
    [by left|right|apply o1_nodup|done]. by eapply list_elem_of_lookup_2.
Qed.

Lemma fresh_published p : p ∈ ptrs -> exists k e, next !! k = Some e /\ Host e = p.
Proof.
  intros [i Hi]%list_elem_of_lookup. destruct (lookup_lt_is_Some_2 ch i) as [[k spec] Hc].
  { rewrite <-Hlen. by eapply lookup_lt_Some. }
  exists k, (mkEntry spec p). split; [|done]. apply next_lookup; [apply o1_nodup|done|]. right. eauto 10.
Qed.

Lemma next_inj : hostset_inv s -> forall k1 k2 e1 e2,
  next !! k1 = Some e1 -> next !! k2 = Some e2 -> Host e1 = Host e2 -> Host e1 <> 0%Z -> k1 = k2.
Proof.
  intros [Hl Hi] k1 k2 e1 e2 H1 H2 Heq Hz.
  assert (forall k e, current s !! k = Some e -> Host e <> 0%Z -> Host e ∉ ptrs) as Hold.
  { intros k e Hk Hz' Hin. apply (Hfresh _ Hin Hz'), Hl. eauto. }
  apply next_lookup in H1 as [(sp1 & _ & P1 & _)|(i1 & sp1 & p1 & C1 & P1 & ->)]; [| |apply o1_nodup|done];
  apply next_lookup in H2 as [(sp2 & _ & P2 & _)|(i2 & sp2 & p2 & C2 & P2 & ->)]; try apply o1_nodup; try done.
  - eauto.
  - exfalso. apply (Hold _ _ P1 Hz). rewrite Heq. by eapply list_elem_of_lookup_2.
  - exfalso. apply (Hold _ _ P2); rewrite <-Heq; [done|]. by eapply list_elem_of_lookup_2.
  - cbn in Heq, Hz. subst p2. pose proof (Hnd _ _ _ P1 P2 Hz). congruence.
Qed.

Lemma removed_live :
  hostset_inv s -> forall p,
  (p ∈ live (handle s) ∪ (list_to_set ptrs ∖ {[0%Z]}) /\ p ∉ toRemove (current s) next o2) <->
  p <> 0%Z /\ exists k e, next !! k = Some e /\ Host e = p.
Proof.
  intros Hinv p. pose proof Hinv as [Hl Hi].
  rewrite elem_of_union, elem_of_difference, elem_of_list_to_set, elem_of_singleton. split.
  - intros [[Hp|[Hp Hz]] Hn]; [|split; [done|by apply fresh_published]].
    apply Hl in Hp as (Hz & k & e & Hk & <-). split; [done|].
    destruct (next !! k) as [e'|] eqn:He.
    + destruct (decide (Host e' = Host e)) as [|Hne]; [by exists k, e'|].
      exfalso. apply Hn, elem_of_toRemove. exists k, e. split; [by apply o2_elem|]. split; [done|].
      intros e2. congruence.
    + exfalso. apply Hn, elem_of_toRemove. exists k, e. split; [by apply o2_elem|]. split; [done|].
      intros e2. congruence.
  - intros (Hz & k & e & Hk & <-). split.
    + destruct (next_host k e Hk) as [Hc|]; [left|by right]. apply Hl. eauto.
    + intros (k' & e' & Hin & Heq & Hn)%elem_of_toRemove. apply o2_elem in Hin.
      destruct (next_host k e Hk) as [Hc|Hp].
      * assert (k' = k) as ->. { apply (Hi _ _ _ _ Hin Hc Heq). by rewrite Heq. } by apply (Hn e Hk).
      * apply (Hfresh _ Hp Hz), Hl. rewrite <-Heq in *. eauto.
Qed.
End one_apply.

Lemma Apply_ok snapshot o1 o2 (s : HostSet K C) :
  o1 ≡ₚ map_to_list snapshot -> o2 ≡ₚ map_to_list (current s) -> hostset_inv s ->
  exists s1 s2 s3, Apply o1 o2 s = Ok [s1; s2; s3] /\
    published (negb (refuses (newSpecs o1 s) (handle s))) (current s) snapshot (current s3) /\
    no_dangling s1 /\ no_dangling s2 /\ no_dangling s3 /\ hostset_inv s3.
Proof.
  intros Ho1 Ho2 Hinv. destruct (Apply_spec o1 o2 s) as (ptrs & c & Hlen & Hnil & Hnd & Hfresh & Hlive & Ha).
  cbn zeta in Ha. set (next := inserts _ ∅) in Ha. set (gone := toRemove _ next o2) in Ha.
  eexists _, _, _. split; [exact Ha|]. cbn [current].
  assert (live (if decide (gone = []) then c else RemoveHosts gone c) = live c ∖ list_to_set gone) as Hrm.
  { case_decide as Hg; [rewrite Hg; set_solver|apply remove_live]. }
  assert (hostset_inv (mkHostSet (if decide (gone = []) then c else RemoveHosts gone c) next)) as Hinv3.
  { split; cbn; [|by apply (next_inj snapshot o1 s Ho1 ptrs)].
    intros p. rewrite Hrm, Hlive, elem_of_difference, elem_of_list_to_set.
    by apply (removed_live snapshot o1 o2 s Ho1 Ho2 ptrs). }
  split_and!; [by apply next_published| | | |done].
  - intros k p Hk Hz. cbn. rewrite Hlive. apply elem_of_union_l, (proj1 Hinv).
    unfold Get in Hk. cbn in Hk. apply fmap_Some in Hk as (e & Hk & ->). eauto.
  - intros k p Hk Hz. unfold Get in Hk. cbn in *. apply fmap_Some in Hk as (e & Hk & ->).
    assert (Host e ∈ live c ∖ list_to_set gone) as Hin.
    { rewrite <-Hrm. apply (proj1 Hinv3). eauto. }
    set_solver.
  - intros k p Hk Hz. unfold Get in Hk. cbn in *. apply fmap_Some in Hk as (e & Hk & ->).
    apply (proj1 Hinv3). eauto.
Qed.


(** A published entry is kept while its spec does not change, nil or not: the hosts of a
    refused batch are not asked for again. *)
Theorem published_entry_is_kept snapshot o1 o2 (s : HostSet K C) k e spec :
  o1 ≡ₚ map_to_list snapshot -> o2 ≡ₚ map_to_list (current s) -> hostset_inv s ->
  current s !! k = Some e -> snapshot !! k = Some spec -> specEqual (Spec e) spec = true ->
  exists s1 s2 s3, Apply o1 o2 s = Ok [s1; s2; s3] /\ current s3 !! k = Some e /\ spec ∉ newSpecs [(k, spec)] s.
Proof.
  intros H1 H2 H3 He Hk Hs. destruct (Apply_ok snapshot o1 o2 s H1 H2 H3) as (s1 & s2 & s3 & Ha & Hp & _).
  exists s1, s2, s3. split; [done|]. specialize (Hp k). rewrite Hk, He, Hs in Hp. split; [done|].
  unfold newSpecs. cbn. rewrite He, Hs. apply not_elem_of_nil.
Qed.
End props.

(** ** Comparing specs *)

(** [specEqual] decides equality of specs whose metadata has no empty value: [Apply]
    reuses a host exactly when nothing about it changed. *)
Theorem specEqual_decides a b :
  (forall k v, Metadata a !! k = Some v -> v <> "") ->
  specEqual a b = true <-> a = b.
Proof.
  intros Hne. unfold specEqual. split.
  - destruct (bool_decide (Address a = Address b)) eqn:E1; [|done].
    destruct (bool_decide (Hostname a = Hostname b)) eqn:E2; [|done].
    destruct (Z.eqb_spec (Weight a) (Weight b)) as [E3|]; [|done]. simpl.
    destruct (Nat.eqb_spec (base.size (Metadata a)) (base.size (Metadata b))) as [E4|]; [|done]. simpl.
    intros Hm%bool_decide_eq_true. apply bool_decide_eq_true in E1, E2.
    assert (Metadata a = Metadata b) as E5.
    { apply map_subseteq_size_eq; [|lia]. apply map_subseteq_spec. intros k v Hk.
      pose proof (Hm k v Hk) as Hb. cbn in Hb. destruct (Metadata b !! k) as [w|]; simpl in Hb; [congruence|].
      subst v. by destruct (Hne k "" Hk). }
    destruct a, b; simpl in *; congruence.
  - intros <-. rewrite !bool_decide_true by done. rewrite Z.eqb_refl, Nat.eqb_refl. simpl.
    apply bool_decide_eq_true. intros k v Hk. by rewrite Hk.
Qed.

(** A missing key is taken for an empty value: two specs that differ in which key has the
    empty value compare equal, so [Apply] keeps the old host for the new spec. *)
Theorem specEqual_confuses_missing_with_empty :
  exists a b, specEqual a b = true /\ a <> b /\
    Metadata a !! "tls" = Some "" /\ Metadata b !! "tls" = None.
Proof.
  exists (mkSpec "10.0.0.1:80" "" 1 {["tls" := ""]}), (mkSpec "10.0.0.1:80" "" 1 {["plain" := ""]}).
  split_and!; [by vm_compute| |done|done].
  intros H. assert ({["tls" := ""]} = {["plain" := ""]} :> gmap string string) as Hm by congruence.
  assert (({["tls" := ""]} : gmap string string) !! "tls" = None) as Hn by (rewrite Hm; done). done.
Qed.

(** ** A cluster, and witnesses *)

(** A cluster that numbers its hosts: the next number and the hosts with their health. *)
Record simCluster := mkSim { sim_next : Z; sim_hosts : gmap Z Z }.

Fixpoint sim_add (specs : list HostSpec) (c : simCluster) : list HostPtr * simCluster :=
  match specs with
  | [] => ([], c)
  | _ :: specs =>
      let '(ps, c') := sim_add specs (mkSim (sim_next c + 1) (<[sim_next c := 0%Z]> (sim_hosts c))) in
      (sim_next c :: ps, c')
  end.

(** It takes a batch when no weight is above 128. *)
#[export] Instance sim_handle : ClusterHandle simCluster := {
  AddHosts specs c :=
    if forallb (fun sp => (Weight sp <=? 128)%Z) specs then
      let p := Z.max (sim_next c) (1 + map_fold (fun k _ m => Z.max k m) 0%Z (sim_hosts c)) in
      sim_add specs (mkSim (Z.max p 1) (sim_hosts c))
    else (replicate (length specs) 0%Z, c);
  UpdateHostHealth p h c := mkSim (sim_next c) (alter (fun _ => h) p (sim_hosts c));
  RemoveHosts ps c := mkSim (sim_next c) (foldr delete (sim_hosts c) ps);
  live c := dom (sim_hosts c) ∖ {[0%Z]};
}.

(** Every host of the cluster has a smaller number than the next one. *)
Definition sim_bound (c : simCluster) : Prop := forall k, k ∈ dom (sim_hosts c) -> (k < sim_next c)%Z.

Lemma sim_add_spec specs c ps c' :
  sim_add specs c = (ps, c') -> sim_bound c ->
  length ps = length specs /\ NoDup ps /\ (forall p, p ∈ ps -> (sim_next c <= p)%Z) /\
  dom (sim_hosts c') = dom (sim_hosts c) ∪ list_to_set ps.
Proof.
  revert c ps c'. induction specs as [|sp specs IH]; intros c ps c' Ha Hb; simpl in Ha.
  - injection Ha as <- <-. split_and!; [done|constructor|set_solver|set_solver].
  - destruct (sim_add specs _) as [ps1 c1] eqn:E1. injection Ha as <- <-.
    apply IH in E1 as (H1 & H2 & H3 & H4).
    + simpl in *. split_and!; [lia| | |].
      * apply NoDup_cons. split; [|done]. intros Hin%H3. lia.
      * intros p [->|Hp%H3]%elem_of_cons; lia.
      * rewrite H4, dom_insert_L. set_solver.
    + intros k. simpl. rewrite dom_insert_L. intros [->%elem_of_singleton|Hk%Hb]%elem_of_union; lia.
Qed.

Lemma sim_start_bound c :
  sim_bound (mkSim (Z.max (Z.max (sim_next c) (1 + map_fold (fun k _ m => Z.max k m) 0%Z (sim_hosts c))) 1)
    (sim_hosts c)).
Proof.
  intros k Hk. simpl in *. enough (k <= map_fold (fun k _ m => Z.max k m) 0 (sim_hosts c))%Z by lia.
  revert Hk. apply (map_fold_weak_ind (fun r m => k ∈ dom m -> (k <= r)%Z)); [set_solver|].
  intros i x m r Hi IH. rewrite dom_insert_L. intros [->%elem_of_singleton|Hk%IH]%elem_of_union; lia.
Qed.

#[export] Instance sim_laws : ClusterHandleLaws simCluster.
Proof.
  split; cbn.
  - intros specs c ps c'. destruct (forallb _ specs).
    + intros Ha. by apply sim_add_spec in Ha as (? & _); [|apply sim_start_bound].
    + intros [= <- _]. apply length_replicate.
  - intros specs c ps c' Ha. destruct (forallb _ specs); [left|right; by injection Ha as <- <-].
    apply sim_add_spec in Ha as (_ & H2 & H3 & H4); [|apply sim_start_bound]. cbn in *.
    assert (forall p, p ∈ ps -> p <> 0%Z /\ p ∉ dom (sim_hosts c)) as H5.
    { intros p Hp. pose proof (H3 p Hp). split; [lia|]. intros Hin%sim_start_bound. cbn in Hin. lia. }
    split_and!; [done| |].
    + intros p Hp. cbn. destruct (H5 p Hp). set_solver.
    + cbn. rewrite H4. apply set_eq. intros p. specialize (H5 p). rewrite !elem_of_difference, !elem_of_union,
        !elem_of_difference, !elem_of_list_to_set, !elem_of_singleton. naive_solver.
  - intros p h c. by rewrite dom_alter_L.
  - intros ps c. assert (dom (foldr delete (sim_hosts c) ps) = dom (sim_hosts c) ∖ list_to_set ps) as ->; [|set_solver].
    induction ps as [|p ps IH]; simpl; [set_solver|]. rewrite dom_delete_L, IH. set_solver.
  - intros c. set_solver.
Qed.

Definition spec1 : HostSpec := mkSpec "10.0.0.1:80" "a" 1 ∅.
Definition spec2 : HostSpec := mkSpec "10.0.0.2:80" "b" 1 {["z" := "1"]}.
Definition snap : gmap string HostSpec := {["one" := spec1]}.
Definition spec3 : HostSpec := mkSpec "10.0.0.3:80" "c" 500 ∅.
Definition heavy : gmap string HostSpec := {["one" := spec3]}.

Lemma empty_set_inv c : live c = ∅ -> hostset_inv (NewHostSet (K := string) (C := simCluster) c).
Proof.
  intros Hc. split.
  - intros p. cbn [handle NewHostSet current]. rewrite Hc. split; [set_solver|].
    intros (_ & k & e & Hk & _). by rewrite lookup_empty in Hk.
  - intros k1 k2 e1 e2 Hk. cbn in Hk. by rewrite lookup_empty in Hk.
Qed.

(** The host of a key after the last state of an [Apply]. *)
Definition last_get (r : res (list (HostSet string simCluster))) : option (option HostPtr) :=
  match r with Ok l => Get "one" <$> last l | Panic _ => None end.


(** The refused host stays nil: the same snapshot again adds nothing. *)
Definition refused_set : HostSet string simCluster := Eval vm_compute in
  match Apply (map_to_list heavy) [] (NewHostSet (mkSim 1 ∅)) with
  | Ok l => default (NewHostSet (mkSim 1 ∅)) (last l)
  | Panic _ => NewHostSet (mkSim 1 ∅)
  end.

Lemma published_entry_is_kept_witness :
  exists s1 s2 s3, Apply (map_to_list heavy) (map_to_list (current refused_set)) refused_set = Ok [s1; s2; s3] /\
    current s3 !! "one" = Some (mkEntry spec3 0).
Proof.
  destruct (published_entry_is_kept heavy (map_to_list heavy) (map_to_list (current refused_set)) refused_set
    "one" (mkEntry spec3 0) spec3) as (s1 & s2 & s3 & H1 & H2 & _); [done|done| |by vm_compute..|].
  - split.
    + intros p. split; [by intros Hp%(bool_decide_pack _)|]. intros (Hp & k & e & Hk & He). destruct Hp.
      change (current refused_set) with ({["one" := mkEntry spec3 0]} : gmap string HostEntry) in Hk.
      by apply lookup_singleton_Some in Hk as [_ <-].
    + intros k1 k2 e1 e2 H1 H2 _ Hz. destruct Hz.
      change (current refused_set) with ({["one" := mkEntry spec3 0]} : gmap string HostEntry) in H1.
      by apply lookup_singleton_Some in H1 as [_ <-].
  - exists s1, s2, s3. split; [exact H1|exact H2].
Defined.

Lemma specEqual_decides_witness : specEqual spec2 spec2 = true <-> spec2 = spec2.
Proof.
  apply (specEqual_decides spec2 spec2). intros k v. simpl.
  intros [_ <-]%lookup_singleton_Some. done.
Defined.
