(* ===== verification/HostRefresh.v ===== *)
(** * up/host_refresh_loop.go: keeping a host set up to date

    A ticker goroutine fetches snapshots and schedules [Apply] on the cluster's main thread,
    at most one of its applies being scheduled at a time; [RefreshOnce] does the same on
    demand and waits; [Stop] closes the loop.  The loop is a transition system whose steps are
    the critical sections of the code: the ticker's fetch has returned and the lock is taken,
    the ticker hands its apply to [Schedule], a call of [RefreshOnce], the main thread
    running the next scheduled function, its call of the observer for a failed fetch (made
    after the lock is released), and [Stop].  Fetched snapshots, the order in which Go ranges
    over maps and the random jitter are inputs of the steps; durations are not modelled. *)
From stdpp Require Import base list gmap strings sets relations.
From Stdlib Require Import ZArith Lia.
From S2P Require Import Prelude HostSet HostSetProps.

(** ** Intervals, in nanoseconds: [time.Duration] is an [int64] *)

Definition Millisecond : Z := 1000000.
Definition Second : Z := 1000 * Millisecond.
Definition DefaultRefreshInterval : Z := 30 * Second.
Definition DefaultRefreshTimeout : Z := Second.

(** An [int64] result, wrapped. *)
Definition int64_of (z : Z) : Z := ((z + 2 ^ 63) mod 2 ^ 64 - 2 ^ 63)%Z.

(** [HostRefreshOptions], with [Observe] set or not. *)
Record HostRefreshOptions := mkOptions {
  Interval : Z;
  Timeout : Z;
  Jitter : Z;
  Observe : bool;
}.

(** [HostRefreshEvent] without its duration. *)
Record HostRefreshEvent := mkEvent {
  Added : nat;
  Removed : nat;
  Unchanged : nat;
  Err : option string;
}.

(** [tickInterval], [r] being the result of [rand.Int64N], which panics on a bound that is
    not positive. *)
Definition tickInterval (interval jitter r : Z) : res Z :=
  if (jitter =? 0)%Z then Ok interval
  else if (int64_of (int64_of (2 * jitter) + 1) <=? 0)%Z
  then Panic "invalid argument to Int64N"
  else
    let offset := int64_of (r - jitter) in
    let d := int64_of (interval + offset) in
    Ok (if (d <=? 0)%Z then Millisecond else d).

Section refresh.
Context {K : Type} `{Countable K} {C : Type} `{ClusterHandle C}.

(** A function handed to [handle.Schedule].  [once] is the [done] channel of the
    [RefreshOnce] that scheduled it, [None] for the ticker. *)
Inductive scheduled_fn :=
  | ScheduleApply (once : option nat) (snap : gmap K HostSpec)
  | ScheduleError (once : option nat) (err : string).

(** [HostRefreshLoop] with the main thread's queue, the events observed, the [done]
    channels closed, the number of [RefreshOnce] calls, the snapshot the ticker has claimed
    [pending] for and not scheduled yet, and the failed fetch the main thread is about to
    report to the observer (it has seen the loop open). *)
Record HostRefreshLoop := mkLoop {
  set_ : HostSet K C;
  interval : Z;
  timeout : Z;
  jitter : Z;
  observe : bool;
  pending : bool;
  closed : bool;
  main_queue : list scheduled_fn;
  observed : list HostRefreshEvent;
  done_ : gset nat;
  onces : nat;
  ticker : option (gmap K HostSpec);
  reporting : option (option nat * string);
}.

(** [NewHostRefreshLoop]. *)
Definition NewHostRefreshLoop (s : HostSet K C) (opts : HostRefreshOptions) : HostRefreshLoop :=
  mkLoop s (if (Interval opts <=? 0)%Z then DefaultRefreshInterval else Interval opts)
    (if (Timeout opts <=? 0)%Z then DefaultRefreshTimeout else Timeout opts)
    (Jitter opts) (Observe opts) false false [] [] ∅ 0 None None.

Definition Schedule (f : scheduled_fn) (l : HostRefreshLoop) : HostRefreshLoop :=
  mkLoop (set_ l) (interval l) (timeout l) (jitter l) (observe l) (pending l) (closed l)
    (main_queue l ++ [f]) (observed l) (done_ l) (onces l) (ticker l) (reporting l).

Definition set_pending (b : bool) (l : HostRefreshLoop) : HostRefreshLoop :=
  mkLoop (set_ l) (interval l) (timeout l) (jitter l) (observe l) b (closed l) (main_queue l)
    (observed l) (done_ l) (onces l) (ticker l) (reporting l).

Definition set_ticker (t : option (gmap K HostSpec)) (l : HostRefreshLoop) : HostRefreshLoop :=
  mkLoop (set_ l) (interval l) (timeout l) (jitter l) (observe l) (pending l) (closed l) (main_queue l)
    (observed l) (done_ l) (onces l) t (reporting l).

Definition set_reporting (r : option (option nat * string)) (l : HostRefreshLoop) : HostRefreshLoop :=
  mkLoop (set_ l) (interval l) (timeout l) (jitter l) (observe l) (pending l) (closed l) (main_queue l)
    (observed l) (done_ l) (onces l) (ticker l) r.

Definition add_observed (e : HostRefreshEvent) (l : HostRefreshLoop) : HostRefreshLoop :=
  mkLoop (set_ l) (interval l) (timeout l) (jitter l) (observe l) (pending l) (closed l) (main_queue l)
    (observed l ++ [e]) (done_ l) (onces l) (ticker l) (reporting l).

Definition set_main_queue (q : list scheduled_fn) (l : HostRefreshLoop) : HostRefreshLoop :=
  mkLoop (set_ l) (interval l) (timeout l) (jitter l) (observe l) (pending l) (closed l) q
    (observed l) (done_ l) (onces l) (ticker l) (reporting l).

(** [fetchAndSchedule], from the result of the fetch to the release of the lock: a failed
    fetch is scheduled for the observer; a snapshot is dropped when an apply is pending or
    the loop closed, and otherwise claims [pending]. *)
Definition fetchAndSchedule (fetched : string + gmap K HostSpec) (l : HostRefreshLoop) :
    HostRefreshLoop :=
  match fetched with
  | inl err => if observe l then Schedule (ScheduleError None err) l else l
  | inr snap =>
      if pending l || closed l then l
      else set_ticker (Some snap) (set_pending true l)
  end.

(** The rest of [fetchAndSchedule]: the call of [handle.Schedule], outside the lock. *)
Definition fetchAndSchedule_rest (l : HostRefreshLoop) : HostRefreshLoop :=
  match ticker l with
  | Some snap => Schedule (ScheduleApply None snap) (set_ticker None l)
  | None => l
  end.

(** [RefreshOnce], from the result of the fetch on: what it schedules.  The second result is
    what it waits for: [inl] an immediate return, [inr] a [done] channel and the value to
    return when it closes. *)
Definition RefreshOnce (fetched : string + gmap K HostSpec) (l : HostRefreshLoop) :
    HostRefreshLoop * (option string + nat * option string) :=
  let id := onces l in
  let l := mkLoop (set_ l) (interval l) (timeout l) (jitter l) (observe l) (pending l) (closed l)
             (main_queue l) (observed l) (done_ l) (S id) (ticker l) (reporting l) in
  match fetched with
  | inl err => if observe l then (Schedule (ScheduleError (Some id) err) l, inr (id, Some err))
               else (l, inl (Some err))
  | inr snap => (Schedule (ScheduleApply (Some id) snap) l, inr (id, None))
  end.

(** [Stop]: the loop is closed; the group stops the ticker. *)
Definition Stop (l : HostRefreshLoop) : HostRefreshLoop :=
  mkLoop (set_ l) (interval l) (timeout l) (jitter l) (observe l) (pending l) true
    (main_queue l) (observed l) (done_ l) (onces l) (ticker l) (reporting l).

(** One key of the loop of [diffCounts] over the desired snapshot. *)
Definition diff_key (prev next : gmap K HostEntry) (acc : nat * nat) (k : K) : nat * nat :=
  let '(added, unchanged) := acc in
  match prev !! k, next !! k with
  | None, Some _ => (S added, unchanged)
  | Some pe, Some ne => if decide (Host ne = Host pe) then (added, S unchanged) else (S added, unchanged)
  | _, None => (added, unchanged)
  end.

(** [diffCounts(prev, next, desired)]. *)
Definition diffCounts (prev next : gmap K HostEntry) (desired : gmap K HostSpec) : nat * nat * nat :=
  let '(added, unchanged) := foldl (diff_key prev next) (0, 0) (map_to_list desired).*1 in
  (added, length (base.filter (fun k => next !! k = None) (map_to_list prev).*1), unchanged).

(** The apply both scheduled functions run when the loop is open. *)
Definition apply_snapshot (o1 : list (K * HostSpec)) (o2 : list (K * HostEntry))
    (snap : gmap K HostSpec) (l : HostRefreshLoop) : res HostRefreshLoop :=
  let prev := Current (set_ l) in
  states ← Apply o1 o2 (set_ l);
  let set' := List.last states (set_ l) in
  let '(added, removed, unchanged) := diffCounts prev (Current set') snap in
  Ok (mkLoop set' (interval l) (timeout l) (jitter l) (observe l) (pending l) (closed l)
        (main_queue l)
        (if observe l then observed l ++ [mkEvent added removed unchanged None] else observed l)
        (done_ l) (onces l) (ticker l) (reporting l)).

(** Close the [done] channel of a [RefreshOnce]. *)
Definition close_done (once : option nat) (l : HostRefreshLoop) : HostRefreshLoop :=
  match once with
  | None => l
  | Some id => mkLoop (set_ l) (interval l) (timeout l) (jitter l) (observe l) (pending l) (closed l)
                 (main_queue l) (observed l) ({[id]} ∪ done_ l) (onces l) (ticker l) (reporting l)
  end.

(** The body of a scheduled function.  The one for a failed fetch reads [closed] under the
    lock and calls the observer after releasing it ([report]). *)
Definition run_fn (o1 : list (K * HostSpec)) (o2 : list (K * HostEntry)) (f : scheduled_fn)
    (l : HostRefreshLoop) : res HostRefreshLoop :=
  match f with
  | ScheduleError once err =>
      Ok (if closed l then close_done once l else set_reporting (Some (once, err)) l)
  | ScheduleApply once snap =>
      let l := match once with None => set_pending false l | Some _ => l end in
      l ← (if closed l then Ok l else apply_snapshot o1 o2 snap l);
      Ok (close_done once l)
  end.

(** The main thread runs the function at the head of its queue. *)
Definition run_main (o1 : list (K * HostSpec)) (o2 : list (K * HostEntry)) (l : HostRefreshLoop) :
    res HostRefreshLoop :=
  match main_queue l with
  | [] => Ok l
  | f :: q => run_fn o1 o2 f (set_main_queue q l)
  end.

(** The main thread calls the observer for a failed fetch. *)
Definition report (l : HostRefreshLoop) : HostRefreshLoop :=
  match reporting l with
  | Some (once, err) => close_done once (add_observed (mkEvent 0 0 0 (Some err)) (set_reporting None l))
  | None => l
  end.

(** The snapshot of the function the main thread runs next. *)
Definition next_snapshot (l : HostRefreshLoop) : gmap K HostSpec :=
  match main_queue l with ScheduleApply _ snap :: _ => snap | _ => ∅ end.

(** One step of the system: of the ticker goroutine, of a caller of [RefreshOnce] or [Stop],
    or of the main thread. *)
Inductive rstep : HostRefreshLoop -> HostRefreshLoop -> Prop :=
  | r_tick fetched l : ticker l = None -> rstep l (fetchAndSchedule fetched l)
  | r_dispatch snap l : ticker l = Some snap -> rstep l (fetchAndSchedule_rest l)
  | r_once fetched l : rstep l (RefreshOnce fetched l).1
  | r_main o1 o2 l l' : reporting l = None ->
      o1 ≡ₚ map_to_list (next_snapshot l) -> o2 ≡ₚ map_to_list (current (set_ l)) ->
      run_main o1 o2 l = Ok l' -> rstep l l'
  | r_report l : rstep l (report l)
  | r_stop l : rstep l (Stop l).

(** The applies of the ticker that are scheduled, and the one it is about to schedule. *)
Definition ticks (q : list scheduled_fn) : nat :=
  length (List.filter (fun f => match f with ScheduleApply None _ => true | _ => false end) q).

Definition claimed (l : HostRefreshLoop) : nat :=
  match ticker l with Some _ => 1 | None => 0 end.

(** The invariant: the host set is consistent, and [pending] says whether the ticker has an
    apply scheduled or about to be, of which there is never more than one. *)
Definition loop_ok (l : HostRefreshLoop) : Prop :=
  hostset_inv (set_ l) /\ ticks (main_queue l) + claimed l = (if pending l then 1 else 0).

(** The specs of [prev] that [Apply] reuses. *)
Definition reused (prev : gmap K HostEntry) (ks : K * HostSpec) : bool :=
  match prev !! ks.1 with Some e => specEqual (Spec e) ks.2 | None => false end.
End refresh.
Arguments HostRefreshLoop K {_ _} C.
Arguments scheduled_fn K {_ _}.

(** ** The loop's steps *)

Section props.
Context {K : Type} `{Countable K} {C : Type} `{ClusterHandleLaws C}.
Implicit Types l : HostRefreshLoop K C.

Lemma ticks_app (q1 q2 : list (scheduled_fn K)) : ticks (q1 ++ q2) = ticks q1 + ticks q2.
Proof. unfold ticks. by rewrite List.filter_app, length_app. Qed.

(** Counting the keys of a map that satisfy a predicate. *)
Lemma length_filter_keys {A} (P : K -> Prop) `{forall k, Decision (P k)} (m : gmap K A) :
  length (base.filter P (map_to_list m).*1) = base.size (base.filter (fun x => P x.1) m).
Proof.
  rewrite <-length_map_to_list, map_filter_alt, map_to_list_to_map.
  - generalize (map_to_list m). intros l. induction l as [|[k x] l IH]; [done|].
    rewrite fmap_cons, !filter_cons. cbn [fst]. case_decide; cbn; by rewrite IH.
  - generalize (NoDup_fst_map_to_list m). generalize (map_to_list m). intros l.
    induction l as [|[k x] l IH]; [done|]. rewrite fmap_cons, NoDup_cons, filter_cons. cbn [fst].
    intros [Hk Hl]. case_decide; [|by apply IH]. rewrite fmap_cons, NoDup_cons. split; [|by apply IH].
    cbn [fst]. intros (y & -> & Hy)%list_elem_of_fmap. apply Hk.
    apply list_elem_of_filter in Hy as [_ Hy]. by apply (list_elem_of_fmap_2 fst).
Qed.

(** The counts of [diffCounts], folded over any list of keys. *)
Lemma diff_fold (prev next : gmap K HostEntry) (ks : list (K * HostSpec)) a u :
  (forall k spec, (k, spec) ∈ ks ->
     exists e, next !! k = Some e /\ (reused prev (k, spec) = true <-> Host <$> prev !! k = Some (Host e))) ->
  foldl (diff_key prev next) (a, u) ks.*1 =
  (a + length (List.filter (fun x => negb (reused prev x)) ks), u + length (List.filter (reused prev) ks)).
Proof.
  revert a u. induction ks as [|[k spec] ks IH]; intros a u Hk; [by rewrite !Nat.add_0_r|].
  rewrite fmap_cons. cbn [foldl fst]. unfold diff_key at 2.
  destruct (Hk k spec) as (e & He & Hr); [left|]. rewrite He. cbn [List.filter].
  assert (forall k spec, (k, spec) ∈ ks -> exists e, next !! k = Some e /\
    (reused prev (k, spec) = true <-> Host <$> prev !! k = Some (Host e))) as Hk'.
  { intros k' spec' Hin. apply Hk. by right. }
  destruct (prev !! k) as [pe|] eqn:Hp; [case_decide as Hd|]; rewrite IH by done.
  - rewrite (proj2 Hr) by (cbn; congruence). cbn. f_equal. lia.
  - destruct (reused prev (k, spec)); [exfalso; pose proof (proj1 Hr eq_refl); cbn in *; congruence|]. cbn. f_equal; lia.
  - destruct (reused prev (k, spec)); [by pose proof (proj1 Hr eq_refl)|]. cbn. f_equal; lia.
Qed.

(** What [diffCounts] reports about an [Apply] whose batch was taken. *)
Lemma diffCounts_published (prev next : gmap K HostEntry) (snap : gmap K HostSpec) :
  published true prev snap next ->
  diffCounts prev next snap =
  (length (List.filter (fun x => negb (reused prev x)) (map_to_list snap)),
   length (base.filter (fun k => snap !! k = None) (map_to_list prev).*1),
   length (List.filter (reused prev) (map_to_list snap))).
Proof.
  intros Hpub. unfold diffCounts. rewrite diff_fold.
  - f_equal. f_equal. f_equal. apply list_filter_iff. intros k. specialize (Hpub k).
    destruct (snap !! k) as [spec|]; [|by rewrite Hpub]. split; [|done]. intros Hn. rewrite Hn in Hpub.
    destruct (prev !! k) as [e|]; [destruct (specEqual _ _)|]; naive_solver.
  - intros k spec Hin%elem_of_map_to_list. specialize (Hpub k). rewrite Hin in Hpub.
    unfold reused. cbn [fst snd].
    destruct (prev !! k) as [e|]; [destruct (specEqual (Spec e) spec)|]; cbn.
    + exists e. by split.
    + destruct Hpub as (p & Hp & _ & Hne). eexists. split; [done|]. cbn. split; [done|].
      intros [= He]. by destruct (Hne e eq_refl).
    + destruct Hpub as (p & Hp & _). eexists. split; [done|]. by split.
Qed.

(** Running an apply while the loop is open. *)
Lemma apply_snapshot_ok o1 o2 snap l :
  o1 ≡ₚ map_to_list snap -> o2 ≡ₚ map_to_list (current (set_ l)) -> hostset_inv (set_ l) ->
  exists set', apply_snapshot o1 o2 snap l =
    Ok (mkLoop set' (interval l) (timeout l) (jitter l) (observe l) (pending l) (closed l) (main_queue l)
      (if observe l then observed l ++
         [let '(added, removed, unchanged) := diffCounts (current (set_ l)) (current set') snap in
          mkEvent added removed unchanged None]
       else observed l) (done_ l) (onces l) (ticker l) (reporting l)) /\
    published (negb (refuses (newSpecs o1 (set_ l)) (handle (set_ l)))) (current (set_ l)) snap (current set') /\
    hostset_inv set'.
Proof.
  intros Ho1 Ho2 Hinv.
  destruct (Apply_ok snap o1 o2 (set_ l) Ho1 Ho2 Hinv) as (s1 & s2 & s3 & Ha & Hpub & _ & _ & _ & Hinv3).
  exists s3. unfold apply_snapshot. rewrite Ha. cbn. unfold Current.
  destruct (diffCounts _ _ snap) as [[added removed] unchanged]. by split_and!.
Qed.

Lemma close_done_ok once l : loop_ok l -> loop_ok (close_done once l).
Proof. by destruct once. Qed.

Lemma run_main_ok o1 o2 l :
  loop_ok l -> o1 ≡ₚ map_to_list (next_snapshot l) -> o2 ≡ₚ map_to_list (current (set_ l)) ->
  exists l', run_main o1 o2 l = Ok l' /\ loop_ok l'.
Proof.
  intros [Hinv Ht] Ho1 Ho2. unfold run_main, next_snapshot in *.
  destruct (main_queue l) as [|[once snap|once err] q] eqn:Hq; [by exists l; split; [done|split; [done|rewrite Hq]]|..]; cbn [run_fn].
  - set (la := match once with None => _ | Some _ => _ end).
    assert (loop_ok la) as Hla.
    { subst la. destruct once; split; try done. unfold claimed, ticks in *. cbn in *. destruct (pending l); lia. }
    destruct (closed la) eqn:Hc; [by eexists; split; [done|]; apply close_done_ok|].
    destruct (apply_snapshot_ok o1 o2 snap la) as (set' & -> & _ & Hinv'); [done| |apply Hla|].
    { subst la. by destruct once. }
    cbn. eexists. split; [done|]. apply close_done_ok. split; [done|]. apply Hla.
  - eexists. split; [done|]. cbn [closed set_main_queue]. destruct (closed l); [apply close_done_ok|]; by split.
Qed.

(** Scheduling anything but an apply of the ticker. *)
Lemma Schedule_ok f l : ticks [f] = 0 -> loop_ok l -> loop_ok (Schedule f l).
Proof.
  intros Hf [Hi Ht]. split; [done|]. unfold claimed, Schedule in *. cbn [main_queue pending ticker].
  by rewrite ticks_app, Hf, Nat.add_0_r.
Qed.

Lemma rstep_ok l l' : rstep l l' -> loop_ok l -> loop_ok l'.
Proof.
  intros Hs Hok. pose proof Hok as [Hi Ht]. unfold claimed in Ht.
  destruct Hs as [[err|snap] l Htk|snap l Htk|[err|snap] l|o1 o2 l l' _ Ho1 Ho2 Hr|l|l]; [..|done].
  - unfold fetchAndSchedule. destruct (observe l); [|done]. by apply Schedule_ok.
  - unfold fetchAndSchedule. destruct (pending l) eqn:Hp; [done|]. destruct (closed l); [done|].
    split; [done|]. unfold claimed. cbn [fetchAndSchedule set_ticker set_pending main_queue ticker pending orb]. rewrite Htk in Ht. lia.
  - unfold fetchAndSchedule_rest. rewrite Htk in *. split; [done|]. unfold claimed, Schedule, set_ticker.
    cbn [main_queue pending ticker]. rewrite ticks_app. change (ticks [ScheduleApply None snap]) with 1. lia.
  - unfold RefreshOnce. cbn [observe]. destruct (observe l); [by apply Schedule_ok|done].
  - by apply Schedule_ok.
  - destruct (run_main_ok o1 o2 l Hok Ho1 Ho2) as (l'' & Hr' & Hok'). congruence.
  - unfold report. destruct (reporting l) as [[once err]|]; [|done]. by apply close_done_ok.
Qed.

Lemma rtc_ok l l' : rtc rstep l l' -> loop_ok l -> loop_ok l'.
Proof. induction 1; eauto using rstep_ok. Qed.

(** A closed loop stays closed, keeps its hosts, and reports at most the failed fetch the
    main thread had already decided to report. *)
Definition owed l : list HostRefreshEvent :=
  match reporting l with Some (_, err) => [mkEvent 0 0 0 (Some err)] | None => [] end.

Lemma closed_step l l' :
  rstep l l' -> closed l = true ->
  set_ l' = set_ l /\ observed l' ++ owed l' = observed l ++ owed l /\ closed l' = true.
Proof.
  intros Hs Hcl. destruct Hs as [[err|snap] l Htk|snap l Htk|[err|snap] l|o1 o2 l l' Hrp _ _ Hm|l|l]; cbn; try done.
  - by destruct (observe l).
  - by rewrite Hcl, orb_true_r.
  - unfold fetchAndSchedule_rest. by rewrite Htk.
  - by destruct (observe l).
  - unfold run_main in Hm. unfold owed. destruct (main_queue l) as [|[once snap|once err] q]; cbn in Hm;
      [by injection Hm as <-| |]; rewrite ?Hcl in Hm; destruct once; cbn in Hm; rewrite ?Hcl in Hm;
      by injection Hm as <-.
  - unfold report, owed. destruct (reporting l) as [[once err]|] eqn:Hr; [|by rewrite Hr].
    destruct once; cbn; by rewrite app_nil_r.
Qed.

Lemma closed_rtc l l' :
  rtc rstep l l' -> closed l = true ->
  set_ l' = set_ l /\ observed l' ++ owed l' = observed l ++ owed l /\ closed l' = true.
Proof.
  induction 1 as [|l0 l1 l2 Hs _ IH]; [done|]. intros Hcl.
  destruct (closed_step _ _ Hs Hcl) as (E1 & E2 & E3). rewrite <-E1, <-E2. by apply IH.
Qed.


(** Nothing is applied after [Stop], and nothing observed but a failed fetch the main thread
    had already found the loop open for.  Whatever fetches return, whatever was already
    scheduled and however often [RefreshOnce] is called, from a closed loop on the host set
    keeps its hosts; scheduled functions still run, so every [RefreshOnce] that waits is
    released. *)
Theorem refresh_stop_is_final l l' :
  rtc rstep (Stop l) l' ->
  set_ l' = set_ l /\ observed l' `prefix_of` observed l ++ owed l /\ closed l' = true /\
  forall o1 o2 f q, main_queue l' = f :: q -> exists l'', run_main o1 o2 l' = Ok l'' /\ main_queue l'' = q /\
    match f with
    | ScheduleApply (Some id) _ | ScheduleError (Some id) _ => id ∈ done_ l''
    | _ => done_ l'' = done_ l'
    end.
Proof.
  intros Hr.
  destruct (closed_rtc _ _ Hr) as (E1 & E2 & E3); [done|]. change (observed l ++ owed l) with (observed (Stop l) ++ owed (Stop l)).
  split_and!; [done|by exists (owed l')|done|]. intros o1 o2 f q Hq. unfold run_main. rewrite Hq.
  destruct f as [once snap|once err]; destruct once; cbn; rewrite E3; cbn; eexists; split; try done;
    cbn; set_solver.
Qed.

(** The observer is told the truth about each refresh.  When the open loop applies a
    snapshot and Envoy takes the new hosts, the event counts as unchanged exactly the specs whose host was kept, as added
    every other spec of the snapshot, and as removed every key the snapshot no longer has;
    added and unchanged together are the whole snapshot. *)
Theorem refresh_counts_exact o1 o2 once snap q l :
  hostset_inv (set_ l) -> closed l = false -> observe l = true ->
  main_queue l = ScheduleApply once snap :: q ->
  o1 ≡ₚ map_to_list snap -> o2 ≡ₚ map_to_list (current (set_ l)) ->
  refuses (newSpecs o1 (set_ l)) (handle (set_ l)) = false ->
  exists l' added removed unchanged_,
    run_main o1 o2 l = Ok l' /\ published true (current (set_ l)) snap (current (set_ l')) /\
    observed l' = observed l ++ [mkEvent added removed unchanged_ None] /\
    unchanged_ = length (List.filter (reused (current (set_ l))) (map_to_list snap)) /\
    added + unchanged_ = base.size snap /\
    removed = base.size (base.filter (fun x => snap !! x.1 = None) (current (set_ l))).
Proof.
  intros Hinv Hc Ho Hq Ho1 Ho2 Hrf. unfold run_main. rewrite Hq. cbn [run_fn].
  set (la := match once with None => _ | Some _ => _ end).
  assert (set_ la = set_ l /\ closed la = false /\ observe la = true /\ observed la = observed l)
    as (E1 & E2 & E3 & E4) by (subst la; by destruct once).
  rewrite E2. destruct (apply_snapshot_ok o1 o2 snap la) as (set' & Ha & Hpub & _); [done|by rewrite E1..|].
  rewrite E1, Hrf in Hpub. rewrite E1 in Ha. rewrite (diffCounts_published _ _ _ Hpub) in Ha.
  rewrite Ha. cbn [mbind res_bind]. eexists _, _, _, _. split; [done|].
  rewrite E3, E4. split_and!.
  - by destruct once.
  - by destruct once.
  - done.
  - rewrite Nat.add_comm, List.filter_length. apply length_map_to_list.
  - apply length_filter_keys.
Qed.
End props.

(** ** The tick interval *)

Lemma int64_of_small z : (- 2 ^ 63 <= z < 2 ^ 63)%Z -> int64_of z = z.
Proof. intros Hz. unfold int64_of. rewrite Z.mod_small by lia. lia. Qed.

(** Without overflow the interval is positive and off by at most the jitter, or floored at a
    millisecond; a negative jitter panics. *)
Lemma tickInterval_bounds i j r :
  (0 < i)%Z -> (0 <= j < 2 ^ 62)%Z -> (i + j < 2 ^ 63)%Z -> (0 <= r < 2 * j + 1)%Z ->
  exists d, tickInterval i j r = Ok d /\ (0 < d)%Z /\ (d = Millisecond \/ (i - j <= d <= i + j)%Z).
Proof.
  intros Hi Hj Hij Hr. unfold tickInterval.
  destruct (Z.eqb_spec j 0) as [->|Hj0]; [exists i; split_and!; [done|lia|right; lia]|].
  rewrite !int64_of_small by (rewrite ?int64_of_small by lia; lia).
  destruct (Z.leb_spec (2 * j + 1) 0); [lia|].
  destruct (Z.leb_spec (i + (r - j)) 0); (eexists; split; [done|]); unfold Millisecond; lia.
Qed.

Lemma tickInterval_negative i j r :
  (- 2 ^ 62 <= j < 0)%Z -> tickInterval i j r = Panic "invalid argument to Int64N".
Proof.
  intros Hj. unfold tickInterval. destruct (Z.eqb_spec j 0); [lia|].
  rewrite !int64_of_small by (rewrite ?int64_of_small by lia; lia).
  destruct (Z.leb_spec (2 * j + 1) 0); [done|lia].
Qed.

(** ** Witnesses *)

Definition demo_set : HostSet string simCluster := NewHostSet (mkSim 1 ∅).
Definition demo_opts : HostRefreshOptions := mkOptions 0 0 0 true.
Definition demo_loop : HostRefreshLoop string simCluster := NewHostRefreshLoop demo_set demo_opts.
Definition ticked : HostRefreshLoop string simCluster :=
  fetchAndSchedule_rest (fetchAndSchedule (inr snap) demo_loop).

Lemma demo_inv : hostset_inv demo_set.
Proof. apply empty_set_inv. by vm_compute. Qed.


Lemma refresh_stop_is_final_witness :
  set_ (Stop ticked) = set_ ticked /\
  exists l'', run_main [] [] (Stop ticked) = Ok l'' /\ main_queue l'' = [].
Proof.
  destruct (refresh_stop_is_final ticked (Stop ticked) (rtc_refl _ _)) as (H1 & _ & _ & H2).
  split; [exact H1|]. destruct (H2 [] [] (ScheduleApply None snap) []) as (l'' & E1 & E2 & _).
  - reflexivity.
  - exists l''. split; [exact E1|exact E2].
Defined.

Lemma refresh_counts_exact_witness :
  exists l' added removed unchanged_, run_main (map_to_list snap) [] ticked = Ok l' /\
    observed l' = [mkEvent added removed unchanged_ None] /\ added + unchanged_ = 1 /\ removed = 0.
Proof.
  destruct (refresh_counts_exact (map_to_list snap) [] None snap [] ticked)
    as (l' & a & r & u & H1 & _ & H2 & _ & H3 & H4).
  - apply demo_inv.
  - reflexivity.
  - reflexivity.
  - reflexivity.
  - reflexivity.
  - vm_compute. reflexivity.
  - vm_compute. reflexivity.
  - exists l', a, r, u. split; [exact H1|]. split; [exact H2|]. split.
    + rewrite H3. vm_compute. reflexivity.
    + rewrite H4. vm_compute. reflexivity.
Defined.
