(* ===== verification/Promise.v ===== *)
(** * up/stream_promise.go: resolve-once promises

    The promise and its registered callbacks as a transition system at the granularity of
    the code's critical sections: [Resolve] publishes the value and takes the callbacks
    under the lock, then fires them one by one, each under its own lock, while [cancel] and
    [OnResolve] may run in between from other threads.  A callback is an identifier; firing
    it appends it, with the value it got, to the log. *)
From stdpp Require Import base list gmap sets relations.
From Stdlib Require Import Lia.
From S2P Require Import Prelude.

Section promise.
Context {T : Type}.

Record StreamPromise := mkPromise {
  resolved : option T;          (** [resolved] and [value] *)
  callbacks : list nat;         (** registered, not yet taken by [Resolve] *)
  firing : list nat;            (** taken by [Resolve], not yet visited *)
  canceled : gset nat;          (** entries whose [canceled] flag is set *)
  fired : list (nat * T);       (** callbacks run, in order *)
  registered : nat;             (** how many registrations were made *)
}.

Definition NewStreamPromise : StreamPromise := mkPromise None [] [] ∅ [] 0.

(** The critical section of [Resolve]: the first call wins. *)
Definition Resolve (v : T) (p : StreamPromise) : bool * StreamPromise :=
  match resolved p with
  | Some _ => (false, p)
  | None => (true, mkPromise (Some v) [] (callbacks p) (canceled p) (fired p) (registered p))
  end.

(** One iteration of the loop of [Resolve] over the callbacks it took. *)
Definition fire (p : StreamPromise) : option StreamPromise :=
  match firing p, resolved p with
  | id :: rest, Some v =>
      if decide (id ∈ canceled p)
      then Some (mkPromise (resolved p) (callbacks p) rest (canceled p) (fired p) (registered p))
      else Some (mkPromise (resolved p) (callbacks p) rest ({[id]} ∪ canceled p)
                   (fired p ++ [(id, v)]) (registered p))
  | _, _ => None
  end.

(** [OnResolve]: fires inline when already resolved. *)
Definition OnResolve (p : StreamPromise) : StreamPromise :=
  let id := registered p in
  match resolved p with
  | Some v => mkPromise (resolved p) (callbacks p) (firing p) (canceled p) (fired p ++ [(id, v)]) (S id)
  | None => mkPromise (resolved p) (callbacks p ++ [id]) (firing p) (canceled p) (fired p) (S id)
  end.

(** The cancel function of a callback that did not fire inline. *)
Definition cancel (id : nat) (p : StreamPromise) : StreamPromise :=
  mkPromise (resolved p) (callbacks p) (firing p) ({[id]} ∪ canceled p) (fired p) (registered p).

(** [Result]. *)
Definition Result (p : StreamPromise) : option T := resolved p.

(** The steps of any number of threads; [cancel] applies to a registered callback. *)
Inductive pstep : StreamPromise -> StreamPromise -> Prop :=
  | p_resolve v p : pstep p (Resolve v p).2
  | p_fire p p' : fire p = Some p' -> pstep p p'
  | p_register p : pstep p (OnResolve p)
  | p_cancel id p : id < registered p -> pstep p (cancel id p).

(** The loop of [Resolve], run to its end. *)
Fixpoint fire_all (n : nat) (p : StreamPromise) : StreamPromise :=
  match n with
  | O => p
  | S n => match fire p with Some p' => fire_all n p' | None => p end
  end.

(** ** Invariant *)

Record promise_ok (p : StreamPromise) : Prop := {
  (** every registration is waiting, taken, visited or fired, in one place only *)
  ok_nodup : NoDup (callbacks p ++ firing p ++ (fired p).*1);
  ok_cover : forall id, id < registered p ->
    id ∈ callbacks p \/ id ∈ firing p \/ id ∈ (fired p).*1 \/ id ∈ canceled p;
  ok_range : forall id, id ∈ callbacks p ++ firing p ++ (fired p).*1 -> id < registered p;
  ok_value : forall id v, (id, v) ∈ fired p -> resolved p = Some v;
  ok_taken : resolved p = None -> firing p = [] /\ fired p = [];
  ok_waiting : resolved p <> None -> callbacks p = [];
}.

Lemma promise_ok_init : promise_ok NewStreamPromise.
Proof. split; simpl; try (by constructor); try set_solver; try lia. Qed.

Lemma Resolve_ok v p : promise_ok p -> promise_ok (Resolve v p).2.
Proof.
  intros Hok. unfold Resolve. destruct (resolved p) eqn:Hr; [done|]. destruct Hok as [H1 H2 H3 H4 H5 H6].
  destruct (H5 Hr) as [Hf Hl]. rewrite Hf, Hl in *. simpl in *. rewrite app_nil_r in *.
  split; simpl; rewrite ?app_nil_r; try done.
  - intros id Hid. destruct (H2 id Hid) as [|[|[|]]]; auto.
  - intros id w Hin. by apply elem_of_nil in Hin.
Qed.

Lemma fire_ok p p' : fire p = Some p' -> promise_ok p -> promise_ok p'.
Proof.
  unfold fire. destruct (firing p) as [|id rest] eqn:Hf; [done|].
  destruct (resolved p) as [v|] eqn:Hr; [|done]. intros Hp [H1 H2 H3 H4 H5 H6].
  assert (callbacks p = []) as Hc by (apply H6; by rewrite Hr). rewrite Hc, Hf in *. simpl in *.
  apply NoDup_cons in H1 as [Hid H1]. case_decide as Hcan; injection Hp as <-; split; simpl;
    rewrite ?Hr, ?Hc; try done.
  - intros i Hi. destruct (H2 i Hi) as [?|[?|?]]; set_solver.
  - intros i Hi. apply H3. set_solver.
  - intros i w Hin. rewrite <-Hr. by eapply H4.
  - rewrite fmap_app. simpl. rewrite app_assoc. apply NoDup_app. split_and!; [done| |apply NoDup_singleton].
    intros x Hx Hx2%list_elem_of_singleton. by subst.
  - intros i Hi. rewrite fmap_app. destruct (H2 i Hi) as [?|[?|?]]; set_solver.
  - intros i. rewrite fmap_app. intros Hi. apply H3. set_solver.
  - intros i w. rewrite elem_of_app, list_elem_of_singleton. intros [Hin|[= -> ->]]; [|done].
    rewrite <-Hr. by eapply H4.
Qed.

Lemma OnResolve_ok p : promise_ok p -> promise_ok (OnResolve p).
Proof.
  intros [H1 H2 H3 H4 H5 H6]. unfold OnResolve.
  assert (registered p ∉ callbacks p ++ firing p ++ (fired p).*1) as Hfresh.
  { intros Hin%H3. lia. }
  destruct (resolved p) as [v|] eqn:Hr; split; simpl; rewrite ?Hr; try done.
  - rewrite fmap_app. simpl. rewrite !app_assoc, NoDup_app. split_and!; [by rewrite <-app_assoc| |apply NoDup_singleton].
    rewrite <-app_assoc. intros x Hx Hx2%list_elem_of_singleton. by subst.
  - intros i Hi. rewrite fmap_app. destruct (decide (i = registered p)) as [->|]; [set_solver|].
    destruct (H2 i ltac:(lia)) as [|[|[|]]]; set_solver.
  - intros i. rewrite fmap_app. simpl. intros Hi.
    destruct (decide (i = registered p)); [lia|]. assert (i < registered p) by (apply H3; set_solver). lia.
  - intros i w. rewrite elem_of_app, list_elem_of_singleton. intros [Hin|[= -> ->]]; [by eapply H4|done].
  - rewrite <-app_assoc. simpl. apply NoDup_app. apply NoDup_app in H1 as (Ha & Hb & Hc).
    split_and!; [done| |].
    + intros x Hx. rewrite elem_of_cons. intros [->|Hx2]; [set_solver|]. by apply (Hb x).
    + apply NoDup_cons. split; [set_solver|done].
  - intros i Hi. destruct (decide (i = registered p)) as [->|]; [set_solver|].
    destruct (H2 i ltac:(lia)) as [|[|[|]]]; set_solver.
  - intros i Hi. destruct (decide (i = registered p)); [lia|].
    assert (i < registered p) by (apply H3; set_solver). lia.
Qed.

Lemma pstep_ok p p' : pstep p p' -> promise_ok p -> promise_ok p'.
Proof.
  intros Hs Hok. destruct Hs; [by apply Resolve_ok|by eapply fire_ok|by apply OnResolve_ok|].
  destruct Hok as [H1 H2 H3 H4 H5 H6]. split; simpl; try done.
  intros i Hi. destruct (H2 i Hi) as [|[|[|]]]; set_solver.
Qed.

Lemma reachable_ok p : rtc pstep NewStreamPromise p -> promise_ok p.
Proof.
  intros Hr. pose proof promise_ok_init as Hi. revert Hi. induction Hr; eauto using pstep_ok.
Qed.

(** C19: a callback runs at most once, and always with the value of the [Resolve] that won,
    under every interleaving of [Resolve], [OnResolve] and cancellations. *)
Theorem promise_fires_at_most_once p :
  rtc pstep NewStreamPromise p ->
  NoDup (fired p).*1 /\ forall id v, (id, v) ∈ fired p -> Result p = Some v.
Proof.
  intros [H1 _ _ H4 _ _]%reachable_ok. split; [|done].
  rewrite app_assoc in H1. by apply NoDup_app in H1 as (_ & _ & ?).
Qed.

(** No wakeup is lost: once the promise is resolved and the [Resolve] that won has
    finished its loop, every registered callback has run or was cancelled, whether it was
    registered before, during or after the resolution. *)
Theorem promise_settles_everyone p :
  rtc pstep NewStreamPromise p -> Result p <> None -> firing p = [] ->
  forall id, id < registered p -> id ∈ (fired p).*1 \/ id ∈ canceled p.
Proof.
  intros [_ H2 _ _ _ H6]%reachable_ok Hr Hf id Hid.
  destruct (H2 id Hid) as [Hc|[Hc|[|]]]; [|rewrite Hf in Hc|by left|by right].
  - rewrite H6 in Hc by done. by apply elem_of_nil in Hc.
  - by apply elem_of_nil in Hc.
Qed.

Lemma canceled_grows p p' id : pstep p p' -> id ∈ canceled p -> id ∈ canceled p'.
Proof.
  intros Hs Hin. destruct Hs as [v p|p p' Hf|p|i p Hi]; simpl.
  - unfold Resolve. by destruct (resolved p).
  - unfold fire in Hf. destruct (firing p), (resolved p); try done. case_decide; injection Hf as <-; set_solver.
  - unfold OnResolve. by destruct (resolved p).
  - set_solver.
Qed.

(** A cancelled callback does not run: when a registered callback has not run yet,
    cancelling it keeps it from running for ever, even while [Resolve] is firing. *)
Theorem promise_cancel_prevents p p' id :
  rtc pstep NewStreamPromise p -> id < registered p -> id ∉ (fired p).*1 ->
  rtc pstep (cancel id p) p' -> id ∉ (fired p').*1.
Proof.
  intros _ Hid Hnf Hr.
  assert (id ∈ canceled (cancel id p)) as Hc by set_solver.
  assert (id < registered (cancel id p)) as Hlt by done.
  change (fired p) with (fired (cancel id p)) in Hnf.
  revert Hc Hlt Hnf. generalize (cancel id p) as q, Hr. clear p Hid Hr.
  intros q Hr. induction Hr as [|p1 p2 p3 Hs _ IH]; intros Hc Hlt Hnf; [done|].
  apply IH; [by eapply canceled_grows| |].
  - destruct Hs as [v p|p p' Hf|p|i p Hi]; simpl; try done.
    + unfold Resolve. by destruct (resolved p).
    + unfold fire in Hf. destruct (firing p), (resolved p); try done. case_decide; by injection Hf as <-.
    + unfold OnResolve. destruct (resolved p); simpl; lia.
  - destruct Hs as [v p|p p' Hf|p|i p Hi]; simpl; try done.
    + unfold Resolve. by destruct (resolved p).
    + unfold fire in Hf. destruct (firing p) as [|j r] eqn:Hfi, (resolved p); try done.
      case_decide; injection Hf as <-; simpl; [done|]. rewrite fmap_app. set_solver.
    + unfold OnResolve. destruct (resolved p); simpl; [|done]. rewrite fmap_app. simpl.
      rewrite elem_of_app, list_elem_of_singleton. intros [?|?]; [done|lia].
Qed.
End promise.
Arguments StreamPromise T : clear implicits.

(** ** Witnesses *)

(** Two callbacks, one of them cancelled between the resolution and its turn. *)
Definition demo_promise : StreamPromise nat :=
  let p := (Resolve 7 (OnResolve (OnResolve NewStreamPromise))).2 in
  fire_all 2 (cancel 1 p).

Lemma demo_reachable : rtc pstep NewStreamPromise demo_promise.
Proof.
  eapply rtc_l; [apply p_register|]. eapply rtc_l; [apply p_register|].
  eapply rtc_l; [apply (p_resolve 7)|]. eapply rtc_l; [apply (p_cancel 1); simpl; lia|].
  eapply rtc_l; [by apply p_fire|]. eapply rtc_l; [by apply p_fire|]. apply rtc_refl.
Qed.

Lemma promise_fires_at_most_once_witness :
  NoDup (fired demo_promise).*1 /\ fired demo_promise = [(0, 7)].
Proof. split; [apply (promise_fires_at_most_once demo_promise demo_reachable)|reflexivity]. Defined.

Lemma promise_settles_everyone_witness : 1 ∈ (fired demo_promise).*1 \/ 1 ∈ canceled demo_promise.
Proof.
  apply (promise_settles_everyone demo_promise demo_reachable); [done|reflexivity|].
  vm_compute. lia.
Defined.

Lemma promise_cancel_prevents_witness :
  let p := OnResolve (NewStreamPromise (T := nat)) in
  0 ∉ (fired (Resolve 7 (cancel 0 p)).2).*1.
Proof.
  intros p. apply (promise_cancel_prevents p (Resolve 7 (cancel 0 p)).2 0).
  - apply rtc_once, p_register.
  - simpl. lia.
  - simpl. apply not_elem_of_nil.
  - apply rtc_once, p_resolve.
Defined.
