(* ===== verification/Completion.v ===== *)
(** * down/cluster.go: [ClusterLBCompletion]; down/abi_impl/internal.go: [manager]

    The handle of an asynchronous host selection: the first of [Complete] and [Cancel]
    wins, and the cleanup injected by [SetFinishFn] runs once, whichever comes first.  Each
    method has one critical section, so a sequence of methods is an interleaving of threads.
    And the table that keeps Go objects reachable while C holds a token for them. *)
From stdpp Require Import base list gmap strings.
From Stdlib Require Import ZArith Lia.
From S2P Require Import Prelude HostSet.

(** ** Completions *)

(** The fields; a function field is the fact that it is set. *)
Record ClusterLBCompletion := mkCompletion {
  done_ : bool;
  completeFn : bool;
  cancelFn : bool;
  finishFn : bool;
}.

(** The injected functions that ran. *)
Inductive completion_event :=
  | EvComplete (host : HostPtr) (errDetail : string)
  | EvCancel
  | EvFinish.

(** [finish] and [cancel]: claim the terminal action. *)
Definition claim (c : ClusterLBCompletion) : bool * ClusterLBCompletion :=
  if done_ c then (false, c) else (true, mkCompletion true (completeFn c) (cancelFn c) (finishFn c)).

Definition Complete (host : HostPtr) (errDetail : string) (c : ClusterLBCompletion) :
    bool * ClusterLBCompletion * list completion_event :=
  let '(ok, c) := claim c in
  (ok, c, if ok then (if completeFn c then [EvComplete host errDetail] else []) ++
                     (if finishFn c then [EvFinish] else []) else []).

Definition Cancel (c : ClusterLBCompletion) : bool * ClusterLBCompletion * list completion_event :=
  let '(ok, c) := claim c in
  (ok, c, if ok then (if cancelFn c then [EvCancel] else []) ++
                     (if finishFn c then [EvFinish] else []) else []).

Definition SetCompleteFn (c : ClusterLBCompletion) : ClusterLBCompletion :=
  mkCompletion (done_ c) true (cancelFn c) (finishFn c).
Definition SetCancelFn (c : ClusterLBCompletion) : ClusterLBCompletion :=
  mkCompletion (done_ c) (completeFn c) true (finishFn c).

(** [SetFinishFn]: runs the cleanup at once when the selection is already over. *)
Definition SetFinishFn (c : ClusterLBCompletion) : ClusterLBCompletion * list completion_event :=
  if done_ c then (c, [EvFinish]) else (mkCompletion (done_ c) (completeFn c) (cancelFn c) true, []).

(** [dymClusterLBContext.NewCompletion]. *)
Definition NewCompletion : ClusterLBCompletion := SetCompleteFn (mkCompletion false false false false).

(** ** Sequences of operations *)

Inductive completion_op :=
  | OComplete (host : HostPtr) (errDetail : string)
  | OCancel
  | OSetFinish.

Definition terminal (o : completion_op) : bool := match o with OSetFinish => false | _ => true end.

(** How many calls returned true, and the functions that ran. *)
Fixpoint run_ops (ops : list completion_op) (c : ClusterLBCompletion) : nat * list completion_event :=
  match ops with
  | [] => (0, [])
  | o :: ops =>
      let '(won, c, evs) :=
        match o with
        | OComplete h e => Complete h e c
        | OCancel => Cancel c
        | OSetFinish => let '(c, evs) := SetFinishFn c in (false, c, evs)
        end in
      let '(n, evs') := run_ops ops c in
      ((if won then 1 else 0) + n, evs ++ evs')
  end.

Definition is_finish (e : completion_event) : bool := match e with EvFinish => true | _ => false end.
Definition is_complete (e : completion_event) : bool := match e with EvComplete _ _ => true | _ => false end.
Fixpoint count {A} (f : A -> bool) (l : list A) : nat :=
  match l with [] => 0 | x :: l => (if f x then 1 else 0) + count f l end.

(** ** [manager]: tokens held by C *)

Definition numManagerShards : Z := 32.

(** The shards, one map each. *)
Record manager (T : Type) := mkManager { data : list (gmap Z T) }.
Arguments mkManager {T} data.
Arguments data {T} m.

Definition newManager {T} : manager T := mkManager (replicate 32 ∅).

Definition shard (ptr : Z) : nat := Z.to_nat (ptr mod numManagerShards).

(** [record(item)], where [C.malloc] returned [ptr]. *)
Definition record {T} (ptr : Z) (item : T) (m : manager T) : manager T :=
  mkManager (alter (fun d => <[ptr := item]> d) (shard ptr) (data m)).

Definition unwrap {T} (ptr : Z) (m : manager T) : option T :=
  if decide (ptr = 0%Z) then None else data m !! shard ptr ≫= fun d => d !! ptr.

Definition remove {T} (ptr : Z) (m : manager T) : manager T :=
  if decide (ptr = 0%Z) then m else mkManager (alter (fun d => delete ptr d) (shard ptr) (data m)).

(** The table the shards implement. *)
Definition represents {T} (m : manager T) (t : gmap Z T) : Prop :=
  length (data m) = 32 /\ forall ptr, ptr <> 0%Z -> unwrap ptr m = t !! ptr.

(** ** Theorems *)

Lemma count_app {A} (f : A -> bool) l k : count f (l ++ k) = count f l + count f k.
Proof. induction l as [|x l IH]; simpl; [done|]. rewrite IH. lia. Qed.

Lemma run_ops_done ops c :
  done_ c = true ->
  (run_ops ops c).1 = 0 /\ count is_complete (run_ops ops c).2 = 0 /\
  count is_finish (run_ops ops c).2 = count (fun o => negb (terminal o)) ops.
Proof.
  revert c. induction ops as [|o ops IH]; intros c Hd; [done|].
  destruct (IH c Hd) as (H1 & H2 & H3). cbn [run_ops].
  assert (claim c = (false, c)) as Hc by (unfold claim; by rewrite Hd).
  destruct o; cbn; unfold Complete, Cancel, SetFinishFn; rewrite ?Hc, ?Hd;
    destruct (run_ops ops c) as [n evs]; simpl in *; auto.
Qed.

(** C17: an asynchronous host selection ends once.  For a completion as the ABI layer makes it
    and any interleaving of calls that includes its one [SetFinishFn] and at least one
    [Complete] or [Cancel]: exactly one of these returns true, Envoy is told at most once,
    and the cleanup that frees the handle runs exactly once. *)
Theorem completion_ends_once ops :
  count (fun o => negb (terminal o)) ops = 1 -> existsb terminal ops = true ->
  (run_ops ops NewCompletion).1 = 1 /\
  count is_complete (run_ops ops NewCompletion).2 <= 1 /\
  count is_finish (run_ops ops NewCompletion).2 = 1.
Proof.
  intros Hn Ht.
  assert (forall ops c, done_ c = false -> existsb terminal ops = true ->
    (run_ops ops c).1 = 1 /\ count is_complete (run_ops ops c).2 <= 1 /\
    (count (fun o => negb (terminal o)) ops + (if finishFn c then 1 else 0) = 1 ->
     count is_finish (run_ops ops c).2 = 1)) as Hgen.
  { clear ops Hn Ht. induction ops as [|o ops IH]; intros c Hd Ht; [done|]. cbn [run_ops].
    assert (claim c = (true, mkCompletion true (completeFn c) (cancelFn c) (finishFn c))) as Hc
      by (unfold claim; by rewrite Hd).
    destruct o as [h e| |]; cbn; unfold Complete, Cancel, SetFinishFn; rewrite ?Hc, ?Hd; cbn.
    - destruct (run_ops_done ops (mkCompletion true (completeFn c) (cancelFn c) (finishFn c)) eq_refl) as (H1 & H2 & H3).
      destruct (run_ops ops _) as [n evs]; simpl in *. rewrite !count_app, H2, H3, H1.
      destruct (completeFn c), (finishFn c); simpl; split_and!; lia.
    - destruct (run_ops_done ops (mkCompletion true (completeFn c) (cancelFn c) (finishFn c)) eq_refl) as (H1 & H2 & H3).
      destruct (run_ops ops _) as [n evs]; simpl in *. rewrite !count_app, H2, H3, H1.
      destruct (cancelFn c), (finishFn c); simpl; split_and!; lia.
    - destruct (IH (mkCompletion false (completeFn c) (cancelFn c) true) eq_refl Ht) as (H1 & H2 & H3).
      destruct (run_ops ops _) as [n evs]; simpl in *. split_and!; [done..|].
      intros Hcnt. apply H3. lia. }
  destruct (Hgen ops NewCompletion eq_refl Ht) as (H1 & H2 & H3). split_and!; [done..|].
  apply H3. simpl. lia.
Qed.

Lemma shard_lt ptr : shard ptr < 32.
Proof. unfold shard, numManagerShards. pose proof (Z.mod_pos_bound ptr 32 ltac:(lia)). lia. Qed.

(** C18: the sharded table is a table: creating, recording, looking up and removing tokens in
    the shards refines the corresponding operations of one map, so an object is found
    under its token exactly until the token is removed. *)
Theorem manager_refines_table {T} (m : manager T) t ptr (item : T) :
  represents (newManager (T := T)) ∅ /\
  (represents m t -> ptr <> 0%Z ->
   represents (record ptr item m) (<[ptr := item]> t) /\
   represents (remove ptr m) (delete ptr t) /\ unwrap ptr m = t !! ptr).
Proof.
  split.
  - split; [done|]. intros p Hp. unfold unwrap. rewrite decide_False by done.
    unfold newManager. cbn [data]. rewrite lookup_replicate_2 by apply shard_lt. simpl.
    by rewrite !lookup_empty.
  - intros [Hl Hr] Hp.
    assert (forall p, is_Some (data m !! shard p)) as Hs.
    { intros p. apply lookup_lt_is_Some_2. rewrite Hl. apply shard_lt. }
    split_and!; [| |by apply Hr].
    + split; [simpl; by rewrite length_alter|]. intros p Hp0. unfold unwrap. rewrite decide_False by done.
      simpl. pose proof (Hr p Hp0) as Hrp. unfold unwrap in Hrp. rewrite decide_False in Hrp by done.
      destruct (decide (shard ptr = shard p)) as [Heq|Hne].
      * rewrite Heq, list_lookup_alter_eq. destruct (Hs p) as [d Hd]. rewrite Hd in *. simpl in *.
        destruct (decide (ptr = p)) as [->|]; [by rewrite !lookup_insert_eq|].
        by rewrite !lookup_insert_ne.
      * rewrite list_lookup_alter_ne by done. rewrite lookup_insert_ne by congruence. done.
    + unfold remove. rewrite decide_False by done.
      split; [simpl; by rewrite length_alter|]. intros p Hp0. unfold unwrap. rewrite decide_False by done.
      simpl. pose proof (Hr p Hp0) as Hrp. unfold unwrap in Hrp. rewrite decide_False in Hrp by done.
      destruct (decide (shard ptr = shard p)) as [Heq|Hne].
      * rewrite Heq, list_lookup_alter_eq. destruct (Hs p) as [d Hd]. rewrite Hd in *. simpl in *.
        destruct (decide (ptr = p)) as [->|]; [by rewrite !lookup_delete_eq|].
        by rewrite !lookup_delete_ne.
      * rewrite list_lookup_alter_ne by done. rewrite lookup_delete_ne by congruence. done.
Qed.

(** ** Witnesses *)

Lemma completion_ends_once_witness :
  (run_ops [OCancel; OComplete 5 ""; OSetFinish; OCancel] NewCompletion).1 = 1 /\
  count is_finish (run_ops [OCancel; OComplete 5 ""; OSetFinish; OCancel] NewCompletion).2 = 1.
Proof.
  destruct (completion_ends_once [OCancel; OComplete 5 ""; OSetFinish; OCancel] eq_refl eq_refl)
    as (H1 & _ & H3). split; [exact H1|exact H3].
Defined.

Lemma manager_refines_table_witness :
  unwrap 4096 (record 4096 "object" newManager) = Some "object".
Proof.
  destruct (manager_refines_table (newManager (T := string)) ∅ 4096 "object") as [H0 H].
  destruct (H H0 ltac:(done)) as ((_ & Hr) & _ & _). rewrite Hr by done. apply lookup_insert_eq.
Defined.
