(* ===== verification/Selector.v ===== *)
(** * up/async_host_selector.go with the ABI layer: asynchronous host selection

    [ChooseHost] hands Envoy a completion and registers with the stream's promise; the
    promise's callback schedules [complete] on the cluster's main thread; Envoy may cancel
    through the token it was given (down/abi_impl/cluster.go, [choose_host] and
    [cancel_host_selection]).  Worker threads, the threads that resolve promises and the main
    thread interleave between any two critical sections: [choose_host] is three steps
    (the selector's [ChooseHost], the token recorded, [SetFinishFn]), [cancel_host_selection]
    three (the token looked up, [completion.Cancel], [lb.CancelHostSelection]) and [complete]
    two (the cancellation record consulted under the lock; the rest).  The promise of a
    selection resolves at most once (Promise.v), so its resolution is one step here; the token
    table is the map that the sharded [manager] implements (Completion.v). *)
From stdpp Require Import base list gmap strings sets relations.
From Stdlib Require Import ZArith Lia.
From S2P Require Import Prelude HostSet Completion.

(** [HostResult]. *)
Record HostResult := mkHostResult {
  hr_Host : HostPtr;
  ErrDetail : string;
}.

(** What Envoy and the observer are told, by [complete], [Cancel] and [ChooseHost]; and the
    cancellations Envoy asked for that [completion.Cancel] accepted. *)
Inductive sel_event :=
  | SComplete (c : nat) (host : HostPtr) (errDetail : string)
  | SSelected (host : HostPtr)
  | SFailed (errDetail : string)
  | SAccepted (c : nat)
  | SCancelled (c : nat)
  | SMissingPromise.

Section selector.
Context {T : Type} (lookup_ : T -> HostResult).

(** The selector's cancellation records; the completions it handed out; the token table; the
    selections whose promise is pending and the completes scheduled on the main thread; the
    calls of [choose_host] under way (before and after the token is recorded), the tokens
    looked up and the cancellations accepted by calls of [cancel_host_selection] under way;
    the completion the main thread found not cancelled; and the events. *)
Record AsyncHostSelector := mkSelector {
  cancelled : gset nat;
  completions : gmap nat ClusterLBCompletion;
  tokens : gmap Z nat;
  waiting_on : list nat;
  scheduled : list (nat * T);
  choosing : gmap nat (option Z);
  unwrapped : list nat;
  cancelling : list nat;
  checked : option (nat * T);
  events : list sel_event;
}.

Definition NewAsyncHostSelector : AsyncHostSelector := mkSelector ∅ ∅ ∅ [] [] ∅ [] [] None [].

(** The cleanup [choose_host] injects: drop the token of completion [c], which has one. *)
Definition finish_token (c : nat) (toks : gmap Z nat) : gmap Z nat :=
  base.filter (fun x => x.2 <> c) toks.

Definition set_tokens (toks : gmap Z nat) (s : AsyncHostSelector) : AsyncHostSelector :=
  mkSelector (cancelled s) (completions s) toks (waiting_on s) (scheduled s) (choosing s)
    (unwrapped s) (cancelling s) (checked s) (events s).

Definition log (e : sel_event) (s : AsyncHostSelector) : AsyncHostSelector :=
  mkSelector (cancelled s) (completions s) (tokens s) (waiting_on s) (scheduled s) (choosing s)
    (unwrapped s) (cancelling s) (checked s) (events s ++ [e]).

Definition put (c : nat) (x : ClusterLBCompletion) (s : AsyncHostSelector) : AsyncHostSelector :=
  mkSelector (cancelled s) (<[c := x]> (completions s)) (tokens s) (waiting_on s) (scheduled s)
    (choosing s) (unwrapped s) (cancelling s) (checked s) (events s).

Definition set_choosing (m : gmap nat (option Z)) (s : AsyncHostSelector) : AsyncHostSelector :=
  mkSelector (cancelled s) (completions s) (tokens s) (waiting_on s) (scheduled s) m
    (unwrapped s) (cancelling s) (checked s) (events s).

(** Apply the functions a completion ran: tell Envoy, drop the token. *)
Definition apply_events (c : nat) (evs : list completion_event) (s : AsyncHostSelector) : AsyncHostSelector :=
  foldl (fun s e =>
    match e with
    | EvComplete host err => log (SComplete c host err) s
    | EvCancel => s
    | EvFinish => set_tokens (finish_token c (tokens s)) s
    end) s evs.

(** [ChooseHost(_, ctx)]: [promise] is the stream's promise, resolved or not, [None] when
    there is none; a completion, numbered [c], is made and returned otherwise. *)
Definition ChooseHost (promise : option (option T)) (c : nat) (s : AsyncHostSelector) : AsyncHostSelector :=
  match promise with
  | None => log SMissingPromise s
  | Some resolved =>
      let '(w, q) := match resolved with
                     | Some v => (waiting_on s, scheduled s ++ [(c, v)])
                     | None => (waiting_on s ++ [c], scheduled s)
                     end in
      mkSelector (cancelled s) (<[c := NewCompletion]> (completions s)) (tokens s) w q
        (<[c := None]> (choosing s)) (unwrapped s) (cancelling s) (checked s) (events s)
  end.

(** The rest of the exported [choose_host] for the completion [c]: record a token ([ptr] is
    the address allocated), then inject its removal. *)
Definition choose_host_record (c : nat) (ptr : Z) (s : AsyncHostSelector) : AsyncHostSelector :=
  set_choosing (<[c := Some ptr]> (choosing s)) (set_tokens (<[ptr := c]> (tokens s)) s).

Definition choose_host_finish (c : nat) (s : AsyncHostSelector) : AsyncHostSelector :=
  match completions s !! c with
  | None => s
  | Some x => let '(x, evs) := SetFinishFn x in
              apply_events c evs (set_choosing (delete c (choosing s)) (put c x s))
  end.

(** The promise of selection [c] resolves: its callback schedules [complete]. *)
Definition resolve (c : nat) (v : T) (s : AsyncHostSelector) : AsyncHostSelector :=
  mkSelector (cancelled s) (completions s) (tokens s) (base.filter (fun x => x <> c) (waiting_on s))
    (scheduled s ++ [(c, v)]) (choosing s) (unwrapped s) (cancelling s) (checked s) (events s).

(** [cancel_host_selection] for token [ptr]: the lookup, *)
Definition cancel_host_selection (ptr : Z) (s : AsyncHostSelector) : AsyncHostSelector :=
  match tokens s !! ptr with
  | None => s
  | Some c => mkSelector (cancelled s) (completions s) (tokens s) (waiting_on s) (scheduled s)
                (choosing s) (c :: unwrapped s) (cancelling s) (checked s) (events s)
  end.

(** [completion.Cancel] on the completion found, [rest] being the other lookups under way, *)
Definition cancel_completion (c : nat) (rest : list nat) (s : AsyncHostSelector) : AsyncHostSelector :=
  match completions s !! c with
  | None => s
  | Some x =>
      let '(won, x, evs) := Cancel x in
      let s := apply_events c evs (put c x s) in
      mkSelector (cancelled s) (completions s) (tokens s) (waiting_on s) (scheduled s) (choosing s)
        rest (if won then c :: cancelling s else cancelling s) (checked s)
        (if won then events s ++ [SAccepted c] else events s)
  end.

(** and [lb.CancelHostSelection], which is the selector's [Cancel(completion)]. *)
Definition CancelSelection (c : nat) (rest : list nat) (s : AsyncHostSelector) : AsyncHostSelector :=
  mkSelector ({[c]} ∪ cancelled s) (completions s) (tokens s) (waiting_on s) (scheduled s)
    (choosing s) (unwrapped s) rest (checked s) (events s ++ [SCancelled c]).

(** [complete(completion, v)], the critical section: a cancellation record is consumed. *)
Definition complete_check (c : nat) (v : T) (q : list (nat * T)) (s : AsyncHostSelector) : AsyncHostSelector :=
  if decide (c ∈ cancelled s) then
    mkSelector (cancelled s ∖ {[c]}) (completions s) (tokens s) (waiting_on s) q (choosing s)
      (unwrapped s) (cancelling s) (checked s) (events s)
  else
    mkSelector (cancelled s) (completions s) (tokens s) (waiting_on s) q (choosing s)
      (unwrapped s) (cancelling s) (Some (c, v)) (events s).

(** The outcome [complete] reports for a value, and the observer's event. *)
Definition outcome (v : T) : HostPtr * string :=
  if decide (ErrDetail (lookup_ v) = "") then (hr_Host (lookup_ v), "") else (0%Z, ErrDetail (lookup_ v)).
Definition observed (v : T) : sel_event :=
  if decide (ErrDetail (lookup_ v) = "") then SSelected (hr_Host (lookup_ v)) else SFailed (ErrDetail (lookup_ v)).

(** The rest of it: the lookup, the observer, [completion.Complete]. *)
Definition complete (c : nat) (v : T) (s : AsyncHostSelector) : AsyncHostSelector :=
  let s := log (observed v)
             (mkSelector (cancelled s) (completions s) (tokens s) (waiting_on s) (scheduled s)
                (choosing s) (unwrapped s) (cancelling s) None (events s)) in
  match completions s !! c with
  | None => s
  | Some x => let '(_, x, evs) := Complete (outcome v).1 (outcome v).2 x in apply_events c evs (put c x s)
  end.

(** ** Steps *)

(** Any thread; the main thread runs one scheduled function at a time. *)
Inductive sstep : AsyncHostSelector -> AsyncHostSelector -> Prop :=
  | s_choose promise c s : completions s !! c = None -> sstep s (ChooseHost promise c s)
  | s_record c ptr s : choosing s !! c = Some None -> tokens s !! ptr = None ->
      sstep s (choose_host_record c ptr s)
  | s_finish c ptr s : choosing s !! c = Some (Some ptr) -> sstep s (choose_host_finish c s)
  | s_resolve c v s : c ∈ waiting_on s -> sstep s (resolve c v s)
  | s_unwrap ptr s : sstep s (cancel_host_selection ptr s)
  | s_cancel c l1 l2 s : unwrapped s = l1 ++ c :: l2 -> sstep s (cancel_completion c (l1 ++ l2) s)
  | s_cancel_lb c l1 l2 s : cancelling s = l1 ++ c :: l2 -> sstep s (CancelSelection c (l1 ++ l2) s)
  | s_check c v q s : checked s = None -> scheduled s = (c, v) :: q -> sstep s (complete_check c v q s)
  | s_complete c v s : checked s = Some (c, v) -> sstep s (complete c v s).

(** Envoy was told the outcome of [c]; a cancellation of [c] was accepted; the observer was
    told of it. *)
Definition told (c : nat) (e : sel_event) : bool :=
  match e with SComplete c' _ _ => bool_decide (c = c') | _ => false end.
Definition accepted (c : nat) (e : sel_event) : bool :=
  match e with SAccepted c' => bool_decide (c = c') | _ => false end.
Definition was_cancelled (c : nat) (e : sel_event) : bool :=
  match e with SCancelled c' => bool_decide (c = c') | _ => false end.

(** Nothing is pending, scheduled or under way. *)
Definition quiescent (s : AsyncHostSelector) : Prop :=
  waiting_on s = [] /\ scheduled s = [] /\ choosing s = ∅ /\ cancelling s = [] /\ checked s = None.

(** ** Invariant *)

(** The selections still to be completed by the main thread. *)
Definition pending_ids (s : AsyncHostSelector) : list nat :=
  waiting_on s ++ (scheduled s).*1 ++ match checked s with Some (c, _) => [c] | None => [] end.

(** A completion over or not, its cleanup injected or not. *)
Definition comp_state (d f : bool) : ClusterLBCompletion := mkCompletion d true false f.

Definition eqb_id (c c' : nat) : bool := bool_decide (c = c').

Definition silent (s : AsyncHostSelector) (c : nat) : Prop :=
  count (told c) (events s) = 0 /\ count (accepted c) (events s) = 0.

(** What holds of selection [c]. *)
Definition sel_ok (s : AsyncHostSelector) (c : nat) : Prop :=
  count (eqb_id c) (cancelling s) + count (was_cancelled c) (events s) = count (accepted c) (events s) /\
  (c ∈ cancelled s -> count (accepted c) (events s) = 1) /\
  match completions s !! c with
  | None => (c ∉ pending_ids s) /\ silent s c /\ choosing s !! c = None /\ forall ptr, tokens s !! ptr <> Some c
  | Some x => exists d f, x = comp_state d f /\
      (d = false -> c ∈ pending_ids s /\ silent s c /\ (f = true <-> choosing s !! c = None)) /\
      (d = true -> count (told c) (events s) + count (accepted c) (events s) = 1 /\
                   (c ∈ pending_ids s -> count (accepted c) (events s) = 1)) /\
      (forall ptr, tokens s !! ptr = Some c ->
         match choosing s !! c with Some y => y = Some ptr | None => d = false end)
  end.

Definition selector_ok (s : AsyncHostSelector) : Prop :=
  NoDup (pending_ids s) /\ forall c, sel_ok s c.

(** Two states that agree on what concerns [c]. *)
Definition same_for (c : nat) (s s' : AsyncHostSelector) : Prop :=
  completions s' !! c = completions s !! c /\ choosing s' !! c = choosing s !! c /\
  (forall ptr, tokens s' !! ptr = Some c -> tokens s !! ptr = Some c) /\
  (c ∈ pending_ids s' <-> c ∈ pending_ids s) /\ (c ∈ cancelled s' -> c ∈ cancelled s) /\
  count (eqb_id c) (cancelling s') = count (eqb_id c) (cancelling s) /\
  count (told c) (events s') = count (told c) (events s) /\
  count (accepted c) (events s') = count (accepted c) (events s) /\
  count (was_cancelled c) (events s') = count (was_cancelled c) (events s).

Lemma same_ok c s s' : same_for c s s' -> sel_ok s c -> sel_ok s' c.
Proof.
  intros (E1 & E2 & E3 & E4 & E5 & E6 & E7 & E8 & E9). unfold sel_ok, silent.
  rewrite E1, E2, E6, E7, E8, E9. intros (H1 & H2 & H3). split; [done|]. split; [auto|].
  destruct (completions s !! c) as [x|]; [destruct H3 as (d & f & -> & A & B & D); exists d, f|];
    rewrite E4; naive_solver.
Qed.

Lemma finish_token_lookup c toks ptr c' :
  finish_token c toks !! ptr = Some c' <-> toks !! ptr = Some c' /\ c' <> c.
Proof. unfold finish_token. rewrite map_lookup_filter_Some. done. Qed.

Lemma eqb_id_refl c : eqb_id c c = true.
Proof. by apply bool_decide_eq_true. Qed.

Lemma eqb_id_ne c c' : c <> c' -> eqb_id c c' = false.
Proof. intros ?. by apply bool_decide_eq_false. Qed.

Lemma count_cons {A} (f : A -> bool) x l : count f (x :: l) = (if f x then 1 else 0) + count f l.
Proof. done. Qed.

Lemma selector_ok_init : selector_ok NewAsyncHostSelector.
Proof.
  split; [constructor|]. intros c. unfold sel_ok, silent. cbn. rewrite !lookup_empty.
  split_and!; [done|set_solver|set_solver|done..|]. intros ptr. by rewrite lookup_empty.
Qed.

(** Solve what is left of [same_for] for a selection other than the one a step is about. *)
Ltac other := unfold same_for, pending_ids, choose_host_record, CancelSelection; cbn [cancelled completions tokens waiting_on scheduled choosing
    unwrapped cancelling checked events set_tokens set_choosing put log];
  rewrite ?count_app, ?count_cons; cbn [count told accepted was_cancelled];
  rewrite ?lookup_insert_ne, ?lookup_delete_ne by done; rewrite ?bool_decide_false by done;
  split_and!; try done; try lia.

Lemma choosing_ok promise c s :
  completions s !! c = None -> selector_ok s -> selector_ok (ChooseHost promise c s).
Proof.
  intros Hc [Hnd Hok]. destruct promise as [resolved|].
  2: { change (ChooseHost None c s) with (log SMissingPromise s). split; [done|]. intros c'.
       apply (same_ok c' s); [|apply Hok]. other. }
  set (s' := ChooseHost (Some resolved) c s).
  assert (pending_ids s' ≡ₚ c :: pending_ids s) as E5.
  { unfold s', pending_ids, ChooseHost. destruct resolved; cbn.
    - rewrite fmap_app. cbn. rewrite <-!app_assoc. cbn. rewrite !app_assoc. symmetry. apply Permutation_middle.
    - rewrite <-!app_assoc. cbn. symmetry. apply Permutation_middle. }
  assert (forall x, x ∈ pending_ids s' <-> x = c \/ x ∈ pending_ids s) as E6.
  { intros x. by rewrite E5, elem_of_cons. }
  pose proof (Hok c) as (O1 & O2 & O3). rewrite Hc in O3. destruct O3 as (Hp & [Ht Ha] & Hch & Htk).
  assert (completions s' = <[c := NewCompletion]> (completions s) /\ choosing s' = <[c := None]> (choosing s) /\
    tokens s' = tokens s /\ cancelled s' = cancelled s /\ cancelling s' = cancelling s /\ events s' = events s)
    as (F1 & F2 & F3 & F4 & F5 & F6) by (unfold s', ChooseHost; by destruct resolved).
  split; [rewrite E5; by apply NoDup_cons|]. intros c'. destruct (decide (c' = c)) as [->|Hne].
  - unfold sel_ok, silent. rewrite F1, F2, F3, F4, F5, F6, !lookup_insert_eq. split_and!; [done|done|].
    exists false, false. split_and!; [done| |done|].
    + intros _. split_and!; [apply E6; by left|done|done|by split].
    + intros ptr Hptr. by destruct (Htk ptr).
  - apply (same_ok c' s); [|apply Hok]. unfold same_for. rewrite F1, F2, F3, F4, F5, F6, !lookup_insert_ne, E6 by done.
    split_and!; try done. naive_solver.
Qed.

Lemma choose_record_ok c ptr s :
  choosing s !! c = Some None -> tokens s !! ptr = None -> selector_ok s ->
  selector_ok (choose_host_record c ptr s).
Proof.
  intros Hch Hp [Hnd Hok]. split; [done|]. intros c'. destruct (decide (c' = c)) as [->|Hne].
  - pose proof (Hok c) as (O1 & O2 & O3). unfold sel_ok, silent in *. cbn. split; [done|]. split; [done|].
    destruct (completions s !! c) as [x|] eqn:Hc; [|by destruct O3 as (_ & _ & ? & _); simplify_eq].
    destruct O3 as (d & f & -> & A & B & D). exists d, f. rewrite Hch in *. rewrite lookup_insert_eq.
    split_and!; [done|naive_solver|naive_solver|].
    intros p Hptr. apply lookup_insert_Some in Hptr as [[<- _]|[_ Hptr]]; [done|]. by apply D in Hptr.
  - apply (same_ok c' s); [|apply Hok]. other. intros p [[_ <-]|[_ ?]]%lookup_insert_Some; done.
Qed.

Lemma finish_ok c ptr s :
  choosing s !! c = Some (Some ptr) -> selector_ok s -> selector_ok (choose_host_finish c s).
Proof.
  intros Hch [Hnd Hok]. pose proof (Hok c) as (O1 & O2 & O3). unfold choose_host_finish.
  destruct (completions s !! c) as [x|] eqn:Hc; [|done]. destruct O3 as (d & f & -> & A & B & D).
  destruct d; cbn [SetFinishFn comp_state done_ apply_events foldl].
  - split; [done|]. intros c'. destruct (decide (c' = c)) as [->|Hne].
    + unfold sel_ok, silent in *. cbn. rewrite lookup_insert_eq, lookup_delete_eq. split_and!; [done|done|].
      exists true, f. split_and!; [done|done|by apply B|]. intros p Hp. by apply finish_token_lookup in Hp as [_ Hp].
    + apply (same_ok c' s); [|apply Hok]. other. intros p [Hp _]%finish_token_lookup. done.
  - split; [done|]. intros c'. destruct (decide (c' = c)) as [->|Hne].
    + unfold sel_ok, silent in *. cbn. rewrite lookup_insert_eq, lookup_delete_eq. split_and!; [done|done|].
      exists false, true. split_and!; [done| |done|done]. intros _. destruct A as (A1 & A2 & _); [done|]. done.
    + apply (same_ok c' s); [|apply Hok]. other.
Qed.

Lemma resolve_ok c v s : c ∈ waiting_on s -> selector_ok s -> selector_ok (resolve c v s).
Proof.
  intros Hin [Hnd Hok].
  assert (pending_ids (resolve c v s) ≡ₚ pending_ids s) as E5.
  { unfold pending_ids, resolve. cbn. rewrite fmap_app. cbn.
    assert (waiting_on s ≡ₚ c :: base.filter (fun x => x <> c) (waiting_on s)) as Hw.
    { unfold pending_ids in Hnd. apply NoDup_app in Hnd as (H1 & _ & _).
      clear -Hin H1. induction (waiting_on s) as [|x l IH]; [by apply elem_of_nil in Hin|].
      apply NoDup_cons in H1 as [Hx H1]. rewrite filter_cons. case_decide as Hxc.
      - apply elem_of_cons in Hin as [->|Hin]; [done|]. rewrite (IH Hin H1) at 1.
        apply Permutation_swap.
      - subst x. f_equiv. clear -Hx. induction l as [|y l IH]; [done|].
        rewrite filter_cons_True by set_solver. f_equiv. apply IH. set_solver. }
    rewrite Hw at 2. cbn. rewrite <-!app_assoc. cbn. rewrite !app_assoc. symmetry. apply Permutation_middle. }
  split; [by rewrite E5|]. intros c'. apply (same_ok c' s); [|apply Hok].
  unfold same_for. rewrite E5. by split_and!.
Qed.

Lemma cancel_completion_ok c l1 l2 s :
  unwrapped s = l1 ++ c :: l2 -> selector_ok s -> selector_ok (cancel_completion c (l1 ++ l2) s).
Proof.
  intros _ [Hnd Hok]. pose proof (Hok c) as (O1 & O2 & O3). unfold cancel_completion.
  destruct (completions s !! c) as [x|] eqn:Hc; [|done]. destruct O3 as (d & f & -> & A & B & D). destruct d.
  { cbn. split; [done|]. intros c'. apply (same_ok c' s); [|apply Hok]. other.
    destruct (decide (c' = c)) as [->|Hne]; [by rewrite lookup_insert_eq|by rewrite lookup_insert_ne]. }
  destruct A as (Hp & [Ht Ha] & Hf); [done|]. split; [by destruct f|]. intros c'. destruct (decide (c' = c)) as [->|Hne].
  - unfold sel_ok, silent. destruct f; cbn -[count]; rewrite lookup_insert_eq, !count_app, !count_cons;
      cbn [count told accepted was_cancelled]; rewrite eqb_id_refl, bool_decide_true by done;
      rewrite Ht, Ha; (split_and!; [lia|lia|]); eexists true, _; (split_and!; [done|done|lia|]); intros p Hp'.
    + by apply finish_token_lookup in Hp' as [_ Hp'].
    + apply D in Hp'. destruct (choosing s !! c) as [y|]; [done|]. exfalso. by apply Hf in Hp' || (destruct Hf as [_ Hf]; by specialize (Hf eq_refl)).
  - apply (same_ok c' s); [|apply Hok]. destruct f; cbn [Cancel claim comp_state done_ cancelFn finishFn app apply_events foldl];
      other; rewrite ?eqb_id_ne by done; try done.
    intros p [Hp' _]%finish_token_lookup. done.
Qed.

Lemma CancelSelection_ok c l1 l2 s :
  cancelling s = l1 ++ c :: l2 -> selector_ok s -> selector_ok (CancelSelection c (l1 ++ l2) s).
Proof.
  intros Hl [Hnd Hok]. split; [done|]. intros c'. pose proof (Hok c') as Hc'.
  assert (count (eqb_id c') (cancelling s) = count (eqb_id c') (l1 ++ l2) + (if eqb_id c' c then 1 else 0)) as Hcnt.
  { rewrite Hl, !count_app, count_cons. lia. }
  destruct (decide (c' = c)) as [->|Hne].
  - destruct Hc' as (O1 & O2 & O3). unfold sel_ok, silent in *. cbn -[count].
    rewrite eqb_id_refl, !count_app in Hcnt. rewrite !count_app. cbn [count told accepted was_cancelled].
    rewrite bool_decide_true by done. rewrite !Nat.add_0_r. split_and!; [lia| |exact O3].
    assert (count (accepted c) (events s) <= 1) as Hle.
    { destruct (completions s !! c) as [x|]; [|destruct O3 as (_ & [_ ->] & _); lia].
      destruct O3 as (d & f & _ & A & B & _). destruct d; [destruct B; [done|lia]|]. destruct A as (_ & [_ ->] & _); [done|lia]. }
    intros _. lia.
  - apply (same_ok c' s); [|done]. other; [set_solver|]. rewrite Hcnt, eqb_id_ne, count_app by done. lia.
Qed.

Lemma check_ok c v q s :
  checked s = None -> scheduled s = (c, v) :: q -> selector_ok s -> selector_ok (complete_check c v q s).
Proof.
  intros Hk Hs [Hnd Hok]. unfold complete_check.
  assert (pending_ids s = waiting_on s ++ c :: q.*1) as Hp by (unfold pending_ids; by rewrite Hk, Hs, app_nil_r).
  rewrite Hp in Hnd. case_decide as Hc.
  - split.
    + unfold pending_ids. cbn. rewrite Hk, app_nil_r. rewrite <-(Permutation_middle (waiting_on s)) in Hnd.
      by apply NoDup_cons in Hnd as [_ Hnd].
    + intros c'. destruct (decide (c' = c)) as [->|Hne].
      * pose proof (Hok c) as (O1 & O2 & O3). unfold sel_ok, silent in *. cbn. split; [done|]. split; [set_solver|].
        rewrite Hp in O3. specialize (O2 Hc). destruct (completions s !! c) as [x|]; [|set_solver].
        destruct O3 as (d & f & -> & A & B & D). destruct d; [|by destruct A as (_ & [_ A] & _); [done|lia]].
        exists true, f. split_and!; [done|done| |done]. intros _. destruct B as [B _]; [done|]. split; [done|]. intros _. exact O2.
      * apply (same_ok c' s); [|apply Hok]. other; [|set_solver]. rewrite Hk, Hs. cbn. clear -Hne. set_solver.
  - split.
    + unfold pending_ids. cbn. by rewrite <-(Permutation_cons_append q.*1).
    + intros c'. apply (same_ok c' s); [|apply Hok]. other. rewrite Hk, Hs. cbn. clear. set_solver.
Qed.

Lemma observed_counts (v : T) c :
  told c (observed v) = false /\ accepted c (observed v) = false /\ was_cancelled c (observed v) = false.
Proof. unfold observed. by case_decide. Qed.

Lemma complete_ok c v s : checked s = Some (c, v) -> selector_ok s -> selector_ok (complete c v s).
Proof.
  intros Hk [Hnd Hok]. unfold complete. cbn [completions log events].
  set (s0 := log (observed v) _).
  assert (pending_ids s = (waiting_on s ++ (scheduled s).*1) ++ [c]) as Hp
    by (unfold pending_ids; by rewrite Hk, app_assoc).
  assert (pending_ids s0 = waiting_on s ++ (scheduled s).*1) as Hp0 by (unfold pending_ids; cbn; by rewrite app_nil_r).
  rewrite Hp in Hnd. apply NoDup_app in Hnd as (Hnd & Hn & _).
  assert (c ∉ pending_ids s0) as Hnc by (rewrite Hp0; set_solver).
  assert (forall c', c' <> c -> (c' ∈ pending_ids s0 <-> c' ∈ pending_ids s)) as Hpo by (intros; rewrite Hp, Hp0; set_solver).
  assert (forall (c' : nat) (f : nat -> sel_event -> bool), count (f c') (events s0) = count (f c') (events s) + if f c' (observed v) then 1 else 0) as Hev.
  { intros c' f. unfold s0. cbn [log events]. rewrite count_app. cbn. lia. }
  assert (forall c', c' <> c -> same_for c' s s0) as Hsame.
  { intros c' Hne. destruct (observed_counts v c') as (V1 & V2 & V3). unfold same_for.
    rewrite !(Hev c'), V1, V2, V3, (Hpo c' Hne). cbn. split_and!; try done; lia. }
  pose proof (Hok c) as (O1 & O2 & O3). destruct (observed_counts v c) as (V1 & V2 & V3).
  destruct (completions s !! c) as [x|] eqn:Hc; [|rewrite Hp in O3; set_solver].
  destruct O3 as (d & f & -> & A & B & D). destruct d.
  - cbn [Complete claim comp_state done_ apply_events foldl]. split; [by rewrite <-Hp0 in Hnd|]. intros c'.
    destruct (decide (c' = c)) as [->|Hne].
    + unfold sel_ok, silent. cbn [put completions cancelled cancelling choosing tokens events pending_ids waiting_on scheduled checked].
      rewrite lookup_insert_eq, !Hev, V1, V2, V3, !Nat.add_0_r. split_and!; [done|done|]. exists true, f.
      split_and!; [done|done| |done]. intros _. destruct B as [B1 B2]; [done|]. split; [done|]. intros Hin. by destruct Hnc.
    + apply (same_ok c' s); [|apply Hok]. destruct (Hsame c' Hne) as (E1 & ?).
      split; [cbn; by rewrite lookup_insert_ne|done].
  - destruct A as (_ & [Ht Ha] & Hf); [done|].
    split; [destruct f; by rewrite <-Hp0 in Hnd|]. intros c'. destruct (decide (c' = c)) as [->|Hne].
    + unfold sel_ok, silent. destruct f; cbn [Complete claim comp_state done_ completeFn finishFn app apply_events foldl
        log put set_tokens completions cancelled cancelling choosing tokens events pending_ids waiting_on scheduled checked];
        rewrite lookup_insert_eq, !count_app, !Hev; cbn [count told accepted was_cancelled];
        rewrite bool_decide_true by done; rewrite V1, V2, V3, Ht, Ha; change (cancelling s0) with (cancelling s);
        change (cancelled s0) with (cancelled s); change (choosing s0) with (choosing s);
        (split_and!; [lia|by intros ?%O2; lia|]);
        eexists true, _; (split_and!; [done|done| |]).
      1,3: intros _; split; [lia|]; intros Hin; by destruct Hnc.
      * intros p Hp'. by apply finish_token_lookup in Hp' as [_ Hp'].
      * intros p Hp'. apply D in Hp'. destruct (choosing s !! c) as [y|]; [done|].
        destruct Hf as [_ Hf]. by specialize (Hf eq_refl).
    + apply (same_ok c' s); [|apply Hok]. destruct (Hsame c' Hne) as (E1 & E2 & E3 & E4 & E5 & E6 & E7 & E8 & E9).
      unfold same_for. destruct f; cbn [Complete claim comp_state done_ completeFn finishFn app apply_events foldl
        log put set_tokens completions cancelled cancelling choosing tokens events pending_ids waiting_on scheduled checked];
        rewrite lookup_insert_ne by done; rewrite !count_app; cbn [count told accepted was_cancelled];
        rewrite bool_decide_false by done; rewrite !Nat.add_0_r; split_and!; try done.
      intros p [Hp' _]%finish_token_lookup. done.
Qed.

Lemma selector_reachable s : rtc sstep NewAsyncHostSelector s -> selector_ok s.
Proof.
  intros Hr. pose proof selector_ok_init as Hi. revert Hi.
  induction Hr as [|s1 s2 s3 Hs _ IH]; intros Hok; [done|]. apply IH.
  destruct Hs; [by apply choosing_ok|by apply choose_record_ok|by eapply finish_ok|by apply resolve_ok| |
    by eapply cancel_completion_ok|by eapply CancelSelection_ok|by apply check_ok|by apply complete_ok].
  unfold cancel_host_selection. destruct (tokens s !! ptr); [|done]. exact Hok.
Qed.

(** C16: every asynchronous selection has one outcome.  Under every interleaving of the steps
    of [choose_host], promise resolutions, the steps of [cancel_host_selection] and the main
    thread: Envoy is told the outcome of a selection at most once, never once
    [completion.Cancel] has accepted its cancellation, and accepts no cancellation once told;
    the observer hears of a cancellation at most once and only of an accepted one; and a
    cancellation record is kept only for an accepted cancellation.  When no promise is
    pending, the main thread has nothing to do and no call is under way, every selection was
    told or cancelled, exactly once, and no token is left in the table. *)
Theorem selection_has_one_outcome s :
  rtc sstep NewAsyncHostSelector s ->
  (forall c, count (told c) (events s) + count (accepted c) (events s) <= 1 /\
     count (was_cancelled c) (events s) <= count (accepted c) (events s) /\
     (c ∈ cancelled s -> count (accepted c) (events s) = 1)) /\
  (quiescent s ->
     (forall c, is_Some (completions s !! c) ->
        count (told c) (events s) + count (accepted c) (events s) = 1 /\
        count (was_cancelled c) (events s) = count (accepted c) (events s)) /\
     tokens s = ∅).
Proof.
  intros [Hnd Hok]%selector_reachable. split.
  - intros c. destruct (Hok c) as (O1 & O2 & O3). split_and!; [|lia|done].
    destruct (completions s !! c) as [x|]; [|destruct O3 as (_ & [-> ->] & _); lia].
    destruct O3 as (d & f & _ & A & B & _). destruct d; [destruct B; [done|lia]|].
    destruct A as (_ & [-> ->] & _); [done|lia].
  - intros (Q1 & Q2 & Q3 & Q4 & Q5).
    assert (pending_ids s = []) as Hp by (unfold pending_ids; by rewrite Q1, Q2, Q5).
    split.
    + intros c [x Hx]. destruct (Hok c) as (O1 & O2 & O3). rewrite Hx in O3. rewrite Q4 in O1. cbn in O1.
      destruct O3 as (d & f & _ & A & B & _). split; [|done]. destruct d; [by destruct B|].
      destruct A as (A & _); [done|]. rewrite Hp in A. by apply not_elem_of_nil in A.
    + apply map_eq. intros ptr. rewrite lookup_empty. apply eq_None_not_Some. intros [c Hc].
      destruct (Hok c) as (_ & _ & O3). destruct (completions s !! c) as [x|]; [|by destruct O3 as (_ & _ & _ & O3); destruct (O3 ptr)].
      destruct O3 as (d & f & _ & A & _ & D). apply D in Hc. rewrite Q3, lookup_empty in Hc. subst d.
      destruct A as (A & _); [done|]. rewrite Hp in A. by apply not_elem_of_nil in A.
Qed.

(** The outcome is the host the decision maps to.  When the main thread runs the rest of a
    completion of a selection that is still open, Envoy is told the host [lookup] gives for
    the promise's value, or its error with a nil host. *)
Theorem selection_reports_lookup s c v f :
  checked s = Some (c, v) -> completions s !! c = Some (comp_state false f) ->
  events (complete c v s) =
    events s ++ [observed v; SComplete c (outcome v).1 (outcome v).2].
Proof.
  intros _ Hc. unfold complete. cbn [completions log]. rewrite Hc.
  destruct f; cbn; by rewrite <-app_assoc.
Qed.
End selector.
Arguments AsyncHostSelector T : clear implicits.

(** ** Witnesses *)

Definition demo_lookup (v : bool) : HostResult :=
  if v then mkHostResult 7 "" else mkHostResult 0 "no host".

(** Two selections, one resolved and completed, one cancelled while it waits. *)
Definition two_chosen : AsyncHostSelector bool :=
  choose_host_finish 1 (choose_host_record 1 200 (ChooseHost (Some None) 1
    (choose_host_finish 0 (choose_host_record 0 100 (ChooseHost (Some (Some true)) 0 NewAsyncHostSelector))))).
Definition one_cancelled : AsyncHostSelector bool :=
  CancelSelection 1 [] (cancel_completion 1 [] (cancel_host_selection 200 two_chosen)).
Definition all_over : AsyncHostSelector bool :=
  complete_check 1 false [] (resolve 1 false (complete demo_lookup 0 true (complete_check 0 true [] one_cancelled))).

Lemma one_cancelled_reachable : rtc (sstep demo_lookup) NewAsyncHostSelector one_cancelled.
Proof.
  eapply rtc_l; [by apply (s_choose demo_lookup (Some (Some true)) 0)|].
  eapply rtc_l; [by apply (s_record demo_lookup 0 100)|].
  eapply rtc_l; [by apply (s_finish demo_lookup 0 100)|].
  eapply rtc_l; [by apply (s_choose demo_lookup (Some None) 1)|].
  eapply rtc_l; [by apply (s_record demo_lookup 1 200)|].
  eapply rtc_l; [by apply (s_finish demo_lookup 1 200)|].
  eapply rtc_l; [apply (s_unwrap demo_lookup 200)|].
  eapply rtc_l; [by apply (s_cancel demo_lookup 1 [] [])|].
  apply rtc_once. by apply (s_cancel_lb demo_lookup 1 [] []).
Qed.

Lemma all_over_reachable : rtc (sstep demo_lookup) NewAsyncHostSelector all_over.
Proof.
  etrans; [apply one_cancelled_reachable|].
  eapply rtc_l; [by apply (s_check demo_lookup 0 true [])|].
  eapply rtc_l; [by apply (s_complete demo_lookup 0 true)|].
  eapply rtc_l; [apply (s_resolve demo_lookup 1 false); by left|].
  apply rtc_once. by apply (s_check demo_lookup 1 false []).
Qed.

Lemma selection_has_one_outcome_witness :
  tokens all_over = ∅ /\ cancelled all_over = ∅ /\
  count (told 1) (events all_over) + count (accepted 1) (events all_over) = 1.
Proof.
  destruct (selection_has_one_outcome demo_lookup all_over all_over_reachable) as [_ H].
  destruct H as [H1 H2]; [by repeat split; vm_compute|]. split; [exact H2|]. split; [by vm_compute|].
  apply H1. vm_compute. eexists. reflexivity.
Defined.

Lemma selection_reports_lookup_witness :
  events (complete demo_lookup 0 true (complete_check 0 true [] one_cancelled)) =
    [SAccepted 1; SCancelled 1; SSelected 7; SComplete 0 7 ""].
Proof.
  apply (selection_reports_lookup demo_lookup (complete_check 0 true [] one_cancelled) 0 true true);
    vm_compute; reflexivity.
Defined.

(** ** Departure *)

(** A cancellation record can stay for good.  Envoy's cancellation is accepted; the promise
    resolves and the main thread completes the selection (to no effect on Envoy, but the
    observer is told of a selected host) before [CancelHostSelection] runs; the record it then
    leaves is never consumed: nothing is pending or under way, and the selector still holds
    the completion. *)
Definition leaked : AsyncHostSelector bool :=
  CancelSelection 1 [] (complete demo_lookup 1 true (complete_check 1 true [] (resolve 1 true
    (complete demo_lookup 0 true (complete_check 0 true []
      (cancel_completion 1 [] (cancel_host_selection 200 two_chosen))))))).

Lemma cancellation_record_leaks :
  rtc (sstep demo_lookup) NewAsyncHostSelector leaked /\ quiescent leaked /\ cancelled leaked = {[1]} /\
  events leaked = [SAccepted 1; SSelected 7; SComplete 0 7 ""; SSelected 7; SCancelled 1].
Proof.
  split; [|by repeat split; vm_compute].
  eapply rtc_l; [by apply (s_choose demo_lookup (Some (Some true)) 0)|].
  eapply rtc_l; [by apply (s_record demo_lookup 0 100)|].
  eapply rtc_l; [by apply (s_finish demo_lookup 0 100)|].
  eapply rtc_l; [by apply (s_choose demo_lookup (Some None) 1)|].
  eapply rtc_l; [by apply (s_record demo_lookup 1 200)|].
  eapply rtc_l; [by apply (s_finish demo_lookup 1 200)|].
  eapply rtc_l; [apply (s_unwrap demo_lookup 200)|].
  eapply rtc_l; [by apply (s_cancel demo_lookup 1 [] [])|].
  eapply rtc_l; [by apply (s_check demo_lookup 0 true [])|].
  eapply rtc_l; [by apply (s_complete demo_lookup 0 true)|].
  eapply rtc_l; [apply (s_resolve demo_lookup 1 true); by left|].
  eapply rtc_l; [by apply (s_check demo_lookup 1 true [])|].
  eapply rtc_l; [by apply (s_complete demo_lookup 1 true)|].
  apply rtc_once. by apply (s_cancel_lb demo_lookup 1 [] []).
Qed.
