(* ===== verification/PipelineConfig.v ===== *)
(** * up/pipeline_config.go, up/pipeline_config_file.go, up/pipeline_config_poll.go

    A configuration value that is fetched, decoded and published.  The source is what each
    fetch returns; the decoder is the user's; SHA-256 is a parameter (only its length and the
    absence of a collision among the contents seen matter).  [fetchAndStore] is first a
    function, as the polling goroutine runs it, and then a sequence of atomic steps, as two
    goroutines may run it at once.  Durations are not modelled. *)
From stdpp Require Import base list gmap strings relations.
From Stdlib Require Import ZArith Lia.
From S2P Require Import Prelude Grpc.

(** [ConfigEvent] without its duration. *)
Record ConfigEvent := mkConfigEvent {
  Version : string;
  ce_Err : option string;
}.

(** [PollOptions], in nanoseconds, [Observe] being set or not. *)
Record PollOptions := mkPoll {
  po_Interval : Z;
  po_Timeout : Z;
  po_Jitter : Z;
  po_Observe : bool;
}.

Definition DefaultPollInterval : Z := 30000000000.
Definition DefaultPollTimeout : Z := 5000000000.

(** [hex.EncodeToString]. *)
Definition hexdigit (n : Z) : Ascii.ascii :=
  Ascii.ascii_of_N (Z.to_N (if (n <? 10)%Z then 48 + n else 87 + n))%Z.
Fixpoint hex (b : bytes) : string :=
  match b with
  | [] => ""
  | x :: b => String (hexdigit (Z_of_byte x / 16)) (String (hexdigit (Z_of_byte x mod 16)) (hex b))
  end.

(** ** The file source *)

(** The variables [cachedFileSource] captures; the zero time is [None]. *)
Record fileCache := mkCache {
  lastModTime : option Z;
  lastSize : Z;
  lastData : bytes;
}.

Definition emptyCache : fileCache := mkCache None 0 [].

(** One call of the source: [stat] and [read] are what [os.Stat] and [os.ReadFile] return. *)
Definition cachedFileSource (path : string) (stat : string + Z * Z) (read : string + bytes)
    (c : fileCache) : (string + bytes) * fileCache :=
  match stat with
  | inl err =>
      if decide (lastData c = []) then (inl ("orange/config: stat " +:+ path +:+ ": " +:+ err), c)
      else (inr (lastData c), c)
  | inr (modTime, size) =>
      if bool_decide (lastModTime c = Some modTime) && (size =? lastSize c)%Z &&
         negb (bool_decide (lastData c = []))
      then (inr (lastData c), c)
      else match read with
           | inl err => (inl ("orange/config: read " +:+ path +:+ ": " +:+ err), c)
           | inr data => (inr data, mkCache (Some modTime) size data)
           end
  end.

Section config.
Context {T : Type} (zero : T).
Context (Sum256 : bytes -> bytes) (decoder : bytes -> string + T).

(** [hex.EncodeToString(sum[:8])]. *)
Definition version (data : bytes) : string := hex (take 8 (Sum256 data)).

(** [PipelineConfig] with the events observed. *)
Record PipelineConfig := mkPipeline {
  current : option T;
  lastVersion : string;
  isStatic : bool;
  refreshNow : bool;
  opts : PollOptions;
  pc_events : list ConfigEvent;
}.

Definition NewStaticConfig (v : T) : PipelineConfig :=
  mkPipeline (Some v) "" true false (mkPoll 0 0 0 false) [].

Definition NewPollingConfig (o : PollOptions) : PipelineConfig :=
  mkPipeline None "" false false
    (mkPoll (if (po_Interval o =? 0)%Z then DefaultPollInterval else po_Interval o)
            (if (po_Timeout o =? 0)%Z then DefaultPollTimeout else po_Timeout o)
            (po_Jitter o) (po_Observe o)) [].

Definition Snapshot (p : PipelineConfig) : T := default zero (current p).

(** [SignalRefresh]: the channel has one slot. *)
Definition SignalRefresh (p : PipelineConfig) : PipelineConfig :=
  mkPipeline (current p) (lastVersion p) (isStatic p) true (opts p) (pc_events p).

(** Call the observer, if there is one. *)
Definition notify (e : ConfigEvent) (p : PipelineConfig) : PipelineConfig :=
  mkPipeline (current p) (lastVersion p) (isStatic p) (refreshNow p) (opts p)
    (if po_Observe (opts p) then pc_events p ++ [e] else pc_events p).

(** [fetchAndStore], [fetched] being what the source returned. *)
Definition fetchAndStore (fetched : string + bytes) (p : PipelineConfig) : option string * PipelineConfig :=
  match fetched with
  | inl err => (Some err, notify (mkConfigEvent "" (Some err)) p)
  | inr data =>
      if decide (lastVersion p = version data) then (None, notify (mkConfigEvent "" None) p)
      else match decoder data with
           | inl err => (Some err, notify (mkConfigEvent "" (Some err)) p)
           | inr v =>
               (None, notify (mkConfigEvent (version data) None)
                  (mkPipeline (Some v) (version data) (isStatic p) (refreshNow p) (opts p) (pc_events p)))
           end
  end.

(** [RefreshOnce]. *)
Definition RefreshOnce (fetched : string + bytes) (p : PipelineConfig) : option string * PipelineConfig :=
  fetchAndStore fetched p.

(** The polling goroutine: where it is, and one pass of its loop. *)
Inductive wake := WakeCancelled | WakeSignal | WakeTimer.

(** One iteration of the loop of [Start]: [None] when the goroutine returns, or when the
    wake-up cannot happen. *)
Definition poll_iteration (w : wake) (fetched : string + bytes) (p : PipelineConfig) : option PipelineConfig :=
  match w with
  | WakeCancelled => None
  | WakeSignal =>
      if refreshNow p then
        Some (fetchAndStore fetched
                (mkPipeline (current p) (lastVersion p) (isStatic p) false (opts p) (pc_events p))).2
      else None
  | WakeTimer => Some (fetchAndStore fetched p).2
  end.

(** [Start]: the first fetch, then the iterations; a static configuration is not polled. *)
Fixpoint poll_loop (ws : list (wake * (string + bytes))) (p : PipelineConfig) : PipelineConfig :=
  match ws with
  | [] => p
  | (w, fetched) :: ws =>
      match poll_iteration w fetched p with
      | Some p => poll_loop ws p
      | None => p
      end
  end.

Definition Start (first : string + bytes) (ws : list (wake * (string + bytes))) (p : PipelineConfig) :
    PipelineConfig :=
  if isStatic p then p else poll_loop ws (fetchAndStore first p).2.

(** A run of fetches, one after the other. *)
Definition fetches (rs : list (string + bytes)) (p : PipelineConfig) : PipelineConfig :=
  foldl (fun p r => (fetchAndStore r p).2) p rs.

(** The decoded value of the newest content that decodes. *)
Definition last_good (rs : list (string + bytes)) (init : option T) : option T :=
  foldl (fun best r =>
    match r with
    | inl _ => best
    | inr data => match decoder data with inr v => Some v | inl _ => best end
    end) init rs.

(** ** Two goroutines in [fetchAndStore] *)

(** Between the atomic operations: after the fetch, before [current.Store] and before
    [lastVersion.Store]. *)
Inductive pc_fetch :=
  | FetchedData (data : bytes)
  | Decoded (data : bytes) (v : T)
  | Stored (data : bytes)
  | FetchDone.

(** One atomic operation: the check of [lastVersion] (with the decoding), the store of the
    value, the store of the version. *)
Definition fetch_step (pc : pc_fetch) (p : PipelineConfig) : pc_fetch * PipelineConfig :=
  match pc with
  | FetchedData data =>
      if decide (lastVersion p = version data) then (FetchDone, notify (mkConfigEvent "" None) p)
      else match decoder data with
           | inl err => (FetchDone, notify (mkConfigEvent "" (Some err)) p)
           | inr v => (Decoded data v, p)
           end
  | Decoded data v =>
      (Stored data, mkPipeline (Some v) (lastVersion p) (isStatic p) (refreshNow p) (opts p) (pc_events p))
  | Stored data =>
      (FetchDone, notify (mkConfigEvent (version data) None)
        (mkPipeline (current p) (version data) (isStatic p) (refreshNow p) (opts p) (pc_events p)))
  | FetchDone => (FetchDone, p)
  end.

(** Two goroutines, [true] in the schedule being a step of the first. *)
Fixpoint race (sched : list bool) (a b : pc_fetch) (p : PipelineConfig) : pc_fetch * pc_fetch * PipelineConfig :=
  match sched with
  | [] => (a, b, p)
  | true :: sched => let '(a, p) := fetch_step a p in race sched a b p
  | false :: sched => let '(b, p) := fetch_step b p in race sched a b p
  end.
End config.
Arguments PipelineConfig T : clear implicits.
Arguments pc_fetch T : clear implicits.

(** ** Theorems *)

Section props.
Context {T : Type} (zero : T).
Context (Sum256 : bytes -> bytes) (decoder : bytes -> string + T).
Context (sha_length : forall d, length (Sum256 d) = 32).
Abbreviation version := (version Sum256).
Abbreviation fetchAndStore := (fetchAndStore Sum256 decoder).
Abbreviation fetches := (fetches Sum256 decoder).
Abbreviation last_good := (last_good decoder).

Lemma version_nonempty d : version d <> "".
Proof using sha_length.
  unfold PipelineConfig.version. pose proof (sha_length d) as Hl.
  by destruct (Sum256 d) as [|x [|y l]].
Qed.

(** The invariant: the published value is the last good one, and the recorded version is the
    version of a content it was decoded from. *)
Definition config_ok (seen : list (string + bytes)) (p : PipelineConfig T) : Prop :=
  current p = last_good seen None /\
  (lastVersion p = "" \/ exists d, inr d ∈ seen /\ lastVersion p = version d /\ decoder d = from_option inr (inl "") (current p)).

Lemma last_good_snoc seen r init :
  last_good (seen ++ [r]) init =
  match r with
  | inl _ => last_good seen init
  | inr d => match decoder d with inr v => Some v | inl _ => last_good seen init end
  end.
Proof. unfold PipelineConfig.last_good. by rewrite foldl_app. Qed.

Lemma fetchAndStore_ok seen r p :
  (forall d1 d2, inr d1 ∈ seen ++ [r] -> inr d2 ∈ seen ++ [r] -> version d1 = version d2 -> d1 = d2) ->
  config_ok seen p -> config_ok (seen ++ [r]) (fetchAndStore r p).2.
Proof using sha_length.
  intros Hinj [Hc Hv]. unfold config_ok. rewrite last_good_snoc.
  assert (forall x, lastVersion p = "" \/ (exists d, inr d ∈ seen /\ lastVersion p = version d /\ decoder d = x) ->
    lastVersion p = "" \/ (exists d, inr d ∈ seen ++ [r] /\ lastVersion p = version d /\ decoder d = x)) as Hmono.
  { intros x [?|(d & Hd & H1 & H2)]; [by left|right; exists d; set_solver]. }
  destruct r as [err|d]; cbn; [split; [done|by apply Hmono]|].
  case_decide as Hd.
  - destruct Hv as [Hv|(d' & Hin & Hv & Hdec)]; [by destruct (version_nonempty d); rewrite <-Hd, Hv|].
    assert (d' = d) as -> by (apply Hinj; [set_solver..|congruence]).
    destruct (decoder d) as [err|v] eqn:Ed; cbn.
    + split; [done|]. right. exists d. split; [set_solver|]. split; [done|]. by rewrite Ed.
    + destruct (current p) as [v'|] eqn:Ec; cbn in Hdec; [|done]. injection Hdec as ->.
      split; [done|]. right. exists d. split; [set_solver|]. split; [done|]. by rewrite Ed.
  - destruct (decoder d) as [err|v] eqn:Ed; cbn.
    + split; [done|by apply Hmono].
    + split; [done|]. right. exists d. split; [set_solver|]. split; [done|]. by rewrite Ed.
Qed.

(** C23: a polled configuration always publishes the last good content.  Whatever mixture of
    fetch errors, undecodable contents, unchanged and changed contents the source delivers,
    the snapshot is the decoded value of the newest content that decodes (the zero value
    before the first), provided no two different contents among those seen have the same
    truncated hash: skipping the decoder for an unchanged hash never keeps a stale value,
    and an error never loses the value. *)
Theorem config_keeps_last_good o rs :
  (forall d1 d2, inr d1 ∈ rs -> inr d2 ∈ rs -> version d1 = version d2 -> d1 = d2) ->
  Snapshot zero (fetches rs (NewPollingConfig o)) = default zero (last_good rs None).
Proof using sha_length.
  intros Hinj. unfold Snapshot. f_equal.
  enough (config_ok rs (fetches rs (NewPollingConfig o))) as [H _] by done.
  induction rs as [|r rs IH] using rev_ind; [by split; [|left]|].
  unfold PipelineConfig.fetches. rewrite foldl_app. apply fetchAndStore_ok; [done|].
  apply IH. intros d1 d2 H1 H2. apply Hinj; set_solver.
Qed.

(** The polling goroutine: its iterations are fetches, and it stops early only when it is
    cancelled or waits for a signal nobody sent. *)
Lemma poll_loop_ok seen ws p :
  (forall d1 d2, inr d1 ∈ seen ++ ws.*2 -> inr d2 ∈ seen ++ ws.*2 -> version d1 = version d2 -> d1 = d2) ->
  config_ok seen p ->
  exists n, n <= length ws /\ config_ok (seen ++ take n ws.*2) (poll_loop Sum256 decoder ws p) /\
    ((forall w, w ∈ ws.*1 -> w = WakeTimer) -> n = length ws).
Proof using sha_length.
  revert seen p. induction ws as [|[w r] ws IH]; intros seen p Hinj Hok.
  { exists 0. cbn. by rewrite app_nil_r. }
  cbn [poll_loop]. destruct (poll_iteration _ _ w r p) as [p'|] eqn:Ep.
  - destruct (IH (seen ++ [r]) p') as (n & Hn & Hok' & Hall).
    + intros d1 d2. rewrite <-app_assoc. apply Hinj.
    + destruct w; cbn in Ep; [done| |].
      * destruct (refreshNow p); [|done]. injection Ep as <-. apply fetchAndStore_ok; [|done].
        intros d1 d2 H1 H2. apply Hinj; rewrite fmap_cons; cbn; set_solver.
      * injection Ep as <-. apply fetchAndStore_ok; [|done].
        intros d1 d2 H1 H2. apply Hinj; rewrite fmap_cons; cbn; set_solver.
    + exists (S n). split; [cbn; lia|]. split; [cbn; by rewrite <-app_assoc in Hok'|].
      intros Hw. cbn. f_equal. apply Hall. intros w' Hw'. apply Hw. cbn. by right.
  - exists 0. split; [lia|]. cbn. rewrite app_nil_r. split; [done|].
    intros Hw. destruct w; cbn in Ep; [..|done]; exfalso; by specialize (Hw _ (list_elem_of_here _ _)).
Qed.

Lemma Start_publishes o first ws :
  (forall d1 d2, inr d1 ∈ first :: ws.*2 -> inr d2 ∈ first :: ws.*2 -> version d1 = version d2 -> d1 = d2) ->
  exists n, n <= length ws /\
    Snapshot zero (Start Sum256 decoder first ws (NewPollingConfig o)) =
    default zero (last_good (first :: take n ws.*2) None) /\
    ((forall w, w ∈ ws.*1 -> w = WakeTimer) -> n = length ws).
Proof using sha_length.
  intros Hinj. destruct (poll_loop_ok [first] ws (fetchAndStore first (NewPollingConfig o)).2)
    as (n & Hn & [Hc _] & Hall); [done| |].
  - apply (fetchAndStore_ok []); [|by split; [|left]]. intros d1 d2 H1 H2. apply Hinj; set_solver.
  - exists n. split; [done|]. split; [|done]. unfold Snapshot, Start. cbn [isStatic NewPollingConfig].
    by rewrite Hc.
Qed.
End props.

(** ** Concurrent refreshes *)

(** Two goroutines inside [fetchAndStore], which stores the value and the version one after
    the other, can leave the value of one content with the version of the other: here the
    older content stays published although every later fetch returns the newer one. *)
Theorem concurrent_refresh_can_stick :
  exists (Sum256 : bytes -> bytes) (sched : list bool) (old new : bytes) (p : PipelineConfig bytes),
    (forall d, length (Sum256 d) = 32) /\ version Sum256 old <> version Sum256 new /\
    race Sum256 inr sched (FetchedData old) (FetchedData new) (NewPollingConfig (mkPoll 0 0 0 false)) =
      (FetchDone, FetchDone, p) /\
    forall n, Snapshot [] (fetches Sum256 inr (replicate n (inr new)) p) = old.
Proof.
  set (sha := fun d : bytes => take 32 (d ++ replicate 32 Byte.x00)).
  assert (forall d, length (sha d) = 32) as Hl.
  { intros d. unfold sha. rewrite length_take, length_app, length_replicate. lia. }
  exists sha, [true; false; false; true; true; false], [Byte.x01], [Byte.x02].
  eexists. split; [done|]. split; [vm_compute; discriminate|]. split; [vm_compute; reflexivity|].
  intros n. induction n as [|n IH]; [reflexivity|].
  cbn [replicate]. unfold fetches in *. cbn [foldl].
  match goal with |- context [fetchAndStore sha inr ?r ?q] =>
    replace (fetchAndStore sha inr r q).2 with q by (vm_compute; reflexivity) end.
  exact IH.
Qed.

(** ** The file source *)

(** A run of calls: the stamp [os.Stat] reports each time, the file's content being
    [content stamp] as long as the stamp is the same. *)
Fixpoint file_reads (path : string) (content : Z * Z -> bytes) (stamps : list (Z * Z)) (c : fileCache) :
    list (string + bytes) :=
  match stamps with
  | [] => []
  | stamp :: stamps =>
      let '(r, c) := cachedFileSource path (inr stamp) (inr (content stamp)) c in
      r :: file_reads path content stamps c
  end.

(** The cache never answers with an outdated content when a change of the content changes
    the modification time or the size. *)
Lemma file_source_current path content stamps :
  file_reads path content stamps emptyCache = inr <$> (content <$> stamps).
Proof.
  assert (forall c, (lastData c = [] \/ exists t, lastModTime c = Some t /\ lastData c = content (t, lastSize c)) ->
    file_reads path content stamps c = inr <$> (content <$> stamps)) as Hgo; [|by apply Hgo; left].
  induction stamps as [|[t n] stamps IH]; intros c Hc; [done|]. cbn [file_reads cachedFileSource].
  destruct (bool_decide (lastModTime c = Some t) && (n =? lastSize c)%Z && _) eqn:Hhit.
  - apply andb_true_iff in Hhit as [[Ht%bool_decide_eq_true Hn%Z.eqb_eq]%andb_true_iff Hd%negb_true_iff].
    apply bool_decide_eq_false in Hd. destruct Hc as [?|(t' & Ht' & Hc)]; [done|].
    cbn. f_equal; [congruence|]. apply IH. right. eauto.
  - cbn. f_equal. apply IH. right. by exists t.
Qed.

(** ** Witness *)

Definition toy_sha (d : bytes) : bytes := take 32 (d ++ replicate 32 Byte.x00).
Definition toy_decoder (d : bytes) : string + bytes :=
  match d with Byte.xff :: _ => inl "bad" | _ => inr d end.

Lemma config_keeps_last_good_witness :
  Snapshot [] (fetches toy_sha toy_decoder
    [inr [Byte.x01]; inl "timeout"; inr [Byte.xff]; inr [Byte.x01]] (NewPollingConfig (mkPoll 0 0 0 true))) =
  [Byte.x01].
Proof.
  assert (forall d, length (toy_sha d) = 32) as Hl.
  { intros d. unfold toy_sha. rewrite length_take, length_app, length_replicate. lia. }
  rewrite (config_keeps_last_good [] toy_sha toy_decoder Hl); [vm_compute; reflexivity|].
  intros d1 d2 H1 H2 Hv. apply list_elem_of_In in H1, H2. simpl in H1, H2.
  destruct H1 as [H1|[H1|[H1|[H1|[]]]]], H2 as [H2|[H2|[H2|[H2|[]]]]];
    try discriminate; injection H1 as <-; injection H2 as <-; first [reflexivity|vm_compute in Hv; discriminate].
Defined.
