(* ===== verification/FileWatch.v ===== *)
(** * FileWatch: a configuration file that is watched (up/pipeline_config_file.go)

    [StartFileWatch] asks the polling goroutine for a refresh when the file changes.  The
    writer of the file, the watcher's goroutine and the polling goroutine interleave: between
    the [os.Stat] and the [os.ReadFile] of a fetch the file may be written, each of the two may
    fail, and a signal may arrive at any time.  The file's successive contents and the pairs of modification time and
    size that [os.Stat] reports for them are parameters, as are the decoder and SHA-256. *)
From stdpp Require Import base list gmap strings relations.
From Stdlib Require Import ZArith Lia.
From S2P Require Import Prelude Grpc PipelineConfig.

(** ** fsnotify *)

Definition OpCreate : Z := 1.
Definition OpWrite : Z := 2.
Definition OpRemove : Z := 4.
Definition OpRename : Z := 8.
Definition OpChmod : Z := 16.

Record Event := mkEvent { Name : string; Op : Z }.

(** The condition of the watcher's loop. *)
Definition interesting (absPath : string) (e : Event) : bool :=
  bool_decide (Name e = absPath) &&
  (negb (Z.land (Op e) OpWrite =? 0)%Z || negb (Z.land (Op e) OpChmod =? 0)%Z).

(** The set-up: the path that is watched, or [None] when the no-op function is returned; [abs],
    [watcher] and [add] are what filepath.Abs, fsnotify.NewWatcher and Add return. *)
Definition StartFileWatch (abs : string + string) (watcher add : option string) : option string :=
  match abs, watcher, add with
  | inr absPath, None, None => Some absPath
  | _, _, _ => None
  end.

Section watch.
Context {T : Type} (zero : T) (Sum256 : bytes -> bytes) (decoder : bytes -> string + T).
Context (path absPath : string).
(** The [k]-th content of the file, and what [os.Stat] says of it. *)
Context (content : nat -> bytes) (stamp : nat -> Z * Z).

Abbreviation hash := (PipelineConfig.version Sum256).

(** [pollFetch]; the timeout only cancels sources that look at their context. *)
Definition pollFetch (fetched : string + bytes) (p : PipelineConfig T) : PipelineConfig T :=
  (fetchAndStore Sum256 decoder fetched p).2.

(** The polling goroutine: about to call [os.Stat], holding the answer of the [k]-th content, in
    the [select], or returned. *)
Inductive poll_pc := PStat | PRead (k : nat) | PSelect | PExited.

(** The file's content, fsnotify's events, whether the watcher runs, the polling goroutine, the
    source's cache, the configuration, and the error [os.Stat] or [os.ReadFile] gave to the
    last fetch that ended, if any. *)
Record sys := mkSys {
  file : nat;
  events : list Event;
  watching : bool;
  pc : poll_pc;
  cache : fileCache;
  config : PipelineConfig T;
  fault : option string;
}.

(** [NewFileConfig], [StartFileWatch] and [Start], before anything ran. *)
Definition begin (o : PollOptions) : sys := mkSys 0 [] true PStat emptyCache (NewPollingConfig o) None.

Definition set_config (p : PipelineConfig T) (x : sys) : sys := mkSys (file x) (events x) (watching x) (pc x) (cache x) p (fault x).
Definition set_pc (l : poll_pc) (x : sys) : sys := mkSys (file x) (events x) (watching x) l (cache x) (config x) (fault x).

(** The file gets its next content, and fsnotify an event. *)
Definition changed (op : Z) (x : sys) : sys :=
  mkSys (S (file x)) (events x ++ [mkEvent absPath op]) (watching x) (pc x) (cache x) (config x) (fault x).

(** The watcher takes an event. *)
Definition watch_event (x : sys) : option sys :=
  match watching x, events x with
  | true, e :: rest =>
      Some (mkSys (file x) rest true (pc x) (cache x)
              (if interesting absPath e then SignalRefresh (config x) else config x) (fault x))
  | _, _ => None
  end.

Definition watch_error (err : string) (x : sys) : sys :=
  set_config (notify (mkConfigEvent "" (Some ("file watch error: " +:+ err))) (config x)) x.

(** The function [StartFileWatch] returned: the watcher is closed, its goroutine has returned. *)
Definition stop_watch (x : sys) : sys := mkSys (file x) [] false (pc x) (cache x) (config x) (fault x).

(** A fetch ends with what the source returned. *)
Definition end_fetch (err : option string) (r : (string + bytes) * fileCache) (x : sys) : sys :=
  mkSys (file x) (events x) (watching x) PSelect r.2 (pollFetch r.1 (config x)) err.

(** The polling goroutine in [cachedFileSource] and [fetchAndStore]: the stat, then the rest.
    [err] is the error of [os.Stat] or [os.ReadFile], whichever is next. *)
Definition poll_fetch (err : option string) (x : sys) : option sys :=
  match pc x, err with
  | PStat, None => Some (set_pc (PRead (file x)) x)
  | PStat, Some e => Some (end_fetch err (cachedFileSource path (inl e) (inl e) (cache x)) x)
  | PRead k, None => Some (end_fetch err (cachedFileSource path (inr (stamp k)) (inr (content (file x))) (cache x)) x)
  | PRead k, Some e => Some (end_fetch err (cachedFileSource path (inr (stamp k)) (inl e) (cache x)) x)
  | _, _ => None
  end.

Definition take_signal (x : sys) : option sys :=
  let p := config x in
  match pc x with
  | PSelect =>
      if refreshNow p
      then Some (set_pc PStat (set_config (mkPipeline (current p) (lastVersion p) (isStatic p) false (opts p) (pc_events p)) x))
      else None
  | _ => None
  end.

(** What goes on without a timer and without the writer. *)
Inductive quiet : sys -> sys -> Prop :=
  | QWatch x y : watch_event x = Some y -> quiet x y
  | QFetch err x y : poll_fetch err x = Some y -> quiet x y
  | QSignal x y : take_signal x = Some y -> quiet x y.

(** Everything: also the writer, who writes the file in place, events of other files, the
    timer, errors of the watcher, and both stop functions. *)
Inductive fwstep : sys -> sys -> Prop :=
  | WQuiet x y : quiet x y -> fwstep x y
  | WWrite x op : Z.land op OpWrite <> 0%Z -> fwstep x (changed op x)
  | WOther x e : fwstep x (mkSys (file x) (events x ++ [e]) (watching x) (pc x) (cache x) (config x) (fault x))
  | WTimer x : pc x = PSelect -> fwstep x (set_pc PStat x)
  | WError x err : fwstep x (watch_error err x)
  | WStopWatch x : fwstep x (stop_watch x)
  | WStopPoll x : pc x = PSelect -> fwstep x (set_pc PExited x).

(** The published value is the decoded content of the file, if that decodes. *)
Definition published (x : sys) : Prop :=
  match decoder (content (file x)) with inr v => current (config x) = Some v | inl _ => True end.

(** ** The invariant *)

(** Somebody is going to look at the file. *)
Definition wanted (x : sys) : Prop :=
  pc x = PStat \/ refreshNow (config x) = true \/ Exists (fun e => interesting absPath e = true) (events x).

(** A result of the source: an error, or a content of the file. *)
Definition of_file (r : string + bytes) : Prop := (exists e, r = inl e) \/ exists k, r = inr (content k).

(** The cache holds nothing, or a content read after the stat it remembers. *)
Definition cache_ok (n : nat) (c : fileCache) : Prop :=
  (lastModTime c = None -> lastData c = []) /\
  forall m, lastModTime c = Some m ->
    exists k k', stamp k = (m, lastSize c) /\ lastData c = content k' /\ k <= k' <= n.

Record watch_ok (x : sys) : Prop := {
  wo_cache : cache_ok (file x) (cache x);
  wo_seen : exists seen, config_ok Sum256 decoder seen (config x) /\ Forall of_file seen;
  wo_read : forall k, pc x = PRead k -> k <= file x;
  wo_follows : watching x = true -> pc x <> PExited ->
    wanted x \/ pc x = PRead (file x) \/ (pc x = PSelect /\ (fault x = None -> published x));
}.

(** Modification time and size tell the contents apart, and so do the truncated hashes. *)
Context (stamp_inj : forall i j, stamp i = stamp j -> i = j).
Context (sha_length : forall d, length (Sum256 d) = 32).
Context (version_inj : forall i j, hash (content i) = hash (content j) -> content i = content j).

Lemma begin_ok o : watch_ok (begin o).
Proof using Type.
  split; cbn; [by split | | done | left; by left]. exists []. split; [by split; [|left] | done].
Qed.

(** What a fetch that began with the [k]-th content returns. *)
Lemma source_data k c n :
  k <= n -> cache_ok n c ->
  exists j c', cachedFileSource path (inr (stamp k)) (inr (content n)) c = (inr (content j), c') /\ k <= j <= n /\
    cache_ok n c'.
Proof using stamp_inj.
  intros Hk Hc. unfold cachedFileSource. destruct (stamp k) as [m sz] eqn:Hs.
  destruct (bool_decide _ && _ && _) eqn:Hhit.
  - apply andb_prop in Hhit as [[Hm Hz]%andb_prop _]. apply bool_decide_eq_true in Hm. apply Z.eqb_eq in Hz as ->.
    destruct (proj2 Hc m Hm) as (i & i' & Hi & Hd & Hle). rewrite <-Hs in Hi. apply stamp_inj in Hi as ->.
    exists i', c. split_and!; [by rewrite Hd | lia | lia | apply Hc..].
  - exists n, (mkCache (Some m) sz (content n)). split_and!; [done | lia | lia|]. split; [done|]. cbn. intros ? [= <-].
    exists k, n. split_and!; [done | done | lia | lia].
Qed.

(** The cached data is a content of the file, or there is none. *)
Lemma cached_data n c : cache_ok n c -> lastData c <> [] -> of_file (inr (lastData c)).
Proof using Type.
  intros [Hn Hc] Hd. destruct (lastModTime c) as [m|]; [|by destruct Hd; apply Hn].
  destruct (Hc m eq_refl) as (_ & k' & _ & -> & _). right. by exists k'.
Qed.

(** What a fetch with a failing stat or read returns: the cache is left as it was. *)
Lemma source_fails stat n c e :
  cache_ok n c -> stat = inl e \/ (exists k, stat = inr (stamp k)) ->
  exists r, cachedFileSource path stat (inl e) c = (r, c) /\ of_file r.
Proof using Type.
  intros Hc Hst. unfold cachedFileSource. destruct Hst as [->|[k ->]].
  - case_decide as Hd; eexists; (split; [done|]); [left; by eexists|exact (cached_data n c Hc Hd)].
  - destruct (stamp k) as [m sz]. destruct (bool_decide (lastModTime c = _) && _ && _) eqn:Hhit; eexists; (split; [done|]).
    + apply andb_prop in Hhit as [_ Hd%negb_true_iff]. apply bool_decide_eq_false in Hd. exact (cached_data n c Hc Hd).
    + left. by eexists.
Qed.

Lemma pollFetch_signal r p : refreshNow (pollFetch r p) = refreshNow p.
Proof using Type.
  unfold pollFetch, fetchAndStore. destruct r as [|d]; [done|]. case_decide; [done|]. by destruct (decoder d).
Qed.

Lemma fetched_ok seen r p :
  config_ok Sum256 decoder seen p -> Forall of_file seen -> of_file r ->
  let p' := pollFetch r p in
  (exists seen', config_ok Sum256 decoder seen' p' /\ Forall of_file seen') /\
  forall d v, r = inr d -> decoder d = inr v -> current p' = Some v.
Proof using sha_length version_inj.
  intros Hok Hs Hr p'.
  assert (Hall : Forall of_file (seen ++ [r])).
  { apply Forall_app. split; [done|]. by constructor. }
  assert (Hok' : config_ok Sum256 decoder (seen ++ [r]) p').
  { apply fetchAndStore_ok; [done| |done]. intros d1 d2 H1 H2 Hv. rewrite Forall_forall in Hall.
    destruct (Hall _ H1) as [[? [=]]|[k1 [= ->]]], (Hall _ H2) as [[? [=]]|[k2 [= ->]]]. by apply version_inj. }
  split; [by eexists|]. intros d v -> Hd. destruct Hok' as [-> _]. by rewrite last_good_snoc, Hd.
Qed.

Lemma watch_event_ok x y : watch_event x = Some y -> watch_ok x -> watch_ok y.
Proof using Type.
  unfold watch_event. destruct (watching x) eqn:Hw; [|done]. destruct (events x) as [|e rest] eqn:He; [done|].
  intros [= <-] [Hc Hs Hr Hf]. split; cbn; [done | | done |].
  - destruct Hs as (seen & Hok & Hall). exists seen. by destruct (interesting absPath e).
  - intros _ Hp. destruct (Hf Hw Hp) as [[?|[?|Hx]]|[?|[? Hpub]]].
    + left; by left.
    + left; right; left. by destruct (interesting absPath e).
    + rewrite He in Hx. apply Exists_cons in Hx as [Hi|Hx]; [left; right; left; by rewrite Hi | left; by right; right].
    + right; by left.
    + right; right. split; [done|]. unfold published in *. cbn. by destruct (interesting absPath e).
Qed.

(** The end of a fetch keeps the invariant, whatever it returned. *)
Lemma end_fetch_ok err r c x :
  watch_ok x -> cache_ok (file x) c -> of_file r ->
  (watching x = true -> refreshNow (config x) = true \/ Exists (fun e => interesting absPath e = true) (events x) \/
     (err = None -> published (end_fetch err (r, c) x))) ->
  watch_ok (end_fetch err (r, c) x).
Proof using sha_length version_inj.
  intros [Hc (seen & Hok & Hall) Hr Hf] Hc' Hro Hp. destruct (fetched_ok seen r (config x) Hok Hall Hro) as [Hs' _].
  split; cbn; [exact Hc' | exact Hs' | done|]. intros Hw _. unfold wanted. cbn. rewrite pollFetch_signal.
  destruct (Hp Hw) as [?|[?|?]]; [left; by right; left | left; by right; right | by right; right].
Qed.

Lemma poll_fetch_ok err x y : poll_fetch err x = Some y -> watch_ok x -> watch_ok y.
Proof using stamp_inj sha_length version_inj.
  unfold poll_fetch. intros Hp Hx. pose proof Hx as [Hc (seen & Hok & Hall) Hr Hf]. destruct (pc x) as [|k| |] eqn:Hpc; try done.
  - destruct err as [e|]; apply (inj Some) in Hp as <-; [|split; cbn; [done | by exists seen | by intros ? [= <-] | by right; left]].
    destruct (source_fails (inl e) (file x) (cache x) e Hc) as (r & -> & Hro); [by left|].
    apply end_fetch_ok; [done..|]. by right; right.
  - destruct err as [e|]; apply (inj Some) in Hp as <-.
    { destruct (source_fails (inr (stamp k)) (file x) (cache x) e Hc) as (r & -> & Hro); [right; by eexists|].
      apply end_fetch_ok; [done..|]. by right; right. }
    destruct (source_data k (cache x) (file x) (Hr k eq_refl) Hc) as (j & c' & -> & Hj & Hc').
    apply end_fetch_ok; [done|done|right; by eexists|]. intros Hw.
    destruct (Hf Hw ltac:(done)) as [[?|[?|?]]|[Hk|[? _]]]; [congruence | by left | by right; left | |congruence].
    right; right. intros _. injection Hk as ->. assert (j = file x) as -> by lia. unfold published. cbn.
    destruct (decoder (content (file x))) as [|v] eqn:Hd; [done|].
    destruct (fetched_ok seen (inr (content (file x))) (config x) Hok Hall) as [_ Hpub]; [right; by eexists|].
    exact (Hpub _ v eq_refl Hd).
Qed.

Lemma take_signal_ok x y : take_signal x = Some y -> watch_ok x -> watch_ok y.
Proof using Type.
  unfold take_signal. intros Hp [Hc (seen & Hok & Hall) Hr Hf]. destruct (pc x) eqn:Hpc; try done.
  destruct (refreshNow (config x)); [|done]. injection Hp as <-.
  split; cbn; [done | by exists seen | done | by left; left].
Qed.

Lemma quiet_ok x y : quiet x y -> watch_ok x -> watch_ok y.
Proof using stamp_inj sha_length version_inj.
  destruct 1; [by apply watch_event_ok | by eapply poll_fetch_ok | by apply take_signal_ok].
Qed.

Lemma interesting_write op : Z.land op OpWrite <> 0%Z -> interesting absPath (mkEvent absPath op) = true.
Proof using Type.
  intros Ho. unfold interesting. cbn. rewrite bool_decide_true by done. by apply Z.eqb_neq in Ho as ->.
Qed.

Lemma fwstep_ok x y : fwstep x y -> watch_ok x -> watch_ok y.
Proof using stamp_inj sha_length version_inj.
  intros [x' y' Hq|x' op Ho|x' e|x' Hp|x' err|x'|x' Hp]; [by apply quiet_ok | ..]; intros [Hc (seen & Hok & Hall) Hr Hf].
  - split; cbn; [| by exists seen | |].
    + split; [apply Hc|]. intros m (k & k' & ? & ? & ?)%(proj2 Hc). exists k, k'. split_and!; [done | done | lia | lia].
    + intros k Hk%Hr. lia.
    + intros _ _. left; right; right. apply Exists_app. right. constructor. by apply interesting_write.
  - split; cbn; [done | by exists seen | done|]. intros Hw Hx. destruct (Hf Hw Hx) as [[?|[?|?]]|?]; [left..|by right].
    + by left.
    + by right; left.
    + right; right. apply Exists_app. by left.
  - split; cbn; [done | by exists seen | done | by left; left].
  - split; cbn; [done | by exists seen | done | exact Hf].
  - split; cbn; [done | by exists seen | done | done].
  - split; cbn; [done | by exists seen | done | done].
Qed.

Lemma watch_reachable_ok o x : rtc fwstep (begin o) x -> watch_ok x.
Proof using stamp_inj sha_length version_inj.
  intros Hr. remember (begin o) as x0 eqn:H0. assert (Hb : watch_ok x0) by (subst; apply begin_ok). clear H0.
  induction Hr as [|x y z Hs _ IH]; [done|]. apply IH. by eapply fwstep_ok.
Qed.

(** Quiet steps come to an end: every event is one signal at most, every signal one fetch. *)
Definition work (x : sys) : nat :=
  4 * length (events x) + (if refreshNow (config x) then 3 else 0) +
  match pc x with PStat => 2 | PRead _ => 1 | _ => 0 end.

Lemma quiet_works x y : quiet x y -> work y < work x.
Proof using Type.
  unfold work. destruct 1 as [x y Hs|err x y Hs|x y Hs]; revert Hs.
  - unfold watch_event. destruct (watching x), (events x); try done. intros [= <-]. cbn.
    destruct (interesting _ _), (refreshNow (config x)); cbn; lia.
  - unfold poll_fetch. destruct (pc x) eqn:Hpc, err; try done; intros [= <-]; cbn; rewrite ?pollFetch_signal; lia.
  - unfold take_signal. destruct (pc x); try done. destruct (refreshNow (config x)); [|done]. intros [= <-]. cbn. lia.
Qed.

Lemma quiet_stops x : sn quiet x.
Proof using Type.
  remember (work x) as n eqn:Hn. revert x Hn. induction (lt_wf n) as [n _ IH]. intros x ->.
  constructor. intros y Hy. eapply IH; [by apply quiet_works | done].
Qed.

(** The steps that are left, and where there are none. *)
Lemma quiet_or_published x :
  watch_ok x -> watching x = true -> pc x <> PExited ->
  (exists y, quiet x y) \/ (pc x = PSelect /\ (fault x = None -> published x)).
Proof using Type.
  intros Hok Hw Hp. destruct (pc x) as [|k| |] eqn:Hpc; [| | |done].
  - left. eexists. apply (QFetch None). unfold poll_fetch. by rewrite Hpc.
  - left. eexists. apply (QFetch None). unfold poll_fetch. by rewrite Hpc.
  - destruct (refreshNow (config x)) eqn:Hr.
    { left. eexists. apply QSignal. unfold take_signal. by rewrite Hpc, Hr. }
    destruct (events x) as [|e rest] eqn:He.
    + right. destruct (wo_follows x Hok Hw) as [[?|[?|Hx]]|[?|[_ ?]]]; try congruence; [|done].
      rewrite He in Hx. by apply Exists_nil in Hx.
    + left. eexists. apply QWatch. unfold watch_event. by rewrite Hw, He.
Qed.

Lemma quiet_keeps x y : quiet x y -> watching y = watching x /\ file y = file x /\ (pc x <> PExited -> pc y <> PExited).
Proof using Type.
  destruct 1 as [x y Hs|err x y Hs|x y Hs]; revert Hs.
  - unfold watch_event. destruct (watching x), (events x); try done. by intros [= <-].
  - unfold poll_fetch. destruct (pc x), err; try done; by intros [= <-].
  - unfold take_signal. destruct (pc x); try done. destruct (refreshNow (config x)); [|done]. by intros [= <-].
Qed.

(** C24: a write to a watched file is published without waiting for the poll interval, whatever
    the writer, the watcher, the timer and the polling goroutine do meanwhile, unless the file
    cannot be read then.  While the watcher and the polling goroutine run, from every reachable
    state their own steps come to an end, and where they have ended the polling goroutine waits
    in its [select], and the snapshot is the decoded content of the file (if it decodes) or the
    last fetch had an error from [os.Stat] or [os.ReadFile]: no write is lost between the stat,
    the read and the signal, provided that modification time and size, and the truncated hash,
    tell the contents apart. *)
Theorem watched_write_is_published o x :
  rtc fwstep (begin o) x -> watching x = true -> pc x <> PExited ->
  sn quiet x /\
  forall y, rtc quiet x y ->
    (exists z, quiet y z) \/ (file y = file x /\ pc y = PSelect /\ (fault y = None -> published y)).
Proof using stamp_inj sha_length version_inj.
  intros Hr Hw Hp. split; [apply quiet_stops|]. intros y Hq.
  assert (Hy : rtc fwstep (begin o) y).
  { etrans; [exact Hr|]. clear -Hq. induction Hq as [|a b c Hab _ IH]; [done|]. eapply rtc_l; [by apply WQuiet | done]. }
  assert (Hk : watching y = watching x /\ file y = file x /\ (pc x <> PExited -> pc y <> PExited)).
  { clear -Hq. induction Hq as [|x z y Hz _ (H1 & H2 & H3)]; [done|]. apply quiet_keeps in Hz as (? & ? & ?).
    split_and!; [congruence | congruence | auto]. }
  destruct Hk as (H1 & H2 & H3). apply watch_reachable_ok in Hy.
  destruct (quiet_or_published y Hy ltac:(congruence) (H3 Hp)); auto.
Qed.
End watch.
Arguments sys T : clear implicits.

(** ** Witness *)

Definition demo_content (k : nat) : bytes := if decide (k = 0) then [Byte.x01] else [Byte.x02].
Definition demo_stamp (k : nat) : Z * Z := (Z.of_nat k, 1%Z).
Definition demo_path : string := "/etc/app/config.json".

(** The file is written between the stat and the read of the first fetch. *)
Definition demo_sys : sys bytes := changed demo_path OpWrite (set_pc (PRead 0) (begin (mkPoll 0 0 0 true))).

Definition demo_runs (n : nat) : option (sys bytes) :=
  Nat.iter n (fun x => x ← x;
    match poll_fetch toy_sha toy_decoder demo_path demo_content demo_stamp None x, watch_event demo_path x with
    | Some y, _ => Some y
    | None, Some y => Some y
    | None, None => take_signal x
    end) (Some demo_sys).

Lemma watched_write_is_published_witness :
  sn (quiet toy_sha toy_decoder demo_path demo_path demo_content demo_stamp) demo_sys /\
  (current ∘ config <$> demo_runs 1) = Some (Some [Byte.x02]) /\ demo_runs 6 = None /\
  is_Some (demo_runs 5).
Proof.
  assert (Hr : rtc (fwstep toy_sha toy_decoder demo_path demo_path demo_content demo_stamp) (begin (mkPoll 0 0 0 true)) demo_sys).
  { eapply rtc_l; [apply WQuiet, (QFetch _ _ _ _ _ _ None); reflexivity|]. eapply rtc_l; [|reflexivity].
    apply (WWrite _ _ _ _ _ _ _ OpWrite). done. }
  destruct (watched_write_is_published toy_sha toy_decoder demo_path demo_path demo_content demo_stamp) with (o := mkPoll 0 0 0 true) (x := demo_sys)
    as [Hsn _]; [| | | exact Hr | done | done|].
  - intros i j [= Hij]. lia.
  - intros d. unfold toy_sha. rewrite length_take, length_app, length_replicate. lia.
  - intros i j Hv. unfold demo_content in *. repeat case_decide; [done | vm_compute in Hv; done | vm_compute in Hv; done | done].
  - split_and!; [exact Hsn | vm_compute; reflexivity | vm_compute; reflexivity | by eexists; vm_compute].
Defined.

(** ** Where the watch does not help *)

(** A file that is replaced by a rename, as editors and mounted config maps do, raises Create:
    the watcher takes the event and does not ask for a refresh, the snapshot stays behind until
    the next poll. *)
Lemma replaced_file_waits_for_poll :
  let settled := set_pc PSelect (set_config (pollFetch toy_sha toy_decoder (inr (demo_content 0)) (NewPollingConfig (mkPoll 0 0 0 true))) (begin (mkPoll 0 0 0 true))) in
  exists y, watch_event demo_path (changed demo_path OpCreate settled) = Some y /\
    events y = [] /\ take_signal y = None /\ file y = 1 /\ current (config y) = Some (demo_content 0) /\
    ~ published toy_decoder demo_content y.
Proof. eexists. split_and!; [reflexivity | reflexivity | reflexivity | reflexivity | reflexivity | vm_compute; by intros [=]]. Qed.

(** A read that fails once, after the signal of a write was taken, leaves the snapshot behind:
    nothing is left to do until the next event or the next poll. *)
Lemma failed_read_waits_for_poll :
  let settled := set_pc PSelect (set_config (pollFetch toy_sha toy_decoder (inr (demo_content 0)) (NewPollingConfig (mkPoll 0 0 0 true))) (begin (mkPoll 0 0 0 true))) in
  let fetch err x := y ← x; poll_fetch toy_sha toy_decoder demo_path demo_content demo_stamp err y in
  exists y, fetch (Some "input/output error") (fetch None (x ← watch_event demo_path (changed demo_path OpWrite settled); take_signal x)) = Some y /\
    events y = [] /\ watch_event demo_path y = None /\ take_signal y = None /\ fetch None (Some y) = None /\
    file y = 1 /\ current (config y) = Some (demo_content 0) /\ ~ published toy_decoder demo_content y.
Proof. eexists. split_and!; try reflexivity. vm_compute. by intros [=]. Qed.
