(* ===== verification/Router.v ===== *)
(** * up/router.go: dispatch by method and path

    A router is a request handler: it picks a registered handler and runs it, so [Dispatch]
    is a function from a request to the program the chosen handler is. *)
From stdpp Require Import base list strings sets.
From Stdlib Require Import ZArith Ascii Lia.
From S2P Require Import Prelude Async StreamObject Envoy Grpc FilterState.

(** [routeEntry]. *)
Record routeEntry := mkRoute {
  rt_method : string;
  rt_path : string;
  prefix : bool;
  rt_handler : Request -> prog;
}.

(** [Router]. *)
Record Router := mkRouter {
  routes : list routeEntry;
  notFound : option (Request -> prog);
}.

Definition NewRouter (notFound : option (Request -> prog)) : Router := mkRouter [] notFound.

Definition Handle (method path : string) (h : Request -> prog) (r : Router) : Router :=
  mkRouter (routes r ++ [mkRoute method path false h]) (notFound r).

Definition HandlePrefix (method pathPrefix : string) (h : Request -> prog) (r : Router) : Router :=
  mkRouter (routes r ++ [mkRoute method pathPrefix true h]) (notFound r).

Definition GET : string -> (Request -> prog) -> Router -> Router := Handle "GET".
Definition POST : string -> (Request -> prog) -> Router -> Router := Handle "POST".
Definition DELETE : string -> (Request -> prog) -> Router -> Router := Handle "DELETE".
Definition GETPrefix : string -> (Request -> prog) -> Router -> Router := HandlePrefix "GET".
Definition POSTPrefix : string -> (Request -> prog) -> Router -> Router := HandlePrefix "POST".
Definition DELETEPrefix : string -> (Request -> prog) -> Router -> Router := HandlePrefix "DELETE".

(** [pathHasPrefix(path, prefix)]. *)
Definition pathHasPrefix (path pre : string) : bool :=
  match StripPrefix pre path with
  | None => false
  | Some EmptyString => true
  | Some (String a _) => bool_decide (a = "/"%char)
  end.

(** The loop of [Dispatch]: the exact route it stops at, or the first prefix route. *)
Fixpoint match_routes (method path : string) (rs : list routeEntry) (prefixMatch : option routeEntry) :
    option routeEntry * option routeEntry :=
  match rs with
  | [] => (None, prefixMatch)
  | rt :: rs =>
      if negb (bool_decide (method = rt_method rt)) then match_routes method path rs prefixMatch
      else if negb (prefix rt) then
        if bool_decide (path = rt_path rt) then (Some rt, prefixMatch)
        else match_routes method path rs prefixMatch
      else match prefixMatch with
           | None => if pathHasPrefix path (rt_path rt) then match_routes method path rs (Some rt)
                     else match_routes method path rs prefixMatch
           | Some _ => match_routes method path rs prefixMatch
           end
  end.

(** [Dispatch]: the program run for [req]. *)
Definition Dispatch (r : Router) (req : Request) : prog :=
  let '(path, _, _) := Cut (r_Path req) "?"%char in
  match match_routes (r_Method req) path (routes r) None with
  | (Some rt, _) => rt_handler rt req
  | (None, Some rt) => rt_handler rt req
  | (None, None) => match notFound r with Some h => h req | None => PRet end
  end.

(** ** Specification *)

(** The route matches exactly, or by prefix at a path separator. *)
Definition exact_match (method path : string) (rt : routeEntry) : Prop :=
  rt_method rt = method /\ prefix rt = false /\ rt_path rt = path.
Definition prefix_match (method path : string) (rt : routeEntry) : Prop :=
  rt_method rt = method /\ prefix rt = true /\
  (path = rt_path rt \/ exists rest, path = rt_path rt +:+ String "/" rest).

(** [rt] is the first route of [rs] that satisfies [P]. *)
Definition first_such (P : routeEntry -> Prop) (rs : list routeEntry) (rt : routeEntry) : Prop :=
  exists l1 l2, rs = l1 ++ rt :: l2 /\ P rt /\ forall x, x ∈ l1 -> ~ P x.

(** ** Theorems *)

Lemma pathHasPrefix_iff path pre :
  pathHasPrefix path pre = true <-> path = pre \/ exists rest, path = pre +:+ String "/" rest.
Proof.
  assert (pre +:+ "" = pre) as Hnil by (induction pre as [|a pre IH]; [done|]; change (String a (pre +:+ "") = String a pre); by rewrite IH).
  unfold pathHasPrefix. destruct (StripPrefix pre path) as [[|a rest]|] eqn:Es.
  - apply StripPrefix_Some in Es. split; [|done]. left. congruence.
  - apply StripPrefix_Some in Es as ->. rewrite bool_decide_eq_true. split.
    + intros ->. right. eauto.
    + intros [Hp|(r' & Hp)].
      * rewrite <-Hnil in Hp at 2. by apply (inj (String.append pre)) in Hp.
      * apply (inj (String.append pre)) in Hp. congruence.
  - split; [done|]. intros [->|(r & ->)].
    + assert (StripPrefix pre pre = Some "") as Hs by by apply StripPrefix_Some. congruence.
    + assert (StripPrefix pre (pre +:+ String "/" r) = Some (String "/" r)) as Hs by by apply StripPrefix_Some.
      congruence.
Qed.

Lemma first_such_skip (P : routeEntry -> Prop) x rs rt :
  ~ P x -> first_such P (x :: rs) rt <-> first_such P rs rt.
Proof.
  intros Hx. split.
  - intros ([|y l1] & l2 & Heq & Hp & Hn); injection Heq as -> ->; [done|].
    exists l1, l2. split_and!; [done..|]. intros z Hz. apply Hn. by right.
  - intros (l1 & l2 & -> & Hp & Hn). exists (x :: l1), l2. split_and!; [done..|].
    intros z [->|Hz]%elem_of_cons; [done|by apply Hn].
Qed.

Lemma first_such_here (P : routeEntry -> Prop) x rs : P x -> first_such P (x :: rs) x.
Proof. intros Hx. exists [], rs. split_and!; [done..|]. by intros ? ?%not_elem_of_nil. Qed.

(** The loop finds the first exact route; when there is none, the first prefix route. *)
Lemma match_routes_spec method path rs pm :
  match match_routes method path rs pm with
  | (Some rt, _) => first_such (exact_match method path) rs rt
  | (None, pm') =>
      (forall rt, rt ∈ rs -> ~ exact_match method path rt) /\
      match pm with
      | Some _ => pm' = pm
      | None => match pm' with
                | Some rt => first_such (prefix_match method path) rs rt
                | None => forall rt, rt ∈ rs -> ~ prefix_match method path rt
                end
      end
  end.
Proof.
  revert pm. induction rs as [|rt rs IH]; intros pm; cbn [match_routes].
  { split; [by intros ? ?%not_elem_of_nil|]. destruct pm; [done|]. by intros ? ?%not_elem_of_nil. }
  assert (forall pm, ~ exact_match method path rt -> ~ prefix_match method path rt \/ pm <> None ->
    match match_routes method path rs pm with
    | (Some x, _) => first_such (exact_match method path) (rt :: rs) x
    | (None, pm') =>
        (forall x, x ∈ rt :: rs -> ~ exact_match method path x) /\
        match pm with
        | Some _ => pm' = pm
        | None => match pm' with
                  | Some x => first_such (prefix_match method path) (rt :: rs) x
                  | None => forall x, x ∈ rt :: rs -> ~ prefix_match method path x
                  end
        end
    end) as Hskip.
  { intros pm' He Hp. specialize (IH pm'). destruct (match_routes method path rs pm') as [[x|] pm''].
    - by apply first_such_skip.
    - destruct IH as [IH1 IH2]. split; [intros x [->|Hx]%elem_of_cons; [done|by apply IH1]|].
      destruct pm' as [y|]; [done|]. destruct Hp as [Hp|[]]; [|done].
      destruct pm'' as [x|]; [by apply first_such_skip|].
      intros x [->|Hx]%elem_of_cons; [done|by apply IH2]. }
  case_bool_decide as Hm; cbn [negb].
  2: { apply Hskip; [|left]; intros (? & ?); congruence. }
  destruct (prefix rt) eqn:Hpre; cbn [negb].
  - destruct pm as [y|].
    + apply Hskip; [|by right]. intros (_ & ? & _). congruence.
    + destruct (pathHasPrefix path (rt_path rt)) eqn:Hh.
      * assert (prefix_match method path rt) as Hpm by (split_and!; [done..|by apply pathHasPrefix_iff]).
        specialize (Hskip (Some rt)). destruct (match_routes method path rs (Some rt)) as [[x|] pm'].
        -- apply Hskip; [|by right]. intros (_ & ? & _). congruence.
        -- destruct Hskip as [H1 ->]; [intros (_ & ? & _); congruence|by right|].
           split; [done|]. by apply first_such_here.
      * apply Hskip; [intros (_ & ? & _); congruence|left]. intros (_ & _ & Hx).
        apply pathHasPrefix_iff in Hx. congruence.
  - case_bool_decide as Hp.
    + by apply first_such_here.
    + apply Hskip; [|left]; intros (_ & H1 & H2); congruence.
Qed.

(** Dispatch follows the documented priority.  The query string is ignored; an exact
    route for the method and path beats every prefix route, wherever it was registered;
    among exact routes, and among prefix routes, the first registered wins; a prefix route
    matches its own path and the paths below it, never a longer word; and with no match the
    not-found handler runs, or nothing. *)
Theorem router_dispatch_priority r req path q found :
  Cut (r_Path req) "?"%char = (path, q, found) ->
  (forall rt, first_such (exact_match (r_Method req) path) (routes r) rt -> Dispatch r req = rt_handler rt req) /\
  ((forall rt, rt ∈ routes r -> ~ exact_match (r_Method req) path rt) ->
   (forall rt, first_such (prefix_match (r_Method req) path) (routes r) rt ->
      Dispatch r req = rt_handler rt req) /\
   ((forall rt, rt ∈ routes r -> ~ prefix_match (r_Method req) path rt) ->
      Dispatch r req = match notFound r with Some h => h req | None => PRet end)).
Proof.
  intros Hcut. unfold Dispatch. rewrite Hcut. pose proof (match_routes_spec (r_Method req) path (routes r) None) as Hs.
  assert (forall P rt1 rt2, first_such P (routes r) rt1 -> first_such P (routes r) rt2 -> rt1 = rt2) as Huniq.
  { intros P rt1 rt2 (l1 & l2 & H1 & Hp & Hn) (k1 & k2 & H2 & Hp' & Hn'). rewrite H1 in H2.
    apply app_eq_inv in H2 as [(k & -> & Hk)|(k & -> & Hk)];
      (destruct k as [|z k]; [by injection Hk|]); injection Hk as -> _; exfalso;
      [eapply Hn'|eapply Hn]; [|done| |done]; set_solver. }
  destruct (match_routes (r_Method req) path (routes r) None) as [[x|] pm].
  - split; [intros rt Hrt; by rewrite (Huniq _ _ _ Hrt Hs)|]. intros Hno.
    destruct Hs as (l1 & l2 & Hr & Hx & _). exfalso. apply (Hno x); [rewrite Hr; set_solver|done].
  - destruct Hs as [Hno Hpm]. split.
    { intros rt (l1 & l2 & Hr & Hx & _). exfalso. apply (Hno rt); [rewrite Hr; set_solver|done]. }
    intros _. destruct pm as [x|]; split.
    + intros rt Hrt. by rewrite (Huniq _ _ _ Hrt Hpm).
    + intros Hn. destruct Hpm as (l1 & l2 & Hr & Hx & _). exfalso. apply (Hn x); [rewrite Hr; set_solver|done].
    + intros rt (l1 & l2 & Hr & Hx & _). exfalso. apply (Hpm rt); [rewrite Hr; set_solver|done].
    + done.
Qed.

(** A prefix registered with a trailing slash matches none of the paths below it. *)
Lemma trailing_slash_prefix_misses : pathHasPrefix "/api/users" "/api/" = false.
Proof. reflexivity. Qed.

(** ** Witness *)

Definition reply (s : Z) : Request -> prog := fun _ => PAct (ASendLocalResponse s [] []) PRet.
Definition demo_router : Router :=
  GET "/api/users" (reply 200) (GETPrefix "/api" (reply 201) (NewRouter (Some (reply 404)))).

Lemma router_dispatch_priority_witness :
  Dispatch demo_router (mkRequest "GET" "/api/users?x=1" "" "") = PAct (ASendLocalResponse 200 [] []) PRet.
Proof.
  destruct (router_dispatch_priority demo_router (mkRequest "GET" "/api/users?x=1" "" "") "/api/users" "x=1" true)
    as [H _]; [reflexivity|].
  apply (H (mkRoute "GET" "/api/users" false (reply 200))).
  exists [mkRoute "GET" "/api" true (reply 201)], []. split; [reflexivity|]. split; [repeat split|].
  intros x Hx (_ & Hp & _). apply list_elem_of_singleton in Hx. rewrite Hx in Hp. discriminate Hp.
Defined.
