(* ===== verification/ClusterAbi.v ===== *)
(** * down/abi_impl/cluster.go: the cluster extension behind the C ABI

    [AddHosts] packs host specs into the parallel arrays of the C call; [Schedule] and
    [runPending] carry closures through Envoy's main-thread scheduler as event ids; the
    exported callbacks create, drive and destroy the user's objects, which Envoy names by the
    handles of the managers (Completion.v).  What Envoy is asked and what the user's objects
    are told is recorded as a list of events; the user's answers (a factory that fails, a nil
    cluster) and the addresses [malloc] returns are inputs. *)
From stdpp Require Import base list gmap strings sets relations.
From Stdlib Require Import ZArith Lia.
From S2P Require Import Prelude HostSet Completion.

(** ** Packing hosts *)

(** The arguments of [envoy_dynamic_module_callback_cluster_add_hosts_with_hostnames]; the
    locality arrays are empty buffers. *)
Record addHostsArgs := mkAddArgs {
  a_addrs : list string;
  a_hostnames : list string;
  a_weights : list Z;
  a_meta : list string;
  a_pairs : nat;
  a_count : nat;
}.

Definition transport_socket_match : string := "envoy.transport_socket_match".

(** The loop over the metadata of host [i], from pair [j] on: [rawMeta] is an array. *)
Fixpoint pack_pairs (maxPairs i j : nat) (pairs : list (string * string)) (rawMeta : list string) :
    list string :=
  match pairs with
  | [] => rawMeta
  | (k, v) :: pairs =>
      let base := (i * maxPairs + j) * 3 in
      pack_pairs maxPairs i (S j) pairs
        (<[base + 2 := v]> (<[base + 1 := k]> (<[base := transport_socket_match]> rawMeta)))
  end.

(** The loop over the hosts; [orders] gives the order in which each metadata map is ranged
    over. *)
Fixpoint pack_hosts (maxPairs i : nat) (orders : list (list (string * string))) (rawMeta : list string) :
    list string :=
  match orders with
  | [] => rawMeta
  | pairs :: orders => pack_hosts maxPairs (S i) orders (pack_pairs maxPairs i 0 pairs rawMeta)
  end.

Definition pack_weight (w : Z) : Z := if (w =? 0)%Z then 1 else w.

(** [AddHosts], up to the C call; [None] when there is nothing to add. *)
Definition packHosts (specs : list HostSpec) (orders : list (list (string * string))) : option addHostsArgs :=
  if decide (specs = []) then None
  else
    let n := length specs in
    let maxPairs := foldl (fun m s => if m <? base.size (Metadata s) then base.size (Metadata s) else m) 0 specs in
    Some (mkAddArgs (Address <$> specs) (Hostname <$> specs) (pack_weight ∘ Weight <$> specs)
      (if 0 <? maxPairs then pack_hosts maxPairs 0 orders (replicate (n * maxPairs * 3) "") else [])
      maxPairs n).

(** What Envoy reads at index [i]: the address, hostname and weight, and the metadata
    triples, padding (an empty filter name) skipped. *)
Fixpoint read_triples (l : list string) : list (string * string * string) :=
  match l with
  | f :: k :: v :: l => if decide (f = "") then read_triples l else (f, k, v) :: read_triples l
  | _ => []
  end.

Definition read_host (a : addHostsArgs) (i : nat) : option (string * string * Z * list (string * string * string)) :=
  addr ← a_addrs a !! i; hostname ← a_hostnames a !! i; weight ← a_weights a !! i;
  Some (addr, hostname, weight, read_triples (take (a_pairs a * 3) (drop (i * (a_pairs a * 3)) (a_meta a)))).

(** ** The cluster handle's scheduler *)

(** [clusterHandleImpl]: whether there is a scheduler, the next id and the closures pending,
    a closure being the number of its [Schedule] call. *)
Record clusterHandleImpl := mkHandle {
  hasScheduler : bool;
  nextID : Z;
  pending : gmap Z nat;
}.

Definition newClusterHandle : clusterHandleImpl := mkHandle false 0 ∅.

(** [destroy]: the scheduler is deleted. *)
Definition destroy (h : clusterHandleImpl) : clusterHandleImpl := mkHandle false (nextID h) (pending h).

(** [Schedule(fn)]: the id committed to Envoy's scheduler, and whether that scheduler had to
    be created. *)
Definition Schedule (fn : nat) (h : clusterHandleImpl) : Z * bool * clusterHandleImpl :=
  let id := nextID h in
  (id, negb (hasScheduler h), mkHandle true (uint64_of (id + 1)) (<[id := fn]> (pending h))).

(** [runPending(id)]: the closure it runs. *)
Definition runPending (id : Z) (h : clusterHandleImpl) : option nat * clusterHandleImpl :=
  (pending h !! id, mkHandle (hasScheduler h) (nextID h) (delete id (pending h))).

(** ** The exported callbacks *)

(** An object of the user's, numbered in creation order. *)
Abbreviation obj := nat.

(** What the user's objects are told, and the completion callback of [Shutdown] for an
    unknown cluster. *)
Inductive mcall :=
  | ConfigClose (o : obj)
  | NewCluster (config o : obj)
  | Init (o : obj)
  | ServerInitialized (o : obj)
  | DrainStarted (o : obj)
  | Shutdown (o : obj)
  | RunScheduled (o : obj) (fn : nat)
  | ClusterClose (o : obj)
  | NewClusterLB (cluster lb : obj)
  | ChooseHost (o : obj)
  | CancelHostSelection (o : obj) (completion : nat)
  | OnHostMembershipUpdate (o : obj) (added removed : Z)
  | LBClose (o : obj)
  | EventCb.

(** The managers' tables (handles to objects; [clusterAsyncManager] to completions), the
    cluster handles by cluster, the number of objects made, the calls, and the completions
    made for the user with the handle the cleanup of each would remove. *)
Record abi := mkAbi {
  clusterConfigManager : gmap Z obj;
  clusterManager : gmap Z obj;
  clusterLBManager : gmap Z obj;
  handles : gmap obj clusterHandleImpl;
  made : nat;
  calls : list mcall;
  clusterAsyncManager : gmap Z nat;
  completions : gmap nat (ClusterLBCompletion * Z);
}.

Definition abi_init : abi := mkAbi ∅ ∅ ∅ ∅ 0 [] ∅ ∅.

Definition call_ (c : mcall) (s : abi) : abi :=
  mkAbi (clusterConfigManager s) (clusterManager s) (clusterLBManager s) (handles s) (made s) (calls s ++ [c]) (clusterAsyncManager s) (completions s).

(** [on_cluster_config_new]: [created] says whether a factory is registered and its [Create]
    succeeds; [ptr] is the handle recorded. *)
Definition on_cluster_config_new (created : bool) (ptr : Z) (s : abi) : abi :=
  if created then
    mkAbi (<[ptr := made s]> (clusterConfigManager s)) (clusterManager s) (clusterLBManager s)
      (handles s) (S (made s)) (calls s) (clusterAsyncManager s) (completions s)
  else s.

Definition on_cluster_config_destroy (ptr : Z) (s : abi) : abi :=
  match clusterConfigManager s !! ptr with
  | None => s
  | Some o =>
      let s := call_ (ConfigClose o) s in
      mkAbi (delete ptr (clusterConfigManager s)) (clusterManager s) (clusterLBManager s) (handles s)
        (made s) (calls s) (clusterAsyncManager s) (completions s)
  end.

(** [on_cluster_new]: [created] says whether [NewCluster] returns a cluster. *)
Definition on_cluster_new (config : Z) (created : bool) (ptr : Z) (s : abi) : abi :=
  match clusterConfigManager s !! config with
  | None => s
  | Some c =>
      let o := made s in
      let s := call_ (NewCluster c o) s in
      if created then
        mkAbi (clusterConfigManager s) (<[ptr := o]> (clusterManager s)) (clusterLBManager s)
          (<[o := newClusterHandle]> (handles s)) (S (made s)) (calls s) (clusterAsyncManager s) (completions s)
      else mkAbi (clusterConfigManager s) (clusterManager s) (clusterLBManager s)
             (<[o := destroy newClusterHandle]> (handles s)) (S (made s)) (calls s) (clusterAsyncManager s) (completions s)
  end.

(** The callbacks that only forward to the cluster. *)
Definition forward (m : obj -> mcall) (ptr : Z) (s : abi) : abi :=
  match clusterManager s !! ptr with None => s | Some o => call_ (m o) s end.

Definition on_cluster_init : Z -> abi -> abi := forward Init.
Definition on_cluster_server_initialized : Z -> abi -> abi := forward ServerInitialized.
Definition on_cluster_drain_started : Z -> abi -> abi := forward DrainStarted.

(** [on_cluster_shutdown]: an unknown cluster completes at once. *)
Definition on_cluster_shutdown (ptr : Z) (s : abi) : abi :=
  match clusterManager s !! ptr with None => call_ EventCb s | Some o => call_ (Shutdown o) s end.

Definition on_cluster_destroy (ptr : Z) (s : abi) : abi :=
  match clusterManager s !! ptr with
  | None => s
  | Some o =>
      let s := call_ (ClusterClose o) s in
      mkAbi (clusterConfigManager s) (delete ptr (clusterManager s)) (clusterLBManager s)
        (alter destroy o (handles s)) (made s) (calls s) (clusterAsyncManager s) (completions s)
  end.

Definition on_cluster_scheduled (ptr eventID : Z) (s : abi) : abi :=
  match clusterManager s !! ptr with
  | None => s
  | Some o =>
      match handles s !! o with
      | None => s
      | Some h =>
          let '(fn, h) := runPending eventID h in
          let s := mkAbi (clusterConfigManager s) (clusterManager s) (clusterLBManager s)
                     (<[o := h]> (handles s)) (made s) (calls s) (clusterAsyncManager s) (completions s) in
          match fn with None => s | Some f => call_ (RunScheduled o f) s end
      end
  end.

Definition on_cluster_lb_new (cluster : Z) (created : bool) (ptr : Z) (s : abi) : abi :=
  match clusterManager s !! cluster with
  | None => s
  | Some c =>
      let o := made s in
      let s := call_ (NewClusterLB c o) s in
      mkAbi (clusterConfigManager s) (clusterManager s)
        (if created then <[ptr := o]> (clusterLBManager s) else clusterLBManager s)
        (handles s) (S (made s)) (calls s) (clusterAsyncManager s) (completions s)
  end.

Definition on_cluster_lb_destroy (ptr : Z) (s : abi) : abi :=
  match clusterLBManager s !! ptr with
  | None => s
  | Some o =>
      let s := call_ (LBClose o) s in
      mkAbi (clusterConfigManager s) (clusterManager s) (delete ptr (clusterLBManager s)) (handles s)
        (made s) (calls s) (clusterAsyncManager s) (completions s)
  end.

(** [ctx.NewCompletion] of the user's code, with a new number. *)
Definition new_completion (c : nat) (s : abi) : abi :=
  mkAbi (clusterConfigManager s) (clusterManager s) (clusterLBManager s) (handles s) (made s) (calls s)
    (clusterAsyncManager s) (<[c := (NewCompletion, 0%Z)]> (completions s)).

(** Store a completion and run the cleanup of handle [p] if it ran. *)
Definition settle (c : nat) (x : ClusterLBCompletion) (p : Z) (evs : list completion_event) (s : abi) : abi :=
  mkAbi (clusterConfigManager s) (clusterManager s) (clusterLBManager s) (handles s) (made s) (calls s)
    (if existsb is_finish evs then delete p (clusterAsyncManager s) else clusterAsyncManager s)
    (<[c := (x, p)]> (completions s)).

(** [on_cluster_lb_choose_host]: the user answers with a host or nothing, or with a completion
    [c] it has made, completed or not; [aptr] is the handle recorded for it. *)
Definition on_cluster_lb_choose_host (ptr : Z) (answer : option nat) (aptr : Z) (s : abi) : abi :=
  match clusterLBManager s !! ptr with
  | None => s
  | Some o =>
      let s := call_ (ChooseHost o) s in
      match answer with
      | None => s
      | Some c =>
          match completions s !! c with
          | None => s
          | Some (x, p) =>
              let s := mkAbi (clusterConfigManager s) (clusterManager s) (clusterLBManager s) (handles s)
                         (made s) (calls s) (<[aptr := c]> (clusterAsyncManager s)) (completions s) in
              let '(x, evs) := SetFinishFn x in settle c x aptr evs s
          end
      end
  end.

(** [on_cluster_lb_cancel_host_selection]. *)
Definition on_cluster_lb_cancel_host_selection (ptr aptr : Z) (s : abi) : abi :=
  match clusterLBManager s !! ptr, clusterAsyncManager s !! aptr with
  | Some o, Some c =>
      match completions s !! c with
      | None => s
      | Some (x, p) =>
          let '(won, x, evs) := Cancel x in
          let s := settle c x p evs s in
          if won then call_ (CancelHostSelection o c) s else s
      end
  | _, _ => s
  end.

(** The user's code completes a selection. *)
Definition user_complete (c : nat) (host : HostPtr) (err : string) (s : abi) : abi :=
  match completions s !! c with
  | None => s
  | Some (x, p) => let '(_, x, evs) := Complete host err x in settle c x p evs s
  end.

Definition on_host_membership_update (ptr added removed : Z) (s : abi) : abi :=
  match clusterLBManager s !! ptr with
  | None => s
  | Some o => call_ (OnHostMembershipUpdate o added removed) s
  end.

(** The user's code schedules a closure through the handle of cluster [o]. *)
Definition user_schedule (o : obj) (fn : nat) (s : abi) : abi :=
  match handles s !! o with
  | None => s
  | Some h => mkAbi (clusterConfigManager s) (clusterManager s) (clusterLBManager s)
                (<[o := (Schedule fn h).2]> (handles s)) (made s) (calls s) (clusterAsyncManager s) (completions s)
  end.

(** One event: a callback of Envoy, which may use any handle, stale ones included, or a call
    of the user's code; a new handle is an address that is not in use.  Callbacks do not
    overlap: Envoy makes those of one object on one thread. *)
Inductive astep : abi -> abi -> Prop :=
  | a_config_new created ptr s : clusterConfigManager s !! ptr = None -> astep s (on_cluster_config_new created ptr s)
  | a_config_destroy ptr s : astep s (on_cluster_config_destroy ptr s)
  | a_cluster_new config created ptr s : clusterManager s !! ptr = None -> astep s (on_cluster_new config created ptr s)
  | a_init ptr s : astep s (on_cluster_init ptr s)
  | a_server_initialized ptr s : astep s (on_cluster_server_initialized ptr s)
  | a_drain_started ptr s : astep s (on_cluster_drain_started ptr s)
  | a_shutdown ptr s : astep s (on_cluster_shutdown ptr s)
  | a_destroy ptr s : astep s (on_cluster_destroy ptr s)
  | a_scheduled ptr id s : astep s (on_cluster_scheduled ptr id s)
  | a_lb_new cluster created ptr s : clusterLBManager s !! ptr = None -> astep s (on_cluster_lb_new cluster created ptr s)
  | a_lb_destroy ptr s : astep s (on_cluster_lb_destroy ptr s)
  | a_choose_host ptr answer aptr s : clusterAsyncManager s !! aptr = None ->
      astep s (on_cluster_lb_choose_host ptr answer aptr s)
  | a_cancel_host_selection ptr aptr s : astep s (on_cluster_lb_cancel_host_selection ptr aptr s)
  | a_new_completion c s : completions s !! c = None -> astep s (new_completion c s)
  | a_complete c host err s : astep s (user_complete c host err s)
  | a_membership ptr a r s : astep s (on_host_membership_update ptr a r s)
  | a_schedule o fn s : astep s (user_schedule o fn s).

(** The object a call reaches, and the object it closes. *)
Definition receiver (c : mcall) : option obj :=
  match c with
  | ConfigClose o | NewCluster o _ | Init o | ServerInitialized o | DrainStarted o | Shutdown o
  | RunScheduled o _ | ClusterClose o | NewClusterLB o _ | ChooseHost o | CancelHostSelection o _
  | OnHostMembershipUpdate o _ _ | LBClose o => Some o
  | EventCb => None
  end.
Definition closes (c : mcall) : option obj :=
  match c with ConfigClose o | ClusterClose o | LBClose o => Some o | _ => None end.

(** No call reaches an object that was closed before. *)
Definition orderly (tr : list mcall) : Prop :=
  forall l1 c l2 o, tr = l1 ++ c :: l2 -> receiver c = Some o -> forall c', c' ∈ l1 -> closes c' <> Some o.

(** A run of a handle: closures scheduled (numbered from 0) and events Envoy delivers. *)
Inductive hop :=
  | HSchedule
  | HDeliver (id : Z).

(** The handle, the number of closures scheduled, and those run, in order. *)
Definition run_hop (x : clusterHandleImpl * nat * list nat) (o : hop) : clusterHandleImpl * nat * list nat :=
  let '(h, n, ran) := x in
  match o with
  | HSchedule => ((Schedule n h).2, S n, ran)
  | HDeliver id => let '(fn, h) := runPending id h in
                   (h, n, match fn with Some f => ran ++ [f] | None => ran end)
  end.

Definition run_hops (ops : list hop) : clusterHandleImpl * nat * list nat :=
  foldl run_hop (newClusterHandle, 0, []) ops.

Definition schedules (ops : list hop) : nat :=
  length (List.filter (fun o => match o with HSchedule => true | _ => false end) ops).

(** ** Theorems: packing *)

Lemma join_cons {A} (x : list A) l : mjoin (x :: l) = x ++ mjoin l.
Proof. done. Qed.

Lemma insert_triple (pre : list string) n f k v a b c l :
  length pre = n ->
  <[n + 2 := v]> (<[n + 1 := k]> (<[n := f]> (pre ++ a :: b :: c :: l))) = pre ++ f :: k :: v :: l.
Proof. revert n. induction pre as [|x pre IH]; intros n <-; cbn; [done|]. f_equal. by apply IH. Qed.

(** The metadata of one host as triples, flat. *)
Definition flat (pairs : list (string * string)) : list string :=
  mjoin ((fun '(k, v) => [transport_socket_match; k; v]) <$> pairs).

Lemma length_flat pairs : length (flat pairs) = length pairs * 3.
Proof.
  induction pairs as [|[k v] pairs IH]; [done|].
  change (flat ((k, v) :: pairs)) with (transport_socket_match :: k :: v :: flat pairs). cbn. lia.
Qed.

Lemma pack_pairs_app m i j pairs pre pad post :
  length pre = (i * m + j) * 3 -> length pairs * 3 <= pad ->
  pack_pairs m i j pairs (pre ++ replicate pad "" ++ post) =
  pre ++ flat pairs ++ replicate (pad - length pairs * 3) "" ++ post.
Proof.
  revert j pre pad. induction pairs as [|[k v] pairs IH]; intros j pre pad Hpre Hpad.
  { cbn. by rewrite Nat.sub_0_r. }
  destruct pad as [|[|[|pad]]]; [cbn in Hpad; lia..|].
  cbn [pack_pairs replicate app]. rewrite insert_triple by done.
  change (flat ((k, v) :: pairs)) with (transport_socket_match :: k :: v :: flat pairs).
  replace (pre ++ transport_socket_match :: k :: v :: replicate pad "" ++ post)
    with ((pre ++ [transport_socket_match; k; v]) ++ replicate pad "" ++ post) by by rewrite <-app_assoc.
  rewrite IH; [|rewrite length_app, Hpre; cbn; lia|cbn in Hpad; lia].
  rewrite <-app_assoc.
  by replace (S (S (S pad)) - length ((k, v) :: pairs) * 3) with (pad - length pairs * 3) by (cbn [length]; lia).
Qed.

(** One host's row: its triples, then padding. *)
Definition row (m : nat) (pairs : list (string * string)) : list string :=
  flat pairs ++ replicate (m * 3 - length pairs * 3) "".

Lemma length_row m pairs : length pairs <= m -> length (row m pairs) = m * 3.
Proof. intros Hm. unfold row. rewrite length_app, length_flat, length_replicate. lia. Qed.

Lemma pack_hosts_rows m orders i pre :
  (forall pairs, pairs ∈ orders -> length pairs <= m) -> length pre = i * m * 3 ->
  pack_hosts m i orders (pre ++ replicate (length orders * m * 3) "") = pre ++ mjoin (row m <$> orders).
Proof.
  revert i pre. induction orders as [|pairs orders IH]; intros i pre Hm Hpre; [done|].
  cbn [pack_hosts length]. replace (S (length orders) * m * 3) with (m * 3 + length orders * m * 3) by lia.
  rewrite replicate_add, pack_pairs_app; [|rewrite Hpre; lia|specialize (Hm pairs (list_elem_of_here _ _)); lia].
  replace (pre ++ flat pairs ++ _) with ((pre ++ row m pairs) ++ replicate (length orders * m * 3) "")
    by (unfold row; by rewrite <-!app_assoc).
  rewrite IH; [|set_solver|rewrite length_app, Hpre, length_row by set_solver; lia].
  by rewrite fmap_cons, join_cons, <-app_assoc.
Qed.

Lemma read_triples_row m pairs :
  read_triples (row m pairs) = (fun '(k, v) => (transport_socket_match, k, v)) <$> pairs.
Proof.
  unfold row. generalize (m * 3 - length pairs * 3). intros n.
  induction pairs as [|[k v] pairs IH].
  2: { change (flat ((k, v) :: pairs)) with (transport_socket_match :: k :: v :: flat pairs).
       cbn [app read_triples]. rewrite decide_False by done. rewrite fmap_cons. f_equal. exact IH. }
  cbn. assert (forall n l, length l <= n -> (forall x, x ∈ l -> x = "") -> read_triples l = []) as Hp.
  { clear. intros n. induction n as [|n IH]; intros l Hl Hx; [destruct l; [done|cbn in Hl; lia]|].
    destruct l as [|a [|b [|c l]]]; [done..|]. cbn. rewrite decide_True by (apply Hx; set_solver).
    apply IH; [cbn in Hl; lia|set_solver]. }
  apply (Hp n); [by rewrite length_replicate|]. intros x. apply elem_of_replicate_inv.
Qed.

Lemma mjoin_row_lookup m orders i pairs :
  (forall pairs, pairs ∈ orders -> length pairs <= m) -> orders !! i = Some pairs ->
  take (m * 3) (drop (i * (m * 3)) (mjoin (row m <$> orders))) = row m pairs.
Proof.
  revert i. induction orders as [|p orders IH]; intros i Hm Hi; [done|].
  assert (length (row m p) = m * 3) as Hl by (apply length_row; set_solver).
  rewrite fmap_cons, join_cons. destruct i as [|i].
  - injection Hi as ->. rewrite Nat.mul_0_l, drop_0, take_app_le by lia. by rewrite take_ge by lia.
  - replace (S i * (m * 3)) with (length (row m p) + i * (m * 3)) by (rewrite Hl; lia).
    rewrite drop_app_add. apply IH; [set_solver|done].
Qed.

Lemma fold_max_ge (specs : list HostSpec) m :
  let r := foldl (fun m s => if m <? base.size (Metadata s) then base.size (Metadata s) else m) m specs in
  m <= r /\ forall s, s ∈ specs -> base.size (Metadata s) <= r.
Proof.
  revert m. induction specs as [|s specs IH]; intros m; cbn [foldl];
    [split; [lia|by intros ? ?%not_elem_of_nil]|].
  set (m' := if m <? base.size (Metadata s) then base.size (Metadata s) else m). destruct (IH m') as [H1 H2].
  assert (m <= m' /\ base.size (Metadata s) <= m') as [H3 H4]
    by (subst m'; destruct (Nat.ltb_spec m (base.size (Metadata s))); lia).
  split; [lia|]. intros s' [->|Hs]%elem_of_cons; [lia|by apply H2].
Qed.

(** C21: packing for the C call loses nothing.  For every order in which the metadata maps
    are ranged over, what Envoy reads at a host's index is that host's address, hostname and
    weight (0 counting as 1) and exactly its metadata pairs, padding aside, and the metadata
    array has the size the call announces, so no other host's pairs are read and nothing is
    read out of bounds. *)
Theorem add_hosts_packs specs orders :
  specs <> [] -> Forall2 (fun s o => o ≡ₚ map_to_list (Metadata s)) specs orders ->
  exists a, packHosts specs orders = Some a /\ a_count a = length specs /\
    length (a_meta a) = a_count a * a_pairs a * 3 /\
    forall i s o, specs !! i = Some s -> orders !! i = Some o ->
      read_host a i = Some (Address s, Hostname s, pack_weight (Weight s),
        (fun '(k, v) => (transport_socket_match, k, v)) <$> o).
Proof.
  intros Hne Ho. unfold packHosts. rewrite decide_False by done. eexists. split; [done|].
  cbn [a_count a_meta a_pairs]. set (m := foldl _ 0 specs).
  assert (forall s o i, specs !! i = Some s -> orders !! i = Some o -> length o <= m) as Hle.
  { intros s o i Hs Hoi. assert (o ≡ₚ map_to_list (Metadata s)) as -> by exact (Forall2_lookup_lr _ _ _ _ _ _ Ho Hs Hoi).
    rewrite length_map_to_list. apply fold_max_ge. by eapply list_elem_of_lookup_2. }
  assert (forall o, o ∈ orders -> length o <= m) as Hall.
  { intros o [i Hi]%list_elem_of_lookup. destruct (Forall2_lookup_r _ _ _ _ _ Ho Hi) as (s & Hs & _). eauto. }
  assert ((if 0 <? m then pack_hosts m 0 orders (replicate (length specs * m * 3) "") else []) =
          mjoin (row m <$> orders)) as Hmeta.
  { rewrite (Forall2_length _ _ _ Ho). destruct (Nat.ltb_spec 0 m) as [Hm|Hm].
    - by apply (pack_hosts_rows m orders 0 []).
    - clear -Hall Hm. induction orders as [|o orders IH]; [done|]. rewrite fmap_cons, join_cons.
      rewrite <-IH by (intros ? ?; apply Hall; set_solver). unfold row.
      assert (length o <= m) as Hlo by (apply Hall; set_solver). destruct o; [|cbn in Hlo; lia].
      cbn. by replace (m * 3) with 0 by lia. }
  rewrite Hmeta. split_and!; [done| |].
  - rewrite (Forall2_length _ _ _ Ho). clear -Hall. induction orders as [|o orders IH]; [done|].
    rewrite fmap_cons, join_cons, length_app, length_row by (apply Hall; set_solver).
    rewrite IH by (intros ? ?; apply Hall; set_solver). cbn [length]. lia.
  - intros i s o Hs Hoi. unfold read_host. cbn [a_addrs a_hostnames a_weights a_meta a_pairs].
    rewrite !list_lookup_fmap, Hs. cbn [fmap option_fmap option_map mbind option_bind]. by rewrite (mjoin_row_lookup m orders i o), read_triples_row.
Qed.

(** ** Theorems: scheduling *)

Lemma schedules_snoc ops o :
  schedules (ops ++ [o]) = schedules ops + match o with HSchedule => 1 | _ => 0 end.
Proof. unfold schedules. rewrite List.filter_app, length_app. by destruct o. Qed.

(** A delivery that finds its closure: after that closure was scheduled. *)
Definition delivered (ops : list hop) (n : nat) : Prop :=
  exists l1 l2, ops = l1 ++ HDeliver (Z.of_nat n) :: l2 /\ n < schedules l1.

Lemma delivered_snoc ops o n :
  delivered (ops ++ [o]) n <-> delivered ops n \/ (o = HDeliver (Z.of_nat n) /\ n < schedules ops).
Proof.
  split.
  - intros (l1 & l2 & Heq & Hn). destruct l2 as [|y l2 _] using rev_ind.
    + apply app_inj_tail in Heq as [-> ->]. by right.
    + rewrite app_comm_cons, app_assoc in Heq. apply app_inj_tail in Heq as [-> ->]. left. by exists l1, l2.
  - intros [(l1 & l2 & -> & Hn)|[-> Hn]]; [|by exists ops, []].
    exists l1, (l2 ++ [o]). by rewrite <-app_assoc.
Qed.

Lemma delivered_lt ops n : delivered ops n -> n < schedules ops.
Proof.
  intros (l1 & l2 & -> & Hn). unfold schedules in *. rewrite List.filter_app, length_app. lia.
Qed.

(** The invariant of a handle. *)
Lemma run_hops_ok ops :
  (Z.of_nat (schedules ops) <= 2 ^ 64)%Z ->
  let '(h, n, ran) := run_hops ops in
  n = schedules ops /\ nextID h = uint64_of (Z.of_nat n) /\ NoDup ran /\
  (forall id f, pending h !! id = Some f <-> id = Z.of_nat f /\ f < n /\ f ∉ ran) /\
  (forall f, f ∈ ran <-> delivered ops f).
Proof.
  induction ops as [|o ops IH] using rev_ind; intros Hb.
  { cbn. split_and!; [done..|constructor| |].
    - intros id f. rewrite lookup_empty. split; [done|lia].
    - intros f. split; [by intros ?%not_elem_of_nil|]. intros (l1 & l2 & Heq & _). by destruct l1. }
  rewrite schedules_snoc in Hb. unfold run_hops in *. rewrite foldl_app. cbn [foldl].
  destruct (foldl run_hop _ ops) as [[h n] ran]. destruct IH as (Hn & Hid & Hnd & Hp & Hr); [destruct o; lia|].
  rewrite schedules_snoc. destruct o as [|id]; cbn [run_hop Schedule runPending snd].
  - assert (nextID h = Z.of_nat n) as Hid' by (rewrite Hid; apply Z.mod_small; lia).
    cbn [nextID pending]. rewrite Hid'. split_and!; [lia|by f_equal; lia|done| |].
    + intros id f. rewrite lookup_insert_Some, Hp. split.
      * intros [[<- <-]|(Hne & -> & Hf & Hran)]; [|split_and!; [done|lia|done]].
        split_and!; [done|lia|]. rewrite Hr. intros Hd%delivered_lt. lia.
      * intros (-> & Hf & Hran). destruct (decide (f = n)) as [->|]; [by left|right].
        split_and!; [lia|done|lia|done].
    + intros f. rewrite Hr, delivered_snoc. naive_solver.
  - destruct (pending h !! id) as [f|] eqn:Hf; cbn [nextID pending].
    + apply Hp in Hf as Hf'. destruct Hf' as (-> & Hlt & Hran). split_and!; [lia|done| | |].
      * apply NoDup_app. split_and!; [done| |apply NoDup_singleton]. by intros x Hx ->%list_elem_of_singleton.
      * intros id' f'. rewrite lookup_delete_Some, Hp, elem_of_app, list_elem_of_singleton. split.
        -- intros (Hne & -> & Hl & Hn'). split_and!; [done..|]. intros [?| ->]; done.
        -- intros (-> & Hl & Hn'). split_and!; [|done..|tauto]. intros ?%Nat2Z.inj. subst. tauto.
      * intros f'. rewrite elem_of_app, list_elem_of_singleton, Hr, delivered_snoc, <-Hn. split.
        -- intros [?| ->]; [by left|by right].
        -- intros [?|[[= Heq] _]]; [by left|right]. by apply Nat2Z.inj.
    + split_and!; [lia|done|done| |].
      * intros id' f'. rewrite delete_id by done. apply Hp.
      * intros f'. rewrite Hr, delivered_snoc. split; [by left|]. intros [?|[[= ->] Hl]]; [done|].
        rewrite <-Hr. apply dec_stable. intros Hnd'.
        assert (pending h !! Z.of_nat f' = Some f') as Hs by (apply Hp; split_and!; [done|lia|done]). congruence.
Qed.

(** A scheduled closure runs once.  Whatever ids Envoy delivers, in whatever order and
    however often, up to the 2^64 closures that ids can name: no closure runs twice, a
    closure has run exactly if its id was delivered after it was scheduled, and it is still
    pending otherwise; unknown and repeated ids run nothing. *)
Theorem schedule_runs_once ops h n ran :
  (Z.of_nat (schedules ops) <= 2 ^ 64)%Z -> run_hops ops = (h, n, ran) ->
  NoDup ran /\ (forall f, f ∈ ran <-> delivered ops f) /\
  (forall f, f < schedules ops -> ~ delivered ops f -> pending h !! Z.of_nat f = Some f).
Proof.
  intros Hb Hrun. pose proof (run_hops_ok ops Hb) as Hok. rewrite Hrun in Hok.
  destruct Hok as (-> & _ & Hnd & Hp & Hr). split_and!; [done..|].
  intros f Hf Hd. apply Hp. split_and!; [done..|]. by rewrite Hr.
Qed.

(** ** Theorems: lifecycles *)

(** The three tables as one. *)
Inductive table := TConfig | TCluster | TLB.
#[export] Instance table_eq_dec : EqDecision table.
Proof. solve_decision. Defined.
Definition entry (s : abi) (t : table) : gmap Z obj :=
  match t with
  | TConfig => clusterConfigManager s
  | TCluster => clusterManager s
  | TLB => clusterLBManager s
  end.

(** The invariant: the calls are orderly; what is in a table was made and not closed, and is
    there once. *)
Record abi_ok (s : abi) : Prop := {
  ok_calls : orderly (calls s);
  ok_made : forall c o, c ∈ calls s -> closes c = Some o -> o < made s;
  ok_open : forall t p o, entry s t !! p = Some o ->
    o < made s /\ forall c, c ∈ calls s -> closes c <> Some o;
  ok_once : forall t t' p p' o, entry s t !! p = Some o -> entry s t' !! p' = Some o -> t = t' /\ p = p';
}.

Lemma orderly_snoc tr c :
  orderly tr -> (forall o, receiver c = Some o -> forall c', c' ∈ tr -> closes c' <> Some o) -> orderly (tr ++ [c]).
Proof.
  intros Ht Hc l1 x l2 o Heq Hx. destruct l2 as [|y l2 _] using rev_ind.
  - apply app_inj_tail in Heq as [-> ->]. by apply Hc.
  - rewrite app_comm_cons, app_assoc in Heq. apply app_inj_tail in Heq as [-> _]. by eapply Ht.
Qed.

(** A call to an open object that closes nothing. *)
Lemma call_open t p o c s :
  abi_ok s -> entry s t !! p = Some o -> receiver c = Some o -> closes c = None -> abi_ok (call_ c s).
Proof.
  intros [H1 H2 H3 H4] Ho Hr Hc. constructor; cbn [call_ calls made].
  - apply orderly_snoc; [done|]. intros o' Ho'. replace o' with o by congruence. by apply (H3 t p).
  - intros c' o' [Hin|Hin%list_elem_of_singleton]%elem_of_app; [by eapply H2|]. subst c'. congruence.
  - intros t' p' o' Ho'. destruct (H3 t' p' o') as [Hm Hn]; [by destruct t'|]. split; [done|].
    intros c' [Hin|Hin%list_elem_of_singleton]%elem_of_app; [by apply Hn|]. subst c'. congruence.
  - intros t1 t2 p1 p2 o' E1 E2. apply (H4 t1 t2 p1 p2 o'); [by destruct t1|by destruct t2].
Qed.

(** Recording a new object. *)
Lemma record_ok t p (s s' : abi) :
  abi_ok s -> entry s t !! p = None -> calls s' = calls s -> made s' = S (made s) ->
  (forall t', entry s' t' = if decide (t' = t) then <[p := made s]> (entry s t') else entry s t') -> abi_ok s'.
Proof.
  intros [H1 H2 H3 H4] Hp Hc Hm He.
  assert (forall t' p' o, entry s' t' !! p' = Some o ->
    (t' = t /\ p' = p /\ o = made s) \/ entry s t' !! p' = Some o) as Hcase.
  { intros t' p' o. rewrite He. case_decide as Hd; [|by right]. subst t'.
    rewrite lookup_insert_Some. intros [[<- <-]|[_ Ho]]; auto. }
  constructor; rewrite ?Hc, ?Hm.
  - done.
  - intros c o Hin Hcl. specialize (H2 c o Hin Hcl). lia.
  - intros t' p' o [(-> & -> & ->)|Ho]%Hcase.
    + split; [lia|]. intros c Hin Hcl. specialize (H2 c _ Hin Hcl). lia.
    + destruct (H3 _ _ _ Ho) as [? ?]. split; [lia|done].
  - intros t1 t2 p1 p2 o [(-> & -> & ->)|E1]%Hcase [(-> & -> & Hq)|E2]%Hcase; [done|..].
    + destruct (H3 _ _ _ E2). lia.
    + subst o. destruct (H3 _ _ _ E1). lia.
    + eauto.
Qed.

(** Closing an object and forgetting its handle. *)
Lemma close_ok t p o c (s s' : abi) :
  abi_ok s -> entry s t !! p = Some o -> receiver c = Some o -> closes c = Some o ->
  calls s' = calls s ++ [c] -> made s' = made s ->
  (forall t', entry s' t' = if decide (t' = t) then delete p (entry s t') else entry s t') -> abi_ok s'.
Proof.
  intros [H1 H2 H3 H4] Hp Hr Hcl Hc Hm He.
  assert (forall t' p' o', entry s' t' !! p' = Some o' -> entry s t' !! p' = Some o' /\ o' <> o) as Hcase.
  { intros t' p' o'. rewrite He. case_decide as Hd.
    - subst t'. rewrite lookup_delete_Some. intros [Hne Ho]. split; [done|]. intros ->.
      destruct (H4 t t p p' o Hp Ho) as [_ ?]. congruence.
    - intros Ho. split; [done|]. intros ->. destruct (H4 t t' p p' o Hp Ho). congruence. }
  destruct (H3 _ _ _ Hp) as [Hom Hop]. constructor; rewrite ?Hc, ?Hm.
  - apply orderly_snoc; [done|]. intros o' Ho'. replace o' with o by congruence. done.
  - intros c' o' [Hin|Hin%list_elem_of_singleton]%elem_of_app Hc'; [by eapply H2|]. subst c'. congruence.
  - intros t' p' o' [Ho Hne]%Hcase. destruct (H3 _ _ _ Ho) as [? Hn]. split; [done|].
    intros c' [Hin|Hin%list_elem_of_singleton]%elem_of_app; [by apply Hn|]. subst c'. congruence.
  - intros t1 t2 p1 p2 o' [E1 _]%Hcase [E2 _]%Hcase. eauto.
Qed.

(** Changing only the cluster handles, or making an object no table holds. *)
Lemma frame_ok (s s' : abi) :
  abi_ok s -> calls s' = calls s -> made s <= made s' -> (forall t, entry s' t = entry s t) -> abi_ok s'.
Proof.
  intros [H1 H2 H3 H4] Hc Hm He. constructor; rewrite ?Hc; try setoid_rewrite He.
  - done.
  - intros c o Hin Hcl. specialize (H2 c o Hin Hcl). lia.
  - intros t p o Ho. destruct (H3 _ _ _ Ho). split; [lia|done].
  - done.
Qed.

Lemma forward_ok m p s :
  (forall o, receiver (m o) = Some o /\ closes (m o) = None) -> abi_ok s -> abi_ok (forward m p s).
Proof.
  intros Hm Hok. unfold forward. destruct (clusterManager s !! p) as [o|] eqn:Ho; [|done].
  by apply (call_open TCluster p o); [..|apply Hm|apply Hm].
Qed.

Lemma astep_ok s s' : astep s s' -> abi_ok s -> abi_ok s'.
Proof.
  intros Hs Hok. destruct Hs as [created ptr s Hf|ptr s|config created ptr s Hf|ptr s|ptr s|ptr s|ptr s|ptr s
    |ptr id s|cluster created ptr s Hf|ptr s|ptr answer aptr s Hf|ptr aptr s|c s Hf|c host err s|ptr a r s|o fn s].
  - unfold on_cluster_config_new. destruct created; [|done]. apply (record_ok TConfig ptr s); [done..|by intros []].
  - unfold on_cluster_config_destroy. destruct (clusterConfigManager s !! ptr) as [o|] eqn:Ho; [|done].
    apply (close_ok TConfig ptr o (ConfigClose o) s); [done..|by intros []].
  - unfold on_cluster_new. destruct (clusterConfigManager s !! config) as [c|] eqn:Hc; [|done].
    apply (call_open TConfig config c (NewCluster c (made s))) in Hok; [|done..]. destruct created.
    + eapply (record_ok TCluster ptr); [exact Hok|done..|by intros []].
    + eapply frame_ok; [exact Hok|done|cbn; lia|by intros []].
  - by apply forward_ok.
  - by apply forward_ok.
  - by apply forward_ok.
  - unfold on_cluster_shutdown. destruct (clusterManager s !! ptr) as [o|] eqn:Ho.
    + by apply (call_open TCluster ptr o).
    + destruct Hok as [H1 H2 H3 H4]. constructor.
      * by apply orderly_snoc.
      * intros c o [Hin| ->%list_elem_of_singleton]%elem_of_app; [by apply H2|done].
      * intros t p o E. destruct (H3 t p o) as [? Hn]; [by destruct t|]. split; [done|].
        intros c [Hin| ->%list_elem_of_singleton]%elem_of_app; [by apply Hn|done].
      * intros t1 t2 p1 p2 o E1 E2. apply (H4 t1 t2 p1 p2 o); [by destruct t1|by destruct t2].
  - unfold on_cluster_destroy. destruct (clusterManager s !! ptr) as [o|] eqn:Ho; [|done].
    apply (close_ok TCluster ptr o (ClusterClose o) s); [done..|by intros []].
  - unfold on_cluster_scheduled. destruct (clusterManager s !! ptr) as [o|] eqn:Ho; [|done].
    destruct (handles s !! o) as [h|]; [|done]. cbn [runPending].
    match goal with |- context [call_ _ ?x] => assert (abi_ok x) as Hok' end.
    { eapply frame_ok; [exact Hok|done|done|by intros []]. }
    destruct (pending h !! id); [|done]. eapply (call_open TCluster ptr o); [exact Hok'|done..].
  - unfold on_cluster_lb_new. destruct (clusterManager s !! cluster) as [c|] eqn:Hc; [|done].
    apply (call_open TCluster cluster c (NewClusterLB c (made s))) in Hok; [|done..]. destruct created.
    + eapply (record_ok TLB ptr); [exact Hok|done..|by intros []].
    + eapply frame_ok; [exact Hok|done|cbn; lia|by intros []].
  - unfold on_cluster_lb_destroy. destruct (clusterLBManager s !! ptr) as [o|] eqn:Ho; [|done].
    apply (close_ok TLB ptr o (LBClose o) s); [done..|by intros []].
  - unfold on_cluster_lb_choose_host. destruct (clusterLBManager s !! ptr) as [o|] eqn:Ho; [|done].
    apply (call_open TLB ptr o (ChooseHost o)) in Hok; [|done..]. destruct answer as [c|]; [|done].
    destruct (completions (call_ (ChooseHost o) s) !! c) as [[x p]|]; [|done].
    destruct (SetFinishFn x) as [x' evs]. eapply frame_ok; [exact Hok|done|done|by intros []].
  - unfold on_cluster_lb_cancel_host_selection. destruct (clusterLBManager s !! ptr) as [o|] eqn:Ho; [|done].
    destruct (clusterAsyncManager s !! aptr) as [c|]; [|done]. destruct (completions s !! c) as [[x p]|]; [|done].
    destruct (Cancel x) as [[won x'] evs].
    assert (abi_ok (settle c x' p evs s)) as Hok' by (eapply frame_ok; [exact Hok|done|done|by intros []]).
    destruct won; [|done]. by apply (call_open TLB ptr o).
  - eapply frame_ok; [exact Hok|done|done|by intros []].
  - unfold user_complete. destruct (completions s !! c) as [[x p]|]; [|done].
    destruct (Complete host err x) as [[won x'] evs]. eapply frame_ok; [exact Hok|done|done|by intros []].
  - unfold on_host_membership_update. destruct (clusterLBManager s !! ptr) as [o|] eqn:Ho; [|done].
    by apply (call_open TLB ptr o).
  - unfold user_schedule. destruct (handles s !! o); [|done]. eapply frame_ok; [exact Hok|done|done|by intros []].
Qed.

(** C20: the ABI layer never calls a closed object.  Whatever callbacks of the cluster and
    load balancer extension Envoy makes, one after the other, with handles that are unknown,
    destroyed or of reused addresses, host selections and their cancellations included, and
    whatever the user's code schedules and completes: once the user's configuration, cluster
    or load balancer has been closed, nothing reaches it any more, neither a callback, nor a
    scheduled closure, nor a second close. *)
Theorem abi_no_call_after_close s :
  rtc astep abi_init s -> orderly (calls s).
Proof.
  intros Hr. apply ok_calls. assert (abi_ok abi_init) as Hinit.
  { constructor; [..|by intros []].
    - intros l1 c l2 o Heq. by destruct l1.
    - by intros c o ?%not_elem_of_nil.
    - by intros []. }
  revert Hinit. generalize dependent s. generalize abi_init. intros s0 s Hr.
  induction Hr; eauto using astep_ok.
Qed.

(** ** Witnesses *)

Definition meta_spec : HostSpec := mkSpec "10.0.0.3:80" "c" 0 {["tls" := "on"]}.

Lemma add_hosts_packs_witness :
  exists a, packHosts [mkSpec "10.0.0.1:80" "a" 5 ∅; meta_spec] [[]; [("tls", "on")]] = Some a /\
    read_host a 1 = Some ("10.0.0.3:80", "c", 1%Z, [(transport_socket_match, "tls", "on")]).
Proof.
  destruct (add_hosts_packs [mkSpec "10.0.0.1:80" "a" 5 ∅; meta_spec] [[]; [("tls", "on")]]) as (a & H1 & _ & _ & H2).
  - discriminate.
  - apply Forall2_cons. split; [vm_compute; reflexivity|].
    apply Forall2_cons. split; [vm_compute; reflexivity|]. apply Forall2_nil. exact I.
  - exists a. split; [exact H1|]. apply (H2 1 meta_spec [("tls", "on")]); reflexivity.
Defined.

Lemma schedule_runs_once_witness :
  let ops := [HSchedule; HSchedule; HDeliver 1; HDeliver 1; HDeliver 7] in
  let '(h, _, ran) := run_hops ops in ran = [1] /\ pending h !! 0%Z = Some 0.
Proof.
  intros ops. destruct (run_hops ops) as [[h n] ran] eqn:E.
  destruct (schedule_runs_once ops h n ran) as (_ & _ & H).
  - vm_compute. discriminate.
  - exact E.
  - split; [|apply (H 0)].
    + vm_compute in E. injection E as _ _ <-. reflexivity.
    + vm_compute. lia.
    + intros (l1 & l2 & Heq & _). assert (HDeliver 0 ∈ ops) as Hin by (rewrite Heq; set_solver).
      apply list_elem_of_In in Hin. simpl in Hin. intuition discriminate.
Defined.

(** A selection cancelled twice, the second time after the load balancer was destroyed. *)
Definition cancelled_twice : abi :=
  on_cluster_lb_cancel_host_selection 16 32 (on_cluster_lb_destroy 16 (on_cluster_lb_cancel_host_selection 16 32
    (on_cluster_lb_choose_host 16 (Some 0) 32 (new_completion 0 (on_cluster_lb_new 8 true 16
      (on_cluster_new 4 true 8 (on_cluster_config_new true 4 abi_init))))))).

Lemma abi_no_call_after_close_witness :
  calls cancelled_twice = [NewCluster 0 1; NewClusterLB 1 2; ChooseHost 2; CancelHostSelection 2 0; LBClose 2] /\
  orderly (calls cancelled_twice).
Proof.
  split; [vm_compute; reflexivity|]. apply abi_no_call_after_close. unfold cancelled_twice.
  eapply rtc_l; [apply (a_config_new true 4); vm_compute; reflexivity|].
  eapply rtc_l; [apply (a_cluster_new 4 true 8); vm_compute; reflexivity|].
  eapply rtc_l; [apply (a_lb_new 8 true 16); vm_compute; reflexivity|].
  eapply rtc_l; [apply (a_new_completion 0); vm_compute; reflexivity|].
  eapply rtc_l; [apply (a_choose_host 16 (Some 0) 32); vm_compute; reflexivity|].
  eapply rtc_l; [apply (a_cancel_host_selection 16 32)|]. eapply rtc_l; [apply (a_lb_destroy 16)|].
  eapply rtc_l; [apply (a_cancel_host_selection 16 32)|apply rtc_refl].
Defined.
