(* ===== verification/Group.v ===== *)
(** * up/group.go, up/cluster_group.go: groups of background goroutines

    A group launches its actors together and stops them together, when one of them ends or
    when [Stop] is called.  The goroutines are a transition system: an actor returns (or
    panics, which is recovered) whenever it likes, the watcher goroutine calls [Stop] when an
    actor has signalled, and [Stop] cancels the context, calls every [stop] function and
    waits.  [sync.Once] runs the body of [Stop] for its first caller.  The steps the group
    takes by itself are told apart from what its users and actors may do. *)
From stdpp Require Import base list sets strings relations.
From Stdlib Require Import Lia.
From S2P Require Import Prelude.

(** An actor registered, running in its goroutine, or back from [execute]. *)
Inductive actor_state := ANew | ARunning | AExited.

#[export] Instance actor_state_eq_dec : EqDecision actor_state.
Proof. solve_decision. Defined.

(** Where the body of [Stop] is: not called, calling the [stop] function of actor [i],
    waiting for the actors, returned. *)
Inductive stop_pc := SIdle | SStopping (i : nat) | SWaiting | SReturned.

(** [Group]: the actors, the context, the signals in [errc], the watcher, [Stop], the [stop]
    functions called, and whether [Start] was called after [Stop]. *)
Record Group := mkGroup {
  actors : list actor_state;
  started : bool;
  cancelled : bool;
  signals : nat;
  watching : bool;
  once : stop_pc;
  stops : list nat;
  late : bool;
}.

Definition NewGroup : Group := mkGroup [] false false 0 false SIdle [] false.

(** [Add]; [AddGoroutine] is [Add] with a [stop] that does nothing. *)
Definition Add (g : Group) : Group :=
  mkGroup (actors g ++ [ANew]) (started g) (cancelled g) (signals g) (watching g) (once g) (stops g) (late g).

(** [Start]: launch every actor and the watcher; nothing for an empty group. *)
Definition Start (g : Group) : Group :=
  if decide (actors g = []) then g
  else mkGroup ((fun _ => ARunning) <$> actors g) true (cancelled g) (signals g) true (once g) (stops g)
         (late g || negb (match once g with SIdle => true | _ => false end)).

(** Actor [i] returns from [execute] and signals. *)
Definition actor_exit (i : nat) (g : Group) : Group :=
  mkGroup (<[i := AExited]> (actors g)) (started g) (cancelled g) (S (signals g)) (watching g) (once g)
    (stops g) (late g).

(** The first call of [Stop] cancels the context and goes on to the [stop] functions; the
    others only wait. *)
Definition Stop (g : Group) : Group :=
  match once g with
  | SIdle => mkGroup (actors g) (started g) true (signals g) (watching g) (SStopping 0) (stops g) (late g)
  | _ => g
  end.

(** The watcher receives a signal and calls [Stop]. *)
Definition watch (g : Group) : Group :=
  Stop (mkGroup (actors g) (started g) (cancelled g) (pred (signals g)) false (once g) (stops g) (late g)).

(** The next operation of the body of [Stop]; [None] while it waits or when it is over. *)
Definition stop_step (g : Group) : option Group :=
  match once g with
  | SStopping i =>
      if i <? length (actors g) then
        Some (mkGroup (actors g) (started g) (cancelled g) (signals g) (watching g) (SStopping (S i))
                (stops g ++ [i]) (late g))
      else Some (mkGroup (actors g) (started g) (cancelled g) (signals g) (watching g) SWaiting (stops g) (late g))
  | SWaiting =>
      if decide (ARunning ∈ actors g) then None
      else Some (mkGroup (actors g) (started g) (cancelled g) (signals g) (watching g) SReturned (stops g) (late g))
  | _ => None
  end.

(** One step.  Actors are added before [Start], which is called once, as documented. *)
Inductive gstep : Group -> Group -> Prop :=
  | g_add g : started g = false -> once g = SIdle -> gstep g (Add g)
  | g_start g : started g = false -> gstep g (Start g)
  | g_exit i g : actors g !! i = Some ARunning -> gstep g (actor_exit i g)
  | g_watch g : watching g = true -> 0 < signals g -> gstep g (watch g)
  | g_stop g : gstep g (Stop g)
  | g_body g g' : stop_step g = Some g' -> gstep g g'.

(** What goes on without any user: the watcher, the body of [Stop], and an actor whose [stop]
    function has been called returns, as [Add] demands.  Nobody else calls [Stop]. *)
Inductive istep : Group -> Group -> Prop :=
  | i_exit i g : actors g !! i = Some ARunning -> i ∈ stops g -> istep g (actor_exit i g)
  | i_watch g : watching g = true -> 0 < signals g -> istep g (watch g)
  | i_body g g' : stop_step g = Some g' -> istep g g'.

(** ** [ClusterGroup] *)

(** The functions registered and, once started, the group that runs them. *)
Record ClusterGroup := mkClusterGroup {
  cg_group : option Group;
  cg_pending : list nat;
}.

Definition cg_Go (fn : nat) (c : ClusterGroup) : res ClusterGroup :=
  match cg_group c with
  | Some _ => Panic "up: ClusterGroup.Go called after Start"
  | None => Ok (mkClusterGroup None (cg_pending c ++ [fn]))
  end.

Definition cg_Start (c : ClusterGroup) : ClusterGroup :=
  match cg_group c, cg_pending c with
  | Some _, _ => c
  | None, [] => c
  | None, fns => mkClusterGroup (Some (Start (foldl (fun g _ => Add g) NewGroup fns))) []
  end.

Definition cg_Stop (c : ClusterGroup) : ClusterGroup :=
  match cg_group c with
  | None => c
  | Some g => mkClusterGroup (Some (Stop g)) (cg_pending c)
  end.

(** ** Invariant *)

(** The [stop] functions called so far, by the place [Stop] has reached. *)
Definition stops_of (n : nat) (o : stop_pc) : list nat :=
  match o with
  | SIdle => []
  | SStopping i => seq 0 i
  | SWaiting | SReturned => seq 0 n
  end.

Record group_ok (g : Group) : Prop := {
  gk_stops : stops g = stops_of (length (actors g)) (once g);
  gk_bound : match once g with SStopping i => i <= length (actors g) | _ => True end;
  gk_cancel : cancelled g = negb (match once g with SIdle => true | _ => false end);
  gk_new : started g = false -> forall a, a ∈ actors g -> a = ANew;
  gk_done : once g = SReturned -> late g = false -> ARunning ∉ actors g;
  gk_run : ARunning ∈ actors g -> once g <> SIdle \/ watching g = true;
  gk_exit : AExited ∈ actors g -> once g <> SIdle \/ (watching g = true /\ 0 < signals g);
}.

(** ** Theorems *)

Lemma Stop_idle g : once (Stop g) <> SIdle.
Proof. unfold Stop. by destruct (once g) eqn:E; rewrite ?E. Qed.

Lemma Stop_ok g :
  stops g = stops_of (length (actors g)) (once g) ->
  match once g with SStopping i => i <= length (actors g) | _ => True end ->
  cancelled g = negb (match once g with SIdle => true | _ => false end) ->
  (started g = false -> forall a, a ∈ actors g -> a = ANew) ->
  (once g = SReturned -> late g = false -> ARunning ∉ actors g) -> group_ok (Stop g).
Proof.
  intros H1 H2 H3 H4 H5. pose proof (Stop_idle g) as Hs. constructor; [..|by left|by left];
    unfold Stop; destruct (once g) eqn:Ho; cbn; rewrite ?Ho; try done; try lia.
Qed.

Lemma stop_step_ok g g' : group_ok g -> stop_step g = Some g' -> group_ok g'.
Proof.
  intros [H1 H2 H3 H4 H5 H6 H7] Hs. unfold stop_step in Hs. destruct (once g) as [|i| |] eqn:Ho; [done| | |done].
  - destruct (Nat.ltb_spec i (length (actors g))) as [Hi|Hi]; injection Hs as <-; constructor; cbn; try done; try by left.
    + rewrite H1. cbn. by rewrite <-seq_S.
    + rewrite H1. cbn in H2 |- *. f_equal. lia.
  - case_decide as Hr; [done|]. injection Hs as <-. by constructor; try done; left.
Qed.

Lemma actor_exit_ok i g : actors g !! i = Some ARunning -> group_ok g -> group_ok (actor_exit i g).
Proof.
  intros Hi [H1 H2 H3 H4 H5 H6 H7]. assert (ARunning ∈ actors g) as Hin by by eapply list_elem_of_lookup_2.
  assert (forall a, a ∈ <[i := AExited]> (actors g) -> a = AExited \/ a ∈ actors g) as Hins.
  { intros a [j Hj]%list_elem_of_lookup. rewrite list_lookup_insert in Hj.
    case_decide; [left; by injection Hj|right; by eapply list_elem_of_lookup_2]. }
  constructor; cbn; rewrite ?length_insert; try done.
  - intros Hn a Ha. exfalso. by assert (ARunning = ANew) by by apply (H4 Hn).
  - intros Hr Hl. by destruct (H5 Hr Hl).
  - intros [?|Hr]%Hins; [done|]. by apply H6.
  - intros _. destruct (H6 Hin); [by left|right]. split; [done|lia].
Qed.

Lemma gstep_ok g g' : gstep g g' -> group_ok g -> group_ok g'.
Proof.
  intros Hs Hok. destruct Hs as [g Hst Hid|g Hst|i g Hi|g Hw Hsig|g|g g' Hb].
  - destruct Hok as [H1 H2 H3 H4 H5 H6 H7].
    assert (forall a, a ∈ actors g ++ [ANew] -> a = ANew) as Hall.
    { intros a [Ha|Ha%list_elem_of_singleton]%elem_of_app; [by apply H4|done]. }
    constructor; cbn; rewrite ?Hid in *; try done; by intros ?%Hall.
  - unfold Start. case_decide as Hne; [done|]. destruct Hok as [H1 H2 H3 H4 H5 H6 H7].
    constructor; cbn; rewrite ?length_fmap; try done.
    + intros Hr. rewrite Hr. by rewrite orb_true_r.
    + by right.
    + by intros (? & ? & _)%list_elem_of_fmap.
  - by apply actor_exit_ok.
  - destruct Hok. by apply Stop_ok.
  - destruct Hok. by apply Stop_ok.
  - by eapply stop_step_ok.
Qed.

Lemma gsteps_ok g g' : rtc gstep g g' -> group_ok g -> group_ok g'.
Proof. induction 1; eauto using gstep_ok. Qed.

Lemma istep_gstep g g' : istep g g' -> gstep g g'.
Proof. destruct 1; [by apply g_exit|by apply g_watch|by apply g_body]. Qed.

(** How much a group has left to do by itself. *)
Definition work (g : Group) : nat :=
  length (base.filter (fun a => a = ARunning) (actors g)) + (if watching g then 1 else 0) +
  match once g with SIdle => length (actors g) + 3 | SStopping i => length (actors g) - i + 2 | SWaiting => 1 | SReturned => 0 end.

Lemma exit_work i g : actors g !! i = Some ARunning ->
  length (base.filter (fun a => a = ARunning) (actors (actor_exit i g))) <
  length (base.filter (fun a => a = ARunning) (actors g)).
Proof.
  intros Hi. cbn. apply take_drop_middle in Hi as Hmid.
  assert (i < length (actors g)) as Hlt by by eapply lookup_lt_Some.
  rewrite insert_take_drop by done. rewrite <-Hmid at 3.
  rewrite !filter_app, !filter_cons, decide_False, decide_True by done.
  rewrite !length_app. cbn. lia.
Qed.

Lemma istep_works g g' : istep g g' -> work g' < work g.
Proof.
  unfold work. destruct 1 as [i g Hi _|g Hw Hs|g g' Hb].
  - pose proof (exit_work i g Hi). cbn in *. rewrite length_insert. lia.
  - unfold watch, Stop. cbn. rewrite Hw. destruct (once g) eqn:Ho; cbn; rewrite ?Ho; lia.
  - unfold stop_step in Hb. destruct (once g) as [|i| |] eqn:Ho; [done| | |done].
    + destruct (Nat.ltb_spec i (length (actors g))); injection Hb as <-; cbn; lia.
    + case_decide; [done|]. injection Hb as <-. cbn. lia.
Qed.

Lemma istep_stops g : sn istep g.
Proof.
  remember (work g) as n eqn:Hn. revert g Hn. induction (lt_wf n) as [n _ IH]. intros g ->.
  constructor. intros g' Hg. eapply IH; [by apply istep_works|done].
Qed.

(** Where the group has nothing left to do, nobody asked it to stop or it has stopped. *)
Lemma idle_or_returned g :
  group_ok g -> (exists g', istep g g') \/ (once g = SIdle /\ AExited ∉ actors g) \/ once g = SReturned.
Proof.
  intros [H1 H2 H3 H4 H5 H6 H7]. destruct (once g) as [|i| |] eqn:Ho; [| | |by right; right].
  - destruct (decide (AExited ∈ actors g)) as [He|He]; [|by right; left].
    left. destruct (H7 He) as [?|[Hw Hs]]; [done|]. eexists. by apply i_watch.
  - left. destruct (i <? length (actors g)) eqn:Hi; eexists; apply i_body; unfold stop_step; by rewrite Ho, Hi.
  - left. destruct (decide (ARunning ∈ actors g)) as [Hr|Hr].
    + apply list_elem_of_lookup in Hr as [i Hi]. eexists. apply (i_exit i); [done|].
      rewrite H1. cbn. apply elem_of_seq. apply lookup_lt_Some in Hi. lia.
    + eexists. apply i_body. unfold stop_step. by rewrite Ho, decide_False.
Qed.

(** What asks a group to stop is not forgotten. *)
Definition must_stop (g : Group) : Prop := once g <> SIdle \/ AExited ∈ actors g.

Lemma istep_must_stop g g' : istep g g' -> must_stop g -> must_stop g'.
Proof.
  unfold must_stop. destruct 1 as [i g Hi _|g Hw Hs|g g' Hb].
  - intros _. right. cbn. eapply list_elem_of_lookup_2, list_lookup_insert_eq. by eapply lookup_lt_Some.
  - intros _. left. apply Stop_idle.
  - intros _. left. unfold stop_step in Hb. destruct (once g) as [|i| |]; [done| | |done].
    + by destruct (i <? length (actors g)); injection Hb as <-.
    + case_decide; [done|]. by injection Hb as <-.
Qed.

(** C25: a group stops as one.  In every reachable state of a group: when [Stop] has
    returned, and [Start] was not called after it, the context is cancelled, every [stop]
    function has been called exactly once, in registration order, and no actor runs.  And it
    does stop: what the group does by itself (the watcher, the body of [Stop], and actors that
    return once their [stop] function was called, without any further call of [Stop] by a
    user) comes to an end, and where it has ended, if an actor had returned, for whatever
    reason, or [Stop] had been called, then [Stop] has returned. *)
Theorem group_stops_as_one g :
  rtc gstep NewGroup g ->
  (once g = SReturned -> late g = false ->
     cancelled g = true /\ stops g = seq 0 (length (actors g)) /\ ARunning ∉ actors g) /\
  sn istep g /\
  forall g', rtc istep g g' -> (exists g'', istep g' g'') \/ (must_stop g -> once g' = SReturned).
Proof.
  intros Hr. assert (group_ok g) as Hok.
  { eapply gsteps_ok; [done|]. constructor; try done; [by intros _ a ?%not_elem_of_nil|by intros ?%not_elem_of_nil..]. }
  split_and!; [|apply istep_stops|].
  - intros Ho Hl. destruct Hok as [H1 H2 H3 H4 H5]. rewrite Ho in *. by split_and!; [..|apply H5].
  - intros g' Hi. assert (group_ok g' /\ (must_stop g -> must_stop g')) as [Hok' Hm].
    { clear Hr. induction Hi as [|g0 g1 g2 Hs _ IH]; [done|].
      destruct IH as [IH1 IH2]; [eapply gstep_ok; [by apply istep_gstep|done]|]. split; [done|].
      intros. by eapply IH2, istep_must_stop. }
    destruct (idle_or_returned g' Hok') as [?|[[H1 H2]|?]]; [by left| |by right].
    right. intros [?|?]%Hm; done.
Qed.

(** [Start] after [Stop] launches actors that no later [Stop] reaches. *)
Lemma start_after_stop_runs :
  exists g, rtc gstep NewGroup g /\ once g = SReturned /\ ARunning ∈ actors g /\ Stop g = g.
Proof.
  eexists. split_and!.
  - eapply rtc_l; [by apply g_add|]. eapply rtc_l; [apply g_stop|]. eapply rtc_l; [by apply g_body|].
    eapply rtc_l; [by apply g_body|]. eapply rtc_l; [by apply g_body|]. eapply rtc_l; [by apply g_start|].
    apply rtc_refl.
  - done.
  - cbn. left.
  - done.
Qed.

(** [ClusterGroup]: starting launches what was registered, once. *)
Lemma cg_start_launches fns :
  fns <> [] -> exists g, cg_Start (mkClusterGroup None fns) = mkClusterGroup (Some g) [] /\
    actors g = replicate (length fns) ARunning /\
    cg_Start (mkClusterGroup (Some g) []) = mkClusterGroup (Some g) [] /\
    forall fn, cg_Go fn (mkClusterGroup (Some g) []) = Panic "up: ClusterGroup.Go called after Start".
Proof.
  intros Hne. assert (forall g, actors (foldl (fun g _ => Add g) g fns) = actors g ++ replicate (length fns) ANew) as Ha.
  { clear. induction fns as [|f fns IH]; intros g; cbn; [by rewrite app_nil_r|].
    rewrite IH. cbn. by rewrite <-app_assoc. }
  destruct fns as [|f fns]; [done|]. eexists. split; [done|]. split; [|done].
  unfold Start. rewrite (Ha NewGroup). cbn [actors NewGroup app length replicate].
  rewrite decide_False by done. cbn [actors]. change (ANew :: replicate (length fns) ANew)
    with (replicate (length (f :: fns)) ANew). by rewrite fmap_replicate.
Qed.

(** ** Witness *)

Definition two_actors : Group := Start (Add (Add NewGroup)).

(** The first actor returns; the watcher stops the group, the second actor returns. *)
Definition stopped_group : Group :=
  mkGroup [AExited; AExited] true true 1 false SReturned [0; 1] false.

Lemma group_stops_as_one_witness :
  rtc istep (actor_exit 0 two_actors) stopped_group /\ once stopped_group = SReturned /\
  sn istep (actor_exit 0 two_actors).
Proof.
  assert (Hi : rtc istep (actor_exit 0 two_actors) stopped_group).
  { eapply rtc_l; [apply i_watch; [reflexivity|simpl; lia]|]. eapply rtc_l; [apply i_body; reflexivity|].
    eapply rtc_l; [apply i_body; reflexivity|]. eapply rtc_l; [apply (i_exit 1); [reflexivity|cbn; set_solver]|].
    eapply rtc_l; [apply i_body; reflexivity|]. eapply rtc_l; [apply i_body; reflexivity|]. apply rtc_refl. }
  destruct (group_stops_as_one (actor_exit 0 two_actors)) as (_ & Hs & H).
  - eapply rtc_l; [apply g_add; reflexivity|]. eapply rtc_l; [apply g_add; reflexivity|].
    eapply rtc_l; [apply g_start; reflexivity|]. eapply rtc_l; [apply (g_exit 0); reflexivity|].
    apply rtc_refl.
  - split; [exact Hi|]. split; [|exact Hs]. destruct (H stopped_group Hi) as [[g' Hg]|Hd].
    + reflexivity.
    + apply Hd. right. cbn. set_solver.
Defined.
