(* ===== verification/Registry.v ===== *)
(** * up/up.go, up/filter.go, down/access_logger.go: registration and configuration

    [Register] records a filter with its options; Envoy then creates a filter factory per
    configuration it loads, which starts the filter's background group, and destroys it when
    the configuration is gone.  The configuration a stream's filter runs with
    ([filterConfig], FilterState.v) is what a factory holds. *)
From stdpp Require Import base list gmap strings sets relations.
From Stdlib Require Import ZArith Lia.
From S2P Require Import Prelude Async StreamObject Envoy Grpc FilterState Filter Group.

(** [configFactory]; a group is named by its number, log attributes are omitted. *)
Record configFactory := mkFactory {
  cf_name : string;
  configFn : option (bytes -> option string);
  cf_handler : Request -> prog;
  cf_responseHandler : option (ResponseChunk -> prog);
  cf_requestBodyHandler : option (BodyChunk -> prog);
  cf_onStreamComplete : option (any -> any);
  cf_onStreamFinalized : option (any -> FinalizedInfo -> any);
  cf_bufferBody : bool;
  cf_mutableRequestBody : bool;
  cf_group : option nat;
}.

(** [FilterOption]. *)
Abbreviation FilterOption := (configFactory -> configFactory).

Definition WithConfig (fn : bytes -> option string) : FilterOption := fun cf =>
  mkFactory (cf_name cf) (Some fn) (cf_handler cf) (cf_responseHandler cf) (cf_requestBodyHandler cf)
    (cf_onStreamComplete cf) (cf_onStreamFinalized cf) (cf_bufferBody cf) (cf_mutableRequestBody cf) (cf_group cf).

Definition WithResponse (r : ResponseChunk -> prog) : FilterOption := fun cf =>
  mkFactory (cf_name cf) (configFn cf) (cf_handler cf) (Some r) (cf_requestBodyHandler cf)
    (cf_onStreamComplete cf) (cf_onStreamFinalized cf) (cf_bufferBody cf) (cf_mutableRequestBody cf) (cf_group cf).

(** The three body modes. *)
Definition with_body (rb : BodyChunk -> prog) (buffer mutable : bool) : FilterOption := fun cf =>
  mkFactory (cf_name cf) (configFn cf) (cf_handler cf) (cf_responseHandler cf) (Some rb)
    (cf_onStreamComplete cf) (cf_onStreamFinalized cf) buffer mutable (cf_group cf).
Definition WithStreamingBody (rb : BodyChunk -> prog) : FilterOption := with_body rb false false.
Definition WithBody (rb : BodyChunk -> prog) : FilterOption := with_body rb true false.
Definition WithMutableBody (rb : BodyChunk -> prog) : FilterOption := with_body rb true true.

Definition WithGroup (g : nat) : FilterOption := fun cf =>
  mkFactory (cf_name cf) (configFn cf) (cf_handler cf) (cf_responseHandler cf) (cf_requestBodyHandler cf)
    (cf_onStreamComplete cf) (cf_onStreamFinalized cf) (cf_bufferBody cf) (cf_mutableRequestBody cf) (Some g).

Definition WithOnStreamComplete (fn : any -> any) : FilterOption := fun cf =>
  mkFactory (cf_name cf) (configFn cf) (cf_handler cf) (cf_responseHandler cf) (cf_requestBodyHandler cf)
    (Some fn) (cf_onStreamFinalized cf) (cf_bufferBody cf) (cf_mutableRequestBody cf) (cf_group cf).

Definition WithOnStreamFinalized (fn : any -> FinalizedInfo -> any) : FilterOption := fun cf =>
  mkFactory (cf_name cf) (configFn cf) (cf_handler cf) (cf_responseHandler cf) (cf_requestBodyHandler cf)
    (cf_onStreamComplete cf) (Some fn) (cf_bufferBody cf) (cf_mutableRequestBody cf) (cf_group cf).

(** [applyFilterOptions]: nil options are skipped. *)
Definition applyFilterOptions (opts : list (option FilterOption)) (cf : configFactory) : configFactory :=
  foldl (fun cf o => match o with Some o => o cf | None => cf end) cf opts.

(** [Chain(h, mw...)]: the loop from the last middleware to the first. *)
Definition Chain (h : Request -> prog) (mw : list ((Request -> prog) -> Request -> prog)) : Request -> prog :=
  foldl (fun h m => m h) h (rev mw).

(** ** Registries *)

(** The filters of up and of the SDK, and the access loggers of down. *)
Record registries := mkRegistries {
  registry : gmap string configFactory;
  accessLoggerRegistry : gset string;
}.

(** [down.RegisterAccessLoggerConfigFactory(name, f)]; which factory it is does not matter
    here. *)
Definition RegisterAccessLoggerConfigFactory (n : string) (r : registries) : res registries :=
  if decide (n ∈ accessLoggerRegistry r) then Panic ("down: access logger already registered: " +:+ n)
  else Ok (mkRegistries (registry r) ({[n]} ∪ accessLoggerRegistry r)).

(** [Register(name, h, opts...)]. *)
Definition Register_ (n : string) (h : Request -> prog) (opts : list (option FilterOption)) (r : registries) :
    res registries :=
  match registry r !! n with
  | Some _ => Panic ("up: filter already registered: " +:+ n)
  | None =>
      let cf := applyFilterOptions opts (mkFactory n None h None None None None false false None) in
      let r := mkRegistries (<[n := cf]> (registry r)) (accessLoggerRegistry r) in
      match cf_onStreamFinalized cf with
      | Some _ => RegisterAccessLoggerConfigFactory n r
      | None => Ok r
      end
  end.

(** ** Factories *)

(** [filterFactory]: the configuration of its filters, and the group [OnDestroy] stops. *)
Record filterFactory := mkFilterFactory {
  ff_config : filterConfig;
  ff_stop : option nat;
}.

(** [configFactory.Create]: an error of the user's configuration function, or the factory;
    the groups are shared by every factory created from the registration. *)
Definition Create (cf : configFactory) (raw : bytes) (groups : gmap nat Group) :
    (string + filterFactory) * gmap nat Group :=
  match (fn ← configFn cf; fn raw) with
  | Some err => (inl err, groups)
  | None =>
      (inr (mkFilterFactory
              (mkConfig (cf_name cf) (cf_handler cf) (cf_responseHandler cf) (cf_requestBodyHandler cf)
                 (cf_onStreamComplete cf) (cf_onStreamFinalized cf) (cf_bufferBody cf) (cf_mutableRequestBody cf))
              (cf_group cf)),
       match cf_group cf with Some g => alter Start g groups | None => groups end)
  end.

(** [filterFactory.OnDestroy]. *)
Definition OnDestroy (ff : filterFactory) (groups : gmap nat Group) : gmap nat Group :=
  match ff_stop ff with Some g => alter Stop g groups | None => groups end.

(** ** Facts *)

(** Middleware wraps in the order written: the first is the outermost. *)
Lemma Chain_cons h m mw : Chain h (m :: mw) = m (Chain h mw).
Proof. unfold Chain. cbn [rev]. by rewrite foldl_app. Qed.

(** The body option given last decides the body mode. *)
Lemma last_body_option opts rb buffer mutable cf :
  let cf' := applyFilterOptions (opts ++ [Some (with_body rb buffer mutable)]) cf in
  cf_requestBodyHandler cf' = Some rb /\ cf_bufferBody cf' = buffer /\ cf_mutableRequestBody cf' = mutable.
Proof. unfold applyFilterOptions. cbn zeta. by rewrite foldl_app. Qed.

(** A name is registered once; a filter with a finalized callback also takes the access
    logger's name. *)
Lemma register_once n h opts r r' :
  Register_ n h opts r = Ok r' ->
  registry r !! n = None /\ is_Some (registry r' !! n) /\
  (forall h' opts', Register_ n h' opts' r' = Panic ("up: filter already registered: " +:+ n)) /\
  match cf_onStreamFinalized (applyFilterOptions opts (mkFactory n None h None None None None false false None)) with
  | Some _ => RegisterAccessLoggerConfigFactory n r' = Panic ("down: access logger already registered: " +:+ n)
  | None => accessLoggerRegistry r' = accessLoggerRegistry r
  end.
Proof.
  unfold Register_. destruct (registry r !! n) eqn:Hn; [done|]. cbn zeta.
  set (cf := applyFilterOptions opts _). intros Hr. split; [done|].
  assert (registry r' = <[n := cf]> (registry r) /\
    match cf_onStreamFinalized cf with
    | Some _ => n ∈ accessLoggerRegistry r'
    | None => accessLoggerRegistry r' = accessLoggerRegistry r
    end) as [Hreg Hlog].
  { destruct (cf_onStreamFinalized cf); [|by injection Hr as <-].
    unfold RegisterAccessLoggerConfigFactory in Hr. case_decide; [done|]. injection Hr as <-. cbn. set_solver. }
  rewrite Hreg, lookup_insert_eq. split_and!; [done|done|].
  destruct (cf_onStreamFinalized cf); [|done]. unfold RegisterAccessLoggerConfigFactory.
  by rewrite decide_True.
Qed.

(** Two configurations loaded from one registration share the group: destroying the older
    one stops the group the newer one still uses. *)
Theorem config_reload_stops_shared_group cf g grp raw1 raw2 :
  configFn cf = None -> cf_group cf = Some g -> once grp = SIdle ->
  exists f1 f2 groups1 groups2,
    Create cf raw1 {[g := grp]} = (inr f1, groups1) /\ Create cf raw2 groups1 = (inr f2, groups2) /\
    exists grp', OnDestroy f1 groups2 !! g = Some grp' /\ cancelled grp' = true /\ once grp' = SStopping 0.
Proof.
  intros Hc Hg Ho. unfold Create. rewrite Hc, Hg. cbn. eexists _, _, _, _. split; [done|]. split; [done|].
  cbn. rewrite !lookup_alter_eq, lookup_singleton_eq. cbn. eexists. split; [done|].
  assert (forall x, once x = SIdle -> once (Start x) = SIdle) as Hs.
  { intros x Hx. unfold Start. by case_decide. }
  assert (once (Start (Start grp)) = SIdle) as Hi by by apply Hs, Hs.
  unfold Stop. by rewrite Hi.
Qed.
