(* ===== verification/ResponseFlags.v ===== *)
(** * down/response_flags.go: the response flags of an access log entry

    The bitmask Envoy reports as the short names of the access log format.  Decoding the
    names gives the mask back, so no flag is lost, invented or ambiguous. *)
From stdpp Require Import base list strings.
From Stdlib Require Import ZArith Ascii Lia.
From S2P Require Import Prelude.

(** [responseFlagNames]. *)
Definition responseFlagNames : list string :=
  ["LH"; "UH"; "UT"; "LR"; "UR"; "UF"; "UC"; "UO"; "NR"; "DI"; "FI"; "RL"; "UAEX"; "RLSE"; "DC";
   "URX"; "SI"; "IH"; "DPE"; "UMSDR"; "RFCF"; "NFCF"; "DT"; "UPE"; "NC"; "OM"].

(** [strconv.FormatUint(z, 16)]; sixteen digits are enough for a [uint64]. *)
Definition hexdigit (z : Z) : string :=
  String (ascii_of_N (Z.to_N (if (z <? 10)%Z then 48 + z else 87 + z))%Z) "".
Fixpoint FormatUint16 (fuel : nat) (z : Z) : string :=
  match fuel with
  | O => ""
  | S n => if (z <? 16)%Z then hexdigit z else FormatUint16 n (z / 16) +:+ hexdigit (z mod 16)
  end.

(** The name of bit [i]. *)
Definition flag_name (i : nat) : string :=
  match responseFlagNames !! i with
  | Some n => n
  | None => "0x" +:+ FormatUint16 16 (Z.shiftl 1 (Z.of_nat i))
  end.

(** The two loops: the bits of the mask that are set, by name. *)
Definition flag_list (mask : Z) : list string :=
  omap (fun i => if negb (Z.land mask (Z.shiftl 1 (Z.of_nat i)) =? 0)%Z then Some (flag_name i) else None)
    (seq 0 64).

(** [strings.Join(out, ",")]. *)
Fixpoint join (sep : string) (l : list string) : string :=
  match l with
  | [] => ""
  | [x] => x
  | x :: l => x +:+ sep +:+ join sep l
  end.

(** [ResponseFlagsString(mask)]. *)
Definition ResponseFlagsString (mask : Z) : string :=
  if (mask =? 0)%Z then "" else join "," (flag_list mask).

(** ** Decoding *)

(** The bit a name stands for. *)
Definition name_bit (n : string) : option nat :=
  fst <$> list_find (fun i => flag_name i = n) (seq 0 64).

(** The mask a list of names stands for. *)
Definition names_mask (l : list string) : Z :=
  foldr (fun n m => match name_bit n with Some i => Z.lor (Z.shiftl 1 (Z.of_nat i)) m | None => m end) 0%Z l.

(** Split at commas. *)
Fixpoint split_commas (s : string) : list string :=
  match s with
  | EmptyString => [""]
  | String a s =>
      if bool_decide (a = ","%char) then "" :: split_commas s
      else match split_commas s with
           | x :: l => String a x :: l
           | [] => [String a ""]
           end
  end.

(** ** Theorems *)

Fixpoint no_comma (s : string) : bool :=
  match s with EmptyString => true | String a s => negb (bool_decide (a = ","%char)) && no_comma s end.

(** The 64 names are told apart and have no comma. *)
Lemma names_distinct : forallb (fun i => bool_decide (name_bit (flag_name i) = Some i)) (seq 0 64) = true.
Proof. vm_compute. reflexivity. Qed.

Lemma names_no_comma :
  forallb (fun i => no_comma (flag_name i) && negb (bool_decide (flag_name i = ""))) (seq 0 64) = true.
Proof. vm_compute. reflexivity. Qed.

Lemma split_app s t : no_comma s = true -> split_commas (s +:+ "," +:+ t) = s :: split_commas t.
Proof.
  induction s as [|a s IH]; intros Hs; [done|]. cbn in Hs. apply andb_true_iff in Hs as [Ha Hs].
  change (split_commas (String a (s +:+ "," +:+ t)) = String a s :: split_commas t). cbn [split_commas].
  destruct (bool_decide (a = ","%char)); [done|]. by rewrite (IH Hs).
Qed.

Lemma split_one s : no_comma s = true -> split_commas s = [s].
Proof.
  induction s as [|a s IH]; intros Hs; [done|]. cbn in Hs. apply andb_true_iff in Hs as [Ha Hs]. cbn.
  destruct (bool_decide (a = ","%char)); [done|]. by rewrite (IH Hs).
Qed.

Lemma split_join l : l <> [] -> (forall s, s ∈ l -> no_comma s = true) -> split_commas (join "," l) = l.
Proof.
  induction l as [|x l IH]; intros Hne Hl; [done|]. destruct l as [|y l].
  - apply split_one, Hl. left.
  - change (join "," (x :: y :: l)) with (x +:+ "," +:+ join "," (y :: l)).
    rewrite split_app by (apply Hl; left). f_equal. apply IH; [done|]. intros s Hs. apply Hl. by right.
Qed.

Lemma bit_set mask i : negb (Z.land mask (Z.shiftl 1 (Z.of_nat i)) =? 0)%Z = Z.testbit mask (Z.of_nat i).
Proof.
  destruct (Z.testbit mask (Z.of_nat i)) eqn:Hb.
  - apply negb_true_iff, Z.eqb_neq. intros H0.
    assert (Z.testbit (Z.land mask (Z.shiftl 1 (Z.of_nat i))) (Z.of_nat i) = true) as Ht.
    { rewrite Z.land_spec, Hb, Z.shiftl_spec, Z.sub_diag by lia. done. }
    rewrite H0, Z.bits_0 in Ht. done.
  - apply negb_false_iff, Z.eqb_eq. apply Z.bits_inj'. intros j Hj. rewrite Z.land_spec, Z.bits_0.
    rewrite Z.shiftl_1_l. destruct (Z.eq_dec j (Z.of_nat i)) as [->|Hne]; [by rewrite Hb|].
    rewrite Z.pow2_bits_false by lia. apply andb_false_r.
Qed.

(** The bits of the decoded mask are the bits that were listed. *)
Lemma names_mask_bits mask l j :
  (forall i, i ∈ l -> i < 64) -> (0 <= j)%Z ->
  Z.testbit (names_mask (omap (fun i => if negb (Z.land mask (Z.shiftl 1 (Z.of_nat i)) =? 0)%Z
                                        then Some (flag_name i) else None) l)) j =
  Z.testbit mask j && bool_decide (Z.to_nat j ∈ l).
Proof.
  intros Hl Hj. induction l as [|i l IH].
  { cbn. rewrite Z.bits_0, bool_decide_false by (by apply not_elem_of_nil). by rewrite andb_false_r. }
  assert (i < 64) as Hi by (apply Hl; left). assert (forall i, i ∈ l -> i < 64) as Hl' by (intros; apply Hl; by right).
  specialize (IH Hl'). cbn [omap list_omap]. rewrite bit_set in *.
  assert (bool_decide (Z.to_nat j ∈ i :: l) = bool_decide (Z.to_nat j = i) || bool_decide (Z.to_nat j ∈ l)) as ->.
  { rewrite <-bool_decide_or. apply bool_decide_ext. apply elem_of_cons. }
  destruct (Z.testbit mask (Z.of_nat i)) eqn:Hb.
  - cbn [names_mask foldr]. fold (names_mask (omap (fun i => if negb (Z.land mask (Z.shiftl 1 (Z.of_nat i)) =? 0)%Z
                                        then Some (flag_name i) else None) l)).
    assert (name_bit (flag_name i) = Some i) as ->.
    { pose proof names_distinct as Hn. rewrite forallb_forall in Hn.
      specialize (Hn i). rewrite bool_decide_eq_true in Hn. apply Hn, in_seq. lia. }
    rewrite Z.lor_spec, Z.shiftl_1_l. unfold omap, list_omap in IH |- *. rewrite IH.
    destruct (Z.eq_dec j (Z.of_nat i)) as [->|Hne].
    + rewrite Z.pow2_bits_true, Hb, Nat2Z.id, (bool_decide_true (i = i)) by (done || lia). done.
    + rewrite Z.pow2_bits_false by lia. rewrite (bool_decide_false (Z.to_nat j = i)) by lia. done.
  - rewrite IH. destruct (Z.eq_dec j (Z.of_nat i)) as [->|Hne]; [by rewrite Hb|].
    by rewrite (bool_decide_false (Z.to_nat j = i)) by lia.
Qed.

Lemma flag_list_mask mask : (0 <= mask < 2 ^ 64)%Z -> names_mask (flag_list mask) = mask.
Proof.
  intros Hm. apply Z.bits_inj'. intros j Hj. unfold flag_list. generalize (eq_refl (seq 0 64)).
  generalize (seq 0 64) at 1 3. intros l Hl.
  rewrite names_mask_bits; [|intros i; rewrite Hl, elem_of_seq; lia|done].
  destruct (Z.testbit mask j) eqn:Hb; [|done]. rewrite bool_decide_true; [done|]. rewrite Hl. apply elem_of_seq.
  enough (j < 64)%Z by lia. apply Znot_ge_lt. intros Hge.
  destruct (Z.eq_dec mask 0) as [->|]; [by rewrite Z.bits_0 in Hb|].
  rewrite Z.bits_above_log2 in Hb; [done|lia|].
  apply Z.log2_lt_pow2; [lia|]. apply (Z.lt_le_trans _ (2 ^ 64)); [lia|]. apply Z.pow_le_mono_r; lia.
Qed.

Lemma flag_list_no_comma mask s : s ∈ flag_list mask -> no_comma s = true.
Proof.
  unfold flag_list. pose proof names_no_comma as Hn. revert Hn. generalize (seq 0 64). intros l Hn.
  rewrite list_elem_of_omap. intros (i & Hi & Hs). destruct (negb _); [|done]. injection Hs as <-.
  rewrite forallb_forall in Hn. apply list_elem_of_In, Hn, andb_true_iff in Hi as [? _]. done.
Qed.

(** The printed flags decode to the mask: the string says exactly which flags are set. *)
Lemma flags_roundtrip mask :
  (0 < mask < 2 ^ 64)%Z -> names_mask (split_commas (ResponseFlagsString mask)) = mask.
Proof.
  intros Hm. unfold ResponseFlagsString. destruct (Z.eqb_spec mask 0); [lia|].
  pose proof (flag_list_mask mask) as Hmask. pose proof (flag_list_no_comma mask) as Hc.
  revert Hmask Hc. generalize (flag_list mask). intros l Hmask Hc.
  rewrite split_join; [apply Hmask; lia| |done]. intros ->. cbn in Hmask. lia.
Qed.

Lemma flags_example : ResponseFlagsString (2 ^ 5 + 2 ^ 2) = "UT,UF" /\ ResponseFlagsString (2 ^ 27) = "0x8000000".
Proof. split; vm_compute; reflexivity. Qed.
