(* ===== verification/Compress.v ===== *)
(** * Compress: content encodings (up/compress/compress.go)

    The dispatch of [Decode] and [Encode] on the Content-Encoding header, the error each
    stage of a codec wraps, and the check of an Accept-Encoding header.  The codecs are
    libraries: a [Codec] is what the code calls of one of them. *)
From stdpp Require Import base list strings gmap sets.
From Stdlib Require Import ZArith Lia Ascii.
From S2P Require Import Prelude GoStrings.

(** ** The codecs *)

(** An error of a codec library. *)
Abbreviation lib_error := string.

(** The calls [NewReader], [io.ReadAll], [NewWriter], [Write] and [Close] of one library.
    [RE] and [WE] are the errors of the two constructors, [Empty_set] where the library's
    constructor returns no error. *)
Record Codec (RE WE : Type) := mkCodec {
  reader : Type;
  NewReader : bytes -> RE + reader;
  ReadAll : reader -> lib_error + bytes;
  writer : Type;
  NewWriter : WE + writer;
  Write : writer -> bytes -> lib_error + writer;
  CloseW : writer -> lib_error + bytes;
}.
Arguments mkCodec {RE WE}.
Arguments reader {RE WE}.
Arguments NewReader {RE WE}.
Arguments ReadAll {RE WE}.
Arguments writer {RE WE}.
Arguments NewWriter {RE WE}.
Arguments Write {RE WE}.
Arguments CloseW {RE WE}.

Record Codecs := mkCodecs {
  gzip : Codec lib_error Empty_set;
  zlib : Codec lib_error Empty_set;
  brotli : Codec Empty_set Empty_set;
  zstd : Codec lib_error lib_error;
}.

(** A constructor without an error result. *)
Definition infallible {A} (r : Empty_set + A) : A :=
  match r with
  | inl e => match e with end
  | inr a => a
  end.

(** The errors of the package: [fmt.Errorf] with the stage that failed, or the header value
    that is not supported. *)
Inductive cerror :=
  | Stage (stage : string) (e : lib_error)
  | Unsupported (encoding : string).

Definition stage_err {A} (stage : string) (r : lib_error + A) : cerror + A :=
  match r with
  | inl e => inl (Stage stage e)
  | inr a => inr a
  end.

#[export] Instance cres_bind : MBind (sum cerror) := fun A B f m =>
  match m with
  | inl e => inl e
  | inr a => f a
  end.

Section codecs.
Context (C : Codecs).

Definition decodeGzip (data : bytes) : cerror + bytes :=
  r ← stage_err "compress: gzip reader" (NewReader (gzip C) data);
  stage_err "compress: gzip read" (ReadAll (gzip C) r).

Definition encodeGzip (data : bytes) : cerror + bytes :=
  let w := infallible (NewWriter (gzip C)) in
  w ← stage_err "compress: gzip write" (Write (gzip C) w data);
  stage_err "compress: gzip close" (CloseW (gzip C) w).

Definition decodeDeflate (data : bytes) : cerror + bytes :=
  r ← stage_err "compress: deflate reader" (NewReader (zlib C) data);
  stage_err "compress: deflate read" (ReadAll (zlib C) r).

Definition encodeDeflate (data : bytes) : cerror + bytes :=
  let w := infallible (NewWriter (zlib C)) in
  w ← stage_err "compress: deflate write" (Write (zlib C) w data);
  stage_err "compress: deflate close" (CloseW (zlib C) w).

Definition decodeBrotli (data : bytes) : cerror + bytes :=
  let r := infallible (NewReader (brotli C) data) in
  stage_err "compress: brotli read" (ReadAll (brotli C) r).

Definition encodeBrotli (data : bytes) : cerror + bytes :=
  let w := infallible (NewWriter (brotli C)) in
  w ← stage_err "compress: brotli write" (Write (brotli C) w data);
  stage_err "compress: brotli close" (CloseW (brotli C) w).

Definition decodeZstd (data : bytes) : cerror + bytes :=
  r ← stage_err "compress: zstd reader" (NewReader (zstd C) data);
  stage_err "compress: zstd read" (ReadAll (zstd C) r).

Definition encodeZstd (data : bytes) : cerror + bytes :=
  w ← stage_err "compress: zstd writer" (NewWriter (zstd C));
  w ← stage_err "compress: zstd write" (Write (zstd C) w data);
  stage_err "compress: zstd close" (CloseW (zstd C) w).

Context `{U : GoUnicode}.

Definition Decode (encoding : string) (data : bytes) : cerror + bytes :=
  let enc := ToLower (TrimSpace encoding) in
  if decide (enc = "" \/ enc = "identity") then inr data
  else if decide (enc = "gzip") then decodeGzip data
  else if decide (enc = "deflate") then decodeDeflate data
  else if decide (enc = "br") then decodeBrotli data
  else if decide (enc = "zstd") then decodeZstd data
  else inl (Unsupported encoding).

Definition Encode (encoding : string) (data : bytes) : cerror + bytes :=
  let enc := ToLower (TrimSpace encoding) in
  if decide (enc = "" \/ enc = "identity") then inr data
  else if decide (enc = "gzip") then encodeGzip data
  else if decide (enc = "deflate") then encodeDeflate data
  else if decide (enc = "br") then encodeBrotli data
  else if decide (enc = "zstd") then encodeZstd data
  else inl (Unsupported encoding).

(** [supportedEncodings], a map from names to [true]. *)
Definition supportedEncodings : gset string :=
  {[ ""; "identity"; "gzip"; "deflate"; "br"; "zstd" ]}.

(** The name that one comma-separated part of an Accept-Encoding header gives. *)
Definition accept_token (part : string) : string :=
  let '(enc, _, _) := Cut (TrimSpace part) ";" in ToLower (TrimSpace enc).

Definition AcceptEncodingAllSupported (acceptEncoding : string) : bool :=
  if decide (acceptEncoding = "") then true
  else forallb (fun part =>
         let enc := accept_token part in
         negb (bool_decide (enc = "*")) && bool_decide (enc ∈ supportedEncodings))
         (Split acceptEncoding ",").

(** ** Facts *)

(** The round trip each library documents: what its writer wrote, its reader reads. *)
Definition codec_ok {RE WE} (c : Codec RE WE) : Prop :=
  forall data, exists w w' out r,
    NewWriter c = inr w /\ Write c w data = inr w' /\ CloseW c w' = inr out /\
    NewReader c out = inr r /\ ReadAll c r = inr data.

Definition codecs_ok : Prop :=
  codec_ok (gzip C) /\ codec_ok (zlib C) /\ codec_ok (brotli C) /\ codec_ok (zstd C).

(** One codec undoes what it did. *)
Ltac codec_trip Hc data :=
  destruct (Hc data) as (w & w' & out & r & E1 & E2 & E3 & E4 & E5);
  exists out; rewrite E1; cbn; rewrite E2; cbn; rewrite E3; cbn;
  rewrite E4; cbn; rewrite E5; done.

Lemma gzip_trip data : codec_ok (gzip C) ->
  exists out, encodeGzip data = inr out /\ decodeGzip out = inr data.
Proof. intros Hc. unfold encodeGzip, decodeGzip. codec_trip Hc data. Qed.

Lemma deflate_trip data : codec_ok (zlib C) ->
  exists out, encodeDeflate data = inr out /\ decodeDeflate out = inr data.
Proof. intros Hc. unfold encodeDeflate, decodeDeflate. codec_trip Hc data. Qed.

Lemma brotli_trip data : codec_ok (brotli C) ->
  exists out, encodeBrotli data = inr out /\ decodeBrotli out = inr data.
Proof. intros Hc. unfold encodeBrotli, decodeBrotli. codec_trip Hc data. Qed.

Lemma zstd_trip data : codec_ok (zstd C) ->
  exists out, encodeZstd data = inr out /\ decodeZstd out = inr data.
Proof. intros Hc. unfold encodeZstd, decodeZstd. codec_trip Hc data. Qed.

(** [Decode] rejects an encoding exactly when its normalised name is not in the table. *)
Lemma Decode_unsupported encoding e data :
  Decode encoding data = inl (Unsupported e) <->
  e = encoding /\ ToLower (TrimSpace encoding) ∉ supportedEncodings.
Proof.
  assert (Hs : forall A s (r : lib_error + A) x, stage_err s r <> inl (Unsupported x))
    by (by intros A s []).
  unfold Decode, supportedEncodings, decodeGzip, decodeDeflate, decodeBrotli, decodeZstd,
    mbind, cres_bind.
  split.
  - repeat case_decide; intros Heq; repeat case_match; simplify_eq; try done;
      try (by apply Hs in Heq); set_solver.
  - intros [-> Hn]. repeat case_decide; set_solver.
Qed.

(** The coding that one part of an Accept-Encoding header names, without its parameters. *)
Definition part_coding (part : string) : string :=
  TrimSpace (Cut (TrimSpace part) ";").1.1.

Lemma accept_token_coding part :
  accept_token part = ToLower (TrimSpace (part_coding part)).
Proof.
  unfold accept_token, part_coding. destruct (Cut _ _) as [[enc ?] ?].
  by rewrite TrimSpace_idem.
Qed.
End codecs.

(** ** Theorems *)

(** For every name the table of supported encodings holds, in whatever case and with
    whatever white space around it the two headers spell it, [Encode] succeeds and
    [Decode] gives the data back. *)
Theorem content_encoding_roundtrip (C : Codecs) `{U : GoUnicode} e e' data :
  codecs_ok C ->
  ToLower (TrimSpace e) ∈ supportedEncodings ->
  ToLower (TrimSpace e') = ToLower (TrimSpace e) ->
  exists out, Encode C e data = inr out /\ Decode C e' out = inr data.
Proof.
  intros (Hg & Hd & Hb & Hz) Hin Heq. unfold Encode, Decode, supportedEncodings in *.
  rewrite Heq. repeat case_decide; eauto using gzip_trip, deflate_trip, brotli_trip, zstd_trip.
  set_solver.
Qed.

(** [AcceptEncodingAllSupported] accepts a header exactly when [Decode] refuses none of
    the codings the header's parts name, whatever data arrives: a response in one of them is
    decoded or fails in its codec, never as unsupported. *)
Theorem accept_encoding_exact (C : Codecs) `{U : GoUnicode} header :
  AcceptEncodingAllSupported header = true <->
  Forall (fun part => forall data e, Decode C (part_coding part) data <> inl (Unsupported e))
         (Split header ",").
Proof.
  assert (Hpart : forall part,
    (forall data e, Decode C (part_coding part) data <> inl (Unsupported e)) <->
    accept_token part ∈ supportedEncodings).
  { intros part. rewrite accept_token_coding. split.
    - intros Hd. destruct (decide (ToLower (TrimSpace (part_coding part)) ∈ supportedEncodings))
        as [|Hn]; [done|]. exfalso.
      by apply (Hd [] (part_coding part)), Decode_unsupported.
    - intros Hin data e [_ Hn]%Decode_unsupported. done. }
  unfold AcceptEncodingAllSupported. case_decide as Hh.
  - subst. split; [|done]. intros _. apply Forall_singleton, Hpart.
    by apply (bool_decide_unpack _).
  - rewrite forallb_forall, Forall_forall. setoid_rewrite Hpart.
    setoid_rewrite andb_true_iff. setoid_rewrite bool_decide_eq_true.
    setoid_rewrite negb_true_iff. setoid_rewrite bool_decide_eq_false.
    setoid_rewrite <- list_elem_of_In.
    split; intros Hall part Hp; specialize (Hall part Hp); [by destruct Hall|].
    split; [|done]. intros Hs. rewrite Hs in Hall.
    by apply (bool_decide_pack _) in Hall.
Qed.

(** ** A concrete instance *)

(** A codec that frames its data with a magic byte. *)
Definition toy_codec (magic : Byte.byte) {RE WE} (err : bytes -> RE + bytes) : Codec RE WE :=
  mkCodec bytes err (fun r => inr r) bytes (inr []) (fun w d => inr (w ++ d))
          (fun w => inr (magic :: w)).

Definition unframe (magic : Byte.byte) (d : bytes) : lib_error + bytes :=
  match d with
  | b :: d' => if decide (b = magic) then inr d' else inl "bad header"
  | [] => inl "unexpected EOF"
  end.

Definition toy_codecs : Codecs :=
  mkCodecs (toy_codec "001" (unframe "001")) (toy_codec "002" (unframe "002"))
           (toy_codec "003" (fun d => inr (drop 1 d))) (toy_codec "004" (unframe "004")).

Lemma toy_codecs_ok : codecs_ok toy_codecs.
Proof. repeat split; intros data; by exists [], data; eexists _, _. Qed.

Definition toy_unicode : GoUnicode := fun s => s.

Lemma content_encoding_roundtrip_witness :
  exists out, Encode (U := toy_unicode) toy_codecs " GZip " ["065"; "066"]%byte = inr out /\
              Decode (U := toy_unicode) toy_codecs "gzip" out = inr ["065"; "066"]%byte.
Proof.
  apply (content_encoding_roundtrip toy_codecs (U := toy_unicode)).
  - exact toy_codecs_ok.
  - by apply (bool_decide_unpack _).
  - reflexivity.
Defined.
