(* ===== verification/McpSession.v ===== *)
(** * McpSession: composite MCP sessions (examples/mcp-profile-router/session.go)

    The router hands its client one session identifier that carries the session of every
    backend: the backends in key order, each session in base64.  The file models the codec
    with the base64 of the standard library, and proves the round trip. *)
From stdpp Require Import base list strings gmap sets sorting pretty.
From Stdlib Require Import ZArith Lia Ascii.
From S2P Require Import Prelude GoStrings.

(** ** base64.StdEncoding *)

Module Base64.

Definition alphabet : chars :=
  to_chars "ABCDEFGHIJKLMNOPQRSTUVWXYZabcdefghijklmnopqrstuvwxyz0123456789+/".

Definition enc_digit (n : N) : ascii := nth (N.to_nat n) alphabet "A"%char.

Definition dec_digit (c : ascii) : option N :=
  N.of_nat <$> index_chars c alphabet.

(** [EncodeToString]: three bytes to four digits, the last group padded. *)
Fixpoint encode (l : chars) : chars :=
  match l with
  | a :: b :: c :: l' =>
      let v := (code a * 65536 + code b * 256 + code c)%N in
      enc_digit (v / 262144 mod 64) :: enc_digit (v / 4096 mod 64) ::
      enc_digit (v / 64 mod 64) :: enc_digit (v mod 64) :: encode l'
  | [a; b] =>
      let v := (code a * 65536 + code b * 256)%N in
      [enc_digit (v / 262144 mod 64); enc_digit (v / 4096 mod 64);
       enc_digit (v / 64 mod 64); "="%char]
  | [a] =>
      let v := (code a * 65536)%N in
      [enc_digit (v / 262144 mod 64); enc_digit (v / 4096 mod 64); "="%char; "="%char]
  | [] => []
  end.

(** [DecodeString] after the line breaks it skips are gone: [None] is a
    [CorruptInputError]. *)
Fixpoint decode_quanta (l : chars) : option chars :=
  match l with
  | [] => Some []
  | c0 :: c1 :: c2 :: c3 :: l' =>
      d0 ← dec_digit c0; d1 ← dec_digit c1;
      if decide (c2 = "="%char) then
        if decide (c3 = "="%char /\ l' = []) then
          let v := (d0 * 262144 + d1 * 4096)%N in
          Some [ascii_of_N (v / 65536 mod 256)]
        else None
      else
        d2 ← dec_digit c2;
        if decide (c3 = "="%char) then
          if decide (l' = []) then
            let v := (d0 * 262144 + d1 * 4096 + d2 * 64)%N in
            Some [ascii_of_N (v / 65536 mod 256); ascii_of_N (v / 256 mod 256)]
          else None
        else
          d3 ← dec_digit c3;
          let v := (d0 * 262144 + d1 * 4096 + d2 * 64 + d3)%N in
          rest ← decode_quanta l';
          Some (ascii_of_N (v / 65536 mod 256) :: ascii_of_N (v / 256 mod 256) ::
                ascii_of_N (v mod 256) :: rest)
  | _ => None
  end.

Definition decode (l : chars) : option chars :=
  decode_quanta (filter (fun c => code c <> 10%N /\ code c <> 13%N) l).

(** Every digit of the alphabet, by enumeration. *)
Lemma dec_enc_digit n : (n < 64)%N -> dec_digit (enc_digit n) = Some n.
Proof.
  intros Hn.
  assert (Hall : forallb (fun k => bool_decide (dec_digit (enc_digit (N.of_nat k)) =
                                                Some (N.of_nat k))) (seq 0 64) = true)
    by by vm_compute.
  rewrite forallb_forall in Hall.
  specialize (Hall (N.to_nat n)). rewrite N2Nat.id in Hall.
  eapply bool_decide_eq_true_1, Hall, in_seq. lia.
Qed.

(** The characters of an encoding: digits of the alphabet and padding. *)
Definition plain (c : ascii) : Prop := c ∈ alphabet \/ c = "="%char.

Lemma enc_digit_in n : enc_digit n ∈ alphabet.
Proof.
  unfold enc_digit. destruct (nth_in_or_default (N.to_nat n) alphabet "A"%char) as [H| ->].
  - by apply list_elem_of_In.
  - by apply (bool_decide_unpack _).
Qed.

Lemma enc_digit_not_pad n : enc_digit n <> "="%char.
Proof.
  intros H. pose proof (enc_digit_in n) as Hin. rewrite H in Hin.
  by apply (bool_decide_pack _) in Hin.
Qed.

Lemma code_bound a : (code a < 256)%N.
Proof. apply N_ascii_bounded. Qed.

(** A byte recovered from the number that holds it. *)
Lemma byte_back a n : n = code a -> ascii_of_N n = a.
Proof. intros ->. apply ascii_N_embedding. Qed.

(** The digits of a 24-bit number, put together again. *)
Lemma digits_24 v : (v < 16777216)%N ->
  (v / 262144 mod 64 * 262144 + v / 4096 mod 64 * 4096 + v / 64 mod 64 * 64 + v mod 64 = v)%N.
Proof. intros. zify. Z.to_euclidean_division_equations. lia. Qed.

(** The bytes of a 24-bit number. *)
Lemma bytes_24 a b c : (a < 256 -> b < 256 -> c < 256 ->
  let v := a * 65536 + b * 256 + c in
  v / 65536 mod 256 = a /\ v / 256 mod 256 = b /\ v mod 256 = c)%N.
Proof. intros. subst v. repeat split; zify; Z.to_euclidean_division_equations; lia. Qed.

(** The padded groups: the missing digits are zero. *)
Lemma digits_8 a : (a < 256 -> let v := a * 65536 in
  v / 262144 mod 64 * 262144 + v / 4096 mod 64 * 4096 = v)%N.
Proof. intros. subst v. zify. Z.to_euclidean_division_equations. lia. Qed.

Lemma digits_16 a b : (a < 256 -> b < 256 -> let v := a * 65536 + b * 256 in
  v / 262144 mod 64 * 262144 + v / 4096 mod 64 * 4096 + v / 64 mod 64 * 64 = v)%N.
Proof.
  intros ? ? v. rewrite <- (digits_24 v) at 4 by lia.
  replace (v mod 64)%N with 0%N; [lia|].
  replace v with ((a * 1024 + b * 4) * 64)%N by lia. by rewrite N.Div0.mod_mul.
Qed.

(** Three-step induction along [encode]. *)
Lemma encode_ind (Q : chars -> Prop) :
  Q [] -> (forall a, Q [a]) -> (forall a b, Q [a; b]) ->
  (forall a b c l, Q l -> Q (a :: b :: c :: l)) -> forall l, Q l.
Proof.
  intros H0 H1 H2 H3. fix IH 1.
  intros [|a [|b [|c l]]]; [done..|]. apply H3, IH.
Qed.

Lemma encode_plain l : Forall plain (encode l).
Proof.
  induction l using encode_ind; cbn [encode];
    repeat (apply Forall_cons; split; [by (left; apply enc_digit_in) || by right|]);
    try apply Forall_nil; done.
Qed.

Lemma decode_quanta_encode l : decode_quanta (encode l) = Some l.
Proof.
  induction l as [|a|a b|a b c l IH] using encode_ind; [done|..]; cbn [encode decode_quanta];
    rewrite !dec_enc_digit by (apply N.mod_lt; done); cbn [mbind option_bind].
  - rewrite decide_True by done. rewrite decide_True by done.
    rewrite digits_8 by apply code_bound.
    destruct (bytes_24 (code a) 0 0) as (Ha & _ & _); [apply code_bound|lia..|].
    rewrite !N.add_0_r in Ha. by rewrite Ha, (byte_back a).
  - rewrite decide_False by apply enc_digit_not_pad.
    rewrite decide_True by done. rewrite decide_True by done.
    rewrite digits_16 by apply code_bound.
    destruct (bytes_24 (code a) (code b) 0) as (Ha & Hb & _); [apply code_bound..|lia|].
    rewrite !N.add_0_r in Ha, Hb. by rewrite Ha, Hb, (byte_back a), (byte_back b).
  - rewrite !decide_False by apply enc_digit_not_pad. rewrite IH. cbn [mbind option_bind].
    pose proof (code_bound a). pose proof (code_bound b). pose proof (code_bound c).
    rewrite digits_24 by lia.
    destruct (bytes_24 (code a) (code b) (code c)) as (-> & -> & ->); [done..|].
    by rewrite (byte_back a), (byte_back b), (byte_back c).
Qed.

(** Nothing of the alphabet is a line break or one of the session's separators. *)
Lemma plain_not c : plain c ->
  code c <> 10%N /\ code c <> 13%N /\ c <> "@"%char /\ c <> ","%char /\ c <> ":"%char.
Proof.
  assert (Hall : Forall (fun c => code c <> 10%N /\ code c <> 13%N /\ c <> "@"%char /\
    c <> ","%char /\ c <> ":"%char) ("="%char :: alphabet))
    by by apply (bool_decide_unpack _).
  rewrite Forall_forall in Hall. intros [Hc| ->]; apply Hall, elem_of_cons; auto.
Qed.

Lemma filter_all {A} (Q : A -> Prop) `{forall x, Decision (Q x)} l :
  Forall Q l -> filter Q l = l.
Proof. induction 1; [done|]. by rewrite filter_cons_True, IHForall. Qed.

Lemma decode_encode l : decode (encode l) = Some l.
Proof.
  unfold decode. rewrite filter_all; [apply decode_quanta_encode|].
  eapply Forall_impl; [apply encode_plain|]. intros c Hc%plain_not. tauto.
Qed.

Lemma encode_free l c : (c = "@" \/ c = "," \/ c = ":")%char -> c ∉ encode l.
Proof.
  intros Hc Hin. pose proof (encode_plain l) as Hp. rewrite Forall_forall in Hp.
  apply Hp, plain_not in Hin. naive_solver.
Qed.
End Base64.

(** ** Sessions *)

Record compositeSession := mkSession {
  Route : string;
  Profile : string;
  Subject : string;
  Backends : gmap string string;
}.

Inductive session_error :=
  | InvalidSessionID
  | InvalidEntry
  | DecodeBackend (backend : string).

(** [newSessionID] with the value the atomic counter takes. *)
Definition newSessionID (prefix : string) (sessionCounter : Z) : string * Z :=
  let n := uint64_of (sessionCounter + 1) in (prefix +:+ "-" +:+ pretty n, n).

(** The inner loop of [sortStrings]: [values[j]] moves down over the greater elements of the
    sorted prefix, which is kept here with its last element first. *)
Fixpoint sift (x : string) (prefix : list string) : list string :=
  match prefix with
  | [] => [x]
  | y :: r => if str_lt x y then y :: sift x r else x :: y :: r
  end.

Definition sortStrings (values : list string) : list string :=
  reverse (foldl (fun prefix x => sift x prefix) [] values).

(** The keys in the order [range] gives them, then sorted. *)
Definition sortedStringKeys (order : list string) : list string := sortStrings order.

Definition entry_chars (backends : gmap string string) (id : string) : chars :=
  to_chars id ++ ":"%char :: Base64.encode (to_chars (backends !!! id)).

(** [encodeCompositeSession]; [order] is the order in which [range] visits the map. *)
Definition encodeCompositeSession (route profile subject : string)
    (backends : gmap string string) (order : list string) : string :=
  of_chars (to_chars route ++ "@"%char :: to_chars profile ++ "@"%char ::
            to_chars subject ++ "@"%char ::
            join_chars "," (entry_chars backends <$> sortedStringKeys order)).

(** One iteration of the loop of [decodeCompositeSession]. *)
Definition decode_entry (out : gmap string string) (entry : string) :
    session_error + gmap string string :=
  let '(backend, encoded, ok) := Cut entry ":" in
  if negb ok || bool_decide (backend = "") then inl InvalidEntry
  else match Base64.decode (to_chars encoded) with
       | None => inl (DecodeBackend backend)
       | Some decoded => inr (<[backend := of_chars decoded]> out)
       end.

Fixpoint decode_entries (out : gmap string string) (entries : list string) :
    session_error + gmap string string :=
  match entries with
  | [] => inr out
  | e :: entries' =>
      match decode_entry out e with
      | inl err => inl err
      | inr out' => decode_entries out' entries'
      end
  end.

Definition decodeCompositeSession (raw : string) : session_error + compositeSession :=
  let r := to_chars raw in
  match index_chars "@" r with
  | None => inl InvalidSessionID
  | Some firstAt =>
      match index_chars "@" (drop (firstAt + 1) r) with
      | None => inl InvalidSessionID
      | Some secondAtRel =>
          let secondAt := firstAt + 1 + secondAtRel in
          match last_index_chars "@" r with
          | None => inl InvalidSessionID
          | Some lastAt =>
              if lastAt <=? secondAt then inl InvalidSessionID
              else
                let out := mkSession (of_chars (take firstAt r))
                  (of_chars (take secondAtRel (drop (firstAt + 1) r)))
                  (of_chars (take (lastAt - (secondAt + 1)) (drop (secondAt + 1) r))) in
                let backendPart := of_chars (drop (lastAt + 1) r) in
                if decide (backendPart = "") then inr (out ∅)
                else match decode_entries ∅ (Split backendPart ",") with
                     | inl err => inl err
                     | inr m => inr (out m)
                     end
          end
      end
  end.

(** ** Facts: the insertion sort *)

Lemma sift_perm x l : sift x l ≡ₚ x :: l.
Proof.
  induction l as [|y l IH]; cbn; [done|]. destruct (str_lt x y); [|done].
  rewrite IH. constructor.
Qed.

(** The prefix is sorted downwards. *)
Lemma sift_sorted x l : Sorted (flip str_le) l -> Sorted (flip str_le) (sift x l).
Proof.
  induction 1 as [|y l Hs IH Hd]; cbn; [repeat constructor|].
  destruct (str_lt x y) eqn:E.
  - constructor; [done|]. destruct l as [|z l]; cbn.
    + constructor. destruct (total str_le x y); [done|]. unfold flip, str_le in *. congruence.
    + inversion Hd; subst. destruct (str_lt x z); constructor; [done|].
      destruct (total str_le x y); [done|]. unfold flip, str_le in *. congruence.
  - constructor; [by constructor|]. by constructor.
Qed.

Lemma sortStrings_spec l : sortStrings l ≡ₚ l /\ Sorted str_le (sortStrings l).
Proof.
  unfold sortStrings.
  cut (forall k acc, Sorted (flip str_le) acc ->
    foldl (fun p x => sift x p) acc k ≡ₚ acc ++ k /\
    Sorted (flip str_le) (foldl (fun p x => sift x p) acc k)).
  { intros H. destruct (H l []) as [Hp Hs]; [constructor|]. split.
    - by rewrite reverse_Permutation, Hp.
    - by apply Sorted_reverse. }
  induction k as [|x k IH]; intros acc Hacc; cbn.
  - by rewrite app_nil_r.
  - destruct (IH (sift x acc)) as [Hp Hs]; [by apply sift_sorted|]. split; [|done].
    rewrite Hp, sift_perm. apply Permutation_middle.
Qed.

(** The order in which the map is visited does not matter. *)
Lemma sortStrings_unique l k : l ≡ₚ k -> sortStrings l = sortStrings k.
Proof.
  intros Hp. destruct (sortStrings_spec l) as [Hl ?], (sortStrings_spec k) as [Hk ?].
  apply (Sorted_unique str_le); [done..|]. by rewrite Hl, Hk.
Qed.

(** ** Facts: the codec *)

Lemma encode_decode_entry backends out id :
  id <> "" -> ":"%char ∉ to_chars id ->
  decode_entry out (of_chars (entry_chars backends id)) = inr (<[id := backends !!! id]> out).
Proof.
  intros Hne Hfree. unfold decode_entry, entry_chars.
  replace (of_chars _) with (id +:+ String ":" (of_chars (Base64.encode (to_chars (backends !!! id))))).
  - rewrite Cut_app by done. rewrite bool_decide_false by done. cbn [negb orb].
    by rewrite to_of_chars, Base64.decode_encode, of_to_chars.
  - apply to_chars_inj. rewrite to_of_chars, to_chars_app.
    cbn [String.list_ascii_of_string]. by rewrite to_of_chars.
Qed.

Lemma decode_entries_map backends ids : forall out,
  Forall (fun id => id <> "" /\ ":"%char ∉ to_chars id) ids ->
  decode_entries out ((fun id => of_chars (entry_chars backends id)) <$> ids) =
  inr (foldl (fun m id => <[id := backends !!! id]> m) out ids).
Proof.
  induction ids as [|id ids IH]; intros out Hf; [done|].
  apply Forall_cons in Hf as [[Hne Hfree] Hf]. cbn.
  rewrite encode_decode_entry by done. by apply IH.
Qed.

(** Inserting every binding of a map gives the map. *)
Lemma rebuild_map (m : gmap string string) ids :
  (forall k, k ∈ ids <-> k ∈ dom m) ->
  foldl (fun acc id => <[id := m !!! id]> acc) ∅ ids = m.
Proof.
  intros Hids.
  apply map_eq. intros k. rewrite lookup_foldl_insert. case_decide as Hk.
  - apply Hids, elem_of_dom in Hk as [v Hv]. by rewrite (lookup_total_correct _ _ _ Hv).
  - rewrite lookup_empty. symmetry. apply not_elem_of_dom. by rewrite <- Hids.
Qed.

(** Where [decodeCompositeSession] cuts: the first two separators and the last one. *)
Lemma session_cuts (route profile subject rest : chars) :
  "@"%char ∉ route -> "@"%char ∉ profile -> "@"%char ∉ rest ->
  let r := route ++ "@"%char :: profile ++ "@"%char :: subject ++ "@"%char :: rest in
  let secondAt := length route + 1 + length profile in
  index_chars "@" r = Some (length route) /\
  drop (length route + 1) r = profile ++ "@"%char :: subject ++ "@"%char :: rest /\
  index_chars "@" (drop (length route + 1) r) = Some (length profile) /\
  drop (secondAt + 1) r = subject ++ "@"%char :: rest /\
  last_index_chars "@" r = Some (secondAt + 1 + length subject) /\
  drop (secondAt + 1 + length subject + 1) r = rest.
Proof.
  intros Hr Hp Hb r secondAt.
  assert (Hstep : forall (l k : chars) n, drop (length l + 1 + n) (l ++ "@"%char :: k) = drop n k).
  { intros l k n. rewrite <- Nat.add_assoc, <- drop_drop, drop_app_length. done. }
  assert (H1 : drop (length route + 1) r = profile ++ "@"%char :: subject ++ "@"%char :: rest).
  { specialize (Hstep route (profile ++ "@"%char :: subject ++ "@"%char :: rest) 0).
    by rewrite Nat.add_0_r in Hstep. }
  repeat split; [by apply index_chars_app|done|rewrite H1; by apply index_chars_app|..].
  - unfold secondAt, r. rewrite <- (Nat.add_assoc _ (length profile) 1), Hstep.
    specialize (Hstep profile (subject ++ "@"%char :: rest) 0).
    by rewrite Nat.add_0_r in Hstep.
  - assert (Hsplit : r = (route ++ "@"%char :: profile ++ "@"%char :: subject) ++ "@"%char :: rest).
    { unfold r. by rewrite <- !app_assoc, !app_comm_cons, <- !app_assoc. }
    rewrite Hsplit, last_index_chars_app by done. f_equal. unfold secondAt.
    rewrite !length_app. cbn. rewrite length_app. cbn. lia.
  - unfold secondAt, r.
    replace (length route + 1 + length profile + 1 + length subject + 1)
      with (length route + 1 + (length profile + 1 + (length subject + 1 + 0))) by lia.
    by rewrite !Hstep.
Qed.

(** The identifiers a session can carry: not empty, and free of the codec's separators. *)
Definition id_ok (id : string) : Prop :=
  id <> "" /\ ("@"%char ∉ to_chars id) /\ (","%char ∉ to_chars id) /\ (":"%char ∉ to_chars id).

#[export] Instance id_ok_dec id : Decision (id_ok id).
Proof. unfold id_ok. apply _. Defined.

Lemma entry_free backends id c :
  (c = "@" \/ c = ",")%char -> id_ok id -> c ∉ entry_chars backends id.
Proof.
  intros Hc (_ & Ha & Hb & _) Hin. unfold entry_chars in Hin.
  apply elem_of_app in Hin as [Hin|[Hin|Hin]%elem_of_cons].
  - destruct Hc as [-> | ->]; done.
  - destruct Hc as [-> | ->]; done.
  - revert Hin. apply Base64.encode_free. naive_solver.
Qed.

Lemma join_free backends ids :
  Forall id_ok ids -> "@"%char ∉ join_chars "," (entry_chars backends <$> ids).
Proof.
  induction 1 as [|id ids Hid Hids IH]; [set_solver|].
  destruct ids as [|id' ids]; [by apply entry_free; [left|]|].
  change (join_chars "," (entry_chars backends <$> id :: id' :: ids))
    with (entry_chars backends id ++ ","%char :: join_chars "," (entry_chars backends <$> id' :: ids)).
  rewrite elem_of_app, elem_of_cons. intros [H|[H|H]]; [|done|done].
  revert H. by apply entry_free; [left|].
Qed.

(** The backend part of a session, decoded. *)
Lemma decode_backend_part backends ids :
  ids <> [] -> Forall id_ok ids ->
  let part := of_chars (join_chars "," (entry_chars backends <$> ids)) in
  part <> "" /\
  decode_entries ∅ (Split part ",") =
    inr (foldl (fun m id => <[id := backends !!! id]> m) ∅ ids).
Proof.
  intros Hne Hok part. split.
  - destruct Hok as [|id ids Hid Hok]; [done|]. subst part.
    intros Hemp%(f_equal to_chars). rewrite to_of_chars in Hemp. unfold entry_chars in Hemp.
    cbn in Hemp. destruct ids; destruct (to_chars id); done.
  - unfold Split, part. rewrite to_of_chars, Split_join.
    + rewrite <- (decode_entries_map backends ids ∅).
      * f_equal. by rewrite <- list_fmap_compose.
      * eapply Forall_impl; [done|]. intros id (? & ? & ? & ?). done.
    + by destruct ids.
    + apply Forall_fmap. eapply Forall_impl; [done|]. intros id Hid. cbn.
      by apply entry_free; [right|].
Qed.

(** The round trip, for the theorem and for the router that issues sessions. *)
Lemma session_roundtrip route profile subject backends order :
  "@"%char ∉ to_chars route -> "@"%char ∉ to_chars profile ->
  order ≡ₚ elements (dom backends) ->
  Forall id_ok order ->
  decodeCompositeSession (encodeCompositeSession route profile subject backends order) =
  inr (mkSession route profile subject backends).
Proof.
  intros Hr Hp Hord Hok. unfold decodeCompositeSession, encodeCompositeSession.
  rewrite to_of_chars. unfold sortedStringKeys.
  set (ids := sortStrings order).
  assert (Hids : ids ≡ₚ order) by apply sortStrings_spec.
  assert (Hok' : Forall id_ok ids) by by rewrite Hids.
  set (rest := join_chars "," (entry_chars backends <$> ids)).
  destruct (session_cuts (to_chars route) (to_chars profile) (to_chars subject) rest)
    as (H1 & H2 & H3 & H4 & H5 & H6); [done|done|by apply join_free|].
  rewrite H1, H3, H5. rewrite (proj2 (Nat.leb_gt _ _)) by lia.
  rewrite H6, H2, H4, !take_app_length, of_to_chars.
  replace (_ - _) with (length (to_chars subject)) by lia.
  rewrite take_app_length, !of_to_chars.
  destruct (decide (ids = [])) as [Hnil|Hne].
  - unfold rest. rewrite Hnil. cbn. do 2 f_equal. symmetry. apply dom_empty_inv_L, leibniz_equiv.
    apply elements_empty_iff, Permutation_nil_r. by rewrite <- Hord, <- Hids, Hnil.
  - destruct (decode_backend_part backends ids) as [Hpart Hdec]; [done..|].
    rewrite decide_False by done. unfold rest. rewrite Hdec. do 2 f_equal.
    apply rebuild_map. intros k. by rewrite Hids, Hord, elem_of_elements.
Qed.

(** ** Theorems *)

(** A composite session decodes to what was encoded: route, profile, subject and the
    session of every backend, whatever the subject and the sessions hold and in whatever
    order [range] visited the map, provided route and profile hold no separator and the
    backends' names can be written. *)
Theorem composite_session_roundtrip route profile subject backends order :
  "@"%char ∉ to_chars route -> "@"%char ∉ to_chars profile ->
  order ≡ₚ elements (dom backends) ->
  Forall id_ok order ->
  decodeCompositeSession (encodeCompositeSession route profile subject backends order) =
  inr (mkSession route profile subject backends).
Proof. apply session_roundtrip. Qed.

Definition demo_backends : gmap string string :=
  {[ "github" := "session one"; "jira" := "s@2,:" ]}.

Lemma composite_session_roundtrip_witness :
  decodeCompositeSession (encodeCompositeSession "mcp-profile-router" "dev" "user@example"
    demo_backends ["jira"; "github"]) =
  inr (mkSession "mcp-profile-router" "dev" "user@example" demo_backends).
Proof.
  apply composite_session_roundtrip.
  - by apply (bool_decide_unpack _).
  - by apply (bool_decide_unpack _).
  - replace (elements (dom demo_backends)) with ["github"; "jira"] by reflexivity.
    apply perm_swap.
  - by apply (bool_decide_unpack _).
Defined.

(** The hypothesis on the profile is needed: with a separator in it the session names
    another profile, and the rest of it is read as the subject. *)
Lemma session_profile_separator :
  decodeCompositeSession (encodeCompositeSession "mcp-profile-router" "team@dev" "" ∅ []) =
  inr (mkSession "mcp-profile-router" "team" "dev@" ∅).
Proof. reflexivity. Qed.
