(* ===== verification/McpRouter.v ===== *)
(** * McpRouter: the MCP profile router (examples/mcp-profile-router)

    One HTTP endpoint that stands for several MCP servers: it authenticates the client,
    opens a session with every backend, merges their tool lists under a prefix per backend
    and sends a tool call to the backend its prefix names.  The HTTP client and the JSON
    syntax are parameters: [net] is what each backend request is answered in one run of a
    handler, [Json] the marshalling functions.  Every request sent is recorded. *)
From stdpp Require Import base list strings gmap sets sorting pretty.
From Stdlib Require Import ZArith Lia Ascii.
From S2P Require Import Prelude GoStrings McpSession.

(** ** types.go *)

Record Server := mkServer {
  URL : string;
  Prefix : string;
  Credential : string;
  EnabledTools : option (gmap string bool);
}.

(** The zero value, which a map gives for a missing key. *)
#[export] Instance Server_inhabited : Inhabited Server := populate (mkServer "" "" "" None).

Record Profile_t := mkProfile {
  ID : string;
  Name : string;
  APIKey : string;
  RouteHeader : string;
  TimeoutMillis : Z;
  Servers : gmap string Server;
}.

(** A JSON value as [any] or [json.RawMessage] carries it. *)
Abbreviation json := bytes.

Record JSONRPCRequest := mkRequest {
  rq_id : json;
  rq_method : string;
  rq_params : json;
}.

Record JSONRPCError := mkError { Code : Z; Message : string }.

Record Implementation := mkImplementation { im_name : string; im_version : string }.

Record InitializeParams := mkInitParams {
  ip_version : string;
  ip_capabilities : list (string * json);
  ip_client : Implementation;
}.

Record InitializeResult := mkInit {
  ir_version : string;
  ir_capabilities : list (string * json);
  ir_server : Implementation;
}.

Record Tool := mkTool { t_name : string; t_description : string; t_schema : json }.

Record CallToolParams := mkCall { c_name : string; c_arguments : json }.

Record CallToolResult := mkCallResult {
  cr_content : list (string * string);
  cr_structured : json;
  cr_isError : bool;
}.

(** What a handler puts in the [Result] field. *)
Inductive result :=
  | ResInit (r : InitializeResult)
  | ResTools (tools : list Tool)
  | ResCall (r : CallToolResult).

Record JSONRPCResponse := mkResponse {
  rs_id : json;
  rs_result : option result;
  rs_error : option JSONRPCError;
}.

(** [cloneRaw] copies; an empty identifier becomes nil, which JSON omits alike. *)
Definition cloneRaw (raw : json) : json := if decide (length raw = 0) then [] else raw.

Definition response (id : json) (r : result) : JSONRPCResponse :=
  mkResponse (cloneRaw id) (Some r) None.

Definition errorResponse (id : json) (code : Z) (message : string) : JSONRPCResponse :=
  mkResponse (cloneRaw id) None (Some (mkError code message)).

Definition MethodInitialize := "initialize".
Definition MethodToolsList := "tools/list".
Definition MethodToolsCall := "tools/call".
Definition SessionIDHeader := "mcp-session-id".
Definition ProtocolVersionHeader := "mcp-protocol-version".
Definition ProtocolVersion := "2025-06-18".

(** ** The outside *)

(** An HTTP request of the router to a backend; [headers] is what [Header.Set] left, under
    canonical keys. *)
Record backend_request := mkBackendRequest {
  br_url : string;
  br_headers : gmap string string;
  br_body : JSONRPCRequest;
}.

(** What the client of [net/http] returns: an error, or a response with its status, the
    session header and the decoded body ([inl]: the decoder's error). *)
Record http_response := mkHttpResponse {
  hr_status : Z;
  hr_session : string;
  hr_body : string + (option JSONRPCError * json);
}.

(** The errors of [ValidateProfile], one constructor per message. *)
Inductive profile_error :=
  | ProfileNameRequired
  | ProfileNoServers
  | DuplicatePrefix (prefix existing serverID : string).

(** The JSON functions the router calls: decoding of requests and parameters, decoding of a
    [Result] into the caller's type, encoding; and [fmt]'s text of a profile error. *)
Class Json := {
  profile_error_text : profile_error -> string;
  decode_request : bytes -> option JSONRPCRequest;
  decode_call_params : json -> option CallToolParams;
  encode_call_params : CallToolParams -> json;
  encode_init_params : InitializeParams -> json;
  encode_raw : json -> json;
  marshal_error : JSONRPCRequest -> option string;
  decode_init : json -> string + InitializeResult;
  decode_tools : json -> string + list Tool;
  decode_call : json -> string + CallToolResult;
}.

Record ServerDump := mkServerDump {
  Target : string;
  sd_prefix : string;
  CredentialConfigured : bool;
  LastToolsList : string;
}.

(** The aggregator: its configuration, and the dump of the servers under its mutex together
    with the requests sent so far. *)
Record Aggregator := mkAggregator {
  profile : Profile_t;
  configErr : option profile_error;
  serverForPrefix : gmap string string;
}.

Record state := mkState {
  servers : gmap string ServerDump;
  sent : list backend_request;
}.

(** ** aggregator.go: helpers *)

Definition serverPrefix (serverID : string) (server : Server) : string :=
  if decide (Prefix server <> "") then Prefix server else serverID.

Definition serverToolEnabled (server : Server) (name : string) : bool :=
  match EnabledTools server with
  | None => true
  | Some m => default false (m !! name)
  end.

Definition sortedServerIDs (servers : gmap string Server) : list string :=
  sort_Strings (elements (dom servers)).

(** The loop of [profileServerPrefixes]: the map built so far and the error, if any. *)
Fixpoint prefixes_loop (p : Profile_t) (out : gmap string string) (ids : list string) :
    gmap string string * option profile_error :=
  match ids with
  | [] => (out, None)
  | serverID :: ids' =>
      let prefix := serverPrefix serverID (Servers p !!! serverID) in
      match out !! prefix with
      | Some existing =>
          (out, Some (DuplicatePrefix prefix existing serverID))
      | None => prefixes_loop p (<[prefix := serverID]> out) ids'
      end
  end.

Definition profileServerPrefixes (p : Profile_t) : gmap string string * option profile_error :=
  prefixes_loop p ∅ (sortedServerIDs (Servers p)).

Definition ValidateProfile (p : Profile_t) : option profile_error :=
  if decide (ID p = "" /\ Name p = "") then Some ProfileNameRequired
  else if decide (Servers p = ∅) then Some ProfileNoServers
  else (profileServerPrefixes p).2.

Definition NewAggregator (p : Profile_t) : Aggregator :=
  let '(m, err) := profileServerPrefixes p in mkAggregator p err m.

Definition profileID (a : Aggregator) : string :=
  if decide (ID (profile a) <> "") then ID (profile a) else Name (profile a).

Definition routeHeader (a : Aggregator) : string :=
  if decide (RouteHeader (profile a) <> "") then RouteHeader (profile a) else "x-mcp-server".

Definition timeoutMillis (a : Aggregator) : Z :=
  if (0 <? TimeoutMillis (profile a))%Z then TimeoutMillis (profile a) else 800%Z.

Definition serverByPrefix (a : Aggregator) (prefix : string) : option (string * Server) :=
  serverID ← serverForPrefix a !! prefix;
  server ← Servers (profile a) !! serverID;
  Some (serverID, server).

Definition recordServer (id : string) (server : Server) (st : string) (s : state) : state :=
  mkState (<[id := mkServerDump (URL server) (serverPrefix id server)
                     (negb (bool_decide (Credential server = ""))) st]> (servers s)) (sent s).

Definition authorized (a : Aggregator) (header : string -> string) : bool :=
  if decide (APIKey (profile a) = "") then true
  else bool_decide (header "authorization" = "Bearer " +:+ APIKey (profile a)).

Definition sessionFromRequest (a : Aggregator) (header : string -> string) :
    option compositeSession :=
  let sessionID := header SessionIDHeader in
  if decide (sessionID = "") then None
  else match decodeCompositeSession sessionID with
       | inl _ => None
       | inr session =>
           if decide (Profile session = profileID a) then Some session else None
       end.

(** *** The dump *)

Definition publicAuthType (apiKey : string) : string :=
  if decide (apiKey = "") then "none" else "api_key".

Record AggregatorDump := mkAggregatorDump {
  ad_profile_id : string;
  ad_profile_name : string;
  ad_auth_type : string;
  ad_auth_configured : bool;
  ad_timeout : Z;
  ad_servers : gmap string ServerDump;
}.

Definition Dump (a : Aggregator) (s : state) : AggregatorDump :=
  mkAggregatorDump (profileID a) (Name (profile a)) (publicAuthType (APIKey (profile a)))
    (negb (bool_decide (APIKey (profile a) = ""))) (timeoutMillis a) (servers s).

(** ** aggregator.go: the handlers *)

Section handlers.
Context `{JS : Json}.
(** What the HTTP client returns for a request; whether a URL is one [NewRequest] accepts. *)
Context (net : backend_request -> string + http_response) (url_error : string -> option string).

(** [req.Header.Set(k, v)]. *)
Definition header_set (k v : string) (h : gmap string string) : gmap string string :=
  <[CanonicalMIMEHeaderKey k := v]> h.

Definition backend_headers (a : Aggregator) (serverID : string) (server : Server)
    (sessionID : string) : gmap string string :=
  let h := header_set "content-type" "application/json" ∅ in
  let h := header_set "accept" "application/json" h in
  let h := header_set (routeHeader a) (serverPrefix serverID server) h in
  let h := if decide (Credential server <> "")
           then header_set "authorization" (Credential server) h else h in
  let h := if decide (sessionID <> "") then header_set SessionIDHeader sessionID h else h in
  header_set ProtocolVersionHeader ProtocolVersion h.

(** [callServer]: the error, or the session header and the decoded result. *)
Definition callServer {T} (dec : json -> string + T) (a : Aggregator) (serverID : string)
    (server : Server) (sessionID : string) (id : json) (method : string) (params : json)
    (s : state) : (string + (string * T)) * state :=
  let body := mkRequest (cloneRaw id) method params in
  match marshal_error body with
  | Some e => (inl e, s)
  | None =>
      let url := TrimRight (URL server) "/" +:+ "/mcp" in
      match url_error url with
      | Some e => (inl e, s)
      | None =>
          let req := mkBackendRequest url (backend_headers a serverID server sessionID) body in
          let s := mkState (servers s) (sent s ++ [req]) in
          match net req with
          | inl e => (inl e, s)
          | inr resp =>
              if decide (hr_status resp <> 200%Z)
              then (inl ("status " +:+ pretty (hr_status resp)), s)
              else match hr_body resp with
                   | inl e => (inl e, s)
                   | inr (Some err, _) => (inl (Message err), s)
                   | inr (None, raw) =>
                       match dec raw with
                       | inl e => (inl e, s)
                       | inr out => (inr (hr_session resp, out), s)
                       end
                   end
          end
      end
  end.

(** [initializeBackends]: sequentially, giving up at the first failure. *)
Definition init_params : InitializeParams :=
  mkInitParams ProtocolVersion [] (mkImplementation "mcp-profile-router-aggregator" "dev").

Fixpoint init_loop (a : Aggregator) (id : json) (ids : list string)
    (backends : gmap string string) (s : state) : (string + gmap string string) * state :=
  match ids with
  | [] => (inr backends, s)
  | serverID :: ids' =>
      let server := Servers (profile a) !!! serverID in
      match callServer decode_init a serverID server "" id MethodInitialize
              (encode_init_params init_params) s with
      | (inl e, s) => (inl (serverID +:+ ": " +:+ e), s)
      | (inr (sessionID, _), s) =>
          init_loop a id ids' (<[serverID := sessionID]> backends)
            (recordServer serverID server "initialized" s)
      end
  end.

Definition initializeBackends (a : Aggregator) (id : json) (s : state) :
    (string + (string * InitializeResult)) * state :=
  match init_loop a id (sortedServerIDs (Servers (profile a))) ∅ s with
  | (inl e, s) => (inl e, s)
  | (inr backends, s) =>
      (inr (encodeCompositeSession "mcp-profile-router" (profileID a) "" backends
              (elements (dom backends)),
            mkInit ProtocolVersion [("tools", [])]
              (mkImplementation "mcp-profile-router" "dev")), s)
  end.

(** [listTools] calls every backend in its own goroutine, each sending one result to the
    channel; [arrival] is the order in which the channel gives them. *)
Definition tools_of (a : Aggregator) (id : json) (session : compositeSession)
    (serverID : string) (s : state) : (string + list Tool) * state :=
  match callServer decode_tools a serverID (Servers (profile a) !!! serverID)
          (default "" (Backends session !! serverID)) id MethodToolsList [] s with
  | (inl e, s) => (inl e, s)
  | (inr (_, tools), s) => (inr tools, s)
  end.

Fixpoint fan_out (a : Aggregator) (id : json) (session : compositeSession)
    (ids : list string) (s : state) : list (string * (string + list Tool)) * state :=
  match ids with
  | [] => ([], s)
  | serverID :: ids' =>
      let '(r, s) := tools_of a id session serverID s in
      let '(rs, s) := fan_out a id session ids' s in
      ((serverID, r) :: rs, s)
  end.

(** The tools of one backend that the profile enables, under the backend's prefix. *)
Definition namespaced (serverID : string) (server : Server) (tools : list Tool) : list Tool :=
  (fun t => mkTool (serverPrefix serverID server +:+ "." +:+ t_name t) (t_description t)
                   (t_schema t)) <$>
  filter (fun t => serverToolEnabled server (t_name t) = true) tools.

Fixpoint collect (a : Aggregator) (results : list (string * (string + list Tool)))
    (merged : list Tool) (healthyBackend : bool) (s : state) : list Tool * bool * state :=
  match results with
  | [] => (merged, healthyBackend, s)
  | (serverID, r) :: results' =>
      let server := Servers (profile a) !!! serverID in
      match r with
      | inl e => collect a results' merged healthyBackend
                   (recordServer serverID server ("error: " +:+ e) s)
      | inr tools => collect a results' (merged ++ namespaced serverID server tools) true
                       (recordServer serverID server "ok" s)
      end
  end.

(** [sort.Slice] by name leaves equal names in an order that is not specified: any sorted
    arrangement. *)
Context (sort_Slice : list Tool -> list Tool).

Definition listTools (a : Aggregator) (id : json) (session : compositeSession)
    (arrival : list string) (s : state) : list Tool * bool * state :=
  let '(results, s) := fan_out a id session arrival s in
  let '(merged, healthyBackend, s) := collect a results [] false s in
  (sort_Slice merged, healthyBackend, s).

(** [callTool]: the result or the JSON-RPC error. *)
Definition callTool (a : Aggregator) (id paramsRaw : json) (session : compositeSession)
    (s : state) : (JSONRPCResponse + CallToolResult) * state :=
  match decode_call_params paramsRaw with
  | None => (inl (errorResponse id (-32602) "invalid tools/call params"), s)
  | Some params =>
      if decide (c_name params = "")
      then (inl (errorResponse id (-32602) "invalid tools/call params"), s)
      else
        let '(prefix, backendTool, ok) := Cut (c_name params) "." in
        if negb ok || bool_decide (backendTool = "")
        then (inl (errorResponse id (-32602) "tool name must be namespaced"), s)
        else match serverByPrefix a prefix with
             | None =>
                 (inl (errorResponse id (-32602) ("unknown tool: " +:+ c_name params)), s)
             | Some (serverID, server) =>
                 if serverToolEnabled server backendTool then
                   match callServer decode_call a serverID server
                           (default "" (Backends session !! serverID)) id MethodToolsCall
                           (encode_call_params (mkCall backendTool (c_arguments params))) s with
                   | (inl e, s) =>
                       (inl (errorResponse id (-32003) ("tool backend failed: " +:+ serverID)),
                        recordServer serverID server ("error: " +:+ e) s)
                   | (inr (_, out), s) => (inr out, recordServer serverID server "ok" s)
                   end
                 else
                   (inl (errorResponse id (-32602) ("disabled tool: " +:+ c_name params)), s)
             end
  end.

(** A request to the router: the path value of its pattern, [r.Header.Get], the body. *)
Record client_request := mkClientRequest {
  cq_path : string;
  cq_header : string -> string;
  cq_body : bytes;
}.

(** What [writeJSON] and the header settings before it give the client. *)
Record client_response := mkClientResponse {
  cs_status : Z;
  cs_headers : list (string * string);
  cs_body : JSONRPCResponse;
}.

Definition writeJSON (status : Z) (headers : list (string * string)) (v : JSONRPCResponse) :
    client_response :=
  mkClientResponse status (headers ++ [("content-type", "application/json")]) v.

Definition session_headers (sessionID : string) : list (string * string) :=
  [(SessionIDHeader, sessionID); (ProtocolVersionHeader, ProtocolVersion)].

Definition handleProfile (a : Aggregator) (r : client_request) (arrival : list string)
    (s : state) : client_response * state :=
  match configErr a with
  | Some e =>
      (writeJSON 500 [] (errorResponse [] (-32012) ("invalid profile config: " +:+ profile_error_text e)), s)
  | None =>
  if decide (cq_path r <> profileID a)
  then (writeJSON 404 [] (errorResponse [] (-32004) "unknown profile"), s)
  else if negb (authorized a (cq_header r))
  then (writeJSON 401 [] (errorResponse [] (-32001) "invalid profile credentials"), s)
  else match decode_request (cq_body r) with
  | None => (writeJSON 400 [] (errorResponse [] (-32700) "invalid JSON-RPC request"), s)
  | Some req =>
      let id := rq_id req in
      let no_session :=
        writeJSON 400 [] (errorResponse id (-32010) "missing or invalid MCP session ID") in
      if decide (rq_method req = MethodInitialize) then
        match initializeBackends a id s with
        | (inl e, s) =>
            (writeJSON 200 [] (errorResponse id (-32011) ("initialize failed: " +:+ e)), s)
        | (inr (sessionID, result), s) =>
            (writeJSON 200 (session_headers sessionID) (response id (ResInit result)), s)
        end
      else if decide (rq_method req = MethodToolsList) then
        match sessionFromRequest a (cq_header r) with
        | None => (no_session, s)
        | Some session =>
            match listTools a id session arrival s with
            | (tools, true, s) => (writeJSON 200 [] (response id (ResTools tools)), s)
            | (_, false, s) =>
                (writeJSON 200 [] (errorResponse id (-32002) "no MCP servers returned tools"), s)
            end
        end
      else if decide (rq_method req = MethodToolsCall) then
        match sessionFromRequest a (cq_header r) with
        | None => (no_session, s)
        | Some session =>
            match callTool a id (rq_params req) session s with
            | (inl errResp, s) => (writeJSON 200 [] errResp, s)
            | (inr result, s) => (writeJSON 200 [] (response id (ResCall result)), s)
            end
        end
      else (writeJSON 200 []
              (errorResponse id (-32601) ("unsupported method: " +:+ rq_method req)), s)
  end
  end.

(** [handleCatalogServer]: one backend, with the session the client holds for it. *)
Definition handleCatalogServer (a : Aggregator) (r : client_request) (s : state) :
    client_response * state :=
  match configErr a with
  | Some e =>
      (writeJSON 500 [] (errorResponse [] (-32012) ("invalid profile config: " +:+ profile_error_text e)), s)
  | None =>
  let serverID := cq_path r in
  match Servers (profile a) !! serverID with
  | None => (writeJSON 404 [] (errorResponse [] (-32004) "unknown catalog server"), s)
  | Some server =>
  match decode_request (cq_body r) with
  | None => (writeJSON 400 [] (errorResponse [] (-32700) "invalid JSON-RPC request"), s)
  | Some req =>
      let id := rq_id req in
      let sessionID := cq_header r SessionIDHeader in
      let no_session := writeJSON 400 [] (errorResponse id (-32010) "missing MCP session ID") in
      if decide (rq_method req = MethodInitialize) then
        match callServer decode_init a serverID server "" id MethodInitialize
                (encode_raw (rq_params req)) s with
        | (inl e, s) =>
            (writeJSON 200 [] (errorResponse id (-32011) ("initialize failed: " +:+ e)), s)
        | (inr (sid, out), s) =>
            (writeJSON 200 (session_headers sid) (response id (ResInit out)),
             recordServer serverID server "initialized" s)
        end
      else if decide (rq_method req = MethodToolsList) then
        if decide (sessionID = "") then (no_session, s)
        else match callServer decode_tools a serverID server sessionID id MethodToolsList [] s with
             | (inl e, s) =>
                 (writeJSON 200 [] (errorResponse id (-32002) ("tools/list failed: " +:+ serverID)),
                  recordServer serverID server ("error: " +:+ e) s)
             | (inr (_, out), s) =>
                 (writeJSON 200 [] (response id (ResTools out)), recordServer serverID server "ok" s)
             end
      else if decide (rq_method req = MethodToolsCall) then
        if decide (sessionID = "") then (no_session, s)
        else match callServer decode_call a serverID server sessionID id MethodToolsCall
                     (encode_raw (rq_params req)) s with
             | (inl e, s) =>
                 (writeJSON 200 []
                    (errorResponse id (-32003) ("tool backend failed: " +:+ serverID)),
                  recordServer serverID server ("error: " +:+ e) s)
             | (inr (_, out), s) =>
                 (writeJSON 200 [] (response id (ResCall out)), recordServer serverID server "ok" s)
             end
      else (writeJSON 200 []
              (errorResponse id (-32601) ("unsupported method: " +:+ rq_method req)), s)
  end
  end
  end.
End handlers.
