(* ===== verification/McpRouterProps.v ===== *)
(** * McpRouterProps: correctness of the MCP profile router

    No backend is called for a client the profile does not admit; a backend's credential is
    only ever sent to that backend; the merged tool list does not depend on the order in
    which backends answer; a listed tool can be called and reaches the backend that offers
    it; the session that initialize issues is accepted by the later requests. *)
From stdpp Require Import base list strings gmap sets sorting pretty.
From Stdlib Require Import ZArith Lia Ascii.
From S2P Require Import Prelude GoStrings McpSession McpRouter.

(** ** Prefixes *)

(** The table of prefixes under construction: it holds exactly the servers seen. *)
Definition table_ok (p : Profile_t) (seen : list string) (m : gmap string string) : Prop :=
  forall prefix id, m !! prefix = Some id <->
    id ∈ seen /\ serverPrefix id (Servers p !!! id) = prefix.

Lemma prefixes_loop_ok p ids : forall seen out m,
  table_ok p seen out -> prefixes_loop p out ids = (m, None) -> table_ok p (seen ++ ids) m.
Proof.
  induction ids as [|id ids IH]; intros seen out m Hok; cbn.
  - intros [= <-]. by rewrite app_nil_r.
  - destruct (out !! _) as [other|] eqn:E; [done|].
    intros Hl. rewrite cons_middle, app_assoc. revert Hl. apply IH.
    intros prefix k. destruct (decide (prefix = serverPrefix id (Servers p !!! id))) as [->|Hne].
    + rewrite lookup_insert_eq. split.
      * intros [= <-]. split; [set_solver|done].
      * intros [[Hin|Hin%list_elem_of_singleton]%elem_of_app Hp]; [|by subst].
        assert (out !! serverPrefix id (Servers p !!! id) = Some k) by by apply Hok.
        congruence.
    + rewrite lookup_insert_ne by done. rewrite (Hok prefix k). set_solver.
Qed.

Lemma elem_sortedServerIDs servers id : id ∈ sortedServerIDs servers <-> id ∈ dom servers.
Proof.
  unfold sortedServerIDs, sort_Strings.
  by rewrite merge_sort_Permutation, elem_of_elements.
Qed.

(** An aggregator without configuration error finds a server by its prefix, and no other. *)
Lemma serverByPrefix_exact p prefix id server :
  configErr (NewAggregator p) = None ->
  serverByPrefix (NewAggregator p) prefix = Some (id, server) <->
  Servers p !! id = Some server /\ serverPrefix id server = prefix.
Proof.
  unfold NewAggregator, profileServerPrefixes.
  destruct (prefixes_loop p ∅ _) as [m err] eqn:E. cbn. intros ->.
  apply (prefixes_loop_ok _ _ []) in E; [|intros ??; rewrite lookup_empty; set_solver].
  cbn [app] in E. unfold serverByPrefix. cbn. split.
  - intros H. destruct (m !! prefix) as [k|] eqn:Ek; [|done]. cbn in H.
    destruct (Servers p !! k) as [sv|] eqn:Es; [|done]. cbn in H. simplify_eq.
    apply E in Ek as [_ Hp]. split; [done|].
    by rewrite (lookup_total_correct _ _ _ Es) in Hp.
  - intros [Hs Hp]. assert (Hm : m !! prefix = Some id).
    { apply E. split; [apply elem_sortedServerIDs; by eapply elem_of_dom_2|].
      by rewrite (lookup_total_correct _ _ _ Hs). }
    rewrite Hm. cbn. by rewrite Hs.
Qed.

(** ** What is sent *)

Section sent.
Context `{JS : Json} (net : backend_request -> string + http_response)
        (url_error : string -> option string).

(** A request that the router may send: to a server of the profile, at its own address,
    with the headers made for it. *)
Definition home_request (a : Aggregator) (q : backend_request) : Prop :=
  exists id server sessionID,
    Servers (profile a) !! id = Some server /\
    br_url q = TrimRight (URL server) "/" +:+ "/mcp" /\
    br_headers q = backend_headers a id server sessionID.

(** From [s] to [s'] only such requests were sent. *)
Definition sends_home (a : Aggregator) (s s' : state) : Prop :=
  exists new, sent s' = sent s ++ new /\ Forall (home_request a) new.

Lemma sends_home_refl a s : sends_home a s s.
Proof. exists []. by rewrite app_nil_r. Qed.

Lemma sends_home_trans a s1 s2 s3 :
  sends_home a s1 s2 -> sends_home a s2 s3 -> sends_home a s1 s3.
Proof.
  intros [n1 [E1 F1]] [n2 [E2 F2]]. exists (n1 ++ n2).
  rewrite E2, E1, app_assoc. split; [done|]. by apply Forall_app.
Qed.

Lemma recordServer_sent a id server st s s' :
  sends_home a s s' -> sends_home a s (recordServer id server st s').
Proof. done. Qed.

Lemma callServer_sends {T} (dec : json -> string + T) a id server sid i meth ps s :
  Servers (profile a) !! id = Some server ->
  sends_home a s (callServer net url_error dec a id server sid i meth ps s).2 /\
  servers (callServer net url_error dec a id server sid i meth ps s).2 = servers s.
Proof.
  intros Hs. unfold callServer.
  destruct (marshal_error _); [split; [apply sends_home_refl|done]|].
  destruct (url_error _); [split; [apply sends_home_refl|done]|].
  cbv zeta. set (q := mkBackendRequest _ _ _).
  assert (Hq : sends_home a s (mkState (servers s) (sent s ++ [q]))).
  { exists [q]. split; [done|]. apply Forall_singleton. by exists id, server, sid. }
  repeat case_match; cbn; done.
Qed.

#[local] Hint Resolve sends_home_refl recordServer_sent : transit.

(** Case analysis on a call to a backend, keeping what it sent. *)
Ltac call_cases Hs :=
  match goal with
  | |- context [callServer ?net ?url ?dec ?a ?id ?sv ?sid ?i ?m ?ps ?s] =>
      let H := fresh "Hcall" in
      pose proof (callServer_sends dec a id sv sid i m ps s Hs) as [H _];
      destruct (callServer net url dec a id sv sid i m ps s) as [[?|[? ?]] ?]; cbn in H |- *
  end.

Lemma init_loop_sends a i ids : forall b s,
  Forall (fun id => id ∈ dom (Servers (profile a))) ids ->
  sends_home a s (init_loop net url_error a i ids b s).2.
Proof.
  induction ids as [|id ids IH]; intros b s Hf; cbn; [auto with transit|].
  apply Forall_cons in Hf as [[sv Hs]%elem_of_dom Hf].
  rewrite (lookup_total_correct _ _ _ Hs). call_cases Hs; [done|].
  eapply sends_home_trans; [|by apply IH]. by apply recordServer_sent.
Qed.

Lemma fan_out_sends a i session ids : forall s,
  Forall (fun id => id ∈ dom (Servers (profile a))) ids ->
  sends_home a s (fan_out net url_error a i session ids s).2.
Proof.
  induction ids as [|id ids IH]; intros s Hf; cbn; [auto with transit|].
  apply Forall_cons in Hf as [[sv Hs]%elem_of_dom Hf]. unfold tools_of.
  rewrite (lookup_total_correct _ _ _ Hs).
  call_cases Hs; match goal with
  | H : sends_home a s ?s1 |- context [fan_out net url_error a i session ids ?s1] =>
      specialize (IH s1 Hf); destruct (fan_out net url_error a i session ids s1);
      cbn in *; by eapply sends_home_trans
  end.
Qed.

Lemma collect_sent a results : forall merged healthy s,
  sent (collect a results merged healthy s).2 = sent s.
Proof. induction results as [|[id [e|ts]] rs IH]; intros; cbn; [done|by rewrite IH..]. Qed.

Lemma callTool_sends a i ps session s :
  sends_home a s (callTool net url_error a i ps session s).2.
Proof.
  unfold callTool. destruct (decode_call_params ps) as [c|]; [|cbn; auto with transit].
  case_decide; [cbn; auto with transit|].
  destruct (Cut (c_name c) ".") as [[pre tool] ok].
  destruct (negb ok || _); [cbn; auto with transit|].
  destruct (serverByPrefix a pre) as [[id sv]|] eqn:E; [|cbn; auto with transit].
  destruct (serverToolEnabled sv tool); [|cbn; auto with transit].
  assert (Hs : Servers (profile a) !! id = Some sv).
  { unfold serverByPrefix in E. destruct (serverForPrefix a !! pre) as [k|]; [|done]. cbn in E.
    destruct (Servers (profile a) !! k) eqn:Ek; [|done]. cbn in E. by simplify_eq. }
  call_cases Hs; done.
Qed.

Context (sort_Slice : list Tool -> list Tool).

(** Both endpoints send nothing but requests to the profile's servers. *)
Lemma handleProfile_sends a r arrival s :
  arrival ≡ₚ sortedServerIDs (Servers (profile a)) ->
  sends_home a s (handleProfile net url_error sort_Slice a r arrival s).2.
Proof.
  intros Harr.
  assert (Hin : forall l, l ≡ₚ sortedServerIDs (Servers (profile a)) ->
                Forall (fun id => id ∈ dom (Servers (profile a))) l).
  { intros l Hl. apply Forall_forall. intros id. rewrite Hl. apply elem_sortedServerIDs. }
  unfold handleProfile. destruct (configErr a); [cbn; auto with transit|].
  case_decide; [cbn; auto with transit|].
  destruct (authorized _ _); [|cbn; auto with transit]. cbn [negb].
  destruct (decode_request _) as [req|]; [|cbn; auto with transit]. cbv zeta.
  case_decide.
  { unfold initializeBackends.
    pose proof (init_loop_sends a (rq_id req) _ ∅ s (Hin _ (Permutation_refl _))) as Hi.
    destruct (init_loop _ _ _ _ _ _ _) as [[?|?] ?]; done. }
  case_decide.
  { destruct (sessionFromRequest _ _) as [session|]; [|cbn; auto with transit].
    unfold listTools.
    pose proof (fan_out_sends a (rq_id req) session arrival s (Hin _ Harr)) as Hf.
    destruct (fan_out _ _ _ _ _ _ _) as [rs s1]. cbn in Hf.
    pose proof (collect_sent a rs [] false s1) as Hc.
    destruct (collect _ _ _ _ _) as [[tools healthy] s2]. cbn in Hc.
    destruct Hf as [new [E F]]. destruct healthy; exists new; cbn; by rewrite Hc. }
  case_decide; [|cbn; auto with transit].
  destruct (sessionFromRequest _ _) as [session|]; [|cbn; auto with transit].
  pose proof (callTool_sends a (rq_id req) (rq_params req) session s) as Hc.
  destruct (callTool _ _ _ _ _ _ _) as [[?|?] ?]; done.
Qed.

Lemma handleCatalogServer_sends a r s :
  sends_home a s (handleCatalogServer net url_error a r s).2.
Proof.
  unfold handleCatalogServer. destruct (configErr a); [cbn; auto with transit|]. cbv zeta.
  destruct (Servers (profile a) !! cq_path r) as [server|] eqn:Hs; [|cbn; auto with transit].
  destruct (decode_request _) as [req|]; [|cbn; auto with transit].
  repeat case_decide; try (cbn; by auto with transit); call_cases Hs; done.
Qed.
End sent.

(** What [Header.Get("authorization")] reads in a backend request. *)
Lemma backend_authorization a id server sessionID :
  CanonicalMIMEHeaderKey (routeHeader a) <> "Authorization" ->
  backend_headers a id server sessionID !! "Authorization" =
    if decide (Credential server = "") then None else Some (Credential server).
Proof.
  intros Hroute. unfold backend_headers, header_set.
  change (CanonicalMIMEHeaderKey "content-type") with "Content-Type".
  change (CanonicalMIMEHeaderKey "accept") with "Accept".
  change (CanonicalMIMEHeaderKey "authorization") with "Authorization".
  change (CanonicalMIMEHeaderKey SessionIDHeader) with "Mcp-Session-Id".
  change (CanonicalMIMEHeaderKey ProtocolVersionHeader) with "Mcp-Protocol-Version".
  rewrite lookup_insert_ne by done.
  repeat case_decide; rewrite ?(lookup_insert_ne _ "Mcp-Session-Id") by done;
    rewrite ?lookup_insert_eq; try done; by rewrite !lookup_insert_ne.
Qed.

(** The router never sends a backend's credential anywhere else: whatever a client asks
    of the profile endpoint or of a catalog endpoint, every request sent goes to the address
    of a server of the profile, and its Authorization header is that server's credential, or
    absent when the server has none (for a route header other than Authorization). *)
Theorem credentials_stay_home `{JS : Json} net url_error sort_Slice a r arrival s :
  arrival ≡ₚ sortedServerIDs (Servers (profile a)) ->
  CanonicalMIMEHeaderKey (routeHeader a) <> "Authorization" ->
  forall s', s' = (handleProfile net url_error sort_Slice a r arrival s).2 \/
             s' = (handleCatalogServer net url_error a r s).2 ->
  exists new, sent s' = sent s ++ new /\
    Forall (fun q => exists id server,
      Servers (profile a) !! id = Some server /\
      br_url q = TrimRight (URL server) "/" +:+ "/mcp" /\
      br_headers q !! "Authorization" =
        if decide (Credential server = "") then None else Some (Credential server)) new.
Proof.
  intros Harr Hroute s' Hs'.
  assert (Hh : sends_home a s s').
  { destruct Hs' as [-> | ->]; [by apply handleProfile_sends|apply handleCatalogServer_sends]. }
  destruct Hh as [new [E F]]. exists new. split; [done|].
  eapply Forall_impl; [exact F|]. intros q (id & server & sid & Hid & Hurl & Hhd).
  exists id, server. split_and!; [done|done|]. rewrite Hhd. by apply backend_authorization.
Qed.

(** A request to the profile endpoint reaches a backend, or changes anything, only when
    the configuration is sound, the path names the profile, the client presents the
    profile's key and the body is a JSON-RPC request; otherwise the answer is an error with
    the status and code of the first check that failed. *)
Theorem profile_requests_admitted `{JS : Json} net url_error sort_Slice a r arrival s :
  let out := handleProfile net url_error sort_Slice a r arrival s in
  let refused status code :=
    out.2 = s /\ cs_status out.1 = status /\ rs_result (cs_body out.1) = None /\
    (Code <$> rs_error (cs_body out.1)) = Some code in
  (is_Some (configErr a) -> refused 500 (-32012))%Z /\
  (configErr a = None -> cq_path r <> profileID a -> refused 404 (-32004))%Z /\
  (configErr a = None -> cq_path r = profileID a -> authorized a (cq_header r) = false ->
   refused 401 (-32001))%Z /\
  (configErr a = None -> cq_path r = profileID a -> authorized a (cq_header r) = true ->
   decode_request (cq_body r) = None -> refused 400 (-32700))%Z.
Proof.
  cbv zeta. unfold handleProfile. split_and!.
  - intros [e ->]. done.
  - intros -> H. by rewrite decide_True.
  - intros -> H ->. by rewrite decide_False by (intros []; done).
  - intros -> H -> ->. by rewrite decide_False by (intros []; done).
Qed.

(** ** The merged tool list *)

Section tools.
Context `{JS : Json} (net : backend_request -> string + http_response)
        (url_error : string -> option string).

(** [sort.Slice] by name: some arrangement of the same tools with sorted names. *)
Definition sorts (sort_Slice : list Tool -> list Tool) : Prop :=
  forall l, sort_Slice l ≡ₚ l /\ Sorted str_le (t_name <$> sort_Slice l).

Abbreviation callTool := (McpRouter.callTool net url_error).

(** What a backend answers does not depend on what was sent before. *)
Definition answer (a : Aggregator) (i : json) (session : compositeSession) (id : string) :
    string + list Tool :=
  (tools_of net url_error a i session id (mkState ∅ [])).1.

Lemma callServer_answer {T} (dec : json -> string + T) a id server sid i meth ps s s' :
  (callServer net url_error dec a id server sid i meth ps s).1 =
  (callServer net url_error dec a id server sid i meth ps s').1 /\
  exists q, sent (callServer net url_error dec a id server sid i meth ps s).2 = sent s ++ q /\
            sent (callServer net url_error dec a id server sid i meth ps s').2 = sent s' ++ q.
Proof.
  unfold callServer. destruct (marshal_error _); [split; [done|]; exists []; by rewrite !app_nil_r|].
  destruct (url_error _); [split; [done|]; exists []; by rewrite !app_nil_r|].
  cbv zeta. repeat case_match; split; try done; cbn; by eexists.
Qed.

(** The requests that asking one backend for its tools sends. *)
Definition asks (a : Aggregator) (i : json) (session : compositeSession) (id : string) :
    list backend_request :=
  sent (tools_of net url_error a i session id (mkState ∅ [])).2.

Lemma tools_of_answer a i session id s :
  id ∈ dom (Servers (profile a)) ->
  tools_of net url_error a i session id s =
  (answer a i session id, mkState (servers s) (sent s ++ asks a i session id)).
Proof.
  intros [sv Hs]%elem_of_dom. unfold answer, asks, tools_of.
  rewrite (lookup_total_correct _ _ _ Hs).
  set (sid := default "" _).
  destruct (callServer_answer decode_tools a id sv sid i MethodToolsList [] s (mkState ∅ []))
    as [H1 (q & H2 & H3)].
  pose proof (callServer_sends net url_error decode_tools a id sv sid i MethodToolsList [] s Hs)
    as [_ H4].
  destruct (callServer _ _ _ _ _ _ _ _ _ _ s) as [r1 s1].
  destruct (callServer _ _ _ _ _ _ _ _ _ _ (mkState ∅ [])) as [r2 s2].
  cbn [fst snd] in *. subst r2. cbn [sent app] in H3.
  assert (Hs1 : s1 = mkState (servers s) (sent s ++ sent s2)).
  { rewrite H3, <- H2, <- H4. by destruct s1. }
  rewrite Hs1. by destruct r1 as [?|[? ?]].
Qed.

Lemma fan_out_answers a i session ids : forall s,
  Forall (fun id => id ∈ dom (Servers (profile a))) ids ->
  fan_out net url_error a i session ids s =
  ((fun id => (id, answer a i session id)) <$> ids,
   mkState (servers s) (sent s ++ (ids ≫= asks a i session))).
Proof.
  induction ids as [|id ids IH]; intros s Hf; cbn.
  - rewrite app_nil_r. by destruct s.
  - apply Forall_cons in Hf as [Hid Hf]. rewrite tools_of_answer by done.
    rewrite IH by done. cbn. by rewrite app_assoc.
Qed.

(** The contribution of one backend to the merged list, and its line in the dump. *)
Definition share (a : Aggregator) (i : json) (session : compositeSession) (id : string) :
    list Tool :=
  match answer a i session id with
  | inl _ => []
  | inr ts => namespaced id (Servers (profile a) !!! id) ts
  end.

Definition line (a : Aggregator) (i : json) (session : compositeSession) (id : string) :
    ServerDump :=
  let server := Servers (profile a) !!! id in
  mkServerDump (URL server) (serverPrefix id server)
    (negb (bool_decide (Credential server = "")))
    (match answer a i session id with inl e => "error: " +:+ e | inr _ => "ok" end).

Definition healthy (a : Aggregator) (i : json) (session : compositeSession) (id : string) :
    bool :=
  match answer a i session id with inl _ => false | inr _ => true end.

Lemma collect_answers a i session ids : forall merged h s,
  collect a ((fun id => (id, answer a i session id)) <$> ids) merged h s =
  (merged ++ (ids ≫= share a i session), h || existsb (healthy a i session) ids,
   mkState (foldl (fun m id => <[id := line a i session id]> m) (servers s) ids) (sent s)).
Proof.
  induction ids as [|id ids IH]; intros merged h s; cbn.
  - rewrite app_nil_r, orb_false_r. by destruct s.
  - unfold share at 1, healthy at 1. destruct (answer a i session id) as [e|ts] eqn:E;
      rewrite IH; cbn; rewrite ?app_assoc, ?orb_true_r;
      do 3 f_equal; unfold line; by rewrite E.
Qed.

(** [listTools] as one expression. *)
Lemma listTools_eq sort_Slice a i session arrival s :
  arrival ≡ₚ sortedServerIDs (Servers (profile a)) ->
  listTools net url_error sort_Slice a i session arrival s =
  (sort_Slice (arrival ≫= share a i session), existsb (healthy a i session) arrival,
   mkState (foldl (fun m id => <[id := line a i session id]> m) (servers s) arrival)
           (sent s ++ (arrival ≫= asks a i session))).
Proof.
  intros Harr. unfold listTools. rewrite fan_out_answers, collect_answers; [done|].
  apply Forall_forall. intros id. rewrite Harr. apply elem_sortedServerIDs.
Qed.

Lemma share_elem a i session id t :
  t ∈ share a i session id ->
  exists ts t0, answer a i session id = inr ts /\ t0 ∈ ts /\
    serverToolEnabled (Servers (profile a) !!! id) (t_name t0) = true /\
    t_name t = serverPrefix id (Servers (profile a) !!! id) +:+ "." +:+ t_name t0.
Proof.
  unfold share. destruct (answer a i session id) as [|ts]; [set_solver|].
  unfold namespaced. intros [t0 [-> [He Hin]%list_elem_of_filter]]%list_elem_of_fmap.
  by exists ts, t0.
Qed.

(** Calling a namespaced tool: the branch of [callTool] that is taken. *)
Lemma callTool_namespaced p i raw session s id server tool args :
  configErr (NewAggregator p) = None ->
  Servers p !! id = Some server ->
  "."%char ∉ to_chars (serverPrefix id server) ->
  serverToolEnabled server tool = true -> tool <> "" ->
  decode_call_params raw = Some (mkCall (serverPrefix id server +:+ "." +:+ tool) args) ->
  callTool (NewAggregator p) i raw session s =
  match callServer net url_error decode_call (NewAggregator p) id server
          (default "" (Backends session !! id)) i MethodToolsCall
          (encode_call_params (mkCall tool args)) s with
  | (inl e, s') => (inl (errorResponse i (-32003) ("tool backend failed: " +:+ id)),
                    recordServer id server ("error: " +:+ e) s')
  | (inr (_, out), s') => (inr out, recordServer id server "ok" s')
  end.
Proof.
  intros Hcfg Hs Hdot Hen Hne Hdec. unfold McpRouter.callTool. rewrite Hdec. cbn [c_name c_arguments].
  assert (Hcut : Cut (serverPrefix id server +:+ "." +:+ tool) "." =
                 (serverPrefix id server, tool, true)) by by apply Cut_app.
  rewrite decide_False by (intros Hemp; rewrite Hemp in Hcut; discriminate).
  rewrite Hcut. rewrite bool_decide_false by done. cbn [negb orb].
  rewrite (proj2 (serverByPrefix_exact p _ _ _ Hcfg) (conj Hs eq_refl)). by rewrite Hen.
Qed.
End tools.

(** The merged tool list, the health verdict and the dump do not depend on the order in
    which the backends' answers arrive: the names come in the same sorted order, with the
    same tools, after the same requests. *)
Theorem tools_list_order_independent `{JS : Json} net url_error sort_Slice a i session
    arrival arrival' s :
  sorts sort_Slice ->
  arrival ≡ₚ sortedServerIDs (Servers (profile a)) ->
  arrival' ≡ₚ sortedServerIDs (Servers (profile a)) ->
  let '(tools, healthy, s1) := listTools net url_error sort_Slice a i session arrival s in
  let '(tools', healthy', s1') := listTools net url_error sort_Slice a i session arrival' s in
  (t_name <$> tools) = (t_name <$> tools') /\ tools ≡ₚ tools' /\ healthy = healthy' /\
  servers s1 = servers s1' /\ sent s1 ≡ₚ sent s1'.
Proof.
  intros Hsort H1 H2. rewrite !listTools_eq by done.
  assert (Hp : arrival ≡ₚ arrival') by by rewrite H1, H2.
  assert (Ht : sort_Slice (arrival ≫= share net url_error a i session) ≡ₚ
               sort_Slice (arrival' ≫= share net url_error a i session)).
  { rewrite (proj1 (Hsort _)), (proj1 (Hsort (arrival' ≫= _))). by rewrite Hp. }
  cbn [servers sent]. split_and!; [|done| | |].
  - apply (Sorted_unique str_le); [apply Hsort..|]. by rewrite Ht.
  - apply eq_true_iff_eq. rewrite !existsb_exists. setoid_rewrite <- list_elem_of_In.
    by setoid_rewrite Hp.
  - by apply foldl_insert_perm.
  - by rewrite Hp.
Qed.

(** A listed tool can be called: when no prefix holds a dot, every tool of the merged
    list belongs to a server of the profile that offered it and has it enabled, and a call
    by its listed name goes to that server, with that server's session and the backend's own
    name for the tool. *)
Theorem listed_tools_are_callable `{JS : Json} net url_error sort_Slice p i session arrival s t :
  sorts sort_Slice ->
  configErr (NewAggregator p) = None ->
  (forall id server, Servers p !! id = Some server ->
     "."%char ∉ to_chars (serverPrefix id server)) ->
  arrival ≡ₚ sortedServerIDs (Servers p) ->
  t ∈ (listTools net url_error sort_Slice (NewAggregator p) i session arrival s).1.1 ->
  exists id server ts t0,
    Servers p !! id = Some server /\
    answer net url_error (NewAggregator p) i session id = inr ts /\ t0 ∈ ts /\
    serverToolEnabled server (t_name t0) = true /\
    (t_name t0 <> "" -> forall i' raw args session' s',
       decode_call_params raw = Some (mkCall (t_name t) args) ->
       callTool net url_error (NewAggregator p) i' raw session' s' =
       match callServer net url_error decode_call (NewAggregator p) id server
               (default "" (Backends session' !! id)) i' MethodToolsCall
               (encode_call_params (mkCall (t_name t0) args)) s' with
       | (inl e, s1) => (inl (errorResponse i' (-32003) ("tool backend failed: " +:+ id)),
                         recordServer id server ("error: " +:+ e) s1)
       | (inr (_, out), s1) => (inr out, recordServer id server "ok" s1)
       end).
Proof.
  intros Hsort Hcfg Hdot Harr Ht.
  assert (Hprof : profile (NewAggregator p) = p)
    by (unfold NewAggregator; by destruct (profileServerPrefixes p)).
  rewrite listTools_eq in Ht by by rewrite Hprof. cbn in Ht.
  rewrite (proj1 (Hsort _)) in Ht.
  apply list_elem_of_bind in Ht as [id [Ht Hid]].
  apply share_elem in Ht as (ts & t0 & Ha & Hin & Hen & Hname).
  rewrite Harr in Hid. apply elem_sortedServerIDs, elem_of_dom in Hid as [server Hs].
  rewrite Hprof, (lookup_total_correct _ _ _ Hs) in Hen, Hname.
  exists id, server, ts, t0. split_and!; [done..|].
  intros Hne i' raw args session' s' Hdec. rewrite Hname in Hdec.
  apply callTool_namespaced; eauto.
Qed.

(** ** Sessions *)

(** The session a backend gave on initialize. *)
Definition gave_session `{JS : Json} net url_error (a : Aggregator) (i : json) (s : state)
    (id sessionID : string) : Prop :=
  exists out, (callServer net url_error decode_init a id (Servers (profile a) !!! id) "" i
                 MethodInitialize (encode_init_params init_params) s).1 = inr (sessionID, out).

Lemma init_loop_backends `{JS : Json} net url_error a i s0 ids : forall b s b' s',
  init_loop net url_error a i ids b s = (inr b', s') ->
  dom b' = dom b ∪ list_to_set ids /\
  (forall id, id ∉ ids -> b' !! id = b !! id) /\
  (forall id, id ∈ ids -> exists sid, b' !! id = Some sid /\
     gave_session net url_error a i s0 id sid).
Proof.
  induction ids as [|id ids IH]; intros b s b' s'; cbn.
  { intros [= <- <-]. split_and!; [set_solver|done|set_solver]. }
  destruct (callServer_answer net url_error decode_init a id (Servers (profile a) !!! id) "" i
              MethodInitialize (encode_init_params init_params) s s0) as [Hsame _].
  destruct (callServer _ _ _ _ _ _ _ _ _ _ s) as [[e|[sid out]] s1]; [done|].
  cbn in Hsame. intros Hl. destruct (IH _ _ _ _ Hl) as (Hdom & Hout & Hin).
  split_and!.
  - rewrite Hdom. set_solver.
  - intros k Hk. rewrite Hout by set_solver. apply lookup_insert_ne. set_solver.
  - intros k Hk. destruct (decide (k ∈ ids)) as [|Hn]; [by apply Hin|].
    assert (k = id) as -> by set_solver. exists sid. split; [|by exists out].
    rewrite Hout by done. apply lookup_insert_eq.
Qed.

(** The session identifier that initialize hands the client is accepted by the later
    requests, and gives back, for every server of the profile, the session which that
    server itself returned. *)
Theorem initialized_session_accepted `{JS : Json} net url_error a i s sid res s' header :
  "@"%char ∉ to_chars (profileID a) ->
  Forall id_ok (sortedServerIDs (Servers (profile a))) ->
  initializeBackends net url_error a i s = (inr (sid, res), s') ->
  header SessionIDHeader = sid ->
  exists session, sessionFromRequest a header = Some session /\
    dom (Backends session) = dom (Servers (profile a)) /\
    forall id, id ∈ dom (Servers (profile a)) -> exists backend,
      Backends session !! id = Some backend /\ gave_session net url_error a i s id backend.
Proof.
  intros Hat Hok Hinit Hh. unfold initializeBackends in Hinit.
  destruct (init_loop _ _ _ _ _ _ _) as [[e|b] s1] eqn:Hl; [done|].
  injection Hinit as Hsid _ _. apply (init_loop_backends _ _ _ _ s) in Hl as (Hdom & _ & Hin).
  assert (Hd : dom b = dom (Servers (profile a))).
  { rewrite Hdom. apply set_eq. intros id.
    rewrite elem_of_union, elem_of_list_to_set, elem_sortedServerIDs. set_solver. }
  assert (Hrt : decodeCompositeSession sid = inr (mkSession "mcp-profile-router" (profileID a) "" b)).
  { rewrite <- Hsid. apply session_roundtrip; [by apply (bool_decide_unpack _)|done|done|].
    rewrite Forall_forall in *. intros id Hid. apply Hok, elem_sortedServerIDs.
    rewrite <- Hd. by apply elem_of_elements. }
  exists (mkSession "mcp-profile-router" (profileID a) "" b). cbn. split_and!; [|done|].
  - unfold sessionFromRequest. rewrite Hh, decide_False.
    + rewrite Hrt. by rewrite decide_True.
    + intros ->. discriminate.
  - intros id Hid. apply Hin. by apply elem_sortedServerIDs.
Qed.

(** ** A concrete router *)

Abbreviation to_bytes := String.list_byte_of_string.
Abbreviation of_bytes := String.string_of_list_byte.

(** A JSON syntax in which a request is its method and a tool call its tool's name. *)
#[local] Instance toy_json : Json := {|
  profile_error_text _ := "";
  decode_request b := if decide (b = []) then None
                      else Some (mkRequest (to_bytes "1") (of_bytes b) (to_bytes "a.search"));
  decode_call_params raw := Some (mkCall (of_bytes raw) []);
  encode_call_params c := to_bytes (c_name c);
  encode_init_params _ := [];
  encode_raw raw := raw;
  marshal_error _ := None;
  decode_init _ := inr (mkInit ProtocolVersion [] (mkImplementation "b" "1"));
  decode_tools raw := inr [mkTool (of_bytes raw) "" []; mkTool "hidden" "" []];
  decode_call raw := inr (mkCallResult [("text", of_bytes raw)] [] false);
|}.

(** Every backend answers with a session named after its address and one tool, [search]. *)
Definition toy_net (q : backend_request) : string + http_response :=
  inr (mkHttpResponse 200 ("sess-" +:+ br_url q) (inr (None, to_bytes "search"))).

Definition toy_url_error (_ : string) : option string := None.

Definition name_le (t t' : Tool) : Prop := str_le (t_name t) (t_name t').

#[local] Instance name_le_dec : RelDecision name_le.
Proof. intros t t'. unfold name_le. apply _. Defined.

#[local] Instance name_le_total : Total name_le.
Proof. intros t t'. apply (total str_le). Qed.

Definition by_name (l : list Tool) : list Tool := merge_sort name_le l.

Lemma by_name_sorts : sorts by_name.
Proof.
  intros l. split; [apply merge_sort_Permutation|].
  by eapply (Sorted_fmap t_name name_le), Sorted_merge_sort, _.
Qed.

Definition toy_profile : Profile_t :=
  mkProfile "dev" "dev" "key" "" 0
    {[ "a" := mkServer "http://a/" "" "cred-a" (Some {[ "search" := true ]});
       "b" := mkServer "http://b" "bb" "" None ]}.

Definition toy_a : Aggregator := NewAggregator toy_profile.
Definition toy_request (method : string) : client_request :=
  mkClientRequest "dev" (fun h => if decide (h = "authorization") then "Bearer key" else "")
    (to_bytes method).
Definition empty_state : state := mkState ∅ [].
Definition toy_order : list string := ["b"; "a"].

Lemma toy_order_perm : toy_order ≡ₚ sortedServerIDs (Servers toy_profile).
Proof.
  replace (sortedServerIDs (Servers toy_profile)) with ["a"; "b"] by reflexivity.
  apply perm_swap.
Qed.

Lemma credentials_stay_home_witness :
  exists new,
    sent (handleProfile toy_net toy_url_error by_name toy_a (toy_request MethodInitialize)
            toy_order empty_state).2 = sent empty_state ++ new /\
    Forall (fun q => exists id server,
      Servers (profile toy_a) !! id = Some server /\
      br_url q = TrimRight (URL server) "/" +:+ "/mcp" /\
      br_headers q !! "Authorization" =
        if decide (Credential server = "") then None else Some (Credential server)) new.
Proof.
  apply (credentials_stay_home toy_net toy_url_error by_name toy_a
           (toy_request MethodInitialize) toy_order empty_state).
  - apply toy_order_perm.
  - vm_compute. discriminate.
  - by left.
Defined.

Lemma tools_list_order_independent_witness :
  let '(tools, healthy, s1) := listTools toy_net toy_url_error by_name toy_a (to_bytes "1")
        (mkSession "" "dev" "" ∅) toy_order empty_state in
  let '(tools', healthy', s1') := listTools toy_net toy_url_error by_name toy_a (to_bytes "1")
        (mkSession "" "dev" "" ∅) ["a"; "b"] empty_state in
  (t_name <$> tools) = (t_name <$> tools') /\ tools ≡ₚ tools' /\ healthy = healthy' /\
  servers s1 = servers s1' /\ sent s1 ≡ₚ sent s1'.
Proof.
  apply (tools_list_order_independent toy_net toy_url_error by_name toy_a (to_bytes "1")
           (mkSession "" "dev" "" ∅) toy_order ["a"; "b"] empty_state).
  - exact by_name_sorts.
  - apply toy_order_perm.
  - by replace (sortedServerIDs (Servers (profile toy_a))) with ["a"; "b"] by reflexivity.
Defined.

Lemma listed_tools_are_callable_witness :
  let t := mkTool "a.search" "" [] in
  t ∈ (listTools toy_net toy_url_error by_name toy_a (to_bytes "1")
         (mkSession "" "dev" "" ∅) toy_order empty_state).1.1 /\
  exists id server ts t0,
    Servers toy_profile !! id = Some server /\
    answer toy_net toy_url_error toy_a (to_bytes "1") (mkSession "" "dev" "" ∅) id = inr ts /\
    t0 ∈ ts /\ serverToolEnabled server (t_name t0) = true /\
    (t_name t0 <> "" -> forall i' raw args session' s',
       decode_call_params raw = Some (mkCall (t_name t) args) ->
       callTool toy_net toy_url_error toy_a i' raw session' s' =
       match callServer toy_net toy_url_error decode_call toy_a id server
               (default "" (Backends session' !! id)) i' MethodToolsCall
               (encode_call_params (mkCall (t_name t0) args)) s' with
       | (inl e, s1) => (inl (errorResponse i' (-32003) ("tool backend failed: " +:+ id)),
                         recordServer id server ("error: " +:+ e) s1)
       | (inr (_, out), s1) => (inr out, recordServer id server "ok" s1)
       end).
Proof.
  cbv zeta.
  assert (Ht : mkTool "a.search" "" [] ∈
    (listTools toy_net toy_url_error by_name toy_a (to_bytes "1")
         (mkSession "" "dev" "" ∅) toy_order empty_state).1.1).
  { apply list_elem_of_In. vm_compute. by left. }
  split; [exact Ht|].
  apply (listed_tools_are_callable toy_net toy_url_error by_name toy_profile (to_bytes "1")
           (mkSession "" "dev" "" ∅) toy_order empty_state).
  - exact by_name_sorts.
  - reflexivity.
  - change (map_Forall (fun id server => "."%char ∉ to_chars (serverPrefix id server))
              (Servers toy_profile)).
    by apply (bool_decide_unpack _).
  - apply toy_order_perm.
  - exact Ht.
Defined.

Definition toy_init :=
  initializeBackends toy_net toy_url_error toy_a (to_bytes "1") empty_state.
Definition toy_sid : string := match toy_init.1 with inr (sid, _) => sid | inl e => e end.

Lemma initialized_session_accepted_witness :
  exists session,
    sessionFromRequest toy_a (fun h => if decide (h = SessionIDHeader) then toy_sid else "") =
      Some session /\
    dom (Backends session) = dom (Servers (profile toy_a)) /\
    forall id, id ∈ dom (Servers (profile toy_a)) -> exists backend,
      Backends session !! id = Some backend /\
      gave_session toy_net toy_url_error toy_a (to_bytes "1") empty_state id backend.
Proof.
  eapply (initialized_session_accepted toy_net toy_url_error toy_a (to_bytes "1") empty_state
            toy_sid).
  - by apply (bool_decide_unpack _).
  - by apply (bool_decide_unpack _).
  - vm_compute. reflexivity.
  - reflexivity.
Defined.

(** ** Where the configuration check is too weak *)

(** [ValidateProfile] accepts a server whose name holds a dot; its tools are listed, and
    none of them can be called. *)
Definition dotted_profile : Profile_t :=
  mkProfile "dev" "dev" "" "" 0 {[ "a.b" := mkServer "http://a" "" "" None ]}.

Lemma dotted_prefix_lists_uncallable_tools :
  ValidateProfile dotted_profile = None /\
  (t_name <$> (listTools toy_net toy_url_error by_name (NewAggregator dotted_profile)
     (to_bytes "1") (mkSession "" "dev" "" ∅) ["a.b"] empty_state).1.1) =
    ["a.b.hidden"; "a.b.search"] /\
  (callTool toy_net toy_url_error (NewAggregator dotted_profile) (to_bytes "1")
     (to_bytes "a.b.search") (mkSession "" "dev" "" ∅) empty_state).1 =
    inl (errorResponse (to_bytes "1") (-32602) "unknown tool: a.b.search").
Proof. split_and!; vm_compute; reflexivity. Qed.

(** [ValidateProfile] accepts a profile whose name holds the session separator; initialize
    succeeds, and the session it issues is refused. *)
Definition at_profile : Profile_t :=
  mkProfile "team@dev" "dev" "" "" 0 {[ "a" := mkServer "http://a" "" "" None ]}.

Lemma separator_in_profile_refuses_every_session :
  ValidateProfile at_profile = None /\
  match (initializeBackends toy_net toy_url_error (NewAggregator at_profile) (to_bytes "1")
           empty_state).1 with
  | inr (sid, _) => sessionFromRequest (NewAggregator at_profile) (fun _ => sid) = None
  | inl _ => False
  end.
Proof. split; vm_compute; reflexivity. Qed.
