(* ===== verification/HostLookup.v ===== *)
(** * HostLookup: clusters whose hosts are found by address

    What the two example routers (examples/cluster-router, examples/cluster-shard-router)
    share: the part of a cluster handle they use, the resolution of a target to an address,
    and the loop that makes every route's host known to Envoy before the routes are
    published. *)
From stdpp Require Import base list gmap strings sets.
From Stdlib Require Import ZArith Lia Ascii.
From S2P Require Import Prelude GoStrings HostSet.

(** ** The cluster *)

(** A cluster handle with [FindHostByAddress]; 0 is nil. *)
Class AddressedCluster (C : Type) := {
  cl_AddHosts : list HostSpec -> C -> list HostPtr * C;
  cl_UpdateHostHealth : HostPtr -> Z -> C -> C;
  FindHostByAddress : string -> C -> HostPtr;
}.

(** Adding one host returns one pointer.  When it is not nil the host is found by its address;
    when Envoy refuses the host (an invalid address) it is nil.  Adding and marking hosts
    loses none. *)
Class AddressedClusterLaws (C : Type) `{AddressedCluster C} : Prop := {
  find_added : forall spec ps c c', cl_AddHosts [spec] c = (ps, c') ->
    exists p, ps = [p] /\ (p <> 0%Z -> FindHostByAddress (Address spec) c' <> 0%Z);
  find_kept_add : forall specs ps c c' addr, cl_AddHosts specs c = (ps, c') ->
    FindHostByAddress addr c <> 0%Z -> FindHostByAddress addr c' <> 0%Z;
  find_kept_health : forall p h c addr,
    FindHostByAddress addr (cl_UpdateHostHealth p h c) = FindHostByAddress addr c;
}.

(** Envoy takes a host at this address whenever it is asked to. *)
Definition takes {C} `{AddressedCluster C} (addr : string) : Prop :=
  forall c : C, (cl_AddHosts [mkSpec addr "" 0 ∅] c).1 <> [0%Z].
Arguments takes C {_} addr.

(** ** Resolution of a target *)

(** An address a resolver returned: [To4] is not nil, or nil. *)
Inductive ip := V4 (text : string) | V6 (text : string).

Definition ip_text (a : ip) : string := match a with V4 t => t | V6 t => t end.
Definition is_v4 (a : ip) : bool := match a with V4 _ => true | V6 _ => false end.

(** [net.JoinHostPort]. *)
Definition JoinHostPort (host port : string) : string :=
  if Contains host ":" then "[" +:+ host +:+ "]:" +:+ port else host +:+ ":" +:+ port.

Section resolve.
(** [net.SplitHostPort] and the resolver. *)
Context (SplitHostPort : string -> string + (string * string))
        (LookupIPAddr : string -> string + list ip).

Definition resolveTarget (target : string) : string + string :=
  match SplitHostPort target with
  | inl e => inl ("invalid target " +:+ Quote target +:+ ": " +:+ e)
  | inr (host, port) =>
      match LookupIPAddr host with
      | inl e => inl ("resolve " +:+ Quote host +:+ ": " +:+ e)
      | inr addrs =>
          match list_find (fun a => is_v4 a = true) addrs with
          | Some (_, a) => inr (JoinHostPort (ip_text a) port)
          | None =>
              match addrs with
              | a :: _ => inr (JoinHostPort (ip_text a) port)
              | [] => inl ("resolve " +:+ Quote host +:+ ": no addresses")
              end
          end
      end
  end.

(** An IPv4 address is preferred, and any address is better than none. *)
Lemma resolveTarget_ok target host port addrs :
  SplitHostPort target = inr (host, port) -> LookupIPAddr host = inr addrs -> addrs <> [] ->
  exists a, a ∈ addrs /\ resolveTarget target = inr (JoinHostPort (ip_text a) port) /\
            ((exists b, b ∈ addrs /\ is_v4 b = true) -> is_v4 a = true).
Proof.
  intros Hs Hl Hne. unfold resolveTarget. rewrite Hs, Hl.
  destruct (list_find _ addrs) as [[i a]|] eqn:E.
  - apply list_find_Some in E as (Hi & Hv & _). exists a.
    split_and!; [by eapply list_elem_of_lookup_2|done|done].
  - destruct addrs as [|a addrs]; [done|]. exists a. split_and!; [set_solver|done|].
    intros (b & Hb & Hv). apply list_find_None in E. rewrite Forall_forall in E.
    by destruct (E b Hb).
Qed.
End resolve.

(** ** Making the hosts known *)

Section ensure.
Context {C : Type} `{AddressedCluster C}.

(** One route of [applySnapshot]: the host of the address, added when the cluster does not
    know it; [None] when no pointer is returned.  A nil pointer is not looked at. *)
Definition ensure_host (addr : string) (c : C) : option HostPtr * C :=
  let host := FindHostByAddress addr c in
  if decide (host <> 0%Z) then (Some host, c)
  else match cl_AddHosts [mkSpec addr "" 0 ∅] c with
       | ([], c) => (None, c)
       | (p :: _, c) => (Some p, cl_UpdateHostHealth p HostHealthy c)
       end.

(** The loop over the routes' addresses: the remembered hosts, whether it ran to the end,
    and the states of the cluster that other threads can see meanwhile. *)
Fixpoint ensure_hosts (addrs : list string) (hosts : gmap string HostPtr) (c : C) :
    bool * gmap string HostPtr * list C * C :=
  match addrs with
  | [] => (true, hosts, [], c)
  | addr :: addrs' =>
      match ensure_host addr c with
      | (None, c) => (false, hosts, [c], c)
      | (Some host, c) =>
          let '(ok, hosts, seen, c') := ensure_hosts addrs' (<[addr := host]> hosts) c in
          (ok, hosts, c :: seen, c')
      end
  end.

Context `{!AddressedClusterLaws C}.

Lemma ensure_host_keeps addr c r c' a :
  ensure_host addr c = (r, c') -> FindHostByAddress a c <> 0%Z -> FindHostByAddress a c' <> 0%Z.
Proof.
  unfold ensure_host. case_decide; [by intros [= <- <-]|].
  destruct (cl_AddHosts _ c) as [[|p ps] c1] eqn:E; intros [= <- <-] Ha;
    rewrite ?find_kept_health; by eapply find_kept_add.
Qed.

Lemma ensure_host_some addr c : exists p, (ensure_host addr c).1 = Some p.
Proof.
  unfold ensure_host. case_decide; [by eexists|].
  destruct (cl_AddHosts _ c) as [ps c1] eqn:E. apply find_added in E as (p & -> & _). by eexists.
Qed.

Lemma ensure_host_finds addr c r c' :
  ensure_host addr c = (r, c') -> takes C addr -> FindHostByAddress addr c' <> 0%Z.
Proof.
  unfold ensure_host. case_decide as Hf; [by intros [= _ <-]|]. intros He Ht. specialize (Ht c).
  destruct (cl_AddHosts _ c) as [ps c1] eqn:E. pose proof E as (p & -> & Hp)%find_added.
  injection He as <- <-. rewrite find_kept_health. apply Hp. cbn in Ht. congruence.
Qed.

(** The loop runs to its end, hosts once known stay known in every state on the way, and in
    the end every address Envoy takes is known. *)
Lemma ensure_hosts_spec addrs : forall hosts c ok hosts' seen c',
  ensure_hosts addrs hosts c = (ok, hosts', seen, c') ->
  ok = true /\
  (forall a, FindHostByAddress a c <> 0%Z ->
     Forall (fun c1 => FindHostByAddress a c1 <> 0%Z) (seen ++ [c'])) /\
  (forall a, a ∈ addrs -> takes C a -> FindHostByAddress a c' <> 0%Z).
Proof.
  induction addrs as [|addr addrs IH]; intros hosts c ok hosts' seen c'; cbn [ensure_hosts].
  { intros [= <- <- <- <-]. split_and!; [done| |set_solver]. intros a Ha. by apply Forall_singleton. }
  destruct (ensure_host addr c) as [r c1] eqn:E1.
  destruct (ensure_host_some addr c) as [p Hp]. rewrite E1 in Hp. cbn in Hp. subst r.
  destruct (ensure_hosts addrs _ c1) as [[[ok1 h1] seen1] c2] eqn:E2.
  intros [= <- <- <- <-]. destruct (IH _ _ _ _ _ _ E2) as (Hok & Hk & Hf). split_and!; [done| |].
  - intros a Ha. assert (Ha1 := ensure_host_keeps _ _ _ _ _ E1 Ha).
    cbn [app]. apply Forall_cons. split; [done|by apply Hk].
  - intros a [->|Ha]%elem_of_cons Ht; [|by apply Hf].
    assert (Ha1 := ensure_host_finds _ _ _ _ E1 Ht). apply Hk in Ha1.
    rewrite Forall_app, Forall_singleton in Ha1. by destruct Ha1.
Qed.
End ensure.

(** ** A concrete cluster *)

(** Hosts in order of addition; a host's pointer is its position from 1.  A batch with an
    empty address is refused. *)
#[export] Instance list_cluster : AddressedCluster (list string) := {|
  cl_AddHosts specs c :=
    if decide ("" ∈ (Address <$> specs)) then (replicate (length specs) 0%Z, c)
    else (Z.of_nat <$> seq (S (length c)) (length specs), c ++ (Address <$> specs));
  cl_UpdateHostHealth _ _ c := c;
  FindHostByAddress a c := match list_find (fun x => x = a) c with
                           | Some (i, _) => Z.of_nat (S i)
                           | None => 0%Z
                           end;
|}.

Lemma list_cluster_finds a (c : list string) : FindHostByAddress a c <> 0%Z <-> a ∈ c.
Proof.
  cbn. destruct (list_find _ c) as [[i x]|] eqn:E.
  - apply list_find_Some in E as (Hi & -> & _). split; [|lia].
    intros _. by eapply list_elem_of_lookup_2.
  - split; [done|]. intros Hin. apply list_find_None in E. rewrite Forall_forall in E.
    by destruct (E a Hin).
Qed.

#[export] Instance list_cluster_laws : AddressedClusterLaws (list string).
Proof.
  split; [| |done].
  - intros spec ps c c'. cbn -[FindHostByAddress]. case_decide; intros [= <- <-]; (eexists; split; [done|]); [done|].
    intros _. apply list_cluster_finds. set_solver.
  - intros specs ps c c' addr. cbn -[FindHostByAddress]. case_decide; intros [= _ <-]; [done|].
    rewrite !list_cluster_finds. set_solver.
Qed.

Lemma list_cluster_takes addr : addr <> "" -> takes (list string) addr.
Proof. intros Ha c. cbn. rewrite decide_False by set_solver. done. Qed.

(** A refused host is not noticed: the loop runs to its end and remembers nil for it. *)
Lemma refused_address_is_remembered :
  let '(ok, hosts, _, c) := ensure_hosts [""] ∅ ([] : list string) in
  ok = true /\ hosts !! "" = Some 0%Z /\ FindHostByAddress "" c = 0%Z.
Proof. by vm_compute. Qed.
