(* ===== verification/ConfigFetch.v ===== *)
(** * ConfigFetch: the configuration loop of the example routers
    (examples/cluster-router/cluster.go, examples/cluster-shard-router/cluster.go)

    A goroutine asks the control plane for its configuration, at once and then at every tick,
    resolves what it got and schedules it on the main thread, which makes the hosts known and
    publishes.  What a configuration is, how it resolves and how it is applied are arguments;
    the two routers are instances.  [served k] is what the control plane holds after its [k]-th
    change; [now] counts the changes so far.  The indices that queued and published snapshots
    carry are not in the code: they say which configuration a snapshot came from. *)
From stdpp Require Import base list gmap strings sets relations sorting.
From Stdlib Require Import ZArith Lia.
From S2P Require Import Prelude GoStrings HostSet HostRefresh.

(** ** Durations *)

(** [refresh()] and [timeout()]: milliseconds, or the default when not positive.  A product
    of [time.Duration]s wraps around at 64 bits. *)
Definition millis_or (n dflt : Z) : Z := if (n <=? 0)%Z then dflt else int64_of (n * Millisecond).

Lemma millis_or_exact n d : (0 < d)%Z -> (n <= 9223372036854)%Z ->
  millis_or n d = (if (n <=? 0)%Z then d else n * Millisecond)%Z /\ (0 < millis_or n d)%Z.
Proof.
  intros Hd Hn. unfold millis_or, int64_of, Millisecond. destruct (n <=? 0)%Z eqn:H; [by split|].
  apply Z.leb_gt in H. rewrite Z.mod_small by lia. lia.
Qed.

(** ** The loop *)

(** Where the goroutine is: before the ticker is made, about to ask, holding the answer that was
    served when the control plane was at change [k], waiting, or returned. *)
Inductive loop_pc := LBegin | LFetch | LGot (k : nat) | LSelect | LExited.

Record loop := mkLoop { lp_pc : loop_pc; lp_cancelled : bool }.

(** [time.NewTicker] panics when the interval is not positive. *)
Definition fetchLoop_begin (refresh : Z) : res loop_pc :=
  if (refresh <=? 0)%Z then Panic "non-positive interval for NewTicker" else Ok LFetch.

(** What a request for the configuration came to: the request could not be built, or was not
    answered, or was answered with a status and a body that decodes or not. *)
Inductive fetched (Cfg : Type) :=
  | FBuildError
  | FTransportError
  | FAnswer (status : Z) (decoded : option Cfg).
Arguments FBuildError {Cfg}.
Arguments FTransportError {Cfg}.
Arguments FAnswer {Cfg} _ _.

(** [fetchOnce]: the snapshot to schedule, if any. *)
Definition fetchOnce {Cfg Snap} (resolve : Cfg -> string + Snap) (f : fetched Cfg) : option Snap :=
  match f with
  | FBuildError | FTransportError => None
  | FAnswer status decoded =>
      if decide (status <> 200%Z) then None
      else match decoded with
           | None => None
           | Some cfg => match resolve cfg with inl _ => None | inr snap => Some snap end
           end
  end.

(** A cluster: the state that [applySnapshot] changes, the group, whether [stop] is waiting for
    it, and the functions scheduled on the main thread. *)
Record fetcher (R Snap : Type) := mkFetcher {
  f_state : R;
  f_group : option loop;
  f_stopping : bool;
  f_queue : list (nat * Snap);
  f_published : option nat;
}.
Arguments mkFetcher {R Snap} _ _ _ _ _.
Arguments f_state {R Snap} _.
Arguments f_group {R Snap} _.
Arguments f_stopping {R Snap} _.
Arguments f_queue {R Snap} _.
Arguments f_published {R Snap} _.

Section fetcher.
Context {Cfg Snap R : Type}.
Implicit Types (c : fetcher R Snap).

Definition new_fetcher (r : R) : fetcher R Snap := mkFetcher r None false [] None.

Definition with_group c (g : option loop) : fetcher R Snap :=
  mkFetcher (f_state c) g (f_stopping c) (f_queue c) (f_published c).

Definition startFetchLoop (configURL : string) c : fetcher R Snap :=
  if decide (configURL = "") then c
  else match f_group c with
       | Some _ => c
       | None => with_group c (Some (mkLoop LBegin false))
       end.

(** [stop]: the group is cancelled; when its goroutine has returned the field is cleared. *)
Definition stop c : fetcher R Snap :=
  match f_group c with
  | None => c
  | Some l => mkFetcher (f_state c) (Some (mkLoop (lp_pc l) true)) true (f_queue c) (f_published c)
  end.

Definition stopped c : option (fetcher R Snap) :=
  match f_group c with
  | Some (mkLoop LExited _) =>
      if f_stopping c then Some (mkFetcher (f_state c) None false (f_queue c) (f_published c)) else None
  | _ => None
  end.

(** [c.handle.Schedule(func() { c.applySnapshot(snap) })]. *)
Definition schedule (k : nat) (snap : Snap) c : fetcher R Snap :=
  mkFetcher (f_state c) (f_group c) (f_stopping c) (f_queue c ++ [(k, snap)]) (f_published c).

(** ** Steps *)

Context (configURL : string) (refresh : Z) (served : nat -> Cfg).
(** What resolving a configuration can give, as names and map order happen to be. *)
Context (resolving : (Cfg -> string + Snap) -> Prop).
(** [applySnapshot]: the state it leaves and whether it published. *)
Context (applying : Snap -> R -> R -> bool -> Prop).

Record sys := mkSys { now : nat; cl : fetcher R Snap }.

Definition at_pc c (pc : loop_pc) (b : bool) : Prop := f_group c = Some (mkLoop pc b).

Inductive fstep : sys -> sys -> Prop :=
  | f_change n c : fstep (mkSys n c) (mkSys (S n) c)
  | f_start n c : f_stopping c = false -> fstep (mkSys n c) (mkSys n (startFetchLoop configURL c))
  | f_stop n c : f_stopping c = false -> fstep (mkSys n c) (mkSys n (stop c))
  | f_stopped n c c' : stopped c = Some c' -> fstep (mkSys n c) (mkSys n c')
  | f_begin n c b pc : at_pc c LBegin b -> fetchLoop_begin refresh = Ok pc ->
      fstep (mkSys n c) (mkSys n (with_group c (Some (mkLoop pc b))))
  | f_ask n c b : at_pc c LFetch b -> fstep (mkSys n c) (mkSys n (with_group c (Some (mkLoop (LGot n) b))))
  | f_fail n c b (resolve : Cfg -> string + Snap) f : at_pc c LFetch b -> fetchOnce resolve f = None ->
      fstep (mkSys n c) (mkSys n (with_group c (Some (mkLoop LSelect b))))
  | f_got n c b k resolve : at_pc c (LGot k) b -> resolving resolve ->
      fstep (mkSys n c)
        (mkSys n match fetchOnce resolve (FAnswer 200 (Some (served k))) with
                 | None => with_group c (Some (mkLoop LSelect b))
                 | Some snap => schedule k snap (with_group c (Some (mkLoop LSelect b)))
                 end)
  | f_lost n c b k : at_pc c (LGot k) b -> fstep (mkSys n c) (mkSys n (with_group c (Some (mkLoop LSelect b))))
  | f_tick n c b : at_pc c LSelect b -> fstep (mkSys n c) (mkSys n (with_group c (Some (mkLoop LFetch b))))
  | f_done n c : at_pc c LSelect true -> fstep (mkSys n c) (mkSys n (with_group c (Some (mkLoop LExited true))))
  | f_main n r g k snap q p r' ok : applying snap r r' ok ->
      fstep (mkSys n (mkFetcher r g false ((k, snap) :: q) p))
            (mkSys n (mkFetcher r' g false q (if ok then Some k else p))).

(** ** What holds *)

(** A snapshot of the [k]-th configuration. *)
Definition snapshot_of (k : nat) (snap : Snap) : Prop :=
  exists resolve, resolving resolve /\ resolve (served k) = inr snap.

Context (cur : R -> Snap) (inv : R -> Prop).

(** [applySnapshot] publishes the snapshot or keeps the last one, and keeps the invariant of
    the cluster's state. *)
Record ApplyLaws : Prop := {
  applying_cur : forall snap r r' ok, applying snap r r' ok -> cur r' = if ok then snap else cur r;
  applying_inv : forall snap r r' ok, applying snap r r' ok -> inv r -> inv r';
}.

(** The indices in the order in which they will be published. *)
Definition pending c : list nat :=
  (f_queue c).*1 ++ match f_group c with Some (mkLoop (LGot k) _) => [k] | _ => [] end.

Definition low c : nat := default 0 (f_published c).

Record fetch_ok (first : Snap) (s : sys) : Prop := {
  ok_queue : Forall (fun ks => snapshot_of ks.1 ks.2) (f_queue (cl s));
  ok_cur : match f_published (cl s) with
           | None => cur (f_state (cl s)) = first
           | Some k => snapshot_of k (cur (f_state (cl s)))
           end;
  ok_sorted : Sorted le (low (cl s) :: pending (cl s) ++ [now s]);
  ok_inv : inv (f_state (cl s));
  ok_stopping : f_stopping (cl s) = true -> exists pc, f_group (cl s) = Some (mkLoop pc true);
}.

Lemma sorted_drop a b (l : list nat) : Sorted le (a :: b :: l) -> Sorted le (a :: l).
Proof.
  intros H. apply Sorted_StronglySorted in H; [|intros ???; lia].
  apply StronglySorted_Sorted. inversion H as [|? ? H1 H2]; subst. inversion H1; subst.
  constructor; [done|]. by inversion H2.
Qed.

Lemma sorted_last_le (l : list nat) n m : n <= m -> Sorted le (l ++ [n]) -> Sorted le (l ++ [m]).
Proof.
  intros Hn. induction l as [|a l IH]; cbn; [by repeat constructor|].
  intros [Hs Hh]%Sorted_inv. constructor; [by apply IH|].
  destruct l as [|b l]; cbn in *; constructor; inversion Hh; subst; lia.
Qed.

Lemma sorted_remove (l k : list nat) x : Sorted le (l ++ x :: k) -> Sorted le (l ++ k).
Proof.
  intros H. apply Sorted_StronglySorted in H; [|intros ???; lia]. apply StronglySorted_Sorted.
  induction l as [|a l IH]; cbn in *; inversion H as [|? ? H1 H2]; subst; [done|].
  constructor; [by apply IH|]. apply Forall_app in H2 as [Ha Hb]. apply Forall_app. split; [done|]. by inversion Hb.
Qed.

Lemma sorted_twice (l : list nat) n : Sorted le (l ++ [n]) -> Sorted le (l ++ [n; n]).
Proof.
  induction l as [|a l IH]; cbn; [by repeat constructor|].
  intros [Hs Hh]%Sorted_inv. constructor; [by apply IH|]. destruct l; cbn in *; inversion Hh; by constructor.
Qed.

(** A change of the group that drops what was in flight. *)
Lemma ok_group first n c g :
  fetch_ok first (mkSys n c) -> (forall k b, g <> Some (mkLoop (LGot k) b)) ->
  (f_stopping c = true -> exists pc, g = Some (mkLoop pc true)) ->
  fetch_ok first (mkSys n (with_group c g)).
Proof.
  intros [Hq Hc Hs Hi Ht] Hg Hst. split; [exact Hq | exact Hc | | exact Hi | exact Hst].
  cbn in *. unfold pending in *. cbn in *.
  assert (He : match g with Some (mkLoop (LGot k) _) => [k] | _ => [] end = []).
  { destruct g as [[[| |k| |] b]|]; try done. by destruct (Hg k b). }
  rewrite He, app_nil_r. destruct (f_group c) as [[[| |k| |] b]|]; rewrite ?app_nil_r in Hs; try done.
  rewrite <-app_assoc in Hs. exact (sorted_remove (low c :: _) _ _ Hs).
Qed.

Lemma stopping_kept first n c pc b :
  fetch_ok first (mkSys n c) -> f_group c = Some (mkLoop pc b) -> f_stopping c = true ->
  forall pc', exists pc2, Some (mkLoop pc' b) = Some (mkLoop pc2 true).
Proof. intros [] Hg Hs pc'. destruct (ok_stopping0 Hs) as [pc1 Hp]. cbn in Hp. rewrite Hg in Hp. injection Hp as _ ->. by exists pc'. Qed.

Context (laws : ApplyLaws).

Lemma fstep_ok first s s' : fstep s s' -> fetch_ok first s -> fetch_ok first s'.
Proof using laws.
  intros Hs Hok.
  destruct Hs as [n c|n c Hst|n c Hst|n c c' Hst|n c b pc Hp Hb|n c b Hp|n c b resolve f Hp Hf|n c b k resolve Hp Hr
                 |n c b k Hp|n c b Hp|n c Hp|n r g k snap q p r' ok Ha].
  - destruct Hok as [Hq Hc Hs Hi Ht]. split; [exact Hq | exact Hc | | exact Hi | exact Ht].
    cbn in *. apply (sorted_last_le (_ :: _) n); [lia | done].
  - unfold startFetchLoop. case_decide; [done|]. destruct (f_group c) as [l|] eqn:Hg; [done|].
    apply ok_group; [done | done|]. congruence.
  - unfold stop. destruct (f_group c) as [[pc b]|] eqn:Hg; [|done]. destruct Hok as [Hq Hc Hs Hi Ht].
    split; [exact Hq | exact Hc | | exact Hi | by eexists]. cbn in *. unfold pending in *. cbn in *. by rewrite Hg in Hs.
  - unfold stopped in Hst. destruct (f_group c) as [[[| | | |] b]|] eqn:Hg; try done.
    destruct (f_stopping c) eqn:Hs; [|done]. injection Hst as <-.
    assert (Hk := ok_group first n c None Hok). destruct Hok as [Hq Hc Hso Hi Ht].
    split; [exact Hq | exact Hc | | exact Hi | done]. cbn in *. unfold pending in *. cbn in *. by rewrite Hg in Hso.
  - apply ok_group; [done | |eauto using stopping_kept]. unfold fetchLoop_begin in Hb.
    destruct (refresh <=? 0)%Z; [done|]. injection Hb as <-. congruence.
  - assert (Hst := stopping_kept first n c LFetch b Hok Hp). destruct Hok as [Hq Hc Hs Hi Ht].
    split; [exact Hq | exact Hc | | exact Hi | intros Hk; exact (Hst Hk (LGot n))]. cbn in *. unfold pending in *. cbn. rewrite Hp in Hs.
    rewrite app_nil_r in Hs. rewrite <-app_assoc. exact (sorted_twice (low c :: _) n Hs).
  - apply ok_group; [done | congruence | eauto using stopping_kept].
  - assert (Hok2 : fetch_ok first (mkSys n (with_group c (Some (mkLoop LSelect b)))))
      by (apply ok_group; [done | congruence | eauto using stopping_kept]).
    destruct (fetchOnce resolve _) as [snap|] eqn:He; [|done]. destruct Hok as [Hq Hc Hs Hi Ht].
    destruct Hok2 as [_ _ _ _ Ht2]. split; [|exact Hc| |exact Hi | exact Ht2].
    + cbn. apply Forall_app. split; [exact Hq|]. apply Forall_singleton. exists resolve. split; [done|].
      cbn in He |- *. destruct (resolve (served k)); [done|]. by injection He as ->.
    + cbn in *. unfold pending in *. cbn. rewrite Hp in Hs. by rewrite fmap_app, app_nil_r.
  - apply ok_group; [done | congruence | eauto using stopping_kept].
  - apply ok_group; [done | congruence | eauto using stopping_kept].
  - apply ok_group; [done | congruence | by eexists].
  - destruct Hok as [Hq Hc Hs Hi Ht]. cbn in *. apply Forall_cons in Hq as [Hk Hq].
    pose proof (applying_cur laws _ _ _ _ Ha) as Hcur. split; cbn; [done | | | by eapply applying_inv | done].
    + destruct ok; by rewrite Hcur.
    + unfold low, pending in *. cbn in *. destruct ok; cbn; [by apply Sorted_inv in Hs as [Hs _] | by eapply sorted_drop].
Qed.

Lemma fsteps_ok first s s' : rtc fstep s s' -> fetch_ok first s -> fetch_ok first s'.
Proof using laws. induction 1; eauto using fstep_ok. Qed.

(** Nothing published is replaced by something older. *)
Lemma fstep_forward first s s' : fstep s s' -> fetch_ok first s -> now s <= now s' /\ low (cl s) <= low (cl s').
Proof using laws.
  intros Hs Hok. pose proof (ok_sorted _ _ Hok) as Ho. destruct Hs.
  8: destruct (fetchOnce resolve (FAnswer 200 (Some (served k)))).
  all: cbn in *; unfold low in *; cbn in *; try lia.
  - unfold startFetchLoop. case_decide; [lia|]. destruct (f_group c); cbn; lia.
  - unfold stop. destruct (f_group c); cbn; lia.
  - unfold stopped in H. destruct (f_group c) as [[[] ?]|]; try done. destruct (f_stopping c); [|done]. injection H as <-. cbn. lia.
  - split; [done|]. destruct ok; cbn; [|done]. apply Sorted_inv in Ho as [_ Ho]. by inversion Ho.
Qed.

Lemma fsteps_forward first s s' : rtc fstep s s' -> fetch_ok first s -> now s <= now s' /\ low (cl s) <= low (cl s').
Proof using laws.
  induction 1 as [s|s s1 s' Hs _ IH]; intros Hok; [done|].
  pose proof (fstep_forward first s s1 Hs Hok). pose proof (fstep_ok first s s1 Hs Hok) as Hok1. specialize (IH Hok1). lia.
Qed.

Lemma fetcher_new_ok r n : inv r -> fetch_ok (cur r) (mkSys n (new_fetcher r)).
Proof. intros Hi. split; cbn; [done | done | | done | done]. repeat constructor. lia. Qed.

(** The published index is one of the past. *)
Lemma low_now first s : fetch_ok first s -> low (cl s) <= now s.
Proof using Type.
  clear laws applying.
  intros Hok. pose proof (ok_sorted _ _ Hok) as Ho. apply Sorted_StronglySorted in Ho; [|intros ???; lia].
  inversion Ho as [|? ? _ Hf]; subst. rewrite Forall_forall in Hf. apply Hf. set_solver.
Qed.

(** ** Reaching the present *)

Context (resolve : Cfg -> string + Snap) (Hresolve : resolving resolve).
(** Hosts can be added. *)
Context (can_apply : forall snap r, exists r', applying snap r r' true).

Lemma drain n g q k snap : forall r p,
  exists r', rtc fstep (mkSys n (mkFetcher r g false (q ++ [(k, snap)]) p)) (mkSys n (mkFetcher r' g false [] (Some k))) /\
    cur r' = snap.
Proof using laws can_apply.
  induction q as [|[k1 snap1] q IH]; intros r p.
  - destruct (can_apply snap r) as [r' Ha]. exists r'. split; [by apply rtc_once, (f_main n r g k snap [] p r' true)|].
    exact (applying_cur laws _ _ _ _ Ha).
  - destruct (can_apply snap1 r) as [r1 Ha]. destruct (IH r1 (Some k1)) as (r' & Hr & Hc). exists r'. split; [|done].
    eapply rtc_l; [exact (f_main n r g k1 snap1 _ p r1 true Ha) | exact Hr].
Qed.

(** A running loop comes back to its tick. *)
Lemma to_fetch n c l :
  f_group c = Some l -> lp_pc l <> LExited -> (0 < refresh)%Z ->
  exists c' b, rtc fstep (mkSys n c) (mkSys n c') /\ at_pc c' LFetch b /\ f_stopping c' = f_stopping c.
Proof using Type.
  intros Hg Hne Hr. destruct l as [pc b]. destruct pc; cbn in Hne; try done.
  - eexists _, b. split; [apply rtc_once; eapply f_begin; [done|]|done].
    unfold fetchLoop_begin. by rewrite (proj2 (Z.leb_gt _ _) Hr).
  - by exists c, b.
  - eexists _, b. split; [eapply rtc_l; [by eapply f_lost|]; apply rtc_once, (f_tick _ _ b); done | done].
  - eexists _, b. split; [apply rtc_once, (f_tick _ _ b); done | done].
Qed.

Lemma reaches_now n c l snap :
  f_group c = Some l -> lp_pc l <> LExited -> f_stopping c = false -> (0 < refresh)%Z ->
  resolve (served n) = inr snap ->
  exists c', rtc fstep (mkSys n c) (mkSys n c') /\ f_published c' = Some n /\ f_queue c' = [] /\ cur (f_state c') = snap.
Proof using laws Hresolve can_apply.
  intros Hg Hne Hst Hr Hs. destruct (to_fetch n c l Hg Hne Hr) as (c1 & b & H1 & Hp & Hs1).
  set (c2 := with_group c1 (Some (mkLoop (LGot n) b))).
  assert (H2 : fstep (mkSys n c1) (mkSys n c2)) by by apply f_ask.
  set (c3 := schedule n snap (with_group c2 (Some (mkLoop LSelect b)))).
  assert (H3 : fstep (mkSys n c2) (mkSys n c3)).
  { pose proof (f_got n c2 b n resolve eq_refl Hresolve) as H. cbn in H. by rewrite Hs in H. }
  destruct (drain n (Some (mkLoop LSelect b)) (f_queue c1) n snap (f_state c1) (f_published c1)) as (r' & H4 & Hc).
  exists (mkFetcher r' (Some (mkLoop LSelect b)) false [] (Some n)). split_and!; [|done..].
  etrans; [exact H1|]. eapply rtc_l; [exact H2|]. eapply rtc_l; [exact H3|].
  unfold c3, schedule, c2. cbn. rewrite Hs1, Hst. exact H4.
Qed.
End fetcher.
