(* ===== verification/ClusterRouter.v ===== *)
(** * ClusterRouter: the model router (examples/cluster-router)

    A cluster extension that reads the model of a request from a header and picks the
    model's host, an upstream filter that adds the provider's headers, and a debug endpoint.
    All three read one published snapshot of routes.  The background fetch is modelled by
    the configurations it obtains; the main thread applies them one by one. *)
From stdpp Require Import base list gmap strings sets relations.
From Stdlib Require Import ZArith Lia Ascii.
From S2P Require Import Prelude GoStrings Async StreamObject Envoy Grpc FilterState Filter HostSet HostRefresh HostLookup ConfigFetch.

(** ** router.go: data *)

Definition defaultRouteHeader := "x-model".
Definition tenantHeader := "x-tenant".
Definition debugPath := "/__cluster-router/config".
Definition defaultScope := "default".
Definition defaultRefresh : Z := Second.
Definition defaultTimeout : Z := 500 * Millisecond.

Record modelConfig := mkModelConfig {
  mc_Target : string; mc_Provider : string; mc_AuthHeader : string;
  mc_AuthRef : string; mc_Profile : string; mc_BYOKKeyID : string;
}.

Record authConfig := mkAuth { au_Type : string; au_Header : string; au_TenantHeader : string }.

Record configSnapshot := mkConfigSnapshot {
  cs_Version : string;
  cs_Models : gmap string modelConfig;
  cs_Auth : gmap string authConfig;
  cs_BYOK : gmap string (gmap string string);
}.

Record routerConfig := mkRouterConfig {
  Scope : string;
  rc_RouteHeader : string;
  ConfigURL : string;
  RefreshMillis : Z;
  TimeoutMillis : Z;
  Initial : configSnapshot;
}.

Definition scope (c : routerConfig) : string :=
  if decide (Scope c = "") then defaultScope else Scope c.
Definition refresh (c : routerConfig) : Z :=
  millis_or (RefreshMillis c) defaultRefresh.
Definition timeout (c : routerConfig) : Z :=
  millis_or (TimeoutMillis c) defaultTimeout.
Definition routeHeader (c : routerConfig) : string :=
  if decide (rc_RouteHeader c = "") then defaultRouteHeader else rc_RouteHeader c.

(** [parseRouterConfig]; [unmarshal] is the JSON decoder with its error. *)
Definition parseRouterConfig (unmarshal : string -> string + routerConfig) (config : string) : string + routerConfig :=
  if decide (config = "") then inr (mkRouterConfig "" "" "" 0 0 (mkConfigSnapshot "" ∅ ∅ ∅))
  else match unmarshal config with
       | inl err => inl ("cluster-router: parse config: " +:+ err)
       | inr cfg => inr cfg
       end.

Record modelRoute := mkRoute {
  Target : string; mr_Address : string; Provider : string; AuthHeader : string;
  AuthRef : string; mr_Profile : string; BYOKKeyID : string;
}.

(** [authPolicy] has the fields of [authConfig] and is converted from it. *)
Abbreviation authPolicy := authConfig.

Record routeSnapshot := mkSnapshot {
  Version : string;
  RouteHeader : string;
  Models : gmap string modelRoute;
  Auth : gmap string authPolicy;
  BYOK : gmap string (gmap string string);
}.

(** ** Resolving a configuration *)

(** [cloneBYOK]: entry by entry; nil and empty are the same map here. *)
Definition cloneBYOK (m : gmap string (gmap string string)) : gmap string (gmap string string) :=
  if decide (m = ∅) then ∅ else (fun providers : gmap string string => (fun header : string => header) <$> providers) <$> m.

(** The loop over the models, in the order [range] gives them. *)
Fixpoint resolve_models (resolve : string -> string + string)
    (models : list (string * modelConfig)) (out : gmap string modelRoute) :
    string + gmap string modelRoute :=
  match models with
  | [] => inr out
  | (name, model) :: models' =>
      if decide (mc_Target model = "")
      then inl ("cluster-router: model " +:+ Quote name +:+ " target is required")
      else match resolve (mc_Target model) with
           | inl e => inl e
           | inr addr =>
               resolve_models resolve models'
                 (<[name := mkRoute (mc_Target model) addr (mc_Provider model)
                              (mc_AuthHeader model) (mc_AuthRef model) (mc_Profile model)
                              (mc_BYOKKeyID model)]> out)
           end
  end.

Definition resolveConfigSnapshot (resolve : string -> string + string) (cfg : configSnapshot)
    (route_header : string) (order : list (string * modelConfig)) : string + routeSnapshot :=
  let route_header := if decide (route_header = "") then defaultRouteHeader else route_header in
  match resolve_models resolve order ∅ with
  | inl e => inl e
  | inr models => inr (mkSnapshot (cs_Version cfg) route_header models (cs_Auth cfg) (cloneBYOK (cs_BYOK cfg)))
  end.

(** ** The store *)

Definition emptySnapshot : routeSnapshot := mkSnapshot "" defaultRouteHeader ∅ ∅ ∅.

(** [routeStore]: the published snapshot and the remembered hosts. *)
Record routeStore := mkStore {
  current : routeSnapshot;
  hosts : gmap string HostPtr;
}.

Definition newRouteStore : routeStore := mkStore emptySnapshot ∅.

Definition Current (s : routeStore) : routeSnapshot := current s.
Definition LookupModel (model : string) (s : routeStore) : option modelRoute :=
  Models (Current s) !! model.
(** [Publish] stores a clone: the maps here are values, so the clone is the snapshot. *)
Definition cloneRouteSnapshot (s : routeSnapshot) : routeSnapshot :=
  mkSnapshot (Version s) (RouteHeader s) (Models s) (Auth s) (cloneBYOK (BYOK s)).

Lemma cloneBYOK_id m : cloneBYOK m = m.
Proof.
  unfold cloneBYOK. case_decide as Hm; [done|]. rewrite <-(map_fmap_id m) at 2. apply map_fmap_ext.
  intros t p _. apply map_fmap_id.
Qed.

Lemma cloneRouteSnapshot_id s : cloneRouteSnapshot s = s.
Proof. unfold cloneRouteSnapshot. rewrite cloneBYOK_id. by destruct s. Qed.

Definition RememberHost (addr : string) (host : HostPtr) (s : routeStore) : routeStore :=
  mkStore (current s) (<[addr := host]> (hosts s)).
Definition Host (addr : string) (s : routeStore) : option HostPtr := hosts s !! addr.

Definition Publish (snapshot : routeSnapshot) (s : routeStore) : routeStore :=
  mkStore (cloneRouteSnapshot snapshot) (hosts s).

(** The process-wide stores, one per scope. *)
Definition routeStoreForScope (scope : string) (byScope : gmap string routeStore) :
    routeStore * gmap string routeStore :=
  let scope := if decide (scope = "") then defaultScope else scope in
  match byScope !! scope with
  | Some store => (store, byScope)
  | None => (newRouteStore, <[scope := newRouteStore]> byScope)
  end.

(** ** cluster.go *)

Section cluster.
Context {C : Type} `{AddressedCluster C}.

(** The cluster with its store and the snapshots scheduled on the main thread. *)
Record routerCluster := mkRouter {
  handle : C;
  store : routeStore;
  scheduled : list routeSnapshot;
}.

(** [applySnapshot]: the states other threads see on the way, and the last one. *)
Definition applySnapshot (snap : routeSnapshot) (order : list (string * modelRoute))
    (r : routerCluster) : list routerCluster * routerCluster :=
  let '(ok, hs, seen, c) :=
    ensure_hosts (mr_Address ∘ snd <$> order) (hosts (store r)) (handle r) in
  let st := mkStore (current (store r)) hs in
  (((fun c1 => mkRouter c1 (store r) (scheduled r)) <$> seen),
   mkRouter c (if ok then Publish snap st else st) (scheduled r)).

(** [Init]: the initial configuration is applied when it resolves. *)
Definition Init (cfg : routerConfig) (resolve : string -> string + string)
    (o1 : list (string * modelConfig)) (o2 : list (string * modelRoute)) (r : routerCluster) :
    list routerCluster * routerCluster :=
  if decide (cs_Models (Initial cfg) = ∅) then ([], r)
  else match resolveConfigSnapshot resolve (Initial cfg) (routeHeader cfg) o1 with
       | inl _ => ([], r)
       | inr snap => applySnapshot snap o2 r
       end.

(** [fetchOnce], given what the server answered: status 200 with a decodable body, or
    nothing usable. *)
Definition fetchOnce (cfg : routerConfig) (resolve : string -> string + string)
    (fetched : option configSnapshot) (o1 : list (string * modelConfig)) (r : routerCluster) :
    routerCluster :=
  match fetched with
  | None => r
  | Some c =>
      match resolveConfigSnapshot resolve c (routeHeader cfg) o1 with
      | inl _ => r
      | inr snap => mkRouter (handle r) (store r) (scheduled r ++ [snap])
      end
  end.

(** [ChooseHost]; [header] is [ctx.GetHeader]. *)
Definition ChooseHost (r : routerCluster) (header : string -> option string) : HostPtr :=
  let snap := Current (store r) in
  let route_header := if decide (RouteHeader snap = "") then defaultRouteHeader
                      else RouteHeader snap in
  match header route_header with
  | None => 0%Z
  | Some model =>
      if decide (model = "") then 0%Z
      else match Models snap !! model with
           | None => 0%Z
           | Some route => FindHostByAddress (mr_Address route) (handle r)
           end
  end.
End cluster.
Arguments routerCluster : clear implicits.

(** ** upstream_filter.go *)

Definition resolveAuthHeader (snap : routeSnapshot) (route : modelRoute) (tenant : string) :
    string :=
  if decide (AuthHeader route <> "") then AuthHeader route
  else if decide (AuthRef route = "") then ""
  else match Auth snap !! AuthRef route with
       | None => ""
       | Some policy =>
           if decide (au_Type policy = "static") then au_Header policy
           else if decide (au_Type policy = "byok") then
             if decide (tenant = "") then ""
             else match BYOK snap !! tenant with
                  | Some providers => default "" (providers !! Provider route)
                  | None => ""
                  end
           else ""
       end.

(** [w.SetRequestHeader] when the value is not empty. *)
Definition set_nonempty (name value : string) (k : prog) : prog :=
  if decide (value <> "") then PAct (ASetRequestHeader name value) k else k.

(** The handler, with the snapshot it loads at its start. *)
Definition upstreamHeaderFilterForStore (snap : routeSnapshot) (_ : Request) : prog :=
  let route_header := if decide (RouteHeader snap = "") then defaultRouteHeader
                      else RouteHeader snap in
  PQuery (QHeader route_header) (fun model =>
  if decide (model = "") then PRet
  else match Models snap !! model with
       | None => PRet
       | Some route =>
           PQuery (QHeader tenantHeader) (fun tenant =>
           set_nonempty "authorization" (resolveAuthHeader snap route tenant)
          (set_nonempty "x-llm-provider" (Provider route)
          (set_nonempty "x-user-profile" (mr_Profile route)
          (set_nonempty "x-byok-key-id" (BYOKKeyID route)
          (set_nonempty "x-cluster-router-version" (Version snap) PRet)))))
       end).

Record debugModel := mkDebugModel {
  dm_Target : string; dm_Address : string; dm_Provider : string;
  dm_AuthRef : string; dm_Profile : string; dm_BYOKKeyID : string;
}.

Record debugSnapshot := mkDebugSnapshot {
  ds_Version : string;
  ds_RouteHeader : string;
  ds_Models : gmap string debugModel;
  ds_Auth : gmap string (string * bool);
}.

Definition DebugSnapshot (snap : routeSnapshot) : debugSnapshot :=
  mkDebugSnapshot (Version snap)
    (if decide (RouteHeader snap = "") then defaultRouteHeader else RouteHeader snap)
    ((fun route => mkDebugModel (Target route) (mr_Address route) (Provider route)
                     (AuthRef route) (mr_Profile route) (BYOKKeyID route)) <$> Models snap)
    ((fun auth => (au_Type auth, true)) <$> Auth snap).

(** The body of the error reply, a JSON object. *)
Definition dquote : string := String (ascii_of_nat 34) EmptyString.
Definition marshal_error_body : bytes :=
  String.list_byte_of_string ("{" +:+ dquote +:+ "error" +:+ dquote +:+ ":" +:+
                              dquote +:+ "marshal config" +:+ dquote +:+ "}").

(** [debugHandler]; [marshal] is the JSON encoder, [None] for its error. *)
Definition debugHandler (marshal : debugSnapshot -> option bytes) (snap : routeSnapshot)
    (r : Request) : prog :=
  if decide (r_Path r <> debugPath) then PRet
  else match marshal (DebugSnapshot snap) with
       | None => PAct (ASendLocalResponse 500 marshal_error_body
                         [("content-type", "application/json")]) PRet
       | Some body =>
           PAct (ASendLocalResponse 200 body [("content-type", "application/json")]) PRet
       end.

(** ** Reachable states *)

Section reach.
Context {C : Type} `{AddressedClusterLaws C} (cfg : routerConfig).

(** The main thread between its tasks: initialisation, fetches that schedule, tasks that
    run.  Resolver, orders and answers are arbitrary. *)
Inductive reachable : routerCluster C -> Prop :=
  | reach_new c : reachable (mkRouter c newRouteStore [])
  | reach_init resolve o1 o2 r : reachable r ->
      (forall snap, resolveConfigSnapshot resolve (Initial cfg) (routeHeader cfg) o1 = inr snap ->
         o2 ≡ₚ map_to_list (Models snap)) ->
      reachable (Init cfg resolve o1 o2 r).2
  | reach_fetch resolve fetched o1 r : reachable r ->
      reachable (fetchOnce cfg resolve fetched o1 r)
  | reach_apply snap rest order c st : reachable (mkRouter c st (snap :: rest)) ->
      order ≡ₚ map_to_list (Models snap) ->
      reachable (applySnapshot snap order (mkRouter c st rest)).2.

(** What a worker thread can see: a reachable state, or a state in the middle of a task. *)
Inductive visible : routerCluster C -> Prop :=
  | vis_between r : reachable r -> visible r
  | vis_init resolve o1 o2 r r' : reachable r -> r' ∈ (Init cfg resolve o1 o2 r).1 -> visible r'
  | vis_apply snap rest order c st r' : reachable (mkRouter c st (snap :: rest)) ->
      r' ∈ (applySnapshot snap order (mkRouter c st rest)).1 -> visible r'.

(** Every published route whose address Envoy takes has its host in the cluster. *)
Definition routable (r : routerCluster C) : Prop :=
  map_Forall (fun _ route => takes C (mr_Address route) -> FindHostByAddress (mr_Address route) (handle r) <> 0%Z)
             (Models (current (store r))).

Lemma applySnapshot_seen snap order r :
  routable r -> Forall routable (applySnapshot snap order r).1.
Proof.
  intros Hr. unfold applySnapshot.
  destruct (ensure_hosts _ _ _) as [[[ok hs] seen] c] eqn:E.
  apply ensure_hosts_spec in E as (_ & Hk & _). apply Forall_fmap, Forall_forall.
  intros c1 Hc1 name route Hroute Ht. specialize (Hr _ _ Hroute Ht).
  apply Hk in Hr. rewrite Forall_app, Forall_forall in Hr. by apply Hr.
Qed.

Lemma applySnapshot_routable snap order r :
  order ≡ₚ map_to_list (Models snap) -> routable r -> routable (applySnapshot snap order r).2.
Proof.
  intros Ho Hr. unfold applySnapshot.
  destruct (ensure_hosts _ _ _) as [[[ok hs] seen] c] eqn:E.
  apply ensure_hosts_spec in E as (-> & _ & Hf).
  intros name route Hroute Ht. apply Hf; [|done]. apply list_elem_of_fmap.
  exists (name, route). split; [done|]. rewrite Ho. by apply elem_of_map_to_list.
Qed.

Lemma reachable_routable r : reachable r -> routable r.
Proof.
  induction 1 as [c|resolve o1 o2 r Hr IH Ho|resolve fetched o1 r Hr IH|snap rest order c st Hr IH Ho].
  - intros name route. cbn. by rewrite lookup_empty.
  - unfold Init. case_decide; [done|]. destruct (resolveConfigSnapshot _ _ _ _) as [|snap] eqn:E;
      [done|]. apply applySnapshot_routable; [by apply Ho|done].
  - unfold fetchOnce. destruct fetched as [c|]; [|done].
    by destruct (resolveConfigSnapshot _ _ _ _).
  - by apply applySnapshot_routable.
Qed.

Lemma visible_routable r : visible r -> routable r.
Proof.
  intros [r1 Hr|resolve o1 o2 r1 r' Hr Hin|snap rest order c st r' Hr Hin].
  - by apply reachable_routable.
  - unfold Init in Hin. case_decide; [by apply not_elem_of_nil in Hin|].
    destruct (resolveConfigSnapshot _ _ _ _) as [|snap]; [by apply not_elem_of_nil in Hin|].
    pose proof (applySnapshot_seen snap o2 r1 (reachable_routable _ Hr)) as Hs.
    rewrite Forall_forall in Hs. by apply Hs.
  - pose proof (applySnapshot_seen snap order (mkRouter c st rest)
                  (reachable_routable _ Hr)) as Hs.
    rewrite Forall_forall in Hs. by apply Hs.
Qed.
End reach.

(** ** With its control plane *)

Section follow.
Context {C : Type} `{AddressedClusterLaws C} (cfg : routerConfig).

Definition resolving (f : configSnapshot -> string + routeSnapshot) : Prop :=
  exists resolve orders, (forall c, orders c ≡ₚ map_to_list (cs_Models c)) /\
    forall c, f c = resolveConfigSnapshot resolve c (routeHeader cfg) (orders c).

Definition applying (snap : routeSnapshot) (r r' : routerCluster C) (ok : bool) : Prop :=
  exists order, order ≡ₚ map_to_list (Models snap) /\
    ok = (ensure_hosts (mr_Address ∘ snd <$> order) (hosts (store r)) (handle r)).1.1.1 /\
    r' = (applySnapshot snap order r).2.

Lemma model_apply_laws : ApplyLaws (R := routerCluster C) applying (current ∘ store) routable.
Proof.
  split.
  - intros snap r r' ok (order & _ & -> & ->). unfold applySnapshot.
    destruct (ensure_hosts _ _ _) as [[[ok hs] seen] c]. cbn. destruct ok; [apply cloneRouteSnapshot_id | done].
  - intros snap r r' ok (order & Ho & _ & ->) Hr. by apply applySnapshot_routable.
Qed.

(** The model router follows its control plane: what is published is the initial snapshot or
    the resolution of a configuration of the past, never an earlier one than before, and every
    published route whose address Envoy takes has its host. *)
Lemma model_router_follows_control_plane served (r0 : routerCluster C) n s :
  routable r0 ->
  let step := fstep (ConfigURL cfg) (refresh cfg) served resolving applying in
  rtc step (mkSys n (new_fetcher r0)) s ->
  let r := f_state (cl s) in
  match f_published (cl s) with
  | None => current (store r) = current (store r0)
  | Some k => k <= now s /\ snapshot_of served resolving k (current (store r))
  end /\
  routable r /\ (forall s', rtc step s s' -> low (cl s) <= low (cl s')).
Proof.
  intros Hr0 step Hs r. pose proof (fetcher_new_ok served resolving (current ∘ store) routable r0 n Hr0) as Hok0.
  pose proof (fsteps_ok _ _ _ _ _ _ _ model_apply_laws _ _ _ Hs Hok0) as Hok.
  pose proof (ok_cur _ _ _ _ _ _ Hok) as Hcur. pose proof (low_now _ _ _ _ _ _ Hok) as Hlow. split_and!.
  - unfold low in Hlow. by destruct (f_published (cl s)).
  - exact (ok_inv _ _ _ _ _ _ Hok).
  - intros s' Hs'. by apply (fsteps_forward _ _ _ _ _ _ _ model_apply_laws _ _ _ Hs' Hok).
Qed.
End follow.

(** ** Theorems *)

(** At every moment a worker thread can observe, in the middle of an update included, a
    request whose route header names a configured model is given the host that the cluster
    has at the address of that model's route, which is not nil when Envoy takes hosts at that
    address. *)
Theorem configured_models_have_hosts {C} `{AddressedClusterLaws C} cfg (r : routerCluster C)
    header model route :
  visible cfg r ->
  header (if decide (RouteHeader (Current (store r)) = "") then defaultRouteHeader
          else RouteHeader (Current (store r))) = Some model ->
  model <> "" ->
  LookupModel model (store r) = Some route ->
  ChooseHost r header = FindHostByAddress (mr_Address route) (handle r) /\
  (takes C (mr_Address route) -> ChooseHost r header <> 0%Z).
Proof.
  intros Hv Hh Hm Hl. apply visible_routable in Hv. unfold ChooseHost. rewrite Hh.
  rewrite decide_False by done. unfold LookupModel in Hl. rewrite Hl.
  split; [done|]. exact (Hv _ _ Hl).
Qed.

(** Two snapshots with the same routing data and possibly different secrets: literal
    authorization headers, static policies and per-tenant keys. *)
Definition same_but_secrets (a b : routeSnapshot) : Prop :=
  Version a = Version b /\ RouteHeader a = RouteHeader b /\
  (forall name, (fun r => (Target r, mr_Address r, Provider r, AuthRef r, mr_Profile r,
                           BYOKKeyID r)) <$> Models a !! name =
                (fun r => (Target r, mr_Address r, Provider r, AuthRef r, mr_Profile r,
                           BYOKKeyID r)) <$> Models b !! name) /\
  (forall name, au_Type <$> Auth a !! name = au_Type <$> Auth b !! name).

(** The debug dump reveals no credential: it is the same for any two snapshots that
    differ only in literal authorization headers, static policy headers and tenants' keys,
    so the endpoint's answer does not depend on them. *)
Theorem debug_dump_hides_credentials marshal (a b : routeSnapshot) r :
  same_but_secrets a b -> debugHandler marshal a r = debugHandler marshal b r.
Proof.
  intros (Hv & Hh & Hm & Ha). unfold debugHandler, DebugSnapshot. rewrite Hv, Hh.
  replace ((fun auth => (au_Type auth, true)) <$> Auth a)
    with ((fun auth => (au_Type auth, true)) <$> Auth b).
  2:{ apply map_eq. intros k. rewrite !lookup_fmap. specialize (Ha k).
      destruct (Auth a !! k), (Auth b !! k); cbn in *; [|done..]. injection Ha as ->. done. }
  set (dm := fun route => mkDebugModel _ _ _ _ _ _).
  replace (dm <$> Models a) with (dm <$> Models b); [done|].
  apply map_eq. intros k. rewrite !lookup_fmap. specialize (Hm k).
  destruct (Models a !! k), (Models b !! k); cbn in *; [|done..].
  unfold dm. injection Hm as -> -> -> -> -> ->. done.
Qed.

(** The key a tenant's request is given depends on no other tenant's keys. *)
Lemma tenant_keys_isolated (a b : routeSnapshot) route tenant :
  Auth a = Auth b -> BYOK a !! tenant = BYOK b !! tenant ->
  resolveAuthHeader a route tenant = resolveAuthHeader b route tenant.
Proof. intros Ha Hb. unfold resolveAuthHeader. by rewrite Ha, Hb. Qed.

Definition demo_config : configSnapshot :=
  mkConfigSnapshot "v1" {[ "gpt" := mkModelConfig "llm:443" "openai" "" "" "" "" ]} ∅ ∅.
Definition demo_router : routerConfig := mkRouterConfig "" "" "" 0 0 demo_config.
Definition demo_resolve (target : string) : string + string := inr ("10.0.0.1:" +:+ target).
Definition demo_models : list (string * modelConfig) := map_to_list (cs_Models demo_config).
Definition demo_routes : list (string * modelRoute) :=
  [("gpt", mkRoute "llm:443" "10.0.0.1:llm:443" "openai" "" "" "" "")].
Definition demo_state : routerCluster (list string) :=
  (Init demo_router demo_resolve demo_models demo_routes (mkRouter [] newRouteStore [])).2.

(** The routes of a resolved configuration, as a list. *)
Definition demo_order (r : string + routeSnapshot) : list (string * modelRoute) :=
  match r with inl _ => [] | inr s => map_to_list (Models s) end.

Lemma configured_models_have_hosts_witness :
  ChooseHost demo_state (fun h => if decide (h = "x-model") then Some "gpt" else None) = 1%Z /\
  ChooseHost demo_state (fun h => if decide (h = "x-model") then Some "gpt" else None) <> 0%Z.
Proof.
  split; [reflexivity|].
  apply (configured_models_have_hosts demo_router demo_state
           (fun h => if decide (h = "x-model") then Some "gpt" else None) "gpt"
           (mkRoute "llm:443" "10.0.0.1:llm:443" "openai" "" "" "" "")).
  - apply vis_between, reach_init; [apply reach_new|].
    intros snap Hs. apply (f_equal demo_order) in Hs.
    change (demo_order (inr snap)) with (map_to_list (Models snap)) in Hs.
    rewrite <- Hs. apply Permutation_refl'. by vm_compute.
  - reflexivity.
  - done.
  - reflexivity.
  - by apply list_cluster_takes.
Defined.

Lemma debug_dump_hides_credentials_witness :
  debugHandler (fun _ => Some []) (mkSnapshot "v1" "x-model"
      {[ "gpt" := mkRoute "llm:443" "10.0.0.1:443" "openai" "Bearer secret" "" "" "" ]} ∅
      {[ "acme" := {[ "openai" := "key" ]} ]})
    (FilterState.mkRequest "GET" debugPath "" "") =
  debugHandler (fun _ => Some []) (mkSnapshot "v1" "x-model"
      {[ "gpt" := mkRoute "llm:443" "10.0.0.1:443" "openai" "" "" "" "" ]} ∅ ∅)
    (FilterState.mkRequest "GET" debugPath "" "").
Proof.
  apply debug_dump_hides_credentials. split_and!; [reflexivity|reflexivity| |reflexivity].
  intros name. cbn [Models]. destruct (decide (name = "gpt")) as [->|Hne]; [reflexivity|].
  by rewrite !lookup_singleton_ne by done.
Defined.
