(* ===== verification/ShardRouter.v ===== *)
(** * ShardRouter: the shard router (examples/cluster-shard-router)

    A request's tag is taken from its headers (or hashed from a key), the shard is the one
    with the longest configured prefix of the tag, the default shard otherwise.  The order
    in which [range] visits the shards is an argument. *)
From stdpp Require Import base list gmap strings sets.
From Stdlib Require Import ZArith Lia Ascii.
From S2P Require Import Prelude GoStrings Async StreamObject Envoy Grpc FilterState Filter HostSet HostLookup.

(** ** router.go: data *)

Definition tagHeader := "x-transit-tag".
Definition tagSourceHeader := "x-transit-tag-source".
Definition byokKeyIDHeader := "x-byok-key-id".
Definition userKeyHeader := "x-user-key".
Definition tenantHeader := "x-tenant".
Definition shardHeader := "x-transit-l1-shard".
Definition targetHeader := "x-transit-l1-target".
Definition versionHeader := "x-cluster-shard-router-version".
Definition defaultShardName := "default".

Record shardConfig := mkShardConfig {
  sc_Target : string; sc_Prefixes : list string; sc_Shard : string; sc_Status : string;
}.

Record configSnapshot := mkConfigSnapshot {
  cs_Version : string;
  cs_DefaultShard : string;
  cs_Shards : gmap string shardConfig;
}.

Record shardRoute := mkShard {
  Name : string; Shard : string; Target : string; sr_Address : string;
  Prefixes : list string; Status : string;
}.

Record shardSnapshot := mkSnapshot {
  Version : string;
  DefaultShard : string;
  Shards : gmap string shardRoute;
}.

Record shardDecision := mkDecision { Tag : string; Source : string; Route : shardRoute }.

Section router.
Context `{U : GoUnicode}.
(** [hex.EncodeToString] of the SHA-256 sum. *)
Context (hashTag : string -> string).

Definition normalizeToken (v : string) : string := ToLower (TrimSpace v).

(** [normalizePrefixes]: normalised, without empty ones and repetitions. *)
Fixpoint normalize_loop (seen : gset string) (prefixes : list string) : list string :=
  match prefixes with
  | [] => []
  | prefix :: rest =>
      let prefix := normalizeToken prefix in
      if decide (prefix = "") then normalize_loop seen rest
      else if decide (prefix ∈ seen) then normalize_loop seen rest
      else prefix :: normalize_loop ({[prefix]} ∪ seen) rest
  end.

Definition normalizePrefixes (prefixes : list string) : list string :=
  normalize_loop ∅ prefixes.

(** ** Resolving a configuration *)

Definition resolve_shard (resolve : string -> string + string) (name : string)
    (shard : shardConfig) : string + shardRoute :=
  let routeName := normalizeToken name in
  if decide (routeName = "") then inl "cluster-shard-router: shard name is required"
  else if decide (sc_Target shard = "")
  then inl ("cluster-shard-router: shard " +:+ Quote name +:+ " target is required")
  else match resolve (sc_Target shard) with
       | inl e => inl e
       | inr addr =>
           let prefixes := normalizePrefixes (sc_Prefixes shard) in
           let shard_name := normalizeToken (sc_Shard shard) in
           inr (mkShard routeName (if decide (shard_name = "") then routeName else shard_name)
                  (sc_Target shard) addr
                  (if decide (prefixes = [] /\ routeName <> defaultShardName)
                   then [routeName] else prefixes)
                  (normalizeToken (sc_Status shard)))
       end.

Fixpoint resolve_shards (resolve : string -> string + string)
    (shards : list (string * shardConfig)) (out : gmap string shardRoute) :
    string + gmap string shardRoute :=
  match shards with
  | [] => inr out
  | (name, shard) :: rest =>
      match resolve_shard resolve name shard with
      | inl e => inl e
      | inr route => resolve_shards resolve rest (<[Name route := route]> out)
      end
  end.

Definition resolveConfigSnapshot (resolve : string -> string + string) (cfg : configSnapshot)
    (order : list (string * shardConfig)) : string + shardSnapshot :=
  let def := normalizeToken (cs_DefaultShard cfg) in
  let def := if decide (def = "") then defaultShardName else def in
  match resolve_shards resolve order ∅ with
  | inl e => inl e
  | inr shards =>
      if decide (shards !! def = None /\ shards <> ∅)
      then inl ("cluster-shard-router: default shard " +:+ Quote def +:+ " is not configured")
      else inr (mkSnapshot (cs_Version cfg) def shards)
  end.

(** ** Choosing *)

Definition active (route : shardRoute) : bool :=
  bool_decide (Status route = "" \/ Status route = "active").

(** The best match so far: the route and the length of its prefix. *)
Definition bestLen (best : option (shardRoute * nat)) : nat :=
  match best with Some (_, n) => n | None => 0 end.

Definition try_prefix (tag : string) (route : shardRoute) (best : option (shardRoute * nat))
    (prefix : string) : option (shardRoute * nat) :=
  if HasPrefix tag prefix && (bestLen best <? String.length prefix)
  then Some (route, String.length prefix) else best.

Definition try_route (tag : string) (best : option (shardRoute * nat)) (route : shardRoute) :
    option (shardRoute * nat) :=
  if active route then foldl (try_prefix tag route) best (Prefixes route) else best.

Definition chooseShard (snap : shardSnapshot) (order : list (string * shardRoute))
    (tag : string) : option shardRoute :=
  let tag := normalizeToken tag in
  match foldl (fun best nr => try_route tag best nr.2) None order with
  | Some (best, _) => Some best
  | None => Shards snap !! DefaultShard snap
  end.

Definition deriveTag (getHeader : string -> string) : string * string :=
  let tag := normalizeToken (getHeader tagHeader) in
  if decide (tag <> "") then (tag, "tag") else
  let keyID := TrimSpace (getHeader byokKeyIDHeader) in
  if decide (keyID <> "") then (hashTag keyID, "byok-key-id") else
  let userKey := TrimSpace (getHeader userKeyHeader) in
  if decide (userKey <> "") then (hashTag userKey, "user-key") else
  let tenant := normalizeToken (getHeader tenantHeader) in
  if decide (tenant <> "") then (tenant, "tenant") else ("", "").

Definition Decide (snap : shardSnapshot) (order : list (string * shardRoute))
    (getHeader : string -> string) : option shardDecision :=
  let '(tag, source) := deriveTag getHeader in
  let '(tag, source) := if decide (tag = "") then (DefaultShard snap, "default")
                        else (tag, source) in
  route ← chooseShard snap order tag;
  Some (mkDecision tag source route).

(** ** upstream_filter.go *)

(** The four headers of the decision, then the version of the snapshot loaded last. *)
Definition shard_headers (d : shardDecision) (version : string) : prog :=
  PAct (ASetRequestHeader tagHeader (Tag d))
 (PAct (ASetRequestHeader tagSourceHeader (Source d))
 (PAct (ASetRequestHeader shardHeader (Shard (Route d)))
 (PAct (ASetRequestHeader targetHeader (Target (Route d)))
 (if decide (version <> "") then PAct (ASetRequestHeader versionHeader version) PRet
  else PRet)))).

(** The handler loads the store twice: [snap] for the decision, [later] for the version. *)
Definition upstreamHeaderFilter (snap : shardSnapshot) (order : list (string * shardRoute))
    (later : shardSnapshot) (_ : Request) : prog :=
  PQuery (QHeader tagHeader) (fun h1 =>
  PQuery (QHeader byokKeyIDHeader) (fun h2 =>
  PQuery (QHeader userKeyHeader) (fun h3 =>
  PQuery (QHeader tenantHeader) (fun h4 =>
    let getHeader name :=
      if decide (name = tagHeader) then h1
      else if decide (name = byokKeyIDHeader) then h2
      else if decide (name = userKeyHeader) then h3 else h4 in
    match Decide snap order getHeader with
    | None => PRet
    | Some d => shard_headers d (Version later)
    end)))).
End router.

(** ** cluster.go *)

Section cluster.
Context {C : Type} `{AddressedCluster C} `{U : GoUnicode} (hashTag : string -> string).

(** The cluster, the published snapshot and the remembered hosts. *)
Record routerCluster := mkRouter {
  handle : C;
  current : shardSnapshot;
  hosts : gmap string HostPtr;
}.

Definition applySnapshot (snap : shardSnapshot) (order : list (string * shardRoute))
    (r : routerCluster) : list routerCluster * routerCluster :=
  let '(ok, hs, seen, c) := ensure_hosts (sr_Address ∘ snd <$> order) (hosts r) (handle r) in
  (((fun c1 => mkRouter c1 (current r) (hosts r)) <$> seen),
   mkRouter c (if ok then snap else current r) hs).

Definition ChooseHost (r : routerCluster) (order : list (string * shardRoute))
    (header : string -> option string) : HostPtr :=
  match Decide hashTag (current r) order (fun name => default "" (header name)) with
  | None => 0%Z
  | Some d => FindHostByAddress (sr_Address (Route d)) (handle r)
  end.
End cluster.
Arguments routerCluster : clear implicits.

(** ** Facts *)

Lemma HasPrefix_spec s p : HasPrefix s p = true <-> exists rest, s = p +:+ rest.
Proof.
  unfold HasPrefix. rewrite bool_decide_eq_true. split.
  - intros [rest H]. exists rest. by apply StripPrefix_Some.
  - intros [rest H]. exists rest. by apply StripPrefix_Some.
Qed.

(** Two prefixes of a string that have the same length are the same. *)
Lemma prefixes_same_length s p q :
  HasPrefix s p = true -> HasPrefix s q = true -> String.length p = String.length q -> p = q.
Proof.
  rewrite !HasPrefix_spec. intros [r1 H1] [r2 H2]. subst s.
  revert q H2. induction p as [|a p IH]; intros [|b q] H2 Hlen; cbn in *; try done.
  change (String a (p +:+ r1) = String b (q +:+ r2)) in H2.
  injection H2 as -> H2. f_equal. apply IH; [done|lia].
Qed.

(** [m] is a match of the tag among [routes]: an active route with a prefix of length [n]. *)
Definition matches (tag : string) (routes : list shardRoute) (route : shardRoute) (p : string) :
    Prop :=
  route ∈ routes /\ active route = true /\ p ∈ Prefixes route /\ p <> "" /\
  HasPrefix tag p = true.

(** The running maximum over the routes seen so far. *)
Definition best_of (tag : string) (pairs : list (shardRoute * string))
    (best : option (shardRoute * nat)) : Prop :=
  match best with
  | None => forall r p, (r, p) ∈ pairs -> p = "" \/ HasPrefix tag p = false
  | Some (r, n) =>
      (exists p, (r, p) ∈ pairs /\ p <> "" /\ HasPrefix tag p = true /\ n = String.length p) /\
      (forall r' p', (r', p') ∈ pairs -> HasPrefix tag p' = true -> String.length p' <= n)
  end.

Lemma try_prefix_best tag route best prefix pairs :
  best_of tag pairs best ->
  best_of tag (pairs ++ [(route, prefix)]) (try_prefix tag route best prefix).
Proof.
  intros Hb. unfold try_prefix.
  destruct (HasPrefix tag prefix) eqn:Hp; [|].
  - destruct (bestLen best <? String.length prefix) eqn:Hl; cbn.
    + apply Nat.ltb_lt in Hl. split.
      * exists prefix. split_and!; [set_solver| |done|done].
        intros ->. cbn in Hl. lia.
      * intros r' p' [Hin|Hin%list_elem_of_singleton]%elem_of_app Hp'; [|by simplify_eq].
        destruct best as [[r n]|]; cbn in Hl.
        -- destruct Hb as [_ Hmax]. specialize (Hmax _ _ Hin Hp'). lia.
        -- destruct (Hb _ _ Hin) as [->|]; [cbn; lia|congruence].
    + apply Nat.ltb_ge in Hl. destruct best as [[r n]|]; cbn in Hl.
      * destruct Hb as [(p & ? & ? & ? & ?) Hmax]. split; [exists p; set_solver|].
        intros r' p' [Hin|Hin%list_elem_of_singleton]%elem_of_app Hp'; [by eapply Hmax|].
        by simplify_eq.
      * intros r p [Hin|Hin%list_elem_of_singleton]%elem_of_app; [by eapply Hb|].
        simplify_eq. left. destruct prefix; [done|cbn in Hl; lia].
  - cbn. destruct best as [[r n]|].
    + destruct Hb as [(p & ? & ? & ? & ?) Hmax]. split; [exists p; set_solver|].
      intros r' p' [Hin|Hin%list_elem_of_singleton]%elem_of_app Hp'; [by eapply Hmax|].
      simplify_eq. congruence.
    + intros r p [Hin|Hin%list_elem_of_singleton]%elem_of_app; [by eapply Hb|].
      simplify_eq. by right.
Qed.

Lemma try_prefixes_best tag route ps : forall best pairs,
  best_of tag pairs best ->
  best_of tag (pairs ++ (pair route <$> ps)) (foldl (try_prefix tag route) best ps).
Proof.
  induction ps as [|p ps IH]; intros best pairs Hb; cbn [foldl].
  - by rewrite app_nil_r.
  - rewrite fmap_cons, cons_middle, app_assoc. by apply IH, try_prefix_best.
Qed.

(** The prefixes of the active routes. *)
Definition active_pairs (routes : list shardRoute) : list (shardRoute * string) :=
  routes ≫= (fun r => if active r then pair r <$> Prefixes r else []).

Lemma fold_best tag (order : list (string * shardRoute)) : forall best pairs,
  best_of tag pairs best ->
  best_of tag (pairs ++ active_pairs order.*2)
          (foldl (fun best nr => try_route tag best nr.2) best order).
Proof.
  induction order as [|[name route] order IH]; intros best pairs Hb.
  - by rewrite app_nil_r.
  - change (active_pairs ((name, route) :: order).*2)
      with ((if active route then pair route <$> Prefixes route else []) ++ active_pairs order.*2).
    rewrite app_assoc. cbn [foldl snd]. apply IH. unfold try_route. destruct (active route).
    + by apply try_prefixes_best.
    + by rewrite app_nil_r.
Qed.

Lemma elem_active_pairs routes r p :
  (r, p) ∈ active_pairs routes <-> r ∈ routes /\ active r = true /\ p ∈ Prefixes r.
Proof.
  unfold active_pairs. rewrite list_elem_of_bind. split.
  - intros (r' & Hin & Hr'). destruct (active r') eqn:Ha; [|set_solver].
    apply list_elem_of_fmap in Hin as (q & Heq & Hq). by simplify_eq.
  - intros (Hr & Ha & Hp). exists r. rewrite Ha. split; [|done]. by apply list_elem_of_fmap_2.
Qed.

(** What the two loops compute. *)
Lemma choose_loop tag (order : list (string * shardRoute)) :
  match foldl (fun best nr => try_route tag best nr.2) None order with
  | Some (r, n) => exists p, matches tag order.*2 r p /\ n = String.length p /\
      forall r' p', matches tag order.*2 r' p' -> String.length p' <= String.length p
  | None => forall r p, ~ matches tag order.*2 r p
  end.
Proof.
  pose proof (fold_best tag order None []) as Hb. cbn [app] in Hb.
  specialize (Hb ltac:(intros r p; set_solver)).
  destruct (foldl _ None order) as [[r n]|]; cbn in Hb.
  - destruct Hb as [(p & Hin & Hne & Hp & ->) Hmax].
    apply elem_active_pairs in Hin as (? & ? & ?). exists p. split_and!; [done..|].
    intros r' p' (? & ? & ? & ? & ?). eapply Hmax; [by apply elem_active_pairs|done].
  - intros r p (? & ? & ? & Hne & Hp).
    destruct (Hb r p) as [|]; [by apply elem_active_pairs|done|congruence].
Qed.

Lemma elem_shards snap order route :
  order ≡ₚ map_to_list (Shards snap) ->
  route ∈ order.*2 <-> exists name, Shards snap !! name = Some route.
Proof.
  intros Ho. rewrite list_elem_of_fmap. split.
  - intros ([name r] & -> & Hin). exists name. rewrite Ho in Hin. by apply elem_of_map_to_list.
  - intros [name Hn]. exists (name, route). split; [done|]. rewrite Ho.
    by apply elem_of_map_to_list.
Qed.

(** ** Theorems *)

(** The shard of a tag is found by longest prefix: whatever order the map is visited in,
    the chosen shard is active and has a prefix of the normalised tag that no active shard's
    matching prefix exceeds; when none matches it is the default shard. *)
Definition longest_prefix `{U : GoUnicode} (snap : shardSnapshot) (tag : string) (chosen : option shardRoute) : Prop :=
  let t := normalizeToken tag in
  (exists name route p, chosen = Some route /\
     Shards snap !! name = Some route /\ active route = true /\ p ∈ Prefixes route /\ p <> "" /\
     HasPrefix t p = true /\
     forall name' route' p', Shards snap !! name' = Some route' -> active route' = true ->
       p' ∈ Prefixes route' -> HasPrefix t p' = true -> String.length p' <= String.length p) \/
  (chosen = Shards snap !! DefaultShard snap /\
   forall name' route' p', Shards snap !! name' = Some route' -> active route' = true ->
       p' ∈ Prefixes route' -> HasPrefix t p' = true -> p' = "").

Theorem shard_is_longest_prefix `{U : GoUnicode} snap order tag :
  order ≡ₚ map_to_list (Shards snap) -> longest_prefix snap tag (chooseShard snap order tag).
Proof.
  intros Ho. unfold longest_prefix. cbv zeta. unfold chooseShard.
  pose proof (choose_loop (normalizeToken tag) order) as Hl.
  destruct (foldl _ None order) as [[r n]|].
  - left. destruct Hl as (p & (Hin & Ha & Hp & Hp0 & Hpre) & _ & Hmax).
    apply (elem_shards snap) in Hin as [name Hname]; [|done].
    exists name, r, p. split_and!; [done..|]. intros name' route' p' Hn' Ha' Hp' Hpre'.
    destruct (decide (p' = "")) as [->|Hne]; [cbn; lia|].
    apply (Hmax route'). split_and!; [|done..]. apply (elem_shards snap); eauto.
  - right. split; [done|]. intros name' route' p' Hn' Ha' Hp' Hpre'.
    destruct (decide (p' = "")) as [|Hne]; [done|]. exfalso. apply (Hl route' p').
    split_and!; [|done..]. apply (elem_shards snap); eauto.
Qed.

(** The choice is deterministic when no two active shards share a prefix: visiting the
    map in any two orders gives the same shard. *)
Theorem shard_choice_deterministic `{U : GoUnicode} snap o1 o2 tag :
  o1 ≡ₚ map_to_list (Shards snap) -> o2 ≡ₚ map_to_list (Shards snap) ->
  (forall n1 n2 r1 r2 p, Shards snap !! n1 = Some r1 -> Shards snap !! n2 = Some r2 ->
     active r1 = true -> active r2 = true -> p ∈ Prefixes r1 -> p ∈ Prefixes r2 -> r1 = r2) ->
  chooseShard snap o1 tag = chooseShard snap o2 tag.
Proof.
  intros H1 H2 Huniq. unfold chooseShard.
  pose proof (choose_loop (normalizeToken tag) o1) as L1.
  pose proof (choose_loop (normalizeToken tag) o2) as L2.
  assert (Hp : o1.*2 ≡ₚ o2.*2) by by rewrite H1, H2.
  assert (Hm : forall r p, matches (normalizeToken tag) o1.*2 r p <->
                           matches (normalizeToken tag) o2.*2 r p)
    by (intros; unfold matches; by rewrite Hp).
  destruct (foldl _ None o1) as [[r1 n1]|], (foldl _ None o2) as [[r2 n2]|].
  - destruct L1 as (p1 & M1 & -> & X1), L2 as (p2 & M2 & -> & X2). f_equal.
    assert (p1 = p2) as ->.
    { apply Hm in M2 as M2'. apply Hm in M1 as M1'. eapply prefixes_same_length;
        [apply M1|apply M2|]. specialize (X1 _ _ M2'). specialize (X2 _ _ M1'). lia. }
    destruct M1 as (I1 & A1 & P1 & _), M2 as (I2 & A2 & P2 & _).
    apply (elem_shards snap) in I1 as [? ?]; [|done].
    apply (elem_shards snap) in I2 as [? ?]; [|done]. by eapply Huniq.
  - destruct L1 as (p1 & M1 & _). apply Hm in M1. by apply L2 in M1.
  - destruct L2 as (p2 & M2 & _). apply Hm in M2. by apply L1 in M2.
  - done.
Qed.

(** A snapshot with its default shard decides every request. *)
Lemma default_decides `{U : GoUnicode} hashTag snap order getHeader :
  is_Some (Shards snap !! DefaultShard snap) -> order ≡ₚ map_to_list (Shards snap) ->
  exists d name, Decide hashTag snap order getHeader = Some d /\ Shards snap !! name = Some (Route d).
Proof.
  intros Hdef Ho.
  assert (Htot : forall tag, exists route name, chooseShard snap order tag = Some route /\
                                                Shards snap !! name = Some route).
  { intros tag. unfold chooseShard.
    pose proof (choose_loop (normalizeToken tag) order) as Hl.
    destruct (foldl _ None order) as [[r n]|].
    - destruct Hl as (p & (Hin & _) & _). apply (elem_shards snap) in Hin as [name Hn]; eauto.
    - destruct Hdef as [route Hroute]. by eexists _, _. }
  unfold Decide. destruct (deriveTag hashTag getHeader) as [tag source].
  set (ts := if decide (tag = "") then _ else _). destruct ts as [tag' source'].
  destruct (Htot tag') as (route & name & -> & Hn). by eexists _, name.
Qed.

Lemma resolved_default `{U : GoUnicode} resolve cfg order snap :
  resolveConfigSnapshot resolve cfg order = inr snap -> Shards snap <> ∅ ->
  is_Some (Shards snap !! DefaultShard snap).
Proof.
  unfold resolveConfigSnapshot. destruct (resolve_shards _ _ _) as [e|shards]; [done|].
  case_decide as Hd; [done|]. intros [= <-] Hne. cbn in *. apply not_eq_None_Some. intros Hn. by apply Hd.
Qed.

(** A configuration that resolved serves every request: with at least one shard, every
    combination of request headers is given a shard of the snapshot. *)
Theorem resolved_config_decides_every_request `{U : GoUnicode} hashTag resolve cfg o1 snap o2
    getHeader :
  resolveConfigSnapshot resolve cfg o1 = inr snap ->
  Shards snap <> ∅ ->
  o2 ≡ₚ map_to_list (Shards snap) ->
  exists d name, Decide hashTag snap o2 getHeader = Some d /\ Shards snap !! name = Some (Route d).
Proof. intros Hr Hne Ho. apply default_decides; [|done]. by eapply resolved_default. Qed.

(** Every published shard whose address Envoy takes has its host, in every state an update
    passes through. *)
Section hosts.
Context {C : Type} `{AddressedClusterLaws C}.

Definition routable (r : routerCluster C) : Prop :=
  map_Forall (fun _ route => takes C (sr_Address route) -> FindHostByAddress (sr_Address route) (handle r) <> 0%Z)
             (Shards (current r)).

Lemma shard_snapshot_routable snap order r :
  order ≡ₚ map_to_list (Shards snap) -> routable r ->
  Forall routable (applySnapshot snap order r).1 /\ routable (applySnapshot snap order r).2.
Proof.
  intros Ho Hr. unfold applySnapshot.
  destruct (ensure_hosts _ _ _) as [[[ok hs] seen] c] eqn:E.
  apply ensure_hosts_spec in E as (-> & Hk & Hf). split.
  - apply Forall_fmap, Forall_forall. intros c1 Hc1 name route Hn Ht.
    specialize (Hr _ _ Hn Ht). apply Hk in Hr. rewrite Forall_app, Forall_forall in Hr. by apply Hr.
  - intros name route Hn Ht. apply Hf; [|done]. apply list_elem_of_fmap. exists (name, route). split; [done|].
    rewrite Ho. by apply elem_of_map_to_list.
Qed.

(** A decision leads to a host. *)
Lemma ChooseHost_known `{U : GoUnicode} hashTag (r : routerCluster C) order header d name :
  routable r -> Decide hashTag (current r) order (fun h => default "" (header h)) = Some d ->
  Shards (current r) !! name = Some (Route d) -> takes C (sr_Address (Route d)) ->
  ChooseHost hashTag r order header <> 0%Z.
Proof. intros Hr Hd Hn Ht. unfold ChooseHost. rewrite Hd. exact (Hr _ _ Hn Ht). Qed.
End hosts.

(** ** Concrete routers *)

#[local] Instance ascii_only : GoUnicode := fun s => s.

Definition shard_a := mkShard "a" "a" "a:443" "10.0.0.1:443" ["acme"] "".
Definition shard_b := mkShard "b" "b" "b:443" "10.0.0.2:443" ["acme-eu"; "b"] "active".
Definition shard_d := mkShard "default" "default" "d:443" "10.0.0.3:443" [] "".
Definition demo_snap : shardSnapshot :=
  mkSnapshot "v1" "default" {[ "a" := shard_a; "b" := shard_b; "default" := shard_d ]}.

Lemma shard_is_longest_prefix_witness :
  chooseShard demo_snap (map_to_list (Shards demo_snap)) " ACME-eu-7 " = Some shard_b /\
  longest_prefix demo_snap " ACME-eu-7 " (chooseShard demo_snap (map_to_list (Shards demo_snap)) " ACME-eu-7 ").
Proof.
  split; [vm_compute; reflexivity|].
  exact (shard_is_longest_prefix demo_snap _ " ACME-eu-7 " (Permutation_refl _)).
Defined.

Lemma shard_choice_deterministic_witness :
  chooseShard demo_snap (map_to_list (Shards demo_snap)) "acme-1" =
  chooseShard demo_snap (reverse (map_to_list (Shards demo_snap))) "acme-1".
Proof.
  apply (shard_choice_deterministic demo_snap).
  - done.
  - apply reverse_Permutation.
  - assert (Hcase : forall n r, Shards demo_snap !! n = Some r ->
                     r = shard_a \/ r = shard_b \/ r = shard_d).
    { intros n r. cbn [Shards demo_snap]. rewrite !lookup_insert_Some, lookup_singleton_Some.
      naive_solver. }
    intros n1 n2 r1 r2 p [-> | [-> | ->]]%Hcase [-> | [-> | ->]]%Hcase _ _ P1 P2; try done;
      vm_compute in P1, P2; set_solver.
Defined.

Definition demo_config : configSnapshot :=
  mkConfigSnapshot "v1" "" {[ "Default" := mkShardConfig "d:443" [] "" "" ]}.

Definition one_shard := mkShard "default" "default" "d:443" "10.0.0.1" [] "".
Definition one_snap := mkSnapshot "v1" "default" {[ "default" := one_shard ]}.

Lemma resolved_config_decides_every_request_witness :
  exists d name,
    Decide (fun v => v) one_snap [("default", one_shard)] (fun _ => "") = Some d /\
    Shards one_snap !! name = Some (Route d).
Proof.
  apply (resolved_config_decides_every_request (fun v => v) (fun _ => inr "10.0.0.1") demo_config
           [("Default", mkShardConfig "d:443" [] "" "")] one_snap).
  - vm_compute. reflexivity.
  - apply insert_non_empty.
  - apply Permutation_refl'. vm_compute. reflexivity.
Defined.

(** ** Where the router is not deterministic *)

(** Two active shards with the same prefix resolve without error, and a tag with that prefix
    is sent to either of them, as [range] happens to visit the map. *)
Definition twin_config : list (string * shardConfig) :=
  [("a", mkShardConfig "a:443" ["acme"] "" ""); ("default", mkShardConfig "b:443" ["acme"] "" "")].
Definition twin_a := mkShard "a" "a" "a:443" "10.0.0.1" ["acme"] "".
Definition twin_b := mkShard "default" "default" "b:443" "10.0.0.1" ["acme"] "".
Definition twin_snap := mkSnapshot "v1" "default" {[ "a" := twin_a; "default" := twin_b ]}.

Lemma shared_prefix_is_ambiguous :
  resolveConfigSnapshot (fun _ => inr "10.0.0.1") (mkConfigSnapshot "v1" "" ∅) twin_config =
    inr twin_snap /\
  chooseShard twin_snap [("a", twin_a); ("default", twin_b)] "acme-1" = Some twin_a /\
  chooseShard twin_snap [("default", twin_b); ("a", twin_a)] "acme-1" = Some twin_b.
Proof. split_and!; vm_compute; reflexivity. Qed.

(** The upstream filter reads the version of the snapshot published after its decision: a
    request can carry the target of one configuration and the version of the next. *)
Lemma version_of_another_snapshot :
  exists d, Decide (fun v => v) twin_snap [("a", twin_a); ("default", twin_b)]
              (fun h => if decide (h = tagHeader) then "acme" else "") = Some d /\
  Target (Route d) = "a:443" /\
  shard_headers d (Version (mkSnapshot "v2" "default" ∅)) <> shard_headers d (Version twin_snap).
Proof. eexists. split_and!; [vm_compute; reflexivity|reflexivity|discriminate]. Qed.
