(* ===== verification/CalloutGate.v ===== *)
(** * CalloutGate: filters that ask a service before they forward a request
    (examples/jwt-callout, examples/async-callout)

    Both handlers make one callout and decide on its answer: a local reply, or a header for the
    upstream.  The gate is stated once, over what the answer means; the two filters are the
    gate with their own requests and verdicts, and the bearer token of the first is checked
    before the callout.  JSON is a parameter. *)
From stdpp Require Import base list gmap strings.
From Stdlib Require Import ZArith Lia.
From S2P Require Import Prelude GoStrings Async StreamObject Envoy Grpc FilterState Filter FilterFacts FlushProps CalloutProps.

Definition json_header : list (string * string) := [("content-type", "application/json")].

(** [json.Marshal] writes double quotes, which the strings here are written without. *)
Definition quoted (s : string) : string := String (Ascii.ascii_of_nat 34) (s +:+ String (Ascii.ascii_of_nat 34) "").
Definition error_body (msg : string) : bytes :=
  String.list_byte_of_string ("{" +:+ quoted "error" +:+ ":" +:+ quoted msg +:+ "}").

(** ** The gate *)

(** A reply (status and body), or a header to set. *)
Abbreviation verdict := ((Z * bytes) + (string * string))%type.

Definition reply (r : Z * bytes) : prog := PAct (ASendLocalResponse r.1 r.2 json_header) PRet.

Definition on_delivery (decide_on : CalloutDelivery -> verdict) (d : CalloutDelivery) : prog :=
  match decide_on d with
  | inl r => reply r
  | inr (n, v) => PAct (ASetRequestHeader n v) PRet
  end.

Definition gate (req : HTTPCalloutRequest) (decide_on : CalloutDelivery -> verdict) (unavailable : Z * bytes) : prog :=
  PHTTPCallout req (on_delivery decide_on)
    (fun _ err => match err with Some _ => reply unavailable | None => PRet end).

(** [respBody[0].ToString()], or empty without buffers: the first buffer only. *)
Definition first_buffer (d : CalloutDelivery) : string :=
  match d_body d with
  | Some (b :: _) => String.string_of_list_byte (buf_bytes b)
  | _ => ""
  end.

(** A stream the factory created, before its first callback. *)
Definition freshStream (id : nat) (proc : process) (tr : list call) (c : filterConfig) : st :=
  mkSt id (newFilter c) [] tr proc [] [] [] [].

Lemma writer_upd_f w u s : writer w (upd_f u s) = writer w s.
Proof. done. Qed.

Section gate.
Context (E : Envoy) (req : HTTPCalloutRequest) (decide_on : CalloutDelivery -> verdict) (unavailable : Z * bytes).

Definition reply_calls (r : Z * bytes) : list call := [CSendLocalResponse (uint32_of r.1) json_header r.2 ""].
Definition verdict_calls (d : CalloutDelivery) : list call :=
  match decide_on d with inl r => reply_calls r | inr (n, v) => [CReqHeaderSet n v] end.
Definition passes (d : CalloutDelivery) : bool := match decide_on d with inl _ => false | inr _ => true end.

(** What the gate does when Envoy answers the callout with [init], and delivers [sync] before
    it returns or some delivery later: the calls after [tr], and the status. *)
Definition gated (r : Z * option CalloutDelivery) (tr : list call) (result : res (HeadersStatus * st)) : Prop :=
  if decide (r.1 = HTTPCalloutInitSuccess) then
    match r.2 with
    | Some d => exists s1, result = Ok (if passes d then HeadersStatusContinue else HeadersStatusStop, s1) /\
        s_tr s1 = tr ++ CHttpCallout req TFilter :: verdict_calls d
    | None => exists s1, result = Ok (HeadersStatusStop, s1) /\ s_tr s1 = tr ++ [CHttpCallout req TFilter] /\
        forall d, exists s2, OnHttpCalloutDone (with_callout E r) d s1 = Ok s2 /\
          s_tr s2 = s_tr s1 ++ verdict_calls d ++ (if passes d then [CContinueRequest] else [])
    end
  else r.2 = None -> exists s1, result = Ok (HeadersStatusStop, s1) /\
         s_tr s1 = tr ++ CHttpCallout req TFilter :: reply_calls unavailable.

Lemma init_error (init : Z) : init <> HTTPCalloutInitSuccess -> exists e, errCalloutInitResult init = Some e.
Proof. intros Hi. unfold errCalloutInitResult. rewrite decide_False by done. repeat case_decide; eauto. Qed.

(** What the callback leaves behind, in a stream with nothing queued. *)
Definition untouched (s : st) : Prop :=
  localReply (s_f s) = None /\ qs (s_f s) = queues_empty /\ stripFramingOnResume (s_f s) = false /\
  hasRequestBodyReplacement (s_f s) = false /\ stopped (s_f s) = false.

Lemma run_delivery E' w d s :
  queued w s = true -> untouched s ->
  exists s1, run E' w (on_delivery decide_on d) s = Ok s1 /\ calloutState (s_f s1) = calloutState (s_f s) /\
    goStarted (s_f s1) = goStarted (s_f s) /\ s_ws s1 = s_ws s /\
    forall c x, s_tr (flush E' c (set_cs x s1)) =
                  s_tr s ++ verdict_calls d ++ (if passes d && c then [CContinueRequest] else []) /\
                stopped (s_f (flush E' c (set_cs x s1))) = negb (passes d).
Proof.
  intros Hq (Hl & Hqs & Hs & Hb & Hst). unfold on_delivery, verdict_calls, passes.
  destruct (decide_on d) as [[code body]|[n v]]; cbn [run do_act reply fst snd mbind res_bind].
  - eexists. split; [reflexivity|]. unfold SendLocalResponse. rewrite Hq, Hl. do 3 (split; [done|]). intros c x.
    erewrite flush_reply by done. cbn. split; done.
  - eexists. split; [reflexivity|]. unfold SetRequestHeader. rewrite Hq. do 3 (split; [done|]). intros c x.
    rewrite flush_trace, flush_filter by exact Hl. cbn. rewrite Hqs, Hs, Hb. cbn. split; [by destruct c | done].
Qed.

(** The stream in which the handler starts. *)
Record ready (w : nat) (s : st) : Prop := {
  rd_writer : writer w s = mkWriter false false false;
  rd_bound : w < length (s_ws s);
  rd_live : streamDone (s_f s) = false;
  rd_go : goStarted (s_f s) = false;
  rd_untouched : untouched s;
}.

Lemma callout_start_queued w fn s : w < length (s_ws s) ->
  calloutStarted (writer w (callout_start w req fn s)) = true /\ queued w (callout_start w req fn s) = true.
Proof.
  intros Hw. assert (Hc : calloutStarted (writer w (callout_start w req fn s)) = true).
  { unfold callout_start, writer. cbn. rewrite list_lookup_alter_eq. by apply lookup_lt_is_Some_2 in Hw as [x ->]. }
  split; [done|]. unfold queued. rewrite Hc. apply orb_true_r.
Qed.

Lemma gate_sync w s d :
  ready w s ->
  gated (HTTPCalloutInitSuccess, Some d) (s_tr s)
    (s1 ← run (with_callout E (HTTPCalloutInitSuccess, Some d)) w (gate req decide_on unavailable) s;
     request_end (with_callout E (HTTPCalloutInitSuccess, Some d)) w s1).
Proof.
  intros [Hw Hb Hd Hg Hu]. unfold gated. cbn [fst snd]. rewrite decide_True by done.
  set (E' := with_callout E (HTTPCalloutInitSuccess, Some d)).
  destruct (callout_start_queued w (on_delivery decide_on) s Hb) as [Hc Hq].
  set (sx := callout_start w req (on_delivery decide_on) s) in *.
  destruct (run_delivery E' w d (upd_f (set_calloutFn None) sx) Hq Hu) as (sb & Hr & Hcs & Hgo & Hws & Hfl).
  assert (Hrun : run E' w (gate req decide_on unavailable) s = Ok (handoff E' sb)).
  { unfold gate. cbn [run]. unfold_callouts. rewrite Hw. cbn [calloutStarted w_goStarted orb].
    unfold E' at 1. cbn [ev_callout with_callout]. fold E'. fold (callout_start w req (on_delivery decide_on) s). fold sx.
    unfold calloutDone. change (streamDone (s_f sx)) with (streamDone (s_f s)). rewrite Hd, Hr. cbn.
    by rewrite decide_True. }
  rewrite Hrun. cbn [mbind res_bind].
  pose proof (request_end_early E (HTTPCalloutInitSuccess, Some d) w sb) as He. cbv zeta in He. fold E' in He.
  rewrite He; [| unfold writer; rewrite Hws; exact Hc | by rewrite Hgo | by rewrite Hcs].
  destruct (Hfl false calloutStateFlushed) as [Ht Hst]. eexists. split.
  - rewrite Hst. by destruct (passes d).
  - rewrite Ht, andb_false_r, app_nil_r. cbn. by rewrite <-app_assoc.
Qed.

Lemma gate_late w s :
  ready w s ->
  gated (HTTPCalloutInitSuccess, None) (s_tr s)
    (s1 ← run (with_callout E (HTTPCalloutInitSuccess, None)) w (gate req decide_on unavailable) s;
     request_end (with_callout E (HTTPCalloutInitSuccess, None)) w s1).
Proof.
  intros [Hw Hb Hd Hg Hu]. unfold gated. cbn [fst snd]. rewrite decide_True by done.
  set (E' := with_callout E (HTTPCalloutInitSuccess, None)).
  destruct (callout_start_queued w (on_delivery decide_on) s Hb) as [Hc Hq].
  set (sx := callout_start w req (on_delivery decide_on) s) in *.
  assert (Hrun : run E' w (gate req decide_on unavailable) s = Ok sx).
  { unfold gate. cbn [run]. unfold_callouts. rewrite Hw. cbn [calloutStarted w_goStarted orb].
    unfold E' at 1. cbn [ev_callout with_callout mbind res_bind]. by rewrite decide_True. }
  rewrite Hrun. cbn [mbind res_bind]. unfold request_end, pausePendingCallout, cas. rewrite Hc, decide_True by done.
  eexists. split; [reflexivity|]. split; [reflexivity|]. intros d.
  destruct (run_delivery E' w d (upd_f (set_calloutFn None) (set_cs calloutStatePaused sx)) Hq Hu)
    as (sb & Hr & Hcs & Hgo & Hws & Hfl).
  exists (handoff E' sb). split.
  - unfold OnHttpCalloutDone, calloutDone. change (streamDone (s_f (set_cs calloutStatePaused sx))) with (streamDone (s_f s)).
    rewrite Hd. change (calloutFn (s_f (set_cs calloutStatePaused sx))) with (Some (w, on_delivery decide_on)).
    cbn [fmap option_fmap option_map fst snd]. by rewrite Hr.
  - unfold handoff, cas. rewrite decide_True by by rewrite Hcs. destruct (Hfl true calloutStateFlushed) as [-> _].
    by rewrite andb_true_r.
Qed.

Lemma gate_refused w s init :
  init <> HTTPCalloutInitSuccess -> ready w s ->
  gated (init, None) (s_tr s)
    (s1 ← run (with_callout E (init, None)) w (gate req decide_on unavailable) s;
     request_end (with_callout E (init, None)) w s1).
Proof.
  intros Hi [Hw Hb Hd Hg (Hl & Hqs & Hs & Hbr & Hst)]. unfold gated. cbn [fst snd]. rewrite decide_False by done. intros _.
  set (E' := with_callout E (init, None)). destruct (init_error init Hi) as [err Herr].
  set (sx := reject_callout w (upd_f (set_calloutFn None) (callout_start w req (on_delivery decide_on) s))).
  assert (Hwx : writer w sx = mkWriter false false false).
  { unfold writer in *. unfold sx. cbn. rewrite list_lookup_alter_eq, list_lookup_alter_eq.
    apply lookup_lt_is_Some_2 in Hb as [x Hx]. rewrite Hx in *. by rewrite Hw. }
  assert (Hrun : run E' w (gate req decide_on unavailable) s = Ok (SendLocalResponse w unavailable.1 unavailable.2 json_header sx)).
  { unfold gate. cbn [run]. unfold_callouts. rewrite Hw. cbn [calloutStarted w_goStarted orb].
    unfold E' at 1. cbn [ev_callout with_callout mbind res_bind]. rewrite decide_False by done. by rewrite Herr. }
  rewrite Hrun. cbn [mbind res_bind]. unfold SendLocalResponse, queued. rewrite Hwx. cbn [directWrite negb orb].
  change (localReply (s_f sx)) with (localReply (s_f s)). rewrite Hl.
  set (s2 := upd_f (set_stopped true) _).
  assert (Hw2 : calloutStarted (writer w s2) = false) by (unfold s2; by rewrite !writer_upd_f, Hwx).
  unfold request_end, pausePendingCallout, flushCompletedCallout. rewrite Hw2. cbn iota beta. rewrite Hw2.
  change (goStarted (s_f s2)) with (goStarted (s_f s)). rewrite Hg.
  eexists. split; [erewrite flush_reply by reflexivity; reflexivity|].
  cbn. by rewrite <-app_assoc.
Qed.

(** A reply without a callout. *)
Lemma local_now r w s code body hdrs :
  ready w s ->
  exists s1, (s1 ← run (with_callout E r) w (PAct (ASendLocalResponse code body hdrs) PRet) s; request_end (with_callout E r) w s1) =
      Ok (HeadersStatusStop, s1) /\
    s_tr s1 = s_tr s ++ [CSendLocalResponse (uint32_of code) hdrs body ""].
Proof.
  intros [Hw Hb Hd Hg (Hl & _)]. cbn [run do_act mbind res_bind]. unfold SendLocalResponse, queued.
  rewrite Hw, Hl. cbn [directWrite negb orb]. set (s2 := upd_f (set_stopped true) _).
  assert (Hw2 : calloutStarted (writer w s2) = false) by (unfold s2; by rewrite !writer_upd_f, Hw).
  unfold request_end, pausePendingCallout, flushCompletedCallout. rewrite Hw2. cbn iota beta. rewrite Hw2.
  change (goStarted (s_f s2)) with (goStarted (s_f s)). rewrite Hg.
  eexists. split; [erewrite flush_reply by reflexivity; reflexivity|]. reflexivity.
Qed.

Lemma reply_now r w s rp :
  ready w s ->
  exists s1, (s1 ← run (with_callout E r) w (reply rp) s; request_end (with_callout E r) w s1) = Ok (HeadersStatusStop, s1) /\
    s_tr s1 = s_tr s ++ reply_calls rp.
Proof. apply local_now. Qed.

(** However Envoy answers the callout, the gate decides: a request that runs into it on a
    stream that is ready is forwarded exactly with a verdict that lets it pass. *)
Lemma gate_decides r w s :
  ready w s ->
  gated r (s_tr s) (s1 ← run (with_callout E r) w (gate req decide_on unavailable) s; request_end (with_callout E r) w s1).
Proof.
  intros Hr. destruct r as [init sync]. destruct (decide (init = HTTPCalloutInitSuccess)) as [->|Hi].
  - destruct sync; [by apply gate_sync | by apply gate_late].
  - destruct sync; [|by apply gate_refused]. unfold gated. cbn [fst snd]. by rewrite decide_False.
Qed.
End gate.

(** A stream before its first callback, and the handler's stream. *)
Record idle_stream (s : st) : Prop := {
  id_body : requestBodyHandler (cfg (s_f s)) = None;
  id_fin : onStreamFinalized (cfg (s_f s)) = None;
  id_live : streamDone (s_f s) = false;
  id_go : goStarted (s_f s) = false;
  id_untouched : untouched s;
}.

Lemma idle_ready E s : idle_stream s -> ready (length (s_ws s)) (request_start E s) /\ s_tr (request_start E s) = s_tr s.
Proof.
  intros [Hb Hf Hl Hg Hu]. unfold request_start. split; [|by case_decide]. case_decide; split; try done; cbn;
    unfold writer; cbn; rewrite ?lookup_app_r, ?Nat.sub_diag, ?length_app by lia; cbn; done || lia.
Qed.

(** ** examples/jwt-callout *)

Section jwt.
(** [json.Marshal] of the token's object; [json.Unmarshal] of an introspection response, its
    [active] and [sub]. *)
Context (marshal_token : string -> bytes) (unmarshal : string -> option (bool * string)).

Definition ParseBearer (header : string) : option string :=
  match StripPrefix "Bearer " header with
  | Some token => if decide (token = "") then None else Some token
  | None => None
  end.

(** A status and body, or the subject. *)
Definition CheckIntrospection (result : Z) (body : string) : (Z * bytes) + string :=
  if decide (result <> HTTPCalloutSuccess) then inl (401%Z, error_body "introspection failed")
  else match unmarshal body with
       | Some (true, sub) => inr sub
       | _ => inl (401%Z, error_body "token inactive")
       end.

Definition introspect (token : string) : HTTPCalloutRequest :=
  mkReq "token-introspection"
    [(":method", "POST"); (":path", "/introspect"); (":scheme", "http"); ("host", "token-introspection.local");
     ("content-type", "application/json")]
    (marshal_token token) 300.

Definition jwt_verdict (d : CalloutDelivery) : verdict :=
  match CheckIntrospection (d_result d) (first_buffer d) with
  | inl r => inl r
  | inr sub => inr ("x-jwt-sub", sub)
  end.

Definition jwt_Handler (_ : Request) : prog :=
  PQuery (QHeader "authorization") (fun header =>
    match ParseBearer header with
    | None => reply (401%Z, error_body "missing token")
    | Some token => gate (introspect token) jwt_verdict (401%Z, error_body "introspection failed")
    end).

End jwt.

(** ** examples/async-callout *)

Definition CheckAuth (result : Z) (body : string) : option (Z * bytes) :=
  if decide (result <> HTTPCalloutSuccess) then Some (503%Z, error_body "auth unavailable")
  else if decide (body <> "ok") then Some (403%Z, error_body "denied")
  else None.

Definition auth_request : HTTPCalloutRequest :=
  mkReq "auth-service" [(":method", "POST"); (":path", "/check"); (":scheme", "http"); ("host", "auth-service.local")]
    (String.list_byte_of_string ("{" +:+ quoted "scope" +:+ ":" +:+ quoted "read" +:+ "}")) 250.

Definition auth_verdict (d : CalloutDelivery) : verdict :=
  match CheckAuth (d_result d) (first_buffer d) with
  | Some r => inl r
  | None => inr ("x-auth-checked", "true")
  end.

Definition async_Handler (_ : Request) : prog := gate auth_request auth_verdict (503%Z, error_body "auth unavailable").

(** The request goes on exactly when the service answered ok. *)
Lemma async_callout_gates E r eos s :
  idle_stream s -> handler (cfg (s_f s)) = async_Handler ->
  gated E auth_request auth_verdict (503%Z, error_body "auth unavailable") r (s_tr s)
    (OnRequestHeaders (with_callout E r) eos s) /\
  forall d, passes auth_verdict d = true <-> d_result d = HTTPCalloutSuccess /\ first_buffer d = "ok".
Proof.
  intros Hi Hh. split.
  - rewrite OnRequestHeaders_plain by apply Hi. rewrite Hh. destruct (idle_ready E s Hi) as [Hr Ht].
    rewrite <-Ht. by apply gate_decides.
  - intros d. unfold passes, auth_verdict, CheckAuth. case_decide as H1; [naive_solver|].
    case_decide as H2; [naive_solver|]. naive_solver.
Qed.

(** ** Witness *)

Definition demo_unmarshal (body : string) : option (bool * string) :=
  if decide (body = "active:ann") then Some (true, "ann") else if decide (body = "inactive") then Some (false, "") else None.
Definition demo_marshal (token : string) : bytes := String.list_byte_of_string token.
Definition answer (bufs : list string) : CalloutDelivery :=
  mkDelivery HTTPCalloutSuccess None (Some ((fun s => mkBuf (Some OGo) (String.list_byte_of_string s)) <$> bufs)).
Definition jwt_stream : st := newStream (onlyRequest (jwt_Handler demo_marshal demo_unmarshal)).
Definition jwt_envoy : Envoy := simEnvoy [("authorization", "Bearer t0"); ("x-jwt-sub", "root")] (0%Z, None).


(** ** Where the filters depend on how the answer arrives *)

(** Only the first buffer of the answer is read: an answer that says active is refused when it
    arrives in two. *)
Lemma split_answer_is_refused :
  passes (jwt_verdict demo_unmarshal) (answer ["active:ann"]) = true /\
  passes (jwt_verdict demo_unmarshal) (answer ["active:"; "ann"]) = false.
Proof. split; vm_compute; reflexivity. Qed.
