(* ===== verification/RateLimit.v ===== *)
(** * RateLimit: request admission through a rate limit service (examples/ratelimit)

    A handler that asks a rate limit service (RLS) over gRPC whether a request may pass, and
    the validated policy it works from.  The handler is a program over the writer, so that
    its decision is stated on the calls the stream makes to Envoy.  Protobuf encoding and
    the user's descriptor builder are parameters. *)
From stdpp Require Import base list gmap strings sets.
From Stdlib Require Import ZArith Lia Ascii.
From S2P Require Import Prelude GoStrings Async StreamObject Envoy Grpc FilterState Filter FilterFacts FlushProps RequestProps.

(** ** config.go *)

Record Entry := mkEntry { Key : string; Value : string; Header : string; FilterState : string }.

(** A descriptor: its key and value pairs. *)
Abbreviation descriptor := (list (string * string)).

(** [DescriptorBuilder], in continuation style: the builder may use the writer. *)
Definition DescriptorBuilder : Type :=
  Request -> ((string + list descriptor) -> prog) -> prog.

(** [TimeoutMillis] is a [uint64]; no arithmetic is done on it before it is passed on. *)
Record Config := mkConfig {
  Cluster : string;
  Authority : string;
  Domain : string;
  TimeoutMillis : Z;
  FailureMode : string;
  Descriptors : list (list Entry);
  BuildDescriptors : option DescriptorBuilder;
}.

(** [Policy] wraps a validated [Config]. *)
Record Policy := mkPolicy { config : Config }.

(** The number of sources of an entry that are not empty. *)
Definition sources (e : Entry) : nat :=
  length (base.filter (fun v => v <> "") [Value e; Header e; FilterState e]).

(** [strings.ContainsAny(s, " \t\r\n")]. *)
Definition has_blank (s : string) : bool :=
  existsb (fun a => bool_decide (code a ∈ [32; 9; 13; 10]%N)) (to_chars s).

Section config.
Context `{U : GoUnicode}.

Definition check_entry (e : Entry) : option string :=
  if decide (TrimSpace (Key e) = "" \/ sources e <> 1)
  then Some "needs a key and exactly one nonempty value, header or filter_state"
  else if negb (bool_decide (Header e = ToLower (Header e))) || has_blank (Header e)
  then Some "header must be lowercase without whitespace"
  else None.

Fixpoint check_entries (es : list Entry) : option string :=
  match es with
  | [] => None
  | e :: es' => match check_entry e with Some err => Some err | None => check_entries es' end
  end.

Fixpoint check_descriptors (ds : list (list Entry)) : option string :=
  match ds with
  | [] => None
  | d :: ds' =>
      if decide (d = []) then Some "descriptor is empty"
      else match check_entries d with Some err => Some err | None => check_descriptors ds' end
  end.

Definition Compile (c : Config) : string + Policy :=
  if decide (TrimSpace (Cluster c) = "" \/ TrimSpace (Domain c) = "")
  then inl "cluster and domain are required"
  else
    let timeout := if decide (TimeoutMillis c = 0%Z) then 50%Z else TimeoutMillis c in
    if (60000 <? timeout)%Z then inl "timeout_ms must be at most 60000"
    else
      let mode := if decide (FailureMode c = "") then "closed" else FailureMode c in
      if decide (mode <> "closed" /\ mode <> "open")
      then inl "failure_mode must be closed or open"
      else if Bool.eqb (bool_decide (Descriptors c = []))
                  (match BuildDescriptors c with None => true | Some _ => false end)
      then inl "provide either descriptors or BuildDescriptors"
      else match check_descriptors (Descriptors c) with
           | Some err => inl err
           | None => inr (mkPolicy (mkConfig (Cluster c) (Authority c) (Domain c) timeout mode
                                      (Descriptors c) (BuildDescriptors c)))
           end.

(** [Decode]: [parse] is the JSON decoder that rejects unknown fields and trailing input. *)
Definition Decode (parse : bytes -> string + Config) (data : bytes) : string + Policy :=
  match parse data with
  | inl e => inl e
  | inr c => Compile c
  end.
End config.

(** ** ratelimit.go *)

Record RateLimitRequest := mkRLS {
  rl_Domain : string;
  rl_Descriptors : list descriptor;
  rl_HitsAddend : Z;
}.

(** [RateLimitResponse_Code]. *)
Inductive rls_code := CodeOK | CodeOverLimit | CodeOther.

Definition StatusBadRequest : Z := 400.
Definition StatusTooManyRequests : Z := 429.
Definition StatusInternalServerError : Z := 500.
Definition StatusServiceUnavailable : Z := 503.

Definition method_name : string := "/envoy.service.ratelimit.v3.RateLimitService/ShouldRateLimit".

Section handler.
(** [proto.Marshal] of the request and [proto.Unmarshal] of the response; [None] for their
    errors. *)
Context (Marshal : RateLimitRequest -> option bytes) (Unmarshal : bytes -> option rls_code).

Definition reject (code : Z) (message : string) (k : prog) : prog :=
  PAct (ASendLocalResponse code (String.list_byte_of_string message)
          [("content-type", "text/plain")]) k.

(** The value of one declarative entry: the later source wins, as in the source. *)
Definition read_entry (e : Entry) (k : string -> prog) : prog :=
  let from_state value :=
    if decide (FilterState e <> "")
    then PQuery (QGetFilterState (FilterState e)) (fun v => k (default "" v))
    else k value in
  if decide (Header e <> "") then PQuery (QHeader (Header e)) from_state
  else from_state (Value e).

Fixpoint read_entries (es : list Entry) (acc : descriptor) (k : string + descriptor -> prog) :
    prog :=
  match es with
  | [] => k (inr acc)
  | e :: es' =>
      read_entry e (fun value =>
        if decide (value = "") then k (inl ("descriptor " +:+ Quote (Key e) +:+ " is unavailable"))
        else read_entries es' (acc ++ [(Key e, value)]) k)
  end.

(** [(p *Policy) request]. *)
Fixpoint request (ds : list (list Entry)) (acc : list descriptor)
    (k : string + list descriptor -> prog) : prog :=
  match ds with
  | [] => k (inr acc)
  | d :: ds' =>
      read_entries d [] (fun r =>
        match r with
        | inl e => k (inl e)
        | inr desc => request ds' (acc ++ [desc]) k
        end)
  end.

(** The check of the descriptors a builder returned. *)
Fixpoint check_built_loop (ds : list descriptor) : option string :=
  match ds with
  | [] => None
  | d :: ds' =>
      if decide (d = []) then Some "descriptor builder returned an empty descriptor"
      else if decide (Exists (fun kv => kv.1 = "" \/ kv.2 = "") d)
      then Some "descriptor builder returned an invalid entry"
      else check_built_loop ds'
  end.

(** What [requestFor] accepts of a builder's result. *)
Definition check_built (r : string + list descriptor) : string + list descriptor :=
  match r with
  | inl e => inl e
  | inr ds =>
      if decide (ds = []) then inl "descriptor builder returned no descriptors"
      else match check_built_loop ds with Some e => inl e | None => inr ds end
  end.

Definition requestFor (p : Policy) (r : Request) (k : string + RateLimitRequest -> prog) : prog :=
  let finish res :=
    match res with
    | inl e => k (inl e)
    | inr ds => k (inr (mkRLS (Domain (config p)) ds 1))
    end in
  match BuildDescriptors (config p) with
  | None => request (Descriptors (config p)) [] finish
  | Some build => build r (fun res => finish (check_built res))
  end.

Definition responseStatus (p : Policy) (resp : GRPCCalloutResponse) : Z :=
  let fallback := if decide (FailureMode (config p) = "open") then 0%Z
                  else StatusServiceUnavailable in
  if decide (gr_Result resp = HTTPCalloutSuccess /\ gr_GRPCStatus resp = 0%Z) then
    match Unmarshal (gr_Body resp) with
    | Some CodeOK => 0%Z
    | Some CodeOverLimit => StatusTooManyRequests
    | _ => fallback
    end
  else fallback.

(** The callback of the callout. *)
Definition on_response (p : Policy) (resp : GRPCCalloutResponse) : prog :=
  let code := responseStatus p resp in
  if decide (code = StatusTooManyRequests) then reject code "rate limit exceeded" PRet
  else if decide (code = StatusServiceUnavailable)
  then reject code "rate limit service unavailable" PRet
  else PRet.

(** [NewHandler], given the snapshot the configuration holds. *)
Definition NewHandler (snapshot : option Policy) (r : Request) : prog :=
  match snapshot with
  | None => reject StatusServiceUnavailable "rate limit config unavailable" PRet
  | Some policy =>
      if decide (Cluster (config policy) = "")
      then reject StatusServiceUnavailable "rate limit config unavailable" PRet
      else requestFor policy r (fun res =>
        match res with
        | inl _ => reject StatusBadRequest "rate limit descriptor unavailable" PRet
        | inr req =>
            match Marshal req with
            | None => reject StatusInternalServerError "rate limit request encoding failed" PRet
            | Some body =>
                PGRPCCallout (mkGrpcReq (Cluster (config policy)) (Authority (config policy))
                                method_name body (TimeoutMillis (config policy)))
                  (on_response policy)
                  (fun _ err =>
                     match err with
                     | Some _ =>
                         if decide (FailureMode (config policy) = "closed")
                         then reject StatusServiceUnavailable "rate limit service unavailable" PRet
                         else PRet
                     | None => PRet
                     end)
            end
        end)
  end.
End handler.

(** ** Facts *)

(** What a policy that [Compile] accepted satisfies. *)
Definition entry_ok `{U : GoUnicode} (e : Entry) : Prop :=
  TrimSpace (Key e) <> "" /\ sources e = 1 /\ Header e = ToLower (Header e) /\
  has_blank (Header e) = false.

Definition policy_ok `{U : GoUnicode} (p : Policy) : Prop :=
  let c := config p in
  TrimSpace (Cluster c) <> "" /\ TrimSpace (Domain c) <> "" /\
  (TimeoutMillis c <> 0 /\ TimeoutMillis c <= 60000)%Z /\
  (FailureMode c = "closed" \/ FailureMode c = "open") /\
  (Descriptors c = [] <-> is_Some (BuildDescriptors c)) /\
  Forall (fun d => d <> [] /\ Forall entry_ok d) (Descriptors c).

Lemma check_entry_ok `{U : GoUnicode} e : check_entry e = None <-> entry_ok e.
Proof.
  unfold check_entry, entry_ok. case_decide as H; [split; [done|tauto]|].
  apply Decidable.not_or in H as [H1 H2]. apply dec_stable in H2.
  destruct (bool_decide _) eqn:E1; cbn [negb orb].
  - apply bool_decide_eq_true in E1. destruct (has_blank (Header e)); naive_solver.
  - apply bool_decide_eq_false in E1. naive_solver.
Qed.

Lemma check_entries_ok `{U : GoUnicode} es : check_entries es = None <-> Forall entry_ok es.
Proof.
  induction es as [|e es IH]; cbn; [done|]. rewrite Forall_cons, <- IH, <- check_entry_ok.
  destruct (check_entry e); naive_solver.
Qed.

Lemma check_descriptors_ok `{U : GoUnicode} ds :
  check_descriptors ds = None <-> Forall (fun d => d <> [] /\ Forall entry_ok d) ds.
Proof.
  induction ds as [|d ds IH]; cbn; [done|]. rewrite Forall_cons, <- IH, <- check_entries_ok.
  case_decide; [naive_solver|]. destruct (check_entries d); naive_solver.
Qed.

Lemma builder_xor (c : Config) :
  Bool.eqb (bool_decide (Descriptors c = []))
      (match BuildDescriptors c with None => true | Some _ => false end) = false <->
  (Descriptors c = [] <-> is_Some (BuildDescriptors c)).
Proof.
  case_bool_decide; destruct (BuildDescriptors c) as [b|]; cbn; split; try done.
  - intros [H1 _]. by destruct (H1 H).
  - intros [_ H2]. destruct H. apply H2. by eexists.
Qed.

(** The configuration with its defaults. *)
Definition fill (c : Config) : Config :=
  mkConfig (Cluster c) (Authority c) (Domain c)
    (if decide (TimeoutMillis c = 0%Z) then 50%Z else TimeoutMillis c)
    (if decide (FailureMode c = "") then "closed" else FailureMode c)
    (Descriptors c) (BuildDescriptors c).

Lemma fill_fill c : fill (fill c) = fill c.
Proof.
  unfold fill. cbn. f_equal; repeat case_decide; done.
Qed.

Lemma mode_known (m : string) : ~ (m <> "closed" /\ m <> "open") <-> m = "closed" \/ m = "open".
Proof. destruct (decide (m = "closed")), (decide (m = "open")); tauto. Qed.

Lemma Compile_iff `{U : GoUnicode} c p :
  Compile c = inr p <-> p = mkPolicy (fill c) /\ policy_ok p.
Proof.
  unfold Compile. fold (fill c).
  change (if decide (TimeoutMillis c = 0%Z) then 50%Z else TimeoutMillis c)
    with (TimeoutMillis (fill c)).
  change (if decide (FailureMode c = "") then "closed" else FailureMode c)
    with (FailureMode (fill c)).
  assert (Ht0 : TimeoutMillis (fill c) <> 0%Z) by (cbn; by case_decide).
  cbv zeta. split.
  - case_decide as Hcd; [done|]. destruct (60000 <? _)%Z eqn:Hlt; [done|].
    apply Z.ltb_ge in Hlt. case_decide as Hm; [done|]. apply mode_known in Hm.
    destruct (Bool.eqb _ _) eqn:Hx; [done|]. apply builder_xor in Hx.
    destruct (check_descriptors _) eqn:Hf; [done|]. apply check_descriptors_ok in Hf.
    intros [= <-]. split; [done|]. by unfold policy_ok; split_and!; [tauto|tauto|..].
  - intros [-> (Hc & Hd & [_ Ht] & Hm & Hx & Hf)]. cbn [config] in *.
    change (Descriptors (fill c)) with (Descriptors c) in *.
    change (BuildDescriptors (fill c)) with (BuildDescriptors c) in *.
    rewrite decide_False by (cbn in Hc, Hd; tauto).
    rewrite (proj2 (Z.ltb_ge _ _)) by done.
    rewrite decide_False by by apply mode_known.
    rewrite (proj2 (builder_xor c) Hx).
    by rewrite (proj2 (check_descriptors_ok (Descriptors c)) Hf).
Qed.

(** ** Theorems *)

(** C40: [Compile] accepts exactly the configurations that are valid once the defaults are
    filled in, and a policy it returns is valid: named cluster and domain, a timeout that is
    not zero and at most 60000 ms, a known failure mode, either descriptors or a builder,
    and in every descriptor entries with a key, one source and a lower-case header.
    Compiling the policy again gives the same policy. *)
Theorem compile_returns_valid_policies `{U : GoUnicode} c p :
  (Compile c = inr p <-> p = mkPolicy (fill c) /\ policy_ok p) /\
  (Compile c = inr p -> Compile (config p) = inr p).
Proof.
  split; [apply Compile_iff|]. intros [-> Hok]%Compile_iff.
  apply Compile_iff. cbn. by rewrite fill_fill.
Qed.

(** *** The decision *)

(** The callback leaves its verdict in the pending local reply. *)
Lemma run_on_response E Unmarshal p resp w s :
  calloutStarted (writer w s) = true -> localReply (s_f s) = None ->
  exists s1, run E w (on_response Unmarshal p resp) s = Ok s1 /\
    localReply (s_f s1) =
      (let code := responseStatus Unmarshal p resp in
       if decide (code = StatusTooManyRequests \/ code = StatusServiceUnavailable)
       then Some (mkLocal code [("content-type", "text/plain")]
                    (String.list_byte_of_string
                       (if decide (code = StatusTooManyRequests) then "rate limit exceeded"
                        else "rate limit service unavailable")))
       else None) /\
    qs (s_f s1) = qs (s_f s) /\ stripFramingOnResume (s_f s1) = stripFramingOnResume (s_f s) /\
    hasRequestBodyReplacement (s_f s1) = hasRequestBodyReplacement (s_f s) /\
    calloutState (s_f s1) = calloutState (s_f s) /\ s_tr s1 = s_tr s.
Proof.
  intros Hc Hl. unfold on_response. cbv zeta.
  assert (Hq : queued w s = true) by (unfold queued; rewrite Hc; apply orb_true_r).
  set (code := responseStatus Unmarshal p resp).
  destruct (decide (code = StatusTooManyRequests)) as [->|H1];
    [|destruct (decide (code = StatusServiceUnavailable)) as [->|H2]].
  - eexists. split; [reflexivity|]. unfold SendLocalResponse. rewrite Hq, Hl. done.
  - eexists. split; [reflexivity|]. unfold SendLocalResponse. rewrite Hq, Hl. done.
  - exists s. split; [done|]. rewrite decide_False by tauto. done.
Qed.

(** What the service's answer means: admitted exactly on an OK that arrived whole. *)
Definition service_said_ok (Unmarshal : bytes -> option rls_code) (resp : GRPCCalloutResponse) :
    Prop :=
  gr_Result resp = HTTPCalloutSuccess /\ gr_GRPCStatus resp = 0%Z /\
  Unmarshal (gr_Body resp) = Some CodeOK.

Lemma responseStatus_closed Unmarshal p resp :
  FailureMode (config p) = "closed" ->
  (responseStatus Unmarshal p resp = 0%Z <-> service_said_ok Unmarshal resp) /\
  (responseStatus Unmarshal p resp <> 0%Z ->
   responseStatus Unmarshal p resp = StatusTooManyRequests \/
   responseStatus Unmarshal p resp = StatusServiceUnavailable).
Proof.
  intros Hm. unfold responseStatus, service_said_ok. rewrite Hm.
  rewrite (decide_False (P := "closed" = "open")) by done.
  case_decide as H; [destruct H as [H1 H2]|].
  - destruct (Unmarshal (gr_Body resp)) as [[| |]|]; split; try tauto; try (by split; [|naive_solver]).
  - split; [split; [done|tauto]|tauto].
Qed.

(** The response [grpcStreamCallback.finish] hands to the callback. *)
Definition finished (c : grpcStreamCallback) (result : Z) : GRPCCalloutResponse :=
  mkGrpcResp result (gr_GRPCStatus (gc_resp c)) (gr_GRPCMessage (gc_resp c))
    (if decide (result = HTTPCalloutSuccess)
     then match decodeGRPCFrame (gc_body c) with Some b => b | None => [] end
     else gr_Body (gc_resp c)).

(** The end of a callout that has not ended yet: the callback runs, then the handoff. *)
Lemma grpc_end E g c e result s :
  (e = SComplete /\ result = HTTPCalloutSuccess) \/ (e = SReset /\ result = HTTPCalloutReset) ->
  s_grpcs s !! g = Some c -> gc_once c = false -> streamDone (s_f s) = false ->
  OnGrpcStreamEvent E g e s =
  (s1 ← run E (gc_w c) (gc_fn c (finished c result))
          (set_s_grpcs (<[g := mkGrpcCb (gc_w c) (gc_fn c) true (gc_resp c) (gc_body c)]>
                          (s_grpcs s)) s);
   Ok (handoff E s1)).
Proof.
  intros He Hg Honce Hd. unfold OnGrpcStreamEvent. rewrite Hg.
  assert (Hfin : grpc_event E (fun r => run E (gc_w c) (gc_fn c r)) g e s =
                 grpc_finish E (fun r => run E (gc_w c) (gc_fn c r)) g result s)
    by (destruct He as [[-> ->]|[-> ->]]; done).
  rewrite Hfin. unfold grpc_finish. rewrite Hg, Honce.
  change (streamDone (s_f (set_s_grpcs _ s))) with (streamDone (s_f s)). by rewrite Hd.
Qed.

(** A request waits for the rate limit service and passes only on its OK.  For a stream
    paused on the policy's callout with failure mode closed, when the callout ends, by
    completion or reset, the stream is resumed exactly when a whole response with status 0
    decoded to OK arrived; in every other case (reset, gRPC error, undecodable or unknown
    answer, over limit) Envoy is told to answer 429 or 503, and no [ContinueRequest] follows. *)
Theorem ratelimit_admits_only_on_ok E Unmarshal p g c e result s :
  FailureMode (config p) = "closed" ->
  (e = SComplete /\ result = HTTPCalloutSuccess) \/ (e = SReset /\ result = HTTPCalloutReset) ->
  s_grpcs s !! g = Some c -> gc_fn c = on_response Unmarshal p -> gc_once c = false ->
  calloutState (s_f s) = calloutStatePaused -> streamDone (s_f s) = false ->
  calloutStarted (writer (gc_w c) s) = true -> localReply (s_f s) = None ->
  hasRequestBodyReplacement (s_f s) = false ->
  exists s', OnGrpcStreamEvent E g e s = Ok s' /\
    (service_said_ok Unmarshal (finished c result) ->
       s_tr s' = s_tr s ++ queue_calls (qs (s_f s)) (stripFramingOnResume (s_f s)) ++
                 [CContinueRequest]) /\
    (~ service_said_ok Unmarshal (finished c result) ->
       exists code body, (code = StatusTooManyRequests \/ code = StatusServiceUnavailable) /\
         s_tr s' = s_tr s ++ [CSendLocalResponse code [("content-type", "text/plain")] body ""]).
Proof.
  intros Hm He Hg Hfn Honce Hp Hd Hc Hl Hb.
  rewrite (grpc_end E g c e result s He Hg Honce Hd), Hfn.
  set (s0 := set_s_grpcs _ s).
  destruct (run_on_response E Unmarshal p (finished c result) (gc_w c) s0)
    as (s1 & -> & Hrep & Hqs & Hstrip & Hbody & Hcs & Htr); [done|done|].
  exists (handoff E s1). split; [done|].
  destruct (responseStatus_closed Unmarshal p (finished c result) Hm) as [Hok Hbad].
  unfold handoff, cas. rewrite decide_True by (by rewrite Hcs). cbv zeta in Hrep. split.
  - intros Hyes. apply Hok in Hyes. rewrite Hyes in Hrep.
    rewrite decide_False in Hrep by (intros []; done).
    rewrite flush_trace by exact Hrep. cbn in *. rewrite Hbody, Hqs, Hstrip, Htr.
    unfold s0. cbn. by rewrite Hb.
  - intros Hno. rewrite <- Hok in Hno. apply Hbad in Hno.
    rewrite decide_True in Hrep by done.
    exists (responseStatus Unmarshal p (finished c result)). eexists. split; [done|].
    erewrite flush_reply by exact Hrep. cbn. by rewrite Htr.
Qed.

(** *** The request *)

(** The value of an entry, given the headers and the filter state. *)
Definition value_of (h : string -> string) (fs : string -> option string) (e : Entry) : string :=
  if decide (FilterState e <> "") then default "" (fs (FilterState e))
  else if decide (Header e <> "") then h (Header e) else Value e.

(** The descriptors of the policy, when every value is there. *)
Definition built (h : string -> string) (fs : string -> option string) (ds : list (list Entry)) :
    option (list descriptor) :=
  mapM (mapM (fun e => if decide (value_of h fs e = "") then None
                       else Some (Key e, value_of h fs e))) ds.

Section request.
Context (E : Envoy) (w : nat).

Lemma run_read_entries k s es : forall acc,
  exists err, run E w (read_entries es acc k) s =
    run E w (k (match mapM (fun e => if decide (value_of (ev_request_header E (s_tr s))
                                          (fun n => GetFilterState E n s) e = "") then None
                       else Some (Key e, value_of (ev_request_header E (s_tr s))
                                          (fun n => GetFilterState E n s) e)) es with
                | Some d => inr (acc ++ d)
                | None => inl err
                end)) s.
Proof.
  induction es as [|e es IH]; intros acc; cbn [read_entries].
  { exists "". cbn. by rewrite app_nil_r. }
  assert (Hread : forall kk, run E w (read_entry e kk) s =
    run E w (kk (value_of (ev_request_header E (s_tr s)) (fun n => GetFilterState E n s) e)) s).
  { intros kk. unfold read_entry, value_of. repeat case_decide; cbn; done. }
  rewrite Hread. cbn [mapM]. set (v := value_of _ _ e).
  destruct (decide (v = "")) as [Hv|Hv]; cbn [mbind option_bind].
  - eexists. reflexivity.
  - destruct (IH (acc ++ [(Key e, v)])) as [err Herr]. exists err. rewrite Herr.
    match goal with |- context [mapM ?f es] => destruct (mapM f es) as [d|] end; cbn.
    + by rewrite <- app_assoc.
    + done.
Qed.

(** The handler's request is the policy's descriptors with every value, or an error. *)
Lemma run_request k s ds : forall acc,
  exists err, run E w (request ds acc k) s =
    run E w (k (match built (ev_request_header E (s_tr s)) (fun n => GetFilterState E n s) ds with
                | Some d => inr (acc ++ d)
                | None => inl err
                end)) s.
Proof.
  induction ds as [|d ds IH]; intros acc; cbn [request].
  { exists "". cbn. by rewrite app_nil_r. }
  match goal with |- context [run E w (read_entries d [] ?kk) s] =>
    destruct (run_read_entries kk s d []) as [err1 ->] end.
  unfold built in *. cbn [mapM].
  match goal with |- context [mapM ?f d] => destruct (mapM f d) as [desc|] end; cbn [mbind option_bind].
  - destruct (IH (acc ++ [desc])) as [err Herr]. exists err. cbn [app]. rewrite Herr.
    match goal with |- context [mapM ?f ds] => destruct (mapM f ds) as [l|] end; cbn.
    + by rewrite <- app_assoc.
    + done.
  - eexists. reflexivity.
Qed.
End request.

(** ** A concrete policy *)

#[local] Instance ascii_only : GoUnicode := fun s => s.

Definition demo_config : Config :=
  mkConfig "rls" "" "edge" 0 "" [[mkEntry "tenant" "" "x-tenant" ""]] None.
Definition demo_policy : Policy := mkPolicy (fill demo_config).

Example demo_policy_compiles : Compile demo_config = inr demo_policy.
Proof. vm_compute. reflexivity. Qed.

(** Responses are one byte: 1 is OK, 2 is over limit. *)
Definition demo_unmarshal (b : bytes) : option rls_code :=
  match b with
  | [x01] => Some CodeOK
  | [x02] => Some CodeOverLimit
  | [] => Some CodeOther
  | _ => None
  end.

(** A stream paused on the callout, which received the frame of [msg]. *)
Definition waiting (msg : bytes) : st :=
  let s := (newWriter (mkWriter true false false) (newStream (onlyRequest (fun _ => PRet)))).2 in
  set_s_grpcs [mkGrpcCb 0 (on_response demo_unmarshal demo_policy) false
                 (mkGrpcResp HTTPCalloutSuccess 0 "" []) (encodeGRPCFrame msg)]
    (upd_f (set_calloutState calloutStatePaused) s).

Definition demo_cb (msg : bytes) : grpcStreamCallback :=
  mkGrpcCb 0 (on_response demo_unmarshal demo_policy) false
    (mkGrpcResp HTTPCalloutSuccess 0 "" []) (encodeGRPCFrame msg).

Lemma ratelimit_admits_only_on_ok_witness :
  let E := simEnvoy [] (0%Z, None) in
  (exists s', OnGrpcStreamEvent E 0 SComplete (waiting [x01]) = Ok s' /\
              s_tr s' = [CContinueRequest]) /\
  (exists s' code body, OnGrpcStreamEvent E 0 SComplete (waiting [x02]) = Ok s' /\
     s_tr s' = [CSendLocalResponse code [("content-type", "text/plain")] body ""]).
Proof.
  intros E. split.
  - destruct (ratelimit_admits_only_on_ok E demo_unmarshal demo_policy 0 (demo_cb [x01])
                SComplete HTTPCalloutSuccess (waiting [x01])) as (s' & Hs & Hyes & _);
      try reflexivity; [by left|].
    exists s'. split; [exact Hs|]. rewrite Hyes by (split_and!; reflexivity). reflexivity.
  - destruct (ratelimit_admits_only_on_ok E demo_unmarshal demo_policy 0 (demo_cb [x02])
                SComplete HTTPCalloutSuccess (waiting [x02])) as (s' & Hs & _ & Hno);
      try reflexivity; [by left|].
    destruct Hno as (code & body & _ & Htr); [intros (_ & _ & H); vm_compute in H; discriminate|].
    exists s', code, body. split; [exact Hs|exact Htr].
Defined.
