(* ===== verification/LbPolicy.v ===== *)
(** * LbPolicy: host selection by index (examples/lb-policy*, examples/cluster, cluster-least-conn)

    The load-balancing policies of the examples choose a host by writing a priority and an
    index; two example clusters return a host pointer.  [LBHandle] and [LBContext] are the
    methods they use of down/lb.go.  [envoy_hosts] is a handle over a list of hosts as
    Envoy's ABI documents it: the chosen index counts healthy hosts, while host metadata and
    [ShouldSelectAnotherHost] count all hosts. *)
From stdpp Require Import base list gmap strings sets.
From Stdlib Require Import ZArith Lia Ascii.
From S2P Require Import Prelude GoStrings HostSet.

Open Scope Z_scope.

(** ** The interfaces (down/lb.go) *)

Record LBHandle := mkLBHandle {
  HealthyHostCount : Z -> Z;
  HostMetadataString : Z -> Z -> string -> string -> option string;
}.

Record LBContext := mkLBContext {
  GetHeader : string -> option string;
  ShouldSelectAnotherHost : Z -> Z -> bool;
}.

(** The result of [ChooseHost]: the priority and index written when it returns true. *)
Abbreviation choice := (option (Z * Z)).

(** ** The policies *)

(** examples/lb-policy and examples/llm-decider: the first healthy host. *)
Definition firstHostPolicy_ChooseHost (lb : LBHandle) (_ : LBContext) : choice :=
  if decide (HealthyHostCount lb 0 = 0) then None else Some (0, 0).

(** The loop of the two policies below: the first index that passes [test], else 0. *)
Fixpoint scan (test : Z -> bool) (n i : Z) (fuel : nat) : choice :=
  match fuel with
  | O => Some (0, 0)
  | S fuel =>
      if (i <? n) then
        if test i then Some (0, uint32_of i) else scan test n (i + 1) fuel
      else Some (0, 0)
  end.

(** examples/lb-policy-retry-aware. *)
Definition retryAwarePolicy_ChooseHost (lb : LBHandle) (ctx : LBContext) : choice :=
  let n := HealthyHostCount lb 0 in
  if decide (n = 0) then None
  else scan (fun i => negb (ShouldSelectAnotherHost ctx 0 i)) n 0 (Z.to_nat n).

(** examples/lb-policy-metadata-route. *)
Definition metadataRoutePolicy_ChooseHost (lb : LBHandle) (ctx : LBContext) : choice :=
  let n := HealthyHostCount lb 0 in
  if decide (n = 0) then None
  else match GetHeader ctx "x-required-capability" with
       | None => Some (0, 0)
       | Some required =>
           if decide (required = "") then Some (0, 0)
           else scan (fun i => bool_decide
                        (HostMetadataString lb 0 i "envoy.lb" "capability" = Some required))
                  n 0 (Z.to_nat n)
       end.

(** [hash/fnv] New32a: FNV-1a on 32 bits. *)
Definition fnv32a (s : string) : Z :=
  foldl (fun h a => uint32_of (Z.lxor h (Z.of_N (code a)) * 16777619)) 2166136261 (to_chars s).

(** examples/lb-policy-header-hash; [int] has 64 bits. *)
Definition headerHashPolicy_ChooseHost (lb : LBHandle) (ctx : LBContext) : choice :=
  let n := HealthyHostCount lb 0 in
  if decide (n = 0) then None
  else match GetHeader ctx "x-session-id" with
       | None => Some (0, 0)
       | Some val => if decide (val = "") then Some (0, 0)
                     else Some (0, uint32_of (Z.rem (fnv32a val) n))
       end.

(** ** The cluster load balancers *)

(** examples/cluster: [h.HealthyHost(0, 0)] of a cluster with healthy hosts. *)
Definition firstHealthyClusterLB_ChooseHost (healthy : list HostPtr) : HostPtr :=
  match healthy with
  | [] => 0
  | p :: _ => p
  end.

(** examples/cluster-least-conn: the loop over the hosts' active requests; [active] is
    [HostStat(0, i, HostStatRqActive)]. *)
Fixpoint least_loop (active : list Z) (i minIdx : nat) (minActive : Z) : nat :=
  match active with
  | [] => minIdx
  | a :: rest => if a <? minActive then least_loop rest (S i) i a
                 else least_loop rest (S i) minIdx minActive
  end.

Definition leastConnClusterLB_ChooseHost (active : list Z) (hosts : list HostPtr) : HostPtr :=
  match active with
  | [] => 0
  | a :: rest => nth (least_loop rest 1 0 a) hosts 0
  end.

(** [parseHosts] of both packages: [parse] is the JSON decoder into address and weight. *)
Section parse.
Context (pkg : string) (parse : bytes -> string + list (string * Z)).

Fixpoint parse_loop (i : nat) (hosts : list (string * Z)) : string + list HostSpec :=
  match hosts with
  | [] => inr []
  | (addr, weight) :: rest =>
      if decide (addr = "") then inl (pkg +:+ ": host " +:+ pretty.pretty i +:+ " address is required")
      else match parse_loop (S i) rest with
           | inl e => inl e
           | inr specs => inr (mkSpec addr "" weight ∅ :: specs)
           end
  end.

Definition parseHosts (config : bytes) : string + list HostSpec :=
  if decide (length config = 0%nat) then inl (pkg +:+ ": config must include at least one host")
  else match parse config with
       | inl e => inl (pkg +:+ ": parse config: " +:+ e)
       | inr hosts =>
           if decide (length hosts = 0%nat)
           then inl (pkg +:+ ": config must include at least one host")
           else parse_loop 0 hosts
       end.

Lemma parse_loop_ok hosts : forall i,
  Forall (fun h => h.1 <> "") hosts ->
  parse_loop i hosts = inr ((fun h => mkSpec h.1 "" h.2 ∅) <$> hosts).
Proof.
  induction hosts as [|[a w] hosts IH]; intros i Hf; [done|].
  apply Forall_cons in Hf as [Ha Hf]. cbn in *. rewrite decide_False by done.
  by rewrite IH.
Qed.

Lemma parse_loop_error hosts : forall i,
  Exists (fun h => h.1 = "") hosts -> exists e, parse_loop i hosts = inl e.
Proof.
  induction hosts as [|[a w] hosts IH]; intros i He; [by apply Exists_nil in He|].
  cbn. case_decide; [by eexists|]. apply Exists_cons in He as [He|He]; [done|].
  destruct (IH (S i) He) as [e ->]. by eexists.
Qed.
End parse.

(** ** Facts *)

Lemma uint32_small i : 0 <= i < 2 ^ 32 -> uint32_of i = i.
Proof. intros H. unfold uint32_of. by apply Z.mod_small. Qed.

Lemma fnv32a_bound s : 0 <= fnv32a s < 2 ^ 32.
Proof.
  unfold fnv32a. set (h0 := 2166136261). assert (Hh : 0 <= h0 < 2 ^ 32) by (unfold h0; lia).
  revert Hh. generalize h0. induction (to_chars s) as [|a l IH]; intros h Hh; cbn [foldl]; [done|].
  apply IH. unfold uint32_of. apply Z.mod_pos_bound. lia.
Qed.

(** The loop stops at the first index that passes, or falls back to 0; the fuel, one unit
    per index, is never short. *)
Lemma scan_spec test n i fuel :
  0 <= i -> n < 2 ^ 32 -> Z.of_nat fuel = n - i ->
  (exists j, i <= j < n /\ scan test n i fuel = Some (0, j) /\ test j = true /\
     forall k, i <= k < j -> test k = false) \/
  (scan test n i fuel = Some (0, 0) /\ forall k, i <= k < n -> test k = false).
Proof.
  revert i. induction fuel as [|fuel IH]; intros i Hi Hn Hf; cbn [scan].
  { right. split; [done|]. intros k Hk. lia. }
  rewrite (proj2 (Z.ltb_lt i n)) by lia. destruct (test i) eqn:Es.
  - left. exists i. rewrite uint32_small by lia. split_and!; [lia|lia|done|done|]. lia.
  - destruct (IH (i + 1)) as [(j & Hj & Hr & Hs & Hall)|[Hr Hall]]; [lia..| |].
    + left. exists j. split_and!; [lia|lia|done|done|]. intros k Hk.
      destruct (decide (k = i)) as [->|]; [done|]. apply Hall. lia.
    + right. split; [done|]. intros k Hk. destruct (decide (k = i)) as [->|]; [done|].
      apply Hall. lia.
Qed.

Lemma scan_range test n :
  0 < n < 2 ^ 32 -> exists i, scan test n 0 (Z.to_nat n) = Some (0, i) /\ 0 <= i < n.
Proof.
  intros Hn. destruct (scan_spec test n 0 (Z.to_nat n)) as [(j & Hj & Hr & _)|[Hr _]]; [lia..| |].
  - by exists j.
  - exists 0. split; [done|lia].
Qed.

(** The loop keeps the position of the first minimum of what it has seen. *)
Lemma least_loop_spec rest : forall pre m a,
  (pre ++ rest) !! m = Some a -> (m < length pre)%nat ->
  (forall j b, pre !! j = Some b -> a <= b) ->
  (forall j b, pre !! j = Some b -> (j < m)%nat -> a < b) ->
  exists a', (pre ++ rest) !! least_loop rest (length pre) m a = Some a' /\
    (forall j b, (pre ++ rest) !! j = Some b -> a' <= b) /\
    (forall j b, (pre ++ rest) !! j = Some b ->
       (j < least_loop rest (length pre) m a)%nat -> a' < b).
Proof.
  induction rest as [|x rest IH]; intros pre m a Hm Hlt Hmin Hfirst; cbn [least_loop].
  { exists a. rewrite app_nil_r in *. done. }
  specialize (IH (pre ++ [x])). rewrite length_app, Nat.add_1_r, <- app_assoc in IH. cbn [app] in IH.
  destruct (x <? a) eqn:E; [apply Z.ltb_lt in E|apply Z.ltb_ge in E].
  - apply IH; [|lia|..].
    + rewrite lookup_app_r by lia. by rewrite Nat.sub_diag.
    + intros j b [Hj|[_ Hj]]%lookup_app_Some;
        [specialize (Hmin _ _ Hj); lia|].
      apply list_lookup_singleton_Some in Hj as [_ <-]. lia.
    + intros j b [Hj|[Hge _]]%lookup_app_Some Hjl; [|lia]. specialize (Hmin _ _ Hj). lia.
  - apply IH; [done|lia|..].
    + intros j b [Hj|[_ Hj]]%lookup_app_Some; [by eapply Hmin|].
      apply list_lookup_singleton_Some in Hj as [_ <-]. lia.
    + intros j b [Hj|[Hge _]]%lookup_app_Some Hjl; [by eapply Hfirst|lia].
Qed.

(** ** Theorems *)

(** The policies of the examples. *)
Definition policies : list (LBHandle -> LBContext -> choice) :=
  [firstHostPolicy_ChooseHost; retryAwarePolicy_ChooseHost; metadataRoutePolicy_ChooseHost;
   headerHashPolicy_ChooseHost].

(** Every example policy chooses within bounds: it refuses exactly when there is no
    healthy host at priority 0, and otherwise the index it writes is at least 0 and below
    the number of healthy hosts, whatever the request's headers, the hosts' metadata and the
    hosts already tried. *)
Theorem policies_choose_in_range lb ctx :
  let n := HealthyHostCount lb 0 in
  0 <= n < 2 ^ 32 ->
  Forall (fun choose => (n = 0 -> choose lb ctx = None) /\
    (n <> 0 -> exists i, choose lb ctx = Some (0, i) /\ 0 <= i < n)) policies.
Proof.
  intros n Hn. unfold policies, firstHostPolicy_ChooseHost, retryAwarePolicy_ChooseHost,
    metadataRoutePolicy_ChooseHost, headerHashPolicy_ChooseHost. fold n. cbv zeta.
  assert (Hzero : n <> 0 -> exists i, Some (0, 0) = Some (0, i) /\ 0 <= i < n)
    by (intros; exists 0; split; [done|lia]).
  repeat (apply Forall_cons; split); [..|apply Forall_nil, I];
    (split; intros Hz; [by rewrite decide_True|rewrite decide_False by done]).
  - by apply Hzero.
  - apply scan_range. lia.
  - destruct (GetHeader ctx _); [|by apply Hzero]. case_decide; [by apply Hzero|].
    apply scan_range. lia.
  - destruct (GetHeader ctx _) as [val|]; [|by apply Hzero]. case_decide; [by apply Hzero|].
    pose proof (fnv32a_bound val).
    change (HealthyHostCount lb 0) with n.
    assert (Hr : 0 <= Z.rem (fnv32a val) n < n) by (apply Z.rem_bound_pos; lia).
    exists (Z.rem (fnv32a val) n). revert Hr. generalize (Z.rem (fnv32a val) n). intros r Hr.
    rewrite uint32_small by lia. split; [done|lia].
Qed.

(** The least-connection balancer returns the host with the fewest active requests, the
    first one among equals, for any positive number of hosts. *)
Theorem least_conn_picks_minimum active hosts :
  active <> [] -> length hosts = length active ->
  exists i a p, leastConnClusterLB_ChooseHost active hosts = p /\
    active !! i = Some a /\ hosts !! i = Some p /\
    (forall j b, active !! j = Some b -> a <= b) /\
    (forall j b, active !! j = Some b -> (j < i)%nat -> a < b).
Proof.
  intros Hne Hlen. destruct active as [|a0 rest]; [done|].
  destruct (least_loop_spec rest [a0] 0%nat a0) as (a' & Ha' & Hmin & Hfirst); [done|cbn; lia|..].
  { intros j b [_ <-]%list_lookup_singleton_Some. lia. }
  { intros j b _ Hj. lia. }
  cbn [length app] in *. set (i := least_loop rest 1 0 a0) in *.
  assert (is_Some (hosts !! i)) as [p Hp].
  { apply lookup_lt_is_Some. rewrite Hlen. by apply lookup_lt_Some in Ha'. }
  exists i, a', p. split_and!; [|done..]. cbn. fold i. by apply nth_lookup_Some.
Qed.

(** ** Hosts as Envoy indexes them *)

Record host := mkHost { h_healthy : bool; h_capability : option string; h_tried : bool }.

#[export] Instance host_eq_dec : EqDecision host.
Proof. solve_decision. Defined.

Definition healthy_hosts (hosts : list host) : list host :=
  filter (fun h => h_healthy h = true) hosts.

(** The handle and the context over one priority's hosts: counts of healthy hosts, lookups
    among all hosts. *)
Definition envoy_hosts (hosts : list host) : LBHandle :=
  mkLBHandle (fun p => if decide (p = 0) then Z.of_nat (length (healthy_hosts hosts)) else 0)
    (fun p i ns key => h ← hosts !! Z.to_nat i; h_capability h).

Definition envoy_context (hosts : list host) (headers : gmap string string) : LBContext :=
  mkLBContext (fun n => headers !! n)
    (fun p i => match hosts !! Z.to_nat i with Some h => h_tried h | None => false end).

(** The host Envoy uses for a choice: the index counts healthy hosts. *)
Definition selected (hosts : list host) (c : choice) : option host :=
  match c with
  | Some (_, i) => healthy_hosts hosts !! Z.to_nat i
  | None => None
  end.

Lemma all_healthy hosts : Forall (fun h => h_healthy h = true) hosts -> healthy_hosts hosts = hosts.
Proof. unfold healthy_hosts. induction 1; [done|]. by rewrite filter_cons_True, IHForall. Qed.

(** While every host is healthy, the two ways of counting agree and the policies do what
    they are for: the first host that was not tried, the first host with the capability. *)
Lemma retry_aware_skips_tried hosts headers h :
  Forall (fun h => h_healthy h = true) hosts -> Z.of_nat (length hosts) < 2 ^ 32 ->
  h ∈ hosts -> h_tried h = false ->
  exists h', selected hosts (retryAwarePolicy_ChooseHost (envoy_hosts hosts)
               (envoy_context hosts headers)) = Some h' /\ h_tried h' = false.
Proof.
  intros Hall Hlen Hin Htried. apply list_elem_of_lookup in Hin as [i Hi].
  pose proof (lookup_lt_Some _ _ _ Hi) as Hlt.
  unfold retryAwarePolicy_ChooseHost. cbn [HealthyHostCount envoy_hosts].
  rewrite (decide_True (P := 0 = 0)) by done. rewrite (all_healthy _ Hall).
  rewrite decide_False by lia.
  destruct (scan_spec (fun i => negb (ShouldSelectAnotherHost (envoy_context hosts headers) 0 i))
              (Z.of_nat (length hosts)) 0 (Z.to_nat (Z.of_nat (length hosts))))
    as [(j & Hj & -> & Ht & _)|[_ Hnone]]; [lia..| |].
  - cbn. rewrite (all_healthy _ Hall). cbn in Ht.
    destruct (lookup_lt_is_Some_2 hosts (Z.to_nat j)) as [h' Hh']; [lia|].
    rewrite Hh' in *. exists h'. split; [done|]. by apply negb_true_iff.
  - specialize (Hnone (Z.of_nat i) ltac:(lia)). cbn in Hnone.
    rewrite Nat2Z.id, Hi, Htried in Hnone. done.
Qed.

(** With an unhealthy host in front they do not: the metadata policy reads the capability of
    one host and selects another, and the retry-aware policy selects a host that was
    tried although another was not. *)
Definition mixed : list host :=
  [mkHost false (Some "gpu") true; mkHost true (Some "cpu") false; mkHost true (Some "gpu") true].

Lemma metadata_route_misreads_unhealthy :
  selected mixed (metadataRoutePolicy_ChooseHost (envoy_hosts mixed)
    (envoy_context mixed {[ "x-required-capability" := "gpu" ]})) =
  Some (mkHost true (Some "cpu") false) /\
  mkHost true (Some "gpu") true ∈ healthy_hosts mixed.
Proof. split; [reflexivity|]. by apply (bool_decide_unpack _). Qed.

Lemma retry_aware_misreads_unhealthy :
  selected mixed (retryAwarePolicy_ChooseHost (envoy_hosts mixed) (envoy_context mixed ∅)) =
  Some (mkHost true (Some "gpu") true) /\
  mkHost true (Some "cpu") false ∈ healthy_hosts mixed.
Proof. split; [reflexivity|]. by apply (bool_decide_unpack _). Qed.

(** ** Witnesses *)

Lemma policies_choose_in_range_witness :
  Forall (fun choose =>
    (HealthyHostCount (envoy_hosts mixed) 0 = 0 ->
       choose (envoy_hosts mixed) (envoy_context mixed ∅) = None) /\
    (HealthyHostCount (envoy_hosts mixed) 0 <> 0 ->
       exists i, choose (envoy_hosts mixed) (envoy_context mixed ∅) = Some (0, i) /\
                 0 <= i < HealthyHostCount (envoy_hosts mixed) 0)) policies.
Proof. apply policies_choose_in_range. vm_compute. split; [discriminate|reflexivity]. Defined.

Lemma least_conn_picks_minimum_witness :
  exists i a p, leastConnClusterLB_ChooseHost [5; 2; 2] [101; 102; 103] = p /\
    [5; 2; 2] !! i = Some a /\ [101; 102; 103] !! i = Some p /\
    (forall j b, [5; 2; 2] !! j = Some b -> a <= b) /\
    (forall j b, [5; 2; 2] !! j = Some b -> (j < i)%nat -> a < b).
Proof. apply least_conn_picks_minimum; [discriminate|reflexivity]. Defined.
