(* ===== verification/PluginAbi.v ===== *)
(** * PluginAbi: the load-balancing-policy and access-logger ABI

    down/lb.go and down/access_logger.go (registries), down/abi_impl/lb_policy.go and
    down/abi_impl/access_logger.go (the callbacks Envoy calls), up/access_logger.go (the
    adapters between a user's logger and the ABI).  Both extensions have two kinds of
    objects behind handles, configurations and per-worker instances, kept in the tables of
    Completion.v; here a table is the finite map it refines, and an object is the number of
    its creation. *)
From stdpp Require Import base list gmap strings sets.
From Stdlib Require Import ZArith Lia.
From S2P Require Import Prelude.

(** ** Registries *)

Section registry.
Context {F : Type}.

(** [RegisterLBPolicy]: a repeated name panics. *)
Definition RegisterLBPolicy (name : string) (f : F) (reg : gmap string F) : res (gmap string F) :=
  match reg !! name with
  | Some _ => Panic ("down: LB policy already registered: " +:+ name)
  | None => Ok (<[name := f]> reg)
  end.

Definition GetLBPolicyFactory (name : string) (reg : gmap string F) : option F := reg !! name.
End registry.

(** ** Objects behind handles *)

(** An object: the number of its creation. *)
Abbreviation obj := nat.

(** The calls both extensions make on the user's objects. *)
Inductive pcall :=
  | ConfigClose (o : obj)
  | NewInstance (config o : obj)
  | InstanceClose (o : obj)
  | Use (o : obj) (what : Z).

(** The two tables, the number of objects made and the calls so far. *)
Record plugin := mkPlugin {
  configs : gmap Z obj;
  instances : gmap Z obj;
  made : nat;
  calls : list pcall;
}.

Definition plugin_start : plugin := mkPlugin ∅ ∅ 0 [].

Definition call_ (c : pcall) (s : plugin) : plugin :=
  mkPlugin (configs s) (instances s) (made s) (calls s ++ [c]).

(** *** lb_policy.go

    [ptr] is the handle a creating callback records; [None] is a nil result. *)

(** [on_lb_config_new]: a factory for the name, whose [Create] succeeded, or not. *)
Definition on_lb_config_new (factory : option bool) (ptr : Z) (s : plugin) : option Z * plugin :=
  match factory with
  | None => (None, s)
  | Some false => (None, s)
  | Some true => (Some ptr, mkPlugin (<[ptr := made s]> (configs s)) (instances s) (S (made s)) (calls s))
  end.

Definition on_lb_config_destroy (ptr : Z) (s : plugin) : plugin :=
  match configs s !! ptr with
  | None => s
  | Some o =>
      let s := call_ (ConfigClose o) s in
      mkPlugin (delete ptr (configs s)) (instances s) (made s) (calls s)
  end.

(** [on_lb_new]: [created] says whether [NewLBPolicy] returned a policy. *)
Definition on_lb_new (config : Z) (created : bool) (ptr : Z) (s : plugin) : option Z * plugin :=
  match configs s !! config with
  | None => (None, s)
  | Some c =>
      let o := made s in
      let s := call_ (NewInstance c o) s in
      if created
      then (Some ptr, mkPlugin (configs s) (<[ptr := o]> (instances s)) (S (made s)) (calls s))
      else (None, mkPlugin (configs s) (instances s) (S (made s)) (calls s))
  end.

Definition on_lb_destroy (ptr : Z) (s : plugin) : plugin :=
  match instances s !! ptr with
  | None => s
  | Some o =>
      let s := call_ (InstanceClose o) s in
      mkPlugin (configs s) (delete ptr (instances s)) (made s) (calls s)
  end.

(** [on_lb_choose_host]: [answer] is what the policy's [ChooseHost] returns and writes; the
    output parameters keep their values unless it returned true. *)
Definition on_lb_choose_host (ptr : Z) (answer : bool * Z * Z) (out : Z * Z) (s : plugin) :
    bool * (Z * Z) * plugin :=
  match instances s !! ptr with
  | None => (false, out, s)
  | Some o =>
      let s := call_ (Use o 0) s in
      let '(ok, priority, index) := answer in
      (ok, if ok then (priority, index) else out, s)
  end.

Definition on_lb_on_host_membership_update (ptr : Z) (s : plugin) : plugin :=
  match instances s !! ptr with
  | None => s
  | Some o => call_ (Use o 1) s
  end.

(** *** access_logger.go *)

Definition on_access_logger_config_new (factory : option bool) (ptr : Z) (s : plugin) :
    option Z * plugin :=
  match factory with
  | None => (None, s)
  | Some false => (None, s)
  | Some true => (Some ptr, mkPlugin (<[ptr := made s]> (configs s)) (instances s) (S (made s)) (calls s))
  end.

Definition on_access_logger_config_destroy (ptr : Z) (s : plugin) : plugin :=
  match configs s !! ptr with
  | None => s
  | Some o =>
      let s := call_ (ConfigClose o) s in
      mkPlugin (delete ptr (configs s)) (instances s) (made s) (calls s)
  end.

Definition on_access_logger_new (config : Z) (created : bool) (ptr : Z) (s : plugin) :
    option Z * plugin :=
  match configs s !! config with
  | None => (None, s)
  | Some c =>
      let o := made s in
      let s := call_ (NewInstance c o) s in
      if created
      then (Some ptr, mkPlugin (configs s) (<[ptr := o]> (instances s)) (S (made s)) (calls s))
      else (None, mkPlugin (configs s) (instances s) (S (made s)) (calls s))
  end.

Definition on_access_logger_log (ptr logType : Z) (s : plugin) : plugin :=
  match instances s !! ptr with
  | None => s
  | Some o => call_ (Use o logType) s
  end.

Definition on_access_logger_destroy (ptr : Z) (s : plugin) : plugin :=
  match instances s !! ptr with
  | None => s
  | Some o =>
      let s := call_ (InstanceClose o) s in
      mkPlugin (configs s) (delete ptr (instances s)) (made s) (calls s)
  end.

(** [on_access_logger_flush]: [flusher] says whether the logger has a [Flush] method. *)
Definition on_access_logger_flush (ptr : Z) (flusher : bool) (s : plugin) : plugin :=
  match instances s !! ptr with
  | None => s
  | Some o => if flusher then call_ (Use o (-1)) s else s
  end.

(** ** Executions *)

(** One callback: Envoy may use any handle, stale ones included; a handle that is recorded
    is an address not in use. *)
Inductive pstep : plugin -> plugin -> Prop :=
  | p_lb_config_new f ptr s : configs s !! ptr = None -> pstep s (on_lb_config_new f ptr s).2
  | p_lb_config_destroy ptr s : pstep s (on_lb_config_destroy ptr s)
  | p_lb_new c created ptr s : instances s !! ptr = None -> pstep s (on_lb_new c created ptr s).2
  | p_lb_destroy ptr s : pstep s (on_lb_destroy ptr s)
  | p_lb_choose ptr a out s : pstep s (on_lb_choose_host ptr a out s).2
  | p_lb_update ptr s : pstep s (on_lb_on_host_membership_update ptr s)
  | p_al_config_new f ptr s : configs s !! ptr = None ->
      pstep s (on_access_logger_config_new f ptr s).2
  | p_al_config_destroy ptr s : pstep s (on_access_logger_config_destroy ptr s)
  | p_al_new c created ptr s : instances s !! ptr = None ->
      pstep s (on_access_logger_new c created ptr s).2
  | p_al_destroy ptr s : pstep s (on_access_logger_destroy ptr s)
  | p_al_log ptr t s : pstep s (on_access_logger_log ptr t s)
  | p_al_flush ptr fl s : pstep s (on_access_logger_flush ptr fl s).

(** The object a call reaches, the object it closes. *)
Definition receiver (c : pcall) : obj :=
  match c with ConfigClose o => o | NewInstance c _ => c | InstanceClose o => o | Use o _ => o end.
Definition closes (c : pcall) : option obj :=
  match c with ConfigClose o | InstanceClose o => Some o | _ => None end.

(** No call reaches an object that an earlier call closed. *)
Definition orderly (tr : list pcall) : Prop :=
  forall l1 c l2, tr = l1 ++ c :: l2 -> forall c', c' ∈ l1 -> closes c' <> Some (receiver c).

Definition open_ (s : plugin) (o : obj) : Prop := forall c, c ∈ calls s -> closes c <> Some o.

(** The calls are orderly; what the tables hold was made, is open and is held once. *)
Record plugin_ok (s : plugin) : Prop := {
  ok_calls : orderly (calls s);
  ok_closed : forall c o, c ∈ calls s -> closes c = Some o -> o < made s;
  ok_configs : forall p o, configs s !! p = Some o -> o < made s /\ open_ s o;
  ok_instances : forall p o, instances s !! p = Some o -> o < made s /\ open_ s o;
  ok_inj_c : forall p q o, configs s !! p = Some o -> configs s !! q = Some o -> p = q;
  ok_inj_i : forall p q o, instances s !! p = Some o -> instances s !! q = Some o -> p = q;
  ok_apart : forall p q o, configs s !! p = Some o -> instances s !! q = Some o -> False;
}.

Lemma plugin_start_ok : plugin_ok plugin_start.
Proof.
  split; cbn; [| |by intros ??|by intros ??|by intros ???|by intros ???|by intros ???].
  - intros l1 c l2 Heq. by destruct l1.
  - by intros c o ?%not_elem_of_nil.
Qed.

Lemma plugin_orderly_snoc tr c :
  orderly tr -> (forall c', c' ∈ tr -> closes c' <> Some (receiver c)) -> orderly (tr ++ [c]).
Proof.
  intros Ho Hc l1 x l2 Heq c' Hin.
  destruct l2 as [|y l2 _] using rev_ind.
  - apply app_inj_tail in Heq as [-> ->]. by apply Hc.
  - rewrite app_comm_cons, app_assoc in Heq. apply app_inj_tail in Heq as [-> ->].
    by eapply Ho.
Qed.

(** A call on an open object. *)
Lemma use_ok c s :
  plugin_ok s -> open_ s (receiver c) -> closes c = None -> plugin_ok (call_ c s).
Proof.
  intros [H1 H2 H3 H4 H5 H6 H7] Ho Hc.
  assert (Hopen : forall o, open_ s o -> open_ (call_ c s) o).
  { intros o Hop c' [Hin|Hin%list_elem_of_singleton]%elem_of_app; [by apply Hop|].
    subst. by rewrite Hc. }
  split; cbn; try done.
  - by apply plugin_orderly_snoc.
  - intros c' o [Hin|Hin%list_elem_of_singleton]%elem_of_app Hcl; [by eapply H2|].
    subst. congruence.
  - intros p o Hp. destruct (H3 _ _ Hp). by split; [|apply Hopen].
  - intros p o Hp. destruct (H4 _ _ Hp). by split; [|apply Hopen].
Qed.

(** Closing an open object that the remaining handles no longer reach. *)
Lemma plugin_close_ok c o cs is' s :
  plugin_ok s -> closes c = Some o -> receiver c = o -> o < made s -> open_ s o ->
  (forall p o', cs !! p = Some o' -> configs s !! p = Some o' /\ o' <> o) ->
  (forall p o', is' !! p = Some o' -> instances s !! p = Some o' /\ o' <> o) ->
  plugin_ok (mkPlugin cs is' (made s) (calls s ++ [c])).
Proof.
  intros [H1 H2 H3 H4 H5 H6 H7] Hc Hr Hlt Ho Hcs His.
  assert (Hopen : forall o', o' <> o -> open_ s o' ->
    forall c', c' ∈ calls s ++ [c] -> closes c' <> Some o').
  { intros o' Hne Hop c' [Hin|Hin%list_elem_of_singleton]%elem_of_app; [by apply Hop|].
    subst c'. rewrite Hc. congruence. }
  split; cbn.
  - apply plugin_orderly_snoc; [done|]. by rewrite Hr.
  - intros c' o' [Hin|Hin%list_elem_of_singleton]%elem_of_app Hx; [by eapply H2|].
    subst c'. congruence.
  - intros p o' [Hp Hne]%Hcs. destruct (H3 _ _ Hp) as [Hl Ho']. split; [done|]. exact (Hopen o' Hne Ho').
  - intros p o' [Hp Hne]%His. destruct (H4 _ _ Hp) as [Hl Ho']. split; [done|]. exact (Hopen o' Hne Ho').
  - intros p q o' [Hp _]%Hcs [Hq _]%Hcs. by eapply H5.
  - intros p q o' [Hp _]%His [Hq _]%His. by eapply H6.
  - intros p q o' [Hp _]%Hcs [Hq _]%His. by eapply H7.
Qed.

Lemma config_destroy_ok ptr s : plugin_ok s -> plugin_ok (on_lb_config_destroy ptr s).
Proof.
  intros Hok. unfold on_lb_config_destroy. destruct (configs s !! ptr) as [o|] eqn:E; [|done].
  destruct (ok_configs _ Hok _ _ E) as [? ?]. apply (plugin_close_ok (ConfigClose o) o (delete ptr (configs s)) (instances s) s); try done.
  - intros p o' [Hne Hp]%lookup_delete_Some. split; [done|]. intros ->.
    by destruct Hne; eapply (ok_inj_c _ Hok).
  - intros p o' Hp. split; [done|]. intros ->. by eapply (ok_apart _ Hok).
Qed.

Lemma instance_destroy_ok ptr s : plugin_ok s -> plugin_ok (on_lb_destroy ptr s).
Proof.
  intros Hok. unfold on_lb_destroy. destruct (instances s !! ptr) as [o|] eqn:E; [|done].
  destruct (ok_instances _ Hok _ _ E) as [? ?]. apply (plugin_close_ok (InstanceClose o) o (configs s) (delete ptr (instances s)) s); try done.
  - intros p o' Hp. split; [done|]. intros ->. by eapply (ok_apart _ Hok).
  - intros p o' [Hne Hp]%lookup_delete_Some. split; [done|]. intros ->.
    by destruct Hne; eapply (ok_inj_i _ Hok).
Qed.

(** Recording a new object, as a configuration, as an instance, or not at all. *)
Lemma made_ok s n : plugin_ok s -> n = S (made s) ->
  plugin_ok (mkPlugin (configs s) (instances s) n (calls s)).
Proof.
  intros [H1 H2 H3 H4 H5 H6 H7] ->. split; cbn; try done.
  - intros c o Hin Hc. specialize (H2 _ _ Hin Hc). lia.
  - intros p o Hp. destruct (H3 _ _ Hp). split; [lia|done].
  - intros p o Hp. destruct (H4 _ _ Hp). split; [lia|done].
Qed.

Lemma fresh_open s : plugin_ok s -> open_ s (made s).
Proof. intros Hok c Hin Hc. pose proof (ok_closed _ Hok _ _ Hin Hc). lia. Qed.

Lemma add_ok (config : bool) ptr s :
  plugin_ok s -> (if config then configs s else instances s) !! ptr = None ->
  plugin_ok (if config
             then mkPlugin (<[ptr := made s]> (configs s)) (instances s) (S (made s)) (calls s)
             else mkPlugin (configs s) (<[ptr := made s]> (instances s)) (S (made s)) (calls s)).
Proof.
  intros Hok Hnew. pose proof (fresh_open s Hok) as Hfo.
  assert (Hnc : forall p, configs s !! p <> Some (made s))
    by (intros p Hp; apply (ok_configs _ Hok) in Hp as [? _]; lia).
  assert (Hni : forall p, instances s !! p <> Some (made s))
    by (intros p Hp; apply (ok_instances _ Hok) in Hp as [? _]; lia).
  destruct (made_ok s _ Hok eq_refl) as [H1 H2 H3 H4 H5 H6 H7]. cbn in *.
  destruct config; split; cbn; try done.
  - intros p o [[<- <-]|[_ Hp]]%lookup_insert_Some; [split; [lia|done]|by eapply H3].
  - intros p q o [[<- <-]|[? Hp]]%lookup_insert_Some [[<- Hq]|[? Hq]]%lookup_insert_Some;
      subst; [done|by apply Hnc in Hq|by apply Hnc in Hp|by eapply H5].
  - intros p q o [[<- <-]|[? Hp]]%lookup_insert_Some Hq; [by apply Hni in Hq|by eapply H7].
  - intros p o [[<- <-]|[_ Hp]]%lookup_insert_Some; [split; [lia|done]|by eapply H4].
  - intros p q o [[<- <-]|[? Hp]]%lookup_insert_Some [[<- Hq]|[? Hq]]%lookup_insert_Some;
      subst; [done|by apply Hni in Hq|by apply Hni in Hp|by eapply H6].
  - intros p q o Hp [[<- <-]|[? Hq]]%lookup_insert_Some; [by apply Hnc in Hp|by eapply H7].
Qed.

Lemma instance_new_ok c created ptr s :
  plugin_ok s -> instances s !! ptr = None -> plugin_ok (on_lb_new c created ptr s).2.
Proof.
  intros Hok Hnew. unfold on_lb_new. destruct (configs s !! c) as [o|] eqn:E; [|done].
  destruct (ok_configs _ Hok _ _ E) as [_ Ho].
  assert (Hcall : plugin_ok (call_ (NewInstance o (made s)) s)) by by apply use_ok.
  destruct created.
  - exact (add_ok false ptr _ Hcall Hnew).
  - exact (made_ok _ _ Hcall eq_refl).
Qed.

Lemma use_instance_ok ptr what s :
  plugin_ok s ->
  plugin_ok (match instances s !! ptr with None => s | Some o => call_ (Use o what) s end).
Proof.
  intros Hok. destruct (instances s !! ptr) as [o|] eqn:E; [|done].
  apply use_ok; [done| |done]. by apply (ok_instances _ Hok _ _ E).
Qed.

Lemma config_new_ok f ptr s :
  plugin_ok s -> configs s !! ptr = None -> plugin_ok (on_lb_config_new f ptr s).2.
Proof.
  intros Hok Hnew. destruct f as [[|]|]; [|done..]. exact (add_ok true ptr s Hok Hnew).
Qed.

Lemma plugin_step_ok s s' : pstep s s' -> plugin_ok s -> plugin_ok s'.
Proof.
  destruct 1; intros Hok;
    try (by apply config_new_ok); try (by apply config_destroy_ok);
    try (by apply instance_new_ok); try (by apply instance_destroy_ok);
    try (exact (use_instance_ok _ _ _ Hok)).
  - pose proof (use_instance_ok ptr 0 s Hok) as Hu. unfold on_lb_choose_host.
    destruct (instances s !! ptr); [|done]. by destruct a as [[[] ?] ?].
  - pose proof (use_instance_ok ptr (-1) s Hok) as Hu. unfold on_access_logger_flush.
    destruct (instances s !! ptr); [|done]. by destruct fl.
Qed.

(** ** Theorems *)

(** The load-balancing-policy and access-logger ABI never call an object after its
    close.  In every sequence of callbacks, with stale and unknown handles among them, no
    configuration, policy or logger is called, used to create another or closed again after
    it was closed, and what a handle reaches is open. *)
Theorem plugin_no_call_after_close s :
  rtc pstep plugin_start s ->
  orderly (calls s) /\
  forall p o, configs s !! p = Some o \/ instances s !! p = Some o -> open_ s o.
Proof.
  intros Hr. assert (Hok : plugin_ok s).
  { pose proof plugin_start_ok as H0. revert H0. induction Hr; eauto using plugin_step_ok. }
  split; [apply Hok|]. intros p o [H|H].
  - by apply (ok_configs _ Hok _ _ H).
  - by apply (ok_instances _ Hok _ _ H).
Qed.

Lemma plugin_no_call_after_close_witness :
  let s := on_access_logger_log 8 0 (on_access_logger_destroy 8
             (on_access_logger_log 8 0 (on_access_logger_new 4 true 8
                (on_access_logger_config_new (Some true) 4 plugin_start).2).2)) in
  calls s = [NewInstance 0 1; Use 1 0; InstanceClose 1] /\
  orderly (calls s) /\
  forall p o, configs s !! p = Some o \/ instances s !! p = Some o -> open_ s o.
Proof.
  intros s. split; [reflexivity|]. apply (plugin_no_call_after_close s).
  eapply rtc_l; [apply (p_al_config_new (Some true) 4); reflexivity|].
  eapply rtc_l; [apply (p_al_new 4 true 8); reflexivity|].
  eapply rtc_l; [apply (p_al_log 8 0)|].
  eapply rtc_l; [apply (p_al_destroy 8)|].
  eapply rtc_l; [apply (p_al_log 8 0)|]. apply rtc_refl.
Defined.

(** ** Loggers of package [up] behind the ABI *)

(** A user's [up.AccessLogger]: nil, or a logger with or without a [Flush] method. *)
Abbreviation up_logger := (option bool).

(** A [down.AccessLogger] value: nil, a logger registered with package [down] directly, or
    the adapter of up/access_logger.go around a user's logger. *)
Inductive down_logger := DNil | DDirect (flush : bool) | DAdapter (l : up_logger).

(** [accessLoggerFactoryAdapter.NewLogger] wraps whatever the user's factory returns. *)
Definition accessLoggerFactoryAdapter_NewLogger (l : up_logger) : down_logger := DAdapter l.

(** The test [logger == nil] of [on_access_logger_new]. *)
Definition logger_is_nil (d : down_logger) : bool :=
  match d with DNil => true | _ => false end.

(** The type assertion of [on_access_logger_flush]: the adapter has no [Flush] method. *)
Definition logger_has_flush (d : down_logger) : bool :=
  match d with DDirect b => b | _ => false end.

(** [OnLog] and [OnDestroy] call through; a nil interface panics. *)
Definition accessLoggerAdapter_OnLog (d : down_logger) : res unit :=
  match d with
  | DNil => Panic "nil pointer dereference"
  | DAdapter None => Panic "nil pointer dereference"
  | _ => Ok tt
  end.

(** The check for a nil logger does not see a nil logger of package [up]: the instance is
    recorded and its first log panics. *)
Lemma nil_logger_is_recorded ptr s c o :
  configs s !! c = Some o ->
  let d := accessLoggerFactoryAdapter_NewLogger None in
  (on_access_logger_new c (negb (logger_is_nil d)) ptr s).1 = Some ptr /\
  accessLoggerAdapter_OnLog d = Panic "nil pointer dereference".
Proof. intros Hc. unfold on_access_logger_new. by rewrite Hc. Qed.

(** A [Flush] method of a logger of package [up] is never called. *)
Lemma user_flush_is_never_called l ptr s :
  on_access_logger_flush ptr (logger_has_flush (accessLoggerFactoryAdapter_NewLogger l)) s = s.
Proof. unfold on_access_logger_flush. by destruct (instances s !! ptr). Qed.

(** ** Getters with a conversion *)

(** [GetUpstreamRequestAttemptCount]: [answer] is the attribute, a [uint64], if present. *)
Definition GetUpstreamRequestAttemptCount (answer : option Z) : Z :=
  match answer with
  | None => 1
  | Some v => if decide (v = 0%Z) then 1 else uint32_of v
  end.

(** At least one attempt is reported for every count that fits 32 bits. *)
Lemma attempt_count_bounds answer :
  (forall v, answer = Some v -> (0 <= v < 2 ^ 32)%Z) ->
  (1 <= GetUpstreamRequestAttemptCount answer < 2 ^ 32)%Z.
Proof.
  intros H. unfold GetUpstreamRequestAttemptCount. destruct answer as [v|]; [|lia].
  specialize (H v eq_refl). case_decide; [lia|]. unfold uint32_of.
  rewrite Z.mod_small by lia. lia.
Qed.

(** [GetAttributeInt]: the conversion of a [uint64] to [int64]. *)
Definition GetAttributeInt (answer : option Z) : Z * bool :=
  match answer with
  | None => (0%Z, false)
  | Some v => ((if (v <? 2 ^ 63)%Z then v else v - 2 ^ 64)%Z, true)
  end.

(** [dymLBContext.GetAllHeaders]: [size] is the number announced, [answer] what the second
    call fills in. *)
Definition GetAllHeaders (size : Z) (answer : option (list (string * string))) :
    list (string * string) :=
  if decide (size = 0%Z) then [] else default [] answer.

(** [dymLBContext.GetOverrideHost]: the address and whether it is strict. *)
Definition GetOverrideHost (answer : option (string * bool)) : string * bool :=
  default ("", false) answer.
