(* ===== verification/StreamKeys.v ===== *)
(** * up/stream_key.go and dymClusterLBContext.GetStreamObject: objects that cross from the
    filter to the load balancer

    A [StreamKey] is a typed name of a slot of the stream's bag.  The filter stores through
    its [Writer] (Filter.v); the cluster reads through the load balancer's context, which
    knows the stream only by the nonce Envoy's filter state holds.  The theorem is about the
    two together: what a handler set is what the load balancer of the stream finds once the
    request has been let go. *)
From stdpp Require Import base list gmap strings pretty.
From Stdlib Require Import ZArith Lia.
From S2P Require Import Prelude Async StreamObject Envoy Grpc FilterState Filter FilterFacts FlushProps StreamProps.

(** ** Typed keys *)

(** A Go type as the interface conversion sees it: a value boxed into an [any] and the
    type assertion [raw.(T)]. *)
Class GoType (T : Type) := {
  to_any : T -> any;
  assert_to : any -> option T;
}.

(** The assertion succeeds on the values of the type (true of every type that is not an
    interface: a nil interface value boxes to a nil [any], which no assertion accepts). *)
Class Asserts (T : Type) `{GoType T} : Prop :=
  assert_boxed : forall v : T, assert_to (to_any v) = Some v.

#[export] Instance string_type : GoType string :=
  { to_any := VString; assert_to raw := match raw with VString s => Some s | _ => None end }.

#[export] Instance string_asserts : Asserts string.
Proof. by intros v. Qed.

Record StreamKey := NewStreamKey { Key : string }.

(** [raw, ok := ...; v, ok := raw.(T)], the common tail of [Get] and [GetFromCtx]. *)
Definition typed {T} `{GoType T} (raw : option any) : option T := raw ≫= assert_to.

Definition StreamKey_Set (E : Envoy) {T} `{GoType T} (k : StreamKey) (w : nat) (v : T) (s : st) : res st :=
  SetStreamObject E w (Key k) (to_any v) s.

Definition StreamKey_Get (E : Envoy) {T} `{GoType T} (k : StreamKey) (s : st) : option T * st :=
  let '(raw, s) := GetStreamObject E (Key k) s in (typed raw, s).

(** ** The load balancer's context *)

(** [dymClusterLBContext]: [lb_filter_state] is Envoy's answer to [GetFilterState]. *)
Record LBContext := mkLBContext { lb_filter_state : string -> option string }.

Definition lb_GetStreamObject (ctx : LBContext) (key : string) (g : bag_registry) : option any :=
  match lb_filter_state ctx StreamObjectIDKey with
  | None => None
  | Some nonce =>
      if decide (nonce = "") then None
      else match LookupStreamObjectBag nonce g with
           | None => None
           | Some bag => bag_Get bag key g
           end
  end.

Definition GetFromCtx {T} `{GoType T} (k : StreamKey) (ctx : LBContext) (g : bag_registry) : option T :=
  typed (lb_GetStreamObject ctx (Key k) g).

(** The context Envoy hands the load balancer for a stream: the filter state is the one the
    calls made so far have left. *)
Definition lbContext (E : Envoy) (s : st) : LBContext := mkLBContext (ev_filter_state E (s_tr s)).

(** ** Envoy's filter state *)

(** A write replaces the value of its key; other keys and other calls leave it alone. *)
Class FilterStateLaws (E : Envoy) : Prop := {
  fs_set : forall tr k v k',
    ev_filter_state E (tr ++ [CSetFilterState k v]) k' =
    if decide (k = k') then Some (String.string_of_list_byte v) else ev_filter_state E tr k';
  fs_other : forall tr c k, kind_of c <> Some KFilterState ->
    ev_filter_state E (tr ++ [c]) k = ev_filter_state E tr k;
}.

(** ** The handoff *)

Section handoff.
Context (E : Envoy) `{!FilterStateLaws E}.
Context {T : Type} `{!GoType T, !Asserts T}.

(** Only the filter-state writes of a list of calls matter to the filter state. *)
Lemma fs_of_kind tr l k :
  ev_filter_state E (tr ++ l) k = ev_filter_state E (tr ++ of_kind KFilterState l) k.
Proof.
  induction l as [|c l IH] using rev_ind; [done|].
  unfold of_kind in *. rewrite filter_app, filter_cons, filter_nil, !app_assoc.
  destruct (decide (kind_of c = Some KFilterState)) as [Hc|Hc].
  - destruct c; try done. rewrite !fs_set. by case_decide.
  - by rewrite app_nil_r, fs_other.
Qed.

(** What Envoy's filter state will be once the queued writes are applied. *)
Definition pending_state (s : st) (k : string) : option string :=
  ev_filter_state E (s_tr s ++ queue_of KFilterState (qs (s_f s))) k.

(** No queued write touches the reserved key. *)
Definition unreserved (s : st) : Prop :=
  Forall (fun m => fs_key m <> StreamObjectIDKey) (q_filterState (qs (s_f s))).

(** The stream's hold on its bag: either it has none and has not queued a nonce, or the bag
    is registered under the nonce Envoy has been told, or will be told by the next flush. *)
Definition bag_held (s : st) : Prop :=
  if decide (streamObjectNonce (s_f s) = "") then unreserved s
  else pending_state s StreamObjectIDKey = Some (streamObjectNonce (s_f s)) /\
       is_Some (LookupStreamObjectBag (streamObjectNonce (s_f s)) (p_bags (s_proc s))).

Lemma queue_calls_state q strip : of_kind KFilterState (queue_calls q strip) = queue_of KFilterState q.
Proof.
  rewrite <-pending_spec. destruct strip; [|done]. unfold queue_calls. by rewrite !of_kind_app.
Qed.

(** A flush applies the queued writes and no other. *)
Lemma flush_state c s k :
  localReply (s_f s) = None -> ev_filter_state E (s_tr (flush E c s)) k = pending_state s k.
Proof.
  intros H. rewrite flush_trace, fs_of_kind, !of_kind_app, queue_calls_state by done.
  unfold pending_state. do 2 f_equal. rewrite <-(app_nil_r (queue_of _ _)) at 2. f_equal.
  replace (of_kind KFilterState (if c then [CContinueRequest] else [])) with (@nil call)
    by by destruct c.
  rewrite app_nil_r. destruct (hasRequestBodyReplacement _); [|done].
  unfold replacement_calls. by destruct (requestBodyReplacementBuffer _ _ _).
Qed.

(** Writes of other keys leave a key's value alone. *)
Lemma fs_unreserved tr l k :
  Forall (fun m => fs_key m <> k) l ->
  ev_filter_state E (tr ++ ((fun m => CSetFilterState (fs_key m) (fs_value m)) <$> l)) k =
  ev_filter_state E tr k.
Proof.
  induction l as [|m l IH] using rev_ind; intros Hl; [by rewrite app_nil_r|].
  apply Forall_app in Hl as [Hl [Hm _]%Forall_cons].
  rewrite fmap_app, app_assoc. simpl. rewrite fs_set, decide_False by done. auto.
Qed.

Lemma SetFilterState_pending w v s :
  unreserved s -> pending_state (SetFilterState w StreamObjectIDKey v s) StreamObjectIDKey = Some v.
Proof.
  unfold SetFilterState, pending_state, unreserved. intros Hu. destruct (queued w s); simpl.
  - rewrite fmap_app, app_assoc. simpl. rewrite fs_set, decide_True by done.
    by rewrite String.string_of_list_byte_of_string.
  - rewrite fs_unreserved, fs_set, decide_True by done. by rewrite String.string_of_list_byte_of_string.
Qed.

Lemma mint_bag_same n s b k s' : mint_bag E n s = Some (b, k, s') -> s_f s' = s_f s /\ s_tr s' = s_tr s.
Proof.
  revert s. induction n as [|n IH]; intros s; simpl; [done|].
  destruct (InsertStreamObjectBag _ _) as [[b1 l] g]. destruct l.
  - intros H. by apply IH in H.
  - by intros [= -> <- <-].
Qed.

Lemma getOrCreateBag_reply w s b s' :
  getOrCreateBag E w s = Ok (b, s') -> localReply (s_f s') = localReply (s_f s).
Proof.
  unfold getOrCreateBag. case_match; [by intros [= <- <-]|].
  destruct (mint_bag E _ s) as [[[b1 k] s1]|] eqn:Hm; [|done].
  apply mint_bag_same in Hm as [Hf Ht]. intros [= <- <-].
  unfold SetFilterState. destruct (queued w _); simpl; by rewrite Hf.
Qed.

Lemma flush_proc c s : s_proc (flush E c s) = s_proc s.
Proof.
  unfold flush. case_match; [done|].
  destruct (hasRequestBodyReplacement _); [|by destruct c].
  destruct (requestBodyReplacementBuffer _ _ _); by destruct c.
Qed.

(** [getOrCreateBag] returns the bag the stream holds from then on. *)
Lemma getOrCreateBag_held w s b s' :
  bag_held s -> bag_ready s s' b -> getOrCreateBag E w s = Ok (b, s') -> bag_held s'.
Proof.
  unfold bag_held, getOrCreateBag. intros Hh (_ & Hl & _) H.
  assert (streamObjectNonce (s_f s') <> "") as Hn.
  { intros Hn. unfold LookupStreamObjectBag in Hl. by rewrite Hn in Hl. }
  destruct (decide (streamObjectNonce (s_f s) = "")) as [He|He].
  - rewrite decide_False by done. split; [|by eexists].
    destruct (mint_bag E _ s) as [[[b1 k] s1]|] eqn:Hm; [|done].
    apply mint_bag_same in Hm as [Hf Ht]. simplify_eq/=.
    rewrite SetFilterState_pending by (unfold unreserved in *; simpl; by rewrite Hf).
    f_equal. unfold SetFilterState. by destruct (queued w _).
  - destruct Hh as [Hp [b1 Hb]]. rewrite Hb in H. simplify_eq/=.
    rewrite decide_False by done. split; [done|by eexists].
Qed.

(** C27: what a handler stores under a typed key reaches the load balancer of its stream.
    Setting a key always returns (with a random source that does not repeat itself), the
    stream keeps hold of its bag, and once the queued mutations are flushed a load balancer
    that is given the stream's context reads the value back at the key's type. *)
Theorem stream_object_reaches_lb (K : StreamKey) w (v : T) c s :
  Inj (=) (=) (ev_nonce E) -> (forall i, ev_nonce E i <> "") -> reg_ok (p_bags (s_proc s)) ->
  bag_held s -> localReply (s_f s) = None ->
  exists s', StreamKey_Set E K w v s = Ok s' /\ bag_held s' /\
    GetFromCtx K (lbContext E (flush E c s')) (p_bags (s_proc (flush E c s'))) = Some v.
Proof.
  intros Hinj Hne Hok Hh Hlr. destruct (getOrCreateBag_spec E w s Hinj Hne Hok) as (b & s1 & Hb & Hr).
  pose proof (getOrCreateBag_held _ _ _ _ Hh Hr Hb) as Hh1.
  unfold StreamKey_Set, SetStreamObject. rewrite Hb. simpl. eexists. split; [done|].
  destruct Hr as (Hok1 & Hl & _). unfold bag_held in *. simpl.
  assert (streamObjectNonce (s_f s1) <> "") as Hn.
  { intros Hn. unfold LookupStreamObjectBag in Hl. by rewrite Hn in Hl. }
  rewrite decide_False in Hh1 |- * by done. split; [exact Hh1|]. destruct Hh1 as [Hp _].
  assert (localReply (s_f s1) = None) as Hlr1 by by rewrite (getOrCreateBag_reply _ _ _ _ Hb).
  unfold GetFromCtx, lb_GetStreamObject, lbContext. simpl. rewrite flush_state by done.
  change (pending_state _ StreamObjectIDKey) with (pending_state s1 StreamObjectIDKey).
  rewrite Hp, decide_False, flush_proc by done. simpl.
  change (LookupStreamObjectBag _ (bag_Set b ?k ?v ?g)) with (LookupStreamObjectBag (streamObjectNonce (s_f s1)) g).
  rewrite Hl, bag_Get_Set_same; [simpl; apply assert_boxed|].
  unfold LookupStreamObjectBag in Hl. rewrite decide_False in Hl by done. by eapply reg_alloc.
Qed.
End handoff.

(** ** Two filters on one stream *)

(** The state in which the next filter of the stream starts: its own [filter] struct, the
    stream's calls so far and the process. *)
Definition next_filter (c : filterConfig) (s : st) : st :=
  mkSt (s_id s) (newFilter c) [] (s_tr s) (s_proc s) [] [] [] [].

(** Envoy with a filter state that interprets the writes made to it. *)
Definition state_of (tr : list call) (k : string) : option string :=
  foldl (fun r c => match c with
                    | CSetFilterState k' v => if decide (k' = k) then Some (String.string_of_list_byte v) else r
                    | _ => r
                    end) None tr.

Definition stateEnvoy : Envoy :=
  mkEnvoy (fun _ => []) (fun _ _ => "") (fun _ _ => "") state_of (fun _ => None) (fun _ _ => None)
    (fun _ _ _ => true) (fun _ _ => (0%Z, None)) (fun _ _ => (0%Z, [])) (fun n => "n" +:+ pretty n)
    (fun _ _ => false) 100.

#[export] Instance stateEnvoy_laws : FilterStateLaws stateEnvoy.
Proof.
  split; intros; simpl; unfold state_of; rewrite foldl_app; simpl; [done|by destruct c].
Qed.

#[export] Instance stateEnvoy_nonce_inj : Inj (=) (=) (ev_nonce stateEnvoy).
Proof. intros n m H. simpl in H. injection H as H. by apply (inj pretty). Qed.

Definition decision : StreamKey := NewStreamKey "orange.decision".

Definition a_filter : filterConfig := onlyRequest (fun _ => PRet).

Lemma stream_object_reaches_lb_witness :
  let s := (newWriter (mkWriter false false false) (newStream a_filter)).2 in
  exists s', StreamKey_Set stateEnvoy decision 0 "allow" s = Ok s' /\
    GetFromCtx decision (lbContext stateEnvoy (flush stateEnvoy true s'))
      (p_bags (s_proc (flush stateEnvoy true s'))) = Some "allow".
Proof.
  intros s. destruct (stream_object_reaches_lb stateEnvoy decision 0 "allow" true s)
    as (s' & H1 & _ & H2).
  - apply _.
  - done.
  - apply reg_empty_ok.
  - by constructor.
  - reflexivity.
  - exists s'. split; [exact H1|exact H2].
Defined.

(** A second filter of the stream that sets an object without having read one mints a nonce
    of its own over the first: the load balancer then finds no value of the first filter. *)
Lemma second_filter_hides_objects :
  let E := stateEnvoy in
  let w0 := newWriter (mkWriter false false false) in
  (s1 ← StreamKey_Set E decision 0 "allow" (w0 (newStream a_filter)).2;
   let s1 := flush E true s1 in
   s2 ← StreamKey_Set E (NewStreamKey "mcp.session") 0 "m" (w0 (next_filter a_filter s1)).2;
   let s2 := flush E true s2 in
   Ok (GetFromCtx decision (lbContext E s1) (p_bags (s_proc s1)),
       GetFromCtx decision (lbContext E s2) (p_bags (s_proc s2)))) = Ok (Some "allow", None : option string).
Proof. vm_compute. reflexivity. Qed.
