(* ===== verification/ExchangeHooks.v ===== *)
(** * up/exchange_hooks.go: the exchange observer

    [WithExchangeObserver] keeps the accumulator of every stream in a slot taken from a
    [sync.Pool] shared by all streams, with the slot's address in the stream's context.  The
    model has the heap of slots, the pool and the contexts; the theorem is that no stream
    ever sees the slot of another, so that the whole is a map from streams to accumulators. *)
From stdpp Require Import base list gmap strings.
From Stdlib Require Import ZArith Lia.
From S2P Require Import Prelude Async.

(** [TruncateBody(data, max)]: a negative [max] slices out of range. *)
Definition TruncateBody {A} (data : list A) (max : Z) : res (list A) :=
  if (max <? Z.of_nat (length data))%Z then
    if (max <? 0)%Z then Panic "slice bounds out of range" else Ok (take (Z.to_nat max) data)
  else Ok data.

Lemma TruncateBody_spec {A} (data : list A) (max : Z) :
  (0 <= max)%Z ->
  exists d, TruncateBody data max = Ok d /\ d `prefix_of` data /\
    Z.of_nat (length d) = Z.min max (Z.of_nat (length data)).
Proof.
  intros H. unfold TruncateBody. destruct (Z.ltb_spec max (Z.of_nat (length data))).
  - destruct (Z.ltb_spec max 0); [lia|]. eexists. split_and!; [done| |rewrite length_take; lia].
    by exists (drop (Z.to_nat max) data); rewrite take_drop.
  - exists data. split_and!; [done|done|lia].
Qed.

Section observer.
(** The accumulator with its zero value, requests, response chunks and finalization data. *)
Context {T R C I : Type} (zero : T).

(** [ExchangeHooks[T]]: what [OnRequest] returns, and which optional callbacks are set. *)
Record ExchangeHooks := mkHooks {
  OnRequest : R -> T;
  has_OnResponse : bool;
  has_OnFinalized : bool;
}.
Context (hooks : ExchangeHooks).

(** What a stream's [*any] holds: nil, a [*T] (possibly nil), a value of another type. *)
Inductive ctxval :=
  | CtxNil
  | CtxSlot (slot : option nat)
  | CtxOther.

(** The invocations of the callbacks. *)
Inductive event :=
  | EvRequest (s : nat) (v : T)
  | EvResponse (s : nat) (v : T) (chunk : C)
  | EvFinalized (s : nat) (v : T) (info : I).

(** The slots ever allocated, the pool's free ones, and the context of each stream. *)
Record observer := mkObserver {
  slots : list T;
  pool : list nat;
  contexts : nat -> ctxval;
}.

Definition set_context (s : nat) (c : ctxval) (o : observer) : observer :=
  mkObserver (slots o) (pool o) (fun s' => if decide (s' = s) then c else contexts o s').

Definition store (r : nat) (v : T) (o : observer) : observer :=
  mkObserver (<[r := v]> (slots o)) (pool o) (contexts o).

(** [pool.Get()]: [choice] is the free slot the pool returns, [None] (or no such slot) when
    it calls [New]. *)
Definition pool_Get (choice : option nat) (o : observer) : nat * observer :=
  match choice ≫= (pool o !!.) with
  | Some r => (r, mkObserver (slots o) (base.filter (.≠ r) (pool o)) (contexts o))
  | None => (length (slots o), mkObserver (slots o ++ [zero]) (pool o) (contexts o))
  end.

(** The request handler: the accumulator goes to a slot, its address to the context. *)
Definition observe_request (choice : option nat) (s : nat) (r : R) (o : observer) : observer * list event :=
  let '(slot, o) := pool_Get choice o in
  let v := OnRequest hooks r in
  (set_context s (CtxSlot (Some slot)) (store slot v o), [EvRequest s v]).

(** The response handler, registered when [OnResponse] is set. *)
Definition observe_response (s : nat) (chunk : C) (o : observer) : list event :=
  if has_OnResponse hooks then
    match contexts o s with
    | CtxSlot (Some slot) =>
        match slots o !! slot with Some v => [EvResponse s v chunk] | None => [] end
    | _ => []
    end
  else [].

(** The finalization callback: deliver, clear the slot, give it back, clear the context. *)
Definition observe_finalized (s : nat) (info : I) (o : observer) : observer * list event :=
  match contexts o s with
  | CtxSlot (Some slot) =>
      let ev := match slots o !! slot with
                | Some v => if has_OnFinalized hooks then [EvFinalized s v info] else []
                | None => []
                end in
      let o := store slot zero o in
      let o := mkObserver (slots o) (slot :: pool o) (contexts o) in
      (set_context s CtxNil o, ev)
  | _ => (o, [])
  end.

Definition observer_new : observer := mkObserver [] [] (fun _ => CtxNil).

(** One step: a callback of some stream, the collector emptying part of the pool, or user
    code overwriting its own stream's context with a value of another type. *)
Inductive ostep : observer -> list event -> observer -> Prop :=
  | ostep_request choice s r o : ostep o (observe_request choice s r o).2 (observe_request choice s r o).1
  | ostep_response s chunk o : ostep o (observe_response s chunk o) o
  | ostep_finalized s info o : ostep o (observe_finalized s info o).2 (observe_finalized s info o).1
  | ostep_collect p o : p `sublist_of` pool o -> ostep o [] (mkObserver (slots o) p (contexts o))
  | ostep_overwrite s o : ostep o [] (set_context s CtxOther o).

Inductive osteps : observer -> list event -> observer -> Prop :=
  | osteps_nil o : osteps o [] o
  | osteps_snoc o l o1 e o2 : osteps o l o1 -> ostep o1 e o2 -> osteps o (l ++ e) o2.

(** ** The abstract observer: what each stream is owed *)

(** The value of stream [s]'s last request in a log that no finalization has consumed. *)
Definition owe (s : nat) (acc : option T) (e : event) : option T :=
  match e with
  | EvRequest s' v => if decide (s' = s) then Some v else acc
  | EvFinalized s' _ _ => if decide (s' = s) then None else acc
  | EvResponse _ _ _ => acc
  end.
Definition owed (s : nat) (l : list event) : option T := foldl (owe s) None l.

(** Every delivery is of the value its own stream is owed. *)
Definition deliveries_ok (l : list event) : Prop :=
  forall l1 e l2, l = l1 ++ e :: l2 ->
    match e with
    | EvRequest _ _ => True
    | EvResponse s v _ | EvFinalized s v _ => owed s l1 = Some v
    end.

(** Slots in use are allocated, not free, and not shared; free slots are distinct; and a
    stream's slot holds what the stream is owed. *)
Record observer_ok (l : list event) (o : observer) : Prop := {
  ok_alloc : forall s r, contexts o s = CtxSlot r -> exists n, r = Some n /\ n < length (slots o);
  ok_free : forall s r, contexts o s = CtxSlot (Some r) -> r ∉ pool o;
  ok_own : forall s s' r, contexts o s = CtxSlot (Some r) -> contexts o s' = CtxSlot (Some r) -> s = s';
  ok_pool : NoDup (pool o) /\ Forall (fun r => r < length (slots o)) (pool o);
  ok_value : forall s r v, contexts o s = CtxSlot (Some r) -> slots o !! r = Some v -> owed s l = Some v;
  ok_log : deliveries_ok l;
}.

Lemma owed_snoc s l e : owed s (l ++ [e]) = owe s (owed s l) e.
Proof. unfold owed. by rewrite foldl_app. Qed.

Lemma deliveries_snoc l e :
  deliveries_ok l ->
  match e with
  | EvRequest _ _ => True
  | EvResponse s v _ | EvFinalized s v _ => owed s l = Some v
  end -> deliveries_ok (l ++ [e]).
Proof.
  intros Hl He l1 e1 l2 H. destruct (decide (l2 = [])) as [->|Hn].
  - apply app_inj_tail in H as [-> ->]. done.
  - destruct (exists_last Hn) as (l3 & e3 & ->). rewrite app_comm_cons, app_assoc in H.
    apply app_inj_tail in H as [H _]. by eapply Hl.
Qed.

(** A slot the pool hands out belongs to no stream. *)
Lemma pool_Get_spec choice l o r o1 :
  observer_ok l o -> pool_Get choice o = (r, o1) ->
  observer_ok l o1 /\ contexts o1 = contexts o /\ r < length (slots o1) /\ (r ∉ pool o1) /\
  forall s, contexts o s <> CtxSlot (Some r).
Proof.
  intros [Ha Hf Ho [Hn Hp] Hv Hl]. unfold pool_Get. destruct (choice ≫= _) as [r'|] eqn:Hc.
  - intros [= <- <-]. apply bind_Some in Hc as (i & _ & Hi%list_elem_of_lookup_2).
    split_and!; simpl; [|done|by eapply Forall_forall in Hp| |by (intros s Hs%Hf)].
    + split; simpl; auto; [|split; [by apply NoDup_filter|]].
      2: { apply Forall_forall. intros x [_ Hx]%list_elem_of_filter. by eapply Forall_forall in Hp. }
      intros s r Hs. rewrite list_elem_of_filter. intros [_ H]. by eapply Hf.
    + rewrite list_elem_of_filter. tauto.
  - intros [= <- <-]. split_and!; simpl; rewrite ?length_app; simpl; [|done|lia| |].
    + split; simpl; auto.
      * intros s r Hs. rewrite length_app. simpl. destruct (Ha _ _ Hs) as (n & -> & Hlt).
        exists n. split; [done|lia].
      * split; [done|]. eapply Forall_impl; [done|]. simpl. intros. rewrite length_app. lia.
      * intros s r v Hs Hr. destruct (Ha _ _ Hs) as (n & [= ->] & Hlt).
        rewrite lookup_app_l in Hr by done. eauto.
    + intros H. eapply Forall_forall in Hp; [|done]. simpl in Hp. lia.
    + intros s Hs. destruct (Ha _ _ Hs) as (n & [= <-] & Hlt). lia.
Qed.

Lemma request_ok choice s r l o :
  observer_ok l o ->
  observer_ok (l ++ (observe_request choice s r o).2) (observe_request choice s r o).1.
Proof.
  intros Hok. unfold observe_request. destruct (pool_Get choice o) as [slot o1] eqn:Hg.
  destruct (pool_Get_spec _ _ _ _ _ Hok Hg) as ([Ha Hf Ho Hp Hv Hl] & Hc & Hlt & Hfr & Hno).
  rewrite <-Hc in Hno. clear Hc Hg Hok. split; simpl; rewrite ?length_insert; auto.
  - intros s' q. case_decide; [intros [= <-]; eauto|apply Ha].
  - intros s' q. case_decide; [by intros [= <-]|apply Hf].
  - intros s1 s2 q. repeat case_decide; subst; try done; intros; simplify_eq; eauto;
      exfalso; by eapply Hno.
  - intros s' q v. rewrite owed_snoc. simpl. case_decide as E1.
    + intros [= <-]. rewrite list_lookup_insert_eq by done. intros [= <-]. by rewrite decide_True.
    + intros Hs. rewrite list_lookup_insert_ne by (intros ->; by eapply Hno).
      rewrite decide_False by done. eauto.
  - by apply deliveries_snoc.
Qed.

Lemma response_ok s chunk l o :
  observer_ok l o -> observer_ok (l ++ observe_response s chunk o) o.
Proof.
  intros [Ha Hf Ho Hp Hv Hl]. unfold observe_response.
  destruct (has_OnResponse hooks); [|rewrite app_nil_r; done].
  destruct (contexts o s) as [|[slot|]|] eqn:Hs; try (rewrite app_nil_r; done).
  destruct (slots o !! slot) as [v|] eqn:Hsl; [|rewrite app_nil_r; done].
  split; auto.
  - intros s' q v'. rewrite owed_snoc. simpl. eauto.
  - apply deliveries_snoc; eauto.
Qed.

Lemma finalized_ok s info l o :
  observer_ok l o ->
  observer_ok (l ++ (observe_finalized s info o).2) (observe_finalized s info o).1.
Proof.
  intros [Ha Hf Ho [Hn Hp] Hv Hl]. unfold observe_finalized.
  destruct (contexts o s) as [|[slot|]|] eqn:Hs; try (rewrite app_nil_r; done).
  destruct (Ha _ _ Hs) as (n & [= <-] & Hlt).
  destruct (lookup_lt_is_Some_2 _ _ Hlt) as [v Hsl]. rewrite Hsl. simpl.
  split; simpl; rewrite ?length_insert.
  - intros s' q. case_decide; [done|apply Ha].
  - intros s' q. case_decide as E1; [done|]. intros Hq [->|Hin]%elem_of_cons; [|by eapply Hf].
    by apply E1, (Ho _ _ _ Hq Hs).
  - intros s1 s2 q. repeat case_decide; try done. apply Ho.
  - split; constructor; auto. by eapply Hf.
  - intros s' q w. case_decide as E1; [done|]. intros Hq Hw.
    assert (slot <> q) by (intros ->; by apply E1, (Ho _ _ _ Hq Hs)).
    rewrite list_lookup_insert_ne in Hw by done.
    destruct (has_OnFinalized hooks); [|rewrite app_nil_r; eauto].
    rewrite owed_snoc. simpl. rewrite decide_False by done. eauto.
  - destruct (has_OnFinalized hooks); [|by rewrite app_nil_r]. apply deliveries_snoc; eauto.
Qed.

Lemma ostep_ok o e o' l : ostep o e o' -> observer_ok l o -> observer_ok (l ++ e) o'.
Proof.
  intros Hs Hok. destruct Hs; [by apply request_ok|by apply response_ok|by apply finalized_ok| |];
    rewrite app_nil_r; destruct Hok as [Ha Hf Ho [Hn Hp] Hv Hl]; split; simpl; auto.
  - intros s r Hr Hin. eapply Hf; [done|]. by eapply elem_of_submseteq, sublist_submseteq.
  - split; [by eapply sublist_NoDup|]. apply Forall_forall. intros x Hx.
    eapply Forall_forall in Hp; [done|]. by eapply elem_of_submseteq, sublist_submseteq.
  - intros s' q. case_decide; [done|apply Ha].
  - intros s' q. case_decide; [done|apply Hf].
  - intros s1 s2 q. repeat case_decide; try done. apply Ho.
  - intros s' q v. case_decide; [done|apply Hv].
Qed.

Lemma observer_new_ok : observer_ok [] observer_new.
Proof. split; simpl; try done; [split; constructor|]. intros l1 ev l2 H. by destruct l1. Qed.

Lemma osteps_ok l o : osteps observer_new l o -> observer_ok l o.
Proof.
  remember observer_new as o0 eqn:E0. induction 1 as [|o l o1 ev o2 _ IH Hs]; subst.
  - apply observer_new_ok.
  - eauto using ostep_ok.
Qed.

(** Streams that share the slot pool never see each other.  In every interleaving of
    request, response and finalization callbacks of any number of streams (with the pool
    returning or losing free slots as it likes, and user code overwriting contexts), every
    [OnResponse] and [OnFinalized] receives the accumulator that [OnRequest] returned for
    the same stream and that no finalization has consumed; a stream whose context still
    holds its slot is finalized with exactly one [OnFinalized]; two streams never hold one
    slot. *)
Theorem exchange_streams_isolated l o :
  osteps observer_new l o ->
  deliveries_ok l /\
  (forall s s' r, contexts o s = CtxSlot (Some r) -> contexts o s' = CtxSlot (Some r) -> s = s') /\
  (forall s r info, contexts o s = CtxSlot r -> has_OnFinalized hooks = true ->
    exists v, owed s l = Some v /\ (observe_finalized s info o).2 = [EvFinalized s v info] /\
      contexts (observe_finalized s info o).1 s = CtxNil).
Proof.
  intros [Ha Hf Ho Hp Hv Hl]%osteps_ok. split_and!; [done|done|].
  intros s r info Hs Hh. destruct (Ha _ _ Hs) as (n & -> & Hlt).
  destruct (lookup_lt_is_Some_2 _ _ Hlt) as [v Hsl]. exists v.
  unfold observe_finalized. rewrite Hs, Hsl, Hh. simpl. rewrite decide_True by done. eauto.
Qed.
End observer.

(** Stream 0 finishes; stream 1 starts and reuses its slot. *)
Lemma exchange_streams_isolated_witness :
  let h := mkHooks (fun r : string => r) true true in
  exists o : observer, osteps (C := unit) (I := unit) "" h observer_new
    [EvRequest 0 "a"; EvResponse 0 "a" tt; EvFinalized 0 "a" tt; EvRequest 1 "b"] o /\
  deliveries_ok [EvRequest 0 "a"; EvResponse 0 "a" tt; EvFinalized 0 "a" tt; EvRequest 1 "b"] /\
  contexts o 1 = CtxSlot (Some 0).
Proof.
  intros h.
  pose (o1 := (observe_request (C := unit) (I := unit) "" h None 0 "a" observer_new).1).
  pose (o2 := (observe_finalized (C := unit) "" h 0 tt o1).1).
  exists ((observe_request (C := unit) (I := unit) "" h (Some 0) 1 "b" o2).1).
  assert (osteps (C := unit) (I := unit) "" h observer_new
    ((([] ++ [EvRequest 0 "a"]) ++ [EvResponse 0 "a" tt]) ++ [EvFinalized 0 "a" tt] ++ []) o2) as H.
  { apply osteps_snoc with o1; [|exact (ostep_finalized "" h 0 tt o1)].
    apply osteps_snoc with o1; [|exact (ostep_response "" h 0 tt o1)].
    apply osteps_snoc with observer_new; [apply osteps_nil|exact (ostep_request "" h None 0 "a" observer_new)]. }
  assert (osteps (C := unit) (I := unit) "" h observer_new
    (((([] ++ [EvRequest 0 "a"]) ++ [EvResponse 0 "a" tt]) ++ [EvFinalized 0 "a" tt] ++ []) ++ [EvRequest 1 "b"])
    ((observe_request (C := unit) (I := unit) "" h (Some 0) 1 "b" o2).1)) as H'.
  { apply osteps_snoc with o2; [exact H|exact (ostep_request "" h (Some 0) 1 "b" o2)]. }
  split; [exact H'|]. split; [|reflexivity].
  exact (proj1 (exchange_streams_isolated "" h _ _ H')).
Defined.
