(* ===== verification/Background.v ===== *)
(** * up/watch.go, up/sidecar.go: background work of a filter or cluster

    [RunRetry] repeats a streaming call until its context is cancelled.  A [Sidecar] is an
    HTTP server run as an actor of a [Group] (Group.v): [execute] and [stop] run in
    different goroutines and meet on the [ready] and [started] channels and on the server. *)
From stdpp Require Import base list strings relations.
From Stdlib Require Import ZArith Lia.
From S2P Require Import Prelude.

(** ** RunRetry *)

Module Watch.

Section retry.
(** What the [i]-th call of [fn] returns, and whether the context is cancelled when the
    [i]-th iteration looks at it before logging and at its end. *)
Context (fn : nat -> option string) (at_log at_end : nat -> bool).

(** The loop from iteration [i]; [None] when [fuel] iterations do not end it.  The result is
    the number of calls made and the errors logged. *)
Fixpoint RunRetry (fuel i : nat) (logged : list string) : option (nat * list string) :=
  match fuel with
  | O => None
  | S fuel =>
      let logged := match fn i with
                    | Some err => if at_log i then logged else logged ++ [err]
                    | None => logged
                    end in
      if at_end i then Some (S i, logged) else RunRetry fuel (S i) logged
  end.

(** The errors that calls [i .. i+n-1] log. *)
Definition errors (i n : nat) : list string :=
  omap (fun j => if at_log j then None else fn j) (seq i n).

Lemma RunRetry_runs n i fuel logged :
  (forall j, i <= j < i + n -> at_end j = false) -> at_end (i + n) = true -> n < fuel ->
  RunRetry fuel i logged = Some (S (i + n), logged ++ errors i (S n)).
Proof.
  revert i fuel logged. induction n as [|n IH]; intros i [|fuel] logged Hj He Hf; try lia.
  - rewrite Nat.add_0_r in *. simpl. rewrite He. do 2 f_equal. unfold errors. simpl.
    destruct (fn i), (at_log i); by rewrite ?app_nil_r.
  - cbn [RunRetry]. rewrite Hj by lia. rewrite IH; [..|lia].
    + rewrite Nat.add_succ_comm. do 2 f_equal. unfold errors. cbn [seq omap list_omap].
      destruct (fn i), (at_log i); by rewrite <-?app_assoc.
    + intros j ?. apply Hj. lia.
    + by rewrite Nat.add_succ_comm.
Qed.

Lemma RunRetry_never fuel i logged : (forall j, at_end j = false) -> RunRetry fuel i logged = None.
Proof.
  intros H. revert i logged. induction fuel as [|fuel IH]; intros i logged; simpl; [done|].
  by rewrite H.
Qed.

(** [RunRetry] ends exactly when its context is cancelled.  If the context is first seen
    cancelled at the end of iteration [n], the loop returns after exactly [n + 1] calls of
    [fn] (at least one, whatever [fn] returned), having logged, in order, the errors of the
    calls that returned while the context was active; and while the context is never
    cancelled no number of iterations ends it. *)
Theorem retry_until_cancelled :
  (forall n, (forall j, j < n -> at_end j = false) -> at_end n = true ->
     forall fuel, n < fuel -> RunRetry fuel 0 [] = Some (S n, errors 0 (S n))) /\
  ((forall n, at_end n = false) -> forall fuel, RunRetry fuel 0 [] = None).
Proof.
  split.
  - intros n Hj Hn fuel Hf. apply (RunRetry_runs n 0 fuel []); [|done|done]. intros j ?. apply Hj. lia.
  - intros H fuel. by apply RunRetry_never.
Qed.
End retry.
End Watch.

(** ** Sidecar *)

Module Sidecar.

(** [SidecarOptions]: the fields the life cycle depends on. *)
Record SidecarOptions := mkOptions {
  ListenAddr : string;
  ShutdownTimeout : Z;
  EgressURL : string;
  Rationale : string;
  StartupLogFile : string;
}.

(** Where [execute] is: not called, about to listen, bound, with its server, after closing
    [ready], after closing [started], in [Serve], returned, panicked. *)
Inductive exec_pc := XIdle | XListen | XBound | XServer | XReady | XStarted | XServing | XDone | XPanic.

(** Where the body of [stop] is: not called, waiting for [started], about to shut the server
    down, about to close the listener, returned. *)
Inductive stop_pc := TIdle | TWait | TShutdown | TClose | TDone.

#[export] Instance exec_pc_eq_dec : EqDecision exec_pc.
Proof. solve_decision. Defined.
#[export] Instance stop_pc_eq_dec : EqDecision stop_pc.
Proof. solve_decision. Defined.

(** [Sidecar]: the channels ([true] is closed), the listener and the server, whether the
    server was told to shut down and the listener closed, what was printed to stderr and to
    the startup log, and the two goroutines.  [sync.Once] is the [stop_pc]. *)
Record Sidecar := mkSidecar {
  opts : SidecarOptions;
  ready : bool;
  started : bool;
  resolvedAddr : string;
  srv : bool;
  ln : bool;
  inShutdown : bool;
  lnClosed : bool;
  stderr : list string;
  logFile : list string;
  xpc : exec_pc;
  spc : stop_pc;
}.

(** [NewSidecar]: a timeout of zero becomes five seconds (in nanoseconds). *)
Definition NewSidecar (o : SidecarOptions) : Sidecar :=
  mkSidecar
    (mkOptions (ListenAddr o)
       (if decide (ShutdownTimeout o = 0)%Z then 5000000000%Z else ShutdownTimeout o)
       (EgressURL o) (Rationale o) (StartupLogFile o))
    false false "" false false false false [] [] XIdle TIdle.

Definition at_x (pc : exec_pc) (s : Sidecar) : Sidecar :=
  mkSidecar (opts s) (ready s) (started s) (resolvedAddr s) (srv s) (ln s) (inShutdown s) (lnClosed s)
    (stderr s) (logFile s) pc (spc s).
Definition at_s (pc : stop_pc) (s : Sidecar) : Sidecar :=
  mkSidecar (opts s) (ready s) (started s) (resolvedAddr s) (srv s) (ln s) (inShutdown s) (lnClosed s)
    (stderr s) (logFile s) (xpc s) pc.
Definition eprint (m : string) (s : Sidecar) : Sidecar :=
  mkSidecar (opts s) (ready s) (started s) (resolvedAddr s) (srv s) (ln s) (inShutdown s) (lnClosed s)
    (stderr s ++ [m]) (logFile s) (xpc s) (spc s).
Definition close_started (s : Sidecar) : Sidecar :=
  mkSidecar (opts s) (ready s) true (resolvedAddr s) (srv s) (ln s) (inShutdown s) (lnClosed s)
    (stderr s) (logFile s) (xpc s) (spc s).

Definition newline : string := String (Ascii.ascii_of_nat 10) "".

(** The startup message: only without an egress URL; to stderr, and to the log file when
    one is named and [opened]. *)
Definition startup_log (name : string) (opened : bool) (s : Sidecar) : Sidecar :=
  if decide (EgressURL (opts s) = "") then
    let msg :=
      if decide (Rationale (opts s) <> "")
      then "sidecar " +:+ name +:+ ": direct-dial mode (break-glass): " +:+ Rationale (opts s) +:+ newline
      else "sidecar " +:+ name +:+ ": WARNING: direct-dial mode with no rationale" +:+ newline in
    mkSidecar (opts s) (ready s) (started s) (resolvedAddr s) (srv s) (ln s) (inShutdown s) (lnClosed s)
      (stderr s ++ [msg])
      (if decide (StartupLogFile (opts s) <> "") then if opened then logFile s ++ [msg] else logFile s
       else logFile s)
      (xpc s) (spc s)
  else s.

(** The next operation of [execute]: [bound] is what [net.Listen] returns (the address, or
    the error), [opened] whether the log file opens.  Closing a closed channel panics.
    [None] when there is none to make: not called, or [Serve] has not been told to end. *)
Definition exec_step (name : string) (bound : string + string) (opened : bool) (s : Sidecar) : option Sidecar :=
  match xpc s with
  | XIdle | XDone | XPanic => None
  | XListen =>
      match bound with
      | inr err =>
          let s := eprint ("sidecar " +:+ name +:+ ": listen " +:+ ListenAddr (opts s) +:+ ": " +:+ err +:+ newline) s in
          Some (if started s then at_x XPanic s else at_x XDone (close_started s))
      | inl addr =>
          Some (mkSidecar (opts s) (ready s) (started s) addr (srv s) true (inShutdown s) (lnClosed s)
                  (stderr s) (logFile s) XBound (spc s))
      end
  | XBound =>
      Some (mkSidecar (opts s) (ready s) (started s) (resolvedAddr s) true (ln s) false (lnClosed s)
              (stderr s) (logFile s) XServer (spc s))
  | XServer =>
      Some (if ready s then at_x XPanic s
            else mkSidecar (opts s) true (started s) (resolvedAddr s) (srv s) (ln s) (inShutdown s)
                   (lnClosed s) (stderr s) (logFile s) XReady (spc s))
  | XReady => Some (if started s then at_x XPanic s else at_x XStarted (close_started s))
  | XStarted =>
      let s := startup_log name opened s in
      Some (if inShutdown s then at_x XDone s else at_x XServing s)
  | XServing => if inShutdown s || lnClosed s then Some (at_x XDone s) else None
  end.

(** The next operation of the body of [stop]; [None] while [started] is open. *)
Definition stop_step (s : Sidecar) : option Sidecar :=
  match spc s with
  | TIdle | TDone => None
  | TWait => if started s then Some (at_s (if srv s then TShutdown else if ln s then TClose else TDone) s) else None
  | TShutdown =>
      Some (mkSidecar (opts s) (ready s) (started s) (resolvedAddr s) (srv s) (ln s) true (lnClosed s)
              (stderr s) (logFile s) (xpc s) (if ln s then TClose else TDone))
  | TClose =>
      Some (mkSidecar (opts s) (ready s) (started s) (resolvedAddr s) (srv s) (ln s) (inShutdown s) true
              (stderr s) (logFile s) (xpc s) TDone)
  end.

(** [stop()]: the first caller runs the body. *)
Definition stop (s : Sidecar) : Sidecar :=
  match spc s with TIdle => at_s TWait s | _ => s end.

(** What the two goroutines do on their own; [Serve] may also fail by itself. *)
Inductive inner : Sidecar -> Sidecar -> Prop :=
  | i_exec name bound opened s s' : exec_step name bound opened s = Some s' -> inner s s'
  | i_stop s s' : stop_step s = Some s' -> inner s s'
  | i_fail s : xpc s = XServing -> inner s (at_x XDone s).

(** A step of the sidecar: its group starts [execute] (once) or calls [stop]. *)
Inductive sstep : Sidecar -> Sidecar -> Prop :=
  | s_execute s : xpc s = XIdle -> sstep s (at_x XListen s)
  | s_stop s : sstep s (stop s)
  | s_inner s s' : inner s s' -> sstep s s'.

(** ** Invariant and progress *)

(** The places of [execute] past closing [started], with a listener, with a server, and past
    closing [ready]; a returned [execute] had a server when [server] says so. *)
Definition x_started (x : exec_pc) : bool := match x with XStarted | XServing | XDone => true | _ => false end.
Definition x_bound (x : exec_pc) (server : bool) : bool :=
  match x with XBound | XServer | XReady | XStarted | XServing => true | XDone => server | _ => false end.
Definition x_srv (x : exec_pc) (server : bool) : bool :=
  match x with XServer | XReady | XStarted | XServing => true | XDone => server | _ => false end.
Definition x_ready (x : exec_pc) (server : bool) : bool :=
  match x with XReady | XStarted | XServing => true | XDone => server | _ => false end.

(** The places of [stop] past the wait and past the shutdown. *)
Definition s_released (t : stop_pc) : bool := match t with TShutdown | TClose | TDone => true | _ => false end.
Definition s_shut (t : stop_pc) : bool := match t with TClose | TDone => true | _ => false end.
Definition s_done (t : stop_pc) : bool := match t with TDone => true | _ => false end.

Record sidecar_ok (s : Sidecar) : Prop := {
  sk_panic : xpc s <> XPanic;
  sk_started : started s = x_started (xpc s);
  sk_bound : ln s = x_bound (xpc s) (srv s);
  sk_srv : srv s = x_srv (xpc s) (srv s);
  sk_ready : ready s = x_ready (xpc s) (srv s);
  sk_stop : s_released (spc s) = true -> started s = true;
  sk_shut : s_shut (spc s) = true -> srv s = true -> inShutdown s = true;
  sk_close : s_done (spc s) = true -> ln s = true -> lnClosed s = true;
}.

Lemma new_ok o : sidecar_ok (NewSidecar o).
Proof. by split. Qed.

Lemma startup_log_ok name opened s : sidecar_ok s -> sidecar_ok (startup_log name opened s).
Proof. intros [H1 H2 H3 H4 H5 H6 H7 H8]. unfold startup_log. case_decide; by split. Qed.

Lemma startup_log_xpc name opened s :
  xpc (startup_log name opened s) = xpc s /\ spc (startup_log name opened s) = spc s.
Proof. unfold startup_log. by case_decide. Qed.

Lemma exec_ok name bound opened s s' :
  sidecar_ok s -> exec_step name bound opened s = Some s' -> sidecar_ok s'.
Proof.
  intros Hok. unfold exec_step. destruct (xpc s) eqn:Hx; try done.
  5: { apply (startup_log_ok name opened) in Hok. destruct (startup_log_xpc name opened s) as [Hx' _].
       rewrite Hx in Hx'. generalize dependent (startup_log name opened s). clear s Hx. intros s Hok Hx.
       destruct Hok as [H1 H2 H3 H4 H5 H6 H7 H8]. rewrite Hx in *.
       destruct (inShutdown s) eqn:?; intros [= <-]; split; simpl in *; rewrite ?H2, ?H3, ?H4, ?H5; auto; destruct (spc s); naive_solver. }
  all: destruct Hok as [H1 H2 H3 H4 H5 H6 H7 H8]; rewrite Hx in *; simpl in *; rewrite ?H2, ?H5; simpl;
    repeat case_match; intros; simplify_eq; split; simpl in *;
    try congruence; auto; destruct (spc s); simpl in *; naive_solver congruence.
Qed.

Lemma stop_ok s s' : sidecar_ok s -> stop_step s = Some s' -> sidecar_ok s'.
Proof.
  intros [H1 H2 H3 H4 H5 H6 H7 H8]. unfold stop_step. destruct (spc s) eqn:Hs; try done; simpl in *.
  - destruct (started s) eqn:He; [|done]. intros [= <-].
    split; simpl; rewrite ?He; auto; destruct (srv s) eqn:?, (ln s) eqn:?; simpl; try done.
    all: destruct (xpc s); naive_solver.
  - intros [= <-]. split; simpl; auto; destruct (ln s) eqn:?; naive_solver.
  - intros [= <-]. split; simpl; auto.
Qed.

Lemma sstep_ok s s' : sstep s s' -> sidecar_ok s -> sidecar_ok s'.
Proof.
  intros Hs Hok. destruct Hs as [s Hx|s|s s' Hi].
  - destruct Hok as [H1 H2 H3 H4 H5 H6 H7 H8]. rewrite Hx in *. split; simpl in *; auto; congruence.
  - unfold stop. destruct Hok as [H1 H2 H3 H4 H5 H6 H7 H8]. destruct (spc s) eqn:?; split; simpl; rewrite ?Heqs0; auto; done.
  - destruct Hi as [name bound opened s s' He|s s' He|s He].
    + by eapply exec_ok.
    + by eapply stop_ok.
    + destruct Hok as [H1 H2 H3 H4 H5 H6 H7 H8]. rewrite He in *. simpl in *. split; simpl; auto; congruence.
Qed.

Lemma ssteps_ok o s : rtc sstep (NewSidecar o) s -> sidecar_ok s.
Proof. intros H. pose proof (new_ok o) as Hn. induction H; eauto using sstep_ok. Qed.

(** How far the two goroutines are from their ends. *)
Definition left_x (x : exec_pc) : nat :=
  match x with
  | XListen => 6 | XBound => 5 | XServer => 4 | XReady => 3 | XStarted => 2 | XServing => 1
  | XIdle | XDone | XPanic => 0
  end.
Definition left_s (t : stop_pc) : nat :=
  match t with TWait => 3 | TShutdown => 2 | TClose => 1 | TIdle | TDone => 0 end.
Definition left (s : Sidecar) : nat := left_x (xpc s) + left_s (spc s).

Lemma inner_decreases s s' : inner s s' -> left s' < left s.
Proof.
  intros [name bound opened s1 s2 H|s1 s2 H|s1 H]; unfold left.
  - unfold exec_step in H. destruct (startup_log_xpc name opened s1) as [Hx Ht].
    destruct (xpc s1) eqn:E; try done; repeat case_match; simplify_eq; simpl; rewrite ?Ht; lia.
  - unfold stop_step in H. destruct (spc s1) eqn:E; try done; repeat case_match; simplify_eq; simpl; lia.
  - simpl. rewrite H. simpl. lia.
Qed.

Lemma inner_bounded n s s' : relations.nsteps inner n s s' -> n + left s' <= left s.
Proof. induction 1 as [|n s1 s2 s3 H _ IH]; [lia|]. apply inner_decreases in H. lia. Qed.

Lemma inner_rtc_sstep s s' : rtc inner s s' -> rtc sstep s s'.
Proof. induction 1; [done|]. eapply rtc_l; [by apply s_inner|done]. Qed.

(** The goroutines do not go back to not having been started. *)
Lemma inner_begun s s' :
  rtc inner s s' -> xpc s <> XIdle -> spc s <> TIdle -> xpc s' <> XIdle /\ spc s' <> TIdle.
Proof.
  induction 1 as [|s1 s2 s3 H _ IH]; [done|]. intros Hx Ht. apply IH; clear IH.
  - destruct H as [name bound opened s s' H|s s' H|s H]; [| |done].
    + unfold exec_step in H. repeat case_match; simplify_eq; done.
    + unfold stop_step in H. repeat case_match; simplify_eq; done.
  - destruct H as [name bound opened s s' H|s s' H|s H]; [| |done].
    + unfold exec_step in H. destruct (startup_log_xpc name opened s) as [_ Ht'].
      repeat case_match; simplify_eq; simpl; congruence.
    + unfold stop_step in H. repeat case_match; simplify_eq; done.
Qed.

(** There is no deadlock: while one of the goroutines has not returned, one can move. *)
Lemma stuck_done s :
  sidecar_ok s -> xpc s <> XIdle -> spc s <> TIdle -> (forall s', ~ inner s s') ->
  xpc s = XDone /\ spc s = TDone.
Proof.
  intros [H1 H2 H3 H4 H5 H6 H7 H8] Hx Ht Hend.
  assert (exec_step "" (inl "") false s = None) as He.
  { destruct (exec_step _ _ _ s) eqn:E; [|done]. exfalso. eapply Hend, i_exec, E. }
  assert (stop_step s = None) as Hs.
  { destruct (stop_step s) eqn:E; [|done]. exfalso. eapply Hend, i_stop, E. }
  assert (xpc s <> XServing) as Hv by (intros E; eapply Hend, i_fail, E).
  assert (xpc s = XDone) as Hd by (unfold exec_step in He; destruct (xpc s); done).
  split; [done|]. unfold stop_step in Hs. rewrite Hd in H2. simpl in H2. rewrite H2 in Hs.
  by destruct (spc s).
Qed.

(** C28: a sidecar that was started stops.  From every state in which [execute] has been
    started and [stop] called, in whatever order and however far each has got, every run of
    the two goroutines is finite (at most nine operations), and a run that cannot go on has
    [execute] returned without a panic and [stop] returned, the server shut down and the
    listener closed if there ever was one.  And in every reachable state, once [ready] is
    closed the server exists and is bound. *)
Theorem sidecar_stops o s :
  rtc sstep (NewSidecar o) s ->
  (ready s = true -> srv s = true /\ ln s = true) /\
  (xpc s <> XIdle -> spc s <> TIdle ->
    (forall n s', relations.nsteps inner n s s' -> n <= 9) /\
    (forall s', rtc inner s s' -> (forall s'', ~ inner s' s'') ->
       xpc s' = XDone /\ spc s' = TDone /\
       (srv s' = true -> inShutdown s' = true) /\ (ln s' = true -> lnClosed s' = true))).
Proof.
  intros Hr. pose proof (ssteps_ok _ _ Hr) as Hok. split.
  { destruct Hok as [H1 H2 H3 H4 H5 H6 H7 H8]. destruct (xpc s); simpl in *; naive_solver. }
  intros Hx Ht. split.
  { intros n s' Hn%inner_bounded. unfold left in Hn. destruct (xpc s), (spc s); simpl in *; lia. }
  intros s' Hs Hend. assert (sidecar_ok s') as Hok'.
  { apply (ssteps_ok o). etrans; [done|]. by apply inner_rtc_sstep. }
  destruct (inner_begun _ _ Hs Hx Ht) as [Hx' Ht'].
  destruct (stuck_done s' Hok' Hx' Ht' Hend) as [Hd Hd'].
  destruct Hok' as [H1 H2 H3 H4 H5 H6 H7 H8]. rewrite Hd' in *. auto.
Qed.

(** [stop] without [execute] never returns: it waits for a channel nobody closes. *)
Lemma unstarted_stop_blocks o s' : ~ inner (stop (NewSidecar o)) s'.
Proof. intros H. inversion H as [? ? ? ? ? H1|? ? H1|? H1]; by cbv in H1. Qed.

(** Between the bind and the closing of [ready], [ListenAddr()] already returns the address. *)
Lemma address_before_ready o addr :
  addr <> "" -> exists s, rtc sstep (NewSidecar o) s /\ ready s = false /\ resolvedAddr s = addr.
Proof.
  intros Ha. eexists. split; [|split].
  - eapply rtc_l; [by apply s_execute|]. eapply rtc_l; [|apply rtc_refl].
    apply s_inner, (i_exec "" (inl addr) false). reflexivity.
  - done.
  - done.
Qed.

(** Running [execute] a second time (the group of the registration is started once per
    configuration Envoy loads) panics whether or not the address can be bound again. *)
Lemma second_execute_panics o s bound :
  rtc sstep (NewSidecar o) s -> xpc s = XDone ->
  exists s', rtc (fun a b => exec_step "" bound false a = Some b) (at_x XListen s) s' /\ xpc s' = XPanic.
Proof.
  intros Hr Hx. destruct (ssteps_ok _ _ Hr) as [H1 H2 H3 H4 H5 H6 H7 H8]. rewrite Hx in *. simpl in *.
  destruct bound as [addr|err].
  - destruct (ready s) eqn:Hrd; eexists; split.
    + do 2 (eapply rtc_l; [reflexivity|]). eapply rtc_l; [|apply rtc_refl].
      unfold exec_step. simpl. rewrite Hrd. reflexivity.
    + done.
    + do 2 (eapply rtc_l; [reflexivity|]). eapply rtc_l; [unfold exec_step; simpl; rewrite Hrd; reflexivity|].
      eapply rtc_l; [|apply rtc_refl]. unfold exec_step. simpl. rewrite H2. reflexivity.
    + done.
  - eexists. split; [eapply rtc_l; [|apply rtc_refl]|].
    + unfold exec_step. simpl. rewrite H2. reflexivity.
    + done.
Qed.

Lemma sidecar_stops_witness :
  let o := mkOptions "127.0.0.1:0" 0 "" "" "" in
  let s := stop (at_x XListen (NewSidecar o)) in
  exists s', rtc inner s s' /\ xpc s' = XDone /\ spc s' = TDone.
Proof.
  intros o s.
  destruct (exec_step "demo" (inr "in use") false s) as [s1|] eqn:H1; [|discriminate].
  destruct (stop_step s1) as [s2|] eqn:H2; [|injection H1 as <-; discriminate].
  assert (rtc inner s s2) as Hrun.
  { eapply rtc_l; [by eapply i_exec|]. eapply rtc_l; [by apply i_stop|]. apply rtc_refl. }
  exists s2. split; [exact Hrun|].
  destruct (sidecar_stops o s) as [_ H].
  - eapply rtc_l; [by apply s_execute|]. eapply rtc_l; [apply s_stop|]. apply rtc_refl.
  - destruct H as [_ H]; [done|done|]. destruct (H s2 Hrun) as (Hx & Hs & _).
    + injection H1 as <-. injection H2 as <-.
      intros s'' Hi. inversion Hi as [? ? ? ? ? Hb|? ? Hb|? Hb]; by cbv in Hb.
    + split; [exact Hx|exact Hs].
Defined.
End Sidecar.
