(* ===== verification/Logging.v ===== *)
(** * up/writer.go, up/up.go, up/metadata.go: structured logging and typed metadata

    [AddLogAttrs] records attributes and mirrors them into dynamic metadata; [Slog] gives a
    logger whose handler prints through Envoy; [SetTypedMetadata] formats numbers.  The
    values are [log/slog]'s: what [slog.Any] makes of a dynamic value. *)
From stdpp Require Import base list strings pretty.
From Stdlib Require Import ZArith Lia.
From S2P Require Import Prelude Async StreamObject Envoy Grpc FilterState Filter.

(** [slog.Value] after [Resolve], by its [Kind]: the kinds the code tells apart, and the
    others (durations, times, groups) as opaque values. *)
Inductive value :=
  | KindString (s : string)
  | KindBool (b : bool)
  | KindInt64 (z : Z)
  | KindUint64 (z : Z)
  | KindFloat64 (bits : Z)
  | KindAny (raw : any)
  | KindOther (id : Z).

Definition signed (k : numkind) : bool :=
  match k with KInt | KInt8 | KInt16 | KInt32 | KInt64 => true | _ => false end.

(** What the standard library does with floats and with values of other types: widening a
    [float32] to [float64], the value [slog.Any] and [Resolve] make of an object, the string
    [Value.String] prints for the kinds that are not formatted here, and
    [strconv.FormatFloat(x, 'f', -1, bits)] for a float of that width. *)
Class GoFormat := {
  widen : Z -> Z;
  any_object : Z -> value;
  show : value -> string;
  FormatFloat : Z -> Z -> string;
}.

Section logging.
Context (E : Envoy) `{!GoFormat}.

(** [slog.Any(k, v).Value.Resolve()]. *)
Definition AnyValue (v : any) : value :=
  match v with
  | VString s => KindString s
  | VBool b => KindBool b
  | VNum k z => if signed k then KindInt64 z else KindUint64 z
  | VFloat32 bits => KindFloat64 (widen bits)
  | VFloat64 bits => KindFloat64 bits
  | VNil => KindAny VNil
  | VOther id => any_object id
  end.

(** [Value.String()]. *)
Definition value_String (v : value) : string :=
  match v with
  | KindString s => s
  | KindBool b => if b then "true" else "false"
  | KindInt64 z | KindUint64 z => pretty z
  | KindFloat64 _ | KindAny _ | KindOther _ => show v
  end.

(** [slog.Attr]. *)
Record attr := mkAttr { a_Key : string; a_Value : value }.

(** Pairs with a key that is not a string are skipped, and so is an odd last element. *)
Fixpoint argsToAttrs (kvs : list any) : list attr :=
  match kvs with
  | k :: v :: kvs =>
      match k with
      | VString k => mkAttr k (AnyValue v) :: argsToAttrs kvs
      | _ => argsToAttrs kvs
      end
  | _ => []
  end.

Definition attrToMetadataValue (a : attr) : any :=
  match a_Value a with
  | KindString s => VString s
  | KindBool b => VBool b
  | KindInt64 z => VNum KInt64 z
  | KindUint64 z => VNum KUint64 z
  | KindFloat64 bits => VFloat64 bits
  | KindAny raw =>
      match raw with
      | VString _ | VBool _ | VNum _ _ | VFloat32 _ | VFloat64 _ => raw
      | VNil | VOther _ => VString (value_String (a_Value a))
      end
  | KindOther _ => VString (value_String (a_Value a))
  end.

(** The loop that mirrors the attributes into the namespace. *)
Fixpoint mirror (w : nat) (ns : string) (attrs : list attr) (s : st) : res st :=
  match attrs with
  | [] => Ok s
  | a :: attrs => s ← SetMetadata w ns (a_Key a) (attrToMetadataValue a) s; mirror w ns attrs s
  end.

(** [AddLogAttrs(kvs...)]: [ns] is the filter's [logMetadataNS], [logged] its
    [reqLogAttrs]. *)
Definition AddLogAttrs (w : nat) (ns : string) (kvs : list any) (logged : list attr) (s : st) :
    res (list attr * st) :=
  let attrs := argsToAttrs kvs in
  let logged := logged ++ attrs in
  if decide (ns = "") then Ok (logged, s)
  else s ← mirror w ns attrs s; Ok (logged, s).

(** ** The handler of [Slog] *)

Record writerHandler := mkHandler { h_attrs : list attr; h_group : string }.

(** [w.Slog()]: the attributes of [WithAttributes]. *)
Definition Slog (logAttrs : list attr) : writerHandler := mkHandler logAttrs "".

Definition WithAttrs (attrs : list attr) (h : writerHandler) : writerHandler :=
  mkHandler (h_attrs h ++ attrs) (h_group h).
Definition WithGroup (name : string) (h : writerHandler) : writerHandler := mkHandler (h_attrs h) name.

(** [LogLevel]s (the values of abi.h's enumeration), and [slog]'s levels: Debug -4, Info 0, Warn 4, Error 8. *)
Definition LogTrace : Z := 0.
Definition LogDebug : Z := 1.
Definition LogInfo : Z := 2.
Definition LogWarn : Z := 3.
Definition LogError : Z := 4.
Definition LogCritical : Z := 5.

Definition slogLevelToUp (l : Z) : Z :=
  if (8 + 4 <=? l)%Z then LogCritical
  else if (8 <=? l)%Z then LogError
  else if (4 <=? l)%Z then LogWarn
  else if (0 <=? l)%Z then LogInfo
  else if (-4 <=? l)%Z then LogDebug
  else LogTrace.

Definition attr_text (prefix : string) (a : attr) : string :=
  " " +:+ prefix +:+ a_Key a +:+ "=" +:+ value_String (a_Value a).

Definition log_line (h : writerHandler) (message : string) (attrs : list attr) (s : st) : string :=
  let group := if decide (h_group h <> "") then h_group h +:+ "." else "" in
  message +:+ " filter=" +:+ name (cfg (s_f s)) +:+
  (if decide (reqID (s_f s) <> "") then " request_id=" +:+ reqID (s_f s) else "") +:+
  foldr (fun a r => attr_text "" a +:+ r) (foldr (fun a r => attr_text group a +:+ r) "" attrs) (h_attrs h).

Definition Handle (h : writerHandler) (level : Z) (message : string) (attrs : list attr) (s : st) : st :=
  emit (CLog (slogLevelToUp level) (log_line h message attrs s)) s.

(** ** Typed metadata *)

Definition numericToString (v : any) : any :=
  match v with
  | VNum _ z => VString (pretty z)
  | VFloat32 bits => VString (FormatFloat bits 32)
  | VFloat64 bits => VString (FormatFloat bits 64)
  | VNil | VString _ | VBool _ | VOther _ => v
  end.

Definition SetTypedMetadata (w : nat) (ns key : string) (value : any) (s : st) : res st :=
  SetMetadata w ns key (numericToString value) s.

(** ** Theorems *)

(** Every attribute has a metadata value that [SetMetadata] accepts. *)
Lemma metadata_value_ok a : metadata_ok (attrToMetadataValue a) = true.
Proof. unfold attrToMetadataValue. destruct (a_Value a) as [| | | | |[]|]; done. Qed.

(** A number keeps its value in the metadata: the kind is widened to 64 bits. *)
Lemma metadata_number k z key :
  attrToMetadataValue (mkAttr key (AnyValue (VNum k z))) = VNum (if signed k then KInt64 else KUint64) z.
Proof. unfold attrToMetadataValue. simpl. by destruct (signed k). Qed.

Definition metadata_of (ns : string) (attrs : list attr) : list dynamicMetadataMutation :=
  (fun a => mkMdMut ns (a_Key a) (attrToMetadataValue a)) <$> attrs.

(** What mirroring leaves behind: queued in queued mode, else written at once. *)
Definition mirrored (w : nat) (ns : string) (attrs : list attr) (s s' : st) : Prop :=
  let ms := metadata_of ns attrs in
  if queued w s
  then s_tr s' = s_tr s /\
       qs (s_f s') = set_q_dynamicMetadata (q_dynamicMetadata (qs (s_f s)) ++ ms) (qs (s_f s))
  else s_tr s' = s_tr s ++ ((fun m => CSetMetadata (md_ns m) (md_key m) (md_value m)) <$> ms) /\
       qs (s_f s') = qs (s_f s).

Lemma mirror_spec w ns attrs s : exists s', mirror w ns attrs s = Ok s' /\ mirrored w ns attrs s s'.
Proof.
  unfold mirrored. revert s. induction attrs as [|a attrs IH]; intros s; simpl.
  - exists s. split; [done|]. rewrite !app_nil_r. destruct (queued w s); [|done]. split; [done|].
    by destruct (qs (s_f s)).
  - unfold SetMetadata at 1. rewrite metadata_value_ok. simpl. destruct (queued w s) eqn:Hq.
    + edestruct IH as (s' & Hm & Hs). exists s'. split; [exact Hm|].
      assert (queued w (upd_q (fun q => set_q_dynamicMetadata (q_dynamicMetadata q ++
        [mkMdMut ns (a_Key a) (attrToMetadataValue a)]) q) s) = true) as Hq' by done.
      rewrite Hq' in Hs. destruct Hs as [Ht Hs]. split; [exact Ht|].
      rewrite Hs. simpl. unfold set_q_dynamicMetadata. simpl. by rewrite <-app_assoc.
    + edestruct IH as (s' & Hm & Hs). exists s'. split; [exact Hm|].
      assert (queued w (emit (CSetMetadata ns (a_Key a) (attrToMetadataValue a)) s) = false) as Hq' by done.
      rewrite Hq' in Hs. destruct Hs as [Ht Hs]. split; [|exact Hs].
      rewrite Ht. simpl. by rewrite <-app_assoc.
Qed.

(** *** What [AddLogAttrs] promises, said of its arguments by position

    The [i]-th pair is at positions [2i] and [2i+1]; it counts when both are there and the
    first is a string. *)
Definition pair_at (kvs : list any) (i : nat) : option (string * any) :=
  match kvs !! (2 * i), kvs !! (2 * i + 1) with
  | Some (VString k), Some v => Some (k, v)
  | _, _ => None
  end.

Definition named_pairs (kvs : list any) : list (string * any) :=
  omap (pair_at kvs) (seq 0 (length kvs)).

(** The metadata value a Go value is to have: a scalar keeps its value, with integers and
    floats widened to 64 bits; nil and an object are printed, unless [slog] resolves the
    object to a scalar. *)
Definition metadata_form (v : any) : any :=
  match v with
  | VString s => VString s
  | VBool b => VBool b
  | VNum (KInt | KInt8 | KInt16 | KInt32 | KInt64) z => VNum KInt64 z
  | VNum _ z => VNum KUint64 z
  | VFloat32 bits => VFloat64 (widen bits)
  | VFloat64 bits => VFloat64 bits
  | VNil => VString (show (KindAny VNil))
  | VOther id =>
      match any_object id with
      | KindString s => VString s
      | KindBool b => VBool b
      | KindInt64 z => VNum KInt64 z
      | KindUint64 z => VNum KUint64 z
      | KindFloat64 bits => VFloat64 bits
      | KindAny (VNil | VOther _) | KindOther _ => VString (show (any_object id))
      | KindAny scalar => scalar
      end
  end.

(** One metadata value per pair, in order: queued in queued mode, else written at once, and
    no other call to Envoy and no other change of the queues. *)
Definition recorded (w : nat) (ns : string) (ps : list (string * any)) (s s' : st) : Prop :=
  if queued w s
  then s_tr s' = s_tr s /\
       qs (s_f s') = set_q_dynamicMetadata
         (q_dynamicMetadata (qs (s_f s)) ++ ((fun '(k, v) => mkMdMut ns k (metadata_form v)) <$> ps)) (qs (s_f s))
  else s_tr s' = s_tr s ++ ((fun '(k, v) => CSetMetadata ns k (metadata_form v)) <$> ps) /\
       qs (s_f s') = qs (s_f s).

Lemma attr_metadata_form k v : attrToMetadataValue (mkAttr k (AnyValue v)) = metadata_form v.
Proof.
  unfold attrToMetadataValue. destruct v as [| | |[]| | |id]; try done. simpl.
  by destruct (any_object id) as [| | | | |[]|].
Qed.

Lemma named_pairs_cons2 k v kvs :
  named_pairs (k :: v :: kvs) =
  match k with VString k => (k, v) :: named_pairs kvs | _ => named_pairs kvs end.
Proof.
  assert (forall n i, omap (pair_at (k :: v :: kvs)) (seq (S i) n) = omap (pair_at kvs) (seq i n)) as Hshift.
  { induction n as [|n IH]; intros i; [done|]. simpl seq. cbn [omap list_omap]. rewrite IH.
    unfold pair_at. by replace (2 * S i) with (S (S (2 * i))) by lia. }
  assert (omap (pair_at kvs) (seq 0 (S (length kvs))) = named_pairs kvs) as Hend.
  { rewrite seq_S, omap_app. simpl. unfold pair_at at 2. rewrite (lookup_ge_None_2 kvs) by lia. apply app_nil_r. }
  rewrite <-(Hshift _ 0) in Hend. unfold named_pairs at 1. simpl length. rewrite <-cons_seq.
  revert Hend. generalize (seq 1 (S (length kvs))). intros tl Htl. change (omap ?f (0 :: tl)) with
    (match f 0 with Some p => p :: omap f tl | None => omap f tl end).
  rewrite Htl. unfold pair_at. simpl. by destruct k.
Qed.

Lemma argsToAttrs_pairs kvs : argsToAttrs kvs = (fun '(k, v) => mkAttr k (AnyValue v)) <$> named_pairs kvs.
Proof.
  revert kvs. fix IH 1. intros [|k [|v kvs]]; [done|by destruct k|].
  rewrite named_pairs_cons2. simpl. rewrite IH. by destruct k.
Qed.

Lemma mirrored_recorded w ns ps s s' :
  mirrored w ns ((fun '(k, v) => mkAttr k (AnyValue v)) <$> ps) s s' -> recorded w ns ps s s'.
Proof.
  unfold mirrored, recorded, metadata_of.
  assert ((fun a => mkMdMut ns (a_Key a) (attrToMetadataValue a)) <$>
          ((fun '(k, v) => mkAttr k (AnyValue v)) <$> ps) =
          (fun '(k, v) => mkMdMut ns k (metadata_form v)) <$> ps) as ->.
  { rewrite <-list_fmap_compose. apply list_fmap_ext. intros _ [k v] _. unfold compose.
    by rewrite attr_metadata_form. }
  destruct (queued w s); [done|]. intros [-> ->]. split; [|done]. f_equal.
  rewrite <-list_fmap_compose. apply list_fmap_ext. by intros _ [k v] _.
Qed.

(** C29: adding log attributes never panics and loses nothing, whatever the types.  For every
    argument list [AddLogAttrs] returns; the pairs read off by position ([2i], [2i+1]) whose
    key is a string, and no others, are appended to the log context in order, each with the
    [slog] value of its value; and with a metadata namespace exactly one metadata value per
    such pair is queued (or, in direct mode, written), in order, under the pair's key: the
    value itself for strings, booleans and numbers (widened to 64 bits), and its printed
    form for the values [SetMetadata] would panic on.  Without a namespace the stream is
    untouched. *)
Theorem log_attrs_never_panic w ns kvs logged s :
  exists s',
    AddLogAttrs w ns kvs logged s =
      Ok (logged ++ ((fun '(k, v) => mkAttr k (AnyValue v)) <$> named_pairs kvs), s') /\
    if decide (ns = "") then s' = s else recorded w ns (named_pairs kvs) s s'.
Proof.
  unfold AddLogAttrs. rewrite argsToAttrs_pairs. case_decide; [by eexists|].
  edestruct (mirror_spec w ns) as (s' & Hm & Hs). exists s'. rewrite Hm. split; [done|].
  by apply mirrored_recorded.
Qed.

(** Three pairs, the middle one without a string key, and an odd last argument. *)
Example pairs_by_position :
  named_pairs [VString "a"; VNum KInt8 1; VBool true; VString "x"; VString "b"; VNil; VString "odd"] =
  [("a", VNum KInt8 1); ("b", VNil)].
Proof. reflexivity. Qed.

(** [SetTypedMetadata] writes a string or a boolean, and different integers differ. *)
Lemma typed_metadata_string w ns key v s s' :
  SetTypedMetadata w ns key v s = Ok s' ->
  match numericToString v with VString _ | VBool _ => True | _ => False end.
Proof. unfold SetTypedMetadata, SetMetadata. by destruct v. Qed.

Lemma typed_metadata_inj k k' z z' :
  numericToString (VNum k z) = numericToString (VNum k' z') -> z = z'.
Proof. simpl. intros Heq. injection Heq as Heq. by apply (inj pretty). Qed.

(** The levels of [slog] map in order. *)
Lemma slogLevelToUp_mono l l' : (l <= l')%Z -> (slogLevelToUp l <= slogLevelToUp l')%Z.
Proof.
  unfold slogLevelToUp, LogTrace, LogDebug, LogInfo, LogWarn, LogError, LogCritical.
  intros. repeat match goal with |- context [(?a <=? ?b)%Z] => destruct (Z.leb_spec a b) end; lia.
Qed.

(** A nested group replaces the outer one, and attributes added inside a group are printed
    without its name. *)
Lemma nested_group_replaces outer h : WithGroup "inner" (WithGroup outer h) = WithGroup "inner" h.
Proof. done. Qed.

Lemma group_attrs_unqualified g a message s :
  log_line (WithAttrs [a] (WithGroup g (Slog []))) message [] s = log_line (WithAttrs [a] (Slog [])) message [] s.
Proof. done. Qed.
End logging.
