(* ===== verification/StaticCluster.v ===== *)
(** * StaticCluster: clusters with the hosts of their configuration
    (examples/cluster-least-conn, examples/cluster-filter-state, examples/metadata,
    e2e/filters/cluster.go)

    The clusters parse a list of hosts, add them to Envoy and mark them healthy; they
    differ in how a host is chosen.  Two of them are steered by an HTTP filter in front: what
    the filter writes to the filter state is what the cluster reads. *)
From stdpp Require Import base list gmap strings sets.
From Stdlib Require Import ZArith Lia.
From S2P Require Import Prelude GoStrings Async StreamObject Envoy Grpc FilterState Filter FilterFacts FlushProps CalloutProps CalloutGate HostSet Logging.

(** ** Envoy's hosts *)

(** A host of priority 0; [UpdateHostHealth] sets its state. *)
Record host := mkHost { h_ptr : HostPtr; h_addr : string; h_weight : Z; h_health : Z }.

Definition healthy (h : host) : Prop := h_health h = HostHealthy.
#[export] Instance healthy_dec h : Decision (healthy h) := decide (h_health h = HostHealthy).

Class HostTable (C : Type) := {
  ht_AddHosts : list HostSpec -> C -> list HostPtr * C;
  ht_UpdateHostHealth : HostPtr -> Z -> C -> C;
  ht_hosts : C -> list host;
}.

Definition set_health (p : HostPtr) (state : Z) (h : host) : host :=
  if decide (h_ptr h = p) then mkHost (h_ptr h) (h_addr h) (h_weight h) state else h.

(** Hosts are added at the end, with new pointers that are not nil, or Envoy refuses the batch:
    then none is added and the pointers are nil.  A health update changes the host of that
    pointer. *)
Class HostTableLaws (C : Type) `{HostTable C} : Prop := {
  ht_added : forall specs c ps c', ht_AddHosts specs c = (ps, c') ->
    (ps = replicate (length specs) 0%Z /\ ht_hosts c' = ht_hosts c) \/
    (length ps = length specs /\ NoDup ps /\ Forall (fun p => p <> 0%Z /\ p ∉ (h_ptr <$> ht_hosts c)) ps /\
     exists st0, ht_hosts c' = ht_hosts c ++ zip_with (fun p s => mkHost p (Address s) (Weight s) st0) ps specs);
  ht_updated : forall p state c, ht_hosts (ht_UpdateHostHealth p state c) = set_health p state <$> ht_hosts c;
}.

(** Envoy took the batch. *)
Definition taken (ps : list HostPtr) : Prop := ps <> [] /\ 0%Z ∉ ps.

(** What a worker sees of them. *)
Section worker.
Context {C : Type} `{HostTable C}.

Definition ptr_at (hs : list host) (i : nat) : HostPtr := match hs !! i with Some h => h_ptr h | None => 0%Z end.
Definition HostCount (c : C) : nat := length (ht_hosts c).
Definition Host (c : C) (i : nat) : HostPtr := ptr_at (ht_hosts c) i.
Definition HealthyHostCount (c : C) : nat := length (base.filter healthy (ht_hosts c)).
Definition HealthyHost (c : C) (i : nat) : HostPtr := ptr_at (base.filter healthy (ht_hosts c)) i.
Definition FindByAddress (a : string) (c : C) : HostPtr :=
  match list_find (fun h => h_addr h = a) (ht_hosts c) with Some (_, h) => h_ptr h | None => 0%Z end.
End worker.

(** ** Configurations *)

Record hostConfig := mkHostConfig { hc_Address : string; hc_Weight : Z }.

(** The loop over the hosts, the [i]-th first. *)
Fixpoint check_hosts (prefix : string) (i : nat) (hosts : list hostConfig) : string + list HostSpec :=
  match hosts with
  | [] => inr []
  | h :: rest =>
      if decide (hc_Address h = "")
      then inl (prefix +:+ ": host " +:+ pretty.pretty i +:+ " address is required")
      else match check_hosts prefix (S i) rest with
           | inl e => inl e
           | inr specs => inr (mkSpec (hc_Address h) "" (hc_Weight h) ∅ :: specs)
           end
  end.

(** [parseHosts] of a package: its prefix, how many hosts it wants, and what it says of fewer. *)
Definition parse_hosts (prefix few : string) (least : nat) (unmarshal : string -> string + list hostConfig) (config : string) :
    string + list HostSpec :=
  if decide (config = "") then inl (prefix +:+ ": config must include at least one host")
  else match unmarshal config with
       | inl err => inl (prefix +:+ ": parse config: " +:+ err)
       | inr hosts => if length hosts <? least then inl (prefix +:+ ": " +:+ few) else check_hosts prefix 0 hosts
       end.

Definition leastConn_parseHosts := parse_hosts "cluster-least-conn" "config must include at least one host" 1.
Definition filterState_parseHosts := parse_hosts "cluster-filter-state" "config must include at least one host" 1.
Definition metadata_parseHosts := parse_hosts "metadata-hosts" "config must include at least two hosts (standard, premium)" 2.

Lemma check_hosts_spec prefix hosts : forall i,
  match check_hosts prefix i hosts with
  | inl _ => Exists (fun h => hc_Address h = "") hosts
  | inr specs => specs = (fun h => mkSpec (hc_Address h) "" (hc_Weight h) ∅) <$> hosts /\ Forall (fun h => hc_Address h <> "") hosts
  end.
Proof.
  induction hosts as [|h hosts IH]; intros i; cbn [check_hosts]; [done|]. case_decide as Ha; [by left|].
  specialize (IH (S i)). destruct (check_hosts prefix (S i) hosts) as [e|specs]; [by right|].
  destruct IH as [-> IH]. split; [done | by constructor].
Qed.

(** ** Initialisation *)

Section init.
Context {C : Type} `{HostTable C}.

(** [Init] of all of them: the pointers and the table, before [PreInitComplete]. *)
Definition Init (hosts : list HostSpec) (c : C) : list HostPtr * C :=
  let '(ptrs, c) := ht_AddHosts hosts c in
  (ptrs, foldl (fun c p => ht_UpdateHostHealth p HostHealthy c) c ptrs).

(** ** Choosing *)

(** e2e/filters: the first healthy host. *)
Definition firstHealthy_ChooseHost (c : C) : HostPtr :=
  if decide (HealthyHostCount c = 0) then 0%Z else HealthyHost c 0.

(** examples/metadata: by the tier in the filter state. *)
Definition resolveTierIndex (tier : string) : nat := if decide (tier = "premium") then 1 else 0.
Definition tierFromCtx (fs : option string) : string := match fs with Some tier => tier | None => "" end.

Definition metadataLB_ChooseHost (fs : option string) (c : C) : HostPtr :=
  let idx := resolveTierIndex (tierFromCtx fs) in
  let count := HostCount c in
  if decide (count = 0) then 0%Z
  else Host c (if count <=? idx then 0 else idx).

(** examples/cluster-filter-state: the loop over the configured hosts, the lookup, the first
    healthy host. *)
Fixpoint match_spec (target : string) (hosts : list HostSpec) (ptrs : list HostPtr) (i : nat) : option HostPtr :=
  match hosts with
  | [] => None
  | spec :: rest =>
      if decide (Address spec = target /\ i < length ptrs) then ptrs !! i else match_spec target rest ptrs (S i)
  end.

Definition filterState_ChooseHost (hosts : list HostSpec) (ptrs : list HostPtr) (fs : option string) (c : C) : HostPtr :=
  let fallback := if decide (HealthyHostCount c = 0) then 0%Z else HealthyHost c 0 in
  match fs with
  | Some target =>
      if decide (target = "") then fallback
      else match match_spec target hosts ptrs 0 with
           | Some p => p
           | None => let p := FindByAddress target c in if decide (p <> 0%Z) then p else fallback
           end
  | None => fallback
  end.
End init.

(** ** The filters in front *)

Definition targetKey : string := "transit.target_host".

(** examples/cluster-filter-state. *)
Definition filterState_handler (_ : Request) : prog :=
  PQuery (QHeader "x-target-host") (fun target =>
    if decide (target <> "") then PAct (ASetFilterState targetKey target) PRet else PRet).

Definition metaNS : string := "example.routing".
Definition metaKey : string := "tier".
Definition fsKey : string := "meta.tier".

(** examples/metadata; [route_tier] is what the route's metadata holds. *)
Definition metadata_handle (route_tier : option string) (_ : Request) : prog :=
  let tier := default "" route_tier in
  let tier := if decide (tier = "") then "standard" else tier in
  PAct (ASetFilterState fsKey tier)
 (PAct (ASetMetadata metaNS metaKey (VString tier))
 (PAct (ALog LogInfo ("metadata-router: tier=" +:+ tier)) PRet)).

(** examples/header-router. *)
Definition ResolveHost (header ha hb : string) : option string :=
  if decide (header = "a") then Some ha else if decide (header = "b") then Some hb else None.

Definition headerRouter_Handler (hostA hostB : string) (_ : Request) : prog :=
  PQuery (QHeader "x-route-to") (fun h =>
    match ResolveHost h hostA hostB with
    | Some addr => PQuery (QSetUpstreamOverrideHost addr false) (fun _ => PRet)
    | None => PRet
    end).

(** The filter state that Envoy holds after some calls: the last one set. *)
Definition stored (tr : list call) (key : string) : option string :=
  foldl (fun acc c => match c with
                      | CSetFilterState k v => if decide (k = key) then Some (String.string_of_list_byte v) else acc
                      | _ => acc
                      end) None tr.

(** ** Facts *)

Section facts.
Context {C : Type} `{HostTableLaws C}.

Definition make_healthy (ps : list HostPtr) (h : host) : host :=
  if decide (h_ptr h ∈ ps) then mkHost (h_ptr h) (h_addr h) (h_weight h) HostHealthy else h.

Lemma mark_healthy ps : forall c,
  ht_hosts (foldl (fun c p => ht_UpdateHostHealth p HostHealthy c) c ps) = make_healthy ps <$> ht_hosts c.
Proof.
  induction ps as [|p ps IH]; intros c; cbn [foldl].
  - unfold make_healthy. rewrite <-(list_fmap_id (ht_hosts c)) at 1. apply list_fmap_ext. intros i h _.
    by rewrite decide_False by apply not_elem_of_nil.
  - rewrite IH, ht_updated, <-list_fmap_compose. apply list_fmap_ext. intros i h _. cbn. unfold make_healthy, set_health.
    destruct (decide (h_ptr h = p)) as [->|Hne]; cbn.
    + rewrite (decide_True (P := p ∈ p :: ps)) by set_solver. by case_decide.
    + destruct (decide (h_ptr h ∈ ps)); [by rewrite decide_True by set_solver | by rewrite decide_False by set_solver].
Qed.

(** After [Init] on a new cluster the table is the configuration, healthy, in order. *)
Lemma static_Init_spec hosts c ps c' :
  Init hosts c = (ps, c') -> ht_hosts c = [] -> taken ps ->
  length ps = length hosts /\ Forall (fun p => p <> 0%Z) ps /\
  ht_hosts c' = zip_with (fun p s => mkHost p (Address s) (Weight s) HostHealthy) ps hosts.
Proof.
  unfold Init. destruct (ht_AddHosts hosts c) as [ps1 c1] eqn:Ha. intros [= -> <-] Hn Hne.
  apply ht_added in Ha as [[-> _]|(Hl & _ & Hf & st0 & Hh)].
  { destruct Hne as [Hne Hz]. destruct hosts; [done|]. destruct Hz. by left. }
  split; [done|].
  split; [eapply Forall_impl; [exact Hf | by intros p [? _]]|].
  rewrite mark_healthy, Hh, Hn, app_nil_l. unfold make_healthy.
  apply list_eq. intros i. rewrite list_lookup_fmap, !lookup_zip_with. destruct (ps !! i) as [p|] eqn:Hp; cbn; [|done].
  destruct (hosts !! i); cbn; [|done]. by rewrite decide_True by by eapply list_elem_of_lookup_2.
Qed.

Lemma table_all_healthy ps hosts (c : C) :
  ht_hosts c = zip_with (fun p s => mkHost p (Address s) (Weight s) HostHealthy) ps hosts ->
  base.filter healthy (ht_hosts c) = ht_hosts c.
Proof.
  intros ->. revert hosts. induction ps as [|p ps IH]; intros [|s hosts]; cbn [zip_with]; try done.
  rewrite filter_cons_True by done. by rewrite IH.
Qed.

Lemma table_at ps hosts (c : C) i p s :
  ht_hosts c = zip_with (fun p s => mkHost p (Address s) (Weight s) HostHealthy) ps hosts ->
  ps !! i = Some p -> hosts !! i = Some s -> ht_hosts c !! i = Some (mkHost p (Address s) (Weight s) HostHealthy).
Proof. intros -> Hp Hs. by rewrite lookup_zip_with, Hp, Hs. Qed.

Lemma match_spec_some target hosts ptrs : forall i p,
  match_spec target hosts ptrs i = Some p -> exists j s, hosts !! j = Some s /\ Address s = target /\ ptrs !! (i + j) = Some p.
Proof.
  induction hosts as [|s hosts IH]; intros i p; cbn; [done|]. case_decide as Hd.
  - intros Hp. exists 0, s. rewrite Nat.add_0_r. by destruct Hd.
  - intros (j & s' & Hj & Ha & Hp)%IH. exists (S j), s'. split_and!; [done | done | by rewrite Nat.add_succ_r].
Qed.

Lemma match_spec_none target hosts ptrs : forall i,
  length ptrs = i + length hosts -> match_spec target hosts ptrs i = None -> Forall (fun s => Address s <> target) hosts.
Proof.
  induction hosts as [|s hosts IH]; intros i Hl; cbn; [done|]. cbn in Hl. case_decide as Hd.
  - intros Hn. exfalso. apply lookup_ge_None_1 in Hn. lia.
  - intros Hm. constructor; [|apply (IH (S i)); [lia | done]]. intros Ha. apply Hd. split; [done | lia].
Qed.

(** The cluster's choice on its own table. *)
Lemma filterState_choice hosts c ps c' fs :
  Init hosts c = (ps, c') -> ht_hosts c = [] -> taken ps ->
  exists i s, hosts !! i = Some s /\ ps !! i = Some (filterState_ChooseHost hosts ps fs c') /\
    (forall t, fs = Some t -> t <> "" -> Exists (fun s => Address s = t) hosts -> Address s = t) /\
    ((forall t, fs = Some t -> t <> "" -> Forall (fun s => Address s <> t) hosts) -> i = 0).
Proof.
  intros Hi Hn Hne. destruct (static_Init_spec _ _ _ _ Hi Hn Hne) as (Hl & Hz & Hh).
  destruct ps as [|p0 ps0] eqn:Hps; [by destruct Hne|]. rewrite <-Hps in *. destruct hosts as [|s0 hosts0] eqn:Hhs; [by rewrite Hps in Hl|].
  rewrite <-Hhs in *.
  assert (Hfb : (if decide (HealthyHostCount c' = 0) then 0%Z else HealthyHost c' 0) = p0).
  { unfold HealthyHostCount, HealthyHost. rewrite (table_all_healthy _ _ _ Hh). rewrite Hh, Hps, Hhs. cbn. done. }
  assert (Hz0 : hosts !! 0 = Some s0 /\ ps !! 0 = Some p0) by (by rewrite Hhs, Hps).
  unfold filterState_ChooseHost. cbv zeta. rewrite Hfb. destruct fs as [t|].
  2:{ exists 0, s0. split_and!; [apply Hz0 | apply Hz0 | done | done]. }
  destruct (decide (t = "")) as [->|Ht].
  { exists 0, s0. split_and!; [apply Hz0 | apply Hz0 | by intros ? [= <-] | done]. }
  destruct (match_spec t hosts ps 0) as [p|] eqn:Hm.
  - apply match_spec_some in Hm as (j & s & Hj & Ha & Hp). cbn in Hp. exists j, s. split_and!; [done | done | by intros ? [= <-]|].
    intros Hall. specialize (Hall t eq_refl Ht). rewrite Forall_lookup in Hall. by destruct (Hall j s Hj).
  - apply match_spec_none in Hm; [|lia].
    assert (Hf : FindByAddress t c' = 0%Z).
    { unfold FindByAddress. destruct (list_find _ _) as [[j h]|] eqn:Hfd; [|done].
      apply list_find_Some in Hfd as (Hj & Ha & _). rewrite Hh, lookup_zip_with in Hj.
      destruct (ps !! j), (hosts !! j) as [s|] eqn:Hs; cbn in Hj; try done. injection Hj as <-.
      rewrite Forall_lookup in Hm. by destruct (Hm j s Hs). }
    rewrite Hf, decide_False by (intros Hx; by apply Hx). exists 0, s0. split_and!; [apply Hz0 | apply Hz0 | | done].
    intros t' [= <-] _ He. exfalso. apply Exists_exists in He as (s & Hs & Ha). rewrite Forall_forall in Hm. by destruct (Hm s Hs).
Qed.

(** A configured host is found by its address. *)
Lemma find_table ps hosts (c : C) i spec :
  ht_hosts c = zip_with (fun p s => mkHost p (Address s) (Weight s) HostHealthy) ps hosts ->
  (forall j p, ps !! j = Some p -> p <> 0%Z) -> length ps = length hosts -> hosts !! i = Some spec ->
  FindByAddress (Address spec) c <> 0%Z.
Proof.
  intros Hh Hz Hl Hs. destruct (lookup_lt_is_Some_2 ps i) as [p Hp]; [rewrite Hl; by eapply lookup_lt_Some|].
  unfold FindByAddress. destruct (list_find _ _) as [[j h]|] eqn:Hf.
  - apply list_find_Some in Hf as (Hj & _ & _). rewrite Hh, lookup_zip_with in Hj.
    destruct (ps !! j) as [q|] eqn:Hq; [|done]. cbn in Hj. destruct (hosts !! j); [|done]. injection Hj as <-. by eapply Hz.
  - apply list_find_None in Hf. rewrite Forall_lookup in Hf. exfalso. eapply (Hf i); [by eapply table_at | done].
Qed.
End facts.

(** A handler without callouts that only queued mutations. *)
Lemma end_plain E r w s :
  calloutStarted (writer w s) = false -> goStarted (s_f s) = false -> localReply (s_f s) = None ->
  stripFramingOnResume (s_f s) = false -> hasRequestBodyReplacement (s_f s) = false ->
  exists s1, request_end (with_callout E r) w s = Ok (HeadersStatusContinue, s1) /\
    s_tr s1 = s_tr s ++ queue_calls (qs (s_f s)) false.
Proof.
  intros Hw Hg Hl Hs Hb. unfold request_end, pausePendingCallout, flushCompletedCallout. rewrite Hw. cbn iota beta. rewrite Hw, Hg.
  rewrite flush_filter by done. eexists. split; [reflexivity|].
  rewrite flush_trace by done. by rewrite Hb, Hs, !app_nil_r.
Qed.

Lemma stored_app tr k key : stored (tr ++ k) key = match stored k key with Some v => Some v | None => stored tr key end.
Proof.
  unfold stored. rewrite foldl_app. generalize (foldl (fun acc c => match c with
    | CSetFilterState k v => if decide (k = key) then Some (String.string_of_list_byte v) else acc | _ => acc end) None tr) as a.
  intros a. revert a. induction k as [|c k IH] using rev_ind; intros a; [done|]. rewrite !foldl_app. cbn.
  destruct c; try apply IH. case_decide; [done | apply IH].
Qed.

(** The end of a callback whose writer and queues are known. *)
Ltac queued_end Hw Hqs :=
  cbn [mbind res_bind];
  match goal with |- context [request_end (with_callout ?E ?r) ?w ?x] =>
    let s1 := fresh "s1" in let He := fresh "He" in let Htr := fresh "Htr" in
    destruct (end_plain E r w x) as (s1 & He & Htr);
      [unfold writer in *; cbn; by rewrite Hw | done | done | done | done
      | exists s1; split; [exact He|]; rewrite Htr; cbn; rewrite Hqs; cbn ]
  end.

(** The three handlers only queue mutations: the request goes on, after their calls. *)
Section steering.
Context (E : Envoy).

Definition steered (r : Z * option CalloutDelivery) (s : st) (calls : list call) : Prop :=
  exists s1, OnRequestHeaders (with_callout E r) false s = Ok (HeadersStatusContinue, s1) /\ s_tr s1 = s_tr s ++ calls.

Definition filterState_calls (target : string) : list call :=
  if decide (target <> "") then [CSetFilterState targetKey (String.list_byte_of_string target)] else [].

Lemma filterState_handler_steers r s :
  idle_stream s -> handler (cfg (s_f s)) = filterState_handler ->
  steered r s (filterState_calls (ev_request_header E (s_tr s) "x-target-host")).
Proof.
  intros Hi Hh. unfold steered. rewrite OnRequestHeaders_plain by apply Hi. rewrite Hh.
  destruct (idle_ready E s Hi) as [[Hw Hb Hd Hg (Hl & Hqs & Hs & Hbr & Hst)] Ht].
  unfold filterState_handler, filterState_calls. cbn [run do_query].
  change (ev_request_header (with_callout E r)) with (ev_request_header E). rewrite Ht.
  set (s0 := request_start E s) in *. set (w := length (s_ws s)) in *. clearbody s0 w.
  case_decide; cbn [run do_act mbind res_bind]; [unfold SetFilterState, queued; rewrite Hw; cbn [directWrite negb orb]|].
  - queued_end Hw Hqs; by rewrite Ht.
  - queued_end Hw Hqs; by rewrite Ht, app_nil_r.
Qed.

Lemma metadata_handle_steers route_tier r s :
  idle_stream s -> handler (cfg (s_f s)) = metadata_handle route_tier ->
  let tier := if decide (default "" route_tier = "") then "standard" else default "" route_tier in
  steered r s [CLog LogInfo ("metadata-router: tier=" +:+ tier); CSetFilterState fsKey (String.list_byte_of_string tier);
               CSetMetadata metaNS metaKey (VString tier)].
Proof.
  intros Hi Hh tier. unfold steered. rewrite OnRequestHeaders_plain by apply Hi. rewrite Hh.
  destruct (idle_ready E s Hi) as [[Hw Hb Hd Hg (Hl & Hqs & Hs & Hbr & Hst)] Ht].
  unfold metadata_handle. fold tier. cbv zeta. fold tier.
  set (s0 := request_start E s) in *. set (w := length (s_ws s)) in *. clearbody s0 w.
  cbn [run do_act mbind res_bind]. unfold SetFilterState, SetMetadata, queued. rewrite Hw. cbn [directWrite negb orb metadata_ok].
  match goal with |- context [if negb (directWrite (writer w ?x)) || _ || _ then _ else _] =>
    replace (writer w x) with (mkWriter false false false) by (unfold writer in *; cbn; by rewrite Hw) end.
  cbn [directWrite negb orb mbind res_bind].
  queued_end Hw Hqs. by rewrite Ht, <-app_assoc.
Qed.

Lemma headerRouter_steers hostA hostB r s :
  idle_stream s -> handler (cfg (s_f s)) = headerRouter_Handler hostA hostB ->
  steered r s (match ResolveHost (ev_request_header E (s_tr s) "x-route-to") hostA hostB with
               | Some addr => [CSetUpstreamOverrideHost addr false]
               | None => []
               end).
Proof.
  intros Hi Hh. unfold steered. rewrite OnRequestHeaders_plain by apply Hi. rewrite Hh.
  destruct (idle_ready E s Hi) as [[Hw Hb Hd Hg (Hl & Hqs & Hs & Hbr & Hst)] Ht].
  unfold headerRouter_Handler. cbn [run do_query].
  change (ev_request_header (with_callout E r)) with (ev_request_header E). rewrite Ht.
  set (s0 := request_start E s) in *. set (w := length (s_ws s)) in *. clearbody s0 w.
  destruct (ResolveHost _ _ _) as [addr|]; cbn [run do_query mbind res_bind].
  - unfold SetUpstreamOverrideHost, queued. rewrite Hw. cbn [directWrite negb orb fst snd run].
        queued_end Hw Hqs; by rewrite Ht.
  - queued_end Hw Hqs; by rewrite Ht, app_nil_r.
Qed.
End steering.

Lemma filterState_stored tr target :
  stored tr targetKey = None ->
  stored (tr ++ filterState_calls target) targetKey = if decide (target = "") then None else Some target.
Proof.
  intros Hn. rewrite stored_app, Hn. unfold filterState_calls. destruct (decide (target = "")) as [->|Ht].
  - by rewrite decide_False by (intros H; by apply H).
  - rewrite decide_True by done. cbn. by rewrite String.string_of_list_byte_of_string.
Qed.

Lemma parse_hosts_spec prefix few least unmarshal config hosts :
  parse_hosts prefix few least unmarshal config = inr hosts ->
  least <= length hosts /\ Forall (fun s => Address s <> "") hosts.
Proof.
  unfold parse_hosts. case_decide; [done|]. destruct (unmarshal config) as [e|hs]; [done|].
  destruct (Nat.ltb_spec (length hs) least); [done|]. pose proof (check_hosts_spec prefix hs 0) as Hc.
  intros Heq. rewrite Heq in Hc. destruct Hc as [-> Hf]. rewrite length_fmap. split; [done|].
  by apply Forall_fmap.
Qed.

(** The filter's header steers the cluster.  Once the cluster of a configuration is
    initialised and Envoy has taken its hosts, the filter forwards every request, and the host chosen for it is one of the
    configured hosts, never nil: the one the [x-target-host] header names when it is in the
    configuration, and the first one otherwise. *)
Theorem target_host_is_chosen {C} `{HostTableLaws C} E r s unmarshal config hosts (c : C) ps c' :
  idle_stream s -> handler (cfg (s_f s)) = filterState_handler -> stored (s_tr s) targetKey = None ->
  filterState_parseHosts unmarshal config = inr hosts -> ht_hosts c = [] -> Init hosts c = (ps, c') -> taken ps ->
  let target := ev_request_header E (s_tr s) "x-target-host" in
  exists s1 i spec, OnRequestHeaders (with_callout E r) false s = Ok (HeadersStatusContinue, s1) /\
    let chosen := filterState_ChooseHost hosts ps (stored (s_tr s1) targetKey) c' in
    chosen <> 0%Z /\ ps !! i = Some chosen /\ hosts !! i = Some spec /\
    FindByAddress (Address spec) c' <> 0%Z /\
    (if decide (Exists (fun h => Address h = target) hosts) then Address spec = target else i = 0).
Proof.
  intros Hi Hh Hn Hp Hc Hin Hne target. apply parse_hosts_spec in Hp as [_ Ha].
  destruct (filterState_handler_steers E r s Hi Hh) as (s1 & Ho & Ht). fold target in Ht. clearbody target.
  destruct (filterState_choice hosts c ps c' (stored (s_tr s1) targetKey) Hin Hc Hne) as (i & spec & Hs & Hch & H1 & H2).
  exists s1, i, spec. split; [exact Ho|]. cbv zeta. destruct (static_Init_spec _ _ _ _ Hin Hc Hne) as (Hl & Hz & Htab).
  rewrite Forall_lookup in Hz. split_and!; [by eapply Hz | done | done | |].
  - by eapply find_table.
  - rewrite Ht, filterState_stored in H1, H2 by done. destruct (decide (Exists _ hosts)) as [Hex|Hex].
    + assert (target <> "") as Hte.
      { intros Heq. apply Exists_exists in Hex as (x & Hx & He). rewrite Forall_forall in Ha. apply (Ha x Hx). by rewrite He. }
      rewrite decide_False in H1 by done. by apply (H1 target).
    + apply H2. intros t Hst _. case_decide; [done|]. injection Hst as <-. apply Forall_forall. intros x Hx He. apply Hex, Exists_exists. by exists x.
Qed.

(** The metadata filter and its cluster: a route of tier premium goes to the second host, any
    other to the first. *)
Lemma tier_picks_host {C} `{HostTableLaws C} E route_tier r s unmarshal config hosts (c : C) ps c' :
  idle_stream s -> handler (cfg (s_f s)) = metadata_handle route_tier -> stored (s_tr s) fsKey = None ->
  metadata_parseHosts unmarshal config = inr hosts -> ht_hosts c = [] -> Init hosts c = (ps, c') -> taken ps ->
  exists s1, OnRequestHeaders (with_callout E r) false s = Ok (HeadersStatusContinue, s1) /\
    ps !! (if decide (route_tier = Some "premium") then 1 else 0) = Some (metadataLB_ChooseHost (stored (s_tr s1) fsKey) c').
Proof.
  intros Hi Hh Hn Hp Hc Hin Hne. apply parse_hosts_spec in Hp as [H2 _].
  destruct (metadata_handle_steers E route_tier r s Hi Hh) as (s1 & Ho & Ht). exists s1. split; [exact Ho|].
  rewrite Ht, stored_app, Hn. unfold stored. cbn [foldl]. rewrite (decide_True (P := fsKey = fsKey)) by done. rewrite String.string_of_list_byte_of_string.
  destruct (static_Init_spec _ _ _ _ Hin Hc Hne) as (Hl & _ & Htab).
  unfold metadataLB_ChooseHost, HostCount, Host, ptr_at, tierFromCtx. cbv zeta. rewrite Htab, length_zip_with, Hl, Nat.min_id.
  rewrite (decide_False (P := length hosts = 0)) by lia.
  assert (Hix : resolveTierIndex (if decide (default "" route_tier = "") then "standard" else default "" route_tier) =
                if decide (route_tier = Some "premium") then 1 else 0).
  { unfold resolveTierIndex. destruct route_tier as [t|]; cbn; [|done]. destruct (decide (t = "premium")) as [->|Hne']; [done|].
    rewrite (decide_False (P := Some t = Some "premium")) by congruence. destruct (decide (t = "")); [done|]. by rewrite decide_False. }
  rewrite Hix. set (i := if decide (route_tier = Some "premium") then 1 else 0).
  assert (i <= 1) by (unfold i; destruct (decide (route_tier = Some "premium")); lia).
  destruct (Nat.leb_spec (length hosts) i); [lia|]. rewrite lookup_zip_with.
  destruct (lookup_lt_is_Some_2 ps i) as [p ->]; [lia|]. destruct (lookup_lt_is_Some_2 hosts i) as [h ->]; [lia | done].
Qed.

(** ** Witness *)

(** A table that hands out pointers in order. *)
#[export] Instance list_table : HostTable (list host) := {|
  ht_AddHosts specs c :=
    let ps := (fun i => Z.of_nat (S i)) <$> seq (foldr (fun h n => Z.to_nat (h_ptr h) `max` n) 0 c) (length specs) in
    (ps, c ++ zip_with (fun p s => mkHost p (Address s) (Weight s) HostUnhealthy) ps specs);
  ht_UpdateHostHealth p state c := set_health p state <$> c;
  ht_hosts c := c;
|}.

#[export] Instance list_table_laws : HostTableLaws (list host).
Proof.
  split; [|done]. intros specs c ps c' Heq. injection Heq as <- <-. right. split_and!.
  - by rewrite length_fmap, length_seq.
  - apply NoDup_fmap_2_strong; [intros; lia | apply NoDup_seq].
  - apply Forall_fmap, Forall_seq. intros j [Hj _]. cbn. split; [lia|]. intros (h & Hp & Hh)%list_elem_of_fmap.
    assert (Z.to_nat (h_ptr h) <= foldr (fun h n => Z.to_nat (h_ptr h) `max` n) 0 c).
    { clear -Hh. induction c as [|x c IH]; [by apply not_elem_of_nil in Hh|]. cbn. apply elem_of_cons in Hh as [->|Hh]; [lia|].
      specialize (IH Hh). lia. }
    lia.
  - by exists HostUnhealthy.
Qed.

Definition demo_hosts (_ : string) : string + list hostConfig := inr [mkHostConfig "10.0.0.1:80" 1; mkHostConfig "10.0.0.2:80" 1].
Definition steered_stream : st := newStream (onlyRequest filterState_handler).

Lemma target_host_is_chosen_witness :
  filterState_ChooseHost [mkSpec "10.0.0.1:80" "" 1 ∅; mkSpec "10.0.0.2:80" "" 1 ∅] [1%Z; 2%Z] (Some "10.0.0.2:80")
    (Init [mkSpec "10.0.0.1:80" "" 1 ∅; mkSpec "10.0.0.2:80" "" 1 ∅] ([] : list host)).2 = 2%Z /\
  exists s1 i, OnRequestHeaders (with_callout (simEnvoy [("x-target-host", "10.0.0.2:80")] (0%Z, None)) (0%Z, None)) false
      steered_stream = Ok (HeadersStatusContinue, s1) /\
    [1%Z; 2%Z] !! i = Some (filterState_ChooseHost [mkSpec "10.0.0.1:80" "" 1 ∅; mkSpec "10.0.0.2:80" "" 1 ∅] [1%Z; 2%Z]
      (stored (s_tr s1) targetKey) (Init [mkSpec "10.0.0.1:80" "" 1 ∅; mkSpec "10.0.0.2:80" "" 1 ∅] ([] : list host)).2).
Proof.
  split; [vm_compute; reflexivity|].
  destruct (target_host_is_chosen (simEnvoy [("x-target-host", "10.0.0.2:80")] (0%Z, None)) (0%Z, None) steered_stream demo_hosts "x"
    [mkSpec "10.0.0.1:80" "" 1 ∅; mkSpec "10.0.0.2:80" "" 1 ∅] ([] : list host) [1%Z; 2%Z]
    (Init [mkSpec "10.0.0.1:80" "" 1 ∅; mkSpec "10.0.0.2:80" "" 1 ∅] ([] : list host)).2)
    as (s1 & i & spec & Ho & _ & Hp & _); try done.
  { split; [done|]. apply (bool_decide_unpack _). vm_compute. exact I. }
  exists s1, i. split; [exact Ho | exact Hp].
Defined.
