(* ===== verification/McpGateway.v ===== *)
(** * McpGateway: the MCP profile gateway as an Envoy filter (examples/mcp-profile-gateway)

    The profile router rebuilt on transit: one filter that answers a JSON-RPC request by
    HTTP callouts to the catalog servers of a profile.  A handler ends in an [action]: an
    immediate reply, one callout or a batch of callouts with the callback that computes the
    reply; [prog_of] turns an action into the program the [Writer] runs (Filter.v).  What the
    callbacks record for the dump is part of their result.  JSON and [net/url] are
    parameters. *)
From stdpp Require Import base list strings gmap sets sorting pretty.
From Stdlib Require Import ZArith Lia Ascii.
From S2P Require Import Prelude GoStrings Async Envoy FilterState McpSession McpRouter.

(** ** gateway.go: configuration *)

Definition DefaultCatalogCalloutCluster : string := "mcp-profile-gateway-l2".
Definition profileSessionPrefix : string := "mcp-profile-gateway.".

Record ProfileServer := mkProfileServer {
  ps_URL : string;
  ps_Prefix : string;
  CredentialRef : string;
  CredentialEnvelope : string;
  ps_EnabledTools : option (gmap string bool);
}.

#[export] Instance ProfileServer_inhabited : Inhabited ProfileServer :=
  populate (mkProfileServer "" "" "" "" None).

Record Profile := mkGwProfile {
  p_Name : string;
  p_APIKey : string;
  p_Servers : gmap string ProfileServer;
}.

Record CatalogServer := mkCatalog { cat_URL : string; cat_Cluster : string }.

#[export] Instance CatalogServer_inhabited : Inhabited CatalogServer := populate (mkCatalog "" "").

Record Config := mkConfig {
  cfg_TimeoutMillis : Z;
  Profiles : gmap string Profile;
  CatalogServers : gmap string CatalogServer;
}.

Record profileSession := mkProfileSession {
  ProfileID : string;
  Backends : gmap string string;
}.

(** [url.URL]: the components the gateway reads. *)
Record url := mkURL {
  u_Scheme : string;
  u_Host : string;
  u_User : bool;
  u_RequestURI : string;
  u_redacted : string;
}.

(** [net/url]: [Parse] with its error, [PathEscape] and [PathUnescape]; [u_redacted] is the
    string of the URL without user information and query. *)
Class NetURL := {
  url_Parse : string -> string + url;
  PathEscape : string -> string;
  PathUnescape : string -> string + string;
}.

(** [encoding/json] on the types of the gateway; an error of [Marshal] is [None]. *)
Class GwJson := {
  gw_request : bytes -> option JSONRPCRequest;
  gw_call_params : json -> option CallToolParams;
  marshal_call_params : CallToolParams -> option json;
  marshal_request : JSONRPCRequest -> option bytes;
  marshal_response : JSONRPCResponse -> option bytes;
  marshal_session : profileSession -> option bytes;
  unmarshal_session : bytes -> option profileSession;
  (** a response body: its error and result, or why it does not decode *)
  unmarshal_response : bytes -> string + (option JSONRPCError * json);
  unmarshal_init : json -> string + InitializeResult;
  unmarshal_tools : json -> string + list Tool;
}.

Definition serverPrefix (serverID : string) (server : ProfileServer) : string :=
  if decide (ps_Prefix server <> "") then ps_Prefix server else serverID.

Definition profileToolEnabled (server : ProfileServer) (name : string) : bool :=
  match ps_EnabledTools server with
  | None => true
  | Some m => default false (m !! name)
  end.

(** The errors of [ValidateConfig], one constructor per message. *)
Inductive config_error :=
  | IDRequired (kind : string)
  | ContainsSlash (kind value : string)
  | ContainsDot (kind value : string)
  | URLRequired (kind id : string)
  | URLNotAbsolute (kind id : string)
  | URLUserinfo (kind id : string)
  | NoCatalogServers
  | ProfileIDRequired
  | ProfileNameRequired (profileID : string)
  | ProfileNoServers (profileID : string)
  | ServerNotInCatalog (profileID serverID : string)
  | PrefixContainsDot (profileID serverID prefix : string)
  | DuplicatePrefix (profileID prefix owner serverID : string).

Definition validateSlug (kind value : string) : option config_error :=
  if decide (TrimSpace value = "") then Some (IDRequired kind)
  else if Contains value "/" then Some (ContainsSlash kind value)
  else if Contains value "." then Some (ContainsDot kind value)
  else None.

Section config.
Context `{NetURL}.

Definition validateURL (kind id raw : string) : option config_error :=
  if decide (TrimSpace raw = "") then Some (URLRequired kind id)
  else
    match url_Parse raw with
    | inl _ => Some (URLNotAbsolute kind id)
    | inr u =>
        if decide (u_Scheme u = "" \/ u_Host u = "") then Some (URLNotAbsolute kind id)
        else if u_User u then Some (URLUserinfo kind id)
        else None
    end.

(** [if err := e; err != nil { return err }]. *)
Definition or_else (err : option config_error) (k : option config_error) : option config_error :=
  match err with Some e => Some e | None => k end.

(** The loops of [ValidateConfig]; the first error ends them.  The order in which Go ranges
    over each map is the order of the list. *)
Fixpoint validate_catalog (servers : list (string * CatalogServer)) : option config_error :=
  match servers with
  | [] => None
  | (id, server) :: servers =>
      or_else (validateSlug "catalog server" id)
        (or_else (validateURL "catalog server" id (cat_URL server)) (validate_catalog servers))
  end.

Fixpoint validate_servers (config : Config) (profileID : string) (prefixes : gmap string string)
    (servers : list (string * ProfileServer)) : option config_error :=
  match servers with
  | [] => None
  | (serverID, server) :: servers =>
      or_else (validateSlug "profile server" serverID)
        (or_else (validateURL "profile server" serverID (ps_URL server))
           (if decide (CatalogServers config !! serverID = None) then Some (ServerNotInCatalog profileID serverID)
            else if decide (ps_Prefix server <> "" /\ Contains (ps_Prefix server) "." = true)
            then Some (PrefixContainsDot profileID serverID (ps_Prefix server))
            else
              let prefix := serverPrefix serverID server in
              match prefixes !! prefix with
              | Some owner => Some (DuplicatePrefix profileID prefix owner serverID)
              | None => validate_servers config profileID (<[prefix := serverID]> prefixes) servers
              end))
  end.

(** [server_order] is the order in which the servers of a profile are visited. *)
Fixpoint validate_profiles (config : Config) (server_order : string -> list (string * ProfileServer))
    (profiles : list (string * Profile)) : option config_error :=
  match profiles with
  | [] => None
  | (profileID, profile) :: profiles =>
      if decide (TrimSpace profileID = "") then Some ProfileIDRequired
      else if decide (p_Name profile = "") then Some (ProfileNameRequired profileID)
      else if decide (p_Servers profile = ∅) then Some (ProfileNoServers profileID)
      else or_else (validate_servers config profileID ∅ (server_order profileID))
             (validate_profiles config server_order profiles)
  end.

(** [ValidateConfig]: the error, or [None]. *)
Definition ValidateConfig (config : Config) (catalog_order : list (string * CatalogServer))
    (profile_order : list (string * Profile)) (server_order : string -> list (string * ProfileServer)) :
    option config_error :=
  if decide (CatalogServers config = ∅) then Some NoCatalogServers
  else or_else (validate_catalog catalog_order) (validate_profiles config server_order profile_order).
End config.

(** ** gateway.go: the gateway and its sessions *)

(** [CatalogDump]: what the dump says of a catalog server. *)
Record CatalogDump := mkCatalogDump { cd_Target : string; LastRequest : string }.

(** What a handler records: a server and its state, in the order of the calls of [record]. *)
Abbreviation records := (list (string * string)).

(** [g.record(id, server, state)] of every entry: the server is the catalog's. *)
Definition record_all (config : Config) (rs : records) (servers : gmap string CatalogDump) :
    gmap string CatalogDump :=
  foldl (fun m '(id, state) =>
           <[id := mkCatalogDump (cat_URL (CatalogServers config !!! id)) state]> m) servers rs.

(** [base64.RawURLEncoding]: the standard alphabet with [-] and [_], without padding. *)
Definition url_char (c : ascii) : ascii :=
  if decide (c = "+"%char) then "-"%char else if decide (c = "/"%char) then "_"%char else c.
Definition std_char (c : ascii) : ascii :=
  if decide (c = "-"%char) then "+"%char else if decide (c = "_"%char) then "/"%char else c.

Definition RawURL_encode (l : chars) : chars :=
  url_char <$> base.filter (fun c => c <> "="%char) (Base64.encode l).

(** Decoding ignores line breaks; the padding the standard decoder wants is put back, and
    characters of the standard alphabet only, or of none, are refused. *)
Definition RawURL_decode (l : chars) : option chars :=
  let l := base.filter (fun c => code c <> 10%N /\ code c <> 13%N) l in
  if decide (Exists (fun c => c = "+"%char \/ c = "/"%char \/ c = "="%char) l) then None
  else match (length l) mod 4 with
       | 0 => Base64.decode_quanta (std_char <$> l)
       | 2 => Base64.decode_quanta ((std_char <$> l) ++ ["="; "="]%char)
       | 3 => Base64.decode_quanta ((std_char <$> l) ++ ["="]%char)
       | _ => None
       end.

Section sessions.
Context `{GwJson}.

Definition bytes_to_chars (b : bytes) : chars := to_chars (String.string_of_list_byte b).
Definition chars_to_bytes (l : chars) : bytes := String.list_byte_of_string (of_chars l).

(** [encodeProfileSession]: [None] when the session does not marshal. *)
Definition encodeProfileSession (profileID : string) (backends : gmap string string) : option string :=
  raw ← marshal_session (mkProfileSession profileID backends);
  Some (profileSessionPrefix +:+ of_chars (RawURL_encode (bytes_to_chars raw))).

Definition decodeProfileSession (profileID sessionID : string) : option profileSession :=
  raw ← StripPrefix profileSessionPrefix sessionID;
  if decide (raw = "") then None
  else
    decoded ← RawURL_decode (to_chars raw);
    session ← unmarshal_session (chars_to_bytes decoded);
    if decide (ProfileID session <> profileID \/ Backends session = ∅) then None else Some session.
End sessions.

(** ** The dump *)

Record ProfileServerDump := mkPSDump {
  psd_Prefix : string;
  EnabledToolsCount : option nat;
  CredentialRefConfigured : bool;
  CredentialEnvelopeConfigured : bool;
}.

Record ProfileDump := mkPDump {
  pd_Name : string;
  AuthConfigured : bool;
  pd_Servers : gmap string ProfileServerDump;
}.

Record GatewayDump := mkGDump {
  gd_CatalogServers : gmap string CatalogDump;
  gd_Profiles : option (gmap string ProfileDump);
}.

Definition enabled_count (tools : gmap string bool) : nat :=
  base.size (base.filter (fun kv => kv.2 = true) tools).

Definition dump_server (serverID : string) (server : ProfileServer) : ProfileServerDump :=
  mkPSDump (serverPrefix serverID server) (enabled_count <$> ps_EnabledTools server)
    (bool_decide (CredentialRef server <> "")) (bool_decide (CredentialEnvelope server <> "")).

Definition redactURL `{NetURL} (raw : string) : string :=
  match url_Parse raw with inl _ => "[invalid]" | inr u => u_redacted u end.

(** [Dump()] with what has been recorded so far. *)
Definition Dump `{NetURL} (config : Config) (servers : gmap string CatalogDump) : GatewayDump :=
  mkGDump
    (map_imap (fun serverID server =>
       Some (mkCatalogDump (redactURL (cat_URL server))
               (match servers !! serverID with Some state => LastRequest state | None => "" end)))
       (CatalogServers config))
    (if decide (Profiles config = ∅) then None
     else Some ((fun profile => mkPDump (p_Name profile) (bool_decide (p_APIKey profile <> ""))
                                  (map_imap (fun serverID server => Some (dump_server serverID server))
                                     (p_Servers profile))) <$> Profiles config)).

(** ** gateway_transit.go *)

Record transitRequest := mkTransit {
  tr_method : string;
  tr_path : string;
  tr_headers : list (string * string);
}.

(** What a handler sends, after what it records. *)
Record reply := mkReply {
  rp_status : Z;
  rp_body : bytes;
  rp_headers : list (string * string);
}.
Abbreviation outcome := (records * reply)%type.

(** How a handler of the gateway ends: with a reply, or with a callout or a batch of them,
    its callback, and what is done when it cannot be started. *)
Inductive action :=
  | Answer (o : outcome)
  | Call (req : HTTPCalloutRequest) (fn : CalloutDelivery -> outcome) (rejected : string -> outcome)
  | Settle (reqs : list HTTPCalloutRequest) (fn : list HTTPCalloutAllSettledResponse -> outcome)
      (rejected : outcome).

Definition send (o : outcome) : prog :=
  PAct (ASendLocalResponse (rp_status o.2) (rp_body o.2) (rp_headers o.2)) PRet.

(** The program of an action; [HTTPCalloutAllSettled] never returns an error. *)
Definition prog_of (a : action) : prog :=
  match a with
  | Answer o => send o
  | Call req fn rejected =>
      PHTTPCallout req (fun d => send (fn d))
        (fun _ err => match err with Some e => send (rejected e) | None => PRet end)
  | Settle reqs fn _ => PHTTPCalloutAllSettled reqs (fun rs => send (fn rs)) PRet
  end.

Definition StatusOK : Z := 200.
Definition StatusBadRequest : Z := 400.
Definition StatusUnauthorized : Z := 401.
Definition StatusNotFound : Z := 404.
Definition StatusInternalServerError : Z := 500.
Definition StatusBadGateway : Z := 502.

(** [strconv.Atoi] without error. *)
Definition Atoi (s : string) : option Z :=
  let '(neg, d) := match s with
                   | String a s' => if (code a =? 45)%N then (true, s')
                                    else if (code a =? 43)%N then (false, s') else (false, s)
                   | EmptyString => (false, s)
                   end in
  if decide (d = "") then None
  else v ← digits 0 d;
       let v := if neg then (- v)%Z else v in
       if decide (- 2 ^ 63 <= v < 2 ^ 63)%Z then Some v else None.

Section gateway.
Context `{NetURL, GwJson}.
(** [strings.EqualFold] from the first non-ASCII byte on. *)
Context (unicode : string -> string -> bool).
Context (config : Config).

Definition headerValue (headers : list (string * string)) (name : string) : string :=
  match base.filter (fun h => EqualFold unicode h.1 name = true) headers with
  | h :: _ => h.2
  | [] => ""
  end.

Definition headerOrDefault (headers : list (string * string)) (name fallback : string) : string :=
  let value := headerValue headers name in
  if decide (value <> "") then value else fallback.

Definition callout_headers (headers : option (list (UnsafeEnvoyBuffer * UnsafeEnvoyBuffer))) :
    list (string * string) :=
  (fun h => (ToString h.1, ToString h.2)) <$> default [] headers.

Definition calloutHeaderValue (headers : option (list (UnsafeEnvoyBuffer * UnsafeEnvoyBuffer)))
    (name : string) : string := headerValue (callout_headers headers) name.

Definition calloutBodyBytes (buffers : option (list UnsafeEnvoyBuffer)) : bytes :=
  concat (ToBytes <$> default [] buffers).

(** One iteration of [responseFromCalloutHeaders]. *)
Definition response_header (acc : Z * list (string * string)) (h : string * string) :
    Z * list (string * string) :=
  if decide (h.1 = ":status") then (default acc.1 (Atoi h.2), acc.2)
  else if HasPrefix h.1 ":" then acc
  else if EqualFold unicode h.1 "content-length" then acc
  else (acc.1, acc.2 ++ [h]).

Definition responseFromCalloutHeaders (headers : option (list (UnsafeEnvoyBuffer * UnsafeEnvoyBuffer))) :
    Z * list (string * string) :=
  foldl response_header (StatusOK, []) (callout_headers headers).

Definition internal_error : bytes :=
  let q := String (ascii_of_nat 34) "" in
  String.list_byte_of_string
    ("{" +:+ q +:+ "jsonrpc" +:+ q +:+ ":" +:+ q +:+ "2.0" +:+ q +:+ "," +:+ q +:+ "error" +:+ q +:+ ":{" +:+
     q +:+ "code" +:+ q +:+ ":-32603," +:+ q +:+ "message" +:+ q +:+ ":" +:+ q +:+ "internal error" +:+ q +:+ "}}").

Definition writeTransitJSON (status : Z) (v : JSONRPCResponse) (headers : list (string * string)) : reply :=
  match marshal_response v with
  | None => mkReply StatusInternalServerError internal_error [("content-type", "application/json")]
  | Some body => mkReply status body (("content-type", "application/json") :: headers)
  end.

(** [errorResponse] keeps the identifier as it is. *)
Definition errorResponse (id : json) (code : Z) (message : string) : JSONRPCResponse :=
  McpRouter.mkResponse id None (Some (mkError code message)).

(** Reply with an error, recording nothing. *)
Definition fail (status : Z) (id : json) (code : Z) (message : string) : reply :=
  writeTransitJSON status (errorResponse id code message) [].

Definition catalogCluster (server : CatalogServer) : string :=
  if decide (cat_Cluster server <> "") then cat_Cluster server else DefaultCatalogCalloutCluster.

Definition timeoutMillis (configured : Z) : Z := if (0 <? configured)%Z then configured else 800%Z.

Definition catalogURL (base serverID : string) : string :=
  TrimRight base "/" +:+ "/mcp/s/" +:+ PathEscape serverID.

Definition stripQuery (path : string) : string :=
  match index_chars "?" (to_chars path) with
  | Some i => of_chars (take i (to_chars path))
  | None => path
  end.

Definition profileAuthorized (apiKey : string) (header : string -> string) : bool :=
  if decide (apiKey = "") then true
  else if decide (header "x-api-key" = apiKey) then true
  else bool_decide (TrimSpace (header "authorization") = "Bearer " +:+ apiKey).

Definition sortedProfileServerIDs (servers : gmap string ProfileServer) : list string :=
  sort_Strings (elements (dom servers)).

(** ** The requests sent to the catalog *)

Definition nonempty_header (name value : string) : list (string * string) :=
  if decide (value <> "") then [(name, value)] else [].

(** The headers common to every request for a server of a profile. *)
Definition profile_headers (r : transitRequest) (u : url) (server : ProfileServer) (sessionID : string) :
    list (string * string) :=
  [(":method", "POST"); (":path", u_RequestURI u); (":scheme", u_Scheme u); ("host", u_Host u);
   ("content-type", "application/json"); ("accept", "application/json")] ++
  nonempty_header SessionIDHeader sessionID ++
  nonempty_header ProtocolVersionHeader (headerValue (tr_headers r) ProtocolVersionHeader) ++
  nonempty_header "x-mcp-credential-ref" (CredentialRef server) ++
  nonempty_header "x-mcp-credential-envelope" (CredentialEnvelope server).

Definition profileToolCallCalloutRequest (r : transitRequest) (body : bytes) (serverID : string)
    (server : ProfileServer) (catalogServer : CatalogServer) (backendSessionID : string) :
    string + HTTPCalloutRequest :=
  match url_Parse (catalogURL (ps_URL server) serverID) with
  | inl err => inl err
  | inr u => inr (mkReq (catalogCluster catalogServer) (profile_headers r u server backendSessionID) body
                    (timeoutMillis (cfg_TimeoutMillis config)))
  end.

Definition catalogCalloutRequest (r : transitRequest) (body : bytes) (serverID : string)
    (server : CatalogServer) : string + HTTPCalloutRequest :=
  match url_Parse (catalogURL (cat_URL server) serverID) with
  | inl err => inl err
  | inr u =>
      inr (mkReq (catalogCluster server)
             ([(":method", "POST"); (":path", u_RequestURI u); (":scheme", u_Scheme u); ("host", u_Host u);
               ("content-type", headerOrDefault (tr_headers r) "content-type" "application/json");
               ("accept", headerOrDefault (tr_headers r) "accept" "application/json");
               ("x-mcp-credential-ref", ""); ("x-mcp-credential-envelope", "")] ++
              nonempty_header SessionIDHeader (headerValue (tr_headers r) SessionIDHeader) ++
              nonempty_header ProtocolVersionHeader (headerValue (tr_headers r) ProtocolVersionHeader))
             body (timeoutMillis (cfg_TimeoutMillis config)))
  end.

(** The loop of [profileCalloutRequests] over the identifiers: the requests with the server
    each is for. *)
Fixpoint callout_loop (r : transitRequest) (body : bytes) (profile : Profile) (session : profileSession)
    (active : bool) (serverIDs : list string) : string + list (HTTPCalloutRequest * string) :=
  match serverIDs with
  | [] => inr []
  | serverID :: serverIDs =>
      match p_Servers profile !! serverID with
      | None => callout_loop r body profile session active serverIDs
      | Some server =>
          let sessionID := if active then default "" (Backends session !! serverID) else "" in
          match profileToolCallCalloutRequest r body serverID server (CatalogServers config !!! serverID)
                  sessionID with
          | inl err => inl err
          | inr req =>
              match callout_loop r body profile session active serverIDs with
              | inl err => inl err
              | inr rest => inr ((req, serverID) :: rest)
              end
          end
      end
  end.

(** [order] is the order in which Go ranges over the backends of the session. *)
Definition profileCalloutRequests (r : transitRequest) (body : bytes) (profile : Profile)
    (session : profileSession) (order : list string) : string + list (HTTPCalloutRequest * string) :=
  let active := bool_decide (Backends session <> ∅) in
  callout_loop r body profile session active
    (if active then sortedStringKeys order else sortedProfileServerIDs (p_Servers profile)).

(** ** Answers of the catalog *)

(** [decodeInitializeResult]: the error, or [None]. *)
Definition decodeInitializeResult (body : bytes) : option string :=
  match unmarshal_response body with
  | inl err => Some err
  | inr (Some e, _) => Some (Message e)
  | inr (None, result) => match unmarshal_init result with inl err => Some err | inr _ => None end
  end.

Definition namespaced (serverID : string) (server : ProfileServer) (tools : list Tool) : list Tool :=
  (fun t => mkTool (serverPrefix serverID server +:+ "." +:+ t_name t) (t_description t) (t_schema t)) <$>
  base.filter (fun t => profileToolEnabled server (t_name t) = true) tools.

Definition mergeToolsResult (serverID : string) (server : ProfileServer) (body : bytes) :
    string + list Tool :=
  match unmarshal_response body with
  | inl err => inl err
  | inr (Some e, _) => inl (Message e)
  | inr (None, result) =>
      match unmarshal_tools result with
      | inl err => inl err
      | inr tools => inr (namespaced serverID server tools)
      end
  end.

(** [sortTools]: any sorting by name, as [sort.Slice] is not stable. *)
Context (sortTools : list Tool -> list Tool).

(** ** Tool calls *)

(** [order] is the order in which Go ranges over the servers of the profile. *)
Definition serverByPrefix (order : list (string * ProfileServer)) (prefix : string) :
    option (string * ProfileServer) :=
  head (base.filter (fun kv => serverPrefix kv.1 kv.2 = prefix) order).

(** [resolveProfileTool]: the server, the tool's own name and the parameters; or the error. *)
Definition resolveProfileTool (paramsRaw : json) (profile : Profile)
    (order : list (string * ProfileServer)) : (Z * string) + (string * string * CallToolParams) :=
  match gw_call_params paramsRaw with
  | None => inl ((-32602)%Z, "invalid tools/call params")
  | Some params =>
      if decide (c_name params = "") then inl ((-32602)%Z, "invalid tools/call params")
      else
        let '(prefix, tool, ok) := Cut (c_name params) "." in
        if negb ok || bool_decide (tool = "") then
          inl ((-32602)%Z, "tool name must be namespaced as prefix.tool")
        else
          match serverByPrefix order prefix with
          | None => inl ((-32602)%Z, "unknown tool: " +:+ c_name params)
          | Some (sid, _) =>
              if profileToolEnabled (p_Servers profile !!! sid) tool then inr (sid, tool, params)
              else inl ((-32602)%Z, "disabled tool: " +:+ c_name params)
          end
  end.

Definition toolCallForwardBody (id : json) (backendTool : string) (params : CallToolParams) : option bytes :=
  raw ← marshal_call_params (mkCall backendTool (c_arguments params));
  marshal_request (mkRequest (cloneRaw id) MethodToolsCall raw).

Definition toolsListRequestBody (id : json) : option bytes :=
  marshal_request (mkRequest (cloneRaw id) MethodToolsList []).

(** ** Handlers *)

(** A delivered callout answered through: its status, headers and body. *)
Definition forward_delivery (d : CalloutDelivery) : reply :=
  let '(status, headers) := responseFromCalloutHeaders (d_headers d) in
  mkReply status (calloutBodyBytes (d_body d)) headers.

Definition calloutCatalogServerTransit (r : transitRequest) (body : bytes) (found : string * option CatalogServer) :
    action :=
  let '(serverID, server) := found in
  match server with
  | None => Answer ([], fail StatusNotFound [] (-32004) ("unknown catalog server: " +:+ serverID))
  | Some server =>
      let failed := fail StatusBadGateway [] (-32003) ("catalog gateway failed: " +:+ serverID) in
      match catalogCalloutRequest r body serverID server with
      | inl err => Answer ([(serverID, "error: " +:+ err)], failed)
      | inr req =>
          Call req
            (fun d =>
               if decide (d_result d <> HTTPCalloutSuccess)
               then ([(serverID, "error: callout result " +:+ pretty (d_result d))], failed)
               else ([(serverID, "ok")], forward_delivery d))
            (fun err => ([(serverID, "error: " +:+ err)], failed))
      end
  end.

Definition syntheticInitializeResult : InitializeResult :=
  mkInit ProtocolVersion [("tools", String.list_byte_of_string "{}")]
    (mkImplementation "mcp-profile-gateway" "dev").

(** What one settled response of [initialize] contributes: a record, and the backend's
    session when it succeeded. *)
Definition init_response (serverID : string) (resp : HTTPCalloutAllSettledResponse) :
    string * option string :=
  if Failed resp then ("error: initialize", None)
  else
    let '(status, _) := responseFromCalloutHeaders (Headers resp) in
    if decide (status <> StatusOK) then ("error: status " +:+ pretty status, None)
    else match decodeInitializeResult (calloutBodyBytes (Body resp)) with
         | Some err => ("error: " +:+ err, None)
         | None => ("initialized", Some (calloutHeaderValue (Headers resp) SessionIDHeader))
         end.

Definition init_fold (acc : records * gmap string string) (x : string * HTTPCalloutAllSettledResponse) :
    records * gmap string string :=
  let '(state, session) := init_response x.1 x.2 in
  (acc.1 ++ [(x.1, state)], match session with Some v => <[x.1 := v]> acc.2 | None => acc.2 end).

Definition initialized (id : json) (profileID : string) (serverIDs : list string)
    (responses : list HTTPCalloutAllSettledResponse) : outcome :=
  let '(rs, backends) := foldl init_fold ([], ∅) (zip serverIDs responses) in
  (rs,
   if decide (backends = ∅) then fail StatusBadGateway id (-32002) "initialize failed"
   else match encodeProfileSession profileID backends with
        | None => fail StatusInternalServerError id (-32603) "profile gateway failed"
        | Some sessionID =>
            writeTransitJSON StatusOK
              (McpRouter.mkResponse (cloneRaw id) (Some (ResInit syntheticInitializeResult)) None)
              [(SessionIDHeader, sessionID); (ProtocolVersionHeader, ProtocolVersion)]
        end).

Definition initializeProfileTransit (r : transitRequest) (id : json) (body : bytes) (profileID : string)
    (profile : Profile) : action :=
  match profileCalloutRequests r body profile (mkProfileSession "" ∅) [] with
  | inl _ => Answer ([], fail StatusInternalServerError id (-32603) "profile gateway failed")
  | inr reqs => Settle reqs.*1 (initialized id profileID reqs.*2) ([], fail StatusBadGateway id (-32002) "initialize failed")
  end.

(** What one settled response of [tools/list] contributes. *)
Definition list_response (profile : Profile) (serverID : string) (resp : HTTPCalloutAllSettledResponse) :
    string * list Tool :=
  if Failed resp then ("error: tools/list", [])
  else
    let '(status, _) := responseFromCalloutHeaders (Headers resp) in
    if decide (status <> StatusOK) then ("error: status " +:+ pretty status, [])
    else match mergeToolsResult serverID (p_Servers profile !!! serverID) (calloutBodyBytes (Body resp)) with
         | inl err => ("error: " +:+ err, [])
         | inr tools => ("ok", tools)
         end.

Definition listed (id : json) (profile : Profile) (serverIDs : list string)
    (responses : list HTTPCalloutAllSettledResponse) : records * list Tool :=
  let parts := (fun x => (x.1, list_response profile x.1 x.2)) <$> zip serverIDs responses in
  ((fun x => (x.1, x.2.1)) <$> parts, sortTools (mjoin ((fun x => x.2.2) <$> parts))).

Definition listProfileToolsTransit (r : transitRequest) (id : json) (profileID : string) (profile : Profile)
    (order : list string) : action :=
  let sessionID := headerValue (tr_headers r) SessionIDHeader in
  let session := if decide (sessionID <> "") then decodeProfileSession profileID sessionID
                 else Some (mkProfileSession "" ∅) in
  match session with
  | None => Answer ([], fail StatusBadRequest id (-32010) "invalid MCP session ID")
  | Some session =>
      let failed := fail StatusInternalServerError id (-32603) "profile gateway failed" in
      match toolsListRequestBody id with
      | None => Answer ([], failed)
      | Some body =>
          match profileCalloutRequests r body profile session order with
          | inl _ => Answer ([], failed)
          | inr reqs =>
              Settle reqs.*1
                (fun responses =>
                   let '(rs, tools) := listed id profile reqs.*2 responses in
                   (rs, writeTransitJSON StatusOK
                          (McpRouter.mkResponse (cloneRaw id) (Some (ResTools tools)) None) []))
                ([], fail StatusBadGateway id (-32002) "tools/list failed")
          end
      end
  end.

Definition callProfileToolTransit (r : transitRequest) (id params : json) (profile : Profile)
    (session : profileSession) (order : list (string * ProfileServer)) : action :=
  match resolveProfileTool params profile order with
  | inl (errCode, errMsg) => Answer ([], fail StatusOK id errCode errMsg)
  | inr (serverID, backendTool, callParams) =>
      match Backends session !! serverID with
      | None => Answer ([], fail StatusOK id (-32602) ("tool server not in session: " +:+ serverID))
      | Some backend =>
          let failed := fail StatusInternalServerError id (-32603) "profile gateway failed" in
          let backend_failed := fail StatusBadGateway id (-32003) ("tool backend failed: " +:+ serverID) in
          match toolCallForwardBody id backendTool callParams with
          | None => Answer ([], failed)
          | Some body =>
              match profileToolCallCalloutRequest r body serverID (p_Servers profile !!! serverID)
                      (CatalogServers config !!! serverID) backend with
              | inl _ => Answer ([], failed)
              | inr req =>
                  Call req
                    (fun d =>
                       if decide (d_result d <> HTTPCalloutSuccess)
                       then ([(serverID, "error: callout result " +:+ pretty (d_result d))], backend_failed)
                       else ([(serverID, "ok")], forward_delivery d))
                    (fun err => ([(serverID, "error: " +:+ err)], backend_failed))
              end
          end
      end
  end.

Definition calloutProfileTransit (r : transitRequest) (body : bytes) (found : string * option Profile)
    (session_order : gmap string string -> list string) (server_order : list (string * ProfileServer)) : action :=
  let '(profileID, profile) := found in
  match profile with
  | None => Answer ([], fail StatusNotFound [] (-32004) ("unknown profile: " +:+ profileID))
  | Some profile =>
      if negb (profileAuthorized (p_APIKey profile) (headerValue (tr_headers r)))
      then Answer ([], fail StatusUnauthorized [] (-32001) ("unauthorized profile: " +:+ profileID))
      else
        match gw_request body with
        | None => Answer ([], fail StatusBadRequest [] (-32700) "invalid JSON-RPC request")
        | Some rpc =>
            if decide (rq_method rpc = MethodInitialize) then
              initializeProfileTransit r (rq_id rpc) body profileID profile
            else if decide (rq_method rpc = MethodToolsList) then
              listProfileToolsTransit r (rq_id rpc) profileID profile
                (match decodeProfileSession profileID (headerValue (tr_headers r) SessionIDHeader) with
                 | Some session => session_order (Backends session) | None => [] end)
            else if decide (rq_method rpc = MethodToolsCall) then
              let sessionID := headerValue (tr_headers r) SessionIDHeader in
              if decide (sessionID = "") then
                Answer ([], fail StatusBadRequest (rq_id rpc) (-32010) "missing MCP session ID")
              else match decodeProfileSession profileID sessionID with
                   | None => Answer ([], fail StatusBadRequest (rq_id rpc) (-32010) "invalid MCP session ID")
                   | Some session =>
                       callProfileToolTransit r (rq_id rpc) (rq_params rpc) profile session server_order
                   end
            else Answer ([], fail StatusBadRequest (rq_id rpc) (-32601)
                               ("unsupported profile method: " +:+ rq_method rpc))
        end
  end.

(** ** Paths and the filter *)

Definition catalogServerFromTransitPath (path : string) : string * option CatalogServer :=
  match StripPrefix "/mcp/s/" (stripQuery path) with
  | None => ("", None)
  | Some rawID =>
      if decide (rawID = "") then ("", None)
      else match PathUnescape rawID with
           | inl _ => (rawID, None)
           | inr serverID => (serverID, CatalogServers config !! serverID)
           end
  end.

Definition profileFromTransitPath (path : string) : string * option Profile :=
  match StripPrefix "/mcp/" (stripQuery path) with
  | None => ("", None)
  | Some rawID =>
      if decide (rawID = "" \/ HasPrefix rawID "s/" = true) then ("", None)
      else match PathUnescape rawID with
           | inl _ => (rawID, None)
           | inr profileID => (profileID, Profiles config !! profileID)
           end
  end.

(** The request handler keeps the request for the body handler when the path is the
    gateway's. *)
Definition transit_handler (r : transitRequest) : option transitRequest :=
  let path := stripQuery (tr_path r) in
  if decide (path = "/healthz" \/ path = "/dump") then Some r
  else if HasPrefix path "/mcp/s/" then Some r
  else if HasPrefix path "/mcp/" then Some r
  else None.

(** The body handler, at the end of the stream, on what the request handler kept.
    [net_http] answers the other paths through the [net/http] implementation. *)
Definition transit_body (net_http : transitRequest -> bytes -> reply)
    (session_order : gmap string string -> list string)
    (server_order : gmap string ProfileServer -> list (string * ProfileServer))
    (endStream : bool) (context : option transitRequest) (data : bytes) : option action :=
  match context with
  | None => None
  | Some req =>
      if negb endStream || bool_decide (tr_path req = "") then None
      else if HasPrefix (stripQuery (tr_path req)) "/mcp/s/" then
        Some (calloutCatalogServerTransit req data (catalogServerFromTransitPath (tr_path req)))
      else if HasPrefix (stripQuery (tr_path req)) "/mcp/" then
        let found := profileFromTransitPath (tr_path req) in
        Some (calloutProfileTransit req data found session_order
                (match found.2 with Some p => server_order (p_Servers p) | None => [] end))
      else Some (Answer ([], net_http req data))
  end.
End gateway.
