(* ===== verification/McpGatewayProps.v ===== *)
(** * McpGateway: sessions, credentials and tool names of the profile gateway

    What the validation of the configuration buys: every tool a profile lists can be called
    by its listed name.  Sessions are bound to their profile, and the credentials of a
    server go to that server only. *)
From stdpp Require Import base list strings gmap sets sorting pretty.
From Stdlib Require Import ZArith Lia Ascii.
From S2P Require Import Prelude GoStrings Async Envoy FilterState McpSession McpRouter McpGateway.

(** ** The session encoding *)

Lemma url_std c : c ∈ Base64.alphabet -> std_char (url_char c) = c.
Proof.
  intros Hc. unfold std_char, url_char. repeat case_decide; subst; try done.
  - exfalso. apply (bool_decide_pack _) in Hc. vm_compute in Hc. done.
  - exfalso. apply (bool_decide_pack _) in Hc. vm_compute in Hc. done.
Qed.

(** The encoding without its padding, and the padding its length calls for. *)
Definition unpadded (l : chars) : chars := base.filter (fun c => c <> "="%char) (Base64.encode l).
Definition padding (n : nat) : chars :=
  match n mod 4 with 2 => ["="; "="]%char | 3 => ["="%char] | _ => [] end.

Lemma keep_digit n l : base.filter (fun c => c <> "="%char) (Base64.enc_digit n :: l) =
  Base64.enc_digit n :: base.filter (fun c => c <> "="%char) l.
Proof. rewrite filter_cons, decide_True by apply Base64.enc_digit_not_pad. done. Qed.

Lemma unpadded_spec l :
  Base64.encode l = unpadded l ++ padding (length (unpadded l)) /\ length (unpadded l) mod 4 <> 1.
Proof.
  unfold unpadded. induction l as [|a|a b|a b c l [IH1 IH2]] using Base64.encode_ind; cbn [Base64.encode];
    rewrite ?keep_digit; [done|done|done|].
  remember (base.filter (fun c0 => c0 <> "="%char) (Base64.encode l)) as u eqn:Hu.
  assert (forall x y z w : ascii, length (x :: y :: z :: w :: u) mod 4 = length u mod 4) as Hm.
  { intros. cbn [length]. replace (S (S (S (S (length u))))) with (length u + 1 * 4) by lia.
    apply Nat.Div0.mod_add. }
  unfold padding. rewrite Hm. split; [|done]. cbn [app]. rewrite IH1 at 1. done.
Qed.

Lemma unpadded_digit l c : c ∈ unpadded l -> c ∈ Base64.alphabet.
Proof.
  intros [Hc Hin]%list_elem_of_filter. pose proof (Base64.encode_plain l) as Hp.
  rewrite Forall_forall in Hp. by destruct (Hp _ Hin) as [|Hn].
Qed.

(** No encoded character is a line break or belongs to the standard alphabet only. *)
Lemma url_char_ok c :
  c ∈ Base64.alphabet ->
  (code (url_char c) <> 10%N /\ code (url_char c) <> 13%N) /\
  ~ (url_char c = "+"%char \/ url_char c = "/"%char \/ url_char c = "="%char).
Proof.
  revert c. apply Forall_forall. apply (bool_decide_unpack _). vm_compute. exact I.
Qed.

Lemma RawURL_roundtrip l : RawURL_decode (RawURL_encode l) = Some l.
Proof.
  unfold RawURL_decode, RawURL_encode. fold (unpadded l).
  assert (Forall (fun c => c ∈ Base64.alphabet) (unpadded l)) as Ha.
  { apply Forall_forall. intros c. apply unpadded_digit. }
  rewrite (Base64.filter_all _ (url_char <$> unpadded l)).
  2: { apply Forall_fmap. eapply Forall_impl; [exact Ha|]. intros c Hc. apply (url_char_ok c Hc). }
  rewrite decide_False.
  2: { intros He. apply Exists_exists in He as (c & Hin & Hc).
       apply list_elem_of_fmap in Hin as (c0 & -> & Hin). by apply (url_char_ok c0 (unpadded_digit _ _ Hin)). }
  assert (std_char <$> (url_char <$> unpadded l) = unpadded l) as ->.
  { rewrite <-list_fmap_compose. transitivity (id <$> unpadded l); [|by rewrite list_fmap_id].
    apply list_fmap_ext. intros i c Hi. apply url_std, unpadded_digit with l. by eapply list_elem_of_lookup_2. }
  rewrite length_fmap. destruct (unpadded_spec l) as [He Hn].
  rewrite <-(Base64.decode_quanta_encode l), He. unfold padding.
  pose proof (Nat.mod_upper_bound (length (unpadded l)) 4 ltac:(lia)) as Hb.
  destruct (length (unpadded l) mod 4) as [|[|[|[|n]]]]; [by rewrite app_nil_r|done|done|done|lia].
Qed.

Lemma chars_bytes b : chars_to_bytes (bytes_to_chars b) = b.
Proof.
  unfold chars_to_bytes, bytes_to_chars. rewrite of_to_chars. apply String.list_byte_of_string_of_list_byte.
Qed.

Section sessions.
Context `{GwJson}.

(** A session id is good for the profile it was issued to and for no other.  Whenever
    the JSON of the session decodes to the session, the identifier that [initialize] returns
    is accepted by later requests of the same profile, which find every backend session
    again, and refused by every other profile. *)
Theorem gateway_session_bound (profileID : string) (backends : gmap string string) (sessionID : string) :
  (forall raw, marshal_session (mkProfileSession profileID backends) = Some raw ->
     raw <> [] /\ unmarshal_session raw = Some (mkProfileSession profileID backends)) ->
  backends <> ∅ -> encodeProfileSession profileID backends = Some sessionID ->
  decodeProfileSession profileID sessionID = Some (mkProfileSession profileID backends) /\
  forall other, other <> profileID -> decodeProfileSession other sessionID = None.
Proof.
  intros Hj Hne. unfold encodeProfileSession.
  destruct (marshal_session _) as [raw|] eqn:Hm; [|done]. destruct (Hj raw eq_refl) as [Hr Hu].
  intros [= <-].
  assert (forall p, decodeProfileSession p (profileSessionPrefix +:+ of_chars (RawURL_encode (bytes_to_chars raw))) =
    if decide (profileID <> p \/ backends = ∅) then None else Some (mkProfileSession profileID backends)) as Hd.
  { intros p. unfold decodeProfileSession. rewrite (proj2 (StripPrefix_Some _ _ _) eq_refl). cbn [mbind option_bind].
    rewrite decide_False.
    2: { intros He%(f_equal to_chars). rewrite to_of_chars in He.
         pose proof (RawURL_roundtrip (bytes_to_chars raw)) as Hx. change (to_chars "") with (@nil ascii) in He.
         rewrite He in Hx. assert (RawURL_decode [] = Some []) as Hnil by (vm_compute; reflexivity).
         rewrite Hnil in Hx. injection Hx as Hx. apply Hr.
         rewrite <-(chars_bytes raw), <-Hx. done. }
    rewrite to_of_chars, RawURL_roundtrip. cbn [mbind option_bind]. rewrite chars_bytes, Hu. done. }
  split.
  - rewrite Hd, decide_False; [done|]. naive_solver.
  - intros other Ho. rewrite Hd, decide_True; [done|]. auto.
Qed.
End sessions.

(** ** Validated configurations *)

Lemma not_contains_dot s : Contains s "." = false -> "."%char ∉ to_chars s.
Proof.
  induction s as [|a s IH]; cbn [Contains].
  - intros _ Hin. by apply not_elem_of_nil in Hin.
  - intros [Hp Hc]%orb_false_iff. change (to_chars (String a s)) with (a :: to_chars s).
    intros [<-|Hin]%elem_of_cons; [|by apply IH in Hin].
    unfold HasPrefix in Hp. cbn in Hp. by destruct s.
Qed.

Definition prefix_of_entry (kv : string * ProfileServer) : string := serverPrefix kv.1 kv.2.

(** What validation establishes of the servers of a profile. *)
Definition servers_ok (l : list (string * ProfileServer)) : Prop :=
  NoDup (prefix_of_entry <$> l) /\ Forall (fun kv => "."%char ∉ to_chars (prefix_of_entry kv)) l.

Section validation.
Context `{NetURL}.

Lemma or_else_None e k : or_else e k = None <-> e = None /\ k = None.
Proof. destruct e; cbn; naive_solver. Qed.

Lemma validateSlug_dot kind v : validateSlug kind v = None -> "."%char ∉ to_chars v.
Proof.
  unfold validateSlug. repeat case_decide; [done|]. destruct (Contains v "/"); [done|].
  destruct (Contains v ".") eqn:Hc; [done|]. intros _. by apply not_contains_dot.
Qed.

Lemma validate_servers_ok config pid l : forall prefixes,
  validate_servers config pid prefixes l = None ->
  servers_ok l /\ forall kv, kv ∈ l -> prefixes !! prefix_of_entry kv = None.
Proof.
  induction l as [|[sid server] l IH]; intros prefixes; cbn.
  - intros _. split; [split; constructor|]. by intros kv Hin%not_elem_of_nil.
  - rewrite !or_else_None. intros (Hs & _ & Hv). case_decide; [done|]. case_decide as Hdot; [done|].
    destruct (prefixes !! _) eqn:Hp; [done|]. destruct (IH _ Hv) as [[Hn Hd] Hf]. split.
    + split.
      * cbn. constructor; [|done]. intros (kv & Heq & Hin)%list_elem_of_fmap.
        specialize (Hf kv Hin). rewrite lookup_insert_None in Hf. destruct Hf as [_ Hf].
        by apply Hf; rewrite <-Heq.
      * constructor; [|done]. unfold prefix_of_entry, serverPrefix. cbn. case_decide as He.
        -- apply not_contains_dot. destruct (Contains _ _) eqn:Hc; [|done]. exfalso. by apply Hdot.
        -- by apply validateSlug_dot with "profile server".
    + intros kv [->|Hin]%elem_of_cons; [done|]. by apply Hf, lookup_insert_None in Hin as [? _].
Qed.

Lemma validate_profiles_ok config order l :
  validate_profiles config order l = None -> forall pid p, (pid, p) ∈ l -> servers_ok (order pid).
Proof.
  induction l as [|[pid0 p0] l IH]; cbn; intros Hv pid p; [by intros Hin%not_elem_of_nil|].
  repeat (case_decide; [done|]). rewrite or_else_None in Hv. destruct Hv as [Hs Hv].
  intros [[= -> ->]|Hin]%elem_of_cons; [|by eapply IH].
  by apply validate_servers_ok in Hs as [Hs _].
Qed.

(** The servers of a profile of a validated configuration, in whatever order. *)
Lemma validated_servers config o1 o2 o3 pid profile order :
  ValidateConfig config o1 o2 o3 = None -> o2 ≡ₚ map_to_list (Profiles config) ->
  Profiles config !! pid = Some profile -> o3 pid ≡ₚ map_to_list (p_Servers profile) ->
  order ≡ₚ map_to_list (p_Servers profile) -> servers_ok order.
Proof.
  unfold ValidateConfig. case_decide; [done|]. rewrite or_else_None. intros [_ Hv] Ho Hp Ho3 Hord.
  destruct (validate_profiles_ok _ _ _ Hv pid profile) as [Hn Hd].
  { rewrite Ho. by apply elem_of_map_to_list. }
  split.
  - rewrite Hord, <-Ho3. done.
  - rewrite Hord, <-Ho3. done.
Qed.
End validation.

(** ** Listed tools can be called *)

Lemma same_prefix_same_entry l kv kv' :
  NoDup (prefix_of_entry <$> l) -> kv ∈ l -> kv' ∈ l -> prefix_of_entry kv = prefix_of_entry kv' -> kv = kv'.
Proof.
  intros Hn [i Hi]%list_elem_of_lookup [j Hj]%list_elem_of_lookup Heq.
  assert (i = j) as ->; [|congruence].
  eapply NoDup_lookup; [exact Hn|..]; rewrite list_lookup_fmap; [by rewrite Hi|rewrite Hj; cbn; by rewrite Heq].
Qed.

Lemma serverByPrefix_finds order sid server :
  servers_ok order -> (sid, server) ∈ order ->
  serverByPrefix order (serverPrefix sid server) = Some (sid, server).
Proof.
  intros [Hn _] Hin. unfold serverByPrefix.
  destruct (base.filter _ order) as [|kv l] eqn:Hf.
  - exfalso. apply (not_elem_of_nil (sid, server)). rewrite <-Hf. by apply list_elem_of_filter.
  - cbn. f_equal. assert (kv ∈ base.filter (fun kv => serverPrefix kv.1 kv.2 = serverPrefix sid server) order)
      as [Hp Hk]%list_elem_of_filter by (rewrite Hf; left).
    by apply (same_prefix_same_entry order).
Qed.

Section tools.
Context `{NetURL, GwJson} (unicode : string -> string -> bool) (config : Config).
Context (sortTools : list Tool -> list Tool).

Lemma callout_loop_ids r body profile session active ids reqs :
  callout_loop unicode config r body profile session active ids = inr reqs ->
  Forall (fun sid => is_Some (p_Servers profile !! sid)) reqs.*2.
Proof.
  revert reqs. induction ids as [|sid ids IH]; intros reqs; cbn; [by intros [= <-]|].
  destruct (p_Servers profile !! sid) as [server|] eqn:Hs; [|apply IH].
  destruct (profileToolCallCalloutRequest _ _ _ _ _ _ _ _); [done|].
  destruct (callout_loop _ _ _ _ _ _ _ ids) as [|rest]; [done|]. intros [= <-].
  cbn. constructor; [by eexists|]. by apply IH.
Qed.

(** Where a listed tool comes from. *)
Lemma list_response_tools profile sid server resp t :
  p_Servers profile !! sid = Some server -> t ∈ (list_response unicode profile sid resp).2 ->
  exists t0, t_name t = serverPrefix sid server +:+ "." +:+ t_name t0 /\
    profileToolEnabled server (t_name t0) = true.
Proof.
  intros Hs. unfold list_response. destruct (Failed resp); [by intros Hin%not_elem_of_nil|].
  destruct (responseFromCalloutHeaders _ _) as [status hs].
  case_decide; [by intros Hin%not_elem_of_nil|]. rewrite (lookup_total_correct _ _ _ Hs).
  unfold mergeToolsResult. destruct (unmarshal_response _) as [e|[[e|] res]]; try (by intros Hin%not_elem_of_nil).
  destruct (unmarshal_tools res) as [e|tools]; [by intros Hin%not_elem_of_nil|]. cbn. unfold namespaced.
  intros (t0 & -> & [He Hin]%list_elem_of_filter)%list_elem_of_fmap. by exists t0.
Qed.

Lemma listed_origin id profile ids responses t :
  (forall l, sortTools l ≡ₚ l) -> Forall (fun sid => is_Some (p_Servers profile !! sid)) ids ->
  t ∈ (listed unicode sortTools id profile ids responses).2 ->
  exists sid server t0, p_Servers profile !! sid = Some server /\
    t_name t = serverPrefix sid server +:+ "." +:+ t_name t0 /\ profileToolEnabled server (t_name t0) = true.
Proof.
  intros Hsort Hids. unfold listed. cbn. rewrite Hsort.
  intros (ts & Ht & Hin)%list_elem_of_join. apply list_elem_of_fmap in Hin as ([sid part] & -> & Hin).
  apply list_elem_of_fmap in Hin as ([sid' resp] & [= -> ->] & Hz). cbn in *.
  apply elem_of_zip_l in Hz. rewrite Forall_forall in Hids. destruct (Hids _ Hz) as [server Hs].
  destruct (list_response_tools _ _ _ _ _ Hs Ht) as (t0 & Hn & He). eauto 10.
Qed.

Lemma resolve_namespaced ps profile order sid server tool args :
  servers_ok order -> order ≡ₚ map_to_list (p_Servers profile) -> p_Servers profile !! sid = Some server ->
  profileToolEnabled server tool = true -> tool <> "" ->
  gw_call_params ps = Some (mkCall (serverPrefix sid server +:+ "." +:+ tool) args) ->
  resolveProfileTool ps profile order = inr (sid, tool, mkCall (serverPrefix sid server +:+ "." +:+ tool) args).
Proof.
  intros Hok Hord Hs He Ht Hps. assert ((sid, server) ∈ order) as Hin.
  { rewrite Hord. by apply elem_of_map_to_list. }
  unfold resolveProfileTool. rewrite Hps. cbn [c_name].
  rewrite decide_False by (intros Hx%(f_equal to_chars); rewrite !to_chars_app in Hx; by destruct (to_chars (serverPrefix sid server))).
  change ("." +:+ tool) with (String "." tool). rewrite Cut_app.
  2: { destruct Hok as [_ Hd]. rewrite Forall_forall in Hd. apply (Hd _ Hin). }
  cbn [negb orb]. rewrite bool_decide_false by done. rewrite serverByPrefix_finds by done.
  by rewrite (lookup_total_correct _ _ _ Hs), He.
Qed.

(** Every tool a profile lists can be called by the name it is listed under.  In a
    configuration that [ValidateConfig] accepts, whatever order Go ranges over its maps in,
    a tool of the merged list of a profile is the tool of one of the profile's servers under
    that server's prefix, and, unless the server gave it an empty name, a tools/call with
    the listed name resolves to exactly that server and to the server's own name of it. *)
Theorem gateway_listed_tools_callable o1 o2 o3 pid profile r body session active ids reqs id responses t :
  ValidateConfig config o1 o2 o3 = None -> o2 ≡ₚ map_to_list (Profiles config) ->
  Profiles config !! pid = Some profile -> o3 pid ≡ₚ map_to_list (p_Servers profile) ->
  (forall l, sortTools l ≡ₚ l) ->
  callout_loop unicode config r body profile session active ids = inr reqs ->
  t ∈ (listed unicode sortTools id profile reqs.*2 responses).2 ->
  exists sid server tool, p_Servers profile !! sid = Some server /\
    t_name t = serverPrefix sid server +:+ "." +:+ tool /\
    (tool <> "" -> forall order ps args, order ≡ₚ map_to_list (p_Servers profile) ->
       gw_call_params ps = Some (mkCall (t_name t) args) ->
       resolveProfileTool ps profile order = inr (sid, tool, mkCall (t_name t) args)).
Proof.
  intros Hv Ho2 Hp Ho3 Hsort Hreqs Ht.
  destruct (listed_origin id profile _ responses t Hsort (callout_loop_ids _ _ _ _ _ _ _ Hreqs) Ht)
    as (sid & server & t0 & Hs & Hn & He).
  exists sid, server, (t_name t0). split_and!; [done|done|].
  intros Hne order ps args Hord Hps. rewrite Hn in Hps |- *.
  eapply resolve_namespaced; try done. by eapply validated_servers.
Qed.

(** ** Credentials *)

(** The callouts an action makes. *)
Definition requests_of (a : action) : list HTTPCalloutRequest :=
  match a with Answer _ => [] | Call req _ _ => [req] | Settle reqs _ _ => reqs end.

Definition credentials (req : HTTPCalloutRequest) : list (string * string) :=
  base.filter (fun h => h.1 = "x-mcp-credential-ref" \/ h.1 = "x-mcp-credential-envelope") (rq_Headers req).

(** The cluster a request for server [sid] is to go to: the one the catalog configures for
    it, else the default. *)
Definition destination (sid : string) : string :=
  match CatalogServers config !! sid with
  | Some c => if decide (cat_Cluster c = "") then DefaultCatalogCalloutCluster else cat_Cluster c
  | None => DefaultCatalogCalloutCluster
  end.

(** The headers that address the request. *)
Definition routing_names : list string := [":method"; ":path"; ":scheme"; "host"].
Definition routing (u : url) : list (string * string) :=
  [(":method", "POST"); (":path", u_RequestURI u); (":scheme", u_Scheme u); ("host", u_Host u)].

(** What another header of a request may be, value included: the client's headers reach it
    through four names only, and its session is one [session] allows. *)
Definition may_carry (client : list (string * string)) (session : string -> Prop) (h : string * string) : Prop :=
  h.1 ∈ routing_names \/ h.1 ∈ ["x-mcp-credential-ref"; "x-mcp-credential-envelope"] \/
  (h.1 ∈ ["content-type"; "accept"] /\
     (h.2 = "application/json" \/ h.2 = headerValue unicode client h.1)) \/
  (h.1 = ProtocolVersionHeader /\ h.2 = headerValue unicode client ProtocolVersionHeader) \/
  (h.1 = SessionIDHeader /\ session h.2).

(** The request goes to the cluster configured for server [sid], it is addressed to the
    server's path under [base] by one header each, its credentials are exactly [creds], and
    every other header is one it may carry. *)
Definition for_server (sid base : string) (creds client : list (string * string)) (session : string -> Prop)
    (req : HTTPCalloutRequest) : Prop :=
  Cluster req = destination sid /\
  (exists u, url_Parse (catalogURL base sid) = inr u /\
     base.filter (fun h => h.1 ∈ routing_names) (rq_Headers req) = routing u) /\
  credentials req = creds /\ Forall (may_carry client session) (rq_Headers req).

Lemma may_carry_nonempty client session n v :
  (v <> "" -> may_carry client session (n, v)) -> Forall (may_carry client session) (nonempty_header n v).
Proof. intros Hm. unfold nonempty_header. case_decide; [apply Forall_singleton; auto|constructor]. Qed.

Ltac by_name := by apply (bool_decide_unpack _).

(** Each header of a literal list is of one of the kinds [may_carry] tells apart. *)
Ltac sent_headers :=
  repeat first
    [ apply Forall_nil_2
    | apply Forall_cons; split; [first [left; by_name | right; left; by_name | right; right; left; split; [by_name|]]|]
    | apply Forall_app; split
    | apply may_carry_nonempty; intros Hne ].

Definition server_credentials (server : ProfileServer) : list (string * string) :=
  nonempty_header "x-mcp-credential-ref" (CredentialRef server) ++
  nonempty_header "x-mcp-credential-envelope" (CredentialEnvelope server).

Lemma catalogCluster_destination sid : catalogCluster (CatalogServers config !!! sid) = destination sid.
Proof.
  unfold destination, catalogCluster. rewrite lookup_total_alt.
  destruct (CatalogServers config !! sid) as [c|]; [|done]. simpl. by repeat case_decide.
Qed.

Lemma profile_request_for r body sid server backend (session : string -> Prop) req :
  (backend <> "" -> session backend) ->
  profileToolCallCalloutRequest unicode config r body sid server (CatalogServers config !!! sid) backend = inr req ->
  for_server sid (ps_URL server) (server_credentials server) (tr_headers r) session req.
Proof.
  intros Hse. unfold profileToolCallCalloutRequest. destruct (url_Parse _) as [|u] eqn:Hu; [done|]. intros [= <-].
  split; [apply catalogCluster_destination|]. unfold credentials, profile_headers. cbn [rq_Headers].
  split_and!.
  - exists u. split; [done|]. unfold nonempty_header. repeat case_decide; reflexivity.
  - unfold server_credentials, nonempty_header. repeat case_decide; reflexivity.
  - sent_headers; [by left|by left|..].
    + do 4 right. auto.
    + do 3 right. left. done.
    + right. left. by_name.
    + right. left. by_name.
Qed.

(** What the filter sends of its own to a catalog server: the credential headers, empty. *)
Definition no_credentials : list (string * string) :=
  [("x-mcp-credential-ref", ""); ("x-mcp-credential-envelope", "")].

Lemma header_or_default client n fallback :
  headerOrDefault unicode client n fallback = fallback \/
  headerOrDefault unicode client n fallback = headerValue unicode client n.
Proof. unfold headerOrDefault. case_decide; auto. Qed.

Lemma catalog_request_for r body sid server req :
  CatalogServers config !! sid = Some server ->
  catalogCalloutRequest unicode config r body sid server = inr req ->
  for_server sid (cat_URL server) no_credentials (tr_headers r)
    (fun v => v = headerValue unicode (tr_headers r) SessionIDHeader) req.
Proof.
  intros Hs. unfold catalogCalloutRequest. destruct (url_Parse _) as [|u] eqn:Hu; [done|]. intros [= <-].
  split; [by rewrite <-catalogCluster_destination, (lookup_total_correct _ _ _ Hs)|].
  unfold credentials. cbn [rq_Headers]. split_and!.
  - exists u. split; [done|]. unfold nonempty_header. repeat case_decide; reflexivity.
  - unfold nonempty_header. repeat case_decide; reflexivity.
  - sent_headers; [apply header_or_default|apply header_or_default|..].
    + by do 4 right.
    + do 3 right. by left.
Qed.

(** A request for one of the servers of the profile. *)
Definition for_profile (profile : Profile) (client : list (string * string))
    (session : string -> string -> Prop) (req : HTTPCalloutRequest) : Prop :=
  exists sid server, p_Servers profile !! sid = Some server /\
    for_server sid (ps_URL server) (server_credentials server) client (session sid) req.

(** The backend session of server [sid] in the session of this profile that the client named. *)
Definition backend_session (pid : string) (client : list (string * string)) (sid v : string) : Prop :=
  exists s, decodeProfileSession pid (headerValue unicode client SessionIDHeader) = Some s /\
    Backends s !! sid = Some v.

Lemma callout_loop_for r body profile session active ids reqs (P : string -> string -> Prop) :
  (forall sid v, Backends session !! sid = Some v -> P sid v) ->
  callout_loop unicode config r body profile session active ids = inr reqs ->
  Forall (for_profile profile (tr_headers r) P) reqs.*1.
Proof.
  intros HP. revert reqs. induction ids as [|sid ids IH]; intros reqs; cbn; [by intros [= <-]|].
  destruct (p_Servers profile !! sid) as [server|] eqn:Hs; [|apply IH].
  destruct (profileToolCallCalloutRequest _ _ _ _ _ _ _ _) as [|req] eqn:Hr; [done|].
  destruct (callout_loop _ _ _ _ _ _ _ ids) as [|rest]; [done|]. intros [= <-]. cbn.
  constructor; [|by apply IH]. exists sid, server. split; [done|].
  eapply profile_request_for; [|exact Hr]. destruct active; [|done].
  destruct (Backends session !! sid) eqn:Hb; [|done]. intros _. by apply HP.
Qed.

Lemma resolve_known ps profile order sid tool params :
  order ≡ₚ map_to_list (p_Servers profile) ->
  resolveProfileTool ps profile order = inr (sid, tool, params) -> is_Some (p_Servers profile !! sid).
Proof.
  intros Hord. unfold resolveProfileTool. destruct (gw_call_params ps) as [c|]; [|done].
  case_decide; [done|]. destruct (Cut _ _) as [[prefix tl] ok]. case_match; [done|].
  destruct (serverByPrefix order prefix) as [[s sv]|] eqn:Hf; [|done].
  case_match; [|done]. intros [= -> _ _]. unfold serverByPrefix in Hf.
  apply head_Some_elem_of, list_elem_of_filter in Hf as [_ Hin].
  rewrite Hord in Hin. apply elem_of_map_to_list in Hin. by eexists.
Qed.

Lemma callProfileTool_for r id ps profile session order (P : string -> string -> Prop) req :
  (forall sid v, Backends session !! sid = Some v -> P sid v) ->
  order ≡ₚ map_to_list (p_Servers profile) ->
  req ∈ requests_of (callProfileToolTransit unicode config r id ps profile session order) ->
  for_profile profile (tr_headers r) P req.
Proof.
  intros HP Hord. unfold callProfileToolTransit.
  destruct (resolveProfileTool ps profile order) as [[c m]|[[sid tool] params]] eqn:Hr;
    [by intros Hin%not_elem_of_nil|].
  destruct (resolve_known _ _ _ _ _ _ Hord Hr) as [server Hs].
  destruct (Backends session !! sid) eqn:Hb; [|by intros Hin%not_elem_of_nil].
  destruct (toolCallForwardBody _ _ _); [|by intros Hin%not_elem_of_nil].
  rewrite (lookup_total_correct _ _ _ Hs).
  destruct (profileToolCallCalloutRequest _ _ _ _ _ _ _ _) as [|req'] eqn:Hq; [by intros Hin%not_elem_of_nil|].
  cbn. intros ->%list_elem_of_singleton. exists sid, server. split; [done|].
  eapply profile_request_for; [|exact Hq]. auto.
Qed.

Lemma settled_for r body profile session order reqs (P : string -> string -> Prop) req :
  (forall sid v, Backends session !! sid = Some v -> P sid v) ->
  profileCalloutRequests unicode config r body profile session order = inr reqs ->
  req ∈ reqs.*1 -> for_profile profile (tr_headers r) P req.
Proof. intros HP Hq Hin. eapply callout_loop_for in Hq; [|exact HP]. rewrite Forall_forall in Hq. auto. Qed.

Lemma calloutProfile_for r body pid profile so order req :
  order ≡ₚ map_to_list (p_Servers profile) ->
  req ∈ requests_of (calloutProfileTransit unicode config sortTools r body (pid, Some profile) so order) ->
  profileAuthorized (p_APIKey profile) (headerValue unicode (tr_headers r)) = true /\
  for_profile profile (tr_headers r) (backend_session pid (tr_headers r)) req.
Proof.
  intros Hord. unfold calloutProfileTransit.
  destruct (profileAuthorized _ _); [|by intros Hin%not_elem_of_nil]. cbn [negb].
  intros Hin. split; [done|]. revert Hin.
  destruct (gw_request body) as [rpc|]; [|by intros Hin%not_elem_of_nil].
  case_decide; [|case_decide; [|case_decide]].
  - unfold initializeProfileTransit. destruct (profileCalloutRequests _ _ _ _ _ _ _) eqn:Hq;
      [by intros Hin%not_elem_of_nil|]. eapply settled_for; [|exact Hq]. intros sid v Hv. by apply (lookup_empty_Some sid v) in Hv.
  - unfold listProfileToolsTransit. destruct (if decide _ then _ else _) as [se|] eqn:Hse; [|by intros Hin%not_elem_of_nil].
    destruct (toolsListRequestBody _); [|by intros Hin%not_elem_of_nil].
    destruct (profileCalloutRequests _ _ _ _ _ _ _) eqn:Hq; [by intros Hin%not_elem_of_nil|].
    eapply settled_for; [|exact Hq]. intros sid v Hv. case_decide; simplify_eq. by exists se.
  - case_decide; [by intros Hin%not_elem_of_nil|].
    destruct (decodeProfileSession _ _) as [se|] eqn:Hse; [|by intros Hin%not_elem_of_nil].
    apply callProfileTool_for; [|done]. intros sid v Hv. by exists se.
  - by intros Hin%not_elem_of_nil.
Qed.

(** C30: credentials go only where the configuration sends them.  Every callout the filter
    makes, for any request whatever its headers, is for one server: it is sent to the
    cluster the catalog configures for that server (the default cluster when it configures
    none), addressed by one method, path, scheme and host, those of the server's URL.  It is
    either for a catalog server, and then its two credential headers are present and empty,
    or for a server of the profile the path names, and then the client was authorized for
    that profile and the credential headers are exactly that server's.  Every other header
    is pinned by value too: the JSON content types or the client's own content-type and
    accept, the client's protocol version, and a session that is the client's for a catalog
    server and, for a profile server, the session of that same server inside the client's
    session of that profile.  No other header of the client's is read: not the API key. *)
Theorem gateway_credentials_confined net_http so server_order eos ctx data a req :
  (forall m, server_order m ≡ₚ map_to_list m) ->
  transit_body unicode config sortTools net_http so server_order eos ctx data = Some a -> req ∈ requests_of a ->
  exists r, ctx = Some r /\
    ((exists sid server, CatalogServers config !! sid = Some server /\
        for_server sid (cat_URL server) no_credentials (tr_headers r)
          (fun v => v = headerValue unicode (tr_headers r) SessionIDHeader) req) \/
     (exists pid profile, Profiles config !! pid = Some profile /\
        profileFromTransitPath config (tr_path r) = (pid, Some profile) /\
        profileAuthorized (p_APIKey profile) (headerValue unicode (tr_headers r)) = true /\
        for_profile profile (tr_headers r) (backend_session pid (tr_headers r)) req)).
Proof.
  intros Hord. unfold transit_body. destruct ctx as [r|]; [|done]. case_match; [done|].
  destruct (HasPrefix _ "/mcp/s/"); [|destruct (HasPrefix _ "/mcp/")]; intros [= <-].
  - intros Hin. exists r. split; [done|]. left. revert Hin.
    unfold catalogServerFromTransitPath, calloutCatalogServerTransit.
    repeat case_match; simplify_eq; try (by intros Hin%not_elem_of_nil).
    cbn. intros ->%list_elem_of_singleton. do 2 eexists. split; [done|]. by eapply catalog_request_for.
  - destruct (profileFromTransitPath config (tr_path r)) as [pid [profile|]] eqn:Hp;
      [|by intros Hin%not_elem_of_nil].
    intros Hin. exists r. split; [done|]. right. exists pid, profile.
    apply calloutProfile_for in Hin as [Ha Hf]; [|apply Hord]. split_and!; [|done|done|done].
    unfold profileFromTransitPath in Hp. repeat case_match; by simplify_eq.
  - by intros Hin%not_elem_of_nil.
Qed.
End tools.

(** ** Witnesses *)

Definition toy_url : NetURL :=
  {| url_Parse raw := inr (mkURL "http" raw false "/mcp/s/gh" raw); PathEscape s := s; PathUnescape s := inr s |}.

(** A request's method is its text, and so is the name of a called tool. *)
Definition toy_json : GwJson :=
  {| gw_request b := Some (mkRequest [] (String.string_of_list_byte b) []);
     gw_call_params j := Some (mkCall (String.string_of_list_byte j) []);
     marshal_call_params c := Some (String.list_byte_of_string (c_name c));
     marshal_request r := Some (String.list_byte_of_string (rq_method r));
     marshal_response _ := Some [];
     marshal_session _ := Some (String.list_byte_of_string "{}");
     unmarshal_session _ := Some (mkProfileSession "team" {["gh" := "s1"]});
     unmarshal_response b := inr (None, b);
     unmarshal_init _ := inr syntheticInitializeResult;
     unmarshal_tools _ := inr [mkTool "search" "" []] |}.

Definition gh_server : ProfileServer := mkProfileServer "http://gh" "" "vault/gh" "" None.
Definition team : Profile := mkGwProfile "Team" "" {["gh" := gh_server]}.
Definition toy_config : Config := mkConfig 0 {["team" := team]} {["gh" := mkCatalog "http://catalog" ""]}.

Lemma gateway_session_bound_witness :
  let J := toy_json in
  exists sessionID, encodeProfileSession "team" {["gh" := "s1"]} = Some sessionID /\
    decodeProfileSession "team" sessionID = Some (mkProfileSession "team" {["gh" := "s1"]}) /\
    decodeProfileSession "other" sessionID = None.
Proof.
  intros J. eexists. split; [vm_compute; reflexivity|].
  edestruct (@gateway_session_bound toy_json "team" {["gh" := "s1"]}) as [H1 H2].
  - intros raw [= <-]. split; [done|reflexivity].
  - vm_compute. discriminate.
  - vm_compute. reflexivity.
  - split; [exact H1|]. apply H2. discriminate.
Defined.

Definition list_request : transitRequest := mkTransit "POST" "/mcp/team" [].

Lemma gateway_listed_tools_callable_witness :
  let U := toy_url in let J := toy_json in
  resolveProfileTool (String.list_byte_of_string "gh.search") team [("gh", gh_server)] =
    inr ("gh", "search", mkCall "gh.search" []).
Proof.
  intros U J.
  destruct (@gateway_listed_tools_callable toy_url toy_json (fun _ _ => false) toy_config id
    [("gh", mkCatalog "http://catalog" "")] [("team", team)] (fun _ => [("gh", gh_server)]) "team" team
    list_request [] (mkProfileSession "" ∅) false ["gh"]
    (match callout_loop (fun _ _ => false) toy_config list_request [] team (mkProfileSession "" ∅) false ["gh"] with
     | inr l => l | inl _ => [] end) [] [settled_done (mkDelivery 0 None None)]
    (mkTool "gh.search" "" [])) as (sid & server & tool & Hs & Hn & Hr).
  - vm_compute. reflexivity.
  - vm_compute. reflexivity.
  - vm_compute. reflexivity.
  - vm_compute. reflexivity.
  - done.
  - vm_compute. reflexivity.
  - vm_compute. left.
  - change (p_Servers team) with ({["gh" := gh_server]} : gmap string ProfileServer) in Hs.
    apply lookup_singleton_Some in Hs as [<- <-]. vm_compute in Hn. injection Hn as <-.
    apply Hr; [discriminate|vm_compute; reflexivity|reflexivity].
Defined.

Lemma gateway_credentials_confined_witness :
  let U := toy_url in let J := toy_json in
  let a := transit_body (fun _ _ => false) toy_config id (fun _ _ => mkReply 200 [] []) (fun _ => [])
    map_to_list true (Some list_request) (String.list_byte_of_string "initialize") in
  length <$> (requests_of <$> a) = Some 1 /\
  forall req, req ∈ default [] (requests_of <$> a) ->
    Cluster req = DefaultCatalogCalloutCluster /\
    (credentials req = no_credentials \/ credentials req = [("x-mcp-credential-ref", "vault/gh")]).
Proof.
  intros U J a. split; [vm_compute; reflexivity|]. intros req Hin.
  destruct a as [act|] eqn:Ha; [|by apply not_elem_of_nil in Hin].
  destruct (@gateway_credentials_confined toy_url toy_json (fun _ _ => false) toy_config id
    (fun _ _ => mkReply 200 [] []) (fun _ => []) map_to_list true (Some list_request)
    (String.list_byte_of_string "initialize") act req) as (r & Hr & Hd).
  - done.
  - exact Ha.
  - exact Hin.
  - destruct Hd as [(sid & server & Hs & Hc & _ & Hk & _)|(pid & p & Hp & _ & _ & (sid & server & Hs & Hc & _ & Hk & _))].
    + change (({["gh" := mkCatalog "http://catalog" ""]} : gmap string CatalogServer) !! sid = Some server) in Hs.
      apply lookup_singleton_Some in Hs as [<- <-]. split; [rewrite Hc; reflexivity|left; exact Hk].
    + change (({["team" := team]} : gmap string Profile) !! pid = Some p) in Hp.
      apply lookup_singleton_Some in Hp as [<- <-].
      change (({["gh" := gh_server]} : gmap string ProfileServer) !! sid = Some server) in Hs.
      apply lookup_singleton_Some in Hs as [<- <-]. split; [rewrite Hc; reflexivity|right; rewrite Hk; reflexivity].
Defined.
