(* ===== verification/SseTap.v ===== *)
(** * examples/sse-tap: token usage read off a streamed response

    The response observer keeps the two ends of the body ([RingBuffer.HeadTail]) and, at the
    end of the stream, looks for token counts in them.  The model has the observer as a
    function from the stream's context slot and a chunk to the new slot and the calls made on
    the writer; the JSON decoder is a parameter, one function per shape it is asked for. *)
From stdpp Require Import base list strings sets.
From Stdlib Require Import ZArith Lia.
From S2P Require Import Prelude GoStrings RingBuffer.
#[local] Open Scope Z_scope.

(** ** Bytes *)

Definition nl : Byte.byte := Byte.x0a.
Definition cr : Byte.byte := Byte.x0d.

Definition lit (s : string) : bytes := String.list_byte_of_string s.

(** [bytes.IndexByte]; [None] is -1. *)
Fixpoint IndexByte (data : bytes) (b : Byte.byte) : option nat :=
  match data with
  | [] => None
  | x :: data => if decide (x = b) then Some 0%nat else S <$> IndexByte data b
  end.

(** [bytes.TrimRight(data, cutset)] with a cutset of one byte. *)
Fixpoint drop_while_eq (b : Byte.byte) (l : bytes) : bytes :=
  match l with
  | [] => []
  | x :: l' => if decide (x = b) then drop_while_eq b l' else l
  end.

Definition bytes_TrimRight (data : bytes) (b : Byte.byte) : bytes :=
  reverse (drop_while_eq b (reverse data)).

(** [bytes.HasPrefix]. *)
Definition bytes_HasPrefix (data prefix : bytes) : bool :=
  bool_decide (take (length prefix) data = prefix).

(** ** Lines *)

(** [scanLines(data, fn)], [fn] updating the variables it captures; [None] when [fuel] turns
    of the loop do not end it. *)
Fixpoint scan_loop {A} (fuel : nat) (fn : bytes -> A -> A) (data : bytes) (a : A) : option A :=
  match IndexByte data nl with
  | None => Some a
  | Some idx =>
      match fuel with
      | O => None
      | S fuel => scan_loop fuel fn (drop (idx + 1) data) (fn (bytes_TrimRight (take idx data) cr) a)
      end
  end.

Definition scanLines {A} (fn : bytes -> A -> A) (data : bytes) (a : A) : option A :=
  scan_loop (length data) fn data a.

(** ** Usage *)

Record TokenUsage := mkUsage { Input : Z; Output : Z }.

(** The [usage] object of a data chunk. *)
Record chunkUsage := mkChunkUsage {
  PromptTokens : Z;
  CompletionTokens : Z;
  InputTokens : Z;
  OutputTokens : Z;
}.

(** [json.Unmarshal] into the three anonymous structs; [None] is an error.  The inner option
    of [unmarshal_chunk] is the pointer [Usage]. *)
Class SseJson := {
  unmarshal_start : bytes -> option Z;
  unmarshal_chunk : bytes -> option (option chunkUsage);
  unmarshal_delta : bytes -> option Z;
}.

Section usage.
Context `{SseJson}.

(** The captured variables: [u] and [curEvent]. *)
Record scan_vars := mkVars { sv_u : TokenUsage; curEvent : bytes }.

(** The closure of the first scan. *)
Definition head_line (line : bytes) (v : scan_vars) : scan_vars :=
  if bytes_HasPrefix line (lit "event: ") then mkVars (sv_u v) (drop 7 line)
  else if (Input (sv_u v) =? 0) && bool_decide (curEvent v = lit "message_start") &&
          bytes_HasPrefix line (lit "data: ") then
    match unmarshal_start (drop 6 line) with
    | Some n => if 0 <? n then mkVars (mkUsage n (Output (sv_u v))) (curEvent v) else v
    | None => v
    end
  else v.

(** The two updates of the second scan on a data line. *)
Definition openai_update (data : bytes) (u : TokenUsage) : TokenUsage :=
  if (Input u =? 0) || (Output u =? 0) then
    match unmarshal_chunk data with
    | Some (Some c) =>
        let u := if Input u =? 0
                 then mkUsage (uint32_of (PromptTokens c + InputTokens c)) (Output u) else u in
        if Output u =? 0
        then mkUsage (Input u) (uint32_of (CompletionTokens c + OutputTokens c)) else u
    | _ => u
    end
  else u.

Definition anthropic_update (ev data : bytes) (u : TokenUsage) : TokenUsage :=
  if bool_decide (ev = lit "message_delta") && (Output u =? 0) then
    match unmarshal_delta data with
    | Some n => mkUsage (Input u) n
    | None => u
    end
  else u.

(** The closure of the second scan. *)
Definition tail_line (line : bytes) (v : scan_vars) : scan_vars :=
  if negb (bytes_HasPrefix line (lit "data: ")) && negb (bytes_HasPrefix line (lit "event: "))
  then v
  else if bytes_HasPrefix line (lit "event: ") then mkVars (sv_u v) (drop 7 line)
  else
    let data := drop 6 line in
    if decide (data = lit "[DONE]") then v
    else mkVars (anthropic_update (curEvent v) data (openai_update data (sv_u v))) (curEvent v).

Definition ExtractUsage (head tail : bytes) : option TokenUsage :=
  v ← scanLines head_line head (mkVars (mkUsage 0 0) []);
  v ← scanLines tail_line tail (mkVars (sv_u v) []);
  Some (sv_u v).

(** ** The observer *)

Record ResponseChunk := mkChunk {
  ch_Data : option bytes;   (* None is nil *)
  ch_EndStream : bool;
  ch_ContentType : string;
}.

(** [ringState], the only type this filter stores in the context slot. *)
Record ringState := mkRingState { ring : option HeadTail; skip : bool }.

Inductive tap_call :=
  | TIncrement (metric : string) (by_ : Z)
  | TSetMetadata (ns key : string) (value : Z).

Definition emit_usage (u : TokenUsage) : list tap_call :=
  (if 0 <? Input u then [TIncrement "sse_tap_input_tokens" (Input u)] else []) ++
  (if 0 <? Output u then [TIncrement "sse_tap_output_tokens" (Output u)] else []) ++
  [TSetMetadata "sse_tap" "input_tokens" (Input u);
   TSetMetadata "sse_tap" "output_tokens" (Output u)].

(** [tapResponse]; [None] when it does not return (a panic, or a loop that does not end). *)
Definition tapResponse (ctx : option ringState) (chunk : ResponseChunk) :
    option (option ringState * list tap_call) :=
  if bool_decide (ch_Data chunk = None) && negb (ch_EndStream chunk) then
    if negb (Contains (ch_ContentType chunk) "text/event-stream")
    then Some (Some (mkRingState None true), [])
    else match NewHeadTail (8 * 1024) (64 * 1024) with
         | Ok ht => Some (Some (mkRingState (Some ht) false), [])
         | Panic _ => None
         end
  else
    match ctx with
    | None => Some (ctx, [])
    | Some s =>
        if skip s then Some (ctx, [])
        else
          ht ← ring s;
          ht ← match default [] (ch_Data chunk) with
               | [] => Some ht
               | d => HT_Write ht d
               end;
          if negb (ch_EndStream chunk) then Some (Some (mkRingState (Some ht) false), [])
          else
            let head := Head ht in
            let '(tail, ht) := Tail ht in
            u ← ExtractUsage head tail;
            Some (Some (mkRingState (Some ht) false), emit_usage u)
    end.

(** A stream as the filter delivers it: the headers call, then one call per body frame.
    [OnResponseBody] builds the data by appending to a nil slice, so an empty frame has nil
    data. *)
Definition frame_data (b : bytes) : option bytes :=
  match b with [] => None | _ => Some b end.

Fixpoint tap_frames (ct : string) (frames : list bytes) (last : bytes) (ctx : option ringState) :
    option (option ringState * list tap_call) :=
  match frames with
  | [] => tapResponse ctx (mkChunk (frame_data last) true ct)
  | b :: frames =>
      r ← tapResponse ctx (mkChunk (frame_data b) false ct);
      r' ← tap_frames ct frames last r.1;
      Some (r'.1, r.2 ++ r'.2)
  end.

Definition tap_stream (ct : string) (frames : list bytes) (last : bytes) :
    option (option ringState * list tap_call) :=
  r ← tapResponse None (mkChunk None false ct);
  r' ← tap_frames ct frames last r.1;
  Some (r'.1, r.2 ++ r'.2).

(** ** What the extraction stands for *)

(** The complete lines of a text, without their terminators. *)
Fixpoint lines_from (cur data : bytes) : list bytes :=
  match data with
  | [] => []
  | x :: data => if decide (x = nl) then bytes_TrimRight (reverse cur) cr :: lines_from [] data
                 else lines_from (x :: cur) data
  end.

(** The data lines of a list of lines, each with the event name in force. *)
Fixpoint sse_data (ev : bytes) (ls : list bytes) : list (bytes * bytes) :=
  match ls with
  | [] => []
  | l :: ls =>
      if bytes_HasPrefix l (lit "event: ") then sse_data (drop 7 l) ls
      else if bytes_HasPrefix l (lit "data: ") then (ev, drop 6 l) :: sse_data ev ls
      else sse_data ev ls
  end.

Definition data_of (text : bytes) : list (bytes * bytes) := sse_data [] (lines_from [] text).

(** The first count that is not zero; zero when there is none. *)
Fixpoint first_nonzero (l : list Z) : Z :=
  match l with
  | [] => 0
  | n :: l => if n =? 0 then first_nonzero l else n
  end.

(** The counts a data line offers, in the order they are considered. *)
Definition start_counts (e : bytes * bytes) : list Z :=
  if decide (e.1 = lit "message_start")
  then match unmarshal_start e.2 with Some n => [n] | None => [] end else [].

Definition chunk_inputs (e : bytes * bytes) : list Z :=
  if decide (e.2 = lit "[DONE]") then []
  else match unmarshal_chunk e.2 with
       | Some (Some c) => [uint32_of (PromptTokens c + InputTokens c)]
       | _ => []
       end.

Definition chunk_outputs (e : bytes * bytes) : list Z :=
  if decide (e.2 = lit "[DONE]") then []
  else match unmarshal_chunk e.2 with
       | Some (Some c) => [uint32_of (CompletionTokens c + OutputTokens c)]
       | _ => []
       end ++
       (if decide (e.1 = lit "message_delta")
        then match unmarshal_delta e.2 with Some n => [n] | None => [] end else []).

Definition usage_of (head tail : bytes) : TokenUsage :=
  mkUsage (first_nonzero ((data_of head ≫= start_counts) ++ (data_of tail ≫= chunk_inputs)))
          (first_nonzero (data_of tail ≫= chunk_outputs)).
End usage.

(** The decoder yields 32-bit counts. *)
Class SseJsonLaws `{SseJson} : Prop := {
  start_range : forall d n, unmarshal_start d = Some n -> 0 <= n < 2 ^ 32;
  delta_range : forall d n, unmarshal_delta d = Some n -> 0 <= n < 2 ^ 32;
}.

(** ** Lemmas: lines *)

Lemma IndexByte_Some data b i : IndexByte data b = Some i ->
  (i < length data)%nat /\ (b ∉ take i data) /\ data = take i data ++ (b :: drop (i + 1) data).
Proof.
  revert i. induction data as [|x data IH]; intros i; cbn [IndexByte]; [done|].
  case_decide as Hx.
  - intros [= <-]. subst. cbn. split_and!; [lia|set_solver|by rewrite drop_0].
  - destruct (IndexByte data b) as [j|]; [|done]. intros [= <-].
    destruct (IH j eq_refl) as (Hj & Hn & E). cbn. split_and!; [lia|set_solver|by f_equal].
Qed.

Lemma IndexByte_None data b : IndexByte data b = None -> b ∉ data.
Proof.
  induction data as [|x data IH]; cbn [IndexByte]; [set_solver|].
  case_decide; [done|]. destruct (IndexByte data b); [done|]. set_solver.
Qed.

Lemma lines_from_line cur l data : nl ∉ l ->
  lines_from cur (l ++ (nl :: data)) =
  bytes_TrimRight (reverse cur ++ l) cr :: lines_from [] data.
Proof.
  revert cur. induction l as [|x l IH]; intros cur Hl; cbn.
  - rewrite decide_True by done. by rewrite app_nil_r.
  - rewrite decide_False by set_solver. rewrite IH by set_solver.
    by rewrite reverse_cons, <- app_assoc.
Qed.

Lemma lines_from_rest cur l : nl ∉ l -> lines_from cur l = [].
Proof.
  revert cur. induction l as [|x l IH]; intros cur Hl; cbn; [done|].
  rewrite decide_False by set_solver. apply IH. set_solver.
Qed.

(** The loop ends, having applied the function to the complete lines in order. *)
Lemma scan_loop_lines {A} (fn : bytes -> A -> A) fuel : forall data a, (length data <= fuel)%nat ->
  scan_loop fuel fn data a = Some (foldl (fun a l => fn l a) a (lines_from [] data)).
Proof.
  induction fuel as [|fuel IH]; intros data a Hf.
  { destruct data; [done|]. cbn in Hf. lia. }
  cbn [scan_loop]. destruct (IndexByte data nl) as [i|] eqn:E.
  - apply IndexByte_Some in E as (Hi & Hn & E). rewrite IH by (rewrite length_drop; lia).
    f_equal. rewrite E at 3. by rewrite lines_from_line.
  - apply IndexByte_None in E. by rewrite lines_from_rest.
Qed.

Lemma scanLines_lines {A} (fn : bytes -> A -> A) data a :
  scanLines fn data a = Some (foldl (fun a l => fn l a) a (lines_from [] data)).
Proof. by apply scan_loop_lines. Qed.

(** ** Lemmas: counts *)

Lemma first_nonzero_app l k :
  first_nonzero (l ++ k) = if first_nonzero l =? 0 then first_nonzero k else first_nonzero l.
Proof.
  induction l as [|n l IH]; cbn; [done|]. destruct (n =? 0) eqn:E; [done|]. by rewrite E.
Qed.

(** What a running count becomes when more candidates are considered. *)
Definition refine (n : Z) (l : list Z) : Z := if n =? 0 then first_nonzero l else n.

Lemma refine_app n l k : refine n (l ++ k) = refine (refine n l) k.
Proof.
  unfold refine. rewrite first_nonzero_app. destruct (n =? 0) eqn:E; [done|]. by rewrite E.
Qed.

Lemma refine_nil n : refine n [] = n.
Proof. unfold refine. destruct (n =? 0) eqn:E; cbn; lia. Qed.

Lemma refine_one n m : refine n [m] = if n =? 0 then m else n.
Proof. unfold refine; cbn. destruct (n =? 0), (m =? 0) eqn:E; lia. Qed.

Lemma prefixes_disjoint l : bytes_HasPrefix l (lit "event: ") = true ->
  bytes_HasPrefix l (lit "data: ") = false.
Proof.
  unfold bytes_HasPrefix. intros H%bool_decide_eq_true. apply bool_decide_eq_false. intros E.
  destruct l; [done|]. cbn in H, E. congruence.
Qed.

Section usage_lemmas.
Context `{SseJsonLaws}.

Lemma head_fold ls : forall ev u,
  sv_u (foldl (fun v l => head_line l v) (mkVars u ev) ls) =
  mkUsage (refine (Input u) (sse_data ev ls ≫= start_counts)) (Output u).
Proof.
  induction ls as [|l ls IH]; intros ev u; cbn [foldl sse_data].
  { cbn. rewrite refine_nil. by destruct u. }
  unfold head_line at 2. cbn [sv_u curEvent].
  destruct (bytes_HasPrefix l (lit "event: ")); [apply IH|].
  destruct (bytes_HasPrefix l (lit "data: ")); rewrite ?andb_false_r; [|apply IH].
  rewrite andb_true_r, bind_cons, refine_app. unfold start_counts at 1. cbn [fst snd].
  destruct (decide (ev = lit "message_start")) as [->|Hev].
  2:{ rewrite (bool_decide_eq_false_2 _ Hev), andb_false_r, refine_nil. apply IH. }
  rewrite (bool_decide_eq_true_2 _ eq_refl), andb_true_r.
  destruct (unmarshal_start (drop 6 l)) as [n|] eqn:En.
  2:{ rewrite refine_nil. destruct (Input u =? 0); apply IH. }
  apply start_range in En. rewrite refine_one. destruct (Input u =? 0) eqn:Eu; [|apply IH].
  destruct (0 <? n) eqn:E0; rewrite IH; [done|]. f_equal. f_equal. lia.
Qed.

Lemma tail_data_line ev data u :
  anthropic_update ev data (openai_update data u) =
  if decide (data = lit "[DONE]") then anthropic_update ev data (openai_update data u)
  else mkUsage (refine (Input u) (chunk_inputs (ev, data)))
               (refine (Output u) (chunk_outputs (ev, data))).
Proof.
  case_decide as Hd; [done|]. unfold chunk_inputs, chunk_outputs. cbn [fst snd].
  rewrite !(decide_False _ _ Hd), refine_app. unfold anthropic_update, openai_update.
  destruct u as [i o]; cbn [Input Output].
  assert (forall o', (if bool_decide (ev = lit "message_delta") && (o' =? 0)
            then match unmarshal_delta data with Some n => n | None => o' end else o') =
          refine o' (if decide (ev = lit "message_delta")
            then match unmarshal_delta data with Some n => [n] | None => [] end else [])) as Hdelta.
  { intros o'. case_decide as E.
    - rewrite (bool_decide_eq_true_2 _ E). destruct (unmarshal_delta data).
      + by rewrite refine_one.
      + rewrite refine_nil. by destruct (_ && _).
    - by rewrite (bool_decide_eq_false_2 _ E), refine_nil. }
  rewrite <- Hdelta. clear Hdelta.
  destruct (unmarshal_chunk data) as [[c|]|]; rewrite ?refine_nil, ?refine_one;
    destruct (i =? 0) eqn:Ei, (o =? 0) eqn:Eo; cbn [orb Input Output]; rewrite ?Eo;
    repeat case_match; simplify_eq/=; congruence.
Qed.

Lemma tail_fold ls : forall ev u,
  sv_u (foldl (fun v l => tail_line l v) (mkVars u ev) ls) =
  mkUsage (refine (Input u) (sse_data ev ls ≫= chunk_inputs))
          (refine (Output u) (sse_data ev ls ≫= chunk_outputs)).
Proof.
  induction ls as [|l ls IH]; intros ev u; cbn [foldl sse_data].
  { cbn. rewrite !refine_nil. by destruct u. }
  unfold tail_line at 2. cbn [sv_u curEvent].
  destruct (bytes_HasPrefix l (lit "event: ")) eqn:Ee.
  { rewrite (prefixes_disjoint _ Ee). cbn. apply IH. }
  destruct (bytes_HasPrefix l (lit "data: ")); cbn [negb andb]; [|apply IH].
  rewrite !bind_cons, !refine_app. destruct (decide (drop 6 l = lit "[DONE]")) as [Hd|Hd].
  - unfold chunk_inputs at 1, chunk_outputs at 1. cbn [fst snd].
    rewrite !(decide_True _ _ Hd), !refine_nil. apply IH.
  - rewrite IH, tail_data_line, (decide_False _ _ Hd). done.
Qed.

Lemma ExtractUsage_usage head tail : ExtractUsage head tail = Some (usage_of head tail).
Proof.
  unfold ExtractUsage. rewrite scanLines_lines. cbn [mbind option_bind].
  rewrite scanLines_lines. cbn [mbind option_bind]. f_equal.
  rewrite head_fold, tail_fold. cbn [Input Output]. unfold usage_of, data_of. f_equal.
  symmetry. rewrite first_nonzero_app. done.
Qed.

(** ** Lemmas: the observer *)

Definition head_capacity : nat := Z.to_nat (8 * 1024).
Definition tail_capacity : nat := Z.to_nat (64 * 1024).

(** The context while a tapped stream is running: the two ends of what came so far. *)
Definition tapping (ctx : option ringState) (hist : bytes) : Prop :=
  exists ht, ctx = Some (mkRingState (Some ht) false) /\ ht_ok ht hist /\
    headSize ht = head_capacity /\ size (RingBuffer.tail ht) = tail_capacity.

Lemma tap_headers ctx ct : Contains ct "text/event-stream" = true ->
  exists ctx', tapResponse ctx (mkChunk None false ct) = Some (ctx', []) /\ tapping ctx' [].
Proof.
  intros Hct. unfold tapResponse. cbn [ch_Data ch_EndStream ch_ContentType].
  rewrite Hct. destruct (NewHeadTail_ok (8 * 1024) (64 * 1024)) as (ht & E & Hok & Hh & Ht); [lia..|].
  cbn [negb andb]. rewrite E. eexists. split; [done|]. by exists ht.
Qed.

(** The data of a frame is written whichever way it is presented. *)
Lemma tap_write ht hist b : ht_ok ht hist ->
  exists ht', match default [] (frame_data b) with [] => Some ht | d => HT_Write ht d end = Some ht' /\
    ht_ok ht' (hist ++ b) /\ headSize ht' = headSize ht /\
    size (RingBuffer.tail ht') = size (RingBuffer.tail ht).
Proof.
  intros Hok. destruct b as [|x b]; cbn [frame_data default from_option].
  - exists ht. by rewrite app_nil_r.
  - apply (HT_Write_ok ht hist (x :: b) Hok).
Qed.

Lemma tap_body ctx hist b ct : tapping ctx hist -> b <> [] ->
  exists ctx', tapResponse ctx (mkChunk (frame_data b) false ct) = Some (ctx', []) /\
    tapping ctx' (hist ++ b).
Proof.
  intros (ht & -> & Hok & Hh & Ht) Hb.
  destruct (tap_write ht hist b Hok) as (ht' & E & Hok' & Hh' & Ht').
  unfold tapResponse. cbn [ch_Data ch_EndStream ch_ContentType skip ring mbind option_bind].
  rewrite E. destruct b as [|x b]; [done|]. cbn. eexists. split; [done|].
  exists ht'. split_and!; [done|done|congruence..].
Qed.

Lemma tap_end ctx hist b ct : tapping ctx hist ->
  exists ctx', tapResponse ctx (mkChunk (frame_data b) true ct) =
    Some (ctx', emit_usage (usage_of (take head_capacity (hist ++ b)) (lastn tail_capacity (hist ++ b)))).
Proof.
  intros (ht & -> & Hok & Hh & Ht).
  destruct (tap_write ht hist b Hok) as (ht' & E & Hok' & Hh' & Ht').
  unfold tapResponse. cbn [ch_Data ch_EndStream ch_ContentType skip ring mbind option_bind].
  rewrite E, andb_false_r. cbn [negb mbind option_bind].
  destruct Hok' as [_ _ Hhd Hrg]. pose proof (Bytes_ok _ _ Hrg) as Hb.
  unfold Tail, Head. rewrite Hhd, Hh', Hh. destruct (Bytes (RingBuffer.tail ht')) as [tl t'].
  cbn [fst] in Hb. rewrite Hb, Ht', Ht, ExtractUsage_usage. eexists. done.
Qed.

Lemma tap_frames_usage ct frames last : forall ctx hist, tapping ctx hist ->
  Forall (fun b => b <> []) frames ->
  exists ctx', tap_frames ct frames last ctx =
    Some (ctx', emit_usage (usage_of (take head_capacity (hist ++ mjoin frames ++ last))
                                     (lastn tail_capacity (hist ++ mjoin frames ++ last)))).
Proof.
  induction frames as [|b frames IH]; intros ctx hist Hc Hf; cbn [tap_frames].
  { by apply tap_end. }
  apply Forall_cons in Hf as [Hb Hf].
  destruct (tap_body ctx hist b ct Hc Hb) as (ctx1 & E & Hc1). rewrite E. cbn [mbind option_bind fst snd].
  destruct (IH ctx1 (hist ++ b) Hc1 Hf) as (ctx' & E'). rewrite E'. exists ctx'.
  cbn. by rewrite <- !app_assoc.
Qed.
End usage_lemmas.

(** ** Properties *)

(** However the body of an event stream is cut into frames, the observer returns from every
    call, calls the writer only at the end of the stream, and what it then reports is the
    usage of the body's first 8 KB and last 64 KB: the input count is the first non-zero one
    of the [message_start] events of the head and of the usage objects of the tail, the
    output count the first non-zero one of the usage objects and [message_delta] events of
    the tail. *)
Theorem tap_reports_usage_of_both_ends `{SseJsonLaws} ct frames last :
  Contains ct "text/event-stream" = true -> Forall (fun b => b <> []) frames ->
  let body := mjoin frames ++ last in
  exists ctx, tap_stream ct frames last =
    Some (ctx, emit_usage (usage_of (take head_capacity body) (lastn tail_capacity body))).
Proof.
  intros Hct Hf body. destruct (tap_headers None ct Hct) as (ctx & E & Hc).
  unfold tap_stream. rewrite E. cbn [mbind option_bind fst snd].
  destruct (tap_frames_usage ct frames last ctx [] Hc Hf) as (ctx' & E'). rewrite E'. by exists ctx'.
Qed.

(** A decoder for the witnesses: it knows two data lines. *)
#[local] Instance sample_json : SseJson := {|
  unmarshal_start d := if decide (d = lit "S") then Some 7 else None;
  unmarshal_chunk d := if decide (d = lit "S") then Some None else None;
  unmarshal_delta d := if decide (d = lit "D") then Some 5 else None;
|}.

#[local] Instance sample_json_laws : SseJsonLaws.
Proof. constructor; cbn; intros d n; case_decide; intros [= <-]; lia. Qed.

Definition sample_body : list bytes :=
  [lit "event: message_st"; lit "art" ++ [cr; nl] ++ lit "data: S" ++ [nl];
   lit "event: message_delta" ++ [nl] ++ lit "da"].

Lemma tap_reports_usage_of_both_ends_witness :
  exists ctx, tap_stream "text/event-stream; charset=utf-8" sample_body (lit "ta: D" ++ [nl]) =
    Some (ctx, [TIncrement "sse_tap_input_tokens" 7; TIncrement "sse_tap_output_tokens" 5;
                TSetMetadata "sse_tap" "input_tokens" 7; TSetMetadata "sse_tap" "output_tokens" 5]).
Proof.
  destruct (tap_reports_usage_of_both_ends "text/event-stream; charset=utf-8" sample_body
              (lit "ta: D" ++ [nl])) as (ctx & E).
  - reflexivity.
  - by apply (bool_decide_unpack _).
  - exists ctx. exact E.
Defined.

(** An empty frame in the middle of the body is indistinguishable from the headers call, and
    restarts the capture: the input count seen before it is lost. *)
Lemma empty_frame_restarts_capture :
  (snd <$> tap_stream "text/event-stream" (sample_body ++ [[]]) (lit "ta: D" ++ [nl])) =
    Some [TSetMetadata "sse_tap" "input_tokens" 0; TSetMetadata "sse_tap" "output_tokens" 0].
Proof. by vm_compute. Qed.

(** The last line of a body counts only when it is terminated. *)
Lemma unterminated_line_ignored :
  (snd <$> tap_stream "text/event-stream" sample_body (lit "ta: D")) =
    Some [TIncrement "sse_tap_input_tokens" 7;
          TSetMetadata "sse_tap" "input_tokens" 7; TSetMetadata "sse_tap" "output_tokens" 0].
Proof. by vm_compute. Qed.
