(* ===== verification/AsyncRouter.v ===== *)
(** * examples/cluster-async-router: the upstream named by the request body

    The HTTP filter leaves a token in the filter state when the headers arrive and resolves
    the token's [Pending] when the body is complete; the load balancer answers [ChooseHost]
    with a completion, and a goroutine per completion waits for the [Pending].  The model is
    a step relation over the state they share: the handlers of any number of streams, the
    load balancers' calls, the goroutines and the tasks of the cluster's main thread
    interleave freely.  The JSON decoder and the resolver are parameters. *)
From stdpp Require Import base list gmap strings sets relations pretty.
From Stdlib Require Import ZArith Lia Ascii.
From S2P Require Import Prelude GoStrings HostSet HostLookup Completion.
#[local] Open Scope Z_scope.

(** ** Tokens *)

(** The digits of [n] in base 36, the least significant first; thirteen are enough for 64
    bits. *)
Fixpoint digits36 (fuel : nat) (n : Z) : list Z :=
  match fuel with
  | O => [n]
  | S fuel => if n <? 36 then [n] else n mod 36 :: digits36 fuel (n / 36)
  end.

Definition digit36 (d : Z) : ascii := ascii_of_N (Z.to_N (if d <? 10 then 48 + d else 87 + d)).

(** [strconv.FormatUint(n, 36)]. *)
Definition FormatUint36 (n : Z) : string := of_chars (reverse (digit36 <$> digits36 12 n)).

(** [mintToken]: the new value of [tokenSeq] and the token. *)
Definition mintToken (tokenSeq : Z) : Z * string :=
  let n := uint64_of (tokenSeq + 1) in (n, "tr-" +:+ FormatUint36 n).

(** ** Pending *)

Record Result := mkResult { Upstream : string; r_Err : string }.

(** [Pending]: [p_done] is the channel being closed. *)
Record Pending := mkPending { p_done : bool; p_res : option Result }.

Definition newPending : Pending := mkPending false None.

Definition Resolve (r : Result) (p : Pending) : bool * Pending :=
  match p_res p with
  | Some _ => (false, p)
  | None => (true, mkPending true (Some r))
  end.

(** [p.Result()]. *)
Definition PResult (p : Pending) : Result * bool :=
  match p_res p with
  | None => (mkResult "" "", false)
  | Some r => (r, true)
  end.

(** ** The body *)

Section extract.
(** [json.Unmarshal] into a struct with the field [Target]; [None] is an error. *)
Context (unmarshal : bytes -> option string).

Definition ExtractTarget (data : bytes) : string + string :=
  match data with
  | [] => inl "empty body"
  | _ =>
      match unmarshal data with
      | None => inl "invalid json"
      | Some target => if decide (target = "") then inl "missing target" else inr target
      end
  end.

(** What [bodyHandler] resolves the stream's [Pending] with. *)
Definition body_result (data : bytes) : Result :=
  match ExtractTarget data with
  | inl err => mkResult "" err
  | inr target => mkResult target ""
  end.
End extract.

(** ** The configuration and [Init] *)

Record hostEntry := mkHostEntry {
  he_Name : string;
  he_Address : string;
  he_SNI : string;
  he_Bucket : string;
}.

(** [factory.Create]; [parse] is the JSON decoder, [inl] with its error text. *)
Fixpoint check_hosts (i : nat) (hs : list hostEntry) : option string :=
  match hs with
  | [] => None
  | h :: hs => if bool_decide (he_Name h = "") || bool_decide (he_Address h = "")
               then Some ("cluster-async-router: host " +:+ pretty (Z.of_nat i) +:+
                          " requires name and address")
               else check_hosts (S i) hs
  end.

Definition factory_Create (parse : bytes -> string + list hostEntry) (cfg : bytes) :
    string + list hostEntry :=
  match cfg with
  | [] => inl "cluster-async-router: config required"
  | _ =>
      match parse cfg with
      | inl e => inl ("cluster-async-router: parse config: " +:+ e)
      | inr [] => inl "cluster-async-router: config must include at least one host"
      | inr hs => match check_hosts 0 hs with Some e => inl e | None => inr hs end
      end
  end.

Section init.
Context {C : Type} `{AddressedCluster C}.
(** [net.SplitHostPort], [net.ParseIP] (whether it is not nil) and the resolver. *)
Context (SplitHostPort : string -> option (string * string))
        (ParseIP : string -> bool) (LookupHost : string -> option (list string)).

Definition resolveHostAddr (addr : string) : string :=
  match SplitHostPort addr with
  | None => addr
  | Some (host, port) =>
      if ParseIP host then addr
      else match LookupHost host with
           | Some (ip :: _) => JoinHostPort ip port
           | _ => addr
           end
  end.

Definition host_spec (he : hostEntry) : HostSpec :=
  let md : gmap string string :=
    if decide (he_SNI he <> "") then <["sni" := he_SNI he]> ∅ else ∅ in
  let md := if decide (he_Bucket he <> "") then <["bucket" := he_Bucket he]> md else md in
  mkSpec (resolveHostAddr (he_Address he)) (he_SNI he) 0 md.

(** The loop of [Init]; the hosts are added one by one, and a host that was refused is left
    out. *)
Fixpoint init_hosts (hs : list hostEntry) (byName : gmap string HostPtr) (c : C) :
    gmap string HostPtr * C :=
  match hs with
  | [] => (byName, c)
  | he :: hs =>
      match cl_AddHosts [host_spec he] c with
      | ([], c) => init_hosts hs byName c
      | (p :: _, c) => init_hosts hs (<[he_Name he := p]> byName) (cl_UpdateHostHealth p HostHealthy c)
      end
  end.

(** Every name that ends up in the table is configured, and when the cluster accepts every
    host every configured name does. *)
Lemma init_hosts_names hs : forall byName c,
  (forall specs c, (cl_AddHosts specs c).1 <> []) ->
  dom (init_hosts hs byName c).1 = dom byName ∪ list_to_set (he_Name <$> hs).
Proof.
  induction hs as [|he hs IH]; intros byName c Hadd; cbn; [set_solver|].
  specialize (Hadd [host_spec he] c) as Hne.
  destruct (cl_AddHosts [host_spec he] c) as [[|p ps] c1]; [done|].
  rewrite IH by done. set_solver.
Qed.
End init.

(** ** The shared state *)

(** [streamState]; pointers to [Pending] are indices of the heap. *)
Record streamState := mkStreamState { ss_token : string; ss_p : nat }.

(** A goroutine of [waitAndComplete] for the completion it is filed under; [g_woken] when it
    has received from [p.Done()] and deleted the token. *)
Record goroutine := mkGor { g_lb : nat; g_token : string; g_p : nat; g_woken : bool }.

(** The filter's part: the sequence, the [Pending]s and their registry, and for each stream
    its context slot and the token in its filter state.  [bodies] remembers, for the
    statements, the data of each stream's first complete body. *)
Record filter_part := mkFilter {
  tokenSeq : Z;
  heap : list Pending;
  registry : gmap string nat;
  contexts : gmap nat streamState;
  fstates : gmap nat string;
  bodies : gmap nat bytes;
}.

(** The cluster's part: the completions (by index, with the stream each was made for), the
    waiters of all load balancers, their goroutines, the tasks scheduled on the main thread,
    the cancellations under way, and what Envoy was told. *)
Record cluster_part := mkCluster {
  completions : list ClusterLBCompletion;
  owners : list nat;
  waiters : gset (nat * nat);
  goroutines : gmap nat goroutine;
  tasks : list (nat * (HostPtr * string));
  cancels : list (nat * nat);
  told : list (nat * (HostPtr * string));
}.

Record state := mkState { fil : filter_part; clu : cluster_part }.

Definition init_state : state := mkState (mkFilter 0 [] ∅ ∅ ∅ ∅) (mkCluster [] [] ∅ ∅ [] [] []).

(** [Register(token)]: [LoadOrStore]. *)
Definition Register (token : string) (f : filter_part) : nat * filter_part :=
  let p := length (heap f) in
  match registry f !! token with
  | Some q => (q, mkFilter (tokenSeq f) (heap f ++ [newPending]) (registry f) (contexts f)
                           (fstates f) (bodies f))
  | None => (p, mkFilter (tokenSeq f) (heap f ++ [newPending]) (<[token := p]> (registry f))
                         (contexts f) (fstates f) (bodies f))
  end.

Definition Lookup (token : string) (f : filter_part) : option nat := registry f !! token.

Definition Delete (token : string) (f : filter_part) : filter_part :=
  mkFilter (tokenSeq f) (heap f) (delete token (registry f)) (contexts f) (fstates f) (bodies f).

(** [requestHandler] for stream [sid]; [has_ctx] is [r.Context != nil]. *)
Definition requestHandler (sid : nat) (has_ctx : bool) (f : filter_part) : filter_part :=
  if negb has_ctx then f
  else
    let '(n, token) := mintToken (tokenSeq f) in
    let f := mkFilter n (heap f) (registry f) (contexts f) (fstates f) (bodies f) in
    let '(p, f) := Register token f in
    mkFilter (tokenSeq f) (heap f) (registry f) (<[sid := mkStreamState token p]> (contexts f))
             (<[sid := token]> (fstates f)) (bodies f).

Section steps.
Context (unmarshal : bytes -> option string) (byName : gmap string HostPtr).

(** [bodyHandler] on a chunk of stream [sid]. *)
Definition bodyHandler (sid : nat) (data : bytes) (endStream : bool) (f : filter_part) : filter_part :=
  if negb endStream then f
  else match contexts f !! sid with
       | None => f
       | Some st =>
           mkFilter (tokenSeq f)
             (alter (fun p => (Resolve (body_result unmarshal data) p).2) (ss_p st) (heap f))
             (registry f) (contexts f) (fstates f)
             (match bodies f !! sid with
              | None => <[sid := data]> (bodies f)
              | Some _ => bodies f
              end)
       end.

(** [ChooseHost] of load balancer [l] for the stream of the context (nil or a stream's): nil,
    or the index of the completion returned.  The ABI layer then sets its [SetFinishFn]. *)
Definition ChooseHost (l : nat) (ctx : option nat) (s : state) : option nat * state :=
  match ctx, ctx ≫= fun sid => fstates (fil s) !! sid with
  | None, _ | _, None => (None, s)
  | Some sid, Some token =>
      if decide (token = "") then (None, s)
      else match Lookup token (fil s) with
           | None => (None, s)
           | Some p =>
               let c := clu s in
               let id := length (completions c) in
               (Some id, mkState (fil s)
                 (mkCluster (completions c ++ [(SetFinishFn NewCompletion).1]) (owners c ++ [sid])
                            ({[(l, id)]} ∪ waiters c)
                            (<[id := mkGor l token p false]> (goroutines c))
                            (tasks c) (cancels c) (told c)))
           end
  end.

(** [waitAndComplete], first part: [<-p.Done()] and [Delete(token)]; it blocks until then. *)
Definition wake (id : nat) (s : state) : option state :=
  g ← goroutines (clu s) !! id;
  p ← heap (fil s) !! g_p g;
  if negb (g_woken g) && p_done p then
    let c := clu s in
    Some (mkState (Delete (g_token g) (fil s))
           (mkCluster (completions c) (owners c) (waiters c)
                      (<[id := mkGor (g_lb g) (g_token g) (g_p g) true]> (goroutines c))
                      (tasks c) (cancels c) (told c)))
  else None.

(** What the scheduled function passes to [completion.Complete]. *)
Definition outcome (r : Result) : HostPtr * string :=
  if decide (r_Err r <> "") then (0, r_Err r)
  else let host := default 0 (byName !! Upstream r) in
       if decide (host = 0) then (0, "unknown_upstream") else (host, "").

(** Second part: leave the waiters and, when still one of them, schedule the completion. *)
Definition finish_wait (id : nat) (s : state) : option state :=
  g ← goroutines (clu s) !! id;
  p ← heap (fil s) !! g_p g;
  if g_woken g then
    let c := clu s in
    let alive := bool_decide ((g_lb g, id) ∈ waiters c) in
    Some (mkState (fil s)
           (mkCluster (completions c) (owners c) (waiters c ∖ {[(g_lb g, id)]})
                      (delete id (goroutines c))
                      (if alive then tasks c ++ [(id, outcome (PResult p).1)] else tasks c)
                      (cancels c) (told c)))
  else None.

(** The main thread runs one of the scheduled functions. *)
Definition run_task (id : nat) (o : HostPtr * string) (rest : list (nat * (HostPtr * string)))
    (s : state) : option state :=
  let c := clu s in
  x ← completions c !! id;
  let '(ok, x, _) := Complete o.1 o.2 x in
  Some (mkState (fil s)
         (mkCluster (<[id := x]> (completions c)) (owners c) (waiters c) (goroutines c) rest
                    (cancels c) (if ok then told c ++ [(id, o)] else told c))).

(** Envoy cancels a selection: [completion.Cancel()], and when that took effect the ABI layer
    goes on to call [CancelHostSelection]. *)
Definition cancel (l id : nat) (s : state) : option state :=
  let c := clu s in
  x ← completions c !! id;
  let '(ok, x, _) := Cancel x in
  Some (mkState (fil s)
         (mkCluster (<[id := x]> (completions c)) (owners c) (waiters c) (goroutines c) (tasks c)
                    (if ok then cancels c ++ [(l, id)] else cancels c) (told c))).

Definition CancelHostSelection (l id : nat) (rest : list (nat * nat)) (s : state) : state :=
  let c := clu s in
  mkState (fil s) (mkCluster (completions c) (owners c) (waiters c ∖ {[(l, id)]}) (goroutines c)
                             (tasks c) rest (told c)).

(** ** Steps *)

(** The filter runs the request handler once per stream. *)
Inductive step : state -> state -> Prop :=
  | st_request sid has_ctx s : contexts (fil s) !! sid = None ->
      step s (mkState (requestHandler sid has_ctx (fil s)) (clu s))
  | st_body sid data endStream s :
      step s (mkState (bodyHandler sid data endStream (fil s)) (clu s))
  | st_choose l ctx s : step s (ChooseHost l ctx s).2
  | st_wake id s s' : wake id s = Some s' -> step s s'
  | st_finish id s s' : finish_wait id s = Some s' -> step s s'
  | st_task pre id o post s s' : tasks (clu s) = pre ++ (id, o) :: post ->
      run_task id o (pre ++ post) s = Some s' -> step s s'
  | st_cancel l id s s' : cancel l id s = Some s' -> step s s'
  | st_cancelled pre l id post s : cancels (clu s) = pre ++ (l, id) :: post ->
      step s (CancelHostSelection l id (pre ++ post) s).

(** The outcome a body calls for. *)
Definition route (data : bytes) : HostPtr * string := outcome (body_result unmarshal data).
End steps.

(** ** Lemmas: tokens *)

Definition value36 (ds : list Z) : Z := foldr (fun d v => d + 36 * v) 0 ds.

Lemma digits36_ok fuel : forall n, 0 <= n < 36 ^ Z.of_nat (S fuel) ->
  value36 (digits36 fuel n) = n /\ Forall (fun d => 0 <= d < 36) (digits36 fuel n).
Proof.
  induction fuel as [|fuel IH]; intros n Hn; cbn [digits36].
  - cbn. split; [lia|]. apply Forall_singleton. lia.
  - destruct (n <? 36) eqn:E.
    + cbn. split; [lia|]. apply Forall_singleton. lia.
    + rewrite Nat2Z.inj_succ, Z.pow_succ_r in Hn by lia.
      assert (0 <= n / 36 < 36 ^ Z.of_nat (S fuel)) as Hd.
      { split; [apply Z.div_pos; lia|]. apply Z.div_lt_upper_bound; lia. }
      destruct (IH _ Hd) as [Hv Hf]. cbn [value36 foldr]. fold (value36 (digits36 fuel (n / 36))).
      rewrite Hv. split; [pose proof (Z.div_mod n 36); lia|].
      apply Forall_cons. split; [apply Z.mod_pos_bound; lia|done].
Qed.

Definition digit_value (a : ascii) : Z :=
  let n := Z.of_N (N_of_ascii a) in if n <? 58 then n - 48 else n - 87.

Lemma digit36_value d : 0 <= d < 36 -> digit_value (digit36 d) = d.
Proof.
  intros Hd. unfold digit_value, digit36. rewrite N_ascii_embedding by (case_match; lia).
  rewrite Z2N.id by (case_match; lia). destruct (d <? 10) eqn:E; case_match; lia.
Qed.

Lemma FormatUint36_inj n m : 0 <= n < 2 ^ 64 -> 0 <= m < 2 ^ 64 ->
  FormatUint36 n = FormatUint36 m -> n = m.
Proof.
  assert (forall k, 0 <= k < 2 ^ 64 ->
    value36 (digit_value <$> reverse (to_chars (FormatUint36 k))) = k) as Hback.
  { intros k Hk. unfold FormatUint36. rewrite to_of_chars, reverse_involutive.
    destruct (digits36_ok 12 k ltac:(lia)) as [Hv Hf]. rewrite <- list_fmap_compose.
    rewrite <- Hv at 2. f_equal. rewrite <- (list_fmap_id (digits36 12 k)) at 2.
    apply list_fmap_ext. intros i d Hi. cbn. apply digit36_value.
    rewrite Forall_lookup in Hf. by apply (Hf i). }
  intros Hn Hm E. rewrite <- (Hback n Hn), <- (Hback m Hm). by rewrite E.
Qed.

Definition token (n : Z) : string := "tr-" +:+ FormatUint36 n.

Lemma token_inj n m : 0 <= n < 2 ^ 64 -> 0 <= m < 2 ^ 64 -> token n = token m -> n = m.
Proof. intros Hn Hm E. apply FormatUint36_inj; [done..|]. by simplify_eq/=. Qed.

Lemma token_nonempty n : token n <> "".
Proof. done. Qed.

(** ** The invariant *)

(** The [Pending] of a stream whose first complete body is [b]. *)
Definition pending_of (r : option Result) : Pending :=
  mkPending (bool_decide (is_Some r)) r.

Section invariant.
Context (unmarshal : bytes -> option string) (byName : gmap string HostPtr).

Record filter_ok (f : filter_part) : Prop := {
  fo_seq : tokenSeq f = Z.of_nat (size (contexts f));
  fo_token : forall sid st, contexts f !! sid = Some st ->
    exists n, 1 <= n <= tokenSeq f /\ ss_token st = token n;
  fo_inj_token : forall a b x y, contexts f !! a = Some x -> contexts f !! b = Some y ->
    ss_token x = ss_token y -> a = b;
  fo_inj_p : forall a b x y, contexts f !! a = Some x -> contexts f !! b = Some y ->
    ss_p x = ss_p y -> a = b;
  fo_registry : forall t p, registry f !! t = Some p ->
    exists sid, contexts f !! sid = Some (mkStreamState t p);
  fo_fstate : forall sid t, fstates f !! sid = Some t ->
    exists p, contexts f !! sid = Some (mkStreamState t p);
  fo_pending : forall sid st, contexts f !! sid = Some st ->
    heap f !! ss_p st = Some (pending_of (body_result unmarshal <$> bodies f !! sid));
  fo_body : forall sid, is_Some (bodies f !! sid) -> is_Some (contexts f !! sid);
}.

(** The completion [id] belongs to a stream whose body calls for the outcome [o]. *)
Definition justified (s : state) (id : nat) (o : HostPtr * string) : Prop :=
  exists sid data, owners (clu s) !! id = Some sid /\ bodies (fil s) !! sid = Some data /\
    o = route unmarshal byName data.

Record cluster_ok (s : state) : Prop := {
  co_owner : length (owners (clu s)) = length (completions (clu s));
  co_gor : forall id g, goroutines (clu s) !! id = Some g ->
    exists sid, owners (clu s) !! id = Some sid /\
      contexts (fil s) !! sid = Some (mkStreamState (g_token g) (g_p g)) /\
      (g_woken g = true -> is_Some (bodies (fil s) !! sid));
  co_task : forall id o, (id, o) ∈ tasks (clu s) -> justified s id o;
  co_told : forall id o, (id, o) ∈ told (clu s) -> justified s id o;
  co_nodup : NoDup (told (clu s)).*1;
  co_done : forall id x, completions (clu s) !! id = Some x -> done_ x = false ->
    id ∉ (told (clu s)).*1;
}.

(** Fewer streams than tokens. *)
Definition bounded (s : state) : Prop := Z.of_nat (size (contexts (fil s))) < 2 ^ 64.

Definition ok (s : state) : Prop := filter_ok (fil s) /\ cluster_ok s.

Lemma fresh_token f n : filter_ok f -> tokenSeq f < n < 2 ^ 64 ->
  registry f !! token n = None /\
  (forall sid st, contexts f !! sid = Some st -> ss_token st <> token n).
Proof.
  intros Hf Hn. assert (forall sid st, contexts f !! sid = Some st -> ss_token st <> token n) as Hc.
  { intros sid st Hst E. destruct (fo_token f Hf sid st Hst) as (m & Hm & Em).
    rewrite Em in E. apply token_inj in E; lia. }
  split; [|done]. destruct (registry f !! token n) as [p|] eqn:E; [|done].
  destruct (fo_registry f Hf _ _ E) as [sid Hs]. by destruct (Hc _ _ Hs).
Qed.

(** Adding a stream with a new token or pointer keeps the streams told apart. *)
Lemma insert_keeps_inj {K} (proj : streamState -> K) (m : gmap nat streamState) sid st :
  (forall a b x y, m !! a = Some x -> m !! b = Some y -> proj x = proj y -> a = b) ->
  (forall a x, m !! a = Some x -> proj x <> proj st) ->
  forall a b x y, <[sid := st]> m !! a = Some x -> <[sid := st]> m !! b = Some y ->
    proj x = proj y -> a = b.
Proof.
  intros Hinj Hnew a b x y Ha Hb E. apply lookup_insert_Some in Ha, Hb.
  destruct Ha as [[<- <-]|[_ Ha]], Hb as [[<- <-]|[_ Hb]]; [done| | |by eapply Hinj].
  - by destruct (Hnew _ _ Hb).
  - by destruct (Hnew _ _ Ha).
Qed.

(** What the request handler does on a stream that has its first request. *)
Lemma requestHandler_new sid f : filter_ok f -> tokenSeq f + 1 < 2 ^ 64 ->
  let n := tokenSeq f + 1 in
  let p := length (heap f) in
  requestHandler sid true f =
    mkFilter n (heap f ++ [newPending]) (<[token n := p]> (registry f))
      (<[sid := mkStreamState (token n) p]> (contexts f)) (<[sid := token n]> (fstates f)) (bodies f).
Proof.
  intros Hf Hn n p. unfold requestHandler, mintToken. cbn [negb].
  assert (uint64_of (tokenSeq f + 1) = n) as ->.
  { unfold uint64_of. apply Z.mod_small. pose proof (fo_seq f Hf). lia. }
  unfold Register. cbn [registry heap tokenSeq contexts fstates bodies].
  fold (token n). destruct (fresh_token f n Hf) as [-> _]; [lia|]. done.
Qed.

Lemma requestHandler_ok sid b f : filter_ok f -> contexts f !! sid = None ->
  Z.of_nat (size (contexts (requestHandler sid b f))) < 2 ^ 64 ->
  filter_ok (requestHandler sid b f).
Proof.
  intros Hf Hs Hb. destruct b; [|done].
  assert (tokenSeq f + 1 < 2 ^ 64) as Hn.
  { rewrite (fo_seq f Hf). enough (size (contexts f) + 1 <= size (contexts (requestHandler sid true f)))%nat by lia.
    unfold requestHandler, mintToken, Register. cbn.
    destruct (registry f !! _); cbn; rewrite map_size_insert_None by done; lia. }
  rewrite requestHandler_new by done.
  destruct (fresh_token f (tokenSeq f + 1) Hf) as [Hr Hc]; [lia|].
  pose proof (fo_seq f Hf) as Hseq.
  assert (forall a x, contexts f !! a = Some x -> (ss_p x < length (heap f))%nat) as Hlt.
  { intros a x Hx. by eapply lookup_lt_Some, fo_pending. }
  constructor; cbn [tokenSeq heap registry contexts fstates bodies].
  - rewrite map_size_insert_None by done. lia.
  - intros a st [[<- <-]|[_ Ha]]%lookup_insert_Some.
    + eexists; split; [|done]. lia.
    + destruct (fo_token f Hf a st Ha) as (n & ? & ?). exists n. split; [lia|done].
  - apply insert_keeps_inj; [by apply fo_inj_token|done].
  - apply insert_keeps_inj; [by apply fo_inj_p|]. intros a x Hx E. apply Hlt in Hx. cbn in E. lia.
  - intros t p [[<- <-]|[_ Ht]]%lookup_insert_Some.
    + exists sid. by rewrite lookup_insert_eq.
    + destruct (fo_registry f Hf _ _ Ht) as [a Ha]. exists a.
      rewrite lookup_insert_ne; [done|]. intros ->. congruence.
  - intros a t [[<- <-]|[Hne Ht]]%lookup_insert_Some.
    + eexists. by rewrite lookup_insert_eq.
    + destruct (fo_fstate f Hf _ _ Ht) as [p Hp]. exists p. by rewrite lookup_insert_ne.
  - intros a st [[<- <-]|[_ Ha]]%lookup_insert_Some.
    + cbn. rewrite lookup_app_r, Nat.sub_diag by lia. cbn.
      destruct (bodies f !! sid) eqn:E; [|done].
      destruct (fo_body f Hf sid) as [? ?]; [by eexists|congruence].
    + apply lookup_app_l_Some, (fo_pending f Hf a st Ha).
  - intros a Ha. destruct (fo_body f Hf a Ha) as [x Hx]. destruct (decide (a = sid)) as [->|].
    + by rewrite lookup_insert_eq.
    + by rewrite lookup_insert_ne.
Qed.

Lemma bodyHandler_ok sid data e f : filter_ok f -> filter_ok (bodyHandler unmarshal sid data e f).
Proof.
  intros Hf. unfold bodyHandler. destruct e; [|done]. cbn [negb].
  destruct (contexts f !! sid) as [st|] eqn:Hst; [|done].
  set (bs := match bodies f !! sid with None => _ | Some _ => _ end).
  assert (forall a, a <> sid -> bs !! a = bodies f !! a) as Hne.
  { intros a Ha. unfold bs. destruct (bodies f !! sid); [done|]. by rewrite lookup_insert_ne. }
  destruct Hf as [H1 H2 H3 H4 H5 H6 H7 H8].
  constructor; cbn [tokenSeq heap registry contexts fstates bodies]; try done.
  - intros a x Ha. destruct (decide (a = sid)) as [->|Hd].
    + rewrite Hst in Ha. injection Ha as <-. rewrite list_lookup_alter_eq, (H7 _ _ Hst). cbn.
      f_equal. unfold bs. destruct (bodies f !! sid) as [d|] eqn:Ed; cbn.
      * by rewrite Ed.
      * by rewrite lookup_insert_eq.
    + rewrite list_lookup_alter_ne; [rewrite Hne by done; by apply H7|].
      intros E. apply Hd. by eapply H4.
  - intros a Ha. destruct (decide (a = sid)) as [->|Hd]; [by rewrite Hst|].
    apply H8. by rewrite <- Hne.
Qed.

(** Once a stream's body is complete, later chunks do not change it. *)
Lemma bodyHandler_bodies sid data e f a d : bodies f !! a = Some d ->
  bodies (bodyHandler unmarshal sid data e f) !! a = Some d.
Proof.
  intros Ha. unfold bodyHandler. destruct e; [|done]. cbn.
  destruct (contexts f !! sid); [|done]. cbn. destruct (bodies f !! sid) eqn:E; [done|].
  rewrite lookup_insert_ne; [done|]. intros ->. congruence.
Qed.

(** The cluster's side depends on the filter's only through facts that the handlers keep. *)
Definition filter_grows (f f' : filter_part) : Prop :=
  (forall sid st, contexts f !! sid = Some st -> contexts f' !! sid = Some st) /\
  (forall sid d, bodies f !! sid = Some d -> bodies f' !! sid = Some d).

Lemma cluster_ok_grows f f' c : filter_grows f f' ->
  cluster_ok (mkState f c) -> cluster_ok (mkState f' c).
Proof.
  intros [Hc Hb] [H1 H2 H3 H4 H5 H6].
  assert (forall id o, justified (mkState f c) id o -> justified (mkState f' c) id o) as Hj.
  { intros id o (sid & d & Ho & Hd & E). exists sid, d. split_and!; [done|by apply Hb|done]. }
  constructor; cbn; [done| |by eauto..|done|done].
  intros id g Hg. destruct (H2 id g Hg) as (sid & Ho & Hx & Hw). exists sid.
  split_and!; [done|by apply Hc|]. intros [d Hd]%Hw. eexists. by apply Hb.
Qed.

Lemma Delete_ok t f : filter_ok f -> filter_ok (Delete t f).
Proof.
  intros [H1 H2 H3 H4 H5 H6 H7 H8]. constructor; try done. cbn.
  intros t' p [_ Ht]%lookup_delete_Some. by apply H5.
Qed.

Lemma step_grows s s' : step unmarshal byName s s' -> filter_grows (fil s) (fil s').
Proof.
  assert (forall f, filter_grows f f) as Hrefl by (by split).
  intros [sid b s1 Hs|sid d e s1|l sid s1|id s1 s2 Hw|id s1 s2 Hw|pre id o post s1 s2 Ht Hr|
          l id s1 s2 Hc|pre l id post s1 Hc]; cbn; try done.
  - unfold requestHandler, Register. destruct b; [|done]. cbn. split; [|by destruct (registry _ !! _)].
    intros a st Ha. destruct (registry (fil s1) !! _); cbn;
      (rewrite lookup_insert_ne; [done|intros ->; congruence]).
  - split; [|intros; by apply bodyHandler_bodies]. unfold bodyHandler. intros a st Ha.
    destruct e; [|done]. cbn. by destruct (contexts (fil s1) !! sid).
  - unfold ChooseHost. by repeat case_match.
  - unfold wake in Hw. repeat (case_match || simplify_option_eq); done.
  - unfold finish_wait in Hw. repeat (case_match || simplify_option_eq); done.
  - unfold run_task in Hr. repeat (case_match || simplify_option_eq); done.
  - unfold cancel in Hc. repeat (case_match || simplify_option_eq); done.
Qed.

(** A completion that is over stays so, and one that is not over was told nothing. *)
Lemma ChooseHost_ok l ctx s : ok s -> ok (ChooseHost l ctx s).2.
Proof.
  intros [Hf Hc]. unfold ChooseHost. destruct ctx as [sid|]; [|done]. cbn [mbind option_bind].
  destruct (fstates (fil s) !! sid) as [t|] eqn:Et; [|done].
  case_decide; [done|]. unfold Lookup. destruct (registry (fil s) !! t) as [p|] eqn:Ep; [|done].
  split; [done|]. destruct Hc as [H1 H2 H3 H4 H5 H6].
  set (s' := mkState _ _).
  assert (forall id o, justified s id o -> justified s' id o) as Hj.
  { intros id o (a & d & Ha & Hd & E). exists a, d. split_and!; [|done..].
    by apply lookup_app_l_Some. }
  assert (forall id o, (id, o) ∈ told (clu s) -> (id < length (completions (clu s)))%nat) as Hlt.
  { intros id o Hin. destruct (H4 id o Hin) as (a & d & Ha & _). rewrite <- H1.
    by eapply lookup_lt_Some. }
  constructor; cbn.
  - rewrite !length_app. cbn. lia.
  - intros id g [[<- <-]|[_ Hg]]%lookup_insert_Some; cbn.
    + exists sid. rewrite lookup_app_r, <- H1, Nat.sub_diag by lia. split; [done|].
      destruct (fo_fstate _ Hf _ _ Et) as [q Hq]. destruct (fo_registry _ Hf _ _ Ep) as [a Ha].
      assert (a = sid) as -> by (by eapply fo_inj_token). done.
    + destruct (H2 id g Hg) as (a & Ha & Hx & Hw). exists a.
      split_and!; [by apply lookup_app_l_Some|done..].
  - eauto.
  - eauto.
  - done.
  - intros id x [Hx|[Hle Hx]]%lookup_app_Some Hd; [by eapply H6|].
    intros ([? o] & -> & Hin)%list_elem_of_fmap. apply Hlt in Hin. cbn in Hle. lia.
Qed.

Lemma wake_ok id s s' : ok s -> wake id s = Some s' -> ok s'.
Proof.
  intros [Hf Hc] Hw. unfold wake in Hw.
  destruct (goroutines (clu s) !! id) as [g|] eqn:Eg; [|done]. cbn in Hw.
  destruct (heap (fil s) !! g_p g) as [p|] eqn:Ep; [|done]. cbn in Hw.
  destruct (negb (g_woken g) && p_done p) eqn:E; [|done]. injection Hw as <-.
  split; [by apply Delete_ok|]. apply andb_true_iff in E as [_ Hd].
  destruct Hc as [H1 H2 H3 H4 H5 H6]. constructor; cbn; [done| |done..].
  intros i g' [[<- <-]|[_ Hg]]%lookup_insert_Some; [|by apply H2]. cbn.
  destruct (H2 _ _ Eg) as (sid & Ho & Hx & _). exists sid. split_and!; [done..|]. intros _.
  pose proof (fo_pending _ Hf _ _ Hx) as Hp. cbn in Hp. rewrite Ep in Hp. injection Hp as ->.
  cbn in Hd. apply bool_decide_eq_true in Hd. by apply fmap_is_Some in Hd.
Qed.

(** A woken goroutine finds its own stream's result. *)
Lemma woken_result id g s p : ok s -> goroutines (clu s) !! id = Some g -> g_woken g = true ->
  heap (fil s) !! g_p g = Some p -> justified s id (outcome byName (PResult p).1).
Proof.
  intros [Hf Hc] Eg Hw Ep. destruct (co_gor s Hc id g Eg) as (sid & Ho & Hx & Hd).
  destruct (Hd Hw) as [d Hb]. pose proof (fo_pending _ Hf _ _ Hx) as Hp. cbn in Hp.
  rewrite Ep, Hb in Hp. injection Hp as ->. by exists sid, d.
Qed.

Lemma finish_wait_ok id s s' : ok s -> finish_wait byName id s = Some s' -> ok s'.
Proof.
  intros Hok Hw. unfold finish_wait in Hw.
  destruct (goroutines (clu s) !! id) as [g|] eqn:Eg; [|done]. cbn in Hw.
  destruct (heap (fil s) !! g_p g) as [p|] eqn:Ep; [|done]. cbn in Hw.
  destruct (g_woken g) eqn:E; [|done]. injection Hw as <-.
  pose proof (woken_result id g s p Hok Eg E Ep) as Hj. destruct Hok as [Hf Hc].
  split; [done|]. destruct Hc as [H1 H2 H3 H4 H5 H6]. constructor; cbn; [done| | |done..].
  - intros i g' [_ Hg]%lookup_delete_Some. by apply H2.
  - intros i o. destruct (bool_decide _); [|apply H3].
    rewrite elem_of_app, list_elem_of_singleton. intros [Hin|[= -> ->]]; [by apply H3|done].
Qed.

Lemma run_task_ok pre id o post s s' : ok s -> tasks (clu s) = pre ++ (id, o) :: post ->
  run_task id o (pre ++ post) s = Some s' -> ok s'.
Proof.
  intros [Hf Hc] Ht Hr. unfold run_task in Hr.
  destruct (completions (clu s) !! id) as [x|] eqn:Ex; [|done]. cbn in Hr.
  destruct Hc as [H1 H2 H3 H4 H5 H6]. rewrite Ht in H3.
  assert (justified s id o) as Hj by (apply H3; set_solver).
  unfold Complete, claim in Hr. destruct (done_ x) eqn:Ed; injection Hr as <-; (split; [done|]).
  - constructor; cbn; [by rewrite length_insert|done| |done..|].
    { intros i o' Hin. apply H3. set_solver. }
    intros i y Hy Hd. destruct (decide (i = id)) as [->|Hne]; [|rewrite list_lookup_insert_ne in Hy by done; by eapply H6].
    rewrite list_lookup_insert_eq in Hy by (by eapply lookup_lt_Some). congruence.
  - constructor; cbn; [by rewrite length_insert|done| | | |].
    + intros i o' Hin. apply H3. set_solver.
    + intros i o' [Hin| [= -> ->]%list_elem_of_singleton]%elem_of_app; [by apply H4|done].
    + rewrite fmap_app. apply NoDup_app. split_and!; [done| |apply NoDup_singleton].
      intros i Hi ->%list_elem_of_singleton. by eapply H6.
    + intros i y Hy Hd. rewrite fmap_app. destruct (decide (i = id)) as [->|Hne].
      * rewrite list_lookup_insert_eq in Hy by (by eapply lookup_lt_Some). injection Hy as <-. done.
      * rewrite list_lookup_insert_ne in Hy by done. cbn. pose proof (H6 i y Hy Hd). set_solver.
Qed.

Lemma cancel_selection_ok l id s s' : ok s -> cancel l id s = Some s' -> ok s'.
Proof.
  intros [Hf Hc] Hr. unfold cancel in Hr.
  destruct (completions (clu s) !! id) as [x|] eqn:Ex; [|done]. cbn in Hr.
  destruct Hc as [H1 H2 H3 H4 H5 H6].
  unfold Cancel, claim in Hr. destruct (done_ x) eqn:Ed; injection Hr as <-; (split; [done|]);
    (constructor; cbn; [by rewrite length_insert|done..|]); intros i y Hy Hd;
    (destruct (decide (i = id)) as [->|Hne];
     [|rewrite list_lookup_insert_ne in Hy by done; by eapply H6]);
    rewrite list_lookup_insert_eq in Hy by (by eapply lookup_lt_Some); simplify_eq/=; congruence.
Qed.

Lemma step_ok s s' : step unmarshal byName s s' -> bounded s' -> ok s -> ok s'.
Proof.
  intros Hstep. pose proof (step_grows s s' Hstep) as Hg. revert Hg.
  destruct Hstep as [sid b s1 Hs|sid d e s1|l sid s1|id s1 s2 Hw|id s1 s2 Hw|pre id o post s1 s2 Ht Hr|
          l id s1 s2 Hc|pre l id post s1 Hc]; intros Hg Hb Hok.
  - destruct Hok as [Hf Hc]. split; [by apply requestHandler_ok|]. destruct s1.
    by eapply cluster_ok_grows.
  - destruct Hok as [Hf Hc]. split; [by apply bodyHandler_ok|]. destruct s1.
    by eapply cluster_ok_grows.
  - by apply ChooseHost_ok.
  - by eapply wake_ok.
  - by eapply finish_wait_ok.
  - by eapply run_task_ok.
  - by eapply cancel_selection_ok.
  - destruct Hok as [Hf Hc']. split; [done|]. by destruct Hc'.
Qed.

Lemma init_ok : ok init_state.
Proof.
  split; constructor; cbn; try done; try (intros; by rewrite lookup_empty in *); try set_solver.
  all: try by constructor.
  all: by intros ? [? ?].
Qed.

Lemma router_reachable_ok s : rtc (step unmarshal byName) init_state s -> bounded s -> ok s.
Proof.
  revert s. apply (rtc_ind_r (fun s => bounded s -> ok s)); [intros; apply init_ok|].
  intros s s' Hr Hs IH Hb.
  eapply step_ok; [done..|]. apply IH. unfold bounded in *.
  destruct (step_grows s s' Hs) as [Hc _].
  enough (size (contexts (fil s)) <= size (contexts (fil s')))%nat by lia.
  apply map_subseteq_size, map_subseteq_spec. exact Hc.
Qed.

(** ** Progress *)

(** The selection [id] is still open: its goroutine runs, it is among the waiters and nobody
    completed or cancelled it. *)
Record open_selection (s : state) (id sid : nat) : Prop := {
  os_owner : owners (clu s) !! id = Some sid;
  os_gor : exists g, goroutines (clu s) !! id = Some g /\ (g_lb g, id) ∈ waiters (clu s);
  os_comp : exists x, completions (clu s) !! id = Some x /\ done_ x = false;
}.

Lemma woken_completes s id g d sid : ok s -> goroutines (clu s) !! id = Some g ->
  g_woken g = true -> (g_lb g, id) ∈ waiters (clu s) ->
  owners (clu s) !! id = Some sid -> bodies (fil s) !! sid = Some d ->
  (exists x, completions (clu s) !! id = Some x /\ done_ x = false) ->
  exists s', rtc (step unmarshal byName) s s' /\ (id, route unmarshal byName d) ∈ told (clu s').
Proof.
  intros Hok Eg Hw Hwait Ho Hd (x & Ex & Hx). destruct Hok as [Hf Hc] eqn:Hok'; clear Hok'.
  destruct (co_gor s Hc id g Eg) as (a & Ha & Hctx & _). assert (a = sid) as -> by congruence.
  pose proof (fo_pending _ Hf _ _ Hctx) as Hp. rewrite Hd in Hp. cbn in Hp.
  eexists. split.
  - eapply rtc_l; [apply (st_finish _ _ id)|].
    { unfold finish_wait. rewrite Eg. cbn. rewrite Hp. cbn. rewrite Hw.
      rewrite bool_decide_eq_true_2 by done. done. }
    eapply rtc_once, (st_task _ _ (tasks (clu s)) id _ []); [done|].
    unfold run_task. cbn. rewrite Ex. cbn. unfold Complete, claim. rewrite Hx. done.
  - cbn. rewrite elem_of_app, list_elem_of_singleton. by right.
Qed.
End invariant.

(** ** Properties *)

(** C32: a request goes where its own body says.  Whatever the interleaving of streams, load
    balancers, goroutines, main-thread tasks and cancellations (over fewer than 2^64
    streams): when Envoy is told the outcome of a selection, it is told once, and the outcome
    is the one the complete body of the stream the selection was made for calls for: the host
    of the configured upstream it names, or the error for a body that names none. *)
Theorem body_routes_its_own_request unmarshal byName s id o :
  rtc (step unmarshal byName) init_state s -> bounded s -> (id, o) ∈ told (clu s) ->
  count (fun e => bool_decide (e.1 = id)) (told (clu s)) = 1%nat /\
  exists sid data, owners (clu s) !! id = Some sid /\ bodies (fil s) !! sid = Some data /\
    o = route unmarshal byName data.
Proof.
  intros Hr Hb Hin. destruct (router_reachable_ok unmarshal byName s Hr Hb) as [Hf Hc].
  split; [|by apply (co_told _ _ _ Hc)]. pose proof (co_nodup _ _ _ Hc) as Hn. clear - Hin Hn.
  assert (forall l : list (nat * (HostPtr * string)), id ∉ l.*1 ->
    count (fun e => bool_decide (e.1 = id)) l = 0%nat) as Hz.
  { induction l as [|e l IH]; cbn; [done|]. intros Hni. rewrite bool_decide_eq_false_2 by set_solver.
    apply IH. set_solver. }
  induction (told (clu s)) as [|e l IH]; [set_solver|]. cbn in *.
  apply NoDup_cons in Hn as [Hni Hn]. apply elem_of_cons in Hin as [<-|Hin].
  - rewrite bool_decide_eq_true_2 by done. by rewrite Hz.
  - rewrite bool_decide_eq_false_2; [by apply IH|]. intros E. apply Hni.
    apply list_elem_of_fmap. exists (id, o). by rewrite E.
Qed.

(** No selection is left hanging: in every reachable state, a selection that is open and
    whose stream's body is complete can be brought to its outcome by its goroutine and the
    main thread alone. *)
Theorem open_selection_completes unmarshal byName s id sid data :
  rtc (step unmarshal byName) init_state s -> bounded s ->
  open_selection s id sid -> bodies (fil s) !! sid = Some data ->
  exists s', rtc (step unmarshal byName) s s' /\ (id, route unmarshal byName data) ∈ told (clu s').
Proof.
  intros Hr Hb [Ho (g & Eg & Hw) Hx] Hd. pose proof (router_reachable_ok unmarshal byName s Hr Hb) as Hok.
  destruct (g_woken g) eqn:E; [by eapply woken_completes|].
  destruct Hok as [Hf Hc] eqn:Hok'; clear Hok'.
  destruct (co_gor _ _ _ Hc id g Eg) as (a & Ha & Hctx & _). assert (a = sid) as -> by congruence.
  pose proof (fo_pending _ _ Hf _ _ Hctx) as Hp. rewrite Hd in Hp. cbn in Hp.
  assert (exists s1, wake id s = Some s1) as [s1 E1].
  { unfold wake. rewrite Eg. cbn. rewrite Hp. cbn. rewrite E. by eexists. }
  pose proof (wake_ok _ _ _ _ _ Hok E1) as Hok1.
  unfold wake in E1. rewrite Eg in E1. cbn in E1. rewrite Hp in E1. cbn in E1. rewrite E in E1.
  injection E1 as <-.
  destruct (woken_completes unmarshal byName _ id (mkGor (g_lb g) (g_token g) (g_p g) true) data sid Hok1)
    as (s' & Hs' & Hin); cbn; [by rewrite lookup_insert_eq|done..|].
  exists s'. split; [|done]. eapply rtc_l; [|done]. eapply (st_wake _ _ id). unfold wake.
  rewrite Eg. cbn. rewrite Hp. cbn. by rewrite E.
Qed.

(** Two requests, the second one answered first. *)
Definition demo_byName : gmap string HostPtr := {["a" := 11; "b" := 12]}.
Definition demo_unmarshal (d : bytes) : option string := Some (String.string_of_list_byte d).

Definition demo_first : state := mkState (requestHandler 0 true (fil init_state)) (clu init_state).
Definition demo_second : state := mkState (requestHandler 1 true (fil demo_first)) (clu demo_first).
Definition demo_body : state :=
  mkState (bodyHandler demo_unmarshal 1 [Byte.x62] true (fil demo_second)) (clu demo_second).
Definition demo_parked : state := (ChooseHost 0 (Some 0%nat) demo_body).2.
Definition demo_chosen : state := (ChooseHost 0 (Some 1%nat) demo_parked).2.
Definition demo_woken : state := default init_state (wake 1 demo_chosen).
Definition demo_scheduled : state := default init_state (finish_wait demo_byName 1 demo_woken).
Definition demo_told : state := default init_state (run_task 1 (12, "") [] demo_scheduled).

Lemma default_is_Some {A} (d : A) (o : option A) :
  match o with Some _ => true | None => false end = true -> o = Some (default d o).
Proof. by destruct o. Qed.

Lemma demo_chosen_reachable : rtc (step demo_unmarshal demo_byName) init_state demo_chosen.
Proof.
  apply (rtc_l _ _ demo_first); [apply (st_request _ _ 0 true); by vm_compute|].
  apply (rtc_l _ _ demo_second); [apply (st_request _ _ 1 true); by vm_compute|].
  apply (rtc_l _ _ demo_body); [apply (st_body _ _ 1 [Byte.x62] true)|].
  apply (rtc_l _ _ demo_parked); [apply (st_choose _ _ 0 (Some 0%nat))|].
  apply (rtc_l _ _ demo_chosen); [apply (st_choose _ _ 0 (Some 1%nat))|]. apply rtc_refl.
Qed.

Lemma demo_told_reachable : rtc (step demo_unmarshal demo_byName) init_state demo_told.
Proof.
  transitivity demo_chosen; [apply demo_chosen_reachable|].
  apply (rtc_l _ _ demo_woken).
  { apply (st_wake _ _ 1), (default_is_Some init_state). by vm_compute. }
  apply (rtc_l _ _ demo_scheduled).
  { apply (st_finish _ _ 1), (default_is_Some init_state). by vm_compute. }
  apply rtc_once, (st_task _ _ [] 1 (12, "") []); [by vm_compute|].
  apply (default_is_Some init_state). by vm_compute.
Qed.

Lemma body_routes_its_own_request_witness :
  count (fun e => bool_decide (e.1 = 1%nat)) (told (clu demo_told)) = 1%nat /\
  exists sid data, owners (clu demo_told) !! 1%nat = Some sid /\
    bodies (fil demo_told) !! sid = Some data /\
    (12, "") = route demo_unmarshal demo_byName data.
Proof.
  apply (body_routes_its_own_request demo_unmarshal demo_byName demo_told 1 (12, "")).
  - apply demo_told_reachable.
  - by vm_compute.
  - by vm_compute; left.
Defined.

Lemma open_selection_completes_witness :
  exists s', rtc (step demo_unmarshal demo_byName) demo_chosen s' /\ (1%nat, (12, "")) ∈ told (clu s').
Proof.
  apply (open_selection_completes demo_unmarshal demo_byName demo_chosen 1 1 [Byte.x62]).
  - apply demo_chosen_reachable.
  - by vm_compute.
  - split; [done| |]; [exists (mkGor 0 (token 2) 1 false)|exists (SetFinishFn NewCompletion).1]; split; try done.
  - done.
Defined.

(** A second [ChooseHost] for the same request, after its token was consumed, finds nothing:
    a retried request gets no host although its body named one. *)
Lemma retried_selection_finds_nothing :
  (ChooseHost 0 (Some 1%nat) demo_told).1 = None /\ fstates (fil demo_told) !! 1%nat <> None /\
  told (clu demo_told) = [(1%nat, (12, ""))].
Proof. by vm_compute. Qed.

(** The registry entry and the goroutine of a stream whose body never completes remain: no
    handler of the filter removes them when the stream ends. *)
Lemma unfinished_stream_keeps_entry :
  is_Some (registry (fil demo_told) !! token 1) /\ is_Some (goroutines (clu demo_told) !! 0%nat).
Proof. vm_compute. by split; eexists. Qed.
