(* ===== verification/ClusterDfp.v ===== *)
(** * examples/cluster-dfp: models resolved once, hosts picked per request

    The configured targets are resolved when the cluster is initialised; the models whose
    host the cluster accepted are remembered with their address, the others are skipped.
    The decoder of the configuration and the resolver are parameters; the orders in which Go
    walks its maps are arguments. *)
From stdpp Require Import base list gmap strings sets.
From Stdlib Require Import ZArith Lia.
From S2P Require Import Prelude GoStrings HostSet HostRefresh HostLookup.
#[local] Open Scope Z_scope.

Definition modelHeader : string := "x-model".

(** ** Configuration *)

Record dfpConfig := mkDfpConfig { TimeoutMillis : Z; dfp_Models : gmap string string }.

(** [parseConfig]; [unmarshal] is [json.Unmarshal], [inl] with its error text. *)
Definition parseConfig (unmarshal : bytes -> string + dfpConfig) (config : bytes) :
    string + dfpConfig :=
  match config with
  | [] => inr (mkDfpConfig 0 ∅)
  | _ => match unmarshal config with
         | inl e => inl ("cluster-dfp: parse config: " +:+ e)
         | inr cfg => inr cfg
         end
  end.

(** [timeout()], in nanoseconds. *)
Definition timeout (c : dfpConfig) : Z :=
  if TimeoutMillis c <=? 0 then 250 * 1000000 else int64_of (TimeoutMillis c * 1000000).

(** [cloneStringMap]: nil for an empty map, which reads the same. *)
Definition cloneStringMap (m : gmap string string) : gmap string string := m.

(** [Create]: the factory's timeout and models. *)
Definition dfp_Create (unmarshal : bytes -> string + dfpConfig) (config : bytes) :
    string + Z * gmap string string :=
  match parseConfig unmarshal config with
  | inl e => inl e
  | inr cfg => inr (timeout cfg, cloneStringMap (dfp_Models cfg))
  end.

(** ** The cluster *)

Section dfp.
Context {C : Type} `{AddressedCluster C}.

Record dfpCluster := mkDfp {
  dfp_handle : C;
  modelTargets : gmap string string;
  modelAddrs : gmap string string;
}.

Definition NewCluster (models : gmap string string) (h : C) : dfpCluster :=
  mkDfp h (cloneStringMap models) ∅.

(** [resolveModels] over the order [order]; [resolve] is [resolveTarget] with the cluster's
    timeout. *)
Definition resolveModels (resolve : string -> string + string) (order : list (string * string)) :
    gmap string string :=
  foldl (fun m '(model, target) =>
           match resolve target with inl _ => m | inr addr => <[model := addr]> m end) ∅ order.

Definition remember (model addr : string) (c : dfpCluster) : dfpCluster :=
  mkDfp (dfp_handle c) (modelTargets c) (<[model := addr]> (modelAddrs c)).

(** [applyResolved]: a model whose host is refused is skipped. *)
Definition applyResolved (order : list (string * string)) (c : dfpCluster) : dfpCluster :=
  foldl (fun c '(model, addr) =>
           let '(host, h) := ensure_host addr (dfp_handle c) in
           let c := mkDfp h (modelTargets c) (modelAddrs c) in
           match host with None => c | Some _ => remember model addr c end) c order.

(** [Init], before the final [PreInitComplete]: [o1] is the order in which the targets are
    walked, [o2 m] the order in which the resolved map [m] is. *)
Definition dfp_Init (resolve : string -> string + string) (o1 : list (string * string))
    (o2 : gmap string string -> list (string * string)) (c : dfpCluster) : dfpCluster :=
  applyResolved (o2 (resolveModels resolve o1)) c.

(** [addressForModel] and [ChooseHost]; [header] is [ctx.GetHeader]. *)
Definition addressForModel (model : string) (c : dfpCluster) : option string := modelAddrs c !! model.

Definition dfp_ChooseHost (c : dfpCluster) (header : string -> option string) : HostPtr :=
  match header modelHeader with
  | None => 0
  | Some model =>
      if decide (model = "") then 0
      else match addressForModel model c with
           | None => 0
           | Some addr => FindHostByAddress addr (dfp_handle c)
           end
  end.
End dfp.
Arguments dfpCluster C : clear implicits.

(** ** Lemmas *)

Lemma resolveModels_lookup resolve order model :
  NoDup order.*1 ->
  resolveModels resolve order !! model =
  (list_to_map order : gmap string string) !! model ≫= fun target =>
    match resolve target with inl _ => None | inr addr => Some addr end.
Proof.
  unfold resolveModels.
  assert (forall m : gmap string string, NoDup order.*1 ->
    foldl (fun m '(model, target) =>
             match resolve target with inl _ => m | inr addr => <[model := addr]> m end) m order !! model =
    match (list_to_map order : gmap string string) !! model with
    | None => m !! model
    | Some target => match resolve target with inl _ => m !! model | inr addr => Some addr end
    end) as Hgen.
  { induction order as [|[k t] order IH]; intros m Hn; cbn; [by rewrite lookup_empty|].
    apply NoDup_cons in Hn as [Hk Hn]. rewrite IH by done.
    destruct (decide (model = k)) as [->|Hne].
    - rewrite not_elem_of_list_to_map_1, lookup_insert_eq by done.
      destruct (resolve t); [done|]. by rewrite lookup_insert_eq.
    - rewrite (lookup_insert_ne _ k) by done.
      destruct (resolve t); [done|]. by rewrite lookup_insert_ne. }
  intros Hn. rewrite Hgen by done. rewrite lookup_empty.
  destruct (list_to_map order !! model) as [t|]; [|done]. cbn. by destruct (resolve t).
Qed.

Section apply_lemmas.
Context {C : Type} `{AddressedClusterLaws C}.

(** What is remembered is resolved and has a host; no host is lost on the way. *)
Lemma applyResolved_spec (m : gmap string string) order : forall c : dfpCluster C,
  (forall k a, (k, a) ∈ order -> m !! k = Some a) ->
  (forall k a, modelAddrs c !! k = Some a ->
     m !! k = Some a /\ (takes C a -> FindHostByAddress a (dfp_handle c) <> 0)) ->
  let c' := applyResolved order c in
  modelTargets c' = modelTargets c /\
  (forall a, FindHostByAddress a (dfp_handle c) <> 0 -> FindHostByAddress a (dfp_handle c') <> 0) /\
  (forall k a, modelAddrs c' !! k = Some a ->
     m !! k = Some a /\ (takes C a -> FindHostByAddress a (dfp_handle c') <> 0)).
Proof.
  unfold applyResolved. induction order as [|[k a] order IH]; intros c Ho Hc; cbn [foldl].
  { split_and!; auto. }
  destruct (ensure_host a (dfp_handle c)) as [host h] eqn:E.
  assert (forall x, FindHostByAddress x (dfp_handle c) <> 0 -> FindHostByAddress x h <> 0) as Hkeep
    by (intros x; by eapply ensure_host_keeps).
  set (c1 := match host with None => _ | Some _ => _ end).
  assert (dfp_handle c1 = h /\ modelTargets c1 = modelTargets c) as [Hh Ht] by (by destruct host).
  destruct (IH c1) as (H1 & H2 & H3).
  - intros k' a' Hin. apply Ho. by apply elem_of_cons; right.
  - rewrite Hh. intros k' a' Hk'. destruct host as [p|]; cbn in Hk'.
    + apply lookup_insert_Some in Hk' as [[<- <-]|[_ Hk']].
      * split; [apply Ho; by apply elem_of_cons; left|]. by eapply ensure_host_finds.
      * apply Hc in Hk' as [? ?]. auto.
    + apply Hc in Hk' as [? ?]. auto.
  - split_and!; [congruence| |done]. intros x Hx. apply H2. rewrite Hh. auto.
Qed.

(** Every resolved model is remembered. *)
Lemma applyResolved_complete order : forall c : dfpCluster C,
  dom (modelAddrs (applyResolved order c)) = dom (modelAddrs c) ∪ list_to_set order.*1.
Proof.
  unfold applyResolved. induction order as [|[k a] order IH]; intros c; cbn [foldl]; [set_solver|].
  destruct (ensure_host a (dfp_handle c)) as [r h] eqn:He. destruct (ensure_host_some a (dfp_handle c)) as [p Hp].
  rewrite He in Hp. cbn in Hp. subst r. rewrite IH. cbn. set_solver.
Qed.
End apply_lemmas.

(** ** Properties *)

(** After initialisation, whatever orders Go walks its maps in: the remembered models are
    those that are configured and whose target resolved; a request for one is given the host
    at the resolved address, which is not nil when Envoy takes hosts at that address; and a
    request for any other model is given none. *)
Theorem dfp_models_have_hosts {C} `{AddressedClusterLaws C} resolve models (h : C) o1 o2 header model :
  o1 ≡ₚ map_to_list models -> (forall m, o2 m ≡ₚ map_to_list m) ->
  header modelHeader = Some model -> model <> "" ->
  let c := dfp_Init resolve o1 o2 (NewCluster models h) in
  (is_Some (addressForModel model c) <->
     exists target addr, models !! model = Some target /\ resolve target = inr addr) /\
  (forall addr, addressForModel model c = Some addr ->
     exists target, models !! model = Some target /\ resolve target = inr addr /\
       dfp_ChooseHost c header = FindHostByAddress addr (dfp_handle c) /\
       (takes C addr -> dfp_ChooseHost c header <> 0)) /\
  (addressForModel model c = None -> dfp_ChooseHost c header = 0).
Proof.
  intros Ho1 Ho2 Hh Hm c.
  assert (forall k, resolveModels resolve o1 !! k = models !! k ≫= fun target =>
            match resolve target with inl _ => None | inr addr => Some addr end) as Hres.
  { intros k. rewrite resolveModels_lookup by (rewrite Ho1; apply NoDup_fst_map_to_list).
    rewrite <- (list_to_map_to_list models) at 1.
    by rewrite (list_to_map_proper o1 (map_to_list models))
      by (done || (rewrite Ho1; apply NoDup_fst_map_to_list)). }
  destruct (applyResolved_spec (resolveModels resolve o1) (o2 (resolveModels resolve o1))
              (NewCluster models h)) as (_ & _ & Hspec).
  { intros k a. rewrite Ho2. apply elem_of_map_to_list. }
  { intros k a. cbn. by rewrite lookup_empty. }
  fold c in Hspec. change (applyResolved _ _) with c in Hspec.
  unfold dfp_ChooseHost, addressForModel. rewrite Hh, (decide_False _ _ Hm). split_and!.
  - rewrite <- elem_of_dom.
    change (modelAddrs c) with (modelAddrs (applyResolved (o2 (resolveModels resolve o1)) (NewCluster models h))).
    rewrite applyResolved_complete. cbn [NewCluster modelAddrs].
    rewrite dom_empty_L, (left_id_L ∅ (∪)), elem_of_list_to_set, list_elem_of_fmap.
    split.
    + intros ([k a] & -> & Hin). rewrite Ho2, elem_of_map_to_list, Hres in Hin. cbn.
      destruct (models !! k) as [t|]; [|done]. cbn in Hin. exists t, a.
      by destruct (resolve t); simplify_eq.
    + intros (t & a & Ht & Ha). exists (model, a). split; [done|].
      rewrite Ho2, elem_of_map_to_list, Hres, Ht. cbn. by rewrite Ha.
  - intros addr E. destruct (Hspec _ _ E) as [Hr Hf]. rewrite Hres in Hr.
    destruct (models !! model) as [t|] eqn:Et; [|done]. cbn in Hr.
    destruct (resolve t) eqn:Er; simplify_eq. exists t. by rewrite E.
  - intros E. by rewrite E.
Qed.

Lemma dfp_models_have_hosts_witness :
  let header := fun h => if decide (h = modelHeader) then Some "gpt" else None in
  let models := {["gpt" := "llm:443"; "old" := "gone:1"]} in
  let resolve := fun t => if decide (t = "llm:443") then inr "10.0.0.1:443" else inl "no such host" in
  let c := dfp_Init resolve (map_to_list models) map_to_list (NewCluster models ([] : list string)) in
  dfp_ChooseHost c header <> 0.
Proof.
  intros header models resolve c.
  destruct (dfp_models_have_hosts resolve models ([] : list string) (map_to_list models) map_to_list header "gpt")
    as (_ & H & _); [done..|].
  destruct (H "10.0.0.1:443") as (_ & _ & _ & _ & Hne); [vm_compute; reflexivity|].
  apply Hne, list_cluster_takes. done.
Defined.
