(* ===== verification/Discovery.v ===== *)
(** * examples/cluster-group: hosts discovered from a polled list

    The cluster keeps the hosts of the last list it applied.  Lists come from a fetch when
    the server starts and from a background goroutine that schedules them on the main
    thread; the fetches' results are arguments, as are the orders in which Go walks its
    maps.  Built on the cluster interface of [HostSet]. *)
From stdpp Require Import base list gmap strings sets.
From Stdlib Require Import ZArith Lia.
From S2P Require Import Prelude HostSet HostRefresh HostSetProps.
#[local] Open Scope Z_scope.

(** ** Configuration *)

Record clusterConfig := mkClusterConfig { DiscoveryURL : string; RefreshMS : Z }.

(** [refreshInterval()], in nanoseconds. *)
Definition refreshInterval (c : clusterConfig) : Z :=
  if RefreshMS c <=? 0 then 5 * 1000000000 else int64_of (RefreshMS c * 1000000).

Definition discovery_Create (unmarshal : bytes -> string + clusterConfig) (config : bytes) :
    string + clusterConfig :=
  match unmarshal config with
  | inl e => inl ("cluster-group: parse config: " +:+ e)
  | inr cfg => if decide (DiscoveryURL cfg = "") then inl "cluster-group: discovery_url is required"
               else inr cfg
  end.

(** ** The cluster *)

Section discovery.
Context {C : Type} `{ClusterHandle C}.

(** The main thread's state: Envoy's cluster, the hosts by address, and the lists scheduled
    and not applied yet. *)
Record discoveryCluster := mkDiscovery {
  d_handle : C;
  known : gmap string HostPtr;
  scheduled : list (list string);
}.

Definition NewCluster (h : C) : discoveryCluster := mkDiscovery h ∅ [].

(** The loop over [want], in some order; [ptrs[0]] panics when Envoy returned no pointer. *)
Fixpoint add_missing (order : list string) (kn : gmap string HostPtr) (c : C) :
    res (gmap string HostPtr * C) :=
  match order with
  | [] => Ok (kn, c)
  | addr :: order =>
      match kn !! addr with
      | Some _ => add_missing order kn c
      | None =>
          match AddHosts [mkSpec addr "" 0 ∅] c with
          | ([], _) => Panic "index out of range [0] with length 0"
          | (p :: _, c) => add_missing order (<[addr := p]> kn) (UpdateHostHealth p HostHealthy c)
          end
      end
  end.

(** The loop over [c.known], in some order, deleting as it goes. *)
Fixpoint remove_unwanted (want : gset string) (order : list (string * HostPtr))
    (kn : gmap string HostPtr) (c : C) : gmap string HostPtr * C :=
  match order with
  | [] => (kn, c)
  | (addr, ptr) :: order =>
      if decide (addr ∈ want) then remove_unwanted want order kn c
      else remove_unwanted want order (delete addr kn) (RemoveHosts [ptr] c)
  end.

(** [applyHostsDirect(addrs)]: [o1] is the order of [want], [o2 m] the order of the map [m]. *)
Definition applyHostsDirect (o1 : list string) (o2 : gmap string HostPtr -> list (string * HostPtr))
    (addrs : list string) (d : discoveryCluster) : res discoveryCluster :=
  let want : gset string := list_to_set addrs in
  '(kn, c) ← add_missing o1 (known d) (d_handle d);
  let '(kn, c) := remove_unwanted want (o2 kn) kn c in
  Ok (mkDiscovery c kn (scheduled d)).

(** The fetch of [ServerInitialized]; [None] is a failed one, which is only logged. *)
Definition ServerInitialized (fetched : option (list string)) (o1 : list string)
    (o2 : gmap string HostPtr -> list (string * HostPtr)) (d : discoveryCluster) :
    res discoveryCluster :=
  match fetched with
  | None => Ok d
  | Some hosts => applyHostsDirect o1 o2 hosts d
  end.

Definition scheduleApplyHosts (addrs : list string) (d : discoveryCluster) : discoveryCluster :=
  mkDiscovery (d_handle d) (known d) (scheduled d ++ [addrs]).

(** ** The load balancer *)

(** [ChooseHost]: the index of the healthy host asked for, [None] when there is none, and the
    counter.  [int] has 64 bits and [%] takes the sign of the dividend. *)
Definition rr_ChooseHost (n counter : Z) : option Z * Z :=
  if n =? 0 then (None, counter)
  else let counter := uint64_of (counter + 1) in
       (Some (Z.rem (int64_of (uint64_of (counter - 1))) n), counter).
End discovery.
Arguments discoveryCluster C : clear implicits.

(** ** Invariant *)

Section invariant.
Context {C : Type} `{ClusterHandleLaws C}.

(** The hosts known that are not nil are the cluster's hosts, each under one address. *)
Record tracks (kn : gmap string HostPtr) (c : C) : Prop := {
  tr_live : forall p, p ∈ live c <-> p <> 0 /\ exists a, kn !! a = Some p;
  tr_inj : forall a b p, p <> 0 -> kn !! a = Some p -> kn !! b = Some p -> a = b;
}.

(** One host added, or refused and known as nil. *)
Lemma tracks_add kn (c : C) a p c1 :
  tracks kn c -> kn !! a = None -> AddHosts [mkSpec a "" 0 ∅] c = ([p], c1) ->
  tracks (<[a := p]> kn) (UpdateHostHealth p HostHealthy c1).
Proof.
  intros Ht Ea E1. destruct (add_unified _ _ _ _ E1) as (_ & _ & Hfr & Hlv); [done|].
  assert (p <> 0 -> p ∉ live c) as Hp by (intros; apply Hfr; [set_solver|done]).
  constructor.
  - intros q. rewrite health_live, Hlv, elem_of_union, (tr_live _ _ Ht), elem_of_difference, elem_of_singleton,
      elem_of_list_to_set, list_elem_of_singleton. split.
    + intros [[Hq [b Hb]]|[-> Hq]]; (split; [done|]).
      * exists b. rewrite lookup_insert_ne; [done|]. intros ->. congruence.
      * exists a. by rewrite lookup_insert_eq.
    + intros (Hq & b & [[<- <-]|[_ Hb]]%lookup_insert_Some); [by right|]. left. split; [done|]. by exists b.
  - intros b b' q Hq Hb Hb'. apply lookup_insert_Some in Hb, Hb'.
    destruct Hb as [[<- <-]|[_ Hb]], Hb' as [[<- Hq']|[_ Hb']]; [done| | |by eapply tr_inj].
    + destruct (Hp Hq). apply (tr_live _ _ Ht). split; [done|]. by exists b'.
    + subst q. destruct (Hp Hq). apply (tr_live _ _ Ht). split; [done|]. by exists b.
Qed.

Lemma add_missing_ok order : forall kn c, tracks kn c ->
  exists kn' c', add_missing order kn c = Ok (kn', c') /\ tracks kn' c' /\
    dom kn' = dom kn ∪ list_to_set order /\ kn ⊆ kn'.
Proof.
  induction order as [|a order IH]; intros kn c Ht; cbn [add_missing list_to_set].
  { exists kn, c. split_and!; [done|done|set_solver|done]. }
  destruct (kn !! a) as [p|] eqn:Ea.
  { destruct (IH kn c Ht) as (kn' & c' & E & Ht' & Hd & Hs). exists kn', c'.
    apply elem_of_dom_2 in Ea. split_and!; [done|done|set_solver|done]. }
  destruct (AddHosts [mkSpec a "" 0 ∅] c) as [ps c1] eqn:E1.
  pose proof (add_length _ _ _ _ E1) as Hl. destruct ps as [|p [|? ?]]; try done.
  destruct (IH (<[a := p]> kn) (UpdateHostHealth p HostHealthy c1)) as (kn' & c' & E & Ht' & Hd & Hs);
    [by eapply tracks_add|].
  exists kn', c'. split_and!; [done|done|set_solver|].
  etrans; [|exact Hs]. by apply insert_subseteq.
Qed.

Lemma remove_unwanted_ok want order : forall kn c, tracks kn c ->
  NoDup order.*1 -> (forall a p, (a, p) ∈ order -> kn !! a = Some p) ->
  let r := remove_unwanted want order kn c in
  tracks r.1 r.2 /\
  (forall a, r.1 !! a = if decide (a ∈ order.*1 /\ a ∉ want) then None else kn !! a).
Proof.
  induction order as [|[a p] order IH]; intros kn c Ht Hn Ho; cbn [remove_unwanted].
  { cbn. split; [done|]. intros b. rewrite decide_False by set_solver. done. }
  cbn in Hn. apply NoDup_cons in Hn as [Ha Hn].
  assert (kn !! a = Some p) as Hap by (apply Ho; set_solver).
  case_decide as Hw.
  - destruct (IH kn c Ht Hn) as [Ht' Hl]; [set_solver|]. split; [done|]. intros b. rewrite Hl.
    destruct (decide (b ∈ order.*1 /\ b ∉ want)) as [?|Hb].
    + by rewrite decide_True by set_solver.
    + rewrite decide_False; [done|]. cbn. set_solver.
  - destruct (IH (delete a kn) (RemoveHosts [p] c)) as [Ht' Hl]; [|done| |].
    + constructor.
      * intros q. rewrite remove_live, elem_of_difference, (tr_live _ _ Ht). split.
        -- intros [[Hz [b Hb]] Hq]. split; [done|]. exists b. apply lookup_delete_Some. split; [|done].
           intros ->. apply Hq. cbn. set_solver.
        -- intros (Hz & b & [Hne Hb]%lookup_delete_Some). split; [split; [done|by exists b]|]. cbn.
           intros Hq.
           assert (q = p) as -> by set_solver. destruct Hne. by eapply tr_inj.
      * intros b b' q Hz [_ Hb]%lookup_delete_Some [_ Hb']%lookup_delete_Some. by eapply tr_inj.
    + intros b q Hin. apply lookup_delete_Some. split; [|set_solver].
      intros <-. apply Ha. apply list_elem_of_fmap. by exists (a, q).
    + split; [done|]. intros b. rewrite Hl. destruct (decide (b = a)) as [->|Hne].
      * rewrite lookup_delete_eq, (decide_True (P := a ∈ ((a, p) :: order).*1 /\ _)) by set_solver.
        by case_decide.
      * rewrite lookup_delete_ne by done.
        destruct (decide (b ∈ order.*1 /\ b ∉ want)).
        -- by rewrite decide_True by set_solver.
        -- rewrite decide_False; [done|]. cbn. set_solver.
Qed.

(** Applying a list leaves exactly its addresses, without a panic; an address that was known
    and is still wanted keeps its host. *)
Lemma applyHostsDirect_ok o1 o2 addrs d :
  tracks (known d) (d_handle d) ->
  (list_to_set o1 : gset string) = list_to_set addrs -> (forall m, o2 m ≡ₚ map_to_list m) ->
  exists d', applyHostsDirect o1 o2 addrs d = Ok d' /\ tracks (known d') (d_handle d') /\
    scheduled d' = scheduled d /\ dom (known d') = list_to_set addrs /\
    (forall a p, a ∈ addrs -> known d !! a = Some p -> known d' !! a = Some p).
Proof.
  intros Ht Ho1 Ho2. unfold applyHostsDirect.
  destruct (add_missing_ok o1 (known d) (d_handle d) Ht) as (kn & c & E & Ht1 & Hd & Hs).
  rewrite E. cbn [mbind res_bind].
  destruct (remove_unwanted_ok (list_to_set addrs) (o2 kn) kn c Ht1) as [Ht2 Hl].
  { rewrite Ho2. apply NoDup_fst_map_to_list. }
  { intros a p. rewrite Ho2. apply elem_of_map_to_list. }
  destruct (remove_unwanted _ _ kn c) as [kn' c']. cbn [fst snd] in *.
  eexists. split; [done|]. cbn. split_and!; [done|done| |].
  - apply set_eq. intros a. rewrite elem_of_dom, Hl.
    assert (a ∈ (o2 kn).*1 <-> a ∈ dom kn) as Hin.
    { rewrite Ho2. rewrite elem_of_dom. split.
      - intros ([k p] & -> & Hk%elem_of_map_to_list)%list_elem_of_fmap. by eexists.
      - intros [p Hp]. apply list_elem_of_fmap. exists (a, p). by rewrite elem_of_map_to_list. }
    case_decide as Hc.
    + split; [by intros [? ?]|]. intros Ha. by destruct Hc as [_ []].
    + rewrite <- elem_of_dom, Hd, Ho1. split; [|set_solver].
      intros Ha. destruct (decide (a ∈ (list_to_set addrs : gset string))); [done|].
      destruct Hc. split; [|done]. apply Hin. by rewrite Hd, Ho1.
  - intros a p Ha Hp. rewrite Hl, decide_False by set_solver. by eapply lookup_weaken.
Qed.

(** ** Reachable states *)

(** The main thread's work, with the list applied last: the fetch at start, lists that the
    background goroutine schedules, and their application in order. *)
Inductive dreach : discoveryCluster C -> list string -> Prop :=
  | dr_new h : live h = ∅ -> dreach (NewCluster h) []
  | dr_init fetched o1 o2 d d' last :
      dreach d last -> ServerInitialized fetched o1 o2 d = Ok d' ->
      (forall addrs, fetched = Some addrs -> (list_to_set o1 : gset string) = list_to_set addrs) ->
      (forall m, o2 m ≡ₚ map_to_list m) ->
      dreach d' (default last fetched)
  | dr_schedule addrs d last : dreach d last -> dreach (scheduleApplyHosts addrs d) last
  | dr_apply addrs rest o1 o2 c kn d' last :
      dreach (mkDiscovery c kn (addrs :: rest)) last ->
      (list_to_set o1 : gset string) = list_to_set addrs -> (forall m, o2 m ≡ₚ map_to_list m) ->
      applyHostsDirect o1 o2 addrs (mkDiscovery c kn rest) = Ok d' ->
      dreach d' addrs.

Lemma dreach_tracks d last : dreach d last ->
  tracks (known d) (d_handle d) /\ dom (known d) = list_to_set last.
Proof.
  induction 1 as [h Hh|fetched o1 o2 d d' last Hd [Ht Hk] Hs Ho1 Ho2|addrs d last Hd IH|
                  addrs rest o1 o2 c kn d' last Hd [Ht Hk] Ho1 Ho2 Ha]; cbn.
  - split; [|done]. constructor; cbn.
    + intros p. rewrite Hh. split; [set_solver|]. intros [_ [a Ha]]. by rewrite lookup_empty in Ha.
    + intros a b p _ Ha. by rewrite lookup_empty in Ha.
  - destruct fetched as [addrs|]; cbn [ServerInitialized default from_option] in *; [|by simplify_eq].
    destruct (applyHostsDirect_ok o1 o2 addrs d Ht (Ho1 _ eq_refl) Ho2) as (d1 & E & Ht' & _ & Hk' & _).
    rewrite E in Hs. by injection Hs as <-.
  - done.
  - destruct (applyHostsDirect_ok o1 o2 addrs (mkDiscovery c kn rest) Ht Ho1 Ho2)
      as (d1 & E & Ht' & _ & Hk' & _). rewrite E in Ha. by injection Ha as <-.
Qed.
End invariant.

(** ** Properties *)

(** The cluster converges to every list it is given.  In every state the main thread reaches,
    the hosts Envoy has are exactly the hosts of the addresses of the list applied last, one
    host per address Envoy took; an address Envoy refused is known with a nil host.  The next
    list can be applied from there, in whatever order Go walks its maps: nothing panics,
    exactly its addresses are known afterwards, and an address in both lists keeps its host,
    a nil one included. *)
Theorem discovery_converges {C} `{ClusterHandleLaws C} (d : discoveryCluster C) last addrs o1 o2 :
  dreach d last -> (list_to_set o1 : gset string) = list_to_set addrs ->
  (forall m, o2 m ≡ₚ map_to_list m) ->
  dom (known d) = list_to_set last /\
  (forall p, p ∈ live (d_handle d) <-> p <> 0 /\ exists a, a ∈ last /\ known d !! a = Some p) /\
  exists d', applyHostsDirect o1 o2 addrs d = Ok d' /\ dom (known d') = list_to_set addrs /\
    (forall a p, a ∈ addrs -> known d !! a = Some p -> known d' !! a = Some p) /\
    (forall p, p ∈ live (d_handle d') <-> p <> 0 /\ exists a, a ∈ addrs /\ known d' !! a = Some p).
Proof.
  intros Hr Ho1 Ho2. apply dreach_tracks in Hr as [Ht Hk].
  assert (forall kn c l, tracks kn c -> dom kn = list_to_set l ->
    forall p, p ∈ live c <-> p <> 0 /\ exists a, a ∈ l /\ kn !! a = Some p) as Hlive.
  { intros kn c l Htr Hdom p. rewrite (tr_live _ _ Htr). split; intros (Hz & a & Ha);
      (split; [done|]); exists a; [|by destruct Ha].
    split; [|done]. apply elem_of_dom_2 in Ha. rewrite Hdom in Ha. set_solver. }
  split_and!; [done|by apply Hlive|].
  destruct (applyHostsDirect_ok o1 o2 addrs d Ht Ho1 Ho2) as (d' & E & Ht' & _ & Hk' & Hkeep).
  exists d'. split_and!; [done|done|done|by apply Hlive].
Qed.

(** From a cluster with no hosts yet, a list with a repeated address. *)
Lemma discovery_converges_witness :
  exists d', applyHostsDirect ["b"; "a"] map_to_list ["a"; "b"; "a"]
               (NewCluster (mkSim 1 ∅)) = Ok d' /\ dom (known d') = list_to_set ["a"; "b"; "a"].
Proof.
  destruct (discovery_converges (NewCluster (mkSim 1 ∅)) [] ["a"; "b"; "a"] ["b"; "a"] map_to_list)
    as (_ & _ & d' & E & Hd & _).
  - apply dr_new. reflexivity.
  - set_solver.
  - done.
  - exists d'. split; [exact E|exact Hd].
Defined.

(** A cluster that refuses every host, as Envoy does for an address it cannot parse. *)
#[local] Instance refusing : ClusterHandle unit := {|
  AddHosts specs c := (replicate (length specs) 0, c);
  UpdateHostHealth _ _ c := c;
  RemoveHosts _ c := c;
  live _ := ∅;
|}.

(** An address that Envoy refuses is known with a nil host, and stays so when the list is
    applied again: it is not asked for a second time. *)
Lemma refused_host_is_known_as_nil :
  exists d1 d2,
    applyHostsDirect ["not-an-address"] map_to_list ["not-an-address"] (NewCluster tt) = Ok d1 /\
    known d1 = {["not-an-address" := 0]} /\
    applyHostsDirect ["not-an-address"] map_to_list ["not-an-address"] d1 = Ok d2 /\
    known d2 = {["not-an-address" := 0]}.
Proof. eexists _, _. split_and!; [reflexivity..|by vm_compute]. Qed.

(** The round-robin index is a healthy host's for the first 2^63 requests; the one after
    that asks for a negative index. *)
Lemma rr_in_range n counter : 0 < n -> 0 <= counter < 2 ^ 63 ->
  exists i, rr_ChooseHost n counter = (Some i, counter + 1) /\ i = counter mod n /\ 0 <= i < n.
Proof.
  intros Hn Hc. unfold rr_ChooseHost. rewrite (proj2 (Z.eqb_neq n 0)) by lia.
  unfold uint64_of. rewrite (Z.mod_small (counter + 1)) by lia.
  replace (counter + 1 - 1) with counter by lia. rewrite (Z.mod_small counter) by lia.
  unfold int64_of. rewrite (Z.mod_small (counter + 2 ^ 63)) by lia.
  replace (counter + 2 ^ 63 - 2 ^ 63) with counter by lia.
  eexists. rewrite Z.rem_mod_nonneg by lia. split; [done|]. split; [done|]. by apply Z.mod_pos_bound.
Qed.

Lemma rr_negative_index : rr_ChooseHost 3 (2 ^ 63) = (Some (-2), 2 ^ 63 + 1).
Proof. by vm_compute. Qed.
