(* ===== verification/WsProxy.v ===== *)
(** * examples/ws-proxy: the two pumps of a WebSocket session and their tap

    [ServeHTTP] runs one goroutine per direction: read a frame, tap it when it is text, write
    it to the other side; the first error ends the session, and what the tap found by then is
    recorded.  The model is a step relation over both goroutines and the one that waits.  The
    connections (which frames arrive, which reads and writes fail) are the environment's
    choice; the JSON decoder is a parameter. *)
From stdpp Require Import base list gmap strings sets relations.
From Stdlib Require Import ZArith Lia.
From S2P Require Import Prelude GoStrings SseTap.
#[local] Open Scope Z_scope.

(** ** Dialling *)

Record WSProxy := mkProxy {
  upstreamURL : string;
  authHeader : string;
  authValue : string;
  egressURL : string;
}.

Definition NewProxy (upstreamURL authHeader authValue : string) : WSProxy :=
  mkProxy upstreamURL authHeader authValue "".

(** [http.Header] with one value per key: [Set] and [Get] under the canonical key. *)
Definition hdr_Set (k v : string) (h : gmap string string) : gmap string string :=
  <[CanonicalMIMEHeaderKey k := v]> h.
Definition hdr_Get (h : gmap string string) (k : string) : string :=
  default "" (h !! CanonicalMIMEHeaderKey k).

Definition traceHeaders : list string := ["traceparent"; "tracestate"; "x-request-id"].

(** The address and the headers [ServeHTTP] dials with, for a request's headers and path. *)
Definition dial (p : WSProxy) (req : gmap string string) (path : string) :
    string * gmap string string :=
  let '(base, h) :=
    if decide (egressURL p <> "") then (egressURL p, ∅)
    else (upstreamURL p,
          if decide (authHeader p <> "" /\ authValue p <> "")
          then hdr_Set (authHeader p) (authValue p) ∅ else ∅) in
  (base +:+ path,
   foldl (fun h k => if decide (hdr_Get req k <> "") then hdr_Set k (hdr_Get req k) h else h)
         h traceHeaders).

(** ** The tap *)

Record SessionTap := mkTap { t_model : string; t_input : Z; t_output : Z }.

Definition NewSessionTap : SessionTap := mkTap "" 0 0.

(** [bytes.Contains]. *)
Fixpoint bytes_Contains (data sub : bytes) : bool :=
  bytes_HasPrefix data sub ||
  match data with [] => false | _ :: data => bytes_Contains data sub end.

(** [json.Unmarshal] into the two anonymous structs; [None] is an error. *)
Class WsJson := {
  unmarshal_create : bytes -> option (string * string);      (* type, model *)
  unmarshal_completed : bytes -> option (string * Z * Z);    (* type, input, output *)
}.

Section session.
Context `{WsJson}.

Definition FeedClient (data : bytes) (t : SessionTap) : SessionTap :=
  if decide (t_model t <> "") then t
  else if negb (bytes_Contains data (lit "response.create")) then t
  else match unmarshal_create data with
       | Some (ty, m) => if decide (ty = "response.create" /\ m <> "")
                         then mkTap m (t_input t) (t_output t) else t
       | None => t
       end.

Definition FeedUpstream (data : bytes) (t : SessionTap) : SessionTap :=
  if negb (bytes_Contains data (lit "response.completed")) then t
  else match unmarshal_completed data with
       | Some (ty, i, o) => if decide (ty = "response.completed") then mkTap (t_model t) i o else t
       | None => t
       end.

(** ** The pumps *)

(** A frame: whether it is text, and its data. *)
Record frame := mkFrame { is_text : bool; f_data : bytes }.

Inductive side := Client | Upstream.

(** Where a pump is: about to read, about to write what it read, or returned. *)
Inductive pump := PRead | PWrite (f : frame) | PDone.

Record session := mkSession {
  pumps : side -> pump;
  reads : side -> list frame;     (* read from that side *)
  writes : side -> list frame;    (* read from that side and written to the other *)
  tap : SessionTap;
  errc : list string;
  recorded : option (SessionTap * string);
}.

Definition set_side {A} (s : side) (v : A) (f : side -> A) : side -> A :=
  fun s' => match s, s' with
            | Client, Client | Upstream, Upstream => v
            | _, _ => f s'
            end.

Definition start : session :=
  mkSession (fun _ => PRead) (fun _ => []) (fun _ => []) NewSessionTap [] None.

Definition feed (s : side) (f : frame) (t : SessionTap) : SessionTap :=
  if is_text f then match s with
                    | Client => FeedClient (f_data f) t
                    | Upstream => FeedUpstream (f_data f) t
                    end
  else t.

Inductive wstep : session -> session -> Prop :=
  | w_read s f x : pumps x s = PRead ->
      wstep x (mkSession (set_side s (PWrite f) (pumps x)) (set_side s (reads x s ++ [f]) (reads x))
                         (writes x) (feed s f (tap x)) (errc x) (recorded x))
  | w_read_err s e x : pumps x s = PRead ->
      wstep x (mkSession (set_side s PDone (pumps x)) (reads x) (writes x) (tap x)
                         (errc x ++ [e]) (recorded x))
  | w_write s f x : pumps x s = PWrite f ->
      wstep x (mkSession (set_side s PRead (pumps x)) (reads x)
                         (set_side s (writes x s ++ [f]) (writes x)) (tap x) (errc x) (recorded x))
  | w_write_err s f e x : pumps x s = PWrite f ->
      wstep x (mkSession (set_side s PDone (pumps x)) (reads x) (writes x) (tap x)
                         (errc x ++ [e]) (recorded x))
  | w_record e es x : recorded x = None -> errc x = e :: es ->
      wstep x (mkSession (pumps x) (reads x) (writes x) (tap x) es (Some (tap x, e))).

(** ** What the tap stands for *)

(** The model a client frame names, and the counts an upstream frame carries. *)
Definition frame_model (f : frame) : option string :=
  if is_text f && bytes_Contains (f_data f) (lit "response.create") then
    match unmarshal_create (f_data f) with
    | Some (ty, m) => if decide (ty = "response.create" /\ m <> "") then Some m else None
    | None => None
    end
  else None.

Definition frame_usage (f : frame) : option (Z * Z) :=
  if is_text f && bytes_Contains (f_data f) (lit "response.completed") then
    match unmarshal_completed (f_data f) with
    | Some (ty, i, o) => if decide (ty = "response.completed") then Some (i, o) else None
    | None => None
    end
  else None.

(** The first model named and the last counts reported. *)
Definition tap_of (client upstream : list frame) : SessionTap :=
  let u := default (0, 0) (last (omap frame_usage upstream)) in
  mkTap (default "" (head (omap frame_model client))) u.1 u.2.

(** ** Lemmas *)

Lemma frame_model_nonempty f m : frame_model f = Some m -> m <> "".
Proof.
  unfold frame_model. destruct (_ && _); [|done].
  destruct (unmarshal_create (f_data f)) as [[ty m']|]; [|done].
  case_decide as Hd; [|done]. destruct Hd as [_ Hd]. by intros [= <-].
Qed.

Lemma feed_client cs us f : feed Client f (tap_of cs us) = tap_of (cs ++ [f]) us.
Proof.
  assert (t_model (tap_of cs us) = "" <-> omap frame_model cs = []) as Hempty.
  { unfold tap_of. cbn. destruct (omap frame_model cs) as [|m ms] eqn:E; [done|]. cbn. split; [|done].
    intros ->. assert ("" ∈ omap frame_model cs) as Hin by (rewrite E; set_solver).
    apply list_elem_of_omap in Hin as (g & _ & Hg). by apply frame_model_nonempty in Hg. }
  assert (tap_of (cs ++ [f]) us =
          mkTap (if decide (t_model (tap_of cs us) = "") then default "" (frame_model f)
                 else t_model (tap_of cs us)) (t_input (tap_of cs us)) (t_output (tap_of cs us))) as ->.
  { unfold tap_of at 1. cbn. rewrite omap_app. f_equal. case_decide as Hd.
    - apply Hempty in Hd. rewrite Hd. cbn. by destruct (frame_model f).
    - unfold tap_of; cbn. destruct (omap frame_model cs); [|done]. by destruct Hd. }
  unfold feed, FeedClient, frame_model. generalize (tap_of cs us) as t. intros [m i o]. cbn.
  destruct (is_text f); cbn; [|by case_decide; subst].
  destruct (decide (m <> "")) as [Hm|Hm]; [by rewrite decide_False|].
  apply dec_stable in Hm as ->. cbn.
  destruct (bytes_Contains _ _); cbn; [|done].
  destruct (unmarshal_create (f_data f)) as [[ty m']|]; [|done]. by case_decide.
Qed.

Lemma feed_upstream cs us f : feed Upstream f (tap_of cs us) = tap_of cs (us ++ [f]).
Proof.
  assert (tap_of cs (us ++ [f]) =
          match frame_usage f with
          | Some (i, o) => mkTap (t_model (tap_of cs us)) i o
          | None => tap_of cs us
          end) as ->.
  { unfold tap_of. rewrite omap_app. cbn. destruct (frame_usage f) as [[i o]|].
    - by rewrite last_snoc.
    - by rewrite app_nil_r. }
  unfold feed, FeedUpstream, frame_usage. destruct (is_text f); cbn; [|done].
  destruct (bytes_Contains _ _); cbn; [|done].
  destruct (unmarshal_completed (f_data f)) as [[[ty i] o]|]; [|done]. by case_decide.
Qed.

(** What a pump has read, it has written, or is about to, or lost to an error. *)
Definition pump_ok (p : pump) (rs ws : list frame) : Prop :=
  match p with
  | PRead => rs = ws
  | PWrite f => rs = ws ++ [f]
  | PDone => rs = ws \/ exists f, rs = ws ++ [f]
  end.

Record session_ok (x : session) : Prop := {
  so_pump : forall s, pump_ok (pumps x s) (reads x s) (writes x s);
  so_tap : tap x = tap_of (reads x Client) (reads x Upstream);
  so_recorded : forall t e, recorded x = Some (t, e) -> exists cs us,
    cs `prefix_of` reads x Client /\ us `prefix_of` reads x Upstream /\ t = tap_of cs us;
}.

Lemma wstep_ok x y : wstep x y -> session_ok x -> session_ok y.
Proof.
  intros Hs [Hp Ht Hr].
  destruct Hs as [s f x Hx|s e x Hx|s f x Hx|s f e x Hx|e es x Hn He].
  - constructor; cbn.
    + intros s'. specialize (Hp s') as Hs'. destruct s, s'; cbn; rewrite ?Hx in Hs'; cbn in *; congruence.
    + rewrite Ht. destruct s; cbn; [apply feed_client|apply feed_upstream].
    + intros t e Hte. destruct (Hr t e Hte) as (cs & us & Hc & Hu & E). exists cs, us.
      destruct s; cbn; split_and!; try done; by apply prefix_app_r.
  - constructor; cbn; [|done|done].
    intros s'. specialize (Hp s') as Hs'. destruct s, s'; cbn; rewrite ?Hx in Hs'; cbn in *; auto.
  - constructor; cbn; [|done|done].
    intros s'. specialize (Hp s') as Hs'. destruct s, s'; cbn; rewrite ?Hx in Hs'; cbn in *; auto.
  - constructor; cbn; [|done|done].
    intros s'. specialize (Hp s') as Hs'. destruct s, s'; cbn; rewrite ?Hx in Hs'; cbn in *; eauto.
  - constructor; cbn; [done|done|]. intros t e' [= <- <-].
    by exists (reads x Client), (reads x Upstream).
Qed.

Lemma reachable_session_ok x : rtc wstep start x -> session_ok x.
Proof.
  revert x. apply (rtc_ind_r session_ok).
  - constructor; cbn; [done|done|done].
  - intros x y _ Hs Hx. by eapply wstep_ok.
Qed.
End session.

(** ** Properties *)

(** The proxy is transparent and the record is honest.  However the two pumps and the waiter
    interleave: each side receives, unchanged and in order, the frames the other side sent,
    all but at most the last one read; and the record, once made, holds the first model named
    by, and the last counts reported in, the frames read up to some moment of the session. *)
Theorem ws_session_transparent `{WsJson} x :
  rtc wstep start x ->
  (forall s, writes x s = reads x s \/ exists f, reads x s = writes x s ++ [f]) /\
  (forall t e, recorded x = Some (t, e) -> exists cs us,
     cs `prefix_of` reads x Client /\ us `prefix_of` reads x Upstream /\ t = tap_of cs us).
Proof.
  intros Hr. apply reachable_session_ok in Hr as [Hp Ht Hrec]. split; [|done].
  intros s. specialize (Hp s). destruct (pumps x s); cbn in Hp; [auto|eauto|].
  destruct Hp as [->|[f ->]]; eauto.
Qed.

#[local] Instance sample_ws_json : WsJson := {|
  unmarshal_create _ := Some ("response.create", "gpt");
  unmarshal_completed _ := Some ("response.completed", 3, 4);
|}.

Definition create_frame : frame := mkFrame true (lit "response.create").
Definition completed_frame : frame := mkFrame true (lit "response.completed").

(** In this session the client goes away, and the counts arrive after the record is made. *)
Lemma ws_session_transparent_witness :
  (exists x, rtc wstep start x /\ recorded x = Some (mkTap "gpt" 0 0, "client read: EOF") /\
     writes x Upstream = [completed_frame]) /\
  forall s, writes start s = reads start s \/ exists f, reads start s = writes start s ++ [f].
Proof.
  split.
  - eexists. split.
    + eapply rtc_l; [by apply (w_read Client create_frame)|].
      eapply rtc_l; [by apply (w_write Client create_frame)|].
      eapply rtc_l; [by apply (w_read_err Client "client read: EOF")|].
      eapply rtc_l; [by apply (w_record "client read: EOF" [])|].
      eapply rtc_l; [by apply (w_read Upstream completed_frame)|].
      eapply rtc_l; [by apply (w_write Upstream completed_frame)|]. apply rtc_refl.
    + done.
  - apply (ws_session_transparent start). apply rtc_refl.
Defined.

(** The provider's credential goes only to the provider: when an egress listener is
    configured, what is dialled does not depend on the credential, and the connection is to
    that listener. *)
Theorem ws_egress_without_credential p v req path :
  egressURL p <> "" ->
  dial (mkProxy (upstreamURL p) (authHeader p) v (egressURL p)) req path = dial p req path /\
  (dial p req path).1 = egressURL p +:+ path.
Proof. intros He. unfold dial. cbn. by rewrite !(decide_True _ _ He). Qed.

Lemma ws_egress_without_credential_witness :
  (dial (mkProxy "wss://api" "authorization" "Bearer k" "ws://127.0.0.1:10002")
     {["Traceparent" := "00-1"]} "/v1").1 = "ws://127.0.0.1:10002/v1".
Proof.
  apply (ws_egress_without_credential
           (mkProxy "wss://api" "authorization" "Bearer k" "ws://127.0.0.1:10002") "").
  done.
Defined.

(** A trace header wins over a credential configured under the same name. *)
Lemma trace_header_replaces_credential :
  (dial (NewProxy "wss://api" "X-Request-Id" "secret") {["X-Request-Id" := "abc"]} "").2
    !! "X-Request-Id" = Some "abc".
Proof. reflexivity. Qed.
