(* ===== verification/McpCatalog.v ===== *)
(** * examples/mcp-catalog-router: one path per MCP server

    [POST /mcp/s/{server}] is forwarded to the server's endpoint with the credential the
    catalog holds for it, and the answer is relayed.  The HTTP client, net/url and the JSON
    encoder are parameters, as is the dispatch of the [http.ServeMux]; every request sent is
    recorded. *)
From stdpp Require Import base list gmap strings sets sorting.
From Stdlib Require Import ZArith Lia Ascii.
From S2P Require Import Prelude GoStrings McpSession McpRouter McpGateway.
#[local] Open Scope Z_scope.

(** ** Configuration *)

Record Server := mkServer { sv_URL : string; sv_Credential : string }.

Record Config := mkConfig {
  cfg_RouteHeader : string;
  cfg_TimeoutMillis : Z;
  cfg_Servers : gmap string Server;
}.

(** The errors of [ValidateConfig], one constructor per message. *)
Inductive catalog_error :=
  | NoServers
  | ServerIDRequired
  | ServerContainsSlash (id : string)
  | DuplicateServer (id : string)
  | ServerURLRequired (id : string)
  | ServerURLNotAbsolute (id : string).

Section config.
Context `{NetURL}.

(** The loop, in the order Go ranges over the map. *)
Fixpoint validate_servers (seen : gset string) (order : list (string * Server)) : option catalog_error :=
  match order with
  | [] => None
  | (id, server) :: order =>
      if decide (TrimSpace id = "") then Some ServerIDRequired
      else if Contains id "/" then Some (ServerContainsSlash id)
      else if decide (id ∈ seen) then Some (DuplicateServer id)
      else if decide (TrimSpace (sv_URL server) = "") then Some (ServerURLRequired id)
      else match url_Parse (sv_URL server) with
           | inl _ => Some (ServerURLNotAbsolute id)
           | inr u => if decide (u_Scheme u = "" \/ u_Host u = "") then Some (ServerURLNotAbsolute id)
                      else validate_servers ({[id]} ∪ seen) order
           end
  end.

Definition catalog_ValidateConfig (config : Config) (order : list (string * Server)) :
    option catalog_error :=
  if decide (cfg_Servers config = ∅) then Some NoServers else validate_servers ∅ order.
End config.

(** [SortedServerIDs]: sorting makes the order of the range irrelevant. *)
Definition SortedServerIDs (servers : gmap string Server) : list string :=
  sort_Strings (map_to_list servers).*1.

(** ** HTTP *)

(** [http.Header], under canonical keys. *)
Abbreviation header := (gmap string (list string)).

Definition h_Get (h : header) (k : string) : string :=
  match h !! CanonicalMIMEHeaderKey k with Some (v :: _) => v | _ => "" end.
Definition h_Set (k v : string) (h : header) : header := <[CanonicalMIMEHeaderKey k := [v]]> h.
Definition h_Add (k v : string) (h : header) : header :=
  <[CanonicalMIMEHeaderKey k := default [] (h !! CanonicalMIMEHeaderKey k) ++ [v]]> h.

(** A request of a client; [inl] is the error of reading its body. *)
Record client_request := mkClientRequest { cq_header : header; cq_body : string + bytes }.

(** A request to a server, and its answer. *)
Record server_request := mkServerRequest { sq_url : string; sq_header : header; sq_body : bytes }.
Record server_response := mkServerResponse {
  sp_status : Z;
  sp_header : header;
  sp_body : string + bytes;
}.

(** What the handler writes. *)
Record reply := mkReply { rp_status : Z; rp_header : header; rp_body : bytes }.

(** [ServerDump] and the state of the router; [cr_sent] records the requests made. *)
Record CatalogServerDump := mkCatalogServerDump {
  csd_Target : string;
  csd_CredentialConfigured : bool;
  csd_LastRequest : string;
}.

Record CatalogRouter := mkRouter {
  cr_config : Config;
  cr_servers : gmap string CatalogServerDump;
  cr_sent : list server_request;
}.

Definition New (config : Config) : CatalogRouter := mkRouter config ∅ [].

Section handler.
(** [http.NewRequestWithContext]'s error for a URL, the client's [Do], the JSON encoder, the
    case folding of the non-ASCII range, and the order in which Go ranges over a header. *)
Context (url_error : string -> option string)
        (client_Do : server_request -> string + server_response)
        (encode : JSONRPCResponse -> bytes)
        (unicode : string -> string -> bool)
        (header_order : header -> list (string * list string)).

Definition record (id : string) (server : Server) (st : string) (c : CatalogRouter) : CatalogRouter :=
  mkRouter (cr_config c)
    (<[id := mkCatalogServerDump (sv_URL server) (bool_decide (sv_Credential server <> "")) st]>
       (cr_servers c)) (cr_sent c).

(** [Dump]: a copy. *)
Definition Dump (c : CatalogRouter) : gmap string CatalogServerDump := cr_servers c.

Definition routeHeader (c : Config) : string :=
  if decide (cfg_RouteHeader c <> "") then cfg_RouteHeader c else "x-mcp-server".

(** A header of the client, copied, with a default when it is empty. *)
Definition copy_or (k d : string) (from h : header) : header :=
  let h := h_Set k (h_Get from k) h in
  if decide (h_Get h k = "") then h_Set k d h else h.

(** A header of the client, copied when it is not empty. *)
Definition copy_nonempty (k : string) (from h : header) : header :=
  if decide (h_Get from k <> "") then h_Set k (h_Get from k) h else h.

Definition forward_headers (c : Config) (serverID : string) (server : Server) (from : header) : header :=
  let h := copy_or "content-type" "application/json" from ∅ in
  let h := copy_or "accept" "application/json" from h in
  let h := h_Set (routeHeader c) serverID h in
  let h := if decide (sv_Credential server <> "") then h_Set "authorization" (sv_Credential server) h else h in
  let h := copy_nonempty SessionIDHeader from h in
  copy_nonempty ProtocolVersionHeader from h.

Definition forward (r : client_request) (serverID : string) (server : Server) (c : CatalogRouter) :
    (string + server_response) * CatalogRouter :=
  match cq_body r with
  | inl e => (inl e, c)
  | inr body =>
      let url := TrimRight (sv_URL server) "/" +:+ "/mcp" in
      match url_error url with
      | Some e => (inl e, c)
      | None =>
          let req := mkServerRequest url (forward_headers (cr_config c) serverID server (cq_header r)) body in
          (client_Do req, mkRouter (cr_config c) (cr_servers c) (cr_sent c ++ [req]))
      end
  end.

Definition copyResponseHeaders (dst src : header) : header :=
  foldl (fun dst '(name, values) =>
           if EqualFold unicode name "content-length" then dst
           else foldl (fun dst v => h_Add name v dst) dst values) dst (header_order src).

Definition writeJSON (status : Z) (v : JSONRPCResponse) : reply :=
  mkReply status (h_Set "content-type" "application/json" ∅) (encode v).

Definition catalog_failed (serverID : string) : reply :=
  writeJSON 502 (errorResponse [] (-32003) ("catalog backend failed: " +:+ serverID)).

(** [handleServer] for the path value [serverID]. *)
Definition handleServer (serverID : string) (r : client_request) (c : CatalogRouter) :
    reply * CatalogRouter :=
  match cfg_Servers (cr_config c) !! serverID with
  | None => (writeJSON 404 (errorResponse [] (-32004) ("unknown catalog server: " +:+ serverID)), c)
  | Some server =>
      match forward r serverID server c with
      | (inl e, c) => (catalog_failed serverID, record serverID server ("error: " +:+ e) c)
      | (inr resp, c) =>
          match sp_body resp with
          | inl e => (catalog_failed serverID, record serverID server ("error: " +:+ e) c)
          | inr body =>
              (mkReply (sp_status resp) (copyResponseHeaders ∅ (sp_header resp)) body,
               record serverID server "ok" c)
          end
      end
  end.

(** ** The Envoy filter *)

(** What the request handler keeps: for a path of the router, the request. *)
Definition catalog_handler (method path : string) (headers : list (string * string)) :
    option transitRequest :=
  let p := stripQuery path in
  if decide (p = "/healthz" \/ p = "/dump") then Some (mkTransit method path headers)
  else if HasPrefix p "/mcp/s/" then Some (mkTransit method path headers)
  else None.

(** The headers of the request the body handler makes: pseudo headers are left out. *)
Definition request_header (headers : list (string * string)) : header :=
  foldl (fun h '(k, v) => if HasPrefix k ":" then h else h_Add k v h) ∅ headers.

(** The body handler: nothing before the end of the body, and then the answer of [Handler]
    ([serve]: the [ServeMux] with the three handlers) as a local response.
    [httptest.NewRequest] panics unless method and path form a request line ([line_ok]). *)
Definition catalog_body (line_ok : string -> string -> bool)
    (serve : string -> string -> client_request -> CatalogRouter -> reply * CatalogRouter)
    (ctx : option transitRequest) (data : bytes) (endStream : bool) (c : CatalogRouter) :
    res (option (Z * bytes * list (string * string)) * CatalogRouter) :=
  match ctx with
  | Some req =>
      if negb endStream || bool_decide (tr_path req = "") then Ok (None, c)
      else if negb (line_ok (tr_method req) (tr_path req))
      then Panic "invalid NewRequest arguments"
      else
        let '(rp, c) := serve (tr_method req) (tr_path req)
                          (mkClientRequest (request_header (tr_headers req)) (inr data)) c in
        Ok (Some (rp_status rp, rp_body rp,
                  header_order (rp_header rp) ≫= fun '(k, vs) => pair k <$> vs), c)
  | None => Ok (None, c)
  end.

(** ** Lemmas *)

(** Two clients that agree on the four headers the router copies. *)
Definition same_copied (a b : header) : Prop :=
  forall k, k ∈ ["content-type"; "accept"; SessionIDHeader; ProtocolVersionHeader] ->
    h_Get a k = h_Get b k.

Lemma forward_headers_same c id server a b : same_copied a b ->
  forward_headers c id server a = forward_headers c id server b.
Proof.
  intros Hs. unfold forward_headers, copy_or, copy_nonempty.
  by rewrite !(Hs "content-type"), !(Hs "accept"), !(Hs SessionIDHeader), !(Hs ProtocolVersionHeader)
    by set_solver.
Qed.

Lemma h_Set_other k v h k' : CanonicalMIMEHeaderKey k' <> CanonicalMIMEHeaderKey k ->
  h_Set k v h !! CanonicalMIMEHeaderKey k' = h !! CanonicalMIMEHeaderKey k'.
Proof. intros Hne. unfold h_Set. by rewrite lookup_insert_ne. Qed.

Lemma copy_nonempty_other k from h k' : CanonicalMIMEHeaderKey k' <> CanonicalMIMEHeaderKey k ->
  copy_nonempty k from h !! CanonicalMIMEHeaderKey k' = h !! CanonicalMIMEHeaderKey k'.
Proof. intros Hne. unfold copy_nonempty. case_decide; [by apply h_Set_other|done]. Qed.

Lemma copy_or_other k d from h k' : CanonicalMIMEHeaderKey k' <> CanonicalMIMEHeaderKey k ->
  copy_or k d from h !! CanonicalMIMEHeaderKey k' = h !! CanonicalMIMEHeaderKey k'.
Proof. intros Hne. unfold copy_or. case_decide; by rewrite ?h_Set_other. Qed.

(** The credential of the server is the only authorization sent. *)
Lemma forward_authorization c id server from :
  CanonicalMIMEHeaderKey (routeHeader c) <> "Authorization" ->
  forward_headers c id server from !! "Authorization" =
  if decide (sv_Credential server <> "") then Some [sv_Credential server] else None.
Proof.
  intros Hr. change "Authorization" with (CanonicalMIMEHeaderKey "authorization") in *.
  unfold forward_headers. rewrite !copy_nonempty_other by done.
  case_decide; [unfold h_Set at 1; by rewrite lookup_insert_eq|].
  rewrite h_Set_other by done. by rewrite !copy_or_other.
Qed.

End handler.

(** ** Properties *)

(** What a client can make the catalog router do.  A request for an unknown server is
    answered 404 with nothing sent and nothing recorded.  One for a known server sends at most
    one request, to that server, whose authorization is the credential configured for it and
    nothing else; two clients whose requests agree on the body and on the four headers that
    are copied cause the same request to be sent, so no other header of a client (its own
    authorization included) reaches a server.  The outcome is recorded under that server
    alone, and an answer is relayed with its status and its body. *)
Theorem catalog_forwards_only_its_own url_error client_Do encode unicode header_order serverID r c :
  let '(rp, c') := handleServer url_error client_Do encode unicode header_order serverID r c in
  cr_config c' = cr_config c /\
  (forall id, id <> serverID -> cr_servers c' !! id = cr_servers c !! id) /\
  match cfg_Servers (cr_config c) !! serverID with
  | None => rp_status rp = 404 /\ c' = c
  | Some server =>
      (cr_sent c' = cr_sent c /\ rp_status rp = 502 \/
       exists req, cr_sent c' = cr_sent c ++ [req] /\
         sq_url req = TrimRight (sv_URL server) "/" +:+ "/mcp" /\ cq_body r = inr (sq_body req) /\
         (CanonicalMIMEHeaderKey (routeHeader (cr_config c)) <> "Authorization" ->
            sq_header req !! "Authorization" =
            if decide (sv_Credential server <> "") then Some [sv_Credential server] else None) /\
         (forall resp body, client_Do req = inr resp -> sp_body resp = inr body ->
            rp_status rp = sp_status resp /\ rp_body rp = body)) /\
      (forall r', same_copied (cq_header r) (cq_header r') -> cq_body r = cq_body r' ->
         (handleServer url_error client_Do encode unicode header_order serverID r' c) = (rp, c'))
  end.
Proof.
  destruct (handleServer _ _ _ _ _ serverID r c) as [rp c'] eqn:E. revert E.
  unfold handleServer, forward.
  destruct (cfg_Servers (cr_config c) !! serverID) as [server|] eqn:Es; [|by intros [= <- <-]].
  destruct (cq_body r) as [e|body] eqn:Eb.
  { intros [= <- <-]. cbn. split_and!; [done| | |]; [intros; by rewrite lookup_insert_ne|by left|].
    intros r' _ Hb. by rewrite <- Hb. }
  destruct (url_error _) as [e|] eqn:Eu.
  { intros [= <- <-]. cbn. split_and!; [done| | |]; [intros; by rewrite lookup_insert_ne|by left|].
    intros r' _ Hb. by rewrite <- Hb. }
  set (req := mkServerRequest _ _ _). intros E.
  assert (forall r', same_copied (cq_header r) (cq_header r') ->
    forward_headers (cr_config c) serverID server (cq_header r') = sq_header req) as Hsame.
  { intros r' Hr. cbn. symmetry. by apply forward_headers_same. }
  assert (cr_config c' = cr_config c /\ cr_sent c' = cr_sent c ++ [req] /\
    (forall id, id <> serverID -> cr_servers c' !! id = cr_servers c !! id) /\
    (forall resp b, client_Do req = inr resp -> sp_body resp = inr b ->
       rp_status rp = sp_status resp /\ rp_body rp = b)) as (H1 & H2 & H3 & H4).
  { destruct (client_Do req) as [e|resp] eqn:Ed; [|destruct (sp_body resp) as [e|b] eqn:Ep];
      injection E as <- <-; cbn; split_and!; try done;
      try (intros id Hid; by rewrite lookup_insert_ne); intros; simplify_eq/=; split; congruence. }
  split_and!; [done|done| |].
  - right. exists req. split_and!; [done|done|done|apply forward_authorization|done].
  - intros r' Hr Hb. rewrite <- Hb. rewrite (Hsame r' Hr). exact E.
Qed.

(** A credential configured for the server wins over a route header of the same name. *)
Lemma credential_wins_over_route_header :
  forward_headers (mkConfig "authorization" 0 ∅) "s" (mkServer "http://s" "Bearer k") ∅
    !! "Authorization" = Some ["Bearer k"].
Proof. reflexivity. Qed.

(** A path with a malformed escape is kept by the request handler, and the body handler
    panics on it. *)
Lemma bad_path_panics serve c :
  let line_ok := fun _ path => negb (Contains path "%zz") in
  catalog_body map_to_list line_ok serve (catalog_handler "POST" "/mcp/s/%zz" []) [] true c =
  Panic "invalid NewRequest arguments".
Proof. reflexivity. Qed.
