(* ===== verification/RequestSink.v ===== *)
(** * examples/request-ui/sink: the record store behind the request inspector

    The filter hands records to a buffered channel; a writer goroutine collects them into
    batches, stores each batch and broadcasts it to the connected clients; an HTTP handler
    queries the store.  The store is one of two: the memory store is a ring of pointers,
    proved to be the list of the last records; Postgres is a parameter, the statements the
    code makes are modelled and what the database answers is an argument of each insert and
    query, errors included.  The writer is a step relation over the channel, the ticker, the
    clients and [Stop]. *)
From stdpp Require Import base list gmap strings sets relations.
From Stdlib Require Import ZArith Lia.
From S2P Require Import Prelude GoStrings HostRefresh.
#[local] Open Scope Z_scope.

(** ** Records *)

(** The fields of [Record], in the groups the source declares them in.  A [float64] field is
    kept as the integer it was converted from, a quotient by 1e6 as its dividend. *)
Record request_part := mkReqPart {
  RequestID : string; Method : string; Path : string; Host : string;
  TraceID : string; SpanID : string; RequestHeaders : string; RequestBody : string;
}.
Record upstream_part := mkUpPart {
  UpstreamStatus : string; UpstreamAddress : string;
  ResponseHeaders : string; ResponseBody : string;
}.
Record error_part := mkErrPart {
  ErrorDetails : string; ResponseFlags : string; ResponseCodeDetails : string;
  UpstreamFailure : string;
}.
Record number_part := mkNumPart {
  DurationMs : Z; RequestSizeBytes : Z; ResponseSizeBytes : Z; ResponseCode : Z;
}.
Record finalized_part := mkFinPart {
  FirstUpstreamTxByteSentNs : Z; LastUpstreamRxByteReceivedNs : Z; UpstreamCxPoolReadyMs : Z;
  UpstreamLocalAddress : string; UpstreamRequestAttempts : Z; RequestProtocol : string;
  WireBytesReceived : Z; WireBytesSent : Z;
  TraceIDFinal : string; SpanIDFinal : string; TraceSampled : bool; LocalReplyBody : string;
}.

Record Record_ := mkRecord {
  ID : Z;
  Timestamp : string;
  HasError : bool;
  r_req : request_part;
  r_up : upstream_part;
  r_err : error_part;
  r_num : number_part;
  r_fin : finalized_part;
}.

Record queryParams := mkParams {
  search : string;
  since : Z;
  errorsOnly : bool;
  limit : Z;
  ascending : bool;
}.

(** ** The memory store *)

Record memStore := mkMem {
  ring : list (option Record_);
  cap : nat;
  head : nat;
  size : nat;
  seq_ : Z;
}.

Definition newMemStore (capacity : Z) : memStore :=
  let c := if capacity <=? 0 then 2000%nat else Z.to_nat capacity in
  mkMem (replicate c None) c 0 0 0.

(** What [insert] writes into the record: its number and, when it has none, the time. *)
Definition stamp (now : string) (id : Z) (r : Record_) : Record_ :=
  mkRecord id (if decide (Timestamp r = "") then now else Timestamp r) (HasError r)
           (r_req r) (r_up r) (r_err r) (r_num r) (r_fin r).

(** One turn of the loop of [insert]. *)
Definition insert_one (now : string) (r : Record_) (m : memStore) : Record_ * memStore :=
  let seq' := int64_of (seq_ m + 1) in
  let r := stamp now seq' r in
  (r, mkMem (<[head m := Some r]> (ring m)) (cap m) ((head m + 1) mod cap m)
            (if decide (size m < cap m)%nat then size m + 1 else size m)%nat seq').

(** [insert(batch)]: the records as stored, in the order of the batch. *)
Fixpoint mem_insert (now : string) (batch : list Record_) (m : memStore) : list Record_ * memStore :=
  match batch with
  | [] => ([], m)
  | r :: batch =>
      let '(r, m) := insert_one now r m in
      let '(out, m) := mem_insert now batch m in
      (r :: out, m)
  end.

Section search.
Context `{GoUnicode}.

(** The seven fields a search looks at. *)
Definition searched (r : Record_) : list string :=
  [Method (r_req r); Path (r_req r); RequestID (r_req r); ResponseFlags (r_err r);
   ErrorDetails (r_err r); ResponseCodeDetails (r_err r); UpstreamFailure (r_err r)].

Definition recordMatchesSearch (r : Record_) (q : string) : bool :=
  let q := ToLower q in existsb (fun f => Contains (ToLower f) q) (searched r).

(** The snapshot of [query]: the ring from the newest record back. *)
Definition ring_index (m : memStore) (i : nat) : nat :=
  Z.to_nat (Z.rem ((Z.of_nat (head m) - 1 - Z.of_nat i) + Z.of_nat (cap m)) (Z.of_nat (cap m))).

Definition snapshot (m : memStore) : list Record_ :=
  omap (fun i => mjoin (ring m !! ring_index m i)) (seq 0 (size m)).

(** The conditions under which the second loop keeps a record. *)
Definition keeps (p : queryParams) (r : Record_) : bool :=
  negb ((0 <? since p) && (ID r <=? since p)) &&
  negb (errorsOnly p && negb (HasError r)) &&
  negb (bool_decide (search p <> "") && negb (recordMatchesSearch r (search p))).

(** [query(p)]; [filtered[:p.limit]] panics on a negative limit. *)
Definition mem_query (p : queryParams) (m : memStore) : res (list Record_) :=
  let filtered := filter (fun r => keeps p r = true) (snapshot m) in
  let filtered := if ascending p then reverse filtered else filtered in
  if limit p <? Z.of_nat (length filtered) then
    if limit p <? 0 then Panic "slice bounds out of range"
    else Ok (take (Z.to_nat (limit p)) filtered)
  else Ok filtered.

(** ** What the store stands for *)

(** The records as stored when [recs] were inserted into an empty store, one time each. *)
Fixpoint stamped (from : Z) (recs : list (string * Record_)) : list Record_ :=
  match recs with
  | [] => []
  | (now, r) :: recs => stamp now (from + 1) r :: stamped (from + 1) recs
  end.

(** [mem_ok m hist]: the store holds the last [cap] records of [hist]. *)
Record mem_ok (m : memStore) (hist : list Record_) : Prop := {
  mo_cap : (0 < cap m)%nat;
  mo_length : length (ring m) = cap m;
  mo_head : head m = (length hist mod cap m)%nat;
  mo_size : size m = (cap m `min` length hist)%nat;
  mo_seq : seq_ m = Z.of_nat (length hist);
  mo_ring : forall j, (length hist - cap m <= j < length hist)%nat ->
    ring m !! (j mod cap m)%nat = Some (hist !! j);
}.

(** The answer of a query over a history, by definition: the retained records from the newest
    (or from the oldest), those that match, at most [limit] of them. *)
Definition query_spec (p : queryParams) (retained : list Record_) : list Record_ :=
  take (Z.to_nat (limit p))
    (filter (fun r => keeps p r = true) (if ascending p then retained else reverse retained)).

Lemma newMemStore_ok c : mem_ok (newMemStore c) [] /\
  cap (newMemStore c) = if c <=? 0 then 2000%nat else Z.to_nat c.
Proof.
  split; [|done]. unfold newMemStore. set (n := if c <=? 0 then _ else _).
  assert (0 < n)%nat by (unfold n; destruct (Z.leb_spec c 0); lia).
  constructor; cbn; [done|apply length_replicate|by rewrite Nat.Div0.mod_0_l|lia|done|lia].
Qed.

Lemma insert_one_ok now r m hist : mem_ok m hist -> Z.of_nat (length hist) + 1 < 2 ^ 63 ->
  let '(r', m') := insert_one now r m in
  r' = stamp now (Z.of_nat (length hist) + 1) r /\ mem_ok m' (hist ++ [r']) /\ cap m' = cap m.
Proof.
  intros [Hc Hl Hh Hs Hq Hr] Hb. unfold insert_one.
  assert (int64_of (seq_ m + 1) = Z.of_nat (length hist) + 1) as ->.
  { rewrite Hq. unfold int64_of. rewrite Z.mod_small; lia. }
  split_and!; [done| |done]. set (r' := stamp _ _ r).
  constructor; cbn; [done|by rewrite length_insert| | | |].
  - rewrite length_app, Hh. cbn. by rewrite Nat.Div0.add_mod_idemp_l.
  - rewrite length_app. cbn. case_decide; lia.
  - rewrite length_app. cbn. lia.
  - rewrite length_app. cbn. intros j Hj. destruct (decide (j = length hist)) as [->|Hne].
    + rewrite Hh, list_lookup_insert_eq; [by rewrite lookup_app_r, Nat.sub_diag by lia|].
      rewrite Hl. apply Nat.mod_upper_bound. lia.
    + rewrite list_lookup_insert_ne; [rewrite Hr by lia; by rewrite lookup_app_l by lia|].
      rewrite Hh. intros E.
      assert ((length hist - j) mod cap m = 0)%nat as E0.
      { replace (length hist) with (j + (length hist - j))%nat in E by lia.
        rewrite <- (Nat.mod_small 0 (cap m)) by lia.
        pose proof (Nat.div_mod_eq j (cap m)). pose proof (Nat.div_mod_eq (length hist) (cap m)).
        rewrite (Nat.mod_small 0) by lia.
        apply Nat.Div0.mod_divides. exists (length hist / cap m - j / cap m)%nat.
        replace (j + (length hist - j))%nat with (length hist) in E by lia. nia. }
      rewrite Nat.mod_small in E0 by lia. lia.
Qed.

Lemma mem_insert_ok now batch : forall m hist, mem_ok m hist ->
  Z.of_nat (length hist + length batch) < 2 ^ 63 ->
  let '(out, m') := mem_insert now batch m in
  out = stamped (Z.of_nat (length hist)) (pair now <$> batch) /\ mem_ok m' (hist ++ out) /\ cap m' = cap m.
Proof.
  induction batch as [|r batch IH]; intros m hist Hok Hb; cbn [mem_insert].
  { by rewrite app_nil_r. }
  cbn in Hb. pose proof (insert_one_ok now r m hist Hok ltac:(lia)) as H1.
  destruct (insert_one now r m) as [r' m1]. destruct H1 as (-> & Hok1 & Hc1).
  pose proof (IH m1 _ Hok1) as H2. rewrite length_app in H2. cbn [length] in H2.
  specialize (H2 ltac:(lia)). destruct (mem_insert now batch m1) as [out m2].
  destruct H2 as (-> & Hok2 & Hc2). rewrite <- app_assoc in Hok2. split_and!; [|done|congruence].
  cbn. f_equal. f_equal. lia.
Qed.

(** The snapshot is the retained records, newest first. *)
Lemma snapshot_ok m hist : mem_ok m hist -> snapshot m = reverse (lastn (cap m) hist).
Proof.
  intros [Hc Hl Hh Hs Hq Hr]. unfold snapshot.
  assert (forall n, (n <= size m)%nat ->
    omap (fun i => mjoin (ring m !! ring_index m i)) (seq 0 n) = take n (reverse hist)) as Hgen.
  { induction n as [|n IH]; intros Hn; [by rewrite take_0|].
    rewrite seq_S, omap_app, IH by lia. cbn [omap list_omap Nat.add].
    assert (n < length hist)%nat as Hn' by lia.
    assert (ring_index m n = (length hist - 1 - n) mod cap m)%nat as ->.
    { unfold ring_index. rewrite Hh, Z.rem_mod_nonneg by lia.
      rewrite Nat2Z.inj_mod.
      replace (Z.of_nat (length hist) mod Z.of_nat (cap m) - 1 - Z.of_nat n + Z.of_nat (cap m))
        with (Z.of_nat (length hist) mod Z.of_nat (cap m) + (Z.of_nat (cap m) - 1 - Z.of_nat n)) by lia.
      rewrite Zplus_mod_idemp_l.
      replace (Z.of_nat (length hist) + (Z.of_nat (cap m) - 1 - Z.of_nat n))
        with (Z.of_nat (length hist - 1 - n) + 1 * Z.of_nat (cap m)) by lia.
      rewrite Z_mod_plus_full, <- Nat2Z.inj_mod. lia. }
    rewrite Hr by lia.
    destruct (lookup_lt_is_Some_2 hist (length hist - 1 - n)) as [r Hrec]; [lia|].
    rewrite Hrec. cbn. rewrite (take_S_r _ _ r); [done|].
    rewrite reverse_lookup by lia. rewrite <- Hrec. f_equal. lia. }
  rewrite Hgen by lia. unfold lastn. rewrite Hs.
  apply list_eq. intros i. destruct (decide (i < cap m `min` length hist)%nat).
  - rewrite lookup_take_lt by lia. rewrite !reverse_lookup by (rewrite ?length_drop; lia).
    rewrite lookup_drop, length_drop. f_equal. lia.
  - rewrite !lookup_ge_None_2; [done| |]; rewrite ?length_take, !length_reverse, ?length_drop; lia.
Qed.

Lemma mem_query_ok p m hist : mem_ok m hist -> 0 <= limit p ->
  mem_query p m = Ok (query_spec p (lastn (cap m) hist)).
Proof.
  intros Hok Hlim. unfold mem_query, query_spec. rewrite (snapshot_ok m hist Hok).
  set (f := filter _ (reverse (lastn (cap m) hist))).
  assert ((if ascending p then reverse f else f) =
          filter (fun r => keeps p r = true)
            (if ascending p then lastn (cap m) hist else reverse (lastn (cap m) hist))) as ->.
  { destruct (ascending p); [|done]. unfold f. by rewrite filter_reverse, reverse_involutive. }
  set (g := filter _ (if ascending p then _ else _)).
  destruct (Z.ltb_spec (limit p) (Z.of_nat (length g))).
  - destruct (Z.ltb_spec (limit p) 0); [lia|done].
  - rewrite take_ge by lia. done.
Qed.
End search.

(** ** The Postgres store *)

(** The clause [pgStore.query] puts after WHERE, with its arguments. *)
Inductive pg_where :=
  | WSearch (pattern : string)
  | WSince (id : Z)
  | WErrors
  | WAll.

(** The SELECT over the table of requests. *)
Record pg_select := mkSelect { pw : pg_where; pg_ascending : bool; pg_limit : Z }.

Definition pg_query (p : queryParams) : pg_select :=
  mkSelect (if decide (search p <> "") then WSearch ("%" +:+ search p +:+ "%")
            else if 0 <? since p then WSince (since p)
            else if errorsOnly p then WErrors else WAll)
           (ascending p) (limit p).

(** [pgStore.insert], given the rows copied (or the error) and the answer of the SELECT that
    follows; the rows are asked for from the newest. *)
Definition pg_insert (copied : string + Z) (answer : pg_select -> option (list Record_)) :
    option (list Record_) * option string :=
  match copied with
  | inl e => (None, Some e)
  | inr n => if n =? 0 then (None, None)
             else (answer (mkSelect WAll false n), None)
  end.

(** ** The broadcaster *)

(** The subscribers' channels, with what each has buffered. *)
Record broadcaster := mkBroadcaster { subs : gmap nat (list Record_) }.

Definition newBroadcaster : broadcaster := mkBroadcaster ∅.

(** [subscribe] makes the channel [ch]; [unsubscribe] forgets it. *)
Definition subscribe (ch : nat) (b : broadcaster) : broadcaster := mkBroadcaster (<[ch := []]> (subs b)).
Definition unsubscribe (ch : nat) (b : broadcaster) : broadcaster := mkBroadcaster (delete ch (subs b)).

(** A non-blocking send on a channel of capacity [n]. *)
Definition try_send {A} (n : nat) (r : A) (buf : list A) : list A :=
  if decide (length buf < n)%nat then buf ++ [r] else buf.

Definition send (r : Record_) (b : broadcaster) : broadcaster :=
  mkBroadcaster (try_send 64 r <$> subs b).

(** What a client does with its channel, and what the sink does meanwhile. *)
Inductive sub_op := SubSend (r : Record_) | SubRecv.

Fixpoint sub_run (ops : list sub_op) (buf got : list Record_) : list Record_ * list Record_ :=
  match ops with
  | [] => (buf, got)
  | SubSend r :: ops => sub_run ops (try_send 64 r buf) got
  | SubRecv :: ops => match buf with
                      | [] => sub_run ops [] got
                      | r :: buf => sub_run ops buf (got ++ [r])
                      end
  end.

Definition sent_ops (ops : list sub_op) : list Record_ :=
  omap (fun o => match o with SubSend r => Some r | SubRecv => None end) ops.

(** A client gets what was broadcast after it subscribed, in order, possibly with gaps. *)
Lemma sub_run_sublist ops : forall buf got,
  let '(buf', got') := sub_run ops buf got in
  (got' ++ buf') `sublist_of` (got ++ buf ++ sent_ops ops).
Proof.
  induction ops as [|[r|] ops IH]; intros buf got; cbn [sub_run sent_ops omap list_omap].
  - by rewrite app_nil_r.
  - specialize (IH (try_send 64 r buf) got). destruct (sub_run ops _ got) as [b g].
    etrans; [exact IH|]. apply sublist_app; [done|]. unfold try_send. case_decide.
    + by rewrite <- app_assoc.
    + apply sublist_app; [done|]. by apply sublist_cons.
  - destruct buf as [|r buf].
    + specialize (IH [] got). by destruct (sub_run ops [] got).
    + specialize (IH buf (got ++ [r])). destruct (sub_run ops buf _) as [b g].
      etrans; [exact IH|]. by rewrite <- !app_assoc.
Qed.

(** ** The writer *)

Inductive wpc := WRun | WDrain | WDone.

(** The interface [store] and its two implementations. *)
Inductive backend := Memory (m : memStore) | Postgres.

(** What the outside decides of one [insert]: the clock, and for Postgres the rows copied (or
    the error) and the answer of the SELECT. *)
Record insert_env := mkEnv {
  e_now : string;
  e_copied : string + Z;
  e_answer : pg_select -> option (list Record_);
}.

(** [st.insert(batch)]: the records to broadcast, the error and the store afterwards. *)
Definition store_insert (e : insert_env) (batch : list Record_) (b : backend) :
    list Record_ * option string * backend :=
  match b with
  | Memory m => let '(out, m) := mem_insert (e_now e) batch m in (out, None, Memory m)
  | Postgres => let '(out, err) := pg_insert (e_copied e) (e_answer e) in (default [] out, err, Postgres)
  end.

(** One insert of the writer: what it ran under, the batch, the error. *)
Record insertion := mkInsertion { i_env : insert_env; i_batch : list Record_; i_err : option string }.

(** [accepted] remembers the records [Send] enqueued, [handed] the inserts the writer made,
    [at_stop] what had been accepted when [Stop] closed the channel. *)
Record Sink := mkSink {
  ch : list Record_;
  batch : list Record_;
  st : backend;
  bcast : broadcaster;
  stderr : list string;
  stopped : bool;
  pc : wpc;
  accepted : list Record_;
  handed : list insertion;
  at_stop : list Record_;
}.

(** A sink whose writer was started: [Start] sets the store before. *)
Definition New (b : backend) : Sink := mkSink [] [] b newBroadcaster [] false WRun [] [] [].

(** [Send(r)]: dropped when the channel is full. *)
Definition Send (r : Record_) (s : Sink) : Sink :=
  if decide (length (ch s) < 4096)%nat
  then mkSink (ch s ++ [r]) (batch s) (st s) (bcast s) (stderr s) (stopped s) (pc s) (accepted s ++ [r])
         (handed s) (at_stop s)
  else s.

Definition insert_line (err : string) : string := "[request-ui] insert: " +:+ err.

(** The closure [flush] of the writer: the batch is inserted, an error is printed, what the
    store returned is broadcast, and the batch is reset after an error too. *)
Definition flush (e : insert_env) (s : Sink) : Sink :=
  match batch s with
  | [] => s
  | b =>
      let '(inserted, err, st') := store_insert e b (st s) in
      mkSink (ch s) [] st' (foldl (fun c r => send r c) (bcast s) inserted)
        (stderr s ++ match err with Some m => [insert_line m] | None => [] end)
        (stopped s) (pc s) (accepted s) (handed s ++ [mkInsertion e b err]) (at_stop s)
  end.

(** [r := <-s.ch; batch = append(batch, r)]. *)
Definition take_one (s : Sink) : option Sink :=
  match ch s with
  | [] => None
  | r :: rest => Some (mkSink rest (batch s ++ [r]) (st s) (bcast s) (stderr s) (stopped s) (pc s) (accepted s)
                              (handed s) (at_stop s))
  end.

Definition set_pc (p : wpc) (s : Sink) : Sink :=
  mkSink (ch s) (batch s) (st s) (bcast s) (stderr s) (stopped s) p (accepted s) (handed s) (at_stop s).

(** A client of the event stream comes, goes or reads its channel. *)
Definition set_bcast (b : broadcaster) (s : Sink) : Sink :=
  mkSink (ch s) (batch s) (st s) b (stderr s) (stopped s) (pc s) (accepted s) (handed s) (at_stop s).

(** [Stop], up to the close of [stopCh]; it then waits for the writer to be done. *)
Definition Stop (s : Sink) : Sink :=
  if stopped s then s
  else mkSink (ch s) (batch s) (st s) (bcast s) (stderr s) true (pc s) (accepted s) (handed s) (accepted s).

(** The writer's own steps: the cases of its two [select]s. *)
Inductive writer_step : Sink -> Sink -> Prop :=
  | w_recv e s s1 : pc s = WRun -> take_one s = Some s1 ->
      writer_step s (if decide (100 <= length (batch s1))%nat then flush e s1 else s1)
  | w_tick e s : pc s = WRun -> writer_step s (flush e s)
  | w_stop s : pc s = WRun -> stopped s = true -> writer_step s (set_pc WDrain s)
  | w_drain s s1 : pc s = WDrain -> take_one s = Some s1 -> writer_step s s1
  | w_exit e s : pc s = WDrain -> ch s = [] -> writer_step s (set_pc WDone (flush e s)).

Inductive sink_step : Sink -> Sink -> Prop :=
  | ss_send r s : sink_step s (Send r s)
  | ss_stop s : sink_step s (Stop s)
  | ss_subscribe c s : sink_step s (set_bcast (subscribe c (bcast s)) s)
  | ss_unsubscribe c s : sink_step s (set_bcast (unsubscribe c (bcast s)) s)
  | ss_read c s : sink_step s (set_bcast (mkBroadcaster (alter tail c (subs (bcast s)))) s)
  | ss_writer s s' : writer_step s s' -> sink_step s s'.

(** ** The HTTP handler *)

(** The parameters [handleRequests] reads from the query string ([get] is [q.Get]). *)
Definition request_params (get : string -> string) : queryParams :=
  let n := Atoi_value (get "limit") in
  let lim := if decide (get "limit" <> "") then
               if (0 <? n) && (n <=? 5000) then n else 500
             else 500 in
  let since := Atoi_value (get "since") in
  mkParams (get "q") since (bool_decide (get "errors" = "1")) lim (0 <? since).

(** [handleRequests]: the records answered, or the error of a 500; [pg] is what Postgres
    answers to a SELECT. *)
Definition handleRequests `{GoUnicode} (get : string -> string) (pg : pg_select -> string + list Record_)
    (b : backend) : res (string + list Record_) :=
  match b with
  | Memory m => records ← mem_query (request_params get) m; Ok (inr records)
  | Postgres => Ok (pg (pg_query (request_params get)))
  end.

Lemma request_params_limit get : 1 <= limit (request_params get) <= 5000.
Proof.
  unfold request_params. cbn. case_decide; [|lia].
  destruct ((0 <? _) && _) eqn:E; [apply andb_true_iff in E|]; lia.
Qed.

(** ** The invariant of the sink *)

(** The records handed to the store, in order, and the same with the time of their insert. *)
Definition handed_records (s : Sink) : list Record_ := concat (i_batch <$> handed s).
Definition stored (s : Sink) : list (string * Record_) :=
  concat ((fun i => pair (e_now (i_env i)) <$> i_batch i) <$> handed s).

Lemma stored_records s : (stored s).*2 = handed_records s.
Proof.
  unfold stored, handed_records. induction (handed s) as [|i l IH]; [done|]. cbn.
  rewrite fmap_app, IH, <- list_fmap_compose. f_equal. apply list_fmap_id.
Qed.

(** The store after the inserts: the memory store never refuses one and holds the last
    records; Postgres refuses those it could not copy. *)
Definition store_ok (b0 : backend) (s : Sink) : Prop :=
  match b0 with
  | Memory m0 => Forall (fun i => i_err i = None) (handed s) /\
      exists m, st s = Memory m /\ cap m = cap m0 /\ mem_ok m (stamped 0 (stored s))
  | Postgres => st s = Postgres /\
      Forall (fun i => i_err i = match e_copied (i_env i) with inl e => Some e | inr _ => None end) (handed s)
  end.

Record sink_ok (b0 : backend) (s : Sink) : Prop := {
  sk_store : store_ok b0 s;
  sk_flow : handed_records s ++ batch s ++ ch s = accepted s;
  sk_stderr : stderr s = insert_line <$> omap i_err (handed s);
  sk_done : pc s = WDone -> batch s = [];
  sk_drain : pc s <> WRun -> stopped s = true;
  sk_stop : stopped s = true -> at_stop s `prefix_of` accepted s;
  sk_exit : pc s = WDone -> at_stop s `prefix_of` handed_records s;
}.

Lemma stamped_app l k : forall n, stamped n (l ++ k) = stamped n l ++ stamped (n + Z.of_nat (length l)) k.
Proof.
  induction l as [|[now r] l IH]; intros n; cbn; [by rewrite Z.add_0_r|].
  rewrite IH. do 3 f_equal. lia.
Qed.

Lemma length_stamped l : forall n, length (stamped n l) = length l.
Proof. induction l as [|[now r] l IH]; intros n; cbn; [done|]. by rewrite IH. Qed.

(** Fewer records than the numbers of an [int64]. *)
Definition sink_bounded (s : Sink) : Prop := Z.of_nat (length (accepted s)) < 2 ^ 63.

Lemma handed_snoc l e b err :
  concat (i_batch <$> (l ++ [mkInsertion e b err])) = concat (i_batch <$> l) ++ b.
Proof. rewrite fmap_app, concat_app. cbn. by rewrite app_nil_r. Qed.

(** One insert keeps what the store stands for. *)
Lemma store_insert_ok b0 e b s inserted err st' (x : Sink) :
  store_ok b0 s -> Z.of_nat (length (handed_records s) + length b) < 2 ^ 63 ->
  store_insert e b (st s) = (inserted, err, st') -> st x = st' -> handed x = handed s ++ [mkInsertion e b err] ->
  store_ok b0 x.
Proof.
  intros Hok Hb Hi Hst Hh. destruct b0 as [m0|]; cbn in *.
  - destruct Hok as (Hf & m & Hm & Hc & Hmem). rewrite Hm in Hi. cbn in Hi.
    pose proof (mem_insert_ok (e_now e) b m _ Hmem) as Hins. rewrite length_stamped in Hins.
    rewrite <- stored_records, length_fmap in Hb. specialize (Hins Hb).
    destruct (mem_insert (e_now e) b m) as [out m']. injection Hi as <- <- <-.
    destruct Hins as (-> & Hok' & Hc'). rewrite Hh. split; [apply Forall_app; by repeat constructor|].
    exists m'. split_and!; [done|congruence|]. unfold stored at 1. rewrite Hh, fmap_app, concat_app. cbn.
    rewrite app_nil_r, stamped_app, Z.add_0_l. done.
  - destruct Hok as [Hs Hf]. rewrite Hs in Hi. cbn in Hi. unfold pg_insert in Hi. rewrite Hst, Hh, Forall_app.
    destruct (e_copied e) as [m|n] eqn:Ec; [|destruct (n =? 0)]; injection Hi as <- <- <-;
      (split; [done|]; split; [done|]); repeat constructor; cbn; by rewrite Ec.
Qed.

Lemma flush_ok e b0 s p : sink_ok b0 s -> sink_bounded s -> pc s <> WDone ->
  p = pc s \/ (p = WDone /\ pc s = WDrain /\ ch s = []) -> sink_ok b0 (set_pc p (flush e s)).
Proof.
  intros [Hm Hf Hl Hd Hr Hs He] Hb Hpc Hp. unfold flush. destruct (batch s) as [|r b] eqn:E.
  - constructor; cbn; rewrite ?E; try done.
    + intros Hne. apply Hr. destruct Hp as [->|(-> & Ep & _)]; [done|by rewrite Ep].
    + intros ->. destruct Hp as [Ep|(_ & Ep & Ec)]; [congruence|]. unfold handed_records in *. cbn.
      rewrite Ec, !app_nil_r in Hf. rewrite Hf. apply Hs, Hr. by rewrite Ep.
  - destruct (store_insert e (r :: b) (st s)) as [[inserted err] st'] eqn:Hi.
    assert (length (handed_records s) + length (r :: b) + length (ch s) = length (accepted s))%nat as Hlen.
    { rewrite <- Hf, !length_app. lia. }
    constructor; cbn; [|unfold handed_records; cbn; by rewrite handed_snoc, <- app_assoc| |done| |done|].
    + eapply (store_insert_ok b0 e (r :: b) s); [done| |exact Hi|done|done]. unfold sink_bounded in Hb. lia.
    + rewrite omap_app, fmap_app, <- Hl. cbn. by destruct err.
    + intros Hne. apply Hr. destruct Hp as [->|(-> & Ep & _)]; [done|by rewrite Ep].
    + intros ->. destruct Hp as [Ep|(_ & Ep & Ec)]; [congruence|]. unfold handed_records. cbn.
      rewrite handed_snoc. rewrite Ec, app_nil_r in Hf. unfold handed_records in Hf. rewrite Hf.
      apply Hs, Hr. by rewrite Ep.
Qed.

(** The flush of a running writer leaves the writer where it is. *)
Lemma flush_running_ok e b0 s : sink_ok b0 s -> sink_bounded s -> pc s <> WDone -> sink_ok b0 (flush e s).
Proof.
  intros Hok Hb Hpc. pose proof (flush_ok e b0 s (pc s) Hok Hb Hpc ltac:(by left)) as Hfl.
  replace (set_pc (pc s) (flush e s)) with (flush e s) in Hfl; [done|].
  unfold flush, set_pc. destruct s; cbn. by repeat case_match.
Qed.

Lemma take_one_ok b0 s s1 : sink_ok b0 s -> pc s <> WDone -> take_one s = Some s1 ->
  sink_ok b0 s1 /\ accepted s1 = accepted s /\ pc s1 = pc s.
Proof.
  intros [Hm Hf Hl Hd Hr Hs He] Hpc. unfold take_one. destruct (ch s) as [|r rest] eqn:E; [done|].
  intros [= <-]. split_and!; [|done..]. constructor; cbn; try done. by rewrite <- app_assoc.
Qed.

Lemma flush_accepted e s : accepted (flush e s) = accepted s.
Proof. unfold flush. by repeat case_match. Qed.

Lemma writer_accepted x y : writer_step x y -> accepted y = accepted x.
Proof.
  intros [e s s1 _ Ht|e s _|s _ _|s s1 _ Ht|e s _ _]; cbn; rewrite ?flush_accepted; try done;
    unfold take_one in Ht; destruct (ch s); try done; injection Ht as <-; [|done].
  case_decide; by rewrite ?flush_accepted.
Qed.

Lemma writer_step_ok b0 x y : writer_step x y -> sink_bounded x -> sink_ok b0 x -> sink_ok b0 y.
Proof.
  intros Hw Hb Hok. destruct Hw as [e s s1 Hpc Ht|e s Hpc|s Hpc Hst|s s1 Hpc Ht|e s Hpc Hch].
  - destruct (take_one_ok b0 s s1 Hok ltac:(by rewrite Hpc) Ht) as (Hok1 & Ha1 & Hpc1).
    case_decide; [|done]. apply flush_running_ok; [done|by unfold sink_bounded; rewrite Ha1|by rewrite Hpc1, Hpc].
  - apply flush_running_ok; [done|done|by rewrite Hpc].
  - destruct Hok as [Hm Hf Hl Hd Hr Hs He]. by constructor.
  - by eapply take_one_ok; [|rewrite Hpc|].
  - apply flush_ok; [done|done|by rewrite Hpc|by right].
Qed.

Lemma sink_step_ok b0 x y : sink_step x y -> sink_bounded x -> sink_ok b0 x -> sink_ok b0 y.
Proof.
  intros Hstep Hb Hok. destruct Hstep as [r s|s|c s|c s|c s|s s' Hw];
    [| |by destruct Hok; constructor..|by eapply writer_step_ok].
  - unfold Send. case_decide; [|done]. destruct Hok as [Hm Hf Hl Hd Hr Hs He].
    constructor; cbn in *; try done.
    + unfold handed_records in *. cbn. by rewrite !(assoc_L (++)), <- (assoc_L (++) _ (batch s)), Hf.
    + intros Hst. etrans; [by apply Hs|by exists [r]].
  - unfold Stop. destruct (stopped s) eqn:E; [done|]. destruct Hok as [Hm Hf Hl Hd Hr Hs He].
    constructor; cbn in *; try done.
    intros Hpc. rewrite Hr in E by (by rewrite Hpc). done.
Qed.

Lemma New_ok b0 : (forall m, b0 = Memory m -> mem_ok m []) -> sink_ok b0 (New b0).
Proof. intros Hm. constructor; cbn; try done. destruct b0 as [m|]; cbn; [|done]. split; [done|]. eauto. Qed.

Lemma sink_step_accepted x y : sink_step x y -> (length (accepted x) <= length (accepted y))%nat.
Proof.
  intros [r s|s|c s|c s|c s|s s' Hw]; [| |done..|by rewrite (writer_accepted _ _ Hw)].
  - unfold Send. case_decide; [|done]. cbn. rewrite length_app. lia.
  - unfold Stop. by case_match.
Qed.

(** A store as [Start] makes it. *)
Definition fresh_store (b0 : backend) : Prop :=
  match b0 with Memory m => exists capacity, m = newMemStore capacity | Postgres => True end.

Lemma sink_reachable_ok b0 s : fresh_store b0 -> rtc sink_step (New b0) s -> sink_bounded s -> sink_ok b0 s.
Proof.
  intros Hfr. revert s. apply (rtc_ind_r (fun s => sink_bounded s -> sink_ok _ s)).
  - intros _. apply New_ok. intros m ->. destruct Hfr as [c ->]. apply newMemStore_ok.
  - intros x y _ Hs IH Hb. pose proof (sink_step_accepted x y Hs) as Hle.
    assert (sink_bounded x) by (unfold sink_bounded in *; lia). eapply sink_step_ok; eauto.
Qed.

(** ** Properties *)

(** C34: every record [Send] accepts is handed to the store exactly once, in order.  In every
    state the filter, the writer, the clients and [Stop] can reach (with fewer than 2^63
    records), with either store: the batches of the inserts made so far, the writer's batch
    and the channel are, in this order, the records [Send] accepted; one line is printed per
    insert that failed; and when the writer has exited, so that [Stop] returns, everything
    accepted before [Stop] was called has been handed over.  With the memory store no insert
    fails, and the HTTP handler answers every query with the definition of the answer over
    the last [cap] of the records handed over, numbered from 1.  With Postgres an insert
    fails exactly when the rows could not be copied; such a batch is not tried again
    ([failed_insert_drops_batch]). *)
Theorem sink_keeps_every_accepted_record `{GoUnicode} b0 s get pg :
  fresh_store b0 -> rtc sink_step (New b0) s -> sink_bounded s ->
  concat (i_batch <$> handed s) ++ batch s ++ ch s = accepted s /\
  stderr s = insert_line <$> omap i_err (handed s) /\
  (pc s = WDone -> batch s = [] /\ at_stop s `prefix_of` concat (i_batch <$> handed s)) /\
  match b0 with
  | Memory m0 =>
      Forall (fun i => i_err i = None) (handed s) /\
      handleRequests get pg (st s) =
        Ok (inr (query_spec (request_params get) (lastn (cap m0) (stamped 0 (stored s)))))
  | Postgres =>
      Forall (fun i => i_err i = None <-> exists n, e_copied (i_env i) = inr n) (handed s) /\
      handleRequests get pg (st s) = Ok (pg (pg_query (request_params get)))
  end.
Proof.
  intros Hfr Hr Hb. destruct (sink_reachable_ok b0 s Hfr Hr Hb) as [Hm Hf Hl Hd _ _ He].
  split_and!; [done|done|auto|]. destruct b0 as [m0|].
  - destruct Hm as (Hn & m & Hst & Hc & Hmem). split; [done|]. rewrite Hst. cbn.
    rewrite (mem_query_ok _ _ _ Hmem); [by rewrite Hc|]. pose proof (request_params_limit get). lia.
  - destruct Hm as [Hst Hn]. split; [|by rewrite Hst]. eapply Forall_impl; [exact Hn|]. intros i Hi. rewrite Hi.
    destruct (e_copied (i_env i)); naive_solver.
Qed.

(** A batch that Postgres refuses is gone: it is reset after an error too, and nothing of it
    is broadcast. *)
Lemma failed_insert_drops_batch e s err :
  st s = Postgres -> batch s <> [] -> e_copied e = inl err ->
  batch (flush e s) = [] /\ ch (flush e s) = ch s /\ bcast (flush e s) = bcast s /\
  stderr (flush e s) = stderr s ++ [insert_line err].
Proof. intros Hst Hb He. unfold flush. rewrite Hst. cbn. rewrite He. by destruct (batch s). Qed.

(** A draining writer exits after one step per record left in the channel and one more. *)
Lemma drain_exits n : forall s, length (ch s) = n -> pc s = WDrain ->
  exists s', nsteps writer_step (S n) s s' /\ pc s' = WDone.
Proof.
  induction n as [|n IH]; intros s Hl Hpc.
  - apply nil_length_inv in Hl. exists (set_pc WDone (flush (mkEnv "" (inr 0) (fun _ => None)) s)). split; [|done].
    apply nsteps_once. by constructor.
  - destruct (ch s) as [|r rest] eqn:E; [done|]. cbn in Hl.
    edestruct (IH (mkSink rest (batch s ++ [r]) (st s) (bcast s) (stderr s) (stopped s) (pc s) (accepted s)
                    (handed s) (at_stop s))) as (s' & Hs & Hd); [cbn; lia|done|].
    exists s'. split; [|done]. eapply nsteps_l; [|exact Hs]. apply w_drain; [done|].
    unfold take_one. by rewrite E.
Qed.

(** The channel does not keep [Stop] waiting: from any reachable state in which [Stop] was
    called the writer alone reaches its exit, in at most two steps more than the channel has
    records. *)
Theorem sink_stop_returns b0 s :
  rtc sink_step (New b0) s -> sink_bounded s -> stopped s = true ->
  exists n s', (n <= length (ch s) + 2)%nat /\ nsteps writer_step n s s' /\ pc s' = WDone.
Proof.
  intros Hr Hb Hs. destruct (pc s) eqn:Hpc.
  - destruct (drain_exits (length (ch s)) (set_pc WDrain s)) as (s' & Hn & Hd); [done..|].
    exists (S (S (length (ch s)))), s'. split_and!; [lia| |done].
    eapply nsteps_l; [by apply w_stop|done].
  - destruct (drain_exits (length (ch s)) s) as (s' & Hn & Hd); [done..|].
    exists (S (length (ch s))), s'. split_and!; [lia|done..].
  - exists 0%nat, s. split_and!; [lia|constructor|done].
Qed.

Lemma stamped_lookup l : forall n i r, stamped n l !! i = Some r -> ID r = n + Z.of_nat i + 1.
Proof.
  induction l as [|[now x] l IH]; intros n i r Hi; cbn in Hi; [done|].
  destruct i as [|i]; cbn in Hi; [injection Hi as <-; cbn; lia|]. apply IH in Hi. lia.
Qed.

(** In a list numbered consecutively, the records above a number are those behind it. *)
Lemma filter_above (l : list Record_) : forall n k,
  (forall i r, l !! i = Some r -> ID r = n + Z.of_nat i + 1) ->
  filter (fun r => (k <? ID r) = true) l = drop (Z.to_nat (k - n)) l.
Proof.
  induction l as [|r l IH]; intros n k Hid; [by rewrite drop_nil|].
  pose proof (Hid 0%nat r eq_refl) as H0. rewrite filter_cons.
  assert (forall i x, l !! i = Some x -> ID x = n + 1 + Z.of_nat i + 1) as Hl.
  { intros i x Hx. rewrite (Hid (S i) x Hx). lia. }
  case_decide as Hd.
  - replace (Z.to_nat (k - n)) with 0%nat by lia. rewrite drop_0. f_equal.
    rewrite (IH (n + 1) k Hl). replace (Z.to_nat (k - (n + 1))) with 0%nat by lia. apply drop_0.
  - apply not_true_is_false in Hd. rewrite (IH (n + 1) k Hl).
    replace (Z.to_nat (k - n)) with (S (Z.to_nat (k - (n + 1)))) by lia. done.
Qed.

(** A client that polls with the number of the last record it has, and no other condition,
    misses nothing the store still holds: the answer is the next records in order, from the
    first one it does not have or the oldest one retained, as many as asked for. *)
Theorem polling_misses_nothing `{GoUnicode} m recs p :
  mem_ok m (stamped 0 recs) -> 0 < since p -> search p = "" -> errorsOnly p = false ->
  ascending p = true -> 0 <= limit p ->
  mem_query p m = Ok (take (Z.to_nat (limit p))
    (drop (Z.to_nat (since p) `max` (length recs - cap m))%nat (stamped 0 recs))).
Proof.
  intros Hm Hs Hq He Ha Hl. rewrite (mem_query_ok p m _ Hm Hl). unfold query_spec. rewrite Ha.
  do 2 f_equal. unfold lastn. rewrite length_stamped.
  rewrite (list_filter_iff _ (fun r => (since p <? ID r) = true)).
  - rewrite (filter_above _ (Z.of_nat (length recs - cap m)) (since p)).
    + rewrite drop_drop. f_equal. lia.
    + intros i r. rewrite lookup_drop. intros Hi%stamped_lookup. lia.
  - intros r. unfold keeps. rewrite He, Hq. cbn. rewrite andb_true_r.
    destruct (Z.ltb_spec 0 (since p)); [|lia]. cbn.
    destruct (Z.leb_spec (ID r) (since p)), (Z.ltb_spec (since p) (ID r)); cbn; split; lia || done.
Qed.

(** ** Concrete runs *)

#[local] Instance ascii_unicode : GoUnicode := fun s => s.

Definition sample (path : string) (err : bool) : Record_ :=
  mkRecord 0 "" err (mkReqPart "" "GET" path "" "" "" "" "") (mkUpPart "200" "" "" "")
           (mkErrPart "" "" "" "") (mkNumPart 0 0 0 200) (mkFinPart 0 0 0 "" 0 "" 0 0 "" "" false "").

Definition at_time (now : string) : insert_env := mkEnv now (inl "down") (fun _ => None).

Definition sample_store : memStore := newMemStore 2.

Definition sample_sink : Sink :=
  set_pc WDone (flush (at_time "t1") (set_pc WDrain
    (mkSink [] [sample "/b" true; sample "/c" false] (Memory (mem_insert "t0" [sample "/a" false] sample_store).2)
       newBroadcaster [] true WRun [sample "/a" false; sample "/b" true; sample "/c" false]
       [mkInsertion (at_time "t0") [sample "/a" false] None]
       [sample "/a" false; sample "/b" true; sample "/c" false]))).

Lemma sample_reachable : rtc sink_step (New (Memory sample_store)) sample_sink.
Proof.
  eapply rtc_l; [apply (ss_send (sample "/a" false))|].
  eapply rtc_l; [apply ss_writer; by eapply (w_recv (at_time "t0"))|].
  eapply rtc_l; [apply ss_writer; by apply (w_tick (at_time "t0"))|].
  eapply rtc_l; [apply (ss_send (sample "/b" true))|].
  eapply rtc_l; [apply (ss_send (sample "/c" false))|].
  eapply rtc_l; [apply ss_stop|].
  eapply rtc_l; [apply ss_writer; by apply w_stop|].
  eapply rtc_l; [apply ss_writer; by eapply w_drain|].
  eapply rtc_l; [apply ss_writer; by eapply w_drain|].
  eapply rtc_l; [apply ss_writer; by apply (w_exit (at_time "t1"))|]. apply rtc_refl.
Qed.

(** The memory store, and Postgres while it is down. *)
Lemma sink_keeps_every_accepted_record_witness :
  let get k := if decide (k = "errors") then "1" else "" in
  let refused := flush (at_time "t0") (default (New Postgres) (take_one (Send (sample "/a" false) (New Postgres)))) in
  (stored sample_sink).*2 = [sample "/a" false; sample "/b" true; sample "/c" false] /\
  handleRequests get (fun _ => inl "") (st sample_sink) = Ok (inr [stamp "t1" 2 (sample "/b" true)]) /\
  concat (i_batch <$> handed refused) = accepted refused /\ stderr refused = [insert_line "down"].
Proof.
  intros get refused.
  destruct (sink_keeps_every_accepted_record (Memory sample_store) sample_sink get (fun _ => inl "")) as (_ & _ & _ & _ & Hq).
  - by exists 2.
  - apply sample_reachable.
  - reflexivity.
  - destruct (sink_keeps_every_accepted_record Postgres refused get (fun _ => inl "")) as (Hf & Hl & _ & _).
    + exact I.
    + eapply rtc_l; [apply (ss_send (sample "/a" false))|].
      eapply rtc_l; [apply ss_writer; by eapply (w_recv (at_time "t0"))|].
      eapply rtc_l; [apply ss_writer; by apply (w_tick (at_time "t0"))|]. apply rtc_refl.
    + reflexivity.
    + split_and!; [reflexivity|rewrite Hq; reflexivity|rewrite <- Hf; by rewrite app_nil_r|rewrite Hl; reflexivity].
Defined.

Lemma sink_stop_returns_witness :
  exists n s', (n <= 2)%nat /\ nsteps writer_step n (Stop (New Postgres)) s' /\ pc s' = WDone.
Proof.
  apply (sink_stop_returns Postgres (Stop (New Postgres))); [|reflexivity|reflexivity].
  apply rtc_once, ss_stop.
Defined.

Definition sample_mem : memStore := match st sample_sink with Memory m => m | Postgres => sample_store end.

Lemma polling_misses_nothing_witness :
  mem_query (mkParams "" 1 false 10 true) sample_mem =
  Ok [stamp "t1" 2 (sample "/b" true); stamp "t1" 3 (sample "/c" false)].
Proof.
  rewrite (polling_misses_nothing _ [("t0", sample "/a" false); ("t1", sample "/b" true);
                                     ("t1", sample "/c" false)]); try reflexivity.
  - destruct (sink_reachable_ok (Memory sample_store) sample_sink ltac:(by exists 2) sample_reachable eq_refl)
      as [(_ & m & Hm & _ & Hok) _ _ _ _ _ _].
    unfold sample_mem. rewrite Hm. exact Hok.
  - cbn. lia.
Defined.

(** With a number and the error condition the two stores disagree: Postgres is asked for the
    records above the number whatever their kind, the memory store also filters. *)
Lemma stores_disagree_on_errors_since :
  pg_query (mkParams "" 1 true 10 true) = pg_query (mkParams "" 1 false 10 true) /\
  mem_query (mkParams "" 1 true 10 true) sample_mem <>
  mem_query (mkParams "" 1 false 10 true) sample_mem.
Proof. split; [reflexivity|]. by vm_compute. Qed.

(** The Postgres store hands a batch to the broadcaster from its newest record, the memory
    store from its oldest. *)
Lemma stores_disagree_on_broadcast_order answer :
  pg_insert (inr 2) answer = (answer (mkSelect WAll false 2), None) /\
  (fst <$> [mem_insert "t" [sample "/a" false; sample "/b" false] (newMemStore 4)]) =
  [[stamp "t" 1 (sample "/a" false); stamp "t" 2 (sample "/b" false)]].
Proof. split; reflexivity. Qed.
