(* ===== verification/RequestUi.v ===== *)
(** * examples/request-ui/filter.go: what the request inspector records

    The accumulator of a stream, filled by the hooks of the exchange observer
    ([ExchangeHooks]), and the record built from it when Envoy finalizes the stream
    ([Finalized]); the record goes to the sink ([RequestSink]).  Envoy's answers about the
    request and the JSON encoder are parameters. *)
From stdpp Require Import base list strings.
From Stdlib Require Import ZArith Lia Ascii.
From S2P Require Import Prelude GoStrings Async Envoy ResponseFlags ExchangeHooks HostRefresh RequestSink.
#[local] Open Scope Z_scope.

(** ** The configuration *)

Record filterConfig := mkFilterConfig {
  RecordRequestHeaders : bool;
  RecordResponseHeaders : bool;
  RecordRequestBody : bool;
  RecordResponseBody : bool;
  MaxBodyBytes : Z;
}.

Definition defaultMaxBody : Z := 4096.

(** The package variable [cfg], which nothing assigns. *)
Definition cfg : filterConfig := mkFilterConfig true true false false defaultMaxBody.

(** ** The accumulator *)

Record reqState := mkReqState {
  requestID : string; method : string; path : string; host : string;
  traceID : string; spanID : string; requestHeaders : list (string * string);
  statusCode : Z; responseHeaders : list (string * string); responseBody : bytes;
}.

(** A request with what Envoy answers about it: the request id attribute and, when there is
    an active span, its two ids. *)
Record ui_request := mkUiRequest {
  ur_method : string; ur_path : string; ur_host : string;
  ur_headers : list (string * string);
  ur_request_id : option string;
  ur_span : option (option string * option string);
}.

(** The hook [OnRequest]. *)
Definition ui_OnRequest (c : filterConfig) (r : ui_request) : reqState :=
  let '(tid, sid) := match ur_span r with
                     | Some (t, s) => (default "" t, default "" s)
                     | None => ("", "")
                     end in
  mkReqState (default "" (ur_request_id r)) (ur_method r) (ur_path r) (ur_host r) tid sid
             (if RecordRequestHeaders c then ur_headers r else []) 0 [] [].

(** The hook [OnResponse] on a chunk and its headers. *)
Definition ui_OnResponse (c : filterConfig) (st : reqState) (chunk : ResponseChunk)
    (headers : list (string * string)) : res reqState :=
  if decide (rc_StatusCode chunk <> 0) then
    Ok (mkReqState (requestID st) (method st) (path st) (host st) (traceID st) (spanID st)
          (requestHeaders st) (rc_StatusCode chunk)
          (if RecordResponseHeaders c then headers else responseHeaders st) (responseBody st))
  else if rc_EndStream chunk && bool_decide (rc_Data chunk <> []) then
    body ← TruncateBody (rc_Data chunk) (MaxBodyBytes c);
    Ok (mkReqState (requestID st) (method st) (path st) (host st) (traceID st) (spanID st)
          (requestHeaders st) (statusCode st) (responseHeaders st) body)
  else Ok st.

(** ** The record *)

(** The loop of [statusStr]. *)
Fixpoint status_digits (fuel : nat) (code : Z) (b : string) : string :=
  match fuel with
  | O => b
  | S fuel => if code <=? 0 then b
              else status_digits fuel (code / 10)
                     (String (ascii_of_N (Z.to_N (code mod 10 + 48))) b)
  end.

(** [statusStr(code)]; nineteen digits are enough for an [int]. *)
Definition statusStr (code : Z) : string := if code =? 0 then "" else status_digits 19 code "".

Section record.
(** [json.Marshal] of a header list, [None] for its error. *)
Context (marshal : list (string * string) -> option string).

Definition marshal_headers (hs : list (string * string)) : string :=
  match hs with [] => "" | _ => default "" (marshal hs) end.

Definition zero_fin : finalized_part := mkFinPart 0 0 0 "" 0 "" 0 0 "" "" false "".

Definition buildRecord (st : reqState) : Record_ :=
  mkRecord 0 "" false
    (mkReqPart (requestID st) (method st) (path st) (host st) (traceID st) (spanID st)
               (marshal_headers (requestHeaders st)) "")
    (mkUpPart (statusStr (statusCode st)) "" (marshal_headers (responseHeaders st))
              (String.string_of_list_byte (responseBody st)))
    (mkErrPart "" "" "" "")
    (mkNumPart 0 0 0 (statusCode st))
    zero_fin.

Definition enrichWithFinalized (r : Record_) (info : FinalizedInfo) : Record_ :=
  let t := fi_Timing info in
  let b := fi_Bytes info in
  let unseen := (RequestSink.ResponseCode (r_num r) =? 0) && (0 <? fi_ResponseCode info) in
  let flags := ResponseFlagsString (fi_ResponseFlags info) in
  mkRecord (ID r) (Timestamp r) (HasError r) (r_req r)
    (mkUpPart (if unseen then statusStr (fi_ResponseCode info) else UpstreamStatus (r_up r))
              (fi_UpstreamAddress info) (ResponseHeaders (r_up r)) (ResponseBody (r_up r)))
    (mkErrPart (ErrorDetails (r_err r))
               (if decide (flags <> "") then flags else RequestSink.ResponseFlags (r_err r))
               (fi_ResponseCodeDetails info) (fi_UpstreamFailure info))
    (mkNumPart (if 0 <=? RequestCompleteDurationNs t then RequestCompleteDurationNs t
                else DurationMs (r_num r))
               (BytesReceived b) (BytesSent b)
               (if unseen then fi_ResponseCode info else RequestSink.ResponseCode (r_num r)))
    (mkFinPart (Envoy.FirstUpstreamTxByteSentNs t) (Envoy.LastUpstreamRxByteReceivedNs t)
               (if 0 <=? fi_UpstreamPoolReadyDurationNs info then fi_UpstreamPoolReadyDurationNs info
                else UpstreamCxPoolReadyMs (r_fin r))
               (fi_UpstreamLocalAddress info) (fi_UpstreamRequestAttempts info)
               (fi_RequestProtocol info)
               (Envoy.WireBytesReceived b) (Envoy.WireBytesSent b)
               (fi_TraceID info) (fi_SpanID info) (fi_TraceSampled info) (fi_LocalReplyBody info)).

(** [errorFlags]: UF, UH, UC, UT, UO and NR. *)
Definition errorFlags : list string := ["UF"; "UH"; "UC"; "UT"; "UO"; "NR"].

Definition containsErrorFlag (flags : string) : bool :=
  existsb (fun token => bool_decide (token ∈ errorFlags)) (split_commas flags).

Definition hasError (r : Record_) : bool :=
  bool_decide (ErrorDetails (r_err r) <> "") || bool_decide (UpstreamFailure (r_err r) <> "") ||
  (bool_decide (RequestSink.ResponseFlags (r_err r) <> "") &&
   containsErrorFlag (RequestSink.ResponseFlags (r_err r))) ||
  (500 <=? RequestSink.ResponseCode (r_num r)).

(** The hook [OnFinalized]: the record sent to the sink. *)
Definition finalized_record (st : reqState) (info : FinalizedInfo) : Record_ :=
  let r := enrichWithFinalized (buildRecord st) info in
  mkRecord (ID r) (Timestamp r) (hasError r) (r_req r) (r_up r) (r_err r) (r_num r) (r_fin r).

Definition ui_OnFinalized (st : reqState) (info : FinalizedInfo) (s : Sink) : Sink :=
  Send (finalized_record st info) s.
End record.

(** ** Lemmas *)

(** The digits are those of the number. *)
Lemma status_digits_value fuel : forall n b, 0 <= n < 10 ^ Z.of_nat fuel ->
  digits 0 (status_digits fuel n b) = digits n b.
Proof.
  induction fuel as [|fuel IH]; intros n b Hc; cbn [status_digits].
  { change (10 ^ Z.of_nat 0) with 1 in Hc. by replace n with 0 by lia. }
  destruct (Z.leb_spec n 0); [by replace n with 0 by lia|].
  rewrite Nat2Z.inj_succ, Z.pow_succ_r in Hc by lia.
  rewrite IH by (split; [apply Z.div_pos; lia|apply Z.div_lt_upper_bound; lia]).
  cbn [digits]. pose proof (Z.mod_pos_bound n 10 ltac:(lia)) as Hm. unfold code.
  rewrite N_ascii_embedding by lia. rewrite Z2N.id by lia.
  destruct (N.leb_spec 48 (Z.to_N (n mod 10 + 48))); [|lia].
  destruct (N.leb_spec (Z.to_N (n mod 10 + 48)) 57); [|lia]. cbn [andb]. f_equal.
  pose proof (Z.div_mod n 10). lia.
Qed.

Lemma statusStr_value c : c <> 0 -> 0 <= c < 10 ^ 19 -> digits 0 (statusStr c) = Some c.
Proof.
  intros H0 Hc. unfold statusStr. rewrite (proj2 (Z.eqb_neq c 0)) by done.
  by rewrite status_digits_value by (change (Z.of_nat 19) with 19; done).
Qed.

(** The bits of the six flags that count as errors. *)
Definition error_bits : list nat := [1; 2; 5; 6; 7; 8]%nat.

Lemma error_flag_bits : forall i, (i < 64)%nat -> flag_name i ∈ errorFlags <-> i ∈ error_bits.
Proof.
  assert (forallb (fun i => bool_decide (flag_name i ∈ errorFlags <-> i ∈ error_bits)) (seq 0 64) = true)
    as H by (vm_compute; reflexivity).
  intros i Hi. rewrite forallb_forall in H. specialize (H i). apply bool_decide_eq_true in H; [done|].
  apply in_seq. lia.
Qed.

Lemma error_bits_lt i : i ∈ error_bits -> (i < 64)%nat.
Proof.
  unfold error_bits. rewrite !elem_of_cons, elem_of_nil.
  intros [->|[->|[->|[->|[->|[->|[]]]]]]]; lia.
Qed.

(** A name is in the list of a mask when it is the name of a bit set in it. *)
Lemma elem_of_flag_list mask t :
  t ∈ flag_list mask <->
  exists i, (i < 64)%nat /\ Z.testbit mask (Z.of_nat i) = true /\ t = flag_name i.
Proof.
  unfold flag_list. rewrite list_elem_of_omap. split.
  - intros (i & Hi & Hs). apply elem_of_seq in Hi. exists i. rewrite bit_set in Hs.
    destruct (Z.testbit mask (Z.of_nat i)); [|done]. injection Hs as <-. split_and!; [lia|done|done].
  - intros (i & Hi & Hb & ->). exists i. rewrite elem_of_seq, bit_set, Hb. split; [lia|done].
Qed.

Lemma existsb_error_flags l :
  existsb (fun token => bool_decide (token ∈ errorFlags)) l = true <->
  exists t, t ∈ l /\ t ∈ errorFlags.
Proof.
  rewrite existsb_exists. split; intros (t & Ht & He); exists t.
  - rewrite <- list_elem_of_In in Ht. by apply bool_decide_eq_true in He.
  - rewrite <- list_elem_of_In. split; [done|]. by apply bool_decide_eq_true.
Qed.

(** The joined names contain an error flag when one of them is one: no name has a comma. *)
Lemma containsErrorFlag_join l : (forall s, s ∈ l -> no_comma s = true) ->
  containsErrorFlag (join "," l) = true <-> exists t, t ∈ l /\ t ∈ errorFlags.
Proof.
  intros Hc. unfold containsErrorFlag. destruct (decide (l = [])) as [->|Hne].
  - split; [intros H; by vm_compute in H|]. intros (t & Ht & _). by apply not_elem_of_nil in Ht.
  - rewrite split_join by done. apply existsb_error_flags.
Qed.

Lemma containsErrorFlag_bits mask :
  containsErrorFlag (join "," (flag_list mask)) = true <->
  exists i, i ∈ error_bits /\ Z.testbit mask (Z.of_nat i) = true.
Proof.
  rewrite containsErrorFlag_join by apply flag_list_no_comma. split.
  - intros (t & Ht & He). apply elem_of_flag_list in Ht as (i & Hi & Hb & ->).
    exists i. split; [by apply error_flag_bits|done].
  - intros (i & Hi & Hb). exists (flag_name i). split.
    + apply elem_of_flag_list. exists i. split_and!; [by apply error_bits_lt|done|done].
    + apply error_flag_bits; [by apply error_bits_lt|done].
Qed.

Lemma ResponseFlagsString_error mask :
  ResponseFlagsString mask <> "" /\ containsErrorFlag (ResponseFlagsString mask) = true <->
  exists i, i ∈ error_bits /\ Z.testbit mask (Z.of_nat i) = true.
Proof.
  unfold ResponseFlagsString. destruct (Z.eqb_spec mask 0) as [->|E0].
  - split; [intros [H _]; by destruct H|]. intros (i & _ & Hb). by rewrite Z.bits_0 in Hb.
  - rewrite <- containsErrorFlag_bits. split; [intros [_ H]; exact H|]. intros H. split; [|exact H].
    intros Hj. rewrite Hj in H. by vm_compute in H.
Qed.

Lemma hasError_spec r :
  hasError r = true <->
  ErrorDetails (r_err r) <> "" \/ UpstreamFailure (r_err r) <> "" \/
  (RequestSink.ResponseFlags (r_err r) <> "" /\
   containsErrorFlag (RequestSink.ResponseFlags (r_err r)) = true) \/
  500 <= RequestSink.ResponseCode (r_num r).
Proof.
  unfold hasError. generalize (containsErrorFlag (RequestSink.ResponseFlags (r_err r))). intros b.
  rewrite !orb_true_iff, andb_true_iff, !bool_decide_eq_true, Z.leb_le. tauto.
Qed.

(** ** Properties *)

(** What the inspector shows of a finished stream.  The response code is the one the filter
    saw, or the one Envoy logged when the filter saw none; the status text is that number in
    decimal; and the record is marked as an error exactly when Envoy names an upstream
    failure, when one of the six failure flags (UH, UT, UF, UC, UO, NR) is set in the mask it
    logged, or when the code is 500 or more. *)
Theorem finalized_record_error marshal st info :
  0 <= statusCode st < 10 ^ 19 ->
  0 <= fi_ResponseCode info < 10 ^ 19 ->
  let r := finalized_record marshal st info in
  let code := if statusCode st =? 0 then fi_ResponseCode info else statusCode st in
  RequestSink.ResponseCode (r_num r) = code /\
  (code <> 0 -> digits 0 (UpstreamStatus (r_up r)) = Some code) /\
  (HasError r = true <->
     fi_UpstreamFailure info <> "" \/
     (exists i, i ∈ error_bits /\ Z.testbit (fi_ResponseFlags info) (Z.of_nat i) = true) \/
     500 <= code).
Proof.
  intros Hs Hi r code.
  assert (RequestSink.ResponseCode (r_num r) = code) as Hcode.
  { subst r code. cbn. destruct (Z.eqb_spec (statusCode st) 0) as [->|]; cbn; [|done].
    destruct (Z.ltb_spec 0 (fi_ResponseCode info)); lia. }
  split_and!; [done| |].
  - intros Hne. subst r code. cbn -[statusStr].
    destruct (Z.eqb_spec (statusCode st) 0) as [E|E]; cbn -[statusStr]; [|by apply statusStr_value].
    destruct (Z.ltb_spec 0 (fi_ResponseCode info)); [by apply statusStr_value|lia].
  - change (HasError r) with (hasError (enrichWithFinalized (buildRecord marshal st) info)).
    rewrite hasError_spec, <- ResponseFlagsString_error.
    change (RequestSink.ResponseCode (r_num _)) with (RequestSink.ResponseCode (r_num r)). rewrite Hcode.
    change (ErrorDetails _) with "". change (UpstreamFailure _) with (fi_UpstreamFailure info).
    assert (RequestSink.ResponseFlags (r_err (enrichWithFinalized (buildRecord marshal st) info)) =
            ResponseFlagsString (fi_ResponseFlags info)) as ->; [|tauto].
    cbn -[ResponseFlagsString]. case_decide as Hd; [done|by rewrite Hd].
Qed.

Definition sample_info : FinalizedInfo :=
  mkFinalized (mkTiming 0 1500000 0 0 0 0 0 0) (mkBytesInfo 10 20 30 40) 503 "no_healthy_upstream"
    (2 ^ 1) "" "" "" "HTTP/1.1" (-1) 0 "" "" false "no healthy upstream".

Definition sample_state : reqState :=
  ui_OnRequest cfg (mkUiRequest "GET" "/" "h" [] (Some "id") None).

Lemma finalized_record_error_witness :
  HasError (finalized_record (fun _ => None) sample_state sample_info) = true /\
  UpstreamStatus (r_up (finalized_record (fun _ => None) sample_state sample_info)) = "503".
Proof.
  destruct (finalized_record_error (fun _ => None) sample_state sample_info) as (_ & _ & He).
  - cbn. lia.
  - cbn. lia.
  - split; [|reflexivity]. apply He. right. left. exists 1%nat. split; [apply elem_of_cons; by left|reflexivity].
Defined.

(** The body of a streamed response is not recorded: only the data of the chunk that ends the
    stream is kept. *)
Lemma only_last_chunk_recorded :
  (st ← ui_OnResponse cfg sample_state (mkResponseChunk 0 false [Byte.x61] false "" "") [];
   ui_OnResponse cfg st (mkResponseChunk 0 false [] true "" "") []) = Ok sample_state.
Proof. reflexivity. Qed.

(** Response bodies are recorded although the configuration says they are not. *)
Lemma response_body_flag_ignored :
  RecordResponseBody cfg = false /\
  (responseBody <$> match ui_OnResponse cfg sample_state (mkResponseChunk 0 false [Byte.x61] true "" "") [] with
                    | Ok st => Some st | Panic _ => None end) = Some [Byte.x61].
Proof. split; reflexivity. Qed.
