(* ===== verification/McpGatewayHttp.v ===== *)
(** * McpGatewayHttp: the net/http twin of the MCP profile gateway (gateway_nethttp.go)

    The same gateway served by [net/http], whose requests to the catalog are made one after
    the other by an HTTP client.  A handler is a program of type [hprog]: it ends with what
    it records and its reply, or makes a request and goes on with the answer.  The main
    theorem states that on a profile's requests the Envoy filter of McpGateway.v and this
    implementation are the same gateway: same requests, and the same reply to the same
    answers, whatever the answers are. *)
From stdpp Require Import base list strings gmap sets sorting pretty.
From Stdlib Require Import ZArith Lia Ascii.
From S2P Require Import Prelude GoStrings Async Envoy FilterState FlushProps McpSession McpRouter McpCatalog McpGateway McpGatewayProps.

(** ** Programs over the HTTP client *)

(** What [client.Do] returns. *)
Abbreviation answer := (string + server_response)%type.

Inductive hprog (A : Type) :=
  | Done (a : A)
  | Do (req : server_request) (k : answer -> hprog A).
Arguments Done {A}.
Arguments Do {A}.

Fixpoint hbind {A B : Type} (p : hprog A) (f : A -> hprog B) : hprog B :=
  match p with
  | Done a => f a
  | Do req k => Do req (fun a => hbind (k a) f)
  end.

(** Run a program on the answers of the client, one per request: the requests it made and
    its result; [None] when the answers are too few or too many. *)
Fixpoint hrun {A : Type} (p : hprog A) (answers : list answer) : option (list server_request * A) :=
  match p, answers with
  | Done a, [] => Some ([], a)
  | Do req k, a :: answers => r ← hrun (k a) answers; Some (req :: r.1, r.2)
  | _, _ => None
  end.

(** A handler ends with what it records and its reply. *)
Abbreviation http_outcome := (records * McpCatalog.reply)%type.

Definition StatusNoContent : Z := 204.

Section http.
Context `{NetURL, GwJson}.
Context (unicode : string -> string -> bool).
Context (config : Config).
(** The order in which Go ranges over a header, and [sort.Slice] by name. *)
Context (header_order : header -> list (string * list string)).
Context (sortTools : list Tool -> list Tool).

(** [if catalog, ok := g.config.CatalogServers[serverID]; ok { g.record(...) }] *)
Definition record_known (serverID state : string) : records :=
  match CatalogServers config !! serverID with Some _ => [(serverID, state)] | None => [] end.

(** [json.Encoder.Encode] writes the value and a line break, or nothing when it fails. *)
Definition encoded (b : option bytes) : bytes :=
  match b with Some b => b ++ [Byte.x0a] | None => [] end.

(** [writeJSON] on a response writer with the headers [h]. *)
Definition write_json (h : header) (status : Z) (v : option bytes) : McpCatalog.reply :=
  McpCatalog.mkReply status (h_Set "content-type" "application/json" h) (encoded v).

Definition writeJSON (status : Z) (v : JSONRPCResponse) : McpCatalog.reply :=
  write_json ∅ status (marshal_response v).

Definition copyNetHTTPResponseHeaders (dst src : header) : header :=
  foldl (fun dst '(name, values) =>
           if EqualFold unicode name "content-length" then dst
           else foldl (fun dst v => h_Add name v dst) dst values) dst (header_order src).

(** ** Requests *)

Definition set_nonempty (k v : string) (h : header) : header := if decide (v <> "") then h_Set k v h else h.

(** The request [forwardProfileServerNetHTTP] makes, or why it makes none. *)
Definition forwardProfileServerNetHTTP (r : client_request) (body : bytes) (serverID : string)
    (server : ProfileServer) (backendSessionID : string) (useBackendSession : bool) :
    string + server_request :=
  let target := catalogURL (ps_URL server) serverID in
  match url_Parse target with
  | inl err => inl err
  | inr _ =>
      let h := h_Set "accept" "application/json" (h_Set "content-type" "application/json" ∅) in
      let h := if useBackendSession then set_nonempty SessionIDHeader backendSessionID h else h in
      let h := set_nonempty ProtocolVersionHeader (h_Get (cq_header r) ProtocolVersionHeader) h in
      let h := set_nonempty "x-mcp-credential-ref" (CredentialRef server) h in
      let h := set_nonempty "x-mcp-credential-envelope" (CredentialEnvelope server) h in
      inr (mkServerRequest target h body)
  end.

(** Do the request, or go on with the error that prevented it. *)
Definition try_do {A} (req : string + server_request) (k : answer -> hprog A) : hprog A :=
  match req with inl err => k (inl err) | inr req => Do req k end.

(** The request of [forwardCatalogNetHTTP]. *)
Definition forwardCatalogNetHTTP (r : client_request) (serverID : string) (server : CatalogServer) :
    string + server_request :=
  match cq_body r with
  | inl err => inl err
  | inr body =>
      let target := catalogURL (cat_URL server) serverID in
      match url_Parse target with
      | inl err => inl err
      | inr _ =>
          let h := copy_or "content-type" "application/json" (cq_header r) ∅ in
          let h := copy_or "accept" "application/json" (cq_header r) h in
          let h := copy_nonempty SessionIDHeader (cq_header r) h in
          let h := copy_nonempty ProtocolVersionHeader (cq_header r) h in
          inr (mkServerRequest target h body)
      end
  end.

(** ** Handlers *)

(** An answer relayed: its status, headers and body. *)
Definition relay (resp : server_response) (body : bytes) : McpCatalog.reply :=
  McpCatalog.mkReply (sp_status resp) (copyNetHTTPResponseHeaders ∅ (sp_header resp)) body.

Definition handleCatalogServerNetHTTP (serverID : string) (r : client_request) : hprog http_outcome :=
  match CatalogServers config !! serverID with
  | None => Done ([], writeJSON StatusNotFound (errorResponse [] (-32004) ("unknown catalog server: " +:+ serverID)))
  | Some server =>
      let failed := writeJSON StatusBadGateway (errorResponse [] (-32003) ("catalog gateway failed: " +:+ serverID)) in
      try_do (forwardCatalogNetHTTP r serverID server) (fun a =>
        match a with
        | inl err => Done ([(serverID, "error: " +:+ err)], failed)
        | inr resp =>
            match sp_body resp with
            | inl err => Done ([(serverID, "error: " +:+ err)], failed)
            | inr body => Done ([(serverID, "ok")], relay resp body)
            end
        end)
  end.

(** What the answer of one server contributes to [initialize]: what is recorded, and the
    backend's session when it succeeded. *)
Definition init_answer (a : answer) : string * option string :=
  match a with
  | inl err => ("error: " +:+ err, None)
  | inr resp =>
      match sp_body resp with
      | inl _ => ("error: initialize", None)
      | inr body =>
          if decide (sp_status resp <> StatusOK) then ("error: initialize", None)
          else match decodeInitializeResult body with
               | Some err => ("error: " +:+ err, None)
               | None => ("initialized", Some (h_Get (sp_header resp) SessionIDHeader))
               end
      end
  end.

(** The loop of [initializeProfileNetHTTP]. *)
Fixpoint initialize_loop (r : client_request) (body : bytes) (profile : Profile) (serverIDs : list string)
    (acc : records * gmap string string) : hprog (records * gmap string string) :=
  match serverIDs with
  | [] => Done acc
  | serverID :: serverIDs =>
      try_do (forwardProfileServerNetHTTP r body serverID (p_Servers profile !!! serverID) "" false) (fun a =>
        let '(state, session) := init_answer a in
        initialize_loop r body profile serverIDs
          (acc.1 ++ record_known serverID state,
           match session with Some v => <[serverID := v]> acc.2 | None => acc.2 end))
  end.

Definition initialize_reply (id : json) (profileID : string) (backends : gmap string string) :
    McpCatalog.reply :=
  if decide (backends = ∅) then writeJSON StatusBadGateway (errorResponse id (-32002) "initialize failed")
  else match encodeProfileSession profileID backends with
       | None => writeJSON StatusInternalServerError (errorResponse id (-32603) "profile gateway failed")
       | Some sessionID =>
           write_json (h_Set ProtocolVersionHeader ProtocolVersion (h_Set SessionIDHeader sessionID ∅)) StatusOK
             (marshal_response
                (McpRouter.mkResponse (cloneRaw id) (Some (ResInit syntheticInitializeResult)) None))
       end.

Definition initializeProfileNetHTTP (r : client_request) (id : json) (body : bytes) (profileID : string)
    (profile : Profile) : hprog http_outcome :=
  hbind (initialize_loop r body profile (sortedProfileServerIDs (p_Servers profile)) ([], ∅))
    (fun acc => Done (acc.1, initialize_reply id profileID acc.2)).

(** What the answer of one server contributes to [tools/list]. *)
Definition list_answer (serverID : string) (server : ProfileServer) (a : answer) : string * list Tool :=
  match a with
  | inl err => ("error: " +:+ err, [])
  | inr resp =>
      match sp_body resp with
      | inl _ => ("error: tools/list", [])
      | inr body =>
          if decide (sp_status resp <> StatusOK) then ("error: tools/list", [])
          else match mergeToolsResult serverID server body with
               | inl err => ("error: " +:+ err, [])
               | inr tools => ("ok", tools)
               end
      end
  end.

(** The loop of [listProfileToolsNetHTTP]. *)
Fixpoint list_loop (r : client_request) (body : bytes) (profile : Profile) (session : profileSession)
    (active : bool) (serverIDs : list string) (acc : records * list Tool) : hprog (records * list Tool) :=
  match serverIDs with
  | [] => Done acc
  | serverID :: serverIDs =>
      match p_Servers profile !! serverID with
      | None => list_loop r body profile session active serverIDs acc
      | Some server =>
          try_do (forwardProfileServerNetHTTP r body serverID server
                    (default "" (Backends session !! serverID)) active) (fun a =>
            let '(state, tools) := list_answer serverID server a in
            list_loop r body profile session active serverIDs
              (acc.1 ++ record_known serverID state, acc.2 ++ tools))
      end
  end.

(** [listProfileToolsNetHTTP]: the merged tools; [order] is the order in which Go ranges over
    the backends of the session.  When the body does not marshal the list is nil, which JSON
    writes as null. *)
Definition listProfileToolsNetHTTP (r : client_request) (id : json) (profile : Profile)
    (session : profileSession) (order : list string) : hprog (records * list Tool) :=
  match toolsListRequestBody id with
  | None => Done ([], [])
  | Some body =>
      let active := bool_decide (Backends session <> ∅) in
      hbind (list_loop r body profile session active
               (if active then sortedStringKeys order else sortedProfileServerIDs (p_Servers profile)) ([], []))
        (fun acc => Done (acc.1, sortTools acc.2))
  end.

Definition callProfileToolNetHTTP (r : client_request) (id params : json) (profile : Profile)
    (session : profileSession) (order : list (string * ProfileServer)) : hprog http_outcome :=
  match resolveProfileTool params profile order with
  | inl (errCode, errMsg) => Done ([], writeJSON StatusOK (errorResponse id errCode errMsg))
  | inr (serverID, backendTool, callParams) =>
      match Backends session !! serverID with
      | None =>
          Done ([], writeJSON StatusOK (errorResponse id (-32602) ("tool server not in session: " +:+ serverID)))
      | Some backend =>
          match toolCallForwardBody id backendTool callParams with
          | None =>
              Done ([], writeJSON StatusInternalServerError (errorResponse id (-32603) "profile gateway failed"))
          | Some body =>
              let failed :=
                writeJSON StatusBadGateway (errorResponse id (-32003) ("tool backend failed: " +:+ serverID)) in
              try_do (forwardProfileServerNetHTTP r body serverID (p_Servers profile !!! serverID) backend true)
                (fun a =>
                   match a with
                   | inl err => Done (record_known serverID ("error: " +:+ err), failed)
                   | inr resp =>
                       match sp_body resp with
                       | inl _ => Done (record_known serverID "error: tools/call", failed)
                       | inr respBody => Done (record_known serverID "ok", relay resp respBody)
                       end
                   end)
          end
      end
  end.

Definition handleProfileNetHTTP (profileID : string) (r : client_request)
    (session_order : gmap string string -> list string)
    (server_order : gmap string ProfileServer -> list (string * ProfileServer)) : hprog http_outcome :=
  let refuse status id code message := Done ([], writeJSON status (errorResponse id code message)) in
  match Profiles config !! profileID with
  | None => refuse StatusNotFound [] (-32004)%Z ("unknown profile: " +:+ profileID)
  | Some profile =>
      if negb (profileAuthorized (p_APIKey profile) (h_Get (cq_header r)))
      then refuse StatusUnauthorized [] (-32001)%Z ("unauthorized profile: " +:+ profileID)
      else
        match cq_body r with
        | inl _ => refuse StatusBadRequest [] (-32700)%Z "invalid request body"
        | inr body =>
            match gw_request body with
            | None => refuse StatusBadRequest [] (-32700)%Z "invalid JSON-RPC request"
            | Some req =>
                let sessionID := h_Get (cq_header r) SessionIDHeader in
                if decide (rq_method req = MethodInitialize) then
                  initializeProfileNetHTTP r (rq_id req) body profileID profile
                else if decide (rq_method req = MethodToolsList) then
                  match (if decide (sessionID <> "") then decodeProfileSession profileID sessionID
                         else Some (mkProfileSession "" ∅)) with
                  | None => refuse StatusBadRequest (rq_id req) (-32010)%Z "invalid MCP session ID"
                  | Some session =>
                      hbind (listProfileToolsNetHTTP r (rq_id req) profile session (session_order (Backends session)))
                        (fun acc =>
                           Done (acc.1, writeJSON StatusOK
                             (McpRouter.mkResponse (cloneRaw (rq_id req)) (Some (ResTools acc.2)) None)))
                  end
                else if decide (rq_method req = MethodToolsCall) then
                  if decide (sessionID = "") then
                    refuse StatusBadRequest (rq_id req) (-32010)%Z "missing MCP session ID"
                  else match decodeProfileSession profileID sessionID with
                       | None => refuse StatusBadRequest (rq_id req) (-32010)%Z "invalid MCP session ID"
                       | Some session =>
                           callProfileToolNetHTTP r (rq_id req) (rq_params req) profile session
                             (server_order (p_Servers profile))
                       end
                else refuse StatusBadRequest (rq_id req) (-32601)%Z
                       ("unsupported profile method: " +:+ rq_method req)
            end
        end
  end.

(** ** The mux, and the filter's use of it *)

(** The routes of [Handler]; [MuxReply] is the mux's own answer (not found, method not
    allowed, redirect). *)
Inductive route :=
  | Healthz
  | DumpRoute
  | CatalogRoute (server : string)
  | ProfileRoute (profile : string)
  | MuxReply (reply : McpCatalog.reply).

(** [Handler] for the route [http.ServeMux] chose; [marshal_dump] is the JSON of a dump, and
    [servers] what has been recorded. *)
Definition Handler (marshal_dump : GatewayDump -> option bytes) (servers : gmap string CatalogDump)
    (session_order : gmap string string -> list string)
    (server_order : gmap string ProfileServer -> list (string * ProfileServer))
    (r : client_request) (rt : route) : hprog http_outcome :=
  match rt with
  | Healthz => Done ([], McpCatalog.mkReply StatusNoContent ∅ [])
  | DumpRoute => Done ([], write_json ∅ StatusOK (marshal_dump (McpGateway.Dump config servers)))
  | CatalogRoute server => handleCatalogServerNetHTTP server r
  | ProfileRoute profile => handleProfileNetHTTP profile r session_order server_order
  | MuxReply reply => Done ([], reply)
  end.

(** The request header [serveNetHTTPInTransit] builds: every header but the pseudo ones. *)
Definition net_http_header (hs : list (string * string)) : header :=
  foldl (fun h '(n, v) => if HasPrefix n ":" then h else h_Add n v h) ∅ hs.

(** The reply of the recorder, sent by the filter. *)
Definition recorded_reply (rp : McpCatalog.reply) : McpGateway.reply :=
  McpGateway.mkReply (McpCatalog.rp_status rp) (McpCatalog.rp_body rp)
    (flat_map (fun x => pair x.1 <$> x.2) (header_order (rp_header rp))).
End http.

(** ** The two implementations *)

(** The headers a request to the catalog carries, and those of a reply that matter to a
    client of the protocol. *)
Definition carried : list string :=
  ["content-type"; "accept"; SessionIDHeader; ProtocolVersionHeader; "x-mcp-credential-ref";
   "x-mcp-credential-envelope"].
Definition reply_names : list string := ["content-type"; SessionIDHeader; ProtocolVersionHeader].

Section agree.
Context `{NetURL, GwJson}.
Context (unicode : string -> string -> bool).
Context (config : Config).
Context (header_order : header -> list (string * list string)).
Context (sortTools : list Tool -> list Tool).

(** A request of the client and a callout of the filter ask the same of the same server. *)
Definition same_request (h : server_request) (q : HTTPCalloutRequest) : Prop :=
  exists u, url_Parse (sq_url h) = inr u /\
    take 4 (rq_Headers q) =
      [(":method", "POST"); (":path", u_RequestURI u); (":scheme", u_Scheme u); ("host", u_Host u)] /\
    rq_Body q = sq_body h /\
    Forall (fun n => h_Get (sq_header h) n = headerValue unicode (rq_Headers q) n) carried.

(** The same answer as the client and as Envoy deliver it: [hs] are Envoy's headers. *)
Definition same_response (resp : server_response) (body : bytes)
    (hs : option (list (UnsafeEnvoyBuffer * UnsafeEnvoyBuffer))) (buffers : option (list UnsafeEnvoyBuffer)) :
    Prop :=
  (responseFromCalloutHeaders unicode hs).1 = sp_status resp /\ calloutBodyBytes buffers = body /\
  map_Forall (fun k _ => CanonicalMIMEHeaderKey k = k) (sp_header resp) /\
  Forall (fun n => h_Get (sp_header resp) n = calloutHeaderValue unicode hs n) reply_names.

(** An error of the client, or of reading the body, is a failed callout. *)
Definition same_answer (a : answer) (failed : Prop) (hs : option (list (UnsafeEnvoyBuffer * UnsafeEnvoyBuffer)))
    (buffers : option (list UnsafeEnvoyBuffer)) : Prop :=
  match a with
  | inl _ => failed
  | inr resp => match sp_body resp with
                | inl _ => failed
                | inr body => ~ failed /\ same_response resp body hs buffers
                end
  end.

Definition same_delivery (a : answer) (d : CalloutDelivery) : Prop :=
  same_answer a (d_result d <> HTTPCalloutSuccess) (d_headers d) (d_body d).
Definition same_settled (a : answer) (resp : HTTPCalloutAllSettledResponse) : Prop :=
  same_answer a (Failed resp = true) (Headers resp) (Body resp).

(** The same reply: status, body up to the line break of [json.Encoder], and headers. *)
Definition same_reply (h : McpCatalog.reply) (t : McpGateway.reply) : Prop :=
  McpCatalog.rp_status h = McpGateway.rp_status t /\
  (McpCatalog.rp_body h = McpGateway.rp_body t \/
   McpCatalog.rp_body h = McpGateway.rp_body t ++ [Byte.x0a]) /\
  Forall (fun n => h_Get (McpCatalog.rp_header h) n = headerValue unicode (McpGateway.rp_headers t) n) reply_names.

(** A handler of [net/http] and an action of the filter: the same requests, and the same
    reply to the same answers. *)
Definition same_gateway (p : hprog http_outcome) (a : action) : Prop :=
  match a with
  | Answer o => exists rs rp, p = Done (rs, rp) /\ same_reply rp o.2
  | Call req fn _ =>
      exists hreq k, p = Do hreq k /\ same_request hreq req /\
        forall a d, same_delivery a d -> exists rs rp, k a = Done (rs, rp) /\ same_reply rp (fn d).2
  | Settle reqs fn _ =>
      forall answers responses, Forall2 same_settled answers responses -> length responses = length reqs ->
        exists hreqs rs rp, hrun p answers = Some (hreqs, (rs, rp)) /\ Forall2 same_request hreqs reqs /\
          same_reply rp (fn responses).2
  end.

(** *** Headers *)

(** The values under a canonical key. *)
Definition vals (h : header) (k : string) : list string := default [] (h !! k).

Lemma h_Get_vals h n : h_Get h n = hd "" (vals h (CanonicalMIMEHeaderKey n)).
Proof. unfold h_Get, vals. by destruct (h !! _) as [[|v l]|]. Qed.

Lemma add_vals name vs dst k : CanonicalMIMEHeaderKey name = name ->
  vals (foldl (fun dst v => h_Add name v dst) dst vs) k = vals dst k ++ (if decide (name = k) then vs else []).
Proof.
  intros Hc. revert dst. induction vs as [|v vs IH]; intros dst; cbn [foldl].
  { case_decide; by rewrite app_nil_r. }
  rewrite IH. unfold h_Add at 1, vals. rewrite Hc. case_decide as Hk.
  - subst k. rewrite lookup_insert_eq. cbn. by rewrite <- app_assoc.
  - by rewrite lookup_insert_ne.
Qed.

Lemma copy_vals l : forall dst k, Forall (fun x => CanonicalMIMEHeaderKey x.1 = x.1) l ->
  EqualFold unicode k "content-length" = false ->
  vals (foldl (fun dst '(name, values) =>
           if EqualFold unicode name "content-length" then dst
           else foldl (fun dst v => h_Add name v dst) dst values) dst l) k =
  vals dst k ++ concat (snd <$> base.filter (fun x => x.1 = k) l).
Proof.
  induction l as [|[name vs] l IH]; intros dst k Hl Hk; cbn [foldl]; [by rewrite app_nil_r|].
  apply Forall_cons in Hl as [Hc Hl]. cbn in Hc. rewrite IH by done. rewrite filter_cons. cbn [fst].
  destruct (EqualFold unicode name "content-length") eqn:En.
  - rewrite decide_False by congruence. done.
  - rewrite add_vals by done. destruct (decide (name = k)) as [->|].
    + cbn. by rewrite <- app_assoc.
    + by rewrite app_nil_r.
Qed.

Lemma concat_key (l : list (string * list string)) k : NoDup l.*1 ->
  concat (snd <$> base.filter (fun x => x.1 = k) l) = vals (list_to_map l) k.
Proof.
  unfold vals. induction l as [|[n vs] l IH]; [done|]. cbn [fmap list_fmap fst].
  intros [Hn Hl]%NoDup_cons. rewrite filter_cons. cbn [fst list_to_map foldr uncurry].
  destruct (decide (n = k)) as [->|Hne].
  - cbn. rewrite lookup_insert_eq. cbn. rewrite IH by done.
    rewrite (not_elem_of_list_to_map_1 l k) by done. by rewrite app_nil_r.
  - rewrite IH by done. by rewrite lookup_insert_ne.
Qed.

(** Copying the headers of a response keeps every one but its length. *)
Lemma copied_get src n : (forall h, header_order h ≡ₚ map_to_list h) ->
  map_Forall (fun k _ => CanonicalMIMEHeaderKey k = k) src ->
  EqualFold unicode (CanonicalMIMEHeaderKey n) "content-length" = false ->
  h_Get (copyNetHTTPResponseHeaders unicode header_order ∅ src) n = h_Get src n.
Proof.
  intros Hord Hsrc Hn. rewrite !h_Get_vals. unfold copyNetHTTPResponseHeaders.
  assert (NoDup (header_order src).*1) as Hd by (rewrite Hord; apply NoDup_fst_map_to_list).
  rewrite copy_vals, concat_key; [|done| |done].
  - unfold vals. rewrite lookup_empty. cbn [default app].
    assert (list_to_map (header_order src) = src) as ->; [|done].
    rewrite <- (list_to_map_to_list src) at 2. by apply list_to_map_proper.
  - apply Forall_forall. intros [k vs] Hin. rewrite Hord in Hin. apply elem_of_map_to_list in Hin.
    by apply (Hsrc k vs).
Qed.

(** [strings.EqualFold] is an equivalence, as documented; a range visits every entry of a map
    once. *)
Hypothesis fold_sym : forall s t, EqualFold unicode s t = EqualFold unicode t s.
Hypothesis fold_trans : forall s t u, EqualFold unicode s t = true -> EqualFold unicode t u = true ->
  EqualFold unicode s u = true.
Hypothesis header_order_perm : forall h, header_order h ≡ₚ map_to_list h.

(** The headers [responseFromCalloutHeaders] keeps. *)
Definition kept (h : string * string) : Prop :=
  h.1 <> ":status" /\ HasPrefix h.1 ":" = false /\ EqualFold unicode h.1 "content-length" = false.
#[local] Instance kept_dec h : Decision (kept h).
Proof. unfold kept. apply _. Defined.

Lemma response_headers_kept l : forall acc,
  (foldl (response_header unicode) acc l).2 = acc.2 ++ base.filter kept l.
Proof.
  induction l as [|h l IH]; intros acc; cbn [foldl]; [by rewrite app_nil_r|].
  rewrite IH, filter_cons. unfold response_header. case_decide as Hs.
  { rewrite decide_False; [done|]. by intros [? _]. }
  destruct (HasPrefix h.1 ":") eqn:Hp.
  { rewrite decide_False; [done|]. intros (_ & ? & _). congruence. }
  destruct (EqualFold unicode h.1 "content-length") eqn:Hc.
  { rewrite decide_False; [done|]. intros (_ & _ & ?). congruence. }
  rewrite decide_True by done. cbn. by rewrite <- app_assoc.
Qed.

Lemma reply_name_kept h n : n ∈ reply_names -> EqualFold unicode h.1 n = true -> kept h.
Proof.
  intros Hn He.
  assert (forall s, EqualFold unicode (String ":" s) n = false) as Hcolon.
  { intros s. clear He. revert n Hn. apply Forall_forall. by repeat constructor. }
  assert (EqualFold unicode n "content-length" = false) as Hlen.
  { clear He Hcolon. revert n Hn. apply Forall_forall. by repeat constructor. }
  split_and!.
  - intros Hs. rewrite Hs, Hcolon in He. done.
  - destruct (h.1) as [|a s]; [done|]. destruct (HasPrefix (String a s) ":") eqn:Hp; [|done].
    apply bool_decide_eq_true in Hp as [t Ht]. apply StripPrefix_Some in Ht. injection Ht as -> _.
    by rewrite Hcolon in He.
  - destruct (EqualFold unicode h.1 "content-length") eqn:Hc; [|done].
    rewrite fold_sym in He. by rewrite (fold_trans _ _ _ He Hc) in Hlen.
Qed.

Lemma forwarded_value hs n : n ∈ reply_names ->
  headerValue unicode (responseFromCalloutHeaders unicode hs).2 n = calloutHeaderValue unicode hs n.
Proof.
  intros Hn. unfold responseFromCalloutHeaders, calloutHeaderValue. rewrite response_headers_kept.
  cbn [snd app]. unfold headerValue. rewrite list_filter_filter.
  erewrite list_filter_iff; [done|]. intros h. split; [by intros [? _]|]. intros He.
  split; [done|]. by eapply reply_name_kept.
Qed.

(** A relayed answer. *)
Lemma relay_same resp body hs buffers : same_response resp body hs buffers ->
  same_reply (relay unicode header_order resp body)
    (let '(status, headers) := responseFromCalloutHeaders unicode hs in
     McpGateway.mkReply status (calloutBodyBytes buffers) headers).
Proof.
  intros (Hs & Hb & Hc & Hh). destruct (responseFromCalloutHeaders unicode hs) as [status headers] eqn:E.
  split_and!; [done|by left|]. cbn [McpCatalog.rp_header relay McpGateway.rp_headers].
  apply Forall_forall. intros n Hn. rewrite copied_get; [|done|done|].
  - rewrite Forall_forall in Hh. rewrite (Hh n Hn), <- (forwarded_value hs n Hn). by rewrite E.
  - revert n Hn. apply Forall_forall. by repeat constructor.
Qed.

(** A reply written as JSON. *)
Lemma written_same status v (hs : list (string * string)) h :
  marshal_response v <> None ->
  Forall (fun n => h_Get (h_Set "content-type" "application/json" h) n =
                   headerValue unicode (("content-type", "application/json") :: hs) n) reply_names ->
  same_reply (write_json h status (marshal_response v)) (writeTransitJSON status v hs).
Proof.
  intros Hm Hh. unfold writeTransitJSON. destruct (marshal_response v) as [b|]; [|done].
  split_and!; [done|by right|done].
Qed.

Lemma plain_same status v : marshal_response v <> None ->
  same_reply (writeJSON status v) (writeTransitJSON status v []).
Proof. intros Hm. apply written_same; [done|]. by repeat constructor. Qed.

(** *** Requests *)

(** The header map and the header list built from the same four values. *)
Lemma built_headers_same u s p c e :
  Forall (fun n =>
    h_Get (set_nonempty "x-mcp-credential-envelope" e (set_nonempty "x-mcp-credential-ref" c
             (set_nonempty ProtocolVersionHeader p (set_nonempty SessionIDHeader s
               (h_Set "accept" "application/json" (h_Set "content-type" "application/json" ∅)))))) n =
    headerValue unicode
      ([(":method", "POST"); (":path", u_RequestURI u); (":scheme", u_Scheme u); ("host", u_Host u);
        ("content-type", "application/json"); ("accept", "application/json")] ++
       nonempty_header SessionIDHeader s ++ nonempty_header ProtocolVersionHeader p ++
       nonempty_header "x-mcp-credential-ref" c ++ nonempty_header "x-mcp-credential-envelope" e) n) carried.
Proof.
  unfold set_nonempty, nonempty_header.
  destruct (decide (s <> "")), (decide (p <> "")), (decide (c <> "")), (decide (e <> ""));
    repeat constructor; vm_compute; reflexivity.
Qed.

(** The request for a server of the profile, in the two implementations. *)
Lemma forward_same r tr body sid server cat s use u :
  h_Get (cq_header r) ProtocolVersionHeader = headerValue unicode (tr_headers tr) ProtocolVersionHeader ->
  url_Parse (catalogURL (ps_URL server) sid) = inr u ->
  exists hq q, forwardProfileServerNetHTTP r body sid server s use = inr hq /\
    profileToolCallCalloutRequest unicode config tr body sid server cat (if use then s else "") = inr q /\
    same_request hq q.
Proof.
  intros Hp Hu. unfold forwardProfileServerNetHTTP, profileToolCallCalloutRequest. rewrite Hu.
  do 2 eexists. split_and!; [done|done|]. exists u. split_and!; [done|done|done|].
  rewrite Hp. unfold profile_headers. cbn [sq_header rq_Headers].
  pose proof (built_headers_same u (if use then s else "") (headerValue unicode (tr_headers tr) ProtocolVersionHeader)
    (CredentialRef server) (CredentialEnvelope server)) as Hb.
  by destruct use.
Qed.

(** *** The loops *)

Lemma hrun_bind_done {A B : Type} (p : hprog A) (g : A -> B) : forall answers q a,
  hrun p answers = Some (q, a) -> hrun (hbind p (fun a => Done (g a))) answers = Some (q, g a).
Proof.
  induction p as [a'|req k IH]; intros answers q a; destruct answers as [|x answers]; cbn; try done.
  - by intros [= <- <-].
  - destruct (hrun (k x) answers) as [[q' a']|] eqn:E; [|done]. cbn. intros [= <- <-].
    by rewrite (IH x _ _ _ E).
Qed.

(** What an answer contributes does not depend on the implementation. *)
Lemma init_answer_same sid a resp : same_settled a resp ->
  (init_answer a).2 = (init_response unicode sid resp).2.
Proof.
  unfold same_settled, init_response. destruct a as [e|[status h [e|body]]]; cbn [same_answer sp_body].
  - by intros ->.
  - by intros ->.
  - intros [Hf (Hs & Hb & _ & Hh)]. apply not_true_is_false in Hf. rewrite Hf.
    destruct (responseFromCalloutHeaders unicode (Headers resp)) as [st hs]. cbn in Hs. subst st.
    cbn [init_answer sp_body sp_status]. case_decide; [done|]. rewrite Hb.
    rewrite Forall_forall in Hh. rewrite <- (Hh SessionIDHeader) by (right; left).
    by destruct (decodeInitializeResult body).
Qed.

Lemma list_answer_same profile sid server a resp : p_Servers profile !! sid = Some server ->
  same_settled a resp -> (list_answer sid server a).2 = (list_response unicode profile sid resp).2.
Proof.
  intros Hs. unfold same_settled, list_response. rewrite (lookup_total_correct _ _ _ Hs).
  destruct a as [e|[status h [e|body]]]; cbn [same_answer sp_body].
  - by intros ->.
  - by intros ->.
  - intros [Hf (Hst & Hb & _ & _)]. apply not_true_is_false in Hf. rewrite Hf.
    destruct (responseFromCalloutHeaders unicode (Headers resp)) as [st hs]. cbn in Hst. subst st.
    cbn [list_answer sp_body sp_status]. case_decide; [done|]. rewrite Hb.
    by destruct (mergeToolsResult sid server body).
Qed.

Section requests.
Context (r : client_request) (tr : transitRequest) (profile : Profile).
Hypothesis same_protocol :
  h_Get (cq_header r) ProtocolVersionHeader = headerValue unicode (tr_headers tr) ProtocolVersionHeader.
(** The URL of every server of the profile parses. *)
Hypothesis urls_parse : forall sid server, p_Servers profile !! sid = Some server ->
  exists u, url_Parse (catalogURL (ps_URL server) sid) = inr u.

Lemma callout_loop_total body session active ids :
  exists reqs, callout_loop unicode config tr body profile session active ids = inr reqs.
Proof.
  induction ids as [|sid ids [reqs IH]]; cbn [callout_loop]; [by eexists|].
  destruct (p_Servers profile !! sid) as [server|] eqn:Hs; [|by eexists].
  destruct (urls_parse sid server Hs) as [u Hu]. unfold profileToolCallCalloutRequest. rewrite Hu, IH.
  by eexists.
Qed.

(** One server of the loop that builds the callouts. *)
Lemma callout_step body session active sid server ids reqs :
  p_Servers profile !! sid = Some server ->
  callout_loop unicode config tr body profile session active (sid :: ids) = inr reqs ->
  exists hq q rest,
    forwardProfileServerNetHTTP r body sid server (default "" (Backends session !! sid)) active = inr hq /\
    callout_loop unicode config tr body profile session active ids = inr rest /\
    reqs = (q, sid) :: rest /\ same_request hq q.
Proof.
  intros Hs. destruct (urls_parse sid server Hs) as [u Hu]. cbn [callout_loop]. rewrite Hs.
  destruct (forward_same r tr body sid server (CatalogServers config !!! sid)
    (default "" (Backends session !! sid)) active u same_protocol Hu) as (hq & q & Eh & -> & Hsame).
  destruct (callout_loop unicode config tr body profile session active ids) as [e|rest]; [done|].
  intros [= <-]. eauto 10.
Qed.

Lemma initialize_loop_same body ids : forall acc acc' answers responses reqs,
  (forall sid, sid ∈ ids -> is_Some (p_Servers profile !! sid)) -> acc.2 = acc'.2 ->
  callout_loop unicode config tr body profile (mkProfileSession "" ∅) false ids = inr reqs ->
  Forall2 same_settled answers responses -> length responses = length reqs ->
  exists hreqs rs,
    hrun (initialize_loop config r body profile ids acc) answers =
      Some (hreqs, (rs, (foldl (init_fold unicode) acc' (zip reqs.*2 responses)).2)) /\
    Forall2 same_request hreqs reqs.*1.
Proof.
  induction ids as [|sid ids IH]; intros acc acc' answers responses reqs Hids Hacc Hl Hf Hlen.
  { injection Hl as <-. destruct responses; [|done]. apply Forall2_nil_inv_r in Hf as ->.
    exists [], acc.1. destruct acc; cbn in *. by subst. }
  destruct (Hids sid) as [server Hs]; [left|].
  destruct (callout_step _ _ _ _ _ _ _ Hs Hl) as (hq & q & rest & Eh & Hrest & -> & Hsame).
  destruct responses as [|resp responses]; [done|].
  apply Forall2_cons_inv_r in Hf as (a & answers' & Ha & Hf & ->). injection Hlen as Hlen.
  cbn [initialize_loop]. rewrite (lookup_total_correct _ _ _ Hs). cbn [Backends] in Eh.
  rewrite lookup_empty in Eh. cbn [default] in Eh. rewrite Eh. cbn [try_do hrun].
  pose proof (init_answer_same sid a resp Ha) as Hsess.
  destruct (init_answer a) as [state session]. cbn in Hsess. subst session.
  destruct (IH (acc.1 ++ record_known config sid state,
                match (init_response unicode sid resp).2 with Some v => <[sid := v]> acc.2 | None => acc.2 end)
              (init_fold unicode acc' (sid, resp)) answers' responses rest) as (hreqs & rs & Hrun & Hreqs);
    [intros; apply Hids; by right| |done|done|done|].
  2: { rewrite Hrun. exists (hq :: hreqs), rs. split; [done|]. by constructor. }
  unfold init_fold. cbn [fst snd]. destruct (init_response unicode sid resp) as [st v]. cbn. by rewrite Hacc.
Qed.

Lemma list_loop_same body session active ids : forall acc answers responses reqs,
  callout_loop unicode config tr body profile session active ids = inr reqs ->
  Forall2 same_settled answers responses -> length responses = length reqs ->
  exists hreqs rs,
    hrun (list_loop config r body profile session active ids acc) answers =
      Some (hreqs, (rs, acc.2 ++ mjoin ((fun x => (list_response unicode profile x.1 x.2).2) <$>
                                        zip reqs.*2 responses))) /\
    Forall2 same_request hreqs reqs.*1.
Proof.
  induction ids as [|sid ids IH]; intros acc answers responses reqs Hl Hf Hlen.
  { injection Hl as <-. destruct responses; [|done]. apply Forall2_nil_inv_r in Hf as ->.
    exists [], acc.1. destruct acc; cbn. by rewrite app_nil_r. }
  cbn [list_loop]. destruct (p_Servers profile !! sid) as [server|] eqn:Hs.
  2: { cbn [callout_loop] in Hl. rewrite Hs in Hl. by apply IH. }
  destruct (callout_step _ _ _ _ _ _ _ Hs Hl) as (hq & q & rest & Eh & Hrest & -> & Hsame).
  destruct responses as [|resp responses]; [done|].
  apply Forall2_cons_inv_r in Hf as (a & answers' & Ha & Hf & ->). injection Hlen as Hlen.
  rewrite Eh. cbn [try_do hrun]. pose proof (list_answer_same profile sid server a resp Hs Ha) as Ht.
  destruct (list_answer sid server a) as [state tools]. cbn in Ht. subst tools.
  destruct (IH (acc.1 ++ record_known config sid state, acc.2 ++ (list_response unicode profile sid resp).2)
              answers' responses rest)
    as (hreqs & rs & Hrun & Hreqs); [done|done|done|].
  rewrite Hrun. exists (hq :: hreqs), rs. split; [|by constructor]. cbn. by rewrite <- app_assoc.
Qed.

Hypothesis responses_marshal : forall v, marshal_response v <> None.

Lemma initialize_same id body profileID :
  same_gateway (initializeProfileNetHTTP config r id body profileID profile)
    (initializeProfileTransit unicode config tr id body profileID profile).
Proof.
  unfold initializeProfileTransit, profileCalloutRequests. cbn [Backends].
  rewrite bool_decide_false by (intros Hn; by apply Hn).
  destruct (callout_loop_total body (mkProfileSession "" ∅) false
    (sortedProfileServerIDs (p_Servers profile))) as [reqs Hl]. rewrite Hl.
  intros answers responses Hf Hlen. rewrite length_fmap in Hlen.
  destruct (initialize_loop_same body (sortedProfileServerIDs (p_Servers profile)) ([], ∅) ([], ∅) answers responses reqs) as (hreqs & rs & Hrun & Hreqs);
    [|done|exact Hl|done|done|].
  { intros sid Hin. unfold sortedProfileServerIDs, sort_Strings in Hin. rewrite merge_sort_Permutation in Hin.
    apply elem_of_elements, elem_of_dom in Hin. done. }
  exists hreqs. do 2 eexists. unfold initializeProfileNetHTTP.
  split; [by apply (hrun_bind_done _ (fun acc => (acc.1, initialize_reply id profileID acc.2)))|].
  split; [done|]. unfold initialized. destruct (foldl (init_fold unicode) ([], ∅) _) as [rs' backends].
  cbn [snd]. unfold initialize_reply. case_decide; [by apply plain_same|].
  destruct (encodeProfileSession profileID backends) as [sessionID|]; [|by apply plain_same].
  apply written_same; [done|]. by repeat constructor.
Qed.

(** Listing the tools in a session, once the session is decoded. *)
Lemma list_session_same id body session order order' :
  marshal_request (mkRequest (cloneRaw id) MethodToolsList []) = Some body ->
  (Backends session <> ∅ -> order' = order) ->
  exists reqs, profileCalloutRequests unicode config tr body profile session order' = inr reqs /\
  same_gateway
    (hbind (listProfileToolsNetHTTP config sortTools r id profile session order)
       (fun acc => Done (acc.1, writeJSON StatusOK
          (McpRouter.mkResponse (cloneRaw id) (Some (ResTools acc.2)) None))))
    (Settle reqs.*1
       (fun responses =>
          let '(rs, tools) := listed unicode sortTools id profile reqs.*2 responses in
          (rs, writeTransitJSON StatusOK (McpRouter.mkResponse (cloneRaw id) (Some (ResTools tools)) None) []))
       ([], fail StatusBadGateway id (-32002) "tools/list failed")).
Proof.
  intros Hb Hord. unfold profileCalloutRequests, listProfileToolsNetHTTP, toolsListRequestBody. rewrite Hb.
  set (active := bool_decide (Backends session <> ∅)).
  set (ids := if active then sortedStringKeys order else sortedProfileServerIDs (p_Servers profile)).
  assert ((if active then sortedStringKeys order' else sortedProfileServerIDs (p_Servers profile)) = ids) as ->.
  { subst ids active. case_bool_decide as Hne; [by rewrite Hord|done]. }
  destruct (callout_loop_total body session active ids) as [reqs Hl]. exists reqs. split; [done|].
  intros answers responses Hf Hlen. rewrite length_fmap in Hlen.
  destruct (list_loop_same body session active ids ([], []) answers responses reqs Hl Hf Hlen)
    as (hreqs & rs & Hrun & Hreqs).
  exists hreqs. do 2 eexists. split.
  { apply (hrun_bind_done _ (fun acc : records * list Tool => (acc.1, writeJSON StatusOK
      (McpRouter.mkResponse (cloneRaw id) (Some (ResTools acc.2)) None)))).
    by apply (hrun_bind_done _ (fun acc : records * list Tool => (acc.1, sortTools acc.2))). }
  split; [done|]. unfold listed. rewrite <- !list_fmap_compose. cbn [fst snd app]. by apply plain_same.
Qed.

Lemma list_tools_same id profileID order :
  marshal_request (mkRequest (cloneRaw id) MethodToolsList []) <> None ->
  let sessionID := headerValue unicode (tr_headers tr) SessionIDHeader in
  same_gateway
    (match (if decide (sessionID <> "") then decodeProfileSession profileID sessionID
            else Some (mkProfileSession "" ∅)) with
     | None => Done ([], writeJSON StatusBadRequest (errorResponse id (-32010) "invalid MCP session ID"))
     | Some session =>
         hbind (listProfileToolsNetHTTP config sortTools r id profile session (order (Backends session)))
           (fun acc => Done (acc.1, writeJSON StatusOK
                (McpRouter.mkResponse (cloneRaw id) (Some (ResTools acc.2)) None)))
     end)
    (listProfileToolsTransit unicode config sortTools tr id profileID profile
       (match decodeProfileSession profileID sessionID with
        | Some session => order (Backends session) | None => [] end)).
Proof.
  intros Hm sessionID. unfold listProfileToolsTransit. fold sessionID.
  destruct (marshal_request _) as [body|] eqn:Hb; [clear Hm|done].
  unfold toolsListRequestBody. rewrite Hb. case_decide as Hne.
  - destruct (decodeProfileSession profileID sessionID) as [session|].
    + by destruct (list_session_same id body session (order (Backends session)) (order (Backends session)) Hb)
        as (reqs & -> & Hg).
    + exists []. eexists. split; [done|]. by apply plain_same.
  - set (o := match decodeProfileSession profileID sessionID with
              | Some session => order (Backends session) | None => [] end).
    by destruct (list_session_same id body (mkProfileSession "" ∅) (order ∅) o Hb) as (reqs & -> & Hg).
Qed.

Lemma call_tool_same id params session order :
  order ≡ₚ map_to_list (p_Servers profile) ->
  same_gateway (callProfileToolNetHTTP unicode config header_order r id params profile session order)
    (callProfileToolTransit unicode config tr id params profile session order).
Proof.
  intros Hord. unfold callProfileToolNetHTTP, callProfileToolTransit.
  destruct (resolveProfileTool params profile order) as [[code msg]|[[sid tool] cp]] eqn:Hr.
  { do 2 eexists. split; [done|]. by apply plain_same. }
  destruct (Backends session !! sid) as [backend|].
  2: { do 2 eexists. split; [done|]. by apply plain_same. }
  destruct (toolCallForwardBody id tool cp) as [body|].
  2: { do 2 eexists. split; [done|]. by apply plain_same. }
  destruct (resolve_known _ _ _ _ _ _ Hord Hr) as [server Hs].
  rewrite (lookup_total_correct _ _ _ Hs). destruct (urls_parse sid server Hs) as [u Hu].
  destruct (forward_same r tr body sid server (CatalogServers config !!! sid) backend true u same_protocol Hu)
    as (hq & q & Eh & Eq & Hsame). rewrite Eh, Eq. cbn [try_do]. exists hq. eexists.
  split_and!; [done|done|]. intros a d Hd. unfold same_delivery in Hd.
  destruct a as [e|[status h [e|b]]]; cbn [same_answer sp_body] in Hd.
  - rewrite decide_True by done. do 2 eexists. split; [done|]. by apply plain_same.
  - rewrite decide_True by done. do 2 eexists. split; [done|]. by apply plain_same.
  - destruct Hd as [Hd Hsr]. rewrite decide_False by done. do 2 eexists. split; [done|].
    by apply relay_same.
Qed.
End requests.

(** *** The gateways *)

(** C31: the Envoy filter and the [net/http] implementation of the profile gateway are the same
    gateway.  For a request whose headers and body they see alike, to a profile that the
    URLs of its servers and the JSON encoder do not fail, they send the same requests to the
    same servers, in the same order and with the same sessions and credentials, and give the
    client the same status, body and protocol headers for the same answers of the servers,
    whatever these answers are: refusals, failures of some or all servers, bad sessions,
    unknown tools. *)
Theorem net_http_twin_agrees profileID r tr body session_order
    (server_order : gmap string ProfileServer -> list (string * ProfileServer)) :
  cq_body r = inr body ->
  (forall n, n ∈ [SessionIDHeader; ProtocolVersionHeader; "x-api-key"; "authorization"] ->
     h_Get (cq_header r) n = headerValue unicode (tr_headers tr) n) ->
  (forall servers, server_order servers ≡ₚ map_to_list servers) ->
  (forall profile sid server, Profiles config !! profileID = Some profile ->
     p_Servers profile !! sid = Some server -> exists u, url_Parse (catalogURL (ps_URL server) sid) = inr u) ->
  (forall v, marshal_response v <> None) -> (forall v, marshal_request v <> None) ->
  same_gateway
    (handleProfileNetHTTP unicode config header_order sortTools profileID r session_order server_order)
    (calloutProfileTransit unicode config sortTools tr body (profileID, Profiles config !! profileID) session_order
       (match Profiles config !! profileID with Some p => server_order (p_Servers p) | None => [] end)).
Proof.
  intros Hbody Hhdr Hord Hurls Hresp Hreq. unfold handleProfileNetHTTP, calloutProfileTransit.
  assert (forall status v, same_gateway (Done ([], writeJSON status v))
    (Answer ([], writeTransitJSON status v []))) as Hplain.
  { intros status v. do 2 eexists. split; [done|]. by apply plain_same. }
  destruct (Profiles config !! profileID) as [profile|] eqn:Hp; [|apply Hplain].
  specialize (Hurls profile). rewrite Hbody.
  assert (profileAuthorized (p_APIKey profile) (h_Get (cq_header r)) =
          profileAuthorized (p_APIKey profile) (headerValue unicode (tr_headers tr))) as ->.
  { unfold profileAuthorized. by rewrite !Hhdr by (by apply (bool_decide_unpack _)). }
  destruct (negb _); [apply Hplain|]. destruct (gw_request body) as [rpc|]; [|apply Hplain].
  rewrite (Hhdr SessionIDHeader) by (by apply (bool_decide_unpack _)).
  assert (h_Get (cq_header r) ProtocolVersionHeader = headerValue unicode (tr_headers tr) ProtocolVersionHeader)
    as Hproto by (apply Hhdr; by apply (bool_decide_unpack _)).
  case_decide; [apply initialize_same; eauto|]. case_decide; [apply list_tools_same; eauto|].
  case_decide; [|apply Hplain]. case_decide; [apply Hplain|].
  destruct (decodeProfileSession profileID _) as [session|]; [|apply Hplain].
  apply call_tool_same; eauto.
Qed.

Lemma copy_or_value k d from h :
  copy_or k d from h = h_Set k (if decide (h_Get from k <> "") then h_Get from k else d) h.
Proof.
  unfold copy_or. assert (forall v, h_Get (h_Set k v h) k = v) as Hset.
  { intros v. unfold h_Get, h_Set. by rewrite lookup_insert_eq. }
  rewrite Hset. destruct (decide (h_Get from k = "")) as [E|E].
  - rewrite decide_False by (intros Hn; by apply Hn). unfold h_Set. by rewrite insert_insert_eq.
  - by rewrite decide_True.
Qed.

(** The same for a request to a server of the catalog by its own path; here even a URL that
    does not parse is answered alike. *)
Theorem net_http_catalog_agrees serverID r tr body :
  cq_body r = inr body ->
  (forall n, n ∈ ["content-type"; "accept"; SessionIDHeader; ProtocolVersionHeader] ->
     h_Get (cq_header r) n = headerValue unicode (tr_headers tr) n) ->
  (forall v, marshal_response v <> None) ->
  same_gateway (handleCatalogServerNetHTTP unicode config header_order serverID r)
    (calloutCatalogServerTransit unicode config tr body (serverID, CatalogServers config !! serverID)).
Proof.
  intros Hbody Hhdr Hresp. unfold handleCatalogServerNetHTTP, calloutCatalogServerTransit.
  destruct (CatalogServers config !! serverID) as [server|].
  2: { do 2 eexists. split; [done|]. by apply plain_same. }
  unfold forwardCatalogNetHTTP, catalogCalloutRequest. rewrite Hbody.
  destruct (url_Parse (catalogURL (cat_URL server) serverID)) as [e|u] eqn:Hu; cbn [try_do].
  { do 2 eexists. split; [done|]. by apply plain_same. }
  do 2 eexists. split_and!; [done| |].
  - exists u. split_and!; [done|done|done|]. cbn [sq_header rq_Headers].
    rewrite !copy_or_value. unfold copy_nonempty, headerOrDefault, nonempty_header.
    rewrite !Hhdr by (by apply (bool_decide_unpack _)).
    repeat case_decide; repeat constructor; vm_compute; reflexivity.
  - intros a d Hd. unfold same_delivery in Hd. destruct a as [e|[status h [e|b]]]; cbn [same_answer sp_body] in Hd.
    + rewrite decide_True by done. do 2 eexists. split; [done|]. by apply plain_same.
    + rewrite decide_True by done. do 2 eexists. split; [done|]. by apply plain_same.
    + destruct Hd as [Hd Hsr]. rewrite decide_False by done. do 2 eexists. split; [done|].
      by apply relay_same.
Qed.
End agree.

(** ** Witness *)

Definition init_client : client_request :=
  mkClientRequest ∅ (inr (String.list_byte_of_string "initialize")).

Definition ok_answer : answer :=
  inr (mkServerResponse 200 {["Mcp-Session-Id" := ["s1"]]} (inr [])).

Definition envoy_header (n v : string) : UnsafeEnvoyBuffer * UnsafeEnvoyBuffer :=
  (mkBuf None (String.list_byte_of_string n), mkBuf None (String.list_byte_of_string v)).

Definition ok_settled : HTTPCalloutAllSettledResponse :=
  mkSettled 0 0 None (Some [envoy_header ":status" "200"; envoy_header SessionIDHeader "s1"]) None.

Lemma net_http_twin_agrees_witness :
  let U := toy_url in let J := toy_json in
  exists hreqs rs rp sessionID,
    hrun (handleProfileNetHTTP fold_spec toy_config map_to_list (fun l => l) "team" init_client
            (fun b => elements (dom b)) map_to_list) [ok_answer] = Some (hreqs, (rs, rp)) /\
    length hreqs = 1 /\ McpCatalog.rp_status rp = 200%Z /\
    encodeProfileSession "team" {["gh" := "s1"]} = Some sessionID /\
    h_Get (McpCatalog.rp_header rp) SessionIDHeader = sessionID.
Proof.
  intros U J.
  destruct (@net_http_twin_agrees toy_url toy_json fold_spec toy_config map_to_list (fun l => l)
    (fun s t => ltac:(rewrite !EqualFold_spec; unfold fold_spec; apply bool_decide_ext; split; congruence))
    (fun s t u => ltac:(rewrite !EqualFold_spec; unfold fold_spec; rewrite !bool_decide_eq_true; congruence))
    (fun h => reflexivity _) "team" init_client list_request (String.list_byte_of_string "initialize")
    (fun b => elements (dom b)) map_to_list) with (answers := [ok_answer]) (responses := [ok_settled])
    as (hreqs & rs & rp & Hrun & Hreqs & Hst & _ & Hh).
  - reflexivity.
  - apply Forall_forall. by repeat constructor.
  - done.
  - intros. by eexists.
  - done.
  - done.
  - constructor; [|constructor]. split; [vm_compute; discriminate|].
    split_and!; [vm_compute; reflexivity|reflexivity|by apply map_Forall_singleton|].
    repeat constructor; vm_compute; reflexivity.
  - reflexivity.
  - exists hreqs, rs, rp. eexists. split; [exact Hrun|]. split_and!.
    + apply Forall2_length in Hreqs. rewrite Hreqs. reflexivity.
    + rewrite Hst. vm_compute. reflexivity.
    + vm_compute. reflexivity.
    + apply Forall_cons in Hh as [_ [Hh _]%Forall_cons]. rewrite Hh. vm_compute. reflexivity.
Defined.
