(* ===== verification/LlmDecider.v ===== *)
(** * LlmDecider: routing by the verdict of a judge model (examples/llm-decider)

    A body handler asks a judge, from a goroutine, which model should serve the request and
    stamps the decision on the request; a cluster then selects the host of the decided model
    and an access logger reports it.  The routing core (github.com/dio/libsygo) is a
    parameter: its [Route] is a tree that ends with an outcome or asks the [Decider] one
    question and goes on with the answer.  The goroutine runs as in GoPath.v. *)
From stdpp Require Import base list gmap strings relations pretty.
From Stdlib Require Import ZArith Lia Ascii.
From S2P Require Import Prelude GoStrings Async StreamObject Envoy FilterState Filter FlushProps HostSet HostSetProps HostRefresh Finalized Goroutine GoPath McpGateway.
#[local] Open Scope Z_scope.

(** ** internal/config/config.go *)

(** A [float64] is its bits, a [time.Duration] its nanoseconds. *)
Record Config := mkConfig {
  JudgeCluster : string;
  JudgePath : string;
  JudgeHost : string;
  JudgeTimeout : Z;
  Cutoff : Z;
  CapableModel : string;
  EfficientModel : string;
  JudgeModel : string;
  FailOpen : bool;
}.

(** The bits of 0.4. *)
Definition float_0_4 : Z := 4600877379321698714.

Section env.
(** [os.Getenv], and [strconv.ParseFloat] without its error. *)
Context (Getenv : string -> string) (ParseFloat : string -> option Z).

Definition env (key fallback : string) : string :=
  if decide (Getenv key <> "") then Getenv key else fallback.

Definition envInt (key : string) (fallback : Z) : Z :=
  if decide (Getenv key <> "") then default fallback (Atoi (Getenv key)) else fallback.

Definition envFloat (key : string) (fallback : Z) : Z :=
  if decide (Getenv key <> "") then default fallback (ParseFloat (Getenv key)) else fallback.

Definition FromEnv : Config :=
  mkConfig (env "LLM_DECIDER_JUDGE_CLUSTER" "llm-decider-judge") (env "LLM_DECIDER_JUDGE_PATH" "/v1/systemone")
    (env "LLM_DECIDER_JUDGE_HOST" "judge.local")
    (int64_of (envInt "LLM_DECIDER_JUDGE_TIMEOUT_MS" 5000 * 1000000))
    (envFloat "LLM_DECIDER_CUTOFF" float_0_4)
    (env "LLM_DECIDER_CAPABLE_MODEL" "smart") (env "LLM_DECIDER_EFFICIENT_MODEL" "cheap")
    (env "LLM_DECIDER_JUDGE_MODEL" "jev-latest")
    (bool_decide (env "LLM_DECIDER_FAIL_OPEN" "true" <> "false")).
End env.

(** [Profile()] and [Models()]: what the routing core is built from. *)
Record Judge := mkJudge { j_Type : string; j_Cutoff : Z; Candidates : gmap string string }.
Record Profile := mkProfile {
  pr_ID : string;
  Algorithm : string;
  Mode : string;
  pr_FailOpen : bool;
  SessionAffinity : bool;
  pr_Judge : Judge;
}.

Definition FilterID : string := "llm-decider/default".

Definition Config_Profile (c : Config) : Profile :=
  mkProfile FilterID "llm_classifier" "capability" (FailOpen c) true
    (mkJudge "decision" (Cutoff c) {["a" := CapableModel c; "b" := EfficientModel c]}).

Definition Models (c : Config) : gmap string (list string) :=
  {["capable" := [CapableModel c]; "efficient" := [EfficientModel c]; "judge" := [JudgeModel c];
    "any" := [EfficientModel c; CapableModel c]]}.

(** ** llm_decider.go *)

Definition HeaderDecidedModel : string := "x-llm-decided-model".
Definition HeaderDecisionSource : string := "x-llm-decision-source".
Definition HeaderDecisionError : string := "x-llm-decision-error".
Definition HeaderSession : string := "x-switchyard-session-id".

(** The parts of libsygo and jev the module calls. *)
Class Sygo := {
  LlmRequest : Type;
  DecisionRequest : Type;
  DecisionResponse : Type;
  DecodeOpenAIChat : bytes -> string + LlmRequest;
  message_count : LlmRequest -> nat;
  EncodeRequest : DecisionRequest -> string + bytes;
  DecodeResponse : bytes -> DecisionRequest -> string + DecisionResponse;
  (** the [source] of the evidence, when it decodes *)
  evidence_source : bytes -> option string;
}.

Section decider.
Context `{Sygo} (cfg : Config).

Record Turn := mkTurn { t_Request : LlmRequest; t_Session : string }.

Record Outcome := mkOutcome {
  o_Error : string;
  o_Model : string;
  Latched : bool;
  Evidence : bytes;
}.

(** [Router.Route] as it uses the [Decider]. *)
Inductive routing :=
  | RDone (o : Outcome)
  | RCall (req : DecisionRequest) (k : string + DecisionResponse -> routing).

Context (Route : Turn -> routing).

(** [requestFromBody]. *)
Definition requestFromBody (body : bytes) : string + LlmRequest :=
  if decide (body = []) then inl "request has no body to decide on"
  else match DecodeOpenAIChat body with
       | inl err => inl ("normalizing request body: " +:+ err)
       | inr request =>
           if decide (message_count request = 0%nat)
           then inl ("request body must carry a non-empty " +:+ Quote "messages" +:+ " array")
           else inr request
       end.

Definition decisionSource (o : Outcome) : string :=
  match evidence_source (Evidence o) with
  | Some src => if decide (src <> "") then src else if Latched o then "retained" else ""
  | None => if Latched o then "retained" else ""
  end.

(** [applyOutcome], inside the goroutine. *)
Definition applyOutcome (o : Outcome) : list act :=
  if decide (o_Error o <> "") then [ASetRequestHeader HeaderDecisionError (o_Error o)]
  else ASetRequestHeader HeaderDecidedModel (o_Model o) ::
       (if decide (decisionSource o <> "")
        then [ASetRequestHeader HeaderDecisionSource (decisionSource o)] else []).

(** *** callout.go: [judgeDecider.Call] *)

(** The callout for an encoded question; [Milliseconds] divides towards zero and the
    conversion to [uint64] wraps. *)
Definition judge_request (body : bytes) : HTTPCalloutRequest :=
  mkReq (JudgeCluster cfg)
    [(":method", "POST"); (":path", JudgePath cfg); (":scheme", "http"); ("host", JudgeHost cfg);
     ("content-type", "application/json")]
    body (uint64_of (Z.quot (JudgeTimeout cfg) 1000000)).

(** What [Call] makes of the answer of [Do]. *)
Definition judge_answer (req : DecisionRequest) (r : HTTPCalloutResponse + string) : string + DecisionResponse :=
  match r with
  | inr err => inl ("judge callout: " +:+ err)
  | inl resp =>
      if decide (rs_Result resp <> HTTPCalloutSuccess)
      then inl ("judge callout failed with result " +:+ pretty (rs_Result resp))
      else match DecodeResponse (calloutBodyBytes (rs_Body resp)) req with
           | inl err => inl ("decoding judge response: " +:+ err)
           | inr decoded => inr decoded
           end
  end.

(** The goroutine: the routing core with [Call] as its [Decider], then [applyOutcome]. *)
Fixpoint decide_body (rt : routing) : gprog :=
  match rt with
  | RDone o => foldr GAct GRet (applyOutcome o)
  | RCall req k =>
      match EncodeRequest req with
      | inl err => decide_body (k (inl ("encoding judge request: " +:+ err)))
      | inr body => GDo (judge_request body) (fun r => decide_body (k (judge_answer req r)))
      end
  end.

(** *** The handlers *)

Definition sessionHandler (_ : Request) : prog :=
  PQuery (QHeader HeaderSession) (fun v => PAct (ASetContext (VString v)) PRet).

Definition session_of (context : any) : string := match context with VString s => s | _ => "" end.

Definition decideHandler (chunk : BodyChunk) : prog :=
  if negb (bc_EndStream chunk) then PRet
  else match requestFromBody (bc_Data chunk) with
       | inl err => PAct (ASetRequestHeader HeaderDecisionError err) PRet
       | inr request =>
           PQuery QContext (fun context => PGo (decide_body (Route (mkTurn request (session_of context)))) PRet)
       end.

(** upstream.go. *)
Definition upstreamHandler (_ : Request) : prog :=
  PQuery (QHeader HeaderDecidedModel) (fun model =>
    if decide (model = "") then PRet
    else PAct (ASetRequestHeader "x-llm-target-model" model)
           (PQuery (QHeader HeaderDecisionSource) (fun source =>
              if decide (source <> "") then PAct (ASetRequestHeader "x-llm-decision-source" source) PRet
              else PRet))).
End decider.

(** ** access_log.go *)

(** What [OnLog] prints of a completed stream: model, source, error and status; a missing
    header is the empty buffer and false. *)
Definition OnLog (GetHeader : string -> option string) (code : Z) (logType : Z) :
    option (string * string * string * Z) :=
  if decide (logType <> AccessLogTypeDownstreamEnd) then None
  else
    let header n := default "" (GetHeader n) in
    if bool_decide (GetHeader HeaderDecidedModel = None) && bool_decide (header HeaderDecidedModel = "") then None
    else Some (header HeaderDecidedModel, header HeaderDecisionSource, header HeaderDecisionError, code).

(** ** cluster.go *)

Record clusterHost := mkClusterHost { ch_Address : string; ch_Model : string; ch_Hostname : string }.

Inductive cluster_error :=
  | NoHosts
  | ParseConfig (err : string)
  | AddressRequired (i : nat)
  | ModelRequired (i : nat).

Fixpoint check_hosts (i : nat) (hosts : list clusterHost) : option cluster_error :=
  match hosts with
  | [] => None
  | host :: hosts =>
      if decide (ch_Address host = "") then Some (AddressRequired i)
      else if decide (ch_Model host = "") then Some (ModelRequired i)
      else check_hosts (S i) hosts
  end.

(** [unmarshal] is [json.Unmarshal] into a [clusterConfig]. *)
Definition parseClusterHosts (unmarshal : bytes -> string + list clusterHost) (config : bytes) :
    cluster_error + list clusterHost :=
  if decide (config = []) then inl NoHosts
  else match unmarshal config with
       | inl err => inl (ParseConfig err)
       | inr hosts =>
           if decide (hosts = []) then inl NoHosts
           else match check_hosts 0 hosts with Some e => inl e | None => inr hosts end
       end.

Record modelCluster := mkModelCluster { mc_hosts : list clusterHost; byModel : gmap string HostPtr }.

Definition host_spec (host : clusterHost) : HostSpec :=
  mkSpec (ch_Address host) (ch_Hostname host) 0 {["model" := ch_Model host]}.

(** The loop of [Init]; [c.hosts[i]] panics when the cluster returns more pointers than hosts
    were added. *)
Fixpoint init_loop {C} `{ClusterHandle C} (hosts : list clusterHost) (ptrs : list HostPtr)
    (m : gmap string HostPtr) (c : C) : res (gmap string HostPtr * C) :=
  match ptrs with
  | [] => Ok (m, c)
  | ptr :: ptrs =>
      match hosts with
      | [] => Panic "index out of range"
      | host :: hosts => init_loop hosts ptrs (<[ch_Model host := ptr]> m) (UpdateHostHealth ptr HostHealthy c)
      end
  end.

Definition modelCluster_Init {C} `{ClusterHandle C} (mc : modelCluster) (c : C) : res (modelCluster * C) :=
  let '(ptrs, c) := AddHosts (host_spec <$> mc_hosts mc) c in
  r ← init_loop (mc_hosts mc) ptrs ∅ c;
  Ok (mkModelCluster (mc_hosts mc) r.1, r.2).

(** [headerValue]: the first header of exactly this name. *)
Definition headerValue (headers : list (string * string)) (name : string) : string :=
  match list_find (fun h => h.1 = name) headers with Some (_, h) => h.2 | None => "" end.

(** [ChooseHost]; [healthy] is the healthy hosts of priority 0, and 0 the nil pointer. *)
Definition ChooseHost (mc : modelCluster) (healthy : list HostPtr) (headers : list (string * string)) : HostPtr :=
  if decide (healthy = []) then 0
  else
    let first := hd 0 healthy in
    let model := headerValue headers HeaderDecidedModel in
    if decide (model <> "") then default first (byModel mc !! model) else first.

(** ** Lemmas *)

Section decider_lemmas.
Context `{Sygo} (cfg : Config).

(** The routing core ends with outcome [o] when the judge's callouts are answered as in [d]. *)
Inductive routed : routing -> list exchange -> Outcome -> Prop :=
  | rt_done o : routed (RDone o) [] o
  | rt_encode req k err d o : EncodeRequest req = inl err ->
      routed (k (inl ("encoding judge request: " +:+ err))) d o -> routed (RCall req k) d o
  | rt_call req k body r d o : EncodeRequest req = inr body ->
      routed (k (judge_answer req r)) d o -> routed (RCall req k) ((judge_request cfg body, r) :: d) o.

Lemma acts_path E w l : forall n s d l' s', gexec E w n (foldr GAct GRet l) s d l' s' -> d = [] /\ l' = l.
Proof.
  induction l as [|a l IH]; intros n s d l' s'; cbn; [by inversion 1|].
  inversion 1 as [|? ? ? ? ? ? ? ? _ Hp|]; subst. by apply IH in Hp as [-> ->].
Qed.

Lemma acts_plain l : Forall (fun a => plain a = true) l -> all_plain (foldr GAct GRet l).
Proof. induction 1; cbn; by constructor. Qed.

Lemma applyOutcome_plain o : Forall (fun a => plain a = true) (applyOutcome o).
Proof. unfold applyOutcome. repeat case_decide; by repeat constructor. Qed.

Lemma decide_body_plain rt : all_plain (decide_body cfg rt).
Proof.
  induction rt as [o|req k IH]; cbn [decide_body].
  - apply acts_plain, applyOutcome_plain.
  - destruct (EncodeRequest req); [apply IH|]. constructor. intros r. apply IH.
Qed.

(** An execution of the goroutine's program is an outcome of the routing core, applied. *)
Lemma decide_body_path E w rt : forall n s d l s', gexec E w n (decide_body cfg rt) s d l s' ->
  exists o, routed rt d o /\ l = applyOutcome o.
Proof.
  induction rt as [o|req k IH]; intros n s d l s'; cbn [decide_body].
  - intros [-> ->]%acts_path. exists o. split; [constructor|done].
  - destruct (EncodeRequest req) as [err|body] eqn:He.
    + intros (o & Hr & ->)%IH. exists o. split; [by eapply rt_encode|done].
    + inversion 1 as [| |? ? ? r ? d' ? ? Hp]; subst. apply IH in Hp as (o & Hr & ->).
      exists o. split; [by apply rt_call|done].
Qed.
End decider_lemmas.

(** Only the header calls change the header map. *)
Lemma interp_kind tr : forall hs, foldl interp hs tr = foldl interp hs (of_kind KHeader tr).
Proof.
  induction tr as [|c tr IH]; intros hs; cbn [foldl]; [done|]. unfold of_kind. rewrite filter_cons.
  destruct c; cbn; rewrite IH; done.
Qed.

Lemma headerValue_app_r n l v : Forall (fun h => h.1 <> n) l -> headerValue (l ++ [(n, v)]) n = v.
Proof.
  intros Hl. unfold headerValue. induction Hl as [|h l Hh _ IH]; cbn.
  - by rewrite decide_True.
  - rewrite decide_False by done. by destruct (list_find _ (l ++ _)) as [[? ?]|].
Qed.

Lemma headerValue_filter n (P : string * string -> Prop) `{!forall h, Decision (P h)} l :
  (forall h, h.1 = n -> P h) -> headerValue (base.filter P l) n = headerValue l n.
Proof.
  intros HP. unfold headerValue. induction l as [|h l IH]; [done|]. rewrite filter_cons. cbn.
  destruct (decide (h.1 = n)) as [Hn|Hn].
  - rewrite decide_True by auto. cbn. by rewrite decide_True.
  - destruct (decide (P h)); cbn.
    + rewrite decide_False by done. clear -IH.
      destruct (list_find _ (base.filter P l)) as [[? ?]|], (list_find _ l) as [[? ?]|]; done.
    + rewrite IH. by destruct (list_find _ l) as [[? ?]|].
Qed.

Lemma headerValue_other n m v l : m <> n -> headerValue (l ++ [(m, v)]) n = headerValue l n.
Proof.
  intros Hm. unfold headerValue. induction l as [|h l IH]; cbn; [by rewrite decide_False|].
  case_decide; [done|].
  destruct (list_find _ (l ++ _)) as [[? ?]|], (list_find _ l) as [[? ?]|]; done.
Qed.

(** After the calls of a successful decision the first header of its name is the decided
    model, whatever the client had sent. *)
Lemma decided_header `{Sygo} hs o : o_Error o = "" ->
  headerValue (foldl interp hs (of_kind KHeader (path_calls (applyOutcome o)))) HeaderDecidedModel = o_Model o.
Proof.
  intros He. unfold applyOutcome. rewrite decide_False by (intros Hn; by apply Hn).
  assert (forall l : list (string * string),
    Forall (fun h => h.1 <> HeaderDecidedModel)
      (base.filter (fun h => fold_spec h.1 HeaderDecidedModel = false) l)) as Hf.
  { intros l. apply Forall_forall. intros h [Hh _]%list_elem_of_filter Hn. rewrite Hn in Hh. by vm_compute in Hh. }
  case_decide.
  - change (of_kind KHeader _) with [CReqHeaderSet HeaderDecidedModel (o_Model o);
                                     CReqHeaderSet HeaderDecisionSource (decisionSource o)].
    cbn [foldl interp]. rewrite headerValue_other by done. rewrite headerValue_filter.
    + apply headerValue_app_r, Hf.
    + intros h ->. by vm_compute.
  - change (of_kind KHeader _) with [CReqHeaderSet HeaderDecidedModel (o_Model o)].
    cbn [foldl interp]. apply headerValue_app_r, Hf.
Qed.

(** *** The cluster *)

Section cluster_lemmas.
Context {C : Type} `{ClusterHandleLaws C}.

(** [m] maps every model to the last host that serves it. *)
Definition last_host (hosts : list clusterHost) (ptrs : list HostPtr) (m : gmap string HostPtr) : Prop :=
  forall model,
    (exists i h p, hosts !! i = Some h /\ ptrs !! i = Some p /\ ch_Model h = model /\ m !! model = Some p /\
       forall j h', (i < j)%nat -> hosts !! j = Some h' -> ch_Model h' <> model) \/
    ((forall h, h ∈ hosts -> ch_Model h <> model) /\ m !! model = None).

Lemma init_loop_spec (hosts : list clusterHost) : forall (ptrs : list HostPtr) (m : gmap string HostPtr) (c : C),
  length ptrs = length hosts ->
  exists m' c', init_loop hosts ptrs m c = Ok (m', c') /\ live c' = live c /\
    forall model,
      (exists i h p, hosts !! i = Some h /\ ptrs !! i = Some p /\ ch_Model h = model /\ m' !! model = Some p /\
         forall j h', (i < j)%nat -> hosts !! j = Some h' -> ch_Model h' <> model) \/
      ((forall h, h ∈ hosts -> ch_Model h <> model) /\ m' !! model = m !! model).
Proof.
  induction hosts as [|host hosts IH]; intros [|p ptrs] m c Hl; try done.
  { exists m, c. split_and!; [done|done|]. intros model. right. split; [|done]. by intros h Hh%not_elem_of_nil. }
  cbn in Hl. destruct (IH ptrs (<[ch_Model host := p]> m) (UpdateHostHealth p HostHealthy c)) as (m' & c' & E & Hv & Hm);
    [lia|]. exists m', c'. split_and!; [done|by rewrite Hv, health_live|]. intros model.
  destruct (Hm model) as [(i & h & q & H1 & H2 & H3 & H4 & H5)|[Hn Hk]].
  - left. exists (S i), h, q. split_and!; [done..|]. intros [|j] h' Hj Hh; [lia|]. apply (H5 j); [lia|done].
  - destruct (decide (ch_Model host = model)) as [<-|Hne].
    + left. exists 0%nat, host, p. rewrite lookup_insert_eq in Hk. split_and!; [done..|].
      intros [|j] h' Hj Hh; [lia|]. apply Hn. by eapply list_elem_of_lookup_2.
    + right. rewrite lookup_insert_ne in Hk by done. split; [|done].
      intros h [->|Hh]%elem_of_cons; [done|by apply Hn].
Qed.

Lemma Init_spec hosts m0 (c c' : C) mc :
  modelCluster_Init (mkModelCluster hosts m0) c = Ok (mc, c') ->
  mc_hosts mc = hosts /\ last_host hosts (AddHosts (host_spec <$> hosts) c).1 (byModel mc) /\
  forall p, p ∈ (AddHosts (host_spec <$> hosts) c).1 ->
    if refuses (host_spec <$> hosts) c then p = 0 else p <> 0 /\ p ∈ live c'.
Proof.
  unfold modelCluster_Init. cbn [mc_hosts].
  destruct (AddHosts (host_spec <$> hosts) c) as [ptrs c1] eqn:Ea.
  pose proof (add_length _ _ _ _ Ea) as Hl. rewrite length_fmap in Hl.
  destruct (init_loop_spec hosts ptrs ∅ c1 Hl) as (m' & c2 & -> & Hv & Hm). cbn. intros [= <- <-].
  split_and!; [done| |].
  - intros model. destruct (Hm model) as [?|[Hn Hk]]; [by left|right]. by rewrite lookup_empty in Hk.
  - intros p Hp. assert (host_spec <$> hosts <> []) as Hne.
    { intros Hz. assert (hosts = []) as -> by by destruct hosts. by destruct ptrs; [apply not_elem_of_nil in Hp|]. }
    destruct (add_unified _ _ _ _ Ea Hne) as (A1 & _ & _ & A4). specialize (A1 p Hp).
    destruct (refuses _ c); [by apply A1|].
    assert (p <> 0) as Hp0 by (intros ->; by destruct A1 as [A1 _]; specialize (A1 eq_refl)).
    split; [done|]. rewrite Hv, A4. set_solver.
Qed.
End cluster_lemmas.

(** ** Properties *)

(** What the load balancer chooses for a decided model, among [hosts] added with the pointers
    [ptrs]: the last host configured with that model, or the first healthy host when the model
    is empty or no host serves it; nil when no host is healthy. *)
Definition chosen_for (model : string) (hosts : list clusterHost) (ptrs : list HostPtr)
    (healthy : list HostPtr) (chosen : HostPtr) : Prop :=
  if decide (healthy = []) then chosen = 0
  else
    (model <> "" /\ exists i h, hosts !! i = Some h /\ ch_Model h = model /\ ptrs !! i = Some chosen /\
       forall j h', (i < j)%nat -> hosts !! j = Some h' -> ch_Model h' <> model) \/
    ((model = "" \/ forall h, h ∈ hosts -> ch_Model h <> model) /\ chosen = hd 0 healthy).


(** ** Witness *)

(** A judge that is asked one question and whose reply is the outcome's model. *)
Definition toy_sygo : Sygo :=
  {| LlmRequest := unit; DecisionRequest := unit; DecisionResponse := string;
     DecodeOpenAIChat _ := inr tt; message_count _ := 1%nat;
     EncodeRequest _ := inr []; DecodeResponse b _ := inr (String.string_of_list_byte b);
     evidence_source _ := None |}.

Definition toy_route : @routing toy_sygo :=
  @RCall toy_sygo tt (fun a => match a with
                               | inr m => RDone (mkOutcome "" m false [])
                               | inl e => RDone (mkOutcome e "" false [])
                               end).

Definition toy_cfg : Config := FromEnv (fun _ => "") (fun _ => None).

Definition decide_prog : gprog := @decide_body toy_sygo toy_cfg toy_route.

(** The judge answers "smart" while the callout is being started. *)
Definition judge_reply : CalloutDelivery :=
  mkDelivery 0 None (Some [mkBuf None (String.list_byte_of_string "smart")]).
Definition judge_envoy : Envoy := simEnvoy [(HeaderDecidedModel, "spoofed")] (0, Some judge_reply).

Definition deciding : st := Eval vm_compute in
  out (OnRequestHeaders judge_envoy false (newStream (onlyRequest (fun _ => PGo decide_prog PRet)))).

Lemma decide_prog_ends :
  exists g, rtc (gstep judge_envoy) (gstart 0 decide_prog deciding) g /\ g_pc g = GExit /\ g_queue g = [] /\
    of_kind KHeader (s_tr (g_st g)) = [CReqHeaderSet HeaderDecidedModel "smart"].
Proof.
  eexists. split; [|split_and!].
  - eapply rtc_l; [left; eapply go_do; reflexivity|].
    eapply rtc_l; [right; eapply (work_do _ 0 _ []); reflexivity|].
    eapply rtc_l; [left; eapply (go_receive _ 0 _ (inl (do_response judge_reply))); [reflexivity|vm_compute; left]|].
    eapply rtc_l; [left; eapply (go_act _ (ASetRequestHeader HeaderDecidedModel "smart") GRet); reflexivity|].
    eapply rtc_l; [left; eapply go_return; reflexivity|].
    eapply rtc_l; [left; eapply go_check; reflexivity|].
    eapply rtc_l; [right; eapply (work_finish _ []); reflexivity|]. apply rtc_refl.
  - reflexivity.
  - reflexivity.
  - vm_compute. reflexivity.
Qed.

Definition two_hosts : list clusterHost :=
  [mkClusterHost "10.0.0.1:80" "cheap" ""; mkClusterHost "10.0.0.2:80" "smart" ""].

Definition empty_sim : simCluster := mkSim 1 ∅.
Definition inited : modelCluster * simCluster := Eval vm_compute in
  match modelCluster_Init (mkModelCluster two_hosts ∅) empty_sim with
  | Ok r => r
  | Panic _ => (mkModelCluster [] ∅, empty_sim)
  end.


(** ** Departures *)

(** A failed decision is not logged: it sets the error header only, and the logger returns
    when the model header is missing. *)
Lemma failed_decision_not_logged `{Sygo} o (client : string -> option string) code :
  o_Error o <> "" -> client HeaderDecidedModel = None ->
  applyOutcome o = [ASetRequestHeader HeaderDecisionError (o_Error o)] /\
  OnLog (fun n => if decide (n = HeaderDecisionError) then Some (o_Error o) else client n) code
    AccessLogTypeDownstreamEnd = None.
Proof.
  intros He Hc. unfold applyOutcome. rewrite decide_True by done. split; [done|].
  unfold OnLog. rewrite decide_False by (intros Hn; by apply Hn).
  rewrite decide_False by done. by rewrite Hc.
Qed.

(** A failed decision leaves a decided model sent by the client in place, and the cluster
    routes by it. *)
Lemma client_decides_after_failure :
  ChooseHost inited.1 [1; 2]
    (foldl interp [(HeaderDecidedModel, "smart")]
       (path_calls (@applyOutcome toy_sygo (mkOutcome "judge down" "" false [])))) = 2.
Proof. vm_compute. reflexivity. Qed.

(** A negative timeout becomes an enormous one. *)
Lemma negative_timeout_wraps :
  Async.TimeoutMillis (judge_request (FromEnv (fun k => if decide (k = "LLM_DECIDER_JUDGE_TIMEOUT_MS") then "-1" else "")
                         (fun _ => None)) []) = 2 ^ 64 - 1.
Proof. vm_compute. reflexivity. Qed.
