(* ===== verification/AbiHandles.v ===== *)
(** * down/abi_impl: the handles through which modules read Envoy

    [dymClusterLBHandle] and [dymLBHandle] give a load balancer its host set,
    [dymClusterLBContext] and [dymLBContext] the request, [dymAccessLoggerHandle] a finished
    stream and [dymClusterMetricsHandle] the metrics of a cluster.  Each method makes one
    call of the C ABI, converts the Go integers of its arguments ([C.size_t(index)] wraps a
    negative index) and copies what Envoy answered out of Envoy's memory.  The ABI is a
    parameter, a class of callbacks on Envoy's object; what abi.h documents of them is a
    class of laws against a table of hosts. *)
From stdpp Require Import base list gmap strings.
From Stdlib Require Import ZArith Lia.
From S2P Require Import Prelude Async Envoy HostSet HostRefresh.
#[local] Open Scope Z_scope.

(** ** Envoy's memory and internal.go *)

Abbreviation memory := (Z -> Byte.byte).

(** [envoy_dynamic_module_type_envoy_buffer]: a pointer (0 is nil) and a length. *)
Record envoy_buffer := mkEnvoyBuf { eb_ptr : Z; eb_length : Z }.
Definition zero_buffer : envoy_buffer := mkEnvoyBuf 0 0.

(** The bytes at an address. *)
Definition read_bytes (m : memory) (p n : Z) : bytes := (fun i => m (p + Z.of_nat i)) <$> seq 0 (Z.to_nat n).

Definition envoyBufferToStringUnsafe (m : memory) (b : envoy_buffer) : string :=
  if decide (eb_length b = 0) then ""
  else String.string_of_list_byte (read_bytes m (eb_ptr b) (eb_length b)).

Definition envoyBufferToBytesUnsafe (m : memory) (b : envoy_buffer) : bytes :=
  if decide (eb_length b = 0) then [] else read_bytes m (eb_ptr b) (eb_length b).

(** [envoy_dynamic_module_type_envoy_http_header]. *)
Record http_header := mkHttpHeader { key_ptr : Z; key_length : Z; value_ptr : Z; value_length : Z }.

Definition envoyHTTPHeaderToPair (m : memory) (h : http_header) : string * string :=
  (if decide (0 < key_length h) then String.string_of_list_byte (read_bytes m (key_ptr h) (key_length h)) else "",
   if decide (0 < value_length h) then String.string_of_list_byte (read_bytes m (value_ptr h) (value_length h)) else "").

(** [C.size_t(i)] of a Go [int], and [int(n)] of a [size_t]. *)
Definition size_t (i : Z) : Z := uint64_of i.
Definition int_of (n : Z) : Z := int64_of n.

(** ** The C callbacks of a load balancer *)

(** A function that returns false and writes nothing is [None]; where the Go code returns the
    output parameter in any case, the callback gives it with the flag (it starts at zero). *)
Class LbAbi (L : Type) := {
  c_mem : L -> memory;
  c_get_cluster_name : L -> envoy_buffer;
  c_get_priority_set_size : L -> Z;
  c_get_hosts_count : L -> Z -> Z;
  c_get_healthy_host_count : L -> Z -> Z;
  c_get_degraded_hosts_count : L -> Z -> Z;
  c_get_host : L -> Z -> Z -> HostPtr;
  c_get_healthy_host : L -> Z -> Z -> HostPtr;
  c_get_host_address : L -> Z -> Z -> option envoy_buffer;
  c_get_healthy_host_address : L -> Z -> Z -> option envoy_buffer;
  c_get_host_weight : L -> Z -> Z -> Z;
  c_get_healthy_host_weight : L -> Z -> Z -> Z;
  c_get_host_health : L -> Z -> Z -> Z;
  c_get_host_health_by_address : L -> string -> Z * bool;
  c_get_host_stat : L -> Z -> Z -> Z -> Z;
  c_find_host_by_address : L -> string -> HostPtr;
  c_get_member_update_host_address : L -> Z -> bool -> option envoy_buffer;
  c_get_host_locality : L -> Z -> Z -> option (envoy_buffer * envoy_buffer * envoy_buffer);
  c_set_host_data : Z -> Z -> Z -> L -> bool * L;
  c_get_host_data : L -> Z -> Z -> Z * bool;
  c_get_host_metadata_string : L -> Z -> Z -> string -> string -> option envoy_buffer;
  c_get_host_metadata_number : L -> Z -> Z -> string -> string -> Z * bool;
  c_get_host_metadata_bool : L -> Z -> Z -> string -> string -> bool * bool;
  c_get_locality_count : L -> Z -> Z;
  c_get_locality_host_count : L -> Z -> Z -> Z;
  c_get_locality_host_address : L -> Z -> Z -> Z -> option envoy_buffer;
  c_get_locality_weight : L -> Z -> Z -> Z;
}.

Section handle.
Context {L : Type} `{LbAbi L}.

(** [if !ok { return "", false }; return envoyBufferToStringUnsafe(buf), true]. *)
Definition string_result (h : L) (r : option envoy_buffer) : string * bool :=
  match r with
  | None => ("", false)
  | Some buf => (envoyBufferToStringUnsafe (c_mem h) buf, true)
  end.

Definition ClusterName (h : L) : string := envoyBufferToStringUnsafe (c_mem h) (c_get_cluster_name h).

Definition PriorityCount (h : L) : Z := int_of (c_get_priority_set_size h).

Definition HostCount (h : L) (priority : Z) : Z := int_of (c_get_hosts_count h priority).

Definition HealthyHostCount (h : L) (priority : Z) : Z := int_of (c_get_healthy_host_count h priority).

Definition DegradedHostCount (h : L) (priority : Z) : Z := int_of (c_get_degraded_hosts_count h priority).

Definition handle_Host (h : L) (priority index : Z) : HostPtr := c_get_host h priority (size_t index).

Definition HealthyHost (h : L) (priority index : Z) : HostPtr := c_get_healthy_host h priority (size_t index).

Definition HostAddress (h : L) (priority index : Z) : string * bool :=
  string_result h (c_get_host_address h priority (size_t index)).

Definition HealthyHostAddress (h : L) (priority index : Z) : string * bool :=
  string_result h (c_get_healthy_host_address h priority (size_t index)).

Definition HostWeight (h : L) (priority index : Z) : Z := c_get_host_weight h priority (size_t index).

Definition HealthyHostWeight (h : L) (priority index : Z) : Z :=
  c_get_healthy_host_weight h priority (size_t index).

Definition HostHealth (h : L) (priority index : Z) : Z := c_get_host_health h priority (size_t index).

Definition HostHealthByAddress (h : L) (addr : string) : Z * bool := c_get_host_health_by_address h addr.

Definition HostStat (h : L) (priority index stat : Z) : Z := c_get_host_stat h priority (size_t index) stat.

Definition handle_FindHostByAddress (h : L) (addr : string) : HostPtr := c_find_host_by_address h addr.

Definition MemberUpdateHostAddress (h : L) (index : Z) (isAdded : bool) : string * bool :=
  string_result h (c_get_member_update_host_address h (size_t index) isAdded).

Definition HostLocality (h : L) (priority index : Z) : string * string * string * bool :=
  match c_get_host_locality h priority (size_t index) with
  | None => ("", "", "", false)
  | Some (region, zone, subZone) =>
      (envoyBufferToStringUnsafe (c_mem h) region, envoyBufferToStringUnsafe (c_mem h) zone,
       envoyBufferToStringUnsafe (c_mem h) subZone, true)
  end.

Definition SetHostData (priority index data : Z) (h : L) : bool * L :=
  c_set_host_data priority (size_t index) data h.

Definition GetHostData (h : L) (priority index : Z) : Z * bool := c_get_host_data h priority (size_t index).

Definition HostMetadataString (h : L) (priority index : Z) (filterName key : string) : string * bool :=
  string_result h (c_get_host_metadata_string h priority (size_t index) filterName key).

Definition HostMetadataNumber (h : L) (priority index : Z) (filterName key : string) : Z * bool :=
  c_get_host_metadata_number h priority (size_t index) filterName key.

Definition HostMetadataBool (h : L) (priority index : Z) (filterName key : string) : bool * bool :=
  c_get_host_metadata_bool h priority (size_t index) filterName key.

Definition LocalityCount (h : L) (priority : Z) : Z := int_of (c_get_locality_count h priority).

Definition LocalityHostCount (h : L) (priority localityIndex : Z) : Z :=
  int_of (c_get_locality_host_count h priority (size_t localityIndex)).

Definition LocalityHostAddress (h : L) (priority localityIndex hostIndex : Z) : string * bool :=
  string_result h (c_get_locality_host_address h priority (size_t localityIndex) (size_t hostIndex)).

Definition LocalityWeight (h : L) (priority localityIndex : Z) : Z :=
  c_get_locality_weight h priority (size_t localityIndex).
End handle.

(** ** The request: [dymClusterLBContext] *)

Class ContextAbi (X L : Type) := {
  x_mem : X -> memory;
  x_get_downstream_headers_size : X -> Z;
  (** the array filled, when the callback returned true *)
  x_get_downstream_headers : X -> option (list http_header);
  x_get_filter_state_bytes : X -> string -> option envoy_buffer;
  x_get_filter_state_typed : X -> string -> option envoy_buffer;
  x_get_override_host : X -> option (envoy_buffer * bool);
  x_get_downstream_header : X -> string -> Z -> option envoy_buffer;
  x_get_downstream_connection_sni : X -> option envoy_buffer;
  x_compute_hash_key : X -> Z * bool;
  x_get_host_selection_retry_count : X -> Z;
  x_should_select_another_host : L -> X -> Z -> Z -> bool;
}.

Section context.
Context {X L : Type} `{ContextAbi X L}.

Definition context_string (c : X) (r : option envoy_buffer) : string * bool :=
  match r with
  | None => ("", false)
  | Some buf => (envoyBufferToStringUnsafe (x_mem c) buf, true)
  end.

(** The array has [n] elements, whatever the callback wrote into it. *)
Definition GetAllHeaders (c : X) : res (list (string * string)) :=
  let n := int_of (x_get_downstream_headers_size c) in
  if decide (n = 0) then Ok []
  else if decide (n < 0) then Panic "makeslice: len out of range"
  else match x_get_downstream_headers c with
       | None => Ok []
       | Some raw =>
           Ok (envoyHTTPHeaderToPair (x_mem c) <$>
               (take (Z.to_nat n) raw ++ replicate (Z.to_nat n - length raw) (mkHttpHeader 0 0 0 0)))
       end.

Definition GetFilterState (c : X) (key : string) : string * bool :=
  context_string c (x_get_filter_state_bytes c key).

Definition GetFilterStateTyped (c : X) (key : string) : string * bool :=
  context_string c (x_get_filter_state_typed c key).

(** The second result is the strict flag, not whether there is an override. *)
Definition GetOverrideHost (c : X) : string * bool :=
  match x_get_override_host c with
  | None => ("", false)
  | Some (addr, strict) => (envoyBufferToStringUnsafe (x_mem c) addr, strict)
  end.

Definition GetHeader (c : X) (name : string) : string * bool :=
  context_string c (x_get_downstream_header c name 0).

Definition GetDownstreamSNI (c : X) : string * bool := context_string c (x_get_downstream_connection_sni c).

Definition ComputeHashKey (c : X) : Z * bool := x_compute_hash_key c.

Definition GetHostSelectionRetryCount (c : X) : Z := x_get_host_selection_retry_count c.

(** [None] is a handle of another implementation of the interface. *)
Definition ShouldSelectAnotherHost (c : X) (lb : option L) (priority index : Z) : bool :=
  match lb with
  | None => false
  | Some h => x_should_select_another_host h c priority (size_t index)
  end.
End context.

(** ** lb_policy.go: [dymLBHandle] and [dymLBContext]

    The handle and the context of a load-balancing policy have the same methods, each over
    the callback of the [lb] family that mirrors the one of the [cluster_lb] family; an
    instance of the classes is either family.  [GetAllHeaders] and [GetOverrideHost] of the
    context, and the integer attributes of the logger, are in PluginAbi.v. *)
Section policy.
Context {P X : Type} `{LbAbi P} `{ContextAbi X P}.

Definition dymLBHandle_ClusterName := ClusterName (L := P).
Definition dymLBHandle_PriorityCount := PriorityCount (L := P).
Definition dymLBHandle_HostCount := HostCount (L := P).
Definition dymLBHandle_HealthyHostCount := HealthyHostCount (L := P).
Definition dymLBHandle_DegradedHostCount := DegradedHostCount (L := P).
Definition dymLBHandle_HostAddress := HostAddress (L := P).
Definition dymLBHandle_HealthyHostAddress := HealthyHostAddress (L := P).
Definition dymLBHandle_HostWeight := HostWeight (L := P).
Definition dymLBHandle_HealthyHostWeight := HealthyHostWeight (L := P).
Definition dymLBHandle_HostHealth := HostHealth (L := P).
Definition dymLBHandle_HostHealthByAddress := HostHealthByAddress (L := P).
Definition dymLBHandle_HostStat := HostStat (L := P).
Definition dymLBHandle_MemberUpdateHostAddress := MemberUpdateHostAddress (L := P).
Definition dymLBHandle_HostLocality := HostLocality (L := P).
Definition dymLBHandle_SetHostData := SetHostData (L := P).
Definition dymLBHandle_GetHostData := GetHostData (L := P).
Definition dymLBHandle_HostMetadataString := HostMetadataString (L := P).
Definition dymLBHandle_HostMetadataNumber := HostMetadataNumber (L := P).
Definition dymLBHandle_HostMetadataBool := HostMetadataBool (L := P).
Definition dymLBHandle_LocalityCount := LocalityCount (L := P).
Definition dymLBHandle_LocalityHostCount := LocalityHostCount (L := P).
Definition dymLBHandle_LocalityHostAddress := LocalityHostAddress (L := P).
Definition dymLBHandle_LocalityWeight := LocalityWeight (L := P).
Definition dymLBContext_GetHeader := GetHeader (X := X) (L := P).
Definition dymLBContext_ComputeHashKey := ComputeHashKey (X := X) (L := P).
Definition dymLBContext_GetHostSelectionRetryCount := GetHostSelectionRetryCount (X := X) (L := P).
Definition dymLBContext_ShouldSelectAnotherHost := ShouldSelectAnotherHost (X := X) (L := P).
End policy.

(** ** A finished stream: [dymAccessLoggerHandle] *)

(** abi.h: the structures the callbacks fill. *)
Record timing_info := mkTimingInfo {
  start_time_unix_ns : Z;
  request_complete_duration_ns : Z;
  first_upstream_tx_byte_sent_ns : Z;
  last_upstream_tx_byte_sent_ns : Z;
  first_upstream_rx_byte_received_ns : Z;
  last_upstream_rx_byte_received_ns : Z;
  first_downstream_tx_byte_sent_ns : Z;
  last_downstream_tx_byte_sent_ns : Z;
}.

Record bytes_info := mkBytes_info {
  bytes_received : Z;
  bytes_sent : Z;
  wire_bytes_received : Z;
  wire_bytes_sent : Z;
}.

Class LoggerAbi (G : Type) := {
  g_mem : G -> memory;
  g_timing : G -> timing_info;
  g_bytes : G -> bytes_info;
  g_response_flags : G -> Z;
  g_response_code : G -> Z;
  g_get_attribute_string : G -> Z -> option envoy_buffer;
  g_get_attribute_bool : G -> Z -> option bool;
  g_get_header_value : G -> Z -> string -> Z -> option envoy_buffer;
  g_get_worker_index : G -> Z;
  g_get_trace_id : G -> option envoy_buffer;
  g_get_span_id : G -> option envoy_buffer;
  g_is_trace_sampled : G -> bool;
  g_get_local_reply_body : G -> option envoy_buffer;
  g_get_upstream_pool_ready_duration_ns : G -> Z;
}.

Section logger.
Context {G : Type} `{LoggerAbi G}.

Definition GetTimingInfo (h : G) : TimingInfo :=
  let out := g_timing h in
  mkTiming (start_time_unix_ns out) (request_complete_duration_ns out) (first_upstream_tx_byte_sent_ns out)
    (last_upstream_tx_byte_sent_ns out) (first_upstream_rx_byte_received_ns out)
    (last_upstream_rx_byte_received_ns out) (first_downstream_tx_byte_sent_ns out)
    (last_downstream_tx_byte_sent_ns out).

Definition GetBytesInfo (h : G) : BytesInfo :=
  let out := g_bytes h in
  mkBytesInfo (bytes_received out) (bytes_sent out) (wire_bytes_received out) (wire_bytes_sent out).

(** [envoyBufferToUnsafeEnvoyBuffer]: a view of Envoy's memory, read as it is now. *)
Definition envoyBufferToUnsafeEnvoyBuffer (h : G) (b : envoy_buffer) : UnsafeEnvoyBuffer :=
  mkBuf (if decide (eb_ptr b = 0) then None else Some OEnvoy)
    (read_bytes (g_mem h) (eb_ptr b) (eb_length b)).

(** A buffer and whether there is one. *)
Definition view_result (h : G) (r : option envoy_buffer) : UnsafeEnvoyBuffer * bool :=
  match r with
  | None => (buf_zero, false)
  | Some b => (envoyBufferToUnsafeEnvoyBuffer h b, true)
  end.

Definition GetAttributeString (h : G) (id : Z) : UnsafeEnvoyBuffer * bool :=
  match g_get_attribute_string h id with
  | None => (buf_zero, false)
  | Some b => if decide (eb_ptr b = 0) then (buf_zero, false) else (envoyBufferToUnsafeEnvoyBuffer h b, true)
  end.

Definition GetAttributeBool (h : G) (id : Z) : bool * bool :=
  match g_get_attribute_bool h id with
  | None => (false, false)
  | Some v => (v, true)
  end.

Definition logger_GetHeader (h : G) (headerType : Z) (key : string) : UnsafeEnvoyBuffer * bool :=
  view_result h (g_get_header_value h headerType key 0).

Definition GetTraceID (h : G) : UnsafeEnvoyBuffer * bool := view_result h (g_get_trace_id h).
Definition GetSpanID (h : G) : UnsafeEnvoyBuffer * bool := view_result h (g_get_span_id h).
Definition GetLocalReplyBody (h : G) : UnsafeEnvoyBuffer * bool := view_result h (g_get_local_reply_body h).

End logger.

(** ** The main-thread handle: [clusterHandleImpl] *)

(** The callbacks on the cluster's hosts; an empty list of hosts makes no call. *)
Class ClusterAbi (C : Type) := {
  c_cluster_remove_hosts : list HostPtr -> C -> C;
  c_cluster_update_host_health : HostPtr -> Z -> C -> C;
  c_cluster_find_host_by_address : string -> C -> HostPtr;
}.

Section cluster.
Context {C : Type} `{ClusterAbi C}.

Definition cluster_RemoveHosts (hosts : list HostPtr) (c : C) : C :=
  if decide (hosts = []) then c else c_cluster_remove_hosts hosts c.
Definition cluster_UpdateHostHealth (host : HostPtr) (health : Z) (c : C) : C :=
  c_cluster_update_host_health host health c.
Definition cluster_FindHostByAddress (addr : string) (c : C) : HostPtr := c_cluster_find_host_by_address addr c.
End cluster.

(** ** Metrics: [dymClusterMetricsHandle] *)

Inductive metric_kind := MCounter | MGauge | MHistogram.
Inductive metric_update := IncrementCounter | SetGauge | IncrementGauge | DecrementGauge | RecordHistogram.

(** The callbacks: a metric defined gives its identifier and a result; labels are the array
    [stringsToLabelBuffers] builds, one buffer per string. *)
Class MetricsAbi (M : Type) := {
  m_define : metric_kind -> string -> list string -> M -> Z * Z * M;
  m_update : metric_update -> Z -> list string -> Z -> M -> Z * M;
}.

Section metrics.
Context {M : Type} `{MetricsAbi M}.

Definition DefineCounter (name : string) (tagKeys : list string) (m : M) : Z * Z * M :=
  m_define MCounter name tagKeys m.
Definition DefineGauge (name : string) (tagKeys : list string) (m : M) : Z * Z * M :=
  m_define MGauge name tagKeys m.
Definition DefineHistogram (name : string) (tagKeys : list string) (m : M) : Z * Z * M :=
  m_define MHistogram name tagKeys m.
Definition IncrementCounterValue (id value : Z) (labelValues : list string) (m : M) : Z * M :=
  m_update IncrementCounter id labelValues value m.
Definition SetGaugeValue (id value : Z) (labelValues : list string) (m : M) : Z * M :=
  m_update SetGauge id labelValues value m.
Definition IncrementGaugeValue (id value : Z) (labelValues : list string) (m : M) : Z * M :=
  m_update IncrementGauge id labelValues value m.
Definition DecrementGaugeValue (id value : Z) (labelValues : list string) (m : M) : Z * M :=
  m_update DecrementGauge id labelValues value m.
Definition RecordHistogramValue (id value : Z) (labelValues : list string) (m : M) : Z * M :=
  m_update RecordHistogram id labelValues value m.
End metrics.

(** ** The documented behaviour *)

(** A host as Envoy knows it. *)
Record host := mkHost {
  h_ptr : HostPtr;
  h_address : string;
  h_weight : Z;
  h_health : Z;
  h_stat : Z -> Z;
  h_locality : string * string * string;
  h_strings : gmap (string * string) string;
}.

(** The element of a list at an index of type [size_t] or [int]. *)
Definition at_index {A} (l : list A) (i : Z) : option A := if 0 <=? i then l !! Z.to_nat i else None.

(** A buffer that covers a string. *)
Definition holds (m : memory) (b : envoy_buffer) (s : string) : Prop :=
  eb_length b = Z.of_nat (String.length s) /\
  read_bytes m (eb_ptr b) (eb_length b) = String.list_byte_of_string s.

(** An answer of the ABI that covers what the table has, or reports that there is nothing. *)
Definition covers (m : memory) (r : option envoy_buffer) (o : option string) : Prop :=
  match r, o with
  | Some b, Some s => holds m b s
  | None, None => True
  | _, _ => False
  end.

(** The healthy and the degraded hosts of a list. *)
Definition healthy_of (l : list host) : list host := base.filter (fun h => h_health h = HostHealthy) l.
Definition degraded_of (l : list host) : list host := base.filter (fun h => h_health h = HostDegraded) l.

(** abi.h: what the callbacks answer about the hosts [t priority]; an index is a [size_t]. *)
Record documented {L} `{LbAbi L} (l : L) (t : Z -> list host) : Prop := {
  doc_fits : forall p, Z.of_nat (length (t p)) < 2 ^ 63;
  doc_hosts_count : forall p, c_get_hosts_count l p = Z.of_nat (length (t p));
  doc_healthy_count : forall p, c_get_healthy_host_count l p = Z.of_nat (length (healthy_of (t p)));
  doc_degraded_count : forall p, c_get_degraded_hosts_count l p = Z.of_nat (length (degraded_of (t p)));
  doc_host : forall p i, 0 <= i < 2 ^ 64 -> c_get_host l p i = from_option h_ptr 0 (at_index (t p) i);
  doc_healthy_host : forall p i, 0 <= i < 2 ^ 64 ->
    c_get_healthy_host l p i = from_option h_ptr 0 (at_index (healthy_of (t p)) i);
  doc_address : forall p i, 0 <= i < 2 ^ 64 ->
    covers (c_mem l) (c_get_host_address l p i) (h_address <$> at_index (t p) i);
  doc_healthy_address : forall p i, 0 <= i < 2 ^ 64 ->
    covers (c_mem l) (c_get_healthy_host_address l p i) (h_address <$> at_index (healthy_of (t p)) i);
  doc_weight : forall p i, 0 <= i < 2 ^ 64 -> c_get_host_weight l p i = from_option h_weight 0 (at_index (t p) i);
  doc_healthy_weight : forall p i, 0 <= i < 2 ^ 64 ->
    c_get_healthy_host_weight l p i = from_option h_weight 0 (at_index (healthy_of (t p)) i);
  doc_stat : forall p i st, 0 <= i < 2 ^ 64 ->
    c_get_host_stat l p i st = from_option (fun h => h_stat h st) 0 (at_index (t p) i);
  doc_metadata : forall p i f k, 0 <= i < 2 ^ 64 ->
    covers (c_mem l) (c_get_host_metadata_string l p i f k) (at_index (t p) i ≫= fun h => h_strings h !! (f, k));
}.

(** A string and true, or nothing and false. *)
Definition found (o : option string) : string * bool := from_option (fun s => (s, true)) ("", false) o.

(** ** Lemmas *)

Lemma size_t_range i : 0 <= size_t i < 2 ^ 64.
Proof. apply Z.mod_pos_bound. lia. Qed.

(** A Go index used as a [size_t]: a negative one is past the end of every list. *)
Lemma size_index {A} (l : list A) i : Z.of_nat (length l) < 2 ^ 63 -> - 2 ^ 63 <= i < 2 ^ 63 ->
  at_index l (size_t i) = at_index l i.
Proof.
  intros Hl Hi. unfold at_index. pose proof (size_t_range i) as Hr.
  destruct (Z.leb_spec 0 (size_t i)); [|lia]. destruct (Z.leb_spec 0 i).
  - unfold size_t, uint64_of. by rewrite Z.mod_small by lia.
  - apply lookup_ge_None_2. assert (size_t i = i + 2 ^ 64) as ->; [|lia].
    unfold size_t, uint64_of. rewrite <- (Z.mod_add i 1 (2 ^ 64)) by lia. rewrite Z.mod_small; lia.
Qed.

Lemma int_of_small n : 0 <= n < 2 ^ 63 -> int_of n = n.
Proof. intros Hn. unfold int_of, int64_of. rewrite Z.mod_small; lia. Qed.

Lemma holds_string m b s : holds m b s -> envoyBufferToStringUnsafe m b = s.
Proof.
  intros [Hl Hr]. unfold envoyBufferToStringUnsafe. case_decide as H0.
  - by destruct s; cbn in Hl; [|lia].
  - rewrite Hr. apply String.string_of_list_byte_of_string.
Qed.

Section refines.
Context {L : Type} `{LbAbi L} (l : L) (t : Z -> list host).

Lemma covered_result r o : covers (c_mem l) r o -> string_result l r = found o.
Proof. destruct r, o; cbn; try done. intros Hh. by rewrite (holds_string _ _ _ Hh). Qed.

Lemma filtered_fits p (P : host -> Prop) `{!forall h, Decision (P h)} : Z.of_nat (length (t p)) < 2 ^ 63 ->
  Z.of_nat (length (base.filter P (t p))) < 2 ^ 63.
Proof. pose proof (length_filter P (t p)). lia. Qed.
End refines.

(** ** Property *)

(** C22: what a load balancer reads through its handle is the host table.  With an ABI that
    behaves as abi.h documents, for every priority and every Go [int] used as an index,
    negative ones included, the counts, pointers, addresses, weights, stats and metadata the
    handle returns are those of the hosts, or of the healthy hosts, at that index, and "not
    found" past either end; strings are copies of what the buffers covered. *)
Theorem handle_reads_host_table {L} `{LbAbi L} (l : L) (t : Z -> list host) p index :
  documented l t -> - 2 ^ 63 <= index < 2 ^ 63 ->
  let all := at_index (t p) index in
  let healthy := at_index (healthy_of (t p)) index in
  HostCount l p = Z.of_nat (length (t p)) /\
  HealthyHostCount l p = Z.of_nat (length (healthy_of (t p))) /\
  DegradedHostCount l p = Z.of_nat (length (degraded_of (t p))) /\
  handle_Host l p index = from_option h_ptr 0 all /\
  HealthyHost l p index = from_option h_ptr 0 healthy /\
  HostAddress l p index = found (h_address <$> all) /\
  HealthyHostAddress l p index = found (h_address <$> healthy) /\
  HostWeight l p index = from_option h_weight 0 all /\
  HealthyHostWeight l p index = from_option h_weight 0 healthy /\
  (forall st, HostStat l p index st = from_option (fun h => h_stat h st) 0 all) /\
  (forall f k, HostMetadataString l p index f k = found (all ≫= fun h => h_strings h !! (f, k))).
Proof.
  intros Hd Hi all healthy. pose proof (doc_fits _ _ Hd p) as Hf.
  pose proof (filtered_fits t p (fun h => h_health h = HostHealthy) Hf) as Hh.
  pose proof (filtered_fits t p (fun h => h_health h = HostDegraded) Hf) as Hg.
  pose proof (size_t_range index) as Hr.
  subst all healthy. rewrite <- (size_index (t p) index), <- (size_index (healthy_of (t p)) index) by done.
  unfold HostCount, HealthyHostCount, DegradedHostCount.
  rewrite (doc_hosts_count _ _ Hd), (doc_healthy_count _ _ Hd), (doc_degraded_count _ _ Hd), !int_of_small
    by (unfold healthy_of, degraded_of; lia).
  split_and!; try done.
  - by apply (doc_host _ _ Hd).
  - by apply (doc_healthy_host _ _ Hd).
  - by apply covered_result, (doc_address _ _ Hd).
  - by apply covered_result, (doc_healthy_address _ _ Hd).
  - by apply (doc_weight _ _ Hd).
  - by apply (doc_healthy_weight _ _ Hd).
  - intros st. by apply (doc_stat _ _ Hd).
  - intros f k. by apply covered_result, (doc_metadata _ _ Hd).
Qed.

(** ** Witness *)

Definition addr1 : string := "10.0.0.1:80".
Definition addr2 : string := "10.0.0.2:80".

Definition two_addresses : memory := fun a =>
  if a <? 2000 then nth (Z.to_nat (a - 1000)) (String.list_byte_of_string addr1) Byte.x00
  else nth (Z.to_nat (a - 2000)) (String.list_byte_of_string addr2) Byte.x00.

Definition address_buffer (h : host) : envoy_buffer :=
  mkEnvoyBuf (if decide (h_address h = addr1) then 1000 else 2000) 11.

Definition demo_host (ptr : HostPtr) (addr : string) (health : Z) : host :=
  mkHost ptr addr 1 health (fun _ => 0) ("", "", "") ∅.

(** Priority 0 has an unhealthy and a healthy host. *)
Definition demo_table (p : Z) : list host :=
  if p =? 0 then [demo_host 7 addr1 HostUnhealthy; demo_host 8 addr2 HostHealthy] else [].

(** An ABI over the table, on no state. *)
Definition demo_abi : LbAbi unit := {|
  c_mem _ := two_addresses;
  c_get_cluster_name _ := zero_buffer;
  c_get_priority_set_size _ := 1;
  c_get_hosts_count _ p := Z.of_nat (length (demo_table p));
  c_get_healthy_host_count _ p := Z.of_nat (length (healthy_of (demo_table p)));
  c_get_degraded_hosts_count _ p := Z.of_nat (length (degraded_of (demo_table p)));
  c_get_host _ p i := from_option h_ptr 0 (at_index (demo_table p) i);
  c_get_healthy_host _ p i := from_option h_ptr 0 (at_index (healthy_of (demo_table p)) i);
  c_get_host_address _ p i := address_buffer <$> at_index (demo_table p) i;
  c_get_healthy_host_address _ p i := address_buffer <$> at_index (healthy_of (demo_table p)) i;
  c_get_host_weight _ p i := from_option h_weight 0 (at_index (demo_table p) i);
  c_get_healthy_host_weight _ p i := from_option h_weight 0 (at_index (healthy_of (demo_table p)) i);
  c_get_host_health _ p i := from_option h_health 0 (at_index (demo_table p) i);
  c_get_host_health_by_address _ _ := (0, false);
  c_get_host_stat _ p i st := from_option (fun h => h_stat h st) 0 (at_index (demo_table p) i);
  c_find_host_by_address _ _ := 0;
  c_get_member_update_host_address _ _ _ := None;
  c_get_host_locality _ _ _ := None;
  c_set_host_data _ _ _ l := (false, l);
  c_get_host_data _ _ _ := (0, false);
  c_get_host_metadata_string _ _ _ _ _ := None;
  c_get_host_metadata_number _ _ _ _ _ := (0, false);
  c_get_host_metadata_bool _ _ _ _ _ := (false, false);
  c_get_locality_count _ _ := 0;
  c_get_locality_host_count _ _ _ := 0;
  c_get_locality_host_address _ _ _ _ := None;
  c_get_locality_weight _ _ _ := 0;
|}.

Lemma at_index_in {A} (l : list A) i x : at_index l i = Some x -> x ∈ l.
Proof. unfold at_index. case_match; [|done]. apply list_elem_of_lookup_2. Qed.

Lemma demo_hosts p h : h ∈ demo_table p ->
  holds two_addresses (address_buffer h) (h_address h) /\ h_strings h = ∅.
Proof.
  unfold demo_table. case_match; [|by intros Hh%not_elem_of_nil].
  intros [->|[->|Hh%not_elem_of_nil]%elem_of_cons]%elem_of_cons; [| |done]; repeat split; vm_compute; done.
Qed.

Lemma demo_covers p (l : list host) i : (forall h, h ∈ l -> h ∈ demo_table p) ->
  covers two_addresses (address_buffer <$> at_index l i) (h_address <$> at_index l i).
Proof.
  intros Hl. destruct (at_index l i) as [h|] eqn:E; [|done]. cbn.
  by destruct (demo_hosts p h (Hl _ (at_index_in _ _ _ E))).
Qed.

Lemma demo_documented : @documented unit demo_abi tt demo_table.
Proof.
  split; intros; try done.
  - unfold demo_table. case_match; cbn; lia.
  - by apply (demo_covers p).
  - apply (demo_covers p). by intros h [_ Hh]%list_elem_of_filter.
  - cbn. destruct (at_index (demo_table p) i) as [h|] eqn:E; [|done]. cbn.
    destruct (demo_hosts p h (at_index_in _ _ _ E)) as [_ ->]. done.
Qed.

Lemma handle_reads_host_table_witness :
  @HealthyHostAddress unit demo_abi tt 0 0 = (addr2, true) /\
  @HostAddress unit demo_abi tt 0 (-1) = ("", false).
Proof.
  destruct (@handle_reads_host_table unit demo_abi tt demo_table 0 0 demo_documented) as (_ & _ & _ & _ & _ & _ & H1 & _).
  - lia.
  - destruct (@handle_reads_host_table unit demo_abi tt demo_table 0 (-1) demo_documented) as (_ & _ & _ & _ & _ & H2 & _).
    + lia.
    + split; [rewrite H1|rewrite H2]; reflexivity.
Defined.
