(* ===== verification/GoHeap.v ===== *)
(** * GoHeap: maps and slices shared by reference

    Go's maps and the backing arrays of slices are cells of a heap; a value of map or slice
    type is the location of its cell, or none for nil.  [make], [maps.Clone] and [append] to a
    nil slice allocate.  The lemmas are about heaps that only grow: what a program that never
    writes an old cell can rely on. *)
From stdpp Require Import base list gmap sets fin_maps.

Abbreviation loc := nat.

Section heap.
Context {cell : Type}.
Implicit Types (c : cell) (h : gmap loc cell).

Definition deref h (o : option loc) : option cell := o ≫= (h !!.).

Definition alloc c h : loc * gmap loc cell :=
  let l := fresh (dom h) in (l, <[l := c]> h).

Definition bound h (o : option loc) : Prop := forall l, o = Some l -> l ∈ dom h.

(** [o] was allocated between [h] and [h']. *)
Definition new_in h h' (o : option loc) : Prop :=
  forall l, o = Some l -> (l ∉ dom h) /\ l ∈ dom h'.

Lemma alloc_spec c h l h' : alloc c h = (l, h') -> (l ∉ dom h) /\ h' = <[l := c]> h.
Proof. unfold alloc. intros [= <- <-]. split; [apply is_fresh | done]. Qed.

Lemma write_new h h' l c : h ⊆ h' -> l ∉ dom h -> h ⊆ <[l := c]> h'.
Proof.
  intros Hs Hl. apply map_subseteq_spec. intros k v Hk.
  rewrite lookup_insert_ne; [by eapply lookup_weaken|].
  intros ->. apply Hl. by apply elem_of_dom_2 in Hk.
Qed.

Lemma grown_lookup h h' l : h ⊆ h' -> l ∈ dom h -> h' !! l = h !! l.
Proof. intros Hs [c Hc]%elem_of_dom. rewrite Hc. by eapply lookup_weaken. Qed.

Lemma grown_dom h h' l : h ⊆ h' -> l ∈ dom h -> l ∈ dom h'.
Proof. intros Hs Hl. by apply (subseteq_dom _ _ Hs). Qed.

Lemma deref_agree h h' o : (forall l, o = Some l -> h' !! l = h !! l) -> deref h' o = deref h o.
Proof. destruct o as [l|]; cbn; [intros H; by apply H | done]. Qed.

Lemma new_weaken h0 h h' h1 o : h0 ⊆ h -> h' ⊆ h1 -> new_in h h' o -> new_in h0 h1 o.
Proof.
  intros H0 H1 Hn l Hl. destruct (Hn l Hl) as [Ha Hb]. split; [|by eapply grown_dom].
  intros Hd. apply Ha. by eapply grown_dom.
Qed.

Lemma alloc_new c h l h' :
  alloc c h = (l, h') -> h ⊆ h' /\ deref h' (Some l) = Some c /\ new_in h h' (Some l).
Proof.
  intros [Hl ->]%alloc_spec. split; [by apply write_new|]. split; [cbn; by rewrite lookup_insert_eq|].
  intros r [= <-]. split; [done | set_solver].
Qed.

End heap.

#[global] Arguments alloc : simpl never.
