(* ===== verification/DemoConfig.v ===== *)
(** * DemoConfig: the configuration store of the tiered router's control plane
    (integrations/tiered-router-eg/internal/demo/config.go)

    [ConfigStore] hands out and takes in structures that contain maps and slices, which Go
    shares by reference.  Maps and backing arrays are therefore cells of a heap, a structure
    holds their locations (no location: nil), and every [make], [maps.Clone] and [append] to a
    nil slice allocates.  The theorem is that the clones are the ones needed: whatever callers
    do to the structures they passed or received, the store's contents are those of the
    abstract store that is updated by value. *)
From stdpp Require Import base list gmap strings sets fin_maps relations.
From Stdlib Require Import ZArith Lia.
From S2P Require Import Prelude GoStrings GoHeap.

(** ** Structures *)

Definition defaultVersion : string := "bootstrap".

(** [ShardConfig]; the backing array of [Prefixes]. *)
Record ShardConfig := mkShard {
  sh_Target : string;
  Prefixes : option loc;
  sh_Shard : string;
  Status : string;
}.

Record L1Config := mkL1 {
  l1_Version : string;
  DefaultShard : string;
  Shards : option loc;
}.

Record ModelConfig := mkModel {
  md_Target : string;
  Provider : string;
  AuthHeader : string;
  md_Profile : string;
  BYOKKeyID : string;
}.

Record L2Config := mkL2 {
  l2_Version : string;
  Models : option loc;
}.

Record InitialConfig := mkInitial { in_L1 : L1Config; in_L2 : option loc }.

Record ShardUpdate := mkShardUpdate {
  su_Name : string;
  su_Target : string;
  su_Prefixes : option loc;
  su_Shard : string;
  su_Status : string;
  su_Version : string;
}.

Record ModelUpdate := mkModelUpdate {
  mu_Shard : string;
  mu_Name : string;
  mu_Target : string;
  mu_Provider : string;
  mu_AuthHeader : string;
  mu_Profile : string;
  mu_BYOKKeyID : string;
  mu_Version : string;
}.

Record ConfigStore := mkStore { cs_l1 : L1Config; cs_l2 : option loc }.

(** ** The heap *)

Inductive cell :=
  | CShards (m : gmap string ShardConfig)
  | CModels (m : gmap string ModelConfig)
  | CL2s (m : gmap string L2Config)
  | CArr (l : list string).

Abbreviation heap := (gmap loc cell).

(** What a cell read at its type holds; nil reads as empty. *)
Definition view_shards (c : option cell) : gmap string ShardConfig :=
  match c with Some (CShards m) => m | _ => ∅ end.
Definition view_models (c : option cell) : gmap string ModelConfig :=
  match c with Some (CModels m) => m | _ => ∅ end.
Definition view_l2s (c : option cell) : gmap string L2Config :=
  match c with Some (CL2s m) => m | _ => ∅ end.
Definition view_arr (c : option cell) : list string :=
  match c with Some (CArr l) => l | _ => [] end.

Abbreviation shards_at h o := (view_shards (deref h o)).
Abbreviation models_at h o := (view_models (deref h o)).
Abbreviation l2s_at h o := (view_l2s (deref h o)).
Abbreviation arr_at h o := (view_arr (deref h o)).

(** ** Clones *)

(** [append([]string(nil), xs...)]: nil when there is nothing to copy. *)
Definition clone_slice (o : option loc) (h : heap) : option loc * heap :=
  match arr_at h o with
  | [] => (None, h)
  | xs => let '(l, h) := alloc (CArr xs) h in (Some l, h)
  end.

(** [for k, v := range in { out[k] = clone(v) }]; the order of the range only names
    locations. *)
Fixpoint clone_entries {A} (clone : A -> heap -> A * heap) (entries : list (string * A)) (h : heap) :
    gmap string A * heap :=
  match entries with
  | [] => (∅, h)
  | (k, a) :: entries =>
      let '(a, h) := clone a h in
      let '(m, h) := clone_entries clone entries h in
      (<[k := a]> m, h)
  end.

(** The loop's body in [cloneL1Config]. *)
Definition clone_shard (shard : ShardConfig) (h : heap) : ShardConfig * heap :=
  let '(p, h) := clone_slice (Prefixes shard) h in
  (mkShard (sh_Target shard) p (sh_Shard shard) (Status shard), h).

(** [make], then the loop. *)
Definition clone_map {A} (C : gmap string A -> cell) (view : option cell -> gmap string A)
    (clone : A -> heap -> A * heap) (o : option loc) (h : heap) : loc * heap :=
  let '(m, h) := clone_entries clone (map_to_list (view (deref h o))) h in alloc (C m) h.

Definition cloneL1Config (c : L1Config) (h : heap) : L1Config * heap :=
  let '(l, h) := clone_map CShards view_shards clone_shard (Shards c) h in
  (mkL1 (l1_Version c) (DefaultShard c) (Some l), h).

(** [maps.Clone] of a models map: nil stays nil. *)
Definition clone_models (o : option loc) (h : heap) : option loc * heap :=
  match o with
  | None => (None, h)
  | Some _ => let '(l, h) := alloc (CModels (models_at h o)) h in (Some l, h)
  end.

Definition cloneL2Config (c : L2Config) (h : heap) : L2Config * heap :=
  let '(o, h) := clone_models (Models c) h in (mkL2 (l2_Version c) o, h).

Definition cloneL2Configs (o : option loc) (h : heap) : loc * heap :=
  clone_map CL2s view_l2s cloneL2Config o h.

(** ** Validation *)

Inductive store_error :=
  | L1VersionRequired
  | DefaultShardRequired
  | DefaultShardUnknown (name : string)
  | ShardNameRequired
  | ShardTargetRequired (name : string)
  | L2ShardRequired
  | L2VersionRequired (shard : string)
  | ModelNameRequired
  | ModelTargetRequired (name : string)
  | ModelProviderRequired (name : string)
  | ShardRequired.

Definition validateShard (name : string) (shard : ShardConfig) : option store_error :=
  if decide (name = "") then Some ShardNameRequired
  else if decide (sh_Target shard = "") then Some (ShardTargetRequired name)
  else None.

Definition validateModel (name : string) (model : ModelConfig) : option store_error :=
  if decide (name = "") then Some ModelNameRequired
  else if decide (md_Target model = "") then Some (ModelTargetRequired name)
  else if decide (Provider model = "") then Some (ModelProviderRequired name)
  else None.

(** The first error of a loop over a map. *)
Fixpoint first_error {A} (check : string -> A -> option store_error) (l : list (string * A)) : option store_error :=
  match l with
  | [] => None
  | (k, v) :: l => match check k v with Some e => Some e | None => first_error check l end
  end.

Definition validateL1 (h : heap) (c : L1Config) : option store_error :=
  if decide (l1_Version c = "") then Some L1VersionRequired
  else if decide (DefaultShard c = "") then Some DefaultShardRequired
  else match shards_at h (Shards c) !! DefaultShard c with
       | None => Some (DefaultShardUnknown (DefaultShard c))
       | Some _ => first_error validateShard (map_to_list (shards_at h (Shards c)))
       end.

Definition validateL2 (h : heap) (shard : string) (c : L2Config) : option store_error :=
  if decide (shard = "") then Some L2ShardRequired
  else if decide (l2_Version c = "") then Some (L2VersionRequired shard)
  else first_error validateModel (map_to_list (models_at h (Models c))).

(** ** Operations *)

Definition or_string (s d : string) : string := if decide (s = "") then d else s.

(** [if cfg.Models == nil { cfg.Models = make(...) }]: where the models are. *)
Definition models_cell (c : L2Config) (h : heap) : loc * heap :=
  match Models c with
  | None => alloc (CModels ∅) h
  | Some l => (l, h)
  end.

(** The loop of [NewConfigStore] over the shards of [l2], a clone of the caller's map; the
    entries it writes back. *)
Fixpoint fill_l2s (entries : list (string * L2Config)) (h : heap) :
    (store_error + gmap string L2Config) * heap :=
  match entries with
  | [] => (inr ∅, h)
  | (shard, c) :: entries =>
      let '(models, h) := models_cell c h in
      let c := mkL2 (or_string (l2_Version c) defaultVersion) (Some models) in
      match validateL2 h shard c with
      | Some e => (inl e, h)
      | None => let '(r, h) := fill_l2s entries h in
                (match r with inl e => inl e | inr m => inr (<[shard := c]> m) end, h)
      end
  end.

(** [if l1.Shards == nil { l1.Shards = make(...) }]. *)
Definition shards_cell (c : L1Config) (h : heap) : loc * heap :=
  match Shards c with
  | None => alloc (CShards ∅) h
  | Some l => (l, h)
  end.

Definition NewConfigStore (initial : InitialConfig) (h : heap) : (store_error + ConfigStore) * heap :=
  let l1 := in_L1 initial in
  let '(shards, h) := shards_cell l1 h in
  let l1 := mkL1 (or_string (l1_Version l1) defaultVersion) (or_string (DefaultShard l1) "a") (Some shards) in
  match validateL1 h l1 with
  | Some e => (inl e, h)
  | None =>
      let '(l, h) := alloc (CL2s (l2s_at h (in_L2 initial))) h in
      match fill_l2s (map_to_list (l2s_at h (Some l))) h with
      | (inl e, h) => (inl e, h)
      | (inr m, h) =>
          let h := <[l := CL2s m]> h in
          let '(c1, h) := cloneL1Config l1 h in
          let '(c2, h) := cloneL2Configs (Some l) h in
          (inr (mkStore c1 (Some c2)), h)
      end
  end.

(** [DefaultConfig()]: the literals, allocated. *)
Definition DefaultConfig (h : heap) : InitialConfig * heap :=
  let '(pa, h) := alloc (CArr ["a"]) h in
  let '(pb, h) := alloc (CArr ["b"]) h in
  let '(shards, h) := alloc (CShards
    (<["a" := mkShard "l2-a.transit-dataplane.svc.cluster.local:80" (Some pa) "a" "active"]>
     (<["b" := mkShard "l2-b.transit-dataplane.svc.cluster.local:80" (Some pb) "b" "active"]> ∅))) h in
  let '(ma, h) := alloc (CModels
    (<["gpt-fast" := mkModel "upstream-a.transit-dataplane.svc.cluster.local:8080" "openai"
                       "Bearer shard-a-openai-token" "profile-a" "key-a-001"]>
     (<["claude-safe" := mkModel "upstream-b.transit-dataplane.svc.cluster.local:8080" "anthropic"
                       "Bearer shard-a-anthropic-token" "profile-a" "key-a-002"]> ∅))) h in
  let '(mb, h) := alloc (CModels
    (<["gpt-fast" := mkModel "upstream-c.transit-dataplane.svc.cluster.local:8080" "openai"
                       "Bearer shard-b-openai-token" "profile-b" "key-b-001"]>
     (<["kimi-fast" := mkModel "upstream-d.transit-dataplane.svc.cluster.local:8080" "moonshot"
                       "Bearer shard-b-moonshot-token" "profile-b" "key-b-002"]> ∅))) h in
  let '(l2, h) := alloc (CL2s
    (<["a" := mkL2 defaultVersion (Some ma)]> (<["b" := mkL2 defaultVersion (Some mb)]> ∅))) h in
  (mkInitial (mkL1 defaultVersion "a" (Some shards)) (Some l2), h).

(** [NewConfigStoreJSON(raw)]; [unmarshal] is the JSON decoder, which allocates what it
    builds.  [None] is its error. *)
Definition NewConfigStoreJSON (unmarshal : string -> heap -> option InitialConfig * heap) (raw : string) (h : heap) :
    option (store_error + ConfigStore) * heap :=
  if decide (raw = "") then
    let '(cfg, h) := DefaultConfig h in
    let '(r, h) := NewConfigStore cfg h in (Some r, h)
  else
    match unmarshal raw h with
    | (None, h) => (None, h)
    | (Some cfg, h) => let '(r, h) := NewConfigStore cfg h in (Some r, h)
    end.

(** [L1()] and [L2(shard)]: an unknown shard is the zero value and false. *)
Definition L1 (s : ConfigStore) (h : heap) : L1Config * heap := cloneL1Config (cs_l1 s) h.

Definition L2 (s : ConfigStore) (shard : string) (h : heap) : (L2Config * bool) * heap :=
  let found := l2s_at h (cs_l2 s) !! shard in
  let '(c, h) := cloneL2Config (default (mkL2 "" None) found) h in
  ((c, bool_decide (is_Some found)), h).

(** [next] is [cloneL1Config(s.l1)], whose map is the one at [l]. *)
Definition UpsertShard (u : ShardUpdate) (s : ConfigStore) (h : heap) :
    option store_error * ConfigStore * heap :=
  if decide (su_Name u = "") then (Some ShardNameRequired, s, h)
  else
    let '(p, h) := clone_slice (su_Prefixes u) h in
    let next := mkShard (su_Target u) p (su_Shard u) (su_Status u) in
    match validateShard (su_Name u) next with
    | Some e => (Some e, s, h)
    | None =>
        let '(l, h) := clone_map CShards view_shards clone_shard (Shards (cs_l1 s)) h in
        let h := <[l := CShards (<[su_Name u := next]> (shards_at h (Some l)))]> h in
        (None, mkStore (mkL1 (or_string (su_Version u) "updated") (DefaultShard (cs_l1 s)) (Some l)) (cs_l2 s), h)
    end.

(** The model an update describes. *)
Definition update_model (u : ModelUpdate) : ModelConfig :=
  mkModel (mu_Target u) (mu_Provider u) (mu_AuthHeader u) (mu_Profile u) (mu_BYOKKeyID u).

Definition UpsertModel (u : ModelUpdate) (s : ConfigStore) (h : heap) :
    option store_error * ConfigStore * heap :=
  if decide (mu_Shard u = "") then (Some ShardRequired, s, h)
  else if decide (mu_Name u = "") then (Some ModelNameRequired, s, h)
  else
    match validateModel (mu_Name u) (update_model u) with
    | Some e => (Some e, s, h)
    | None =>
        let '(next, h) := cloneL2Configs (cs_l2 s) h in
        let c := default (mkL2 "" None) (l2s_at h (Some next) !! mu_Shard u) in
        let '(models, h) := models_cell c h in
        let h := <[models := CModels (<[mu_Name u := update_model u]> (models_at h (Some models)))]> h in
        let c := mkL2 (or_string (mu_Version u) "updated") (Some models) in
        let h := <[next := CL2s (<[mu_Shard u := c]> (l2s_at h (Some next)))]> h in
        (None, mkStore (cs_l1 s) (Some next), h)
    end.

(** ** The dump: no authorisation header leaves the store *)

Record DumpModel := mkDumpModel {
  dm_Target : string;
  dm_Provider : string;
  dm_Profile : string;
  dm_BYOKKeyID : string;
  AuthConfigured : bool;
}.

Record DumpL2Config := mkDumpL2 { dl_Version : string; dl_Models : gmap string DumpModel }.

Definition dump_model (m : ModelConfig) : DumpModel :=
  mkDumpModel (md_Target m) (Provider m) (md_Profile m) (BYOKKeyID m) (bool_decide (AuthHeader m <> "")).

Definition Dump (s : ConfigStore) (h : heap) : (L1Config * gmap string DumpL2Config) * heap :=
  let '(c, h) := cloneL1Config (cs_l1 s) h in
  ((c, (fun c => mkDumpL2 (l2_Version c) (dump_model <$> models_at h (Models c))) <$> l2s_at h (cs_l2 s)), h).

(** ** Values *)

(** What the structures mean once every reference is followed. *)
Record ShardVal := mkShardVal {
  sv_Target : string;
  sv_Prefixes : list string;
  sv_Shard : string;
  sv_Status : string;
}.

Record L1Val := mkL1Val {
  lv_Version : string;
  lv_DefaultShard : string;
  lv_Shards : gmap string ShardVal;
}.

Record L2Val := mkL2Val { v2_Version : string; v2_Models : gmap string ModelConfig }.

Record StoreVal := mkStoreVal { v_l1 : L1Val; v_l2 : gmap string L2Val }.

Definition val_shard (h : heap) (s : ShardConfig) : ShardVal :=
  mkShardVal (sh_Target s) (arr_at h (Prefixes s)) (sh_Shard s) (Status s).

Definition val_l2 (h : heap) (c : L2Config) : L2Val :=
  mkL2Val (l2_Version c) (models_at h (Models c)).

Definition val_l1 (h : heap) (c : L1Config) : L1Val :=
  mkL1Val (l1_Version c) (DefaultShard c) (val_shard h <$> shards_at h (Shards c)).

Definition val_l2s (h : heap) (o : option loc) : gmap string L2Val := val_l2 h <$> l2s_at h o.

Definition val_store (h : heap) (s : ConfigStore) : StoreVal :=
  mkStoreVal (val_l1 h (cs_l1 s)) (val_l2s h (cs_l2 s)).

(** ** A map cell whose entries each hold one reference *)

Section Tree.
Context {A V : Type} (C : gmap string A -> cell) (view : option cell -> gmap string A).
Context (ref : A -> option loc) (val : heap -> A -> V) (clone : A -> heap -> A * heap).

Hypothesis view_C : forall m, view (Some (C m)) = m.
Hypothesis val_local :
  forall h h' a, (forall l, ref a = Some l -> h' !! l = h !! l) -> val h' a = val h a.
Hypothesis clone_spec : forall a h a' h',
  bound h (ref a) -> clone a h = (a', h') -> h ⊆ h' /\ val h' a' = val h a /\ new_in h h' (ref a').

(** The locations a caller that holds [o] can get at. *)
Definition reach (h : heap) (o : option loc) (l : loc) : Prop :=
  o = Some l \/ exists k a, view (deref h o) !! k = Some a /\ ref a = Some l.

(** No two entries share a cell, and none is the map itself. *)
Definition separate (h : heap) (l : loc) : Prop :=
  (forall k a, view (deref h (Some l)) !! k = Some a -> ref a <> Some l) /\
  (forall k1 k2 a1 a2 r, view (deref h (Some l)) !! k1 = Some a1 -> view (deref h (Some l)) !! k2 = Some a2 ->
     ref a1 = Some r -> ref a2 = Some r -> k1 = k2).

Lemma tree_frame h h' o :
  (forall l, reach h o l -> h' !! l = h !! l) ->
  val h' <$> view (deref h' o) = val h <$> view (deref h o) /\ (forall l, reach h' o l <-> reach h o l).
Proof.
  intros H. assert (Hd : deref h' o = deref h o) by (apply deref_agree; intros; apply H; by left).
  split; [|intros l; unfold reach; by rewrite Hd].
  rewrite Hd. apply map_fmap_ext. intros k a Hk. apply val_local. intros l Hl. apply H. right. eauto.
Qed.

Lemma clone_entries_spec entries : forall h m h',
  (forall k a, (k, a) ∈ entries -> bound h (ref a)) -> clone_entries clone entries h = (m, h') ->
  h ⊆ h' /\ val h' <$> m = val h <$> (list_to_map entries : gmap string A) /\
  (forall k a, m !! k = Some a -> new_in h h' (ref a)) /\
  (forall k1 k2 a1 a2 r, m !! k1 = Some a1 -> m !! k2 = Some a2 -> ref a1 = Some r -> ref a2 = Some r -> k1 = k2).
Proof.
  induction entries as [|[k a] entries IH]; intros h m h' Hb; cbn.
  - intros [= <- <-]. split; [done|]. split; [by rewrite !fmap_empty|]. split; intros *; by rewrite lookup_empty.
  - destruct (clone a h) as [a' h1] eqn:Ha.
    destruct (clone_entries clone entries h1) as [m1 h2] eqn:He. intros [= <- <-].
    destruct (clone_spec _ _ _ _ (Hb k a ltac:(left)) Ha) as (Hs1 & Hv1 & Hn1).
    assert (Hb' : forall k a, (k, a) ∈ entries -> bound h1 (ref a)).
    { intros k0 a0 Hin l Hl. eapply grown_dom; [done|]. eapply Hb; [by right | done]. }
    destruct (IH _ _ _ Hb' He) as (Hs2 & Hv2 & Hn2 & Hi2).
    assert (Hh : h ⊆ h2) by (by etrans). split; [done|]. split; [|split].
    + rewrite !fmap_insert, Hv2. f_equal.
      * rewrite <-Hv1. apply val_local. intros l Hl. apply grown_lookup; [done | by apply Hn1].
      * apply map_fmap_ext. intros k0 a0 Hk. apply elem_of_list_to_map_2 in Hk.
        apply val_local. intros l Hl. apply grown_lookup; [done|]. eapply Hb; [by right | done].
    + intros k0 a0. rewrite lookup_insert_Some. intros [[-> <-]|[_ H]].
      * by apply (new_weaken h h h1 h2).
      * apply (new_weaken h h1 h2 h2); [done | done | eauto].
    + assert (Hx : forall k1 a1 r, m1 !! k1 = Some a1 -> ref a1 = Some r -> ref a' = Some r -> False).
      { intros k1 a1 r H1 H2 H3. destruct (Hn2 _ _ H1 _ H2) as [Hc _]. apply Hc. by apply Hn1. }
      intros k1 k2 a1 a2 r. rewrite !lookup_insert_Some.
      intros [[-> <-]|[_ H1]] [[-> <-]|[_ H2]] Hr1 Hr2; [done | | | by eapply Hi2]; exfalso; eauto.
Qed.

Lemma clone_map_spec o h l h' :
  (forall r, reach h o r -> r ∈ dom h) -> clone_map C view clone o h = (l, h') ->
  h ⊆ h' /\ val h' <$> view (deref h' (Some l)) = val h <$> view (deref h o) /\
  (forall r, reach h' (Some l) r -> (r ∉ dom h) /\ r ∈ dom h') /\ separate h' l.
Proof.
  intros Hb. unfold clone_map.
  destruct (clone_entries _ _ _) as [m h1] eqn:He. intros [Hl ->]%alloc_spec.
  apply clone_entries_spec in He as (Hs & Hv & Hn & Hi).
  2: { intros k a Hin%elem_of_map_to_list r Hr. apply Hb. right. eauto. }
  rewrite list_to_map_to_list in Hv.
  assert (Hd : view (deref (<[l := C m]> h1) (Some l)) = m) by (cbn; by rewrite lookup_insert_eq, view_C).
  assert (Hne : forall k a r, m !! k = Some a -> ref a = Some r -> r <> l).
  { intros k a r Hk Hr ->. apply Hl. by eapply Hn. }
  assert (Hlh : l ∉ dom h) by (intros Hx; apply Hl; by eapply grown_dom).
  split; [by apply write_new|]. split; [|split].
  - rewrite Hd, <-Hv. apply map_fmap_ext. intros k a Hk. apply val_local. intros r Hr.
    rewrite lookup_insert_ne; [done | apply not_eq_sym; eauto].
  - intros r [[= <-]|(k & a & Hk & Hr)]; [split; [done | set_solver]|].
    rewrite Hd in Hk. destruct (Hn _ _ Hk _ Hr) as [Hr1 Hr2]. split; [done | set_solver].
  - split; rewrite Hd; [intros k a Hk Hr; by eapply Hne | exact Hi].
Qed.

(** Writing entry [k] of a separate map, after cells that no other entry refers to. *)
Lemma write_entry h h2 l k a :
  separate h l ->
  h2 !! l = h !! l ->
  (forall k' a' r, k' <> k -> view (deref h (Some l)) !! k' = Some a' -> ref a' = Some r -> h2 !! r = h !! r) ->
  ref a <> Some l ->
  let h3 := <[l := C (<[k := a]> (view (deref h2 (Some l))))]> h2 in
  val h3 <$> view (deref h3 (Some l)) = <[k := val h2 a]> (val h <$> view (deref h (Some l))).
Proof.
  intros [Hsep _] Hl Hother Ha h3. unfold h3 at 2. cbn. rewrite lookup_insert_eq, view_C, Hl.
  apply map_eq. intros k'. destruct (decide (k' = k)) as [->|Hk].
  - rewrite lookup_insert_eq, lookup_fmap, lookup_insert_eq. cbn. f_equal.
    apply val_local. intros r Hr. apply lookup_insert_ne. congruence.
  - rewrite lookup_insert_ne, !lookup_fmap, lookup_insert_ne by done. cbn in *.
    destruct (view (h !! l) !! k') as [a'|] eqn:Hk'; [|done]. cbn. f_equal.
    apply val_local. intros r Hr. unfold h3. rewrite lookup_insert_ne; [by eapply Hother|].
    intros ->. by eapply Hsep.
Qed.

(** Clone a map, then write one entry of the clone: nothing that was in the heap [hb] before
    changes, and everything the new map refers to is new since [hb]. *)
Lemma clone_write hb h o l h1 h2 k a :
  hb ⊆ h -> (forall r, reach h o r -> r ∈ dom h) -> clone_map C view clone o h = (l, h1) ->
  hb ⊆ h2 -> dom h1 ⊆ dom h2 -> h2 !! l = h1 !! l ->
  (forall k' a' r, k' <> k -> view (deref h1 (Some l)) !! k' = Some a' -> ref a' = Some r -> h2 !! r = h1 !! r) ->
  ref a <> Some l -> new_in hb h2 (ref a) ->
  let h3 := <[l := C (<[k := a]> (view (deref h2 (Some l))))]> h2 in
  hb ⊆ h3 /\
  val h3 <$> view (deref h3 (Some l)) = <[k := val h2 a]> (val h <$> view (deref h o)) /\
  (forall r, reach h3 (Some l) r -> (r ∉ dom hb) /\ r ∈ dom h3).
Proof.
  intros Hhb Hb Hc Hh2 Hdom Hl Ho Ha Hn h3.
  apply clone_map_spec in Hc as (Hs & Hv & Hnew & Hsep); [|done].
  pose proof (subseteq_dom _ _ Hhb) as Hd0. destruct (Hnew l ltac:(by left)) as [Hl1 Hl2].
  assert (Hd3 : dom h3 = {[l]} ∪ dom h2) by apply dom_insert_L.
  split; [apply write_new; [done | set_solver]|]. split; [by rewrite <-Hv; apply write_entry|].
  intros r [[= <-]|(k' & a' & Hk & Hr)]; [set_solver|].
  unfold h3 in Hk. cbn in Hk. rewrite lookup_insert_eq, view_C, lookup_insert_Some in Hk.
  destruct Hk as [[-> ->]|[_ Hk]].
  - destruct (Hn _ Hr). set_solver.
  - rewrite Hl in Hk. destruct (Hnew r); [right; eauto | set_solver].
Qed.

End Tree.

(** ** The clones *)

Definition reach_l1 (h : heap) (c : L1Config) : loc -> Prop := reach view_shards Prefixes h (Shards c).
Definition reach_l2s (h : heap) (o : option loc) : loc -> Prop := reach view_l2s Models h o.

(** The cells the store's contents are made of. *)
Definition owned (h : heap) (s : ConfigStore) (l : loc) : Prop :=
  reach_l1 h (cs_l1 s) l \/ reach_l2s h (cs_l2 s) l.

Lemma val_shard_local h h' a :
  (forall l, Prefixes a = Some l -> h' !! l = h !! l) -> val_shard h' a = val_shard h a.
Proof. intros H%deref_agree. unfold val_shard. by rewrite H. Qed.

Lemma val_l2_local h h' a :
  (forall l, Models a = Some l -> h' !! l = h !! l) -> val_l2 h' a = val_l2 h a.
Proof. intros H%deref_agree. unfold val_l2. by rewrite H. Qed.

Lemma clone_slice_spec o h p h' :
  clone_slice o h = (p, h') -> h ⊆ h' /\ arr_at h' p = arr_at h o /\ new_in h h' p.
Proof.
  unfold clone_slice. destruct (arr_at h o) as [|x xs].
  - intros [= <- <-]. done.
  - destruct (alloc _ h) as [l h1] eqn:Ha. intros [= <- <-].
    apply alloc_new in Ha as (Hs & Hd & Hn). by rewrite Hd.
Qed.

Lemma clone_shard_spec a h a' h' :
  bound h (Prefixes a) -> clone_shard a h = (a', h') ->
  h ⊆ h' /\ val_shard h' a' = val_shard h a /\ new_in h h' (Prefixes a').
Proof.
  intros _. unfold clone_shard. destruct (clone_slice _ h) as [p h1] eqn:Hc. intros [= <- <-].
  apply clone_slice_spec in Hc as (Hs & Hv & Hn). unfold val_shard. cbn [sh_Target Prefixes sh_Shard Status]. by rewrite Hv.
Qed.

Lemma cloneL2Config_spec a h a' h' :
  bound h (Models a) -> cloneL2Config a h = (a', h') ->
  h ⊆ h' /\ val_l2 h' a' = val_l2 h a /\ new_in h h' (Models a').
Proof.
  intros _. destruct a as [v [r|]]; unfold cloneL2Config, clone_models; cbn [Models l2_Version].
  - destruct (alloc _ h) as [l h1] eqn:Ha. intros [= <- <-].
    apply alloc_new in Ha as (Hs & Hd & Hn). unfold val_l2. cbn [Models l2_Version]. by rewrite Hd.
  - by intros [= <- <-].
Qed.

Lemma clone_shards_spec o h l h' :
  (forall r, reach view_shards Prefixes h o r -> r ∈ dom h) ->
  clone_map CShards view_shards clone_shard o h = (l, h') ->
  h ⊆ h' /\ val_shard h' <$> shards_at h' (Some l) = val_shard h <$> shards_at h o /\
  (forall r, reach view_shards Prefixes h' (Some l) r -> (r ∉ dom h) /\ r ∈ dom h') /\
  separate view_shards Prefixes h' l.
Proof. apply clone_map_spec; [done | apply val_shard_local | apply clone_shard_spec]. Qed.

Lemma cloneL1Config_spec c h c' h' :
  (forall r, reach_l1 h c r -> r ∈ dom h) -> cloneL1Config c h = (c', h') ->
  h ⊆ h' /\ val_l1 h' c' = val_l1 h c /\ (forall r, reach_l1 h' c' r -> (r ∉ dom h) /\ r ∈ dom h').
Proof.
  intros Hb. unfold cloneL1Config. destruct (clone_map _ _ _ _ _) as [l h1] eqn:Hc. intros [= <- <-].
  apply clone_shards_spec in Hc as (Hs & Hv & Hn & _); [|done].
  split; [done|]. split; [unfold val_l1; cbn; by f_equal | exact Hn].
Qed.

Lemma cloneL2Configs_spec o h l h' :
  (forall r, reach_l2s h o r -> r ∈ dom h) -> cloneL2Configs o h = (l, h') ->
  h ⊆ h' /\ val_l2s h' (Some l) = val_l2s h o /\
  (forall r, reach_l2s h' (Some l) r -> (r ∉ dom h) /\ r ∈ dom h') /\ separate view_l2s Models h' l.
Proof. apply clone_map_spec; [done | apply val_l2_local | apply cloneL2Config_spec]. Qed.

(** What happens outside the store's cells does not show in it. *)
Lemma l1_frame h h' c :
  (forall l, reach_l1 h c l -> h' !! l = h !! l) ->
  val_l1 h' c = val_l1 h c /\ (forall l, reach_l1 h' c l <-> reach_l1 h c l).
Proof.
  intros [Hv Hr]%(tree_frame _ _ val_shard val_shard_local). split; [unfold val_l1; by f_equal | exact Hr].
Qed.

Lemma l2s_frame h h' o :
  (forall l, reach_l2s h o l -> h' !! l = h !! l) ->
  val_l2s h' o = val_l2s h o /\ (forall l, reach_l2s h' o l <-> reach_l2s h o l).
Proof. apply (tree_frame _ _ val_l2 val_l2_local). Qed.

Lemma store_frame h h' s :
  (forall l, owned h s l -> h' !! l = h !! l) ->
  val_store h' s = val_store h s /\ (forall l, owned h' s l <-> owned h s l).
Proof.
  intros H. destruct (l1_frame h h' (cs_l1 s)) as [H1 H2]; [intros; apply H; by left|].
  destruct (l2s_frame h h' (cs_l2 s)) as [H3 H4]; [intros; apply H; by right|].
  split; [unfold val_store; by f_equal | intros l; unfold owned; by rewrite H2, H4].
Qed.

(** ** The store by value *)

Definition spec_shard_update (u : ShardUpdate) (prefixes : list string) (v : StoreVal) :
    option store_error * StoreVal :=
  if decide (su_Name u = "") then (Some ShardNameRequired, v)
  else if decide (su_Target u = "") then (Some (ShardTargetRequired (su_Name u)), v)
  else
    let shard := mkShardVal (su_Target u) prefixes (su_Shard u) (su_Status u) in
    (None, mkStoreVal (mkL1Val (or_string (su_Version u) "updated") (lv_DefaultShard (v_l1 v))
                         (<[su_Name u := shard]> (lv_Shards (v_l1 v)))) (v_l2 v)).

Definition spec_model_update (u : ModelUpdate) (v : StoreVal) : option store_error * StoreVal :=
  if decide (mu_Shard u = "") then (Some ShardRequired, v)
  else if decide (mu_Name u = "") then (Some ModelNameRequired, v)
  else if decide (mu_Target u = "") then (Some (ModelTargetRequired (mu_Name u)), v)
  else if decide (mu_Provider u = "") then (Some (ModelProviderRequired (mu_Name u)), v)
  else
    let models := default ∅ (v2_Models <$> v_l2 v !! mu_Shard u) in
    let c := mkL2Val (or_string (mu_Version u) "updated") (<[mu_Name u := update_model u]> models) in
    (None, mkStoreVal (v_l1 v) (<[mu_Shard u := c]> (v_l2 v))).

(** What the callers of the store see: arguments and results by value. *)
Inductive event :=
  | EvL1 (c : L1Val)
  | EvL2 (shard : string) (c : L2Val) (found : bool)
  | EvDump (l1 : L1Val) (l2 : gmap string DumpL2Config)
  | EvShard (u : ShardUpdate) (prefixes : list string) (err : option store_error)
  | EvModel (u : ModelUpdate) (err : option store_error)
  | EvCaller.

Definition dump_l2 (c : L2Val) : DumpL2Config := mkDumpL2 (v2_Version c) (dump_model <$> v2_Models c).

Inductive spec_step : StoreVal -> event -> StoreVal -> Prop :=
  | spec_L1 v : spec_step v (EvL1 (v_l1 v)) v
  | spec_L2 v shard :
      spec_step v (EvL2 shard (default (mkL2Val "" ∅) (v_l2 v !! shard)) (bool_decide (is_Some (v_l2 v !! shard)))) v
  | spec_Dump v : spec_step v (EvDump (v_l1 v) (dump_l2 <$> v_l2 v)) v
  | spec_UpsertShard v u ps e v' : spec_shard_update u ps v = (e, v') -> spec_step v (EvShard u ps e) v'
  | spec_UpsertModel v u e v' : spec_model_update u v = (e, v') -> spec_step v (EvModel u e) v'
  | spec_Caller v : spec_step v EvCaller v.

(** ** The store and its callers *)

(** [callers]: the cells callers may write, those they allocated and those results handed out. *)
Record system := mkSystem { y_heap : heap; y_store : ConfigStore; y_callers : gset loc }.

Inductive sys_step : system -> event -> system -> Prop :=
  | step_L1 h s K c h' :
      L1 s h = (c, h') -> sys_step (mkSystem h s K) (EvL1 (val_l1 h' c)) (mkSystem h' s (K ∪ (dom h' ∖ dom h)))
  | step_L2 h s K shard c ok h' :
      L2 s shard h = ((c, ok), h') ->
      sys_step (mkSystem h s K) (EvL2 shard (val_l2 h' c) ok) (mkSystem h' s (K ∪ (dom h' ∖ dom h)))
  | step_Dump h s K c m h' :
      Dump s h = ((c, m), h') ->
      sys_step (mkSystem h s K) (EvDump (val_l1 h' c) m) (mkSystem h' s (K ∪ (dom h' ∖ dom h)))
  | step_UpsertShard h s K u e s' h' :
      UpsertShard u s h = (e, s', h') ->
      sys_step (mkSystem h s K) (EvShard u (arr_at h (su_Prefixes u)) e) (mkSystem h' s' K)
  | step_UpsertModel h s K u e s' h' :
      UpsertModel u s h = (e, s', h') -> sys_step (mkSystem h s K) (EvModel u e) (mkSystem h' s' K)
  | step_write h s K l c : l ∈ K -> sys_step (mkSystem h s K) EvCaller (mkSystem (<[l := c]> h) s K)
  | step_alloc h s K l h' c :
      alloc c h = (l, h') -> sys_step (mkSystem h s K) EvCaller (mkSystem h' s ({[l]} ∪ K)).

Definition isolated (y : system) : Prop :=
  y_callers y ⊆ dom (y_heap y) /\
  forall l, owned (y_heap y) (y_store y) l -> l ∈ dom (y_heap y) /\ (l ∉ y_callers y).

(** ** Simulation *)

Lemma store_grown h h' s :
  (forall l, owned h s l -> l ∈ dom h) -> h ⊆ h' ->
  val_store h' s = val_store h s /\ (forall l, owned h' s l <-> owned h s l).
Proof. intros Hb Hs. apply store_frame. intros l Hl. apply grown_lookup; auto. Qed.

(** An operation that grows the heap, and whose store is made of cells it had or allocated,
    keeps the callers out. *)
Lemma isolated_grown h h' s s' K :
  isolated (mkSystem h s K) -> h ⊆ h' ->
  (forall l, owned h' s' l -> (owned h s l \/ l ∉ dom h) /\ l ∈ dom h') ->
  isolated (mkSystem h' s' K).
Proof.
  intros [HK Ho] Hs Hn. cbn in *. split; cbn.
  - etrans; [exact HK | by apply subseteq_dom].
  - intros l [Hl Hd]%Hn. split; [done|]. destruct Hl as [Hl%Ho|Hl]; [tauto | set_solver].
Qed.

Lemma isolated_read h h' s K :
  isolated (mkSystem h s K) -> h ⊆ h' ->
  val_store h' s = val_store h s /\ isolated (mkSystem h' s (K ∪ (dom h' ∖ dom h))).
Proof.
  intros [HK Ho] Hs. cbn in *. destruct (store_grown h h' s) as [Hv Hi]; [apply Ho | done |].
  split; [done|]. pose proof (subseteq_dom _ _ Hs) as Hd. split; cbn; [set_solver|].
  intros l [Hl Hk]%Hi%Ho. set_solver.
Qed.

Lemma kept_owned h h' s : (forall l, owned h s l -> l ∈ dom h) -> h ⊆ h' ->
  forall l, owned h' s l -> (owned h s l \/ l ∉ dom h) /\ l ∈ dom h'.
Proof.
  intros Hb Hs l Hl. apply (store_grown h h' s Hb Hs) in Hl. split; [by left|].
  apply (grown_dom h); auto.
Qed.

Lemma spec_L2_value (m : gmap string L2Config) h shard :
  val_l2 h (default (mkL2 "" None) (m !! shard)) = default (mkL2Val "" ∅) ((val_l2 h <$> m) !! shard) /\
  bool_decide (is_Some (m !! shard)) = bool_decide (is_Some ((val_l2 h <$> m) !! shard)).
Proof. rewrite lookup_fmap. by destruct (m !! shard). Qed.

Lemma read_step h s K ev h' c :
  isolated (mkSystem h s K) ->
  (L1 s h = (c, h') /\ ev = EvL1 (val_l1 h' c)) \/ (exists m, Dump s h = ((c, m), h') /\ ev = EvDump (val_l1 h' c) m) ->
  h ⊆ h' /\ spec_step (val_store h s) ev (val_store h s).
Proof.
  intros [_ Ho] H. cbn in Ho.
  assert (Hb : forall r, reach_l1 h (cs_l1 s) r -> r ∈ dom h) by (intros r Hr; by apply Ho; left).
  destruct H as [[Hl ->]|(m & Hd & ->)].
  - apply cloneL1Config_spec in Hl as (Hs & Hv & _); [|done]. split; [done|]. rewrite Hv.
    apply (spec_L1 (val_store h s)).
  - unfold Dump in Hd. destruct (cloneL1Config _ h) as [c1 h1] eqn:Hl. revert Hd. intros [= <- <- <-].
    apply cloneL1Config_spec in Hl as (Hs & Hv & _); [|done]. split; [done|]. rewrite Hv.
    assert (Hq : val_l2s h1 (cs_l2 s) = val_l2s h (cs_l2 s)).
    { apply l2s_frame. intros r Hr. apply grown_lookup; [done|]. by apply Ho; right. }
    assert (Hm : (fun c => mkDumpL2 (l2_Version c) (dump_model <$> models_at h1 (Models c))) <$> l2s_at h1 (cs_l2 s)
                 = dump_l2 <$> val_l2s h (cs_l2 s)).
    { rewrite <-Hq. unfold val_l2s. by rewrite <-map_fmap_compose. }
    rewrite Hm. apply (spec_Dump (val_store h s)).
Qed.

Lemma L2_step h s K shard c ok h' :
  isolated (mkSystem h s K) -> L2 s shard h = ((c, ok), h') ->
  h ⊆ h' /\ spec_step (val_store h s) (EvL2 shard (val_l2 h' c) ok) (val_store h s).
Proof.
  intros [_ Ho] H. cbn in Ho. unfold L2 in H.
  destruct (cloneL2Config _ h) as [c1 h1] eqn:Hc. revert H. intros [= <- <- <-].
  apply cloneL2Config_spec in Hc as (Hs & Hv & _).
  - split; [done|]. rewrite Hv. destruct (spec_L2_value (l2s_at h (cs_l2 s)) h shard) as [-> ->].
    apply (spec_L2 (val_store h s)).
  - intros l. destruct (l2s_at h (cs_l2 s) !! shard) as [c0|] eqn:H0; cbn; [|done].
    intros Hl. apply Ho. right. right. eauto.
Qed.

Lemma validateShard_value name s :
  name <> "" -> validateShard name s = if decide (sh_Target s = "") then Some (ShardTargetRequired name) else None.
Proof. intros H. unfold validateShard. by rewrite decide_False. Qed.

(** The copy of the shards with the update written into it. *)
Lemma shard_written h h1 h2 p s l u :
  (forall r, owned h s r -> r ∈ dom h) -> clone_slice (su_Prefixes u) h = (p, h1) ->
  clone_map CShards view_shards clone_shard (Shards (cs_l1 s)) h1 = (l, h2) ->
  let next := mkShard (su_Target u) p (su_Shard u) (su_Status u) in
  let h3 := <[l := CShards (<[su_Name u := next]> (shards_at h2 (Some l)))]> h2 in
  h ⊆ h3 /\
  val_shard h3 <$> shards_at h3 (Some l) =
    <[su_Name u := mkShardVal (su_Target u) (arr_at h (su_Prefixes u)) (su_Shard u) (su_Status u)]>
      (val_shard h <$> shards_at h (Shards (cs_l1 s))) /\
  (forall r, reach view_shards Prefixes h3 (Some l) r -> (r ∉ dom h) /\ r ∈ dom h3).
Proof.
  intros Hb Hc Hm next h3. apply clone_slice_spec in Hc as (Hs1 & Hv1 & Hn1).
  pose proof (store_grown h h1 s Hb Hs1) as [Hq1 Ho1].
  assert (Hb1 : forall r, reach view_shards Prefixes h1 (Shards (cs_l1 s)) r -> r ∈ dom h1).
  { intros r Hr. apply (grown_dom h); [done|]. apply Hb, Ho1. by left. }
  pose proof (clone_shards_spec _ _ _ _ Hb1 Hm) as (Hs2 & _ & Hn2 & _).
  destruct (Hn2 l ltac:(by left)) as [Hl1 Hl2].
  destruct (clone_write CShards view_shards Prefixes val_shard clone_shard ltac:(done) val_shard_local
              clone_shard_spec h h1 (Shards (cs_l1 s)) l h2 h2 (su_Name u) next) as (H1 & H2 & H3);
    try done; [by etrans | intros Hp; by apply Hl1, Hn1 | by apply (new_weaken h h h1 h2) |].
  split; [exact H1|]. split; [|exact H3]. etrans; [exact H2|]. f_equal; [|by injection Hq1].
  unfold val_shard, next. cbn [sh_Target Prefixes sh_Shard Status]. rewrite <-Hv1. f_equal. f_equal.
  apply deref_agree. intros r Hr. apply grown_lookup; [done | by apply Hn1].
Qed.

Lemma UpsertShard_spec u s h e s' h' :
  (forall l, owned h s l -> l ∈ dom h) -> UpsertShard u s h = (e, s', h') ->
  h ⊆ h' /\ spec_shard_update u (arr_at h (su_Prefixes u)) (val_store h s) = (e, val_store h' s') /\
  (forall l, owned h' s' l -> (owned h s l \/ l ∉ dom h) /\ l ∈ dom h').
Proof.
  intros Hb. unfold UpsertShard, spec_shard_update. destruct (decide (su_Name u = "")) as [Hn|Hn].
  { intros [= <- <- <-]. split; [done|]. split; [done | by apply kept_owned]. }
  destruct (clone_slice _ h) as [p h1] eqn:Hc. pose proof (clone_slice_spec _ _ _ _ Hc) as (Hs1 & _ & _).
  rewrite validateShard_value by done. cbn [sh_Target]. destruct (decide (su_Target u = "")) as [Ht|Ht].
  { intros [= <- <- <-]. split; [done|]. split; [by rewrite (proj1 (store_grown h h1 s Hb Hs1)) | by apply kept_owned]. }
  destruct (clone_map _ _ _ _ h1) as [l h2] eqn:Hm.
  pose proof (shard_written h h1 h2 p s l u Hb Hc Hm) as (Hs & Hv & Hn3).
  set (h3 := <[l := _]> h2) in *. intros [= <- <- <-].
  pose proof (store_grown h h3 s Hb Hs) as [Hq3 Ho3].
  split; [exact Hs|]. split.
  - cbn -[val_shard deref]. unfold val_store. cbn [cs_l1 cs_l2]. f_equal. f_equal; [|by injection Hq3].
    unfold val_l1. cbn [Shards l1_Version DefaultShard]. by rewrite Hv.
  - intros r [Hr|Hr]; [by split; [right|]; apply Hn3|].
    apply (kept_owned h h3 s); [done | done | by right].
Qed.

Lemma models_cell_spec c h lm h' :
  models_cell c h = (lm, h') ->
  h ⊆ h' /\ models_at h' (Some lm) = models_at h (Models c) /\
  (Models c = Some lm \/ ((lm ∉ dom h) /\ Models c = None)).
Proof.
  unfold models_cell. destruct (Models c) as [r|].
  - intros [= <- <-]. split; [done|]. split; [done | by left].
  - intros (Hs & Hd & Hn)%alloc_new. split; [done|]. rewrite Hd. split; [done|].
    right. split; [by apply Hn | done].
Qed.

Lemma models_value h (o : option loc) (v : gmap string L2Val) shard :
  val_l2s h o = v ->
  models_at h (Models (default (mkL2 "" None) (l2s_at h o !! shard))) = default ∅ (v2_Models <$> v !! shard).
Proof. intros <-. unfold val_l2s. rewrite lookup_fmap. by destruct (l2s_at h o !! shard). Qed.

(** The copy of the shards' models with the update written into it. *)
Lemma model_written h h1 h2 o l lm u :
  (forall r, reach_l2s h o r -> r ∈ dom h) -> cloneL2Configs o h = (l, h1) ->
  models_cell (default (mkL2 "" None) (l2s_at h1 (Some l) !! mu_Shard u)) h1 = (lm, h2) ->
  let h3 := <[lm := CModels (<[mu_Name u := update_model u]> (models_at h2 (Some lm)))]> h2 in
  let c := mkL2 (or_string (mu_Version u) "updated") (Some lm) in
  let h4 := <[l := CL2s (<[mu_Shard u := c]> (l2s_at h3 (Some l)))]> h3 in
  h ⊆ h4 /\
  val_l2s h4 (Some l) =
    <[mu_Shard u := mkL2Val (or_string (mu_Version u) "updated")
        (<[mu_Name u := update_model u]> (default ∅ (v2_Models <$> val_l2s h o !! mu_Shard u)))]> (val_l2s h o) /\
  (forall r, reach_l2s h4 (Some l) r -> (r ∉ dom h) /\ r ∈ dom h4).
Proof.
  intros Hb Hc Hm h3 c h4. pose proof (cloneL2Configs_spec _ _ _ _ Hb Hc) as (Hs1 & Hv1 & Hn1 & Hsep1 & Hsep2).
  apply models_cell_spec in Hm as (Hs2 & Hv2 & Hlm).
  assert (Hd3 : dom h3 = {[lm]} ∪ dom h2) by apply dom_insert_L.
  pose proof (subseteq_dom _ _ Hs1) as Hd1. pose proof (subseteq_dom _ _ Hs2) as Hd2.
  destruct (Hn1 l ltac:(by left)) as [Hl1 Hl2].
  assert (Hentry : Models (default (mkL2 "" None) (l2s_at h1 (Some l) !! mu_Shard u)) = Some lm ->
                   exists a, l2s_at h1 (Some l) !! mu_Shard u = Some a /\ Models a = Some lm).
  { destruct (l2s_at h1 (Some l) !! mu_Shard u) as [a|]; cbn; [eauto | done]. }
  assert (Hnew : (lm ∉ dom h) /\ lm <> l).
  { destruct Hlm as [(a & Ha & Hr)%Hentry|[Hx _]]; [|set_solver].
    split; [apply Hn1; right; eauto | intros ->; by eapply Hsep1]. }
  destruct Hnew as [Hlh Hll].
  destruct (clone_write CL2s view_l2s Models val_l2 cloneL2Config ltac:(done) val_l2_local
              cloneL2Config_spec h h o l h1 h3 (mu_Shard u) c) as (H1 & H2 & H3); try done.
  - apply write_new; [by etrans | done].
  - set_solver.
  - unfold h3. rewrite lookup_insert_ne by done. by apply grown_lookup.
  - intros k' a' r Hk Ha Hr. unfold h3. rewrite lookup_insert_ne.
    + apply grown_lookup; [done|]. apply Hn1. right. eauto.
    + intros ->. destruct Hlm as [(a & Ha2 & Hr2)%Hentry|[Hx _]]; [by apply Hk; eapply Hsep2|].
      apply Hx, Hn1. right. eauto.
  - cbn. congruence.
  - intros r [= <-]. set_solver.
  - split; [exact H1|]. split; [|exact H3]. etrans; [exact H2|]. f_equal.
    unfold val_l2, c. cbn [Models l2_Version]. f_equal. unfold h3. cbn. rewrite lookup_insert_eq. cbn.
    f_equal. by rewrite <-(models_value h1 (Some l) _ (mu_Shard u) Hv1), <-Hv2.
Qed.

Lemma validateModel_value name m :
  name <> "" -> validateModel name m =
    if decide (md_Target m = "") then Some (ModelTargetRequired name)
    else if decide (Provider m = "") then Some (ModelProviderRequired name) else None.
Proof. intros H. unfold validateModel. by rewrite decide_False. Qed.

Lemma UpsertModel_spec u s h e s' h' :
  (forall l, owned h s l -> l ∈ dom h) -> UpsertModel u s h = (e, s', h') ->
  h ⊆ h' /\ spec_model_update u (val_store h s) = (e, val_store h' s') /\
  (forall l, owned h' s' l -> (owned h s l \/ l ∉ dom h) /\ l ∈ dom h').
Proof.
  intros Hb. unfold UpsertModel, spec_model_update.
  assert (Hsame : h ⊆ h /\ (forall l, owned h s l -> (owned h s l \/ l ∉ dom h) /\ l ∈ dom h)) by (split; auto).
  destruct Hsame as [Hs0 Ho0].
  case_decide; [intros [= <- <- <-]; by split_and!|]. case_decide; [intros [= <- <- <-]; by split_and!|].
  rewrite validateModel_value by done. cbn [update_model md_Target Provider].
  case_decide; [intros [= <- <- <-]; by split_and!|]. case_decide; [intros [= <- <- <-]; by split_and!|].
  destruct (cloneL2Configs _ h) as [l h1] eqn:Hc. destruct (models_cell _ h1) as [lm h2] eqn:Hm.
  destruct (model_written h h1 h2 (cs_l2 s) l lm u) as (Hs & Hv & Hn); [intros r Hr; by apply Hb; right | done | done |].
  set (h4 := <[l := _]> _) in *. intros [= <- <- <-].
  pose proof (store_grown h h4 s Hb Hs) as [Hq4 Ho4].
  split; [exact Hs|]. split.
  - unfold val_store. cbn [v_l1 v_l2 cs_l1 cs_l2]. f_equal. f_equal; [exact (eq_sym (f_equal v_l1 Hq4)) | by rewrite Hv].
  - intros r [Hr|Hr]; [apply (kept_owned h h4 s); [done | done | by left]|].
    by split; [right|]; apply Hn.
Qed.

Lemma sys_step_refines y ev y' :
  isolated y -> sys_step y ev y' ->
  isolated y' /\ spec_step (val_store (y_heap y) (y_store y)) ev (val_store (y_heap y') (y_store y')).
Proof.
  intros Hi Hstep. pose proof Hi as [HK Ho].
  destruct Hstep as [h s K c h' H|h s K shard c ok h' H|h s K c m h' H|h s K u e s' h' H|h s K u e s' h' H
                    |h s K l c H|h s K l h' c H]; cbn [y_heap y_store y_callers] in *.
  1-3: (destruct (read_step h s K (EvL1 (val_l1 h' c)) h' c Hi) as [Hs Hsp]; [by left|])
       || (destruct (L2_step h s K shard c ok h' Hi H) as [Hs Hsp])
       || (destruct (read_step h s K (EvDump (val_l1 h' c) m) h' c Hi) as [Hs Hsp]; [by right; eauto|]);
       destruct (isolated_read h h' s K Hi Hs) as [-> Hi']; auto.
  - apply UpsertShard_spec in H as (Hs & Hsp & Hn); [|intros; by apply Ho].
    split; [by eapply isolated_grown | by constructor].
  - apply UpsertModel_spec in H as (Hs & Hsp & Hn); [|intros; by apply Ho].
    split; [by eapply isolated_grown | by constructor].
  - destruct (store_frame h (<[l := c]> h) s) as [-> Hf].
    { intros r [_ Hr]%Ho. apply lookup_insert_ne. set_solver. }
    split; [|constructor]. split; cbn; [set_solver|]. intros r [Hr1 Hr2]%Hf%Ho. set_solver.
  - pose proof (alloc_new _ _ _ _ H) as (Hs & _ & Hl). destruct (Hl l eq_refl) as [Hl1 Hl2].
    destruct (store_grown h h' s) as [-> Hf]; [intros; by apply Ho | done |].
    pose proof (subseteq_dom _ _ Hs). split; [|constructor]. split; cbn; [set_solver|].
    intros r [Hr1 Hr2]%Hf%Ho. set_solver.
Qed.

(** ** What a store's contents satisfy *)

Definition valid_l2 (shard : string) (c : L2Val) : Prop :=
  shard <> "" /\ v2_Version c <> "" /\
  map_Forall (fun k m => k <> "" /\ md_Target m <> "" /\ Provider m <> "") (v2_Models c).

Definition valid_store (v : StoreVal) : Prop :=
  lv_Version (v_l1 v) <> "" /\ lv_DefaultShard (v_l1 v) <> "" /\
  is_Some (lv_Shards (v_l1 v) !! lv_DefaultShard (v_l1 v)) /\
  map_Forall (fun k s => k <> "" /\ sv_Target s <> "") (lv_Shards (v_l1 v)) /\
  map_Forall valid_l2 (v_l2 v).

Lemma or_string_nonempty s d : d <> "" -> or_string s d <> "".
Proof. unfold or_string. by case_decide. Qed.

Lemma shard_update_valid u ps v e v' : valid_store v -> spec_shard_update u ps v = (e, v') -> valid_store v'.
Proof.
  intros Hv. unfold spec_shard_update. case_decide; [by intros [= _ <-]|]. case_decide; [by intros [= _ <-]|].
  intros [= _ <-]. destruct Hv as (H1 & H2 & H3 & H4 & H5). split_and!; cbn; [by apply or_string_nonempty | done | | | done].
  - destruct (decide (su_Name u = lv_DefaultShard (v_l1 v))) as [->|]; [by rewrite lookup_insert_eq | by rewrite lookup_insert_ne].
  - by apply map_Forall_insert_2.
Qed.

Lemma model_update_valid u v e v' : valid_store v -> spec_model_update u v = (e, v') -> valid_store v'.
Proof.
  intros Hv. unfold spec_model_update. do 4 (case_decide; [by intros [= _ <-]|]).
  intros [= _ <-]. destruct Hv as (H1' & H2' & H3' & H4' & H5'). split_and!; cbn; try done.
  apply map_Forall_insert_2; [|done]. split_and!; cbn; [done | by apply or_string_nonempty|].
  apply map_Forall_insert_2; [done|].
  destruct (v_l2 v !! mu_Shard u) as [c|] eqn:Hc; cbn; [|apply map_Forall_empty].
  by apply H5' in Hc as (_ & _ & Hc).
Qed.

Lemma spec_step_valid v ev v' : valid_store v -> spec_step v ev v' -> valid_store v'.
Proof.
  intros Hv Hs. destruct Hs; try done; eauto using shard_update_valid, model_update_valid.
Qed.

(** ** Creation *)

Definition fill_l2_val (c : L2Val) : L2Val := mkL2Val (or_string (v2_Version c) defaultVersion) (v2_Models c).

Definition spec_initial (l1 : L1Val) (l2 : gmap string L2Val) : StoreVal :=
  mkStoreVal (mkL1Val (or_string (lv_Version l1) defaultVersion) (or_string (lv_DefaultShard l1) "a") (lv_Shards l1))
             (fill_l2_val <$> l2).

Lemma first_error_none {A} (check : string -> A -> option store_error) l k a :
  first_error check l = None -> (k, a) ∈ l -> check k a = None.
Proof.
  induction l as [|[k' a'] l IH]; cbn; [by intros _ ?%not_elem_of_nil|].
  destruct (check k' a') eqn:Hc; [done|]. intros H [[= -> ->]|Hin]%elem_of_cons; auto.
Qed.

Lemma validateL2_valid h shard c : validateL2 h shard c = None -> valid_l2 shard (val_l2 h c).
Proof.
  unfold validateL2. do 2 (case_decide; [done|]). intros He. split_and!; [done | done |].
  intros k m Hk%elem_of_map_to_list. apply (first_error_none _ _ _ _ He) in Hk.
  unfold validateModel in Hk. by repeat case_decide.
Qed.

Lemma validateL1_valid h c l2 :
  validateL1 h c = None -> map_Forall valid_l2 l2 -> valid_store (mkStoreVal (val_l1 h c) l2).
Proof.
  unfold validateL1. do 2 (case_decide; [done|]).
  destruct (shards_at h (Shards c) !! DefaultShard c) eqn:Hd; [|done]. intros He H2.
  split_and!; cbn -[deref]; [done | done | by rewrite lookup_fmap, Hd | | done].
  intros k v. rewrite lookup_fmap. intros (s' & Hk & ->)%fmap_Some.
  apply elem_of_map_to_list, (first_error_none _ _ _ _ He) in Hk.
  unfold validateShard in Hk. by repeat case_decide.
Qed.

(** One turn of the loop: where the entry's models are, and what it then means. *)
Lemma fill_entry c h lm h1 :
  bound h (Models c) -> models_cell c h = (lm, h1) ->
  let c' := mkL2 (or_string (l2_Version c) defaultVersion) (Some lm) in
  h ⊆ h1 /\ lm ∈ dom h1 /\ ((lm ∉ dom h) \/ Models c = Some lm) /\ val_l2 h1 c' = fill_l2_val (val_l2 h c).
Proof.
  intros Hb Hm. unfold val_l2, fill_l2_val. cbn [Models l2_Version v2_Models v2_Version].
  pose proof (models_cell_spec _ _ _ _ Hm) as (Hs & -> & Hl). unfold models_cell in Hm.
  destruct (Models c) as [r|]; [injection Hm as -> ->|apply alloc_new in Hm as (_ & _ & Hn)].
  - split_and!; [done | by apply Hb | by right | done].
  - destruct (Hn lm eq_refl). split_and!; [done | done | by left | done].
Qed.

Lemma fill_l2s_spec entries : forall h m h',
  (forall k a, (k, a) ∈ entries -> bound h (Models a)) -> fill_l2s entries h = (inr m, h') ->
  h ⊆ h' /\ val_l2 h' <$> m = fill_l2_val <$> (val_l2 h <$> (list_to_map entries : gmap string L2Config)) /\
  map_Forall (fun _ a => forall r, Models a = Some r ->
    r ∈ dom h' /\ ((r ∉ dom h) \/ exists k0 a0, (k0, a0) ∈ entries /\ Models a0 = Some r)) m /\
  map_Forall valid_l2 (val_l2 h' <$> m).
Proof.
  induction entries as [|[shard c] entries IH]; intros h m h' Hb; cbn -[models_cell].
  { intros [= <- <-]. by rewrite !fmap_empty; split_and!; try apply map_Forall_empty. }
  destruct (models_cell c h) as [lm h1] eqn:Hm. set (c' := mkL2 _ _).
  destruct (validateL2 h1 shard c') as [e|] eqn:Hval; [done|]. apply validateL2_valid in Hval.
  destruct (fill_l2s entries h1) as [[e|m1] h2] eqn:Hf; [done|]. intros [= <- <-].
  destruct (fill_entry c h lm h1 (Hb _ _ ltac:(left)) Hm) as (Hs1 & Hlm & Hor & Hv1). fold c' in Hv1.
  assert (Hb1 : forall k a, (k, a) ∈ entries -> bound h (Models a)) by (intros k a Hin; apply (Hb k a); by right).
  destruct (IH h1 m1 h2) as (Hs2 & Hv2 & Hr2 & Hok2); [|done|].
  { intros k a Hin r Hr. apply (grown_dom h); [done | by apply (Hb1 k a)]. }
  assert (Hv : val_l2 h2 c' = val_l2 h1 c').
  { apply val_l2_local. intros l [= <-]. by apply grown_lookup. }
  split; [by etrans|]. rewrite !fmap_insert, Hv, Hv1, Hv2. split_and!.
  - f_equal. f_equal. apply map_fmap_ext. intros k a Hk%elem_of_list_to_map_2.
    apply val_l2_local. intros l Hl. apply grown_lookup; [done | by apply (Hb1 k a)].
  - apply map_Forall_insert_2.
    + intros r [= <-]. split; [by apply (grown_dom h1)|]. destruct Hor; [by left | right]. eauto using list_elem_of_here.
    + intros k a Hk r Hr. destruct (Hr2 k a Hk r Hr) as [Hd [Hn|(k0 & a0 & Hin & H0)]]; (split; [done|]).
      * left. intros Hx. apply Hn. by apply (grown_dom h).
      * right. exists k0, a0. split; [by right | done].
  - apply map_Forall_insert_2; [by rewrite <-Hv1 | by rewrite <-Hv2].
Qed.

Lemma shards_cell_spec c h sh h1 v d :
  (forall r, reach_l1 h c r -> r ∈ dom h) -> shards_cell c h = (sh, h1) ->
  let c' := mkL1 v d (Some sh) in
  h ⊆ h1 /\ val_l1 h1 c' = mkL1Val v d (lv_Shards (val_l1 h c)) /\ (forall r, reach_l1 h1 c' r -> r ∈ dom h1).
Proof.
  intros Hb. unfold shards_cell, reach_l1, val_l1 in *. destruct (Shards c) as [r|]; [by intros [= <- <-]|].
  intros (Hs & Hd & Hn)%alloc_new. cbn [Shards l1_Version DefaultShard lv_Shards].
  unfold reach. rewrite Hd. split_and!; [done | done |].
  intros r [[= <-]|(k & a & Hk & _)]; [by apply Hn | done].
Qed.

(** The caller's models, copied into a map of the store's own with every entry filled in. *)
Lemma filled_spec o h l h2 m h3 :
  (forall r, reach_l2s h o r -> r ∈ dom h) -> alloc (CL2s (l2s_at h o)) h = (l, h2) ->
  fill_l2s (map_to_list (l2s_at h2 (Some l))) h2 = (inr m, h3) ->
  let h4 := <[l := CL2s m]> h3 in
  h ⊆ h4 /\ val_l2s h4 (Some l) = fill_l2_val <$> val_l2s h o /\
  (forall r, reach_l2s h4 (Some l) r -> r ∈ dom h4) /\ map_Forall valid_l2 (val_l2s h4 (Some l)).
Proof.
  intros Hb (Hs & Hd & Hl)%alloc_new Hf h4. destruct (Hl l eq_refl) as [Hl1 Hl2]. rewrite Hd in Hf. cbn in Hf.
  assert (Hr : forall k a r, l2s_at h o !! k = Some a -> Models a = Some r -> r ∈ dom h).
  { intros k a r Hk Hr. apply Hb. right. eauto. }
  apply fill_l2s_spec in Hf as (Hs3 & Hv & Hm & Hok).
  2: { intros k a Hin%elem_of_map_to_list r Hr'. apply (grown_dom h); [done | by eapply Hr]. }
  rewrite list_to_map_to_list in Hv.
  assert (Hne : forall k a r, m !! k = Some a -> Models a = Some r -> r <> l /\ r ∈ dom h3).
  { intros k a r Hk Ha. destruct (Hm k a Hk r Ha) as [Hd3 Hor]. split; [|done]. intros ->.
    destruct Hor as [Hx|(k0 & a0 & Hin%elem_of_map_to_list & H0)]; [done|]. by apply Hl1, (Hr k0 a0 l). }
  assert (Hd4 : deref h4 (Some l) = Some (CL2s m)) by (unfold h4; cbn; by rewrite lookup_insert_eq).
  assert (Hval : val_l2s h4 (Some l) = val_l2 h3 <$> m).
  { unfold val_l2s. rewrite Hd4. apply map_fmap_ext. intros k a Hk. apply val_l2_local.
    intros r Ha. apply lookup_insert_ne. apply not_eq_sym. by eapply Hne. }
  rewrite Hval. split_and!; [apply write_new; [by etrans | done] | | | done].
  - rewrite Hv. f_equal. apply map_fmap_ext. intros k a Hk. apply val_l2_local.
    intros r Ha. apply grown_lookup; [done | by eapply Hr].
  - intros r. unfold reach_l2s, reach. rewrite Hd4. intros [[= <-]|(k & a & Hk & Ha)]; apply dom_insert, elem_of_union.
    + left. by apply elem_of_singleton.
    + right. by eapply Hne.
Qed.

Definition reach_initial (h : heap) (i : InitialConfig) (l : loc) : Prop :=
  reach_l1 h (in_L1 i) l \/ reach_l2s h (in_L2 i) l.

(** The two clones a new store is made of. *)
Lemma stored_spec l1 o h c1 h1 c2 h2 :
  (forall r, reach_l1 h l1 r -> r ∈ dom h) -> (forall r, reach_l2s h o r -> r ∈ dom h) ->
  cloneL1Config l1 h = (c1, h1) -> cloneL2Configs o h1 = (c2, h2) ->
  let s := mkStore c1 (Some c2) in
  h ⊆ h2 /\ val_store h2 s = mkStoreVal (val_l1 h l1) (val_l2s h o) /\
  (forall r, owned h2 s r -> (r ∉ dom h) /\ r ∈ dom h2).
Proof.
  intros Hb1 Hb2 (Hs1 & Hv1 & Hn1)%cloneL1Config_spec H2 s; [|done].
  destruct (l2s_frame h h1 o) as [Hq1 Hq2]; [intros; apply grown_lookup; auto|].
  apply cloneL2Configs_spec in H2 as (Hs2 & Hv2 & Hn2 & _); [|intros r Hr%Hq2; apply (grown_dom h); auto].
  destruct (l1_frame h1 h2 c1) as [Hq3 Hq4]; [intros r Hr; apply grown_lookup; [done | by apply Hn1]|].
  pose proof (subseteq_dom _ _ Hs1). pose proof (subseteq_dom _ _ Hs2). split; [by etrans|]. split.
  - unfold val_store. cbn [cs_l1 cs_l2 s]. by rewrite Hq3, Hv1, Hv2, Hq1.
  - intros r [Hr|Hr]; [apply Hq4, Hn1 in Hr | apply Hn2 in Hr]; set_solver.
Qed.

Lemma NewConfigStore_spec i h s h' :
  (forall l, reach_initial h i l -> l ∈ dom h) -> NewConfigStore i h = (inr s, h') ->
  val_store h' s = spec_initial (val_l1 h (in_L1 i)) (val_l2s h (in_L2 i)) /\
  valid_store (val_store h' s) /\ isolated (mkSystem h' s (dom h)).
Proof.
  intros Hb. unfold NewConfigStore. destruct (shards_cell _ h) as [sh h1] eqn:Hsh.
  set (l1 := mkL1 _ _ _). destruct (validateL1 h1 l1) eqn:Hval; [done|].
  destruct (alloc _ h1) as [l h2] eqn:Ha. destruct (fill_l2s _ h2) as [[e|m] h3] eqn:Hf; [done|].
  set (h4 := <[l := CL2s m]> h3).
  destruct (cloneL1Config l1 h4) as [c1 h5] eqn:H5. destruct (cloneL2Configs (Some l) h5) as [c2 h6] eqn:H6.
  intros [= <- <-].
  eapply (shards_cell_spec _ _ _ _ (l1_Version l1) (DefaultShard l1)) in Hsh as (Hs1 & Hv1 & Hr1); [|intros; apply Hb; by left].
  destruct (l2s_frame h h1 (in_L2 i)) as [Hq1 Hq2]; [intros; apply grown_lookup; [done | apply Hb; by right]|].
  destruct (filled_spec (in_L2 i) h1 l h2 m h3) as (Hs4 & Hv4 & Hr4 & Hok4); [|done|done|].
  { intros r Hr%Hq2. apply (grown_dom h); [done | apply Hb; by right]. }
  fold h4 in Hs4, Hv4, Hr4, Hok4.
  destruct (l1_frame h1 h4 l1) as [Hq3 Hq4]; [intros; apply grown_lookup; [done | by apply Hr1]|].
  destruct (stored_spec l1 (Some l) h4 c1 h5 c2 h6) as (Hs6 & Hv6 & Hn6);
    [intros r Hr%Hq4%Hr1; by apply (grown_dom h1) | done | done | done |].
  assert (Hh : h ⊆ h4) by (by etrans).
  rewrite Hv6, Hq3. split_and!.
  - unfold spec_initial. f_equal; [exact Hv1 | by rewrite Hv4, Hq1].
  - apply validateL1_valid; done.
  - split; cbn; [apply subseteq_dom; by etrans|]. intros r [Hr1' Hr2']%Hn6. split; [done|].
    intros Hx. apply Hr1'. by apply (grown_dom h).
Qed.

(** ** A store and its callers *)

Inductive sys_run : system -> list event -> system -> Prop :=
  | run_done y : sys_run y [] y
  | run_step y ev y1 evs y2 : sys_step y ev y1 -> sys_run y1 evs y2 -> sys_run y (ev :: evs) y2.

Inductive spec_run : StoreVal -> list event -> StoreVal -> Prop :=
  | spec_done v : spec_run v [] v
  | spec_cons v ev v1 evs v2 : spec_step v ev v1 -> spec_run v1 evs v2 -> spec_run v (ev :: evs) v2.

Lemma sys_run_refines y evs y' :
  sys_run y evs y' -> isolated y -> valid_store (val_store (y_heap y) (y_store y)) ->
  spec_run (val_store (y_heap y) (y_store y)) evs (val_store (y_heap y') (y_store y')) /\
  valid_store (val_store (y_heap y') (y_store y')).
Proof.
  induction 1 as [y|y ev y1 evs y2 Hs _ IH]; intros Hi Hv; [by split; [constructor|]|].
  destruct (sys_step_refines _ _ _ Hi Hs) as [Hi1 Hsp]. pose proof (spec_step_valid _ _ _ Hv Hsp) as Hv1.
  destruct (IH Hi1 Hv1) as [Hr Hv2]. split; [by econstructor | done].
Qed.

(** C35: a configuration store that [NewConfigStore] returned behaves as the store whose
    contents are values, whatever its callers do.  Callers may keep and change the structures
    they built it from, and may write, between any two calls, every map and slice that [L1],
    [L2] or [Dump] returned to them; still every result is what the by-value store returns in
    its place, upserts change the contents by exactly the entry and version they name or
    report the error and change nothing, and at every moment the default shard is configured
    and no shard or model lacks its name, target or provider. *)
Theorem store_is_by_value initial h s h' evs y :
  (forall l, reach_initial h initial l -> l ∈ dom h) ->
  NewConfigStore initial h = (inr s, h') ->
  sys_run (mkSystem h' s (dom h)) evs y ->
  spec_run (spec_initial (val_l1 h (in_L1 initial)) (val_l2s h (in_L2 initial))) evs (val_store (y_heap y) (y_store y)) /\
  valid_store (val_store (y_heap y) (y_store y)).
Proof.
  intros Hb (Hv & Hok & Hi)%NewConfigStore_spec Hr; [|done]. rewrite <-Hv.
  by apply (sys_run_refines _ _ _ Hr).
Qed.

(** No authorisation header is part of a dump: stores that differ only in which non-empty
    headers they hold have the same dump. *)
Lemma dump_hides_headers m1 m2 :
  md_Target m1 = md_Target m2 -> Provider m1 = Provider m2 -> md_Profile m1 = md_Profile m2 ->
  BYOKKeyID m1 = BYOKKeyID m2 -> (AuthHeader m1 = "" <-> AuthHeader m2 = "") -> dump_model m1 = dump_model m2.
Proof.
  unfold dump_model. intros -> -> -> -> H. f_equal. apply bool_decide_ext. by rewrite H.
Qed.

(** The default of a first configuration without a version, default shard or shards is refused:
    there is no shard "a" in a map just made. *)
Lemma empty_initial_refused h :
  exists h', NewConfigStore (mkInitial (mkL1 "" "" None) None) h = (inl (DefaultShardUnknown "a"), h').
Proof.
  unfold NewConfigStore. cbn [in_L1 in_L2]. destruct (shards_cell _ h) as [sh h1] eqn:Hsh.
  unfold shards_cell in Hsh. cbn in Hsh. apply alloc_new in Hsh as (_ & Hd & _).
  unfold validateL1. cbn [l1_Version DefaultShard Shards]. rewrite Hd. cbn. by eexists.
Qed.

(** The default configuration is one a store accepts, and a caller that empties the map it was
    given changes nothing for the next. *)
Definition refs_bound {A} (view : option cell -> gmap string A) (ref : A -> option loc) (h : heap) (o : option loc) : bool :=
  match o with Some l => bool_decide (l ∈ dom h) | None => true end &&
  forallb (fun '(_, a) => match ref a with Some r => bool_decide (r ∈ dom h) | None => true end)
    (map_to_list (view (deref h o))).

Lemma refs_bound_spec {A} (view : option cell -> gmap string A) ref h o :
  refs_bound view ref h o = true -> forall r, reach view ref h o r -> r ∈ dom h.
Proof.
  unfold refs_bound. rewrite andb_true_iff, forallb_forall. intros [Ho Hm] r [->|(k & a & Hk & Hr)].
  - by apply bool_decide_eq_true in Ho.
  - specialize (Hm (k, a)). cbn in Hm. rewrite Hr in Hm.
    assert (Hb : bool_decide (r ∈ dom h) = true) by (by apply Hm, list_elem_of_In, elem_of_map_to_list).
    by apply bool_decide_eq_true in Hb.
Qed.

Definition demo_initial : InitialConfig := fst (DefaultConfig ∅).
Definition demo_heap : heap := snd (DefaultConfig ∅).
Definition demo_store : ConfigStore :=
  match fst (NewConfigStore demo_initial demo_heap) with inr s => s | inl _ => mkStore (mkL1 "" "" None) None end.
Definition demo_start : heap := snd (NewConfigStore demo_initial demo_heap).
Definition demo_read : L1Config * heap := L1 demo_store demo_start.
Definition demo_given : loc := default 0 (Shards (fst demo_read)).
Definition demo_scribbled : heap := <[demo_given := CShards ∅]> (snd demo_read).
Definition demo_again : L1Config * heap := L1 demo_store demo_scribbled.

Lemma store_is_by_value_witness :
  exists v, spec_run (spec_initial (val_l1 demo_heap (in_L1 demo_initial)) (val_l2s demo_heap (in_L2 demo_initial)))
              [EvL1 (val_l1 (snd demo_read) (fst demo_read)); EvCaller; EvL1 (val_l1 (snd demo_again) (fst demo_again))] v
            /\ valid_store v.
Proof.
  eexists. eapply (store_is_by_value demo_initial demo_heap demo_store demo_start).
  - intros l [Hl|Hl]; revert l Hl; apply refs_bound_spec; vm_compute; reflexivity.
  - vm_compute. reflexivity.
  - eapply run_step; [apply step_L1, surjective_pairing|].
    eapply run_step; [apply (step_write _ _ _ demo_given (CShards ∅)); apply (bool_decide_unpack _); vm_compute; exact I|].
    eapply run_step; [apply step_L1, surjective_pairing | apply run_done].
Defined.
