(* ===== verification/ControlPlane.v ===== *)
(** * ControlPlane: HTTP handlers over a store, interleaved, and their client

    What the demo control planes (integrations/cluster-router-eg, integrations/tiered-router-eg)
    share.  A handler calls the store at most twice: once for what the request asks, and once
    more, after an accepted change, for the answer.  [HandlerLaws] states what one handler does
    to a store; every interleaving of handlers that satisfy it serves each request as if its
    change happened at one moment.  The client is the one both packages have. *)
From stdpp Require Import base list gmap strings sets.
From Stdlib Require Import ZArith Lia Ascii.
From S2P Require Import Prelude GoStrings.

(** ** Requests and responses *)

Record request := mkReq { q_method : string; q_path : string; q_body : string }.

(** A response: status, whether the JSON content type is set, and body. *)
Record response := mkResp { r_status : Z; r_json : bool; r_body : string }.

(** ** Handlers *)

(** Where a handler is: before its first call to the store, or before the call that follows an
    accepted update, or done. *)
Inductive hstate :=
  | HStart (r : request)
  | HReply (r : request)
  | HDone (a : response).

(** What a request asks for, of a store that holds a [V] and is changed by [Cm]s. *)
Inductive plan (V Cm : Type) :=
  | PAnswer (a : response)
  | PRead (answer : V -> response)
  | PCommit (c : Cm) (reply : V -> response).
Arguments PAnswer {V Cm} _.
Arguments PRead {V Cm} _.
Arguments PCommit {V Cm} _ _.

Section handlers.
Context {S V Cm : Type}.
(** A step runs a handler up to and including its next call to the store. *)
Context (handler_step : S -> hstate -> res (S * hstate)).
Context (val : S -> V) (ok : S -> Prop) (apply : V -> Cm -> V) (plan_of : request -> plan V Cm).

(** A request served alone. *)
Definition serve (s : S) (r : request) : res (response * S) :=
  match handler_step s (HStart r) with
  | Panic msg => Panic msg
  | Ok (s, HDone a) => Ok (a, s)
  | Ok (s, st) =>
      match handler_step s st with
      | Ok (s, HDone a) => Ok (a, s)
      | Ok _ => Panic "unreachable"
      | Panic msg => Panic msg
      end
  end.

(** A step of a handler does its part of the plan, and never panics. *)
Record HandlerLaws : Prop := {
  first_step : forall s r, ok s -> exists s' st', handler_step s (HStart r) = Ok (s', st') /\ ok s' /\
    match plan_of r with
    | PAnswer a => st' = HDone a /\ val s' = val s
    | PRead f => st' = HDone (f (val s)) /\ val s' = val s
    | PCommit c _ => st' = HReply r /\ val s' = apply (val s) c
    end;
  reply_step : forall s r c f, ok s -> plan_of r = PCommit c f ->
    exists s', handler_step s (HReply r) = Ok (s', HDone (f (val s))) /\ ok s' /\ val s' = val s;
  done_step : forall s a, handler_step s (HDone a) = Ok (s, HDone a);
}.

(** The change a step made, if any, with the request that made it. *)
Definition committed (i : nat) (st st' : hstate) : list (nat * Cm) :=
  match st, st' with
  | HStart r, HReply _ => match plan_of r with PCommit c _ => [(i, c)] | _ => [] end
  | _, _ => []
  end.

(** Handlers of several requests, in any interleaving; the trace lists the changes in the
    order the store made them. *)
Inductive run : S * list hstate -> list (nat * Cm) -> S * list hstate -> Prop :=
  | run_nil y : run y [] y
  | run_snoc y trace s hs i st s' st' :
      run y trace (s, hs) -> hs !! i = Some st -> handler_step s st = Ok (s', st') ->
      run y (trace ++ committed i st st') (s', <[i := st']> hs).

Definition contents (v : V) (trace : list (nat * Cm)) : V := fold_left apply trace.*2 v.

Definition changes_of (i : nat) (trace : list (nat * Cm)) : list (nat * Cm) :=
  filter (fun p => p.1 = i) trace.

(** Request [i], in state [st], has been served so far as its plan says. *)
Definition served (v : V) (trace : list (nat * Cm)) (i : nat) (r : request) (st : hstate) : Prop :=
  match st with
  | HStart r' => r' = r /\ changes_of i trace = []
  | HReply r' => r' = r /\ exists c f, plan_of r = PCommit c f /\ changes_of i trace = [(i, c)]
  | HDone a =>
      match plan_of r with
      | PAnswer a' => a = a' /\ changes_of i trace = []
      | PRead f => changes_of i trace = [] /\ exists k, a = f (contents v (take k trace))
      | PCommit c f => changes_of i trace = [(i, c)] /\
                       exists k, (i, c) ∈ take k trace /\ a = f (contents v (take k trace))
      end
  end.

(** What every interleaving of the requests [reqs] from contents [v] promises. *)
Definition serializable (v : V) (reqs : list request) (trace : list (nat * Cm)) (y : S * list hstate) : Prop :=
  val y.1 = contents v trace /\
  (forall i r, reqs !! i = Some r -> exists s, y.2 !! i = Some s /\ served v trace i r s) /\
  (forall i s, y.2 !! i = Some s -> exists x, handler_step y.1 s = Ok x).

Lemma contents_app v t1 t2 : contents v (t1 ++ t2) = contents (contents v t1) t2.
Proof. unfold contents. by rewrite fmap_app, fold_left_app. Qed.

Lemma changes_app i t1 t2 : changes_of i (t1 ++ t2) = changes_of i t1 ++ changes_of i t2.
Proof. apply filter_app. Qed.

Lemma committed_other i j st st' : i <> j -> changes_of j (committed i st st') = [].
Proof.
  intros Hne. unfold committed. destruct st; try done. destruct st'; try done. destruct (plan_of r); try done.
  unfold changes_of. rewrite filter_cons_False; done.
Qed.

(** What holds of a served request goes on to hold while others change the store. *)
Lemma served_later v trace more i r st :
  changes_of i more = [] -> served v trace i r st -> served v (trace ++ more) i r st.
Proof.
  intros Hm. unfold served. rewrite changes_app, Hm, app_nil_r.
  assert (Hk : forall k, exists k', take k' (trace ++ more) = take k trace).
  { intros k. exists (k `min` length trace). rewrite take_app_le by lia. by rewrite <-firstn_firstn, firstn_all. }
  destruct st as [r'|r'|a]; try done. destruct (plan_of r) as [a'|f|c f]; try done.
  - intros [Hc [k Hk']]. split; [done|]. destruct (Hk k) as [k' Hk2]. exists k'. by rewrite Hk2.
  - intros [Hc (k & Hin & Hk')]. split; [done|]. destruct (Hk k) as [k' Hk2]. exists k'. by rewrite Hk2.
Qed.

Context (laws : HandlerLaws).

(** One step of request [i]. *)
Lemma served_step v trace s i r st s' st' :
  ok s -> val s = contents v trace -> served v trace i r st -> handler_step s st = Ok (s', st') ->
  ok s' /\ val s' = contents v (trace ++ committed i st st') /\ served v (trace ++ committed i st st') i r st'.
Proof using laws.
  intros Hok Hv Hs Hstep. destruct st as [r'|r'|a].
  - destruct Hs as [-> Hc]. destruct (first_step laws s r Hok) as (s1 & st1 & H1 & Hok1 & Hp).
    rewrite Hstep in H1. injection H1 as <- <-. split; [done|].
    unfold served, committed. destruct (plan_of r) as [a|f|c f] eqn:Hpl; destruct Hp as [-> Hv']; cbn; rewrite ?app_nil_r.
    + by rewrite Hv'.
    + rewrite Hv', Hv. split; [done|]. split; [done|]. exists (length trace). by rewrite firstn_all.
    + split; [by rewrite Hv', Hv, contents_app|]. split; [done|]. exists c, f. split; [done|].
      rewrite changes_app, Hc. unfold changes_of. by rewrite filter_cons_True.
  - destruct Hs as [-> (c & f & Hpl & Hc)]. destruct (reply_step laws s r c f Hok Hpl) as (s1 & H1 & Hok1 & Hv').
    rewrite Hstep in H1. injection H1 as <- ->. split; [done|]. cbn. rewrite app_nil_r, Hpl. split; [by rewrite Hv'|].
    split; [done|]. exists (length trace). rewrite firstn_all, <-Hv. split; [|done].
    assert (Hin : (i, c) ∈ changes_of i trace) by (rewrite Hc; by left). by apply list_elem_of_filter in Hin as [_ Hin].
  - rewrite (done_step laws) in Hstep. injection Hstep as <- <-. cbn. by rewrite app_nil_r.
Qed.

Lemma run_served reqs s0 trace y :
  ok s0 -> run (s0, HStart <$> reqs) trace y ->
  ok y.1 /\ val y.1 = contents (val s0) trace /\
  (forall i st, y.2 !! i = Some st -> exists r, reqs !! i = Some r /\ served (val s0) trace i r st) /\
  length y.2 = length reqs.
Proof using laws.
  intros Hok Hr. remember (s0, HStart <$> reqs) as y0 eqn:Hy0.
  induction Hr as [y|y trace s hs i st s' st' Hr IH Hi Hstep]; subst y.
  - cbn. split_and!; [done | done | | by rewrite length_fmap].
    intros i st. rewrite list_lookup_fmap. intros (r & Hr & ->)%fmap_Some. by exists r.
  - destruct (IH eq_refl) as (Hoks & Hv & Hs & Hl). cbn in *.
    destruct (Hs i st Hi) as (r & Hri & Hsi).
    destruct (served_step _ _ _ _ _ _ _ _ Hoks Hv Hsi Hstep) as (Hok' & Hv' & Hsi').
    split_and!; [done | done | | by rewrite length_insert].
    intros j st2 [(<- & -> & _)|[Hne Hj]]%list_lookup_insert_Some; [by exists r|].
    destruct (Hs j st2 Hj) as (rj & Hrj & Hsj). exists rj. split; [done|].
    by apply served_later; [apply committed_other|].
Qed.

(** A handler that is served so far goes on. *)
Lemma served_progress v trace i r s st : ok s -> served v trace i r st -> exists x, handler_step s st = Ok x.
Proof using laws.
  intros Hok Hs. destruct st as [r'|r'|a].
  - destruct (first_step laws s r' Hok) as (s1 & st1 & -> & _). by eexists.
  - destruct Hs as [-> (c & f & Hpl & _)]. destruct (reply_step laws s r c f Hok Hpl) as (s1 & -> & _). by eexists.
  - rewrite (done_step laws). by eexists.
Qed.

Lemma runs_are_serializable reqs s0 trace y :
  ok s0 -> run (s0, HStart <$> reqs) trace y -> serializable (val s0) reqs trace y.
Proof using laws.
  intros Hok Hr. destruct (run_served reqs s0 trace y Hok Hr) as (Hoky & Hvy & Hs & Hl). split_and!; [done | |].
  - intros i r Hi. destruct (lookup_lt_is_Some_2 y.2 i) as [s Hsi]; [rewrite Hl; by eapply lookup_lt_Some|].
    destruct (Hs i s Hsi) as (r' & Hr' & Hserved). exists s. split; [done|]. rewrite Hi in Hr'. by injection Hr' as ->.
  - intros i s Hsi. destruct (Hs i s Hsi) as (r & _ & Hserved). by eapply served_progress.
Qed.

(** A request served alone is answered as planned. *)
Lemma serve_plan s r :
  ok s -> exists s', ok s' /\
    match plan_of r with
    | PAnswer a => serve s r = Ok (a, s') /\ val s' = val s
    | PRead f => serve s r = Ok (f (val s), s') /\ val s' = val s
    | PCommit c f => serve s r = Ok (f (apply (val s) c), s') /\ val s' = apply (val s) c
    end.
Proof using laws.
  intros Hok. destruct (first_step laws s r Hok) as (s1 & st1 & H1 & Hok1 & Hst). unfold serve. rewrite H1.
  destruct (plan_of r) as [a|f|c f] eqn:Hp; destruct Hst as [-> Hv1]; [by exists s1..|].
  destruct (reply_step laws s1 r c f Hok1 Hp) as (s2 & -> & Hok2 & Hv2).
  exists s2. split; [done|]. split; [by rewrite Hv1 | by rewrite Hv2].
Qed.
End handlers.

(** A schedule, run: which handler steps next. *)
Definition sched {S V Cm} (handler_step : S -> hstate -> res (S * hstate)) (plan_of : request -> plan V Cm)
    (y : list (nat * Cm) * (S * list hstate)) (i : nat) : list (nat * Cm) * (S * list hstate) :=
  let '(trace, (s, hs)) := y in
  match hs !! i with
  | None => y
  | Some st =>
      match handler_step s st with
      | Ok (s, st') => (trace ++ committed plan_of i st st', (s, <[i := st']> hs))
      | Panic _ => y
      end
  end.

Lemma sched_run {S V Cm} (handler_step : S -> hstate -> res (S * hstate)) (plan_of : request -> plan V Cm) y0 order : forall y,
  run handler_step plan_of y0 y.1 y.2 ->
  run handler_step plan_of y0 (fold_left (sched handler_step plan_of) order y).1 (fold_left (sched handler_step plan_of) order y).2.
Proof.
  induction order as [|i order IH]; intros y Hr; [done|]. cbn [fold_left]. apply IH.
  destruct y as [trace [s hs]]. unfold sched. destruct (hs !! i) as [st|] eqn:Hi; [|done].
  destruct (handler_step s st) as [[s' st']|] eqn:Hs; [|done]. by eapply run_snoc.
Qed.

(** ** The client *)

Record http_request := mkHttp {
  h_method : string;
  h_url : string;
  h_host : string;
  h_headers : list (string * string);
  h_body : string;
}.

Inductive client_error :=
  | TransportError
  | StatusError (method url : string) (status : Z) (raw : string).

(** The loop over the headers: a name that is "host" up to case sets the Host, others are set
    under their canonical name. *)
Definition set_header (unicode : string -> string -> bool) (acc : string * list (string * string)) (kv : string * string) :
    string * list (string * string) :=
  if EqualFold unicode kv.1 "host" then (kv.2, acc.2)
  else (acc.1, acc.2 ++ [(CanonicalMIMEHeaderKey kv.1, kv.2)]).

Definition build_request (unicode : string -> string -> bool) (method baseURL path body : string)
    (headers : list (string * string)) : http_request :=
  let url := TrimRight baseURL "/" +:+ path in
  let content := if decide (body = "") then [] else [("Content-Type", "application/json")] in
  let '(host, hs) := fold_left (set_header unicode) headers ("", content) in
  mkHttp method url host hs body.

(** What building the request, [http.Client.Do] and reading the body give: an error, or status
    and body. *)
Definition doJSON {W : Type} (Do : http_request -> W -> option (Z * string) * W) (unicode : string -> string -> bool)
    (method baseURL path body : string) (headers : list (string * string)) (w : W) : (client_error + string) * W :=
  let req := build_request unicode method baseURL path body headers in
  match Do req w with
  | (None, w) => (inl TransportError, w)
  | (Some (status, raw), w) =>
      if (status <? 200)%Z || (300 <=? status)%Z then (inl (StatusError method (h_url req) status raw), w)
      else (inr raw, w)
  end.

(** A server at [root], reached by its URL. *)
Definition over_http {S} (handler_step : S -> hstate -> res (S * hstate)) (root : string) (q : http_request) (s : S) :
    option (Z * string) * S :=
  match StripPrefix root (h_url q) with
  | None => (None, s)
  | Some path =>
      match serve handler_step s (mkReq (h_method q) path (h_body q)) with
      | Ok (a, s) => (Some (r_status a, r_body a), s)
      | Panic _ => (None, s)
      end
  end.

(** What the client makes of an answer. *)
Definition received (method url : string) (a : response) : client_error + string :=
  if (r_status a <? 200)%Z || (300 <=? r_status a)%Z then inl (StatusError method url (r_status a) (r_body a))
  else inr (r_body a).

Lemma client_reaches_server {S} (handler_step : S -> hstate -> res (S * hstate)) method base path body s a s' :
  serve handler_step s (mkReq method path body) = Ok (a, s') ->
  forall unicode, doJSON (over_http handler_step (TrimRight base "/")) unicode method base path body [] s =
    (received method (TrimRight base "/" +:+ path) a, s').
Proof.
  intros Hs unicode. unfold doJSON, build_request, over_http, received.
  cbn [fold_left h_url h_method h_body]. rewrite (proj2 (StripPrefix_Some _ _ _) eq_refl), Hs. by destruct (_ || _)%bool.
Qed.
