(* ===== verification/DemoRoutes.v ===== *)
(** * DemoRoutes: the control plane of the cluster router's demo
    (integrations/cluster-router-eg/internal/demo/{config,server,client}.go)

    The store of routes, over the heap of GoHeap; the HTTP handlers, which call the store once
    or twice and may interleave (ControlPlane); the client.  The handlers are proved against
    what the store promises ([RouteStoreLaws]), and the store of the source is an instance. *)
From stdpp Require Import base list gmap strings sets fin_maps.
From Stdlib Require Import ZArith Lia Ascii.
From S2P Require Import Prelude GoStrings GoHeap ControlPlane.

(** ** Structures *)

Definition defaultVersion : string := "bootstrap".

Record ModelConfig := mkModel {
  Target : string;
  Provider : string;
  AuthHeader : string;
}.

Record RouteConfig := mkRoutes {
  Version : string;
  Models : option loc;
}.

Record ModelUpdate := mkUpdate {
  mu_Name : string;
  mu_Target : string;
  mu_Provider : string;
  mu_AuthHeader : string;
  mu_Version : string;
}.

Record DumpModel := mkDumpModel {
  dm_Target : string;
  dm_Provider : string;
  AuthConfigured : bool;
}.

Record DumpConfig := mkDump { dc_Version : string; dc_Models : gmap string DumpModel }.

Record ConfigStore := mkStore { cs_cfg : RouteConfig }.

(** Every cell is a map of models; reading nil finds nothing. *)
Abbreviation heap := (gmap loc (gmap string ModelConfig)).
Abbreviation models_at h o := (default ∅ (deref h o)).

(** ** Validation *)

Inductive route_error :=
  | VersionRequired
  | ModelNameRequired
  | ModelTargetRequired (name : string)
  | ModelProviderRequired (name : string).

Definition error_text (e : route_error) : string :=
  match e with
  | VersionRequired => "version is required"
  | ModelNameRequired => "model name is required"
  | ModelTargetRequired name => "model " +:+ Quote name +:+ " target is required"
  | ModelProviderRequired name => "model " +:+ Quote name +:+ " provider is required"
  end.

Definition validateModel (name : string) (model : ModelConfig) : option route_error :=
  if decide (name = "") then Some ModelNameRequired
  else if decide (Target model = "") then Some (ModelTargetRequired name)
  else if decide (Provider model = "") then Some (ModelProviderRequired name)
  else None.

Fixpoint first_invalid (l : list (string * ModelConfig)) : option route_error :=
  match l with
  | [] => None
  | (name, model) :: l =>
      match validateModel name model with Some e => Some e | None => first_invalid l end
  end.

(** [validateConfig], of a version and the models a map holds. *)
Definition validateConfig (version : string) (models : gmap string ModelConfig) : option route_error :=
  if decide (version = "") then Some VersionRequired else first_invalid (map_to_list models).

(** ** The store *)

(** [maps.Clone] keeps nil nil. *)
Definition cloneRouteConfig (c : RouteConfig) (h : heap) : RouteConfig * heap :=
  match Models c with
  | None => (mkRoutes (Version c) None, h)
  | Some _ => let '(l, h) := alloc (models_at h (Models c)) h in (mkRoutes (Version c) (Some l), h)
  end.

(** [if cfg.Version == "" ...; if cfg.Models == nil ...], then [validateConfig] and a clone. *)
Definition accept_config (version : string) (c : RouteConfig) (h : heap) : (route_error + RouteConfig) * heap :=
  let v := if decide (Version c = "") then version else Version c in
  let '(models, h) := match Models c with
                      | None => alloc ∅ h
                      | Some l => (l, h)
                      end in
  match validateConfig v (models_at h (Some models)) with
  | Some e => (inl e, h)
  | None => let '(c, h) := cloneRouteConfig (mkRoutes v (Some models)) h in (inr c, h)
  end.

Definition NewConfigStore (initial : RouteConfig) (h : heap) : (route_error + ConfigStore) * heap :=
  match accept_config defaultVersion initial h with
  | (inl e, h) => (inl e, h)
  | (inr c, h) => (inr (mkStore c), h)
  end.

Definition DefaultRouteConfig (h : heap) : RouteConfig * heap :=
  let '(l, h) := alloc
    (<["gpt-fast" := mkModel "upstream-a.default.svc.cluster.local:8080" "openai" "Bearer openai-token"]>
     (<["claude-safe" := mkModel "upstream-b.default.svc.cluster.local:8080" "anthropic" "Bearer anthropic-token"]> ∅)) h in
  (mkRoutes defaultVersion (Some l), h).

(** [NewConfigStoreJSON(raw)]; [None] is the decoder's error. *)
Definition NewConfigStoreJSON (unmarshal : string -> heap -> option RouteConfig * heap) (raw : string) (h : heap) :
    option (route_error + ConfigStore) * heap :=
  if decide (raw = "") then
    let '(c, h) := DefaultRouteConfig h in
    let '(r, h) := NewConfigStore c h in (Some r, h)
  else
    match unmarshal raw h with
    | (None, h) => (None, h)
    | (Some c, h) => let '(r, h) := NewConfigStore c h in (Some r, h)
    end.

Definition Current (s : ConfigStore) (h : heap) : RouteConfig * heap := cloneRouteConfig (cs_cfg s) h.

Definition Replace (next : RouteConfig) (s : ConfigStore) (h : heap) : option route_error * ConfigStore * heap :=
  match accept_config "updated" next h with
  | (inl e, h) => (Some e, s, h)
  | (inr c, h) => (None, mkStore c, h)
  end.

Definition update_model (u : ModelUpdate) : ModelConfig :=
  mkModel (mu_Target u) (mu_Provider u) (mu_AuthHeader u).

(** An assignment to an entry of a nil map panics. *)
Definition UpsertModel (u : ModelUpdate) (s : ConfigStore) (h : heap) : res (option route_error * ConfigStore * heap) :=
  if decide (mu_Name u = "") then Ok (Some ModelNameRequired, s, h)
  else
    let version := if decide (mu_Version u = "") then "updated" else mu_Version u in
    match validateModel (mu_Name u) (update_model u) with
    | Some e => Ok (Some e, s, h)
    | None =>
        let '(next, h) := cloneRouteConfig (cs_cfg s) h in
        match Models next with
        | None => Panic "assignment to entry in nil map"
        | Some l =>
            let h := <[l := <[mu_Name u := update_model u]> (models_at h (Some l))]> h in
            Ok (None, mkStore (mkRoutes version (Some l)), h)
        end
    end.

Definition dump_model (m : ModelConfig) : DumpModel :=
  mkDumpModel (Target m) (Provider m) (bool_decide (AuthHeader m <> "")).

Definition Dump (s : ConfigStore) (h : heap) : DumpConfig * heap :=
  let '(current, h) := Current s h in
  (mkDump (Version current) (dump_model <$> models_at h (Models current)), h).

(** ** What a store promises, by value *)

Record RouteVal := mkVal { v_Version : string; v_Models : gmap string ModelConfig }.

(** A decoded body: the models may be absent. *)
Record RouteJSON := mkJSON { j_Version : string; j_Models : option (gmap string ModelConfig) }.

(** An accepted change. *)
Inductive commit :=
  | CReplace (v : RouteVal)
  | CUpsert (name : string) (model : ModelConfig) (version : string).

Definition apply_commit (v : RouteVal) (c : commit) : RouteVal :=
  match c with
  | CReplace v => v
  | CUpsert name model version => mkVal version (<[name := model]> (v_Models v))
  end.

Definition replace_commit (j : RouteJSON) : route_error + commit :=
  let version := if decide (j_Version j = "") then "updated" else j_Version j in
  match validateConfig version (default ∅ (j_Models j)) with
  | Some e => inl e
  | None => inr (CReplace (mkVal version (default ∅ (j_Models j))))
  end.

Definition upsert_commit (u : ModelUpdate) : route_error + commit :=
  match validateModel (mu_Name u) (update_model u) with
  | Some e => inl e
  | None => inr (CUpsert (mu_Name u) (update_model u) (if decide (mu_Version u = "") then "updated" else mu_Version u))
  end.

Definition dump_val (v : RouteVal) : DumpConfig := mkDump (v_Version v) (dump_model <$> v_Models v).

Class RouteStore (S : Type) := {
  s_current : S -> RouteVal * S;
  s_replace : RouteJSON -> S -> option route_error * S;
  s_upsert : ModelUpdate -> S -> res (option route_error * S);
  s_dump : S -> DumpConfig * S;
}.

(** What an update did, given what it should have done. *)
Definition performed {S} (val : S -> RouteVal) (s : S) (c : route_error + commit) (e : option route_error) (s' : S) : Prop :=
  match c with
  | inl err => e = Some err /\ val s' = val s
  | inr c => e = None /\ val s' = apply_commit (val s) c
  end.

Class RouteStoreLaws (S : Type) `{RouteStore S} := {
  s_val : S -> RouteVal;
  s_ok : S -> Prop;
  law_current s : s_ok s -> exists s', s_current s = (s_val s, s') /\ s_val s' = s_val s /\ s_ok s';
  law_dump s : s_ok s -> exists s', s_dump s = (dump_val (s_val s), s') /\ s_val s' = s_val s /\ s_ok s';
  law_replace j s : s_ok s -> exists e s',
    s_replace j s = (e, s') /\ s_ok s' /\ performed s_val s (replace_commit j) e s';
  law_upsert u s : s_ok s -> exists e s',
    s_upsert u s = Ok (e, s') /\ s_ok s' /\ performed s_val s (upsert_commit u) e s';
}.

(** ** The store of the source is one *)

Record heap_store := mkHS { hs_heap : heap; hs_store : ConfigStore }.

(** A body is decoded into structures of its own; what [Current] returns is only encoded. *)
#[export] Instance heap_route_store : RouteStore heap_store := {
  s_current y := let '(c, h) := Current (hs_store y) (hs_heap y) in
                 (mkVal (Version c) (models_at h (Models c)), mkHS h (hs_store y));
  s_replace j y :=
    let '(models, h) := match j_Models j with
                        | None => (None, hs_heap y)
                        | Some m => let '(l, h) := alloc m (hs_heap y) in (Some l, h)
                        end in
    let '(e, s, h) := Replace (mkRoutes (j_Version j) models) (hs_store y) h in (e, mkHS h s);
  s_upsert u y := match UpsertModel u (hs_store y) (hs_heap y) with
                  | Ok (e, s, h) => Ok (e, mkHS h s)
                  | Panic msg => Panic msg
                  end;
  s_dump y := let '(d, h) := Dump (hs_store y) (hs_heap y) in (d, mkHS h (hs_store y));
}.

Definition val_routes (h : heap) (c : RouteConfig) : RouteVal := mkVal (Version c) (models_at h (Models c)).

(** The store's map exists: nothing ever leaves it nil. *)
Definition stored (h : heap) (c : RouteConfig) : Prop := exists l, Models c = Some l /\ l ∈ dom h.

Lemma routes_grown (h h' : heap) c : stored h c -> h ⊆ h' -> val_routes h' c = val_routes h c /\ stored h' c.
Proof.
  intros (l & Hl & Hd) Hs. unfold val_routes, stored. rewrite Hl. split; [|eauto using grown_dom].
  cbn. by rewrite (grown_lookup h h').
Qed.

Lemma clone_routes c (h : heap) l :
  Models c = Some l -> exists l' h', cloneRouteConfig c h = (mkRoutes (Version c) (Some l'), h') /\
    h ⊆ h' /\ (l' ∉ dom h) /\ l' ∈ dom h' /\ h' !! l' = Some (models_at h (Models c)).
Proof.
  intros Hl. unfold cloneRouteConfig. rewrite Hl. destruct (alloc _ h) as [l' h'] eqn:Ha.
  exists l', h'. split; [done|]. apply alloc_new in Ha as (Hs & Hd & Hn). destruct (Hn l' eq_refl). auto.
Qed.

Lemma accept_config_spec version c (h : heap) r h' :
  bound h (Models c) -> accept_config version c h = (r, h') ->
  let v := if decide (Version c = "") then version else Version c in
  let m := models_at h (Models c) in
  h ⊆ h' /\
  match validateConfig v m with
  | Some e => r = inl e
  | None => exists c', r = inr c' /\ stored h' c' /\ val_routes h' c' = mkVal v m
  end.
Proof.
  intros Hb. unfold accept_config. set (v := if decide _ then _ else _).
  destruct (match Models c with None => alloc ∅ h | Some l => (l, h) end) as [lm h1] eqn:Hm.
  assert (Hs : h ⊆ h1 /\ models_at h1 (Some lm) = models_at h (Models c)).
  { destruct (Models c) as [l|]; [by injection Hm as -> ->|]. apply alloc_new in Hm as (Hs & -> & _). done. }
  destruct Hs as [Hs Hv]. rewrite Hv. destruct (validateConfig _ _).
  - by intros [= <- <-].
  - destruct (clone_routes (mkRoutes v (Some lm)) h1 lm eq_refl) as (l' & h2 & -> & Hs2 & Hn & Hd & Hl).
    intros [= <- <-]. split; [by etrans|]. eexists. split; [done|]. split; [by exists l'|].
    unfold val_routes. cbn [Models Version]. cbn [deref mbind option_bind]. rewrite Hl. cbn. f_equal. exact Hv.
Qed.

Definition hs_val (y : heap_store) : RouteVal := val_routes (hs_heap y) (cs_cfg (hs_store y)).
Definition hs_ok (y : heap_store) : Prop := stored (hs_heap y) (cs_cfg (hs_store y)).

Lemma heap_current y :
  hs_ok y -> exists c h, Current (hs_store y) (hs_heap y) = (c, h) /\ val_routes h c = hs_val y /\
    hs_val (mkHS h (hs_store y)) = hs_val y /\ hs_ok (mkHS h (hs_store y)).
Proof.
  intros Hok. pose proof Hok as (l & Hl & Hd).
  destruct (clone_routes (cs_cfg (hs_store y)) (hs_heap y) l Hl) as (l' & h' & Hc & Hs & _ & _ & Hl').
  exists (mkRoutes (Version (cs_cfg (hs_store y))) (Some l')), h'. split; [exact Hc|]. split.
  - unfold val_routes. cbn. by rewrite Hl'.
  - by apply routes_grown.
Qed.

Lemma heap_replace j y :
  hs_ok y -> exists e y', s_replace j y = (e, y') /\ hs_ok y' /\ performed hs_val y (replace_commit j) e y'.
Proof.
  intros Hok. cbn.
  destruct (match j_Models j with None => _ | Some m => _ end) as [o h1] eqn:Hj.
  assert (Hm : hs_heap y ⊆ h1 /\ bound h1 o /\ models_at h1 o = default ∅ (j_Models j)).
  { destruct (j_Models j) as [m|]; [|by injection Hj as <- <-].
    destruct (alloc m (hs_heap y)) as [l h2] eqn:Ha. injection Hj as <- <-.
    apply alloc_new in Ha as (Hs & Hd & Hn). split_and!; [done | intros r Hr; by apply Hn | by rewrite Hd]. }
  destruct Hm as (Hs & Hb & Hv). unfold Replace.
  destruct (accept_config "updated" (mkRoutes (j_Version j) o) h1) as [r h2] eqn:Ha.
  apply accept_config_spec in Ha as [Hs2 Hr]; [|done]. cbn [Models Version] in Hr. rewrite Hv in Hr.
  unfold replace_commit. destruct (validateConfig _ _) as [e|].
  - subst r. destruct (routes_grown (hs_heap y) h2 (cs_cfg (hs_store y))) as [Hg1 Hg2]; [done | by etrans |].
    eexists _, _. split; [done|]. split; [exact Hg2|]. by split.
  - destruct Hr as (c' & -> & Hst & Hval). eexists _, _. split; [done|]. split; [exact Hst|]. by split.
Qed.

Lemma heap_upsert u y :
  hs_ok y -> exists e y', s_upsert u y = Ok (e, y') /\ hs_ok y' /\ performed hs_val y (upsert_commit u) e y'.
Proof.
  intros Hok. cbn. unfold UpsertModel, upsert_commit. destruct (decide (mu_Name u = "")) as [Hn|Hn].
  { unfold validateModel. rewrite decide_True by done. destruct y. eexists _, _. split; [done|]. split; [done|]. by split. }
  destruct (validateModel _ _) as [e|]; [destruct y; eexists _, _; split; [done|]; split; [done|]; by split|].
  destruct Hok as (l & Hl & Hd).
  destruct (clone_routes (cs_cfg (hs_store y)) (hs_heap y) l Hl) as (l' & h' & -> & Hs & Hn' & Hd' & Hl').
  cbn [Models]. eexists _, _. split; [done|]. split.
  - exists l'. split; [done|]. cbn. set_solver.
  - split; [done|]. unfold hs_val, val_routes. cbn. rewrite lookup_insert_eq. cbn. by rewrite Hl'.
Qed.

#[export] Instance heap_route_laws : RouteStoreLaws heap_store.
Proof.
  refine {| s_val := hs_val; s_ok := hs_ok; law_replace := heap_replace; law_upsert := heap_upsert |}.
  - intros y Hok. destruct (heap_current y Hok) as (c & h & Hc & Hv & Hv' & Hok'). cbn. rewrite Hc.
    eexists. split; [by rewrite <-Hv|]. by split.
  - intros y Hok. destruct (heap_current y Hok) as (c & h & Hc & Hv & Hv' & Hok'). cbn. unfold Dump. rewrite Hc.
    eexists. split; [by rewrite <-Hv|]. by split.
Defined.

(** A new store has its map, and holds what it was given. *)
Lemma NewConfigStore_ok c (h : heap) s h' :
  bound h (Models c) -> NewConfigStore c h = (inr s, h') ->
  hs_ok (mkHS h' s) /\
  hs_val (mkHS h' s) = mkVal (if decide (Version c = "") then defaultVersion else Version c) (models_at h (Models c)).
Proof.
  intros Hb. unfold NewConfigStore. destruct (accept_config _ _ _) as [r h1] eqn:Ha.
  apply accept_config_spec in Ha as [_ Hr]; [|done]. destruct (validateConfig _ _); [by subst r|].
  destruct Hr as (c' & -> & Hst & Hv). by intros [= <- <-].
Qed.

(** ** The HTTP handlers *)

Inductive pattern := GetHealthz | GetRoutes | PutRoutes | PostModels | GetDump.

(** The patterns registered with [http.ServeMux]; a [GET] pattern matches [HEAD]. *)
Definition route (r : request) : option pattern :=
  let get := bool_decide (q_method r = "GET" \/ q_method r = "HEAD") in
  if decide (q_path r = "/healthz") then if get then Some GetHealthz else None
  else if decide (q_path r = "/routes.json") then
    if get then Some GetRoutes else if decide (q_method r = "PUT") then Some PutRoutes else None
  else if decide (q_path r = "/models") then if decide (q_method r = "POST") then Some PostModels else None
  else if decide (q_path r = "/dump") then if get then Some GetDump else None
  else None.

Section server.
(** encoding/json on the types of this package. *)
Context (encode_config : RouteVal -> string) (encode_dump : DumpConfig -> string) (encode_error : string -> string).
Context (decode_config : string -> option RouteJSON) (decode_update : string -> option ModelUpdate).
(** What [http.ServeMux] answers itself, to a request that no pattern matches. *)
Context (unmatched : request -> response).

Definition writeJSON (status : Z) (body : string) : response := mkResp status true body.
Definition writeError (msg : string) : response := writeJSON 400 (encode_error msg).

(** A handler runs up to and including its next call to the store. *)
Definition handler_step {S : Type} `{RouteStore S} (s : S) (st : hstate) : res (S * hstate) :=
  match st with
  | HStart r =>
      match route r with
      | None => Ok (s, HDone (unmatched r))
      | Some GetHealthz => Ok (s, HDone (mkResp 204 false ""))
      | Some GetRoutes => let '(c, s) := s_current s in Ok (s, HDone (writeJSON 200 (encode_config c)))
      | Some PutRoutes =>
          match decode_config (q_body r) with
          | None => Ok (s, HDone (writeError "invalid route config"))
          | Some cfg =>
              match s_replace cfg s with
              | (Some err, s) => Ok (s, HDone (writeError (error_text err)))
              | (None, s) => Ok (s, HReply r)
              end
          end
      | Some PostModels =>
          match decode_update (q_body r) with
          | None => Ok (s, HDone (writeError "invalid model update"))
          | Some update =>
              match s_upsert update s with
              | Panic msg => Panic msg
              | Ok (Some err, s) => Ok (s, HDone (writeError (error_text err)))
              | Ok (None, s) => Ok (s, HReply r)
              end
          end
      | Some GetDump => let '(d, s) := s_dump s in Ok (s, HDone (writeJSON 200 (encode_dump d)))
      end
  | HReply _ => let '(c, s) := s_current s in Ok (s, HDone (writeJSON 200 (encode_config c)))
  | HDone a => Ok (s, HDone a)
  end.

(** ** What a request asks for *)

Definition config_reply (v : RouteVal) : response := writeJSON 200 (encode_config v).

Definition plan_update (c : route_error + commit) : plan RouteVal commit :=
  match c with
  | inl e => PAnswer (writeError (error_text e))
  | inr c => PCommit c config_reply
  end.

Definition plan_of (r : request) : plan RouteVal commit :=
  match route r with
  | None => PAnswer (unmatched r)
  | Some GetHealthz => PAnswer (mkResp 204 false "")
  | Some GetRoutes => PRead config_reply
  | Some GetDump => PRead (fun v => writeJSON 200 (encode_dump (dump_val v)))
  | Some PutRoutes =>
      from_option (fun j => plan_update (replace_commit j)) (PAnswer (writeError "invalid route config")) (decode_config (q_body r))
  | Some PostModels =>
      from_option (fun u => plan_update (upsert_commit u)) (PAnswer (writeError "invalid model update")) (decode_update (q_body r))
  end.

Lemma plan_replies r c f : plan_of r = PCommit c f -> f = config_reply.
Proof.
  unfold plan_of. destruct (route r) as [[]|]; try done.
  - destruct (decode_config _) as [j|]; [|done]. cbn. destruct (replace_commit j); cbn; congruence.
  - destruct (decode_update _) as [u|]; [|done]. cbn. destruct (upsert_commit u); cbn; congruence.
Qed.

(** The handlers keep the contract of ControlPlane, over any store that keeps its own. *)
Lemma route_handler_laws {S : Type} `{RouteStoreLaws S} :
  HandlerLaws (V := RouteVal) (Cm := commit) handler_step s_val s_ok apply_commit plan_of.
Proof.
  split.
  - intros s r Hok. cbn -[plan_update]. unfold plan_of. destruct (route r) as [[]|]; try by (eexists _, _; split_and!).
    + destruct (law_current s Hok) as (s' & -> & Hv & Hok'). by eexists _, _; split_and!.
    + destruct (decode_config (q_body r)) as [j|]; [|by eexists _, _; split_and!].
      destruct (law_replace j s Hok) as (e & s' & -> & Hok' & Hp). cbn.
      destruct (replace_commit j); destruct Hp as [-> Hv]; by eexists _, _; split_and!.
    + destruct (decode_update (q_body r)) as [u|]; [|by eexists _, _; split_and!].
      destruct (law_upsert u s Hok) as (e & s' & -> & Hok' & Hp). cbn.
      destruct (upsert_commit u); destruct Hp as [-> Hv]; by eexists _, _; split_and!.
    + destruct (law_dump s Hok) as (s' & -> & Hv & Hok'). by eexists _, _; split_and!.
  - intros s r c f Hok ->%plan_replies. cbn. destruct (law_current s Hok) as (s' & -> & Hv & Hok'). eauto.
  - done.
Qed.

(** The control plane serves concurrent requests as if each change happened at one moment.
    In every interleaving of the handlers of any requests on a new store, the store holds what
    applying the changes one after the other gives; each accepted PUT or POST changed it
    exactly once and each other request never; a GET is answered with the configuration, or
    its dump, of some moment; an accepted update is answered with the configuration of a
    moment after its own change, in which no earlier change is lost; a refused one with its
    error; and no handler panics. *)
Theorem concurrent_updates_are_kept c h st h' reqs trace y :
  bound h (Models c) -> NewConfigStore c h = (inr st, h') ->
  run (handler_step (S := heap_store)) plan_of (mkHS h' st, HStart <$> reqs) trace y ->
  serializable handler_step hs_val apply_commit plan_of
    (mkVal (if decide (Version c = "") then defaultVersion else Version c) (models_at h (Models c))) reqs trace y.
Proof.
  intros Hb [Hok Hv]%NewConfigStore_ok Hr; [|done]. rewrite <-Hv.
  exact (runs_are_serializable _ _ _ _ _ (route_handler_laws (H0 := heap_route_laws)) reqs _ trace y Hok Hr).
Qed.

(** ** The client *)

Section client.
Context {W : Type} (Do : http_request -> W -> option (Z * string) * W) (unicode : string -> string -> bool).
Context (marshal_update : ModelUpdate -> string).

Definition client_get (baseURL path : string) (w : W) := doJSON Do unicode "GET" baseURL path "" [] w.
Definition client_Routes (controlURL : string) (w : W) := client_get controlURL "/routes.json" w.
Definition client_Dump (controlURL : string) (w : W) := client_get controlURL "/dump" w.
Definition client_AddModel (controlURL : string) (u : ModelUpdate) (w : W) :=
  doJSON Do unicode "POST" controlURL "/models" (marshal_update u) [] w.

Record GatewayRequest := mkGateway { GatewayURL : string; Host : string; Model : string; Path : string }.

Definition client_Request (req : GatewayRequest) (w : W) :=
  let path := if decide (Path req = "") then "/" else Path req in
  let headers := ("x-model", Model req) :: if decide (Host req = "") then [] else [("host", Host req)] in
  doJSON Do unicode "GET" (GatewayURL req) path "" headers w.
End client.

(** A model added through the client, by any base URL with or without trailing slashes, is in
    the store and in what the client returns; a refused one is an error that carries the
    store's message, and changes nothing. *)
Lemma add_model_through_client unicode marshal_update base u s :
  decode_update (marshal_update u) = Some u -> hs_ok s ->
  exists s', hs_ok s' /\
    match upsert_commit u with
    | inl e =>
        client_AddModel (over_http handler_step (TrimRight base "/")) unicode marshal_update base u s =
          (inl (StatusError "POST" (TrimRight base "/" +:+ "/models") 400 (encode_error (error_text e))), s') /\
        hs_val s' = hs_val s
    | inr c =>
        client_AddModel (over_http handler_step (TrimRight base "/")) unicode marshal_update base u s =
          (inr (encode_config (apply_commit (hs_val s) c)), s') /\
        hs_val s' = apply_commit (hs_val s) c
    end.
Proof.
  intros Hd Hok.
  destruct (serve_plan _ _ _ _ _ (route_handler_laws (H0 := heap_route_laws)) s (mkReq "POST" "/models" (marshal_update u)) Hok) as (s' & Hok' & Hs).
  unfold plan_of in Hs. cbn [route q_path q_method q_body] in Hs. vm_compute (route _) in Hs. rewrite Hd in Hs. cbn in Hs.
  exists s'. split; [done|]. unfold client_AddModel.
  destruct (upsert_commit u); destruct Hs as [Hs Hv]; (split; [|done]); by rewrite (client_reaches_server _ _ _ _ _ _ _ _ Hs).
Qed.
End server.

(** ** Witness *)

(** Two updates and a read, the second update between the first and its answer. *)
Definition demo_heap : heap := snd (DefaultRouteConfig ∅).
Definition demo_config : RouteConfig := fst (DefaultRouteConfig ∅).
Definition demo_store : ConfigStore :=
  match fst (NewConfigStore demo_config demo_heap) with inr s => s | inl _ => mkStore (mkRoutes "" None) end.
Definition demo_start : heap_store := mkHS (snd (NewConfigStore demo_config demo_heap)) demo_store.

Definition demo_update (body : string) : option ModelUpdate :=
  if decide (body = "") then None else Some (mkUpdate body "upstream:80" "demo" "" "").
Definition demo_requests : list request := [mkReq "POST" "/models" "x"; mkReq "POST" "/models" "y"].

(** A JSON of little use, but one: a configuration is written as its version. *)
Abbreviation with_json f :=
  (f (fun v => v_Version v) (fun d => dc_Version d) (fun e => e) (fun _ => None) demo_update (fun _ => mkResp 404 false "")).

Definition demo_end : list (nat * commit) * (heap_store * list hstate) :=
  fold_left (sched (with_json handler_step) (with_json plan_of)) [0; 1; 0] ([], (demo_start, HStart <$> demo_requests)).

Lemma demo_runs : run (with_json handler_step) (with_json plan_of) (demo_start, HStart <$> demo_requests) demo_end.1 demo_end.2.
Proof. apply sched_run, run_nil. Qed.

Lemma concurrent_updates_are_kept_witness :
  demo_end.1.*1 = [0; 1] /\
  hs_val demo_end.2.1 = contents apply_commit (mkVal defaultVersion (models_at demo_heap (Models demo_config))) demo_end.1 /\
  is_Some (v_Models (hs_val demo_end.2.1) !! "x") /\ is_Some (v_Models (hs_val demo_end.2.1) !! "y").
Proof.
  split; [vm_compute; reflexivity|].
  destruct (with_json concurrent_updates_are_kept demo_config demo_heap demo_store (hs_heap demo_start) demo_requests
    demo_end.1 demo_end.2) as (Hv & _ & _).
  - intros l Hl. apply (bool_decide_unpack _). revert Hl. vm_compute. by intros [= <-].
  - vm_compute. reflexivity.
  - exact demo_runs.
  - split; [exact Hv|]. split; apply (bool_decide_unpack _); vm_compute; exact I.
Defined.
