(* ===== verification/DemoControl.v ===== *)
(** * DemoControl: the control plane of the tiered router's demo
    (integrations/tiered-router-eg/internal/demo/{server,client}.go)

    The HTTP handlers over the store of DemoConfig, as handlers of ControlPlane; the client,
    which puts the name of a shard into the path as it is. *)
From stdpp Require Import base list gmap strings sets fin_maps.
From Stdlib Require Import ZArith Lia Ascii.
From S2P Require Import Prelude GoStrings GoHeap DemoConfig ControlPlane.

(** ** Requests *)

Inductive pattern :=
  | GetHealthz
  | GetL1
  | PostShard
  | GetL2 (shard : string)
  | PostModel (shard : string)
  | GetDump.

(** A [ShardUpdate] as it is decoded: a missing or null list is nil. *)
Record ShardJSON := mkShardJSON {
  sj_Name : string;
  sj_Target : string;
  sj_Prefixes : option (list string);
  sj_Shard : string;
  sj_Status : string;
  sj_Version : string;
}.

Definition shard_update (j : ShardJSON) (prefixes : option loc) : ShardUpdate :=
  mkShardUpdate (sj_Name j) (sj_Target j) prefixes (sj_Shard j) (sj_Status j) (sj_Version j).

(** [update.Shard = r.PathValue("shard")]. *)
Definition with_shard (u : ModelUpdate) (shard : string) : ModelUpdate :=
  mkModelUpdate shard (mu_Name u) (mu_Target u) (mu_Provider u) (mu_AuthHeader u) (mu_Profile u) (mu_BYOKKeyID u) (mu_Version u).

Definition store_error_text (e : store_error) : string :=
  match e with
  | L1VersionRequired => "l1 version is required"
  | DefaultShardRequired => "default shard is required"
  | DefaultShardUnknown name => "default shard " +:+ Quote name +:+ " is not configured"
  | ShardNameRequired => "shard name is required"
  | ShardTargetRequired name => "shard " +:+ Quote name +:+ " target is required"
  | L2ShardRequired => "l2 shard name is required"
  | L2VersionRequired shard => "l2 shard " +:+ Quote shard +:+ " version is required"
  | ModelNameRequired => "model name is required"
  | ModelTargetRequired name => "model " +:+ Quote name +:+ " target is required"
  | ModelProviderRequired name => "model " +:+ Quote name +:+ " provider is required"
  | ShardRequired => "shard is required"
  end.

(** The store and the heap it lives in. *)
Record control := mkControl { ct_heap : heap; ct_store : ConfigStore }.

Definition ct_val (y : control) : StoreVal := val_store (ct_heap y) (ct_store y).
Definition ct_ok (y : control) : Prop := forall l, owned (ct_heap y) (ct_store y) l -> l ∈ dom (ct_heap y).

(** An accepted change. *)
Inductive change := CShard (j : ShardJSON) | CModel (u : ModelUpdate).

Definition apply_change (v : StoreVal) (c : change) : StoreVal :=
  match c with
  | CShard j => (spec_shard_update (shard_update j None) (default [] (sj_Prefixes j)) v).2
  | CModel u => (spec_model_update u v).2
  end.

Section server.
(** encoding/json on the types of this package. *)
Context (encode_l1 : L1Val -> string) (encode_l2 : L2Val -> string) (encode_error : string -> string).
Context (encode_dump : L1Val * gmap string DumpL2Config -> string).
Context (decode_shard : string -> option ShardJSON) (decode_model : string -> option ModelUpdate).
(** [url.PathUnescape], the segment itself when it fails; what [http.ServeMux] answers itself. *)
Context (unescape : string -> string) (unmatched : request -> response).

(** The patterns registered with [http.ServeMux].  Segments are compared unescaped, a wildcard
    matches one segment other than "/", a path that is not clean is redirected, and a [GET]
    pattern matches [HEAD]. *)
Definition clean_path (segs : list string) : bool :=
  forallb (fun s => bool_decide (s <> "" /\ s <> "." /\ s <> "..")) segs.

Definition match_segments (get post : bool) (segs : list string) : option pattern :=
  match segs with
  | ["healthz"] => if get then Some GetHealthz else None
  | ["l1"; "shards.json"] => if get then Some GetL1 else None
  | ["l1"; "shards"] => if post then Some PostShard else None
  | ["l2"; shard; "routes.json"] => if get && bool_decide (shard <> "/") then Some (GetL2 shard) else None
  | ["l2"; shard; "models"] => if post && bool_decide (shard <> "/") then Some (PostModel shard) else None
  | ["dump"] => if get then Some GetDump else None
  | _ => None
  end.

Definition route (r : request) : option pattern :=
  let get := bool_decide (q_method r = "GET" \/ q_method r = "HEAD") in
  let post := bool_decide (q_method r = "POST") in
  match Split (q_path r) "/" with
  | "" :: segs => if clean_path segs then match_segments get post (unescape <$> segs) else None
  | _ => None
  end.

Definition writeJSON (status : Z) (body : string) : response := mkResp status true body.
Definition writeError (status : Z) (msg : string) : response := writeJSON status (encode_error msg).

(** [writeJSON(w, http.StatusOK, store.L1())]. *)
Definition answer_L1 (y : control) : control * hstate :=
  let '(c, h) := L1 (ct_store y) (ct_heap y) in
  (mkControl h (ct_store y), HDone (writeJSON 200 (encode_l1 (val_l1 h c)))).

Definition post_shard (r : request) (y : control) : control * hstate :=
  match decode_shard (q_body r) with
  | None => (y, HDone (writeError 400 "invalid shard update"))
  | Some j =>
      let '(prefixes, h) := match sj_Prefixes j with
                            | None => (None, ct_heap y)
                            | Some l => let '(p, h) := alloc (CArr l) (ct_heap y) in (Some p, h)
                            end in
      match UpsertShard (shard_update j prefixes) (ct_store y) h with
      | (Some err, s, h) => (mkControl h s, HDone (writeError 400 (store_error_text err)))
      | (None, s, h) => (mkControl h s, HReply r)
      end
  end.

Definition get_l2 (shard : string) (y : control) : control * hstate :=
  let '((c, ok), h) := L2 (ct_store y) shard (ct_heap y) in
  (mkControl h (ct_store y),
   HDone (if ok then writeJSON 200 (encode_l2 (val_l2 h c)) else writeError 404 "unknown shard")).

(** [cfg, _ := store.L2(update.Shard)]. *)
Definition answer_L2 (shard : string) (y : control) : control * hstate :=
  let '((c, _), h) := L2 (ct_store y) shard (ct_heap y) in
  (mkControl h (ct_store y), HDone (writeJSON 200 (encode_l2 (val_l2 h c)))).

Definition post_model (shard : string) (r : request) (y : control) : control * hstate :=
  match decode_model (q_body r) with
  | None => (y, HDone (writeError 400 "invalid model update"))
  | Some update =>
      match UpsertModel (with_shard update shard) (ct_store y) (ct_heap y) with
      | (Some err, s, h) => (mkControl h s, HDone (writeError 400 (store_error_text err)))
      | (None, s, h) => (mkControl h s, HReply r)
      end
  end.

Definition get_dump (y : control) : control * hstate :=
  let '((c, m), h) := Dump (ct_store y) (ct_heap y) in
  (mkControl h (ct_store y), HDone (writeJSON 200 (encode_dump (val_l1 h c, m)))).

(** A handler runs up to and including its next call to the store. *)
Definition handler_step (y : control) (st : hstate) : res (control * hstate) :=
  match st with
  | HStart r =>
      Ok match route r with
         | None => (y, HDone (unmatched r))
         | Some GetHealthz => (y, HDone (mkResp 204 false ""))
         | Some GetL1 => answer_L1 y
         | Some PostShard => post_shard r y
         | Some (GetL2 shard) => get_l2 shard y
         | Some (PostModel shard) => post_model shard r y
         | Some GetDump => get_dump y
         end
  | HReply r =>
      Ok match route r with
         | Some (PostModel shard) => answer_L2 shard y
         | _ => answer_L1 y
         end
  | HDone a => Ok (y, HDone a)
  end.

(** ** What a request asks for *)

Definition l1_reply (v : StoreVal) : response := writeJSON 200 (encode_l1 (v_l1 v)).
Definition l2_value (shard : string) (v : StoreVal) : L2Val := default (mkL2Val "" ∅) (v_l2 v !! shard).
Definition l2_reply (shard : string) (v : StoreVal) : response := writeJSON 200 (encode_l2 (l2_value shard v)).

(** Whether an update is refused does not depend on the store. *)
Definition shard_error (j : ShardJSON) : option store_error :=
  if decide (sj_Name j = "") then Some ShardNameRequired
  else if decide (sj_Target j = "") then Some (ShardTargetRequired (sj_Name j)) else None.

Definition model_error (u : ModelUpdate) : option store_error :=
  if decide (mu_Shard u = "") then Some ShardRequired
  else if decide (mu_Name u = "") then Some ModelNameRequired
  else if decide (mu_Target u = "") then Some (ModelTargetRequired (mu_Name u))
  else if decide (mu_Provider u = "") then Some (ModelProviderRequired (mu_Name u)) else None.

Definition plan_update (e : option store_error) (c : change) (reply : StoreVal -> response) : plan StoreVal change :=
  match e with
  | Some e => PAnswer (writeError 400 (store_error_text e))
  | None => PCommit c reply
  end.

Definition plan_of (r : request) : plan StoreVal change :=
  match route r with
  | None => PAnswer (unmatched r)
  | Some GetHealthz => PAnswer (mkResp 204 false "")
  | Some GetL1 => PRead l1_reply
  | Some (GetL2 shard) =>
      PRead (fun v => if decide (is_Some (v_l2 v !! shard)) then l2_reply shard v else writeError 404 "unknown shard")
  | Some GetDump => PRead (fun v => writeJSON 200 (encode_dump (v_l1 v, dump_l2 <$> v_l2 v)))
  | Some PostShard =>
      from_option (fun j => plan_update (shard_error j) (CShard j) l1_reply)
        (PAnswer (writeError 400 "invalid shard update")) (decode_shard (q_body r))
  | Some (PostModel shard) =>
      from_option (fun u => let u := with_shard u shard in plan_update (model_error u) (CModel u) (l2_reply shard))
        (PAnswer (writeError 400 "invalid model update")) (decode_model (q_body r))
  end.

(** ** One call to the store *)

(** What a step of the store by value says of its result. *)
Lemma spec_result v ev v' :
  spec_step v ev v' ->
  match ev with
  | EvL1 c => c = v_l1 v
  | EvL2 shard c ok => c = l2_value shard v /\ ok = bool_decide (is_Some (v_l2 v !! shard))
  | EvDump c m => c = v_l1 v /\ m = dump_l2 <$> v_l2 v
  | _ => True
  end.
Proof. by destruct 1. Qed.

Lemma ct_isolated y : ct_ok y -> isolated (mkSystem (ct_heap y) (ct_store y) ∅).
Proof. intros Hok. split; cbn; [set_solver|]. intros l Hl. split; [by apply Hok | set_solver]. Qed.

Lemma ct_grown y h : ct_ok y -> ct_heap y ⊆ h -> ct_ok (mkControl h (ct_store y)) /\ ct_val (mkControl h (ct_store y)) = ct_val y.
Proof.
  intros Hok Hs. destruct (store_grown (ct_heap y) h (ct_store y) Hok Hs) as [Hv Ho]. split; [|exact Hv].
  intros l Hl. apply (grown_dom (ct_heap y)); [done|]. by apply Hok, Ho.
Qed.

Lemma answer_L1_ok y : ct_ok y -> exists y', answer_L1 y = (y', HDone (l1_reply (ct_val y))) /\ ct_ok y' /\ ct_val y' = ct_val y.
Proof.
  intros Hok. unfold answer_L1. destruct (L1 _ _) as [c h] eqn:Hc.
  destruct (read_step _ _ ∅ (EvL1 (val_l1 h c)) h c (ct_isolated y Hok)) as [Hs Hsp]; [by left|].
  apply spec_result in Hsp. destruct (ct_grown y h Hok Hs) as [Hok' Hv'].
  eexists. split; [|split; [exact Hok' | exact Hv']]. by rewrite Hsp.
Qed.

Lemma L2_ok y shard :
  ct_ok y -> exists c h, L2 (ct_store y) shard (ct_heap y) = ((c, bool_decide (is_Some (v_l2 (ct_val y) !! shard))), h) /\
    val_l2 h c = l2_value shard (ct_val y) /\ ct_ok (mkControl h (ct_store y)) /\ ct_val (mkControl h (ct_store y)) = ct_val y.
Proof.
  intros Hok. destruct (L2 _ _ _) as [[c ok] h] eqn:Hc.
  destruct (L2_step _ _ ∅ shard c ok h (ct_isolated y Hok) Hc) as [Hs Hsp].
  apply spec_result in Hsp as [Hc1 ->]. destruct (ct_grown y h Hok Hs) as [Hok' Hv'].
  exists c, h. by split_and!.
Qed.

Lemma get_dump_ok y :
  ct_ok y -> exists y', get_dump y = (y', HDone (writeJSON 200 (encode_dump (v_l1 (ct_val y), dump_l2 <$> v_l2 (ct_val y))))) /\
    ct_ok y' /\ ct_val y' = ct_val y.
Proof.
  intros Hok. unfold get_dump. destruct (Dump _ _) as [[c m] h] eqn:Hc.
  destruct (read_step _ _ ∅ (EvDump (val_l1 h c) m) h c (ct_isolated y Hok)) as [Hs Hsp]; [right; eauto|].
  apply spec_result in Hsp as [Hc1 ->]. destruct (ct_grown y h Hok Hs) as [Hok' Hv'].
  eexists. split; [|split; [exact Hok' | exact Hv']]. by rewrite Hc1.
Qed.

(** An update's answer and what it left. *)
Definition updated (y : control) (r : request) (e : option store_error) (c : change) (res : control * hstate) : Prop :=
  ct_ok res.1 /\
  match e with
  | Some e => res.2 = HDone (writeError 400 (store_error_text e)) /\ ct_val res.1 = ct_val y
  | None => res.2 = HReply r /\ ct_val res.1 = apply_change (ct_val y) c
  end.

Lemma shard_error_spec j p ps v :
  (spec_shard_update (shard_update j p) ps v).1 = shard_error j /\
  (is_Some (shard_error j) -> (spec_shard_update (shard_update j p) ps v).2 = v).
Proof. unfold spec_shard_update, shard_error. cbn. repeat case_decide; cbn; split; try done; by intros []. Qed.

Lemma model_error_spec u v :
  (spec_model_update u v).1 = model_error u /\ (is_Some (model_error u) -> (spec_model_update u v).2 = v).
Proof. unfold spec_model_update, model_error. repeat case_decide; cbn; split; try done; by intros []. Qed.

Lemma model_accepted u v :
  model_error u = None -> (spec_model_update u v).2 =
    mkStoreVal (v_l1 v) (<[mu_Shard u := mkL2Val (or_string (mu_Version u) "updated")
                             (<[mu_Name u := update_model u]> (v2_Models (l2_value (mu_Shard u) v)))]> (v_l2 v)).
Proof.
  unfold spec_model_update, model_error, l2_value. do 4 (case_decide; [done|]). intros _. cbn.
  by destruct (v_l2 v !! mu_Shard u).
Qed.

Lemma post_shard_ok y r j : ct_ok y -> decode_shard (q_body r) = Some j -> updated y r (shard_error j) (CShard j) (post_shard r y).
Proof.
  intros Hok Hd. unfold post_shard. rewrite Hd.
  destruct (match sj_Prefixes j with None => _ | Some l => _ end) as [p h1] eqn:Hp.
  assert (Hs1 : ct_heap y ⊆ h1 /\ arr_at h1 p = default [] (sj_Prefixes j)).
  { destruct (sj_Prefixes j) as [l|]; [|by injection Hp as <- <-].
    destruct (alloc _ _) as [q h2] eqn:Ha. injection Hp as <- <-. apply alloc_new in Ha as (Hs & Hv & _). by rewrite Hv. }
  destruct Hs1 as [Hs1 Hps]. destruct (ct_grown y h1 Hok Hs1) as [Hok1 Hv1].
  destruct (UpsertShard _ _ _) as [[e s] h2] eqn:Hu. apply UpsertShard_spec in Hu as (Hs2 & Hsp & Hn); [|exact Hok1].
  cbn [su_Prefixes shard_update] in Hsp. rewrite Hps in Hsp.
  change (val_store h1 (ct_store y)) with (ct_val (mkControl h1 (ct_store y))) in Hsp. rewrite Hv1 in Hsp.
  destruct (shard_error_spec j p (default [] (sj_Prefixes j)) (ct_val y)) as [He Hk]. rewrite Hsp in He, Hk. cbn in He, Hk. subst e.
  assert (Hok2 : ct_ok (mkControl h2 s)) by (intros l Hl; by apply Hn).
  destruct (shard_error j) as [e|]; (split; [done|]); cbn [fst snd]; (split; [done|]).
  - by apply Hk.
  - apply (f_equal snd) in Hsp. exact (eq_sym Hsp).
Qed.

Lemma post_model_ok shard y r u :
  ct_ok y -> decode_model (q_body r) = Some u ->
  updated y r (model_error (with_shard u shard)) (CModel (with_shard u shard)) (post_model shard r y).
Proof.
  intros Hok Hd. unfold post_model. rewrite Hd. set (w := with_shard u shard).
  destruct (UpsertModel _ _ _) as [[e s] h2] eqn:Hu. apply UpsertModel_spec in Hu as (Hs2 & Hsp & Hn); [|exact Hok].
  destruct (model_error_spec w (ct_val y)) as [He Hk]. unfold ct_val in He, Hk. rewrite Hsp in He, Hk. cbn in He, Hk. subst e.
  assert (Hok2 : ct_ok (mkControl h2 s)) by (intros l Hl; by apply Hn).
  destruct (model_error w) as [e|]; (split; [done|]); cbn [fst snd]; (split; [done|]).
  - by apply Hk.
  - apply (f_equal snd) in Hsp. exact (eq_sym Hsp).
Qed.

Lemma tier_plan_replies r c f :
  plan_of r = PCommit c f ->
  match route r with
  | Some (PostModel shard) => f = l2_reply shard
  | _ => f = l1_reply
  end.
Proof.
  unfold plan_of. destruct (route r) as [[]|]; try done.
  - destruct (decode_shard _) as [j|]; [|done]. cbn. destruct (shard_error j); cbn; congruence.
  - destruct (decode_model _) as [u|]; [|done]. cbn. destruct (model_error _); cbn; congruence.
Qed.

(** The handlers keep the contract of ControlPlane. *)
Lemma control_handler_laws : HandlerLaws handler_step ct_val ct_ok apply_change plan_of.
Proof.
  split.
  - intros y r Hok. cbn [handler_step]. unfold plan_of.
    destruct (route r) as [[| | |shard|shard|]|]; try by (eexists _, _; split_and!).
    + destruct (answer_L1_ok y Hok) as (y' & -> & Hok' & Hv). by eexists _, _; split_and!.
    + destruct (decode_shard (q_body r)) as [j|] eqn:Hd; [|unfold post_shard; rewrite Hd; by eexists _, _; split_and!].
      pose proof (post_shard_ok y r j Hok Hd) as [Hok' Hu]. destruct (post_shard r y) as [y' st]. cbn in *.
      destruct (shard_error j); eexists _, _; by split_and!.
    + unfold get_l2. destruct (L2_ok y shard Hok) as (c & h & -> & Hc & Hok' & Hv). eexists _, _. split; [done|].
      split; [exact Hok'|]. split; [|exact Hv]. rewrite Hc. case_bool_decide; [by rewrite decide_True | by rewrite decide_False].
    + destruct (decode_model (q_body r)) as [u|] eqn:Hd; [|unfold post_model; rewrite Hd; by eexists _, _; split_and!].
      pose proof (post_model_ok shard y r u Hok Hd) as [Hok' Hu]. destruct (post_model shard r y) as [y' st]. cbn in *.
      destruct (model_error _); eexists _, _; by split_and!.
    + destruct (get_dump_ok y Hok) as (y' & -> & Hok' & Hv). by eexists _, _; split_and!.
  - intros y r c f Hok Hp%tier_plan_replies. cbn [handler_step].
    assert (H1 : f = l1_reply -> exists y', answer_L1 y = (y', HDone (f (ct_val y))) /\ ct_ok y' /\ ct_val y' = ct_val y).
    { intros ->. by apply answer_L1_ok. }
    destruct (route r) as [[| | |shard|shard|]|]; try (destruct (H1 Hp) as (y' & -> & ?); by exists y').
    subst f. unfold answer_L2. destruct (L2_ok y shard Hok) as (c' & h & -> & Hc & Hok' & Hv).
    eexists. split; [|split; [exact Hok' | exact Hv]]. by rewrite Hc.
  - done.
Qed.

(** C36: the tiered control plane serves concurrent requests as if each change happened at one
    moment.  In every interleaving of the handlers of any requests on a store that
    [NewConfigStore] returned, the store holds what applying the accepted shard and model
    updates one after the other gives; each accepted POST changed it exactly once, by its own
    shard or model, and no other request changed it; a GET is answered with the shards, the
    routes of its shard or 404 when there are none, or the dump, of some moment; an accepted
    POST with the configuration of a moment after its own change; and no handler panics. *)
Theorem tier_updates_are_kept initial h s h' reqs trace y :
  (forall l, reach_initial h initial l -> l ∈ dom h) -> NewConfigStore initial h = (inr s, h') ->
  run handler_step plan_of (mkControl h' s, HStart <$> reqs) trace y ->
  serializable handler_step ct_val apply_change plan_of
    (spec_initial (val_l1 h (in_L1 initial)) (val_l2s h (in_L2 initial))) reqs trace y.
Proof.
  intros Hb (Hv & Hok & [_ Hi])%NewConfigStore_spec Hr; [|done]. rewrite <-Hv.
  refine (runs_are_serializable _ _ _ _ _ control_handler_laws reqs (mkControl h' s) trace y _ Hr).
  intros l Hl. by apply Hi.
Qed.

(** ** The client *)

Section client.
Context {W : Type} (Do : http_request -> W -> option (Z * string) * W) (unicode : string -> string -> bool).
Context (marshal_shard : ShardJSON -> string) (marshal_model : ModelUpdate -> string).

Definition client_get (baseURL path : string) (w : W) := doJSON Do unicode "GET" baseURL path "" [] w.
Definition client_L1 (controlURL : string) (w : W) := client_get controlURL "/l1/shards.json" w.
Definition client_L2 (controlURL shard : string) (w : W) := client_get controlURL ("/l2/" +:+ shard +:+ "/routes.json") w.
Definition client_Dump (controlURL : string) (w : W) := client_get controlURL "/dump" w.
Definition client_AddShard (controlURL : string) (u : ShardJSON) (w : W) :=
  doJSON Do unicode "POST" controlURL "/l1/shards" (marshal_shard u) [] w.
Definition client_AddModel (controlURL : string) (u : ModelUpdate) (w : W) :=
  doJSON Do unicode "POST" controlURL ("/l2/" +:+ mu_Shard u +:+ "/models") (marshal_model u) [] w.

Record GatewayRequest := mkGateway {
  GatewayURL : string; Host : string; Model : string; Tag : string; Tenant : string;
  UserKey : string; gr_BYOKKeyID : string; Path : string;
}.

(** The headers that are not empty; a map in the source, whose order decides nothing. *)
Definition gateway_headers (req : GatewayRequest) : list (string * string) :=
  ("x-model", Model req) ::
  filter (fun kv => kv.2 <> "")
    [("host", Host req); ("x-transit-tag", Tag req); ("x-tenant", Tenant req); ("x-user-key", UserKey req);
     ("x-byok-key-id", gr_BYOKKeyID req)].

Definition client_Request (req : GatewayRequest) (w : W) :=
  let path := if decide (Path req = "") then "/" else Path req in
  doJSON Do unicode "GET" (GatewayURL req) path "" (gateway_headers req) w.
End client.

(** A name that a path can hold as it is. *)
Definition plain_char (a : ascii) : bool :=
  let n := code a in
  ((48 <=? n) && (n <=? 57) || (65 <=? n) && (n <=? 90) || (97 <=? n) && (n <=? 122) || (n =? 45) || (n =? 95))%N.
Definition plain (s : string) : bool := bool_decide (s <> "") && forallb plain_char (to_chars s).

Lemma split_l2 shard last :
  ("/"%char ∉ to_chars shard) -> ("/"%char ∉ to_chars last) ->
  Split ("/l2/" +:+ shard +:+ "/" +:+ last) "/" = ["" ; "l2"; shard; last].
Proof.
  intros Hs Hl. unfold Split.
  replace (to_chars _) with (join_chars "/" [[]; ["l"; "2"]%char; to_chars shard; to_chars last])
    by by rewrite !to_chars_app.
  rewrite Split_join; [cbn [map]; by rewrite !of_to_chars | done |].
  repeat constructor; try done; apply (bool_decide_unpack _); vm_compute; exact I.
Qed.

(** Text without escapes is its own unescaped form. *)
Context (unescape_plain : forall s, "%"%char ∉ to_chars s -> unescape s = s).

Lemma plain_chars s a : plain s = true -> a ∈ to_chars s -> plain_char a = true.
Proof. intros [_ H]%andb_prop. rewrite forallb_forall in H. intros Ha. apply H. by apply list_elem_of_In. Qed.

Lemma plain_free s a : plain s = true -> plain_char a = false -> a ∉ to_chars s.
Proof. intros Hp Ha Hin. apply (plain_chars s a Hp) in Hin. congruence. Qed.

Lemma plain_clean s : plain s = true -> s <> "" /\ s <> "." /\ s <> "..".
Proof.
  intros Hp. split_and!; [by apply andb_prop in Hp as [H%bool_decide_eq_true _]| |]; intros ->; by vm_compute in Hp.
Qed.

(** The paths the client builds for a plain name are the ones the patterns take apart. *)
Lemma route_l2 method shard last body :
  plain shard = true -> last = "routes.json" \/ last = "models" ->
  route (mkReq method ("/l2/" +:+ shard +:+ "/" +:+ last) body) =
    match_segments (bool_decide (method = "GET" \/ method = "HEAD")) (bool_decide (method = "POST")) ["l2"; shard; last].
Proof using unescape_plain.
  intros Hp Hl. unfold route. cbn [q_path q_method].
  assert (Hf : ("/"%char ∉ to_chars last) /\ "%"%char ∉ to_chars last)
    by (destruct Hl as [-> | ->]; split; apply (bool_decide_unpack _); vm_compute; exact I).
  rewrite split_l2; [|by apply plain_free | apply Hf].
  assert (Hc : clean_path ["l2"; shard; last] = true).
  { unfold clean_path. cbn [forallb]. rewrite (bool_decide_true _ (plain_clean shard Hp)). by destruct Hl as [-> | ->]. }
  rewrite Hc. cbn [fmap list_fmap]. rewrite !unescape_plain; [done | apply Hf | by apply plain_free |].
  apply (bool_decide_unpack _). vm_compute. exact I.
Qed.

Lemma match_models shard : plain shard = true -> match_segments false true ["l2"; shard; "models"] = Some (PostModel shard).
Proof. intros Hp. cbn. rewrite bool_decide_true; [done|]. intros ->. by vm_compute in Hp. Qed.

Lemma match_routes shard : plain shard = true -> match_segments true false ["l2"; shard; "routes.json"] = Some (GetL2 shard).
Proof. intros Hp. cbn. rewrite bool_decide_true; [done|]. intros ->. by vm_compute in Hp. Qed.

(** A model added through the client to a shard with a plain name is in the answer, and in what
    the client reads of the shard then; a refused one is an error that carries the store's
    message, and changes nothing. *)
Lemma added_model_is_read_back unicode marshal_model base u y :
  decode_model (marshal_model u) = Some u -> plain (mu_Shard u) = true -> ct_ok y ->
  let Do := over_http handler_step (TrimRight base "/") in
  exists y', ct_ok y' /\
    match model_error u with
    | Some e =>
        client_AddModel Do unicode marshal_model base u y =
          (inl (StatusError "POST" (TrimRight base "/" +:+ "/l2/" +:+ mu_Shard u +:+ "/models") 400
                  (encode_error (store_error_text e))), y') /\ ct_val y' = ct_val y
    | None =>
        let c := mkL2Val (or_string (mu_Version u) "updated")
                   (<[mu_Name u := update_model u]> (v2_Models (l2_value (mu_Shard u) (ct_val y)))) in
        client_AddModel Do unicode marshal_model base u y = (inr (encode_l2 c), y') /\
        exists y'', client_L2 Do unicode base (mu_Shard u) y' = (inr (encode_l2 c), y'')
    end.
Proof using unescape_plain.
  intros Hd Hp Hok Do. set (shard := mu_Shard u) in *.
  assert (Hw : with_shard u shard = u) by by destruct u.
  destruct (serve_plan _ _ _ _ _ control_handler_laws y (mkReq "POST" ("/l2/" +:+ shard +:+ "/models") (marshal_model u)) Hok)
    as (y' & Hok' & Hs).
  unfold plan_of in Hs. rewrite (route_l2 _ _ "models") in Hs by auto. cbn [q_body] in Hs.
  change (bool_decide ("POST" = "GET" \/ _)) with false in Hs. change (bool_decide ("POST" = "POST")) with true in Hs.
  rewrite match_models, Hd in Hs by done. cbn [from_option] in Hs. rewrite Hw in Hs.
  exists y'. split; [done|]. unfold client_AddModel. fold shard. destruct (model_error u) as [e|] eqn:He; cbn [plan_update] in Hs.
  - destruct Hs as [Hs Hv]. unfold Do. rewrite (client_reaches_server _ _ _ _ _ _ _ _ Hs). done.
  - cbv zeta. set (c := mkL2Val _ _). destruct Hs as [Hs Hv].
    assert (Hc : ct_val y' = mkStoreVal (v_l1 (ct_val y)) (<[shard := c]> (v_l2 (ct_val y)))).
    { rewrite Hv. by apply model_accepted. }
    unfold Do. rewrite (client_reaches_server _ _ _ _ _ _ _ _ Hs). rewrite <-Hv, Hc.
    unfold l2_reply, l2_value. cbn [v_l2]. rewrite lookup_insert_eq. split; [done|].
    destruct (serve_plan _ _ _ _ _ control_handler_laws y' (mkReq "GET" ("/l2/" +:+ shard +:+ "/routes.json") "") Hok')
      as (y'' & _ & Hg).
    unfold plan_of in Hg. rewrite (route_l2 _ _ "routes.json") in Hg by auto.
    change (bool_decide ("GET" = "GET" \/ _)) with true in Hg. change (bool_decide ("GET" = "POST")) with false in Hg.
    rewrite match_routes in Hg by done. destruct Hg as [Hg _]. exists y''. unfold client_L2, client_get.
    rewrite (client_reaches_server _ _ _ _ _ _ _ _ Hg), Hc. unfold l2_reply, l2_value. cbn [v_l2]. rewrite lookup_insert_eq.
    by rewrite decide_True.
Qed.
End server.

(** ** Witness *)

Definition demo_control : control := mkControl demo_start demo_store.

(** A JSON of little use, but one: a configuration is written as its version, and a body is the
    name of what it adds. *)
Abbreviation with_json f :=
  (f (fun l1 => lv_Version l1) (fun l2 => v2_Version l2) (fun e => e) (fun d => lv_Version d.1)
     (fun body => if decide (body = "") then None else Some (mkShardJSON body "l2:80" (Some [body]) "" "" "v2"))
     (fun body => if decide (body = "") then None else Some (mkModelUpdate "" body "up:80" "demo" "" "" "" "v3"))
     (fun s => s) (fun _ => mkResp 404 false "")).

Definition demo_requests : list request :=
  [mkReq "POST" "/l1/shards" "c"; mkReq "POST" "/l2/c/models" "m"; mkReq "GET" "/l2/zz/routes.json" ""].

(** The second POST is accepted between the first and its answer. *)
Definition demo_end : list (nat * change) * (control * list hstate) :=
  fold_left (sched (with_json handler_step) (with_json plan_of)) [0; 1; 2; 0; 1] ([], (demo_control, HStart <$> demo_requests)).

Lemma tier_updates_are_kept_witness :
  (demo_end.1.*1 = [0; 1] /\
   demo_end.2.2 = HDone <$> [mkResp 200 true "v2"; mkResp 200 true "v3"; mkResp 404 true "unknown shard"]) /\
  serializable (with_json handler_step) ct_val apply_change (with_json plan_of)
    (spec_initial (val_l1 demo_heap (in_L1 demo_initial)) (val_l2s demo_heap (in_L2 demo_initial)))
    demo_requests demo_end.1 demo_end.2.
Proof.
  split; [split; vm_compute; reflexivity|].
  apply (with_json tier_updates_are_kept demo_initial demo_heap demo_store demo_start demo_requests).
  - intros l [Hl|Hl]; revert l Hl; apply refs_bound_spec; vm_compute; reflexivity.
  - vm_compute. reflexivity.
  - apply sched_run, run_nil.
Defined.

(** ** Where the client and the server disagree *)

(** The server stores a shard under any name; the client writes the name into the path without
    escaping it, so that the models of a shard whose name holds a slash cannot be added or read
    with it. *)
Lemma slashed_shard_out_of_reach :
  let add := client_AddShard (over_http (with_json handler_step) "http://c") (fun _ _ => false) sj_Name in
  let models := client_AddModel (over_http (with_json handler_step) "http://c") (fun _ _ => false) mu_Name in
  let '(r1, y1) := add "http://c" (mkShardJSON "eu/a" "l2:80" None "" "" "v2") demo_control in
  let '(r2, y2) := models "http://c" (mkModelUpdate "eu/a" "m" "up:80" "demo" "" "" "" "v3") y1 in
  r1 = inr "v2" /\ r2 = inl (StatusError "POST" "http://c/l2/eu/a/models" 404 "").
Proof. vm_compute. by split. Qed.
