(* ===== verification/ShardFetch.v ===== *)
(** * ShardFetch: the shard router behind the tiered control plane

    The rest of examples/cluster-shard-router: its configuration, the store of the published
    snapshot, the cluster's life cycle and the debug endpoint; then the router as an instance of
    ConfigFetch, and its composition with the control plane of DemoControl, whose accepted
    updates end as hosts chosen for requests. *)
From stdpp Require Import base list gmap strings sets fin_maps relations.
From Stdlib Require Import ZArith Lia Ascii.
From S2P Require Import Prelude GoStrings Async StreamObject Envoy Grpc FilterState Filter HostSet HostRefresh HostLookup ControlPlane DemoConfig DemoControl ConfigFetch ShardRouter.

(** ** router.go: the configuration *)

Definition debugPath := "/__cluster-shard-router/config".
Definition defaultRefresh : Z := Second.
Definition defaultTimeout : Z := 500 * Millisecond.

Record routerConfig := mkRouterConfig {
  ConfigURL : string;
  RefreshMillis : Z;
  TimeoutMillis : Z;
  Initial : configSnapshot;
}.

Definition refresh (c : routerConfig) : Z := millis_or (RefreshMillis c) defaultRefresh.
Definition timeout (c : routerConfig) : Z := millis_or (TimeoutMillis c) defaultTimeout.

(** [parseRouterConfig]; [unmarshal] is the JSON decoder with its error. *)
Definition parseRouterConfig (unmarshal : string -> string + routerConfig) (config : string) : string + routerConfig :=
  if decide (config = "") then inr (mkRouterConfig "" 0 0 (mkConfigSnapshot "" "" ∅))
  else match unmarshal config with
       | inl err => inl ("cluster-shard-router: parse config: " +:+ err)
       | inr cfg => inr cfg
       end.

(** ** router.go: the store *)

Record shardStore := mkStore { st_current : shardSnapshot; st_hosts : gmap string HostPtr }.

Definition newShardStore : shardStore := mkStore (mkSnapshot "" "" ∅) ∅.
Definition Current (s : shardStore) : shardSnapshot := st_current s.
Definition RememberHost (addr : string) (host : HostPtr) (s : shardStore) : shardStore :=
  mkStore (st_current s) (<[addr := host]> (st_hosts s)).
Definition Host (addr : string) (s : shardStore) : option HostPtr := st_hosts s !! addr.

Definition clone_route (v : shardRoute) : shardRoute :=
  mkShard (Name v) (ShardRouter.Shard v) (Target v) (sr_Address v) ([] ++ ShardRouter.Prefixes v) (ShardRouter.Status v).
Definition cloneShardSnapshot (s : shardSnapshot) : shardSnapshot :=
  mkSnapshot (Version s) (ShardRouter.DefaultShard s) (clone_route <$> ShardRouter.Shards s).
Definition Publish (snapshot : shardSnapshot) (s : shardStore) : shardStore :=
  mkStore (cloneShardSnapshot snapshot) (st_hosts s).

Lemma cloneShardSnapshot_id s : cloneShardSnapshot s = s.
Proof.
  unfold cloneShardSnapshot. destruct s as [v d m]. cbn. f_equal.
  rewrite <-(map_fmap_id m) at 2. apply map_fmap_ext. by intros ? [] _.
Qed.

(** ** cluster.go: the life cycle *)

Section cluster.
Context {C : Type} `{AddressedCluster C} `{U : GoUnicode}.

(** [NewCluster] over the process-wide store, and a router's part of that store. *)
Definition NewCluster (h : C) (store : shardStore) : routerCluster C := mkRouter h (st_current store) (st_hosts store).
Definition store_of (r : routerCluster C) : shardStore := mkStore (current r) (hosts r).

(** [Init], up to [PreInitComplete]: the initial configuration is applied when it resolves. *)
Definition Init (cfg : routerConfig) (resolve : string -> string + string) (o1 : list (string * shardConfig))
    (o2 : list (string * shardRoute)) (r : routerCluster C) : routerCluster C :=
  if decide (cs_Shards (Initial cfg) = ∅) then r
  else match resolveConfigSnapshot resolve (Initial cfg) o1 with
       | inl _ => r
       | inr snap => (applySnapshot snap o2 r).2
       end.

(** Whether the loop of [applySnapshot] ran to its end. *)
Definition hosts_known (snap_order : list (string * shardRoute)) (r : routerCluster C) : bool :=
  (ensure_hosts (sr_Address ∘ snd <$> snap_order) (hosts r) (handle r)).1.1.1.

Lemma applySnapshot_publishes snap order r :
  current (applySnapshot snap order r).2 =
  if hosts_known order r then Current (Publish snap (store_of r)) else Current (store_of r).
Proof.
  unfold applySnapshot, hosts_known. destruct (ensure_hosts _ _ _) as [[[ok hs] seen] c]. cbn.
  by rewrite cloneShardSnapshot_id.
Qed.

(** What resolving and applying do, for some resolver and some orders of the maps. *)
Definition resolving (f : configSnapshot -> string + shardSnapshot) : Prop :=
  exists resolve orders, (forall cfg, orders cfg ≡ₚ map_to_list (cs_Shards cfg)) /\
    forall cfg, f cfg = resolveConfigSnapshot resolve cfg (orders cfg).

Definition applying (snap : shardSnapshot) (r r' : routerCluster C) (ok : bool) : Prop :=
  exists order, order ≡ₚ map_to_list (ShardRouter.Shards snap) /\ ok = hosts_known order r /\
    r' = (applySnapshot snap order r).2.
End cluster.

(** ** upstream_filter.go: the debug endpoint *)

Record debugShard := mkDebugShard {
  ds_Shard : string; ds_Target : string; ds_Address : string; ds_Prefixes : list string; ds_Status : string;
}.

Record debugSnapshot := mkDebugSnapshot {
  ds_Version : string;
  ds_DefaultShard : string;
  ds_Shards : gmap string debugShard;
}.

Definition debug_shard (route : shardRoute) : debugShard :=
  mkDebugShard (ShardRouter.Shard route) (Target route) (sr_Address route) ([] ++ ShardRouter.Prefixes route)
    (ShardRouter.Status route).

Definition DebugSnapshot (s : shardStore) : debugSnapshot :=
  let snap := Current s in
  mkDebugSnapshot (Version snap) (ShardRouter.DefaultShard snap) (debug_shard <$> ShardRouter.Shards snap).

Definition dquote : string := String (ascii_of_nat 34) EmptyString.
Definition marshal_error_body : bytes :=
  String.list_byte_of_string ("{" +:+ dquote +:+ "error" +:+ dquote +:+ ":" +:+
                              dquote +:+ "marshal config" +:+ dquote +:+ "}").

(** [debugHandler]; [marshal] is the JSON encoder, [None] for its error. *)
Definition debugHandler (marshal : debugSnapshot -> option bytes) (s : shardStore) (r : Request) : prog :=
  if decide (r_Path r <> debugPath) then PRet
  else match marshal (DebugSnapshot s) with
       | None => PAct (ASendLocalResponse 500 marshal_error_body [("content-type", "application/json")]) PRet
       | Some body => PAct (ASendLocalResponse 200 body [("content-type", "application/json")]) PRet
       end.

(** ** Resolving, entry by entry *)

Section resolved.
Context `{U : GoUnicode} (resolve : string -> string + string).

Lemma resolve_shard_name name sc route :
  resolve_shard resolve name sc = inr route ->
  Name route = normalizeToken name /\ Name route <> "" /\ Target route = sc_Target sc /\
  resolve (sc_Target sc) = inr (sr_Address route).
Proof.
  unfold resolve_shard. case_decide; [done|]. case_decide; [done|].
  destruct (resolve (sc_Target sc)) eqn:Hr; [done|]. by intros [= <-].
Qed.

Lemma resolve_shard_ok name sc addr :
  normalizeToken name <> "" -> sc_Target sc <> "" -> resolve (sc_Target sc) = inr addr ->
  exists route, resolve_shard resolve name sc = inr route.
Proof. intros Hn Ht Ha. unfold resolve_shard. rewrite decide_False, decide_False, Ha by done. eauto. Qed.

(** Names that stay apart when they are normalised give a route each. *)
Lemma resolve_shards_lookup order : forall out shards,
  NoDup (normalizeToken <$> order.*1) -> resolve_shards resolve order out = inr shards ->
  (forall name sc, (name, sc) ∈ order ->
     exists route, resolve_shard resolve name sc = inr route /\ shards !! normalizeToken name = Some route) /\
  (forall n, n ∉ (normalizeToken <$> order.*1) -> shards !! n = out !! n).
Proof.
  induction order as [|[name sc] order IH]; intros out shards Hnd; cbn [resolve_shards].
  { intros [= <-]. split; [by intros ?? ?%not_elem_of_nil | done]. }
  cbn in Hnd. apply NoDup_cons in Hnd as [Hni Hnd]. destruct (resolve_shard resolve name sc) as [e|route] eqn:Hr; [done|].
  intros Hs. destruct (IH _ _ Hnd Hs) as [Hin Hout]. destruct (resolve_shard_name _ _ _ Hr) as (Hname & _).
  rewrite Hname in Hout. split.
  - intros name' sc' [[= -> ->]|Hi]%elem_of_cons; [|by apply Hin].
    exists route. split; [done|]. rewrite (Hout _ Hni). by rewrite lookup_insert_eq.
  - cbn. intros n Hn. apply not_elem_of_cons in Hn as [Hne Hn]. by rewrite (Hout _ Hn), lookup_insert_ne.
Qed.

Lemma resolve_shards_total order : forall out,
  (forall name sc, (name, sc) ∈ order -> exists route, resolve_shard resolve name sc = inr route) ->
  exists shards, resolve_shards resolve order out = inr shards.
Proof.
  induction order as [|[name sc] order IH]; intros out Hr; cbn [resolve_shards]; [eauto|].
  destruct (Hr name sc) as [route ->]; [by left|]. apply IH. intros n s Hi. apply Hr. by right.
Qed.

(** A blank name fails the whole configuration, whatever else it holds. *)
Lemma blank_name_fails order : forall out name sc,
  (name, sc) ∈ order -> normalizeToken name = "" -> exists e, resolve_shards resolve order out = inl e.
Proof.
  induction order as [|[n s] order IH]; intros out name sc; [by intros ?%not_elem_of_nil|].
  intros [[= <- <-]|Hi]%elem_of_cons Hb; cbn [resolve_shards].
  - unfold resolve_shard. rewrite decide_True by done. eauto.
  - destruct (resolve_shard resolve n s) as [e|route]; eauto.
Qed.
End resolved.

(** ** The router as a fetcher *)

Section follow.
Context {C : Type} `{AddressedClusterLaws C} `{U : GoUnicode} (hashTag : string -> string).

Lemma shard_apply_laws : ApplyLaws (R := routerCluster C) applying current routable.
Proof.
  split.
  - intros snap r r' ok (order & _ & -> & ->). rewrite applySnapshot_publishes. cbn. by rewrite cloneShardSnapshot_id.
  - intros snap r r' ok (order & Ho & _ & ->) Hr. by apply shard_snapshot_routable.
Qed.

(** A snapshot that serves every request, if it has shards at all. *)
Definition serves_all (snap : shardSnapshot) : Prop :=
  ShardRouter.Shards snap = ∅ \/ exists resolve cfg o1, resolveConfigSnapshot resolve cfg o1 = inr snap.

Lemma serves_all_chooses (r : routerCluster C) order header :
  routable r -> serves_all (current r) -> ShardRouter.Shards (current r) <> ∅ ->
  order ≡ₚ map_to_list (ShardRouter.Shards (current r)) ->
  exists name route, ShardRouter.Shards (current r) !! name = Some route /\
    ShardRouter.ChooseHost hashTag r order header = FindHostByAddress (sr_Address route) (handle r) /\
    (takes C (sr_Address route) -> ShardRouter.ChooseHost hashTag r order header <> 0%Z).
Proof.
  intros Hr [He|(resolve & cfg & o1 & Hs)] Hne Ho; [done|].
  destruct (default_decides hashTag (current r) order (fun name => default "" (header name))) as (d & name & Hd & Hn);
    [by eapply resolved_default | done |].
  exists name, (Route d). split_and!; [done|by unfold ShardRouter.ChooseHost; rewrite Hd|].
  intros Ht. by eapply ChooseHost_known.
Qed.

(** [Init] leaves a routable cluster with a snapshot that serves every request. *)
Lemma Init_ok cfg resolve o1 o2 (h : C) :
  (forall snap, resolveConfigSnapshot resolve (Initial cfg) o1 = inr snap -> o2 ≡ₚ map_to_list (ShardRouter.Shards snap)) ->
  let r := Init cfg resolve o1 o2 (NewCluster h newShardStore) in routable r /\ serves_all (current r).
Proof.
  intros Ho. cbv zeta. unfold Init.
  assert (Hnew : routable (NewCluster h newShardStore) /\ serves_all (current (NewCluster h newShardStore)))
    by (split; [apply map_Forall_empty | by left]).
  case_decide; [done|]. destruct (resolveConfigSnapshot _ _ _) as [e|snap] eqn:Hs; [done|].
  split; [by apply shard_snapshot_routable; [apply Ho|]|]. rewrite applySnapshot_publishes.
  destruct (hosts_known _ _); [|apply Hnew]. cbn. rewrite cloneShardSnapshot_id. right. eauto.
Qed.

Lemma snapshot_serves_all served k snap : snapshot_of served resolving k snap -> serves_all snap.
Proof. intros (f & (resolve & orders & _ & Hf) & Hs). right. rewrite Hf in Hs. eauto. Qed.

End follow.

(** ** With the control plane *)

(** What the router decodes of the control plane's L1 configuration: the two packages have the
    same JSON names. *)
Definition shard_entry (s : ShardVal) : shardConfig := mkShardConfig (sv_Target s) (sv_Prefixes s) (sv_Shard s) (sv_Status s).
Definition l1_snapshot (c : L1Val) : configSnapshot :=
  mkConfigSnapshot (lv_Version c) (lv_DefaultShard c) (shard_entry <$> lv_Shards c).

(** The control plane after its first [k] changes, and what it then serves. *)
Definition held (v : StoreVal) (changes : list change) (k : nat) : StoreVal := fold_left apply_change (take k changes) v.
Definition served_by (v : StoreVal) (changes : list change) (k : nat) : configSnapshot := l1_snapshot (v_l1 (held v changes k)).

Lemma apply_change_valid v c : valid_store v -> valid_store (apply_change v c).
Proof.
  intros Hv. destruct c as [j|u]; cbn [apply_change].
  - destruct (spec_shard_update _ _ v) as [e v'] eqn:He. by eapply shard_update_valid.
  - destruct (spec_model_update u v) as [e v'] eqn:He. by eapply model_update_valid.
Qed.

Lemma held_valid v changes k : valid_store v -> valid_store (held v changes k).
Proof.
  unfold held. generalize (take k changes) as cs. intros cs. revert v.
  induction cs as [|c cs IH]; intros v Hv; [done|]. cbn. by apply IH, apply_change_valid.
Qed.

Section tiers.
Context {C : Type} `{AddressedClusterLaws C} `{U : GoUnicode} (hashTag : string -> string).
Context (resolve : string -> string + string).

Definition map_resolve (cfg : configSnapshot) : string + shardSnapshot :=
  resolveConfigSnapshot resolve cfg (map_to_list (cs_Shards cfg)).

Lemma map_resolving : resolving map_resolve.
Proof. by exists resolve, (fun cfg => map_to_list (cs_Shards cfg)). Qed.

Lemma can_apply snap (r : routerCluster C) : exists r', applying snap r r' true.
Proof using H0.
  eexists. exists (map_to_list (ShardRouter.Shards snap)). split_and!; [done | | reflexivity].
  unfold hosts_known. destruct (ensure_hosts _ _ _) as [[[ok hs] seen] c] eqn:E.
  by apply ensure_hosts_spec in E as (-> & _).
Qed.

(** Names that are lower case and trimmed, and targets that resolve. *)
Definition resolvable (c : L1Val) : Prop :=
  map_Forall (fun name s => normalizeToken name = name /\ exists addr, resolve (sv_Target s) = inr addr) (lv_Shards c).

Lemma names_apart c : resolvable c -> NoDup (normalizeToken <$> (map_to_list (shard_entry <$> lv_Shards c)).*1).
Proof.
  intros Hr. replace (normalizeToken <$> _) with ((map_to_list (shard_entry <$> lv_Shards c)).*1);
    [apply NoDup_fst_map_to_list|].
  rewrite <-(list_fmap_id ((map_to_list _).*1)) at 1. apply Forall_fmap_ext_1, Forall_forall.
  intros name ([name' sc] & -> & Hi)%list_elem_of_fmap. apply elem_of_map_to_list in Hi. rewrite lookup_fmap in Hi.
  apply fmap_Some in Hi as (s & Hs & _). cbn. by destruct (Hr _ _ Hs) as [-> _].
Qed.

(** A valid store with such names resolves, shard by shard. *)
Lemma valid_store_resolves v :
  valid_store v -> resolvable (v_l1 v) ->
  exists snap, map_resolve (l1_snapshot (v_l1 v)) = inr snap /\ Version snap = lv_Version (v_l1 v) /\
    ShardRouter.Shards snap <> ∅ /\ DefaultShard snap = lv_DefaultShard (v_l1 v) /\
    (forall n route, ShardRouter.Shards snap !! n = Some route ->
       exists s, lv_Shards (v_l1 v) !! n = Some s /\ resolve_shard resolve n (shard_entry s) = inr route) /\
    (forall n s, lv_Shards (v_l1 v) !! n = Some s ->
       exists route, ShardRouter.Shards snap !! n = Some route /\ resolve_shard resolve n (shard_entry s) = inr route).
Proof.
  intros (_ & Hd0 & [sd Hd] & Hf & _) Hr. unfold map_resolve, resolveConfigSnapshot. cbn [cs_Shards l1_snapshot cs_DefaultShard].
  set (order := map_to_list _). set (def := if decide _ then _ else _).
  assert (Hin : forall name sc, (name, sc) ∈ order -> exists s, sc = shard_entry s /\ lv_Shards (v_l1 v) !! name = Some s).
  { intros name sc Hi%elem_of_map_to_list. rewrite lookup_fmap in Hi. by apply fmap_Some in Hi as (s & Hs & ->); eauto. }
  assert (Htot : forall name sc, (name, sc) ∈ order -> exists route, resolve_shard resolve name sc = inr route).
  { intros name sc (s & -> & Hs)%Hin. destruct (Hr _ _ Hs) as [Hn [addr Ha]]. destruct (Hf _ _ Hs) as [Hne Ht].
    apply (resolve_shard_ok _ _ _ addr); [by rewrite Hn | done | done]. }
  destruct (resolve_shards_total resolve order ∅ Htot) as [shards Hs]. rewrite Hs.
  destruct (resolve_shards_lookup resolve order ∅ shards (names_apart _ Hr) Hs) as [Hl Hout].
  assert (Hdef : def = lv_DefaultShard (v_l1 v)).
  { destruct (Hr _ _ Hd) as [Hn _]. unfold def. rewrite Hn. by rewrite decide_False. }
  destruct (Hl (lv_DefaultShard (v_l1 v)) (shard_entry sd)) as (rd & Hrd & Hsd).
  { apply elem_of_map_to_list. by rewrite lookup_fmap, Hd. }
  destruct (Hr _ _ Hd) as [Hnd _]. rewrite Hnd in Hsd.
  rewrite decide_False by (intros [Hx _]; rewrite Hdef, Hsd in Hx; done).
  eexists. split; [done|]. split; [done|]. cbn. split; [intros He; by rewrite He in Hsd|]. split; [done|]. split.
  2: { intros n s0 Hs0. destruct (Hl n (shard_entry s0)) as (route & Hr0 & Hl0).
       { apply elem_of_map_to_list. by rewrite lookup_fmap, Hs0. }
       exists route. destruct (Hr _ _ Hs0) as [Hn0 _]. by rewrite Hn0 in Hl0. }
  intros n route Hn. destruct (decide (n ∈ normalizeToken <$> order.*1)) as [Hi|Hi].
  - apply list_elem_of_fmap in Hi as (name & -> & ([name' sc] & -> & Hi)%list_elem_of_fmap). cbn in *.
    destruct (Hin _ _ Hi) as (s & -> & Hsv). destruct (Hl _ _ Hi) as (route' & Hr' & Hl').
    rewrite Hn in Hl'. injection Hl' as <-. destruct (Hr _ _ Hsv) as [Hnn _]. exists s. by rewrite Hnn.
  - rewrite (Hout n Hi) in Hn. by rewrite lookup_empty in Hn.
Qed.

(** The control plane's own reading of a request: its tag, and which of the shards it holds a
    tag belongs to. *)
Definition request_tag (c : L1Val) (header : string -> option string) : string :=
  let tag := (deriveTag hashTag (fun name => default "" (header name))).1 in
  if decide (tag = "") then lv_DefaultShard c else tag.

Definition shard_active (s : ShardVal) : Prop :=
  normalizeToken (sv_Status s) = "" \/ normalizeToken (sv_Status s) = "active".

Definition shard_prefixes (name : string) (s : ShardVal) : list string :=
  let prefixes := normalizePrefixes (sv_Prefixes s) in
  if decide (prefixes = [] /\ name <> defaultShardName) then [name] else prefixes.

(** An active shard with a prefix of the tag that no active shard's prefix of it exceeds, or
    the default shard when no active shard has one. *)
Definition shard_of_tag (c : L1Val) (tag name : string) (s : ShardVal) : Prop :=
  let t := normalizeToken tag in
  let candidate name' p := exists s', lv_Shards c !! name' = Some s' /\ shard_active s' /\
    p ∈ shard_prefixes name' s' /\ p <> "" /\ HasPrefix t p = true in
  lv_Shards c !! name = Some s /\
  ((exists p, candidate name p /\ forall name' p', candidate name' p' -> String.length p' <= String.length p) \/
   (name = lv_DefaultShard c /\ forall name' p', ~ candidate name' p')).

Lemma resolve_shard_fields name s route :
  normalizeToken name = name -> resolve_shard resolve name (shard_entry s) = inr route ->
  (active route = true <-> shard_active s) /\ ShardRouter.Prefixes route = shard_prefixes name s /\
  resolve (sv_Target s) = inr (sr_Address route).
Proof.
  intros Hn. unfold resolve_shard. rewrite Hn. case_decide; [done|]. case_decide; [done|].
  cbn [shard_entry sc_Target sc_Prefixes sc_Shard sc_Status].
  destruct (resolve (sv_Target s)) eqn:Hr; [done|]. intros [= <-]. cbn. split_and!; [|done|done].
  unfold active. cbn. by rewrite bool_decide_eq_true.
Qed.

(** The router's choice among the resolved shards is the control plane's. *)
Lemma longest_prefix_is_shard_of_tag c snap tag route :
  resolvable c -> DefaultShard snap = lv_DefaultShard c ->
  (forall n route, ShardRouter.Shards snap !! n = Some route ->
     exists s, lv_Shards c !! n = Some s /\ resolve_shard resolve n (shard_entry s) = inr route) ->
  (forall n s, lv_Shards c !! n = Some s ->
     exists route, ShardRouter.Shards snap !! n = Some route /\ resolve_shard resolve n (shard_entry s) = inr route) ->
  longest_prefix snap tag (Some route) ->
  exists name s, ShardRouter.Shards snap !! name = Some route /\ shard_of_tag c tag name s /\
    resolve (sv_Target s) = inr (sr_Address route).
Proof.
  intros Hres Hdef Hto Hof Hlp.
  assert (Hfields : forall n s route', lv_Shards c !! n = Some s -> resolve_shard resolve n (shard_entry s) = inr route' -> _)
    by (intros n s route' Hs; exact (resolve_shard_fields n s route' (proj1 (Hres _ _ Hs)))).
  destruct Hlp as [(name & route' & p & [= <-] & Hn & Ha & Hp & Hp0 & Hpre & Hmax)|[Hd Hnone]].
  - destruct (Hto _ _ Hn) as (s & Hs & Hr). destruct (Hfields _ _ _ Hs Hr) as (F1 & F2 & F3).
    exists name, s. split; [done|]. split; [|done]. split; [done|]. left. exists p. split.
    + exists s. rewrite <-F2. by rewrite <-F1.
    + intros name' p' (s' & Hs' & Ha' & Hp' & _ & Hpre'). destruct (Hof _ _ Hs') as (route' & Hn' & Hr').
      destruct (Hfields _ _ _ Hs' Hr') as (G1 & G2 & _). rewrite <-G2 in Hp'. by apply (Hmax name' route'); [|apply G1|..].
  - symmetry in Hd. destruct (Hto _ _ Hd) as (s & Hs & Hr). destruct (Hfields _ _ _ Hs Hr) as (_ & _ & F3).
    exists (DefaultShard snap), s. split; [done|]. split; [|done]. split; [done|]. right. split; [done|].
    intros name' p' (s' & Hs' & Ha' & Hp' & Hp0 & Hpre'). destruct (Hof _ _ Hs') as (route' & Hn' & Hr').
    destruct (Hfields _ _ _ Hs' Hr') as (G1 & G2 & _). rewrite <-G2 in Hp'. apply Hp0.
    by apply (Hnone name' route'); [|apply G1|..].
Qed.

Lemma Decide_longest snap order getHeader d :
  order ≡ₚ map_to_list (ShardRouter.Shards snap) -> Decide hashTag snap order getHeader = Some d ->
  longest_prefix snap (let tag := (deriveTag hashTag getHeader).1 in if decide (tag = "") then DefaultShard snap else tag)
    (Some (Route d)).
Proof.
  intros Ho. unfold Decide. destruct (deriveTag hashTag getHeader) as [tag source]. cbn [fst]. cbv zeta.
  case_decide.
  - pose proof (shard_is_longest_prefix snap order (DefaultShard snap) Ho) as Hl.
    destruct (chooseShard snap order (DefaultShard snap)); [|done]. by intros [= <-].
  - pose proof (shard_is_longest_prefix snap order tag Ho) as Hl.
    destruct (chooseShard snap order tag); [|done]. by intros [= <-].
Qed.

End tiers.

(** ** Witnesses *)

#[local] Instance ascii_only : GoUnicode := fun s => s.

Definition demo_resolve (target : string) : string + string := inr ("10.0.0.1:" +:+ target).
Definition demo_value : StoreVal := ct_val demo_control.
Definition demo_changes : list change := [CShard (mkShardJSON "c" "l2-c:80" (Some ["c"]) "" "" "v2")].
Definition demo_cfg : routerConfig := mkRouterConfig "http://control" 250 0 (mkConfigSnapshot "" "" ∅).
Definition demo_router : routerCluster (list string) := NewCluster [] newShardStore.

Definition demo_published : shardSnapshot :=
  match map_resolve demo_resolve (served_by demo_value demo_changes 1) with
  | inr snap => snap
  | inl _ => mkSnapshot "" "" ∅
  end.

Lemma demo_resolved : map_resolve demo_resolve (served_by demo_value demo_changes 1) = inr demo_published.
Proof. vm_compute. reflexivity. Qed.

Definition demo_applied : routerCluster (list string) :=
  (applySnapshot demo_published (map_to_list (ShardRouter.Shards demo_published)) demo_router).2.

Abbreviation demo_step :=
  (fstep (ConfigURL demo_cfg) (refresh demo_cfg) (served_by demo_value demo_changes) resolving (applying (C := list string))).

(** The control plane accepts a shard, the loop starts, asks, resolves, and the main thread
    publishes. *)
Definition demo_waiting : sys (Snap := shardSnapshot) (R := routerCluster (list string)) :=
  mkSys 1 (mkFetcher demo_router (Some (mkLoop LBegin false)) false [] None).
Definition demo_synced : sys (Snap := shardSnapshot) (R := routerCluster (list string)) :=
  mkSys 1 (mkFetcher demo_applied (Some (mkLoop LSelect false)) false [] (Some 1)).

Lemma demo_starts : rtc demo_step (mkSys 0 (new_fetcher demo_router)) demo_waiting.
Proof. eapply rtc_l; [apply f_change|]. apply rtc_once. exact (f_start _ _ _ _ _ 1 (new_fetcher demo_router) eq_refl). Qed.

Lemma demo_syncs : rtc demo_step demo_waiting demo_synced.
Proof.
  set (at_pc pc := mkFetcher demo_router (Some (mkLoop pc false)) false [] None : fetcher _ shardSnapshot).
  eapply rtc_l; [exact (f_begin _ (refresh demo_cfg) _ _ _ 1 (at_pc LBegin) false LFetch eq_refl eq_refl)|].
  eapply rtc_l; [exact (f_ask _ _ _ _ _ 1 (at_pc LFetch) false eq_refl)|].
  eapply rtc_l; [exact (f_got _ _ _ _ _ 1 (at_pc (LGot 1)) false 1 (map_resolve demo_resolve) eq_refl (map_resolving demo_resolve))|].
  unfold fetchOnce. rewrite decide_False by (intros Hn; by apply Hn). rewrite demo_resolved. apply rtc_once.
  apply (f_main _ _ _ _ _ 1 demo_router _ 1 demo_published [] None demo_applied true).
  exists (map_to_list (ShardRouter.Shards demo_published)). split_and!; [done | vm_compute; reflexivity | reflexivity].
Qed.

(** Every published shard has an address. *)
Lemma demo_addresses name route :
  ShardRouter.Shards (current demo_applied) !! name = Some route -> sr_Address route <> "".
Proof.
  intros Hn%elem_of_map_to_list.
  assert (Hall : Forall (fun nr : string * shardRoute => sr_Address nr.2 <> "")
                   (map_to_list (ShardRouter.Shards (current demo_applied)))).
  { apply (bool_decide_unpack _). vm_compute. exact I. }
  rewrite Forall_forall in Hall. exact (Hall _ Hn).
Qed.


Lemma demo_value_valid : valid_store demo_value.
Proof.
  destruct (NewConfigStore_spec demo_initial demo_heap demo_store demo_start) as (_ & Hv & _); [| |exact Hv].
  - intros l [Hl|Hl]; revert l Hl; apply refs_bound_spec; vm_compute; reflexivity.
  - vm_compute. reflexivity.
Qed.

Lemma demo_resolvable : resolvable demo_resolve (v_l1 (held demo_value demo_changes 1)).
Proof.
  intros name s Hs%elem_of_map_to_list.
  assert (Hn : Forall (fun ns : string * ShardVal => normalizeToken ns.1 = ns.1)
                 (map_to_list (lv_Shards (v_l1 (held demo_value demo_changes 1))))).
  { apply (bool_decide_unpack _). vm_compute. exact I. }
  rewrite Forall_forall in Hn. split; [exact (Hn _ Hs) | by eexists].
Qed.


(** ** Where the parts disagree *)

(** The control plane accepts a shard whose name is white space.  The router refuses the whole
    configuration for it, under every resolver and order, so that no later update of any shard
    reaches a request while the entry is there. *)
Lemma blank_shard_freezes_router `{U : GoUnicode} v changes k name s :
  lv_Shards (v_l1 (held v changes k)) !! name = Some s -> normalizeToken name = "" ->
  forall snap, ~ snapshot_of (served_by v changes) resolving k snap.
Proof.
  intros Hs Hb snap (f & (resolve & orders & Ho & Hf) & Hsnap). rewrite Hf in Hsnap.
  unfold resolveConfigSnapshot in Hsnap.
  destruct (blank_name_fails resolve (orders (served_by v changes k)) ∅ name (shard_entry s)) as [e He]; [|done|].
  - rewrite Ho. apply elem_of_map_to_list. unfold served_by. cbn. by rewrite lookup_fmap, Hs.
  - by rewrite He in Hsnap.
Qed.

Lemma blank_shard_is_accepted :
  let j := mkShardJSON " " "l2:80" None "" "" "v2" in
  shard_error j = None /\ is_Some (lv_Shards (v_l1 (held demo_value [CShard j] 1)) !! " ") /\ normalizeToken " " = "".
Proof. split_and!; [reflexivity | vm_compute; by eexists | vm_compute; reflexivity]. Qed.

(** All clusters of a process publish to one store.  A snapshot that one cluster applied sends
    the requests of another cluster to an address that the other one does not know. *)
Lemma shared_store_leaves_no_host :
  let other := NewCluster (C := list string) [] (store_of demo_applied) in
  is_Some (Decide (fun s => s) (current other) (map_to_list (ShardRouter.Shards (current other))) (fun _ => "")) /\
  ShardRouter.ChooseHost (fun s => s) other (map_to_list (ShardRouter.Shards (current other))) (fun _ => None) = 0%Z.
Proof. cbv zeta. split; [apply (bool_decide_unpack _); vm_compute; exact I | vm_compute; reflexivity]. Qed.

(** A refresh interval of more than 9223372036854 milliseconds wraps around, and the ticker
    panics in the goroutine. *)
Lemma long_refresh_panics cfg :
  RefreshMillis cfg = 9223372036855%Z -> fetchLoop_begin (refresh cfg) = Panic "non-positive interval for NewTicker".
Proof. intros Hr. unfold refresh. rewrite Hr. vm_compute. reflexivity. Qed.

(** Names that differ in case only are one shard: which target it has depends on the order in
    which the map is visited. *)
Lemma case_collision_depends_on_order :
  let a := ("a", mkShardConfig "one:80" [] "" "") in let b := ("A", mkShardConfig "two:80" [] "" "") in
  let cfg := mkConfigSnapshot "v" "a" {[ "a" := a.2; "A" := b.2 ]} in
  let target o := match resolveConfigSnapshot demo_resolve cfg o with
                  | inr snap => Target <$> ShardRouter.Shards snap !! "a"
                  | inl _ => None
                  end in
  target [a; b] = Some "two:80" /\ target [b; a] = Some "one:80".
Proof. cbv zeta. split; vm_compute; reflexivity. Qed.
