(* ===== verification/Metrics.v ===== *)
(** * Metrics: cluster registration, and metrics from a factory to Envoy
    (up/cluster.go, up/filter.go, up/access_logger.go, down/cluster.go, down/abi_impl)

    A cluster factory is registered by name and runs when Envoy loads a configuration; it may
    define metrics and record them.  A factory's code is a program over the interface it is
    given ([mprog]); the adapters turn its calls into calls of the handles of AbiHandles, and
    those into callbacks of the ABI, which are documented against a table of metrics. *)
From stdpp Require Import base list gmap strings.
From Stdlib Require Import ZArith Lia.
From S2P Require Import Prelude AbiHandles.

Open Scope Z_scope.

(** ** Factories and what they are given *)

(** The two messages: "up: %s %q failed (result=%d)" and "up: %s id=%d failed (result=%d)". *)
Inductive metric_error :=
  | DefineFailed (op name : string) (result : Z)
  | UpdateFailed (op : string) (id result : Z).

(** What a factory does with the metrics it is given, until it returns. *)
Inductive mprog (A : Type) :=
  | MDone (a : A)
  | MDefine (kind : metric_kind) (name : string) (tagKeys : list string) (k : metric_error + Z -> mprog A)
  | MRecord (upd : metric_update) (id value : Z) (labels : list string) (k : option metric_error -> mprog A).
Arguments MDone {A} a.
Arguments MDefine {A} kind name tagKeys k.
Arguments MRecord {A} upd id value labels k.

(** A factory of clusters; [CreateWithMetrics] when it has the method.  A result is an error
    message or a configuration factory. *)
Record ClusterFactory (CF : Type) := mkFactory {
  f_Create : bytes -> string + CF;
  f_CreateWithMetrics : option (bytes -> mprog (string + CF));
}.
Arguments mkFactory {CF} f_Create f_CreateWithMetrics.
Arguments f_Create {CF}.
Arguments f_CreateWithMetrics {CF}.

(** What [down] holds: the user's factory, or the adapter around one with metrics, whose
    [CreateWithMetrics] wraps the handle it is given. *)
Inductive down_factory (CF : Type) :=
  | Plain (f : ClusterFactory CF)
  | WithMetricsAdapter (f : ClusterFactory CF) (create : bytes -> mprog (string + CF)).
Arguments Plain {CF} f.
Arguments WithMetricsAdapter {CF} f create.

(** ** Adapters *)

Section adapters.
(** [shared.MetricsSuccess]. *)
Context (MetricsSuccess : Z).

(** [id, res := ...; if res != shared.MetricsSuccess { return 0, err }; return MetricID(id), nil]. *)
Definition defined {M} (op name : string) (r : Z * Z * M) : (metric_error + Z) * M :=
  let '(id, res, m) := r in
  (if decide (res = MetricsSuccess) then inr id else inl (DefineFailed op name res), m).

Definition recorded {M} (op : string) (id : Z) (r : Z * M) : option metric_error * M :=
  let '(res, m) := r in
  (if decide (res = MetricsSuccess) then None else Some (UpdateFailed op id res), m).

Section cluster.
Context {M : Type} `{MetricsAbi M}.

(** [clusterMetricsAdapter]. *)
Definition cluster_DefineCounter (name : string) (tagKeys : list string) (m : M) :=
  defined "DefineCounter" name (DefineCounter name tagKeys m).
Definition cluster_DefineGauge (name : string) (tagKeys : list string) (m : M) :=
  defined "DefineGauge" name (DefineGauge name tagKeys m).
Definition cluster_DefineHistogram (name : string) (tagKeys : list string) (m : M) :=
  defined "DefineHistogram" name (DefineHistogram name tagKeys m).
Definition cluster_IncrementCounter (id delta : Z) (labels : list string) (m : M) :=
  recorded "IncrementCounter" id (IncrementCounterValue id delta labels m).
Definition cluster_SetGauge (id value : Z) (labels : list string) (m : M) :=
  recorded "SetGauge" id (SetGaugeValue id value labels m).
Definition cluster_IncrementGauge (id delta : Z) (labels : list string) (m : M) :=
  recorded "IncrementGauge" id (IncrementGaugeValue id delta labels m).
Definition cluster_DecrementGauge (id delta : Z) (labels : list string) (m : M) :=
  recorded "DecrementGauge" id (DecrementGaugeValue id delta labels m).
Definition cluster_RecordHistogram (id value : Z) (labels : list string) (m : M) :=
  recorded "RecordHistogram" id (RecordHistogramValue id value labels m).
End cluster.

(** [configHandleImpl]: the HTTP filter's configuration handle, over the SDK's. *)
Section filter.
Context {M : Type} (sdk_define : metric_kind -> string -> list string -> M -> Z * Z * M).

Definition config_DefineCounter (name : string) (tagKeys : list string) (m : M) :=
  defined "DefineCounter" name (sdk_define MCounter name tagKeys m).
Definition config_DefineGauge (name : string) (tagKeys : list string) (m : M) :=
  defined "DefineGauge" name (sdk_define MGauge name tagKeys m).
Definition config_DefineHistogram (name : string) (tagKeys : list string) (m : M) :=
  defined "DefineHistogram" name (sdk_define MHistogram name tagKeys m).
End filter.

(** [dymAccessLoggerConfigHandle] takes tag keys and does not pass them; its callback has no
    place for them.  [accessLoggerConfigHandleAdapter] is on top of it. *)
Section access_logger.
Context {M : Type} (c_access_logger_define : metric_kind -> string -> M -> Z * Z * M).

Definition dym_logger_DefineCounter (name : string) (tagKeys : list string) (m : M) := c_access_logger_define MCounter name m.
Definition dym_logger_DefineGauge (name : string) (tagKeys : list string) (m : M) := c_access_logger_define MGauge name m.
Definition dym_logger_DefineHistogram (name : string) (tagKeys : list string) (m : M) := c_access_logger_define MHistogram name m.

Definition logger_DefineCounter (name : string) (tagKeys : list string) (m : M) :=
  defined "DefineCounter" name (dym_logger_DefineCounter name tagKeys m).
Definition logger_DefineGauge (name : string) (tagKeys : list string) (m : M) :=
  defined "DefineGauge" name (dym_logger_DefineGauge name tagKeys m).
Definition logger_DefineHistogram (name : string) (tagKeys : list string) (m : M) :=
  defined "DefineHistogram" name (dym_logger_DefineHistogram name tagKeys m).

(** An access logger that defines a labelled counter gets the unlabelled one, and no error
    beyond the unlabelled one's. *)
Lemma access_logger_drops_tag_keys name tagKeys m :
  logger_DefineCounter name tagKeys m = logger_DefineCounter name [] m.
Proof. reflexivity. Qed.
End access_logger.

Section run.
Context {M : Type} `{MetricsAbi M}.

(** The calls a program makes on [clusterMetricsAdapter]. *)
Definition adapter_define (kind : metric_kind) : string -> list string -> M -> (metric_error + Z) * M :=
  match kind with
  | MCounter => cluster_DefineCounter
  | MGauge => cluster_DefineGauge
  | MHistogram => cluster_DefineHistogram
  end.

Definition adapter_record (upd : metric_update) : Z -> Z -> list string -> M -> option metric_error * M :=
  match upd with
  | IncrementCounter => cluster_IncrementCounter
  | SetGauge => cluster_SetGauge
  | IncrementGauge => cluster_IncrementGauge
  | DecrementGauge => cluster_DecrementGauge
  | RecordHistogram => cluster_RecordHistogram
  end.

Fixpoint run_metrics {A} (p : mprog A) (m : M) : A * M :=
  match p with
  | MDone a => (a, m)
  | MDefine kind name tagKeys k => let '(r, m) := adapter_define kind name tagKeys m in run_metrics (k r) m
  | MRecord upd id value labels k => let '(r, m) := adapter_record upd id value labels m in run_metrics (k r) m
  end.

(** ** The registry *)

Context {CF : Type}.

Definition down_RegisterCluster (name : string) (f : down_factory CF) (r : gmap string (down_factory CF)) :
    res (gmap string (down_factory CF)) :=
  match r !! name with
  | Some _ => Panic ("down: cluster already registered: " +:+ name)
  | None => Ok (<[name := f]> r)
  end.

Definition RegisterCluster (name : string) (f : ClusterFactory CF) (r : gmap string (down_factory CF)) :
    res (gmap string (down_factory CF)) :=
  match f_CreateWithMetrics f with
  | Some create => down_RegisterCluster name (WithMetricsAdapter f create) r
  | None => down_RegisterCluster name (Plain f) r
  end.

Definition GetClusterFactory (name : string) (r : gmap string (down_factory CF)) : option (down_factory CF) := r !! name.

(** [on_cluster_config_new] up to the wrapper: nothing registered or an error gives nil. *)
Definition config_new (name : string) (config : bytes) (r : gmap string (down_factory CF)) (m : M) : option CF * M :=
  match GetClusterFactory name r with
  | None => (None, m)
  | Some (WithMetricsAdapter _ create) =>
      let '(res, m) := run_metrics (create config) m in
      (match res with inl _ => None | inr cf => Some cf end, m)
  | Some (Plain f) => (match f_Create f config with inl _ => None | inr cf => Some cf end, m)
  end.
End run.
End adapters.

(** ** Envoy's metrics *)

(** A metric: values by labels for counters and gauges, samples for histograms. *)
Record metric := mkMetric {
  mt_kind : metric_kind;
  mt_name : string;
  mt_tags : list string;
  mt_values : gmap (list string) Z;
  mt_samples : list (list string * Z);
}.

Definition new_metric (kind : metric_kind) (name : string) (tags : list string) : metric := mkMetric kind name tags ∅ [].

Definition set_value (labels : list string) (v : Z) (mt : metric) : metric :=
  mkMetric (mt_kind mt) (mt_name mt) (mt_tags mt) (<[labels := uint64_of v]> (mt_values mt)) (mt_samples mt).

Definition value_of (labels : list string) (mt : metric) : Z := default 0 (mt_values mt !! labels).

(** An update of a metric of its kind, with a value for each of its tags. *)
Definition update_metric (upd : metric_update) (labels : list string) (v : Z) (mt : metric) : option metric :=
  if decide (length labels = length (mt_tags mt)) then
    match upd, mt_kind mt with
    | IncrementCounter, MCounter | IncrementGauge, MGauge => Some (set_value labels (value_of labels mt + v) mt)
    | SetGauge, MGauge => Some (set_value labels v mt)
    | DecrementGauge, MGauge => Some (set_value labels (value_of labels mt - v) mt)
    | RecordHistogram, MHistogram =>
        Some (mkMetric (mt_kind mt) (mt_name mt) (mt_tags mt) (mt_values mt) (mt_samples mt ++ [(labels, v)]))
    | _, _ => None
    end
  else None.

Definition update_table (upd : metric_update) (id : Z) (labels : list string) (v : Z) (t : list metric) : option (list metric) :=
  mt ← at_index t id; mt ← update_metric upd labels v mt; Some (<[Z.to_nat id := mt]> t).

(** The ABI as abi.h documents it: [MetricsSuccess] and the next identifier with the metric
    defined, or another result and nothing done; an update of a metric that exists, of the
    right kind and with as many labels as it has tags, succeeds, and any other is refused. *)
Class DocumentedMetrics (success : Z) (M : Type) `{MetricsAbi M} := {
  rep : M -> list metric -> Prop;
  doc_define kind name tags m t : rep m t ->
    exists id res m', m_define kind name tags m = (id, res, m') /\
      ((res = success /\ id = Z.of_nat (length t) /\ rep m' (t ++ [new_metric kind name tags])) \/
       (res <> success /\ rep m' t));
  doc_update upd id labels v m t : rep m t ->
    exists res m', m_update upd id labels v m = (res, m') /\
      match update_table upd id labels v t with
      | Some t' => res = success /\ rep m' t'
      | None => res <> success /\ rep m' t
      end;
}.

Definition define_op (kind : metric_kind) : string :=
  match kind with MCounter => "DefineCounter" | MGauge => "DefineGauge" | MHistogram => "DefineHistogram" end.

Definition record_op (upd : metric_update) : string :=
  match upd with
  | IncrementCounter => "IncrementCounter" | SetGauge => "SetGauge" | IncrementGauge => "IncrementGauge"
  | DecrementGauge => "DecrementGauge" | RecordHistogram => "RecordHistogram"
  end.

(** What a program does to the table: [defines success] steps, which Envoy may refuse, and
    updates, whose outcome the table decides. *)
Inductive on_table {A} (success : Z) : mprog A -> list metric -> A -> list metric -> Prop :=
  | T_done a t : on_table success (MDone a) t a t
  | T_define kind name tags k t a t' :
      on_table success (k (inr (Z.of_nat (length t)))) (t ++ [new_metric kind name tags]) a t' ->
      on_table success (MDefine kind name tags k) t a t'
  | T_refused kind name tags k t res a t' :
      res <> success -> on_table success (k (inl (DefineFailed (define_op kind) name res))) t a t' ->
      on_table success (MDefine kind name tags k) t a t'
  | T_record upd id v labels k t t1 a t' :
      update_table upd id labels v t = Some t1 -> on_table success (k None) t1 a t' ->
      on_table success (MRecord upd id v labels k) t a t'
  | T_rejected upd id v labels k t res a t' :
      update_table upd id labels v t = None -> res <> success ->
      on_table success (k (Some (UpdateFailed (record_op upd) id res))) t a t' ->
      on_table success (MRecord upd id v labels k) t a t'.

Section refinement.
Context (success : Z) {M : Type} `{DocumentedMetrics success M}.

Lemma adapter_define_abi kind name tags (m : M) :
  adapter_define success kind name tags m = defined success (define_op kind) name (m_define kind name tags m).
Proof. by destruct kind. Qed.

Lemma adapter_record_abi upd id v labels (m : M) :
  adapter_record success upd id v labels m = recorded success (record_op upd) id (m_update upd id labels v m).
Proof. by destruct upd. Qed.

Lemma run_metrics_on_table {A} (p : mprog A) : forall m t,
  rep m t -> exists t', rep (run_metrics success p m).2 t' /\ on_table success p t (run_metrics success p m).1 t'.
Proof.
  induction p as [a|kind name tags k IH|upd id v labels k IH]; intros m t Hr; cbn [run_metrics].
  - exists t. split; [done | constructor].
  - rewrite adapter_define_abi. destruct (doc_define kind name tags m t Hr) as (id & res & m1 & -> & Hd). cbn [defined].
    destruct Hd as [(-> & -> & Hr1)|[Hne Hr1]].
    + rewrite decide_True by done. destruct (IH (inr (Z.of_nat (length t))) m1 _ Hr1) as (t' & Ht & Hon).
      exists t'. split; [done | by apply T_define].
    + rewrite decide_False by done. destruct (IH (inl (DefineFailed (define_op kind) name res)) m1 _ Hr1) as (t' & Ht & Hon).
      exists t'. split; [done | by eapply T_refused].
  - rewrite adapter_record_abi. destruct (doc_update upd id labels v m t Hr) as (res & m1 & -> & Hd). cbn [recorded].
    destruct (update_table upd id labels v t) as [t1|] eqn:Hu.
    + destruct Hd as [-> Hr1]. rewrite decide_True by done. destruct (IH None m1 _ Hr1) as (t' & Ht & Hon).
      exists t'. split; [done | by eapply T_record].
    + destruct Hd as [Hne Hr1]. rewrite decide_False by done.
      destruct (IH (Some (UpdateFailed (record_op upd) id res)) m1 _ Hr1) as (t' & Ht & Hon).
      exists t'. split; [done | by eapply T_rejected].
Qed.

Context {CF : Type}.

(** What [down] holds for a factory. *)
Definition adapted (f : ClusterFactory CF) : down_factory CF :=
  from_option (WithMetricsAdapter f) (Plain f) (f_CreateWithMetrics f).

Lemma RegisterCluster_adds name f r r' :
  RegisterCluster name f r = Ok r' -> r !! name = None /\ r' = <[name := adapted f]> r.
Proof.
  unfold RegisterCluster, down_RegisterCluster, adapted.
  destruct (f_CreateWithMetrics f); destruct (r !! name); by intros [= <-].
Qed.

Lemma registered_stays name f r r' (more : list (string * ClusterFactory CF)) r'' :
  RegisterCluster name f r = Ok r' ->
  foldr (fun '(n, g) acc => acc ≫= RegisterCluster n g) (Ok r') more = Ok r'' -> r'' !! name = Some (adapted f).
Proof.
  intros [_ ->]%RegisterCluster_adds. revert r''. induction more as [|[n g] more IH]; intros r''; cbn.
  - intros [= <-]. by rewrite lookup_insert_eq.
  - destruct (foldr _ _ more) as [r1|]; [|done]. cbn. intros [Hn ->]%RegisterCluster_adds.
    specialize (IH _ eq_refl). rewrite lookup_insert_ne; [done|]. intros ->. congruence.
Qed.

(** A registered cluster factory is the one Envoy's configuration runs, with the metrics
    it asked for.  After [RegisterCluster] accepted a name, loading a configuration of that
    name runs exactly that factory, whatever was registered before or after under other
    names; if it has [CreateWithMetrics] every metric it defines is Envoy's metric of that
    kind, name and tags under the identifier it gets, every value it records is recorded there
    under the labels given, and it is told of an error exactly when Envoy refused the call. *)
Theorem registered_factory_runs name (f : ClusterFactory CF) r r' more r'' config m t :
  RegisterCluster name f r = Ok r' ->
  foldr (fun '(n, g) acc => acc ≫= RegisterCluster n g) (Ok r') (more : list (string * ClusterFactory CF)) = Ok r'' ->
  rep m t ->
  match f_CreateWithMetrics f with
  | Some create => exists a t', on_table success (create config) t a t' /\
      (config_new success name config r'' m).1 = match a with inl _ => None | inr cf => Some cf end /\
      rep (config_new success name config r'' m).2 t'
  | None => config_new success name config r'' m = (match f_Create f config with inl _ => None | inr cf => Some cf end, m)
  end.
Proof.
  intros Hreg Hmore Hr. pose proof (registered_stays name f r r' more r'' Hreg Hmore) as Hl.
  unfold config_new, GetClusterFactory. rewrite Hl. unfold adapted. destruct (f_CreateWithMetrics f) as [create|]; [|done]. cbn [from_option].
  destruct (run_metrics_on_table (create config) m t Hr) as (t' & Ht & Hon).
  destruct (run_metrics success (create config) m) as [a m']. exists a, t'. by split_and!.
Qed.
End refinement.

(** ** Witness *)

(** An Envoy that is the table, and refuses a second metric of a name. *)
#[export] Instance table_abi : MetricsAbi (list metric) := {
  m_define kind name tags t :=
    if decide (name ∈ mt_name <$> t) then (0, 1, t) else (Z.of_nat (length t), 0, t ++ [new_metric kind name tags]);
  m_update upd id labels v t :=
    match update_table upd id labels v t with Some t' => (0, t') | None => (1, t) end;
}.

#[export] Instance table_documented : DocumentedMetrics 0 (list metric).
Proof.
  refine {| rep := eq |}.
  - intros kind name tags m t ->. cbn. case_decide; eexists _, _, _; (split; [done|]); [by right | by left].
  - intros upd id labels v m t ->. cbn. destruct (update_table _ _ _ _ _); by eexists _, _.
Defined.

(** A factory that counts its configurations by name. *)
Definition counting_factory : ClusterFactory Z :=
  mkFactory (fun _ => inl "no metrics") (Some (fun _ =>
    MDefine MCounter "configs" ["cluster"] (fun r =>
      match r with
      | inl _ => MDone (inl "define")
      | inr id => MRecord IncrementCounter id 1 ["demo"] (fun _ => MDone (inr id))
      end))).

Lemma registered_factory_runs_witness :
  exists r, RegisterCluster "demo" counting_factory ∅ = Ok r /\
    exists (a : string + Z) t', on_table 0 (default (fun _ => MDone (inl "")) (f_CreateWithMetrics counting_factory) []) [] a t' /\
      (config_new 0 "demo" [] r []).1 = match a with inl _ => None | inr cf => Some cf end /\ rep (config_new 0 "demo" [] r []).2 t'.
Proof.
  exists (<["demo" := adapted counting_factory]> ∅). split; [reflexivity|].
  apply (registered_factory_runs 0 "demo" counting_factory ∅ (<["demo" := adapted counting_factory]> ∅) []
           (<["demo" := adapted counting_factory]> ∅) [] [] []); reflexivity.
Defined.

(** The counter is Envoy's, and counted once. *)
Example counted_once :
  (config_new 0 "demo" [] (<["demo" := adapted counting_factory]> ∅) []).2 =
  [mkMetric MCounter "configs" ["cluster"] {[ ["demo"] := 1 ]} []].
Proof. vm_compute. reflexivity. Qed.
