(* ===== verification/McpBackend.v ===== *)
(** * McpBackend: the demo MCP server, and the router's Envoy filter
    (examples/mcp-profile-router/{backend,filter}.go)

    [Backend] is the server the profile router's demo and tests talk to.  Put behind the
    router of McpRouter, as what its HTTP client reaches, it gives the end-to-end property of a
    tool call. *)
From stdpp Require Import base list strings gmap sets sorting pretty.
From Stdlib Require Import ZArith Lia Ascii.
From S2P Require Import Prelude GoStrings McpGateway McpCatalog McpSession McpRouter McpRouterProps.

(** ** State *)

(** [Backend]: what it is made with, and what its mutex protects.  [sessions] are the keys of
    the map, whose values are all true. *)
Record Backend := mkBackend {
  b_ID : string;
  b_Tools : list string;
  ExpectedAuth : string;
  sessions : gset string;
  listCalls : Z;
  callCalls : gmap string Z;
  lastAuth : string;
}.

Definition NewBackend (id : string) (tools : list string) (expectedAuth : string) : Backend :=
  mkBackend id (sort_Strings tools) expectedAuth ∅ 0 ∅ "".

Record BackendDump := mkBackendDump {
  bd_ID : string;
  bd_ListCalls : Z;
  bd_CallCalls : gmap string Z;
  bd_AuthConfigured : bool;
  bd_LastAuthOK : bool;
}.

Definition auth_ok (b : Backend) (auth : string) : bool := bool_decide (ExpectedAuth b = "" \/ auth = ExpectedAuth b).

Definition Dump (b : Backend) : BackendDump :=
  mkBackendDump (b_ID b) (listCalls b) (callCalls b) (bool_decide (ExpectedAuth b <> "")) (auth_ok b (lastAuth b)).

(** ** Operations *)

(** [createSession], with the package's counter. *)
Definition createSession (counter : Z) (b : Backend) : string * Z * Backend :=
  let '(sessionID, counter) := newSessionID (b_ID b) counter in
  (sessionID, counter,
   mkBackend (b_ID b) (b_Tools b) (ExpectedAuth b) ({[sessionID]} ∪ sessions b) (listCalls b) (callCalls b) (lastAuth b)).

Definition validSession (header : string -> string) (b : Backend) : bool :=
  let sessionID := header SessionIDHeader in
  if decide (sessionID = "") then false else bool_decide (sessionID ∈ sessions b).

Definition recordList (auth : string) (b : Backend) : Backend :=
  mkBackend (b_ID b) (b_Tools b) (ExpectedAuth b) (sessions b) (listCalls b + 1) (callCalls b) auth.

Definition recordCall (tool auth : string) (b : Backend) : Backend :=
  mkBackend (b_ID b) (b_Tools b) (ExpectedAuth b) (sessions b) (listCalls b)
    (<[tool := (default 0 (callCalls b !! tool) + 1)%Z]> (callCalls b)) auth.

Section backend.
Context `{Json}.
(** JSON texts: the schema of every tool, the capabilities of the server, and the structured
    content of a call, from server, tool, verdict and arguments. *)
Context (any_object : json) (no_capabilities : json) (structured : string -> string -> bool -> json -> json).

Definition toolList (b : Backend) : list Tool :=
  (fun name => mkTool name ("Tool " +:+ name +:+ " from " +:+ b_ID b) any_object) <$> b_Tools b.

Definition initialize_result (b : Backend) : InitializeResult :=
  mkInit ProtocolVersion [("tools", no_capabilities)] (mkImplementation ("mcp-profile-router-" +:+ b_ID b) "dev").

Definition call_result (b : Backend) (params : CallToolParams) (auth : string) : CallToolResult :=
  mkCallResult [("text", b_ID b +:+ "." +:+ c_name params)]
    (structured (b_ID b) (c_name params) (auth_ok b auth) (c_arguments params)) false.

(** [handleMCP]: [body] is the decoded request, [None] when decoding fails. *)
Definition handleMCP (header : string -> string) (body : option JSONRPCRequest) (counter : Z) (b : Backend) :
    client_response * Z * Backend :=
  match body with
  | None => (writeJSON 400 [] (errorResponse [] (-32700) "invalid JSON-RPC request"), counter, b)
  | Some req =>
      let no_session := writeJSON 400 [] (errorResponse (rq_id req) (-32010) "missing or invalid MCP session ID") in
      if decide (rq_method req = MethodInitialize) then
        let '(sessionID, counter, b) := createSession counter b in
        (writeJSON 200 [(SessionIDHeader, sessionID); (ProtocolVersionHeader, ProtocolVersion)]
           (response (rq_id req) (ResInit (initialize_result b))), counter, b)
      else if decide (rq_method req = MethodToolsList) then
        if negb (validSession header b) then (no_session, counter, b)
        else (writeJSON 200 [] (response (rq_id req) (ResTools (toolList b))), counter, recordList (header "authorization") b)
      else if decide (rq_method req = MethodToolsCall) then
        if negb (validSession header b) then (no_session, counter, b)
        else
          match decode_call_params (rq_params req) with
          | None => (writeJSON 200 [] (errorResponse (rq_id req) (-32602) "invalid tools/call params"), counter, b)
          | Some params =>
              if decide (c_name params = "")
              then (writeJSON 200 [] (errorResponse (rq_id req) (-32602) "invalid tools/call params"), counter, b)
              else (writeJSON 200 [] (response (rq_id req) (ResCall (call_result b params (header "authorization")))),
                    counter, recordCall (c_name params) (header "authorization") b)
          end
      else (writeJSON 200 [] (errorResponse (rq_id req) (-32601) ("unsupported method: " +:+ rq_method req)), counter, b)
  end.

(** ** Sessions *)

(** One client request after another. *)
Fixpoint serve_all (reqs : list ((string -> string) * option JSONRPCRequest)) (counter : Z) (b : Backend) :
    list client_response * Z * Backend :=
  match reqs with
  | [] => ([], counter, b)
  | (header, body) :: reqs =>
      let '(resp, counter, b) := handleMCP header body counter b in
      let '(resps, counter, b) := serve_all reqs counter b in
      (resp :: resps, counter, b)
  end.

(** The session identifier a response hands out. *)
Definition session_of (r : client_response) : option string :=
  snd <$> head (filter (fun kv => kv.1 = SessionIDHeader) (cs_headers r)).

Lemma handleMCP_sessions header body counter b :
  let '(resp, _, b') := handleMCP header body counter b in
  sessions b' = from_option (fun sid => {[sid]}) ∅ (session_of resp) ∪ sessions b /\
  b_ID b' = b_ID b /\ b_Tools b' = b_Tools b /\ ExpectedAuth b' = ExpectedAuth b.
Proof.
  unfold handleMCP. destruct body as [req|]; [|cbn; split_and!; [set_solver | done..]].
  case_decide; [cbn; split_and!; [set_solver | done..]|].
  case_decide; [destruct (negb _); cbn; split_and!; first [set_solver | done]|].
  case_decide; [|cbn; split_and!; [set_solver | done..]].
  destruct (negb _); [cbn; split_and!; [set_solver | done..]|].
  destruct (decode_call_params _); [case_decide|]; cbn; split_and!; first [set_solver | done].
Qed.

(** The identifiers a backend accepts are those it handed out, and it accepts each for ever. *)
Lemma sessions_are_those_issued reqs : forall counter b,
  let '(resps, _, b') := serve_all reqs counter b in
  sessions b' = list_to_set (omap session_of resps) ∪ sessions b.
Proof.
  induction reqs as [|[header body] reqs IH]; intros counter b; cbn -[handleMCP]; [set_solver|].
  pose proof (handleMCP_sessions header body counter b) as Hh. destruct (handleMCP _ _ _ _) as [[resp c1] b1].
  specialize (IH c1 b1). destruct (serve_all reqs c1 b1) as [[resps c2] b2]. destruct Hh as [Hh _].
  rewrite IH, Hh. cbn. destruct (session_of resp); cbn; set_solver.
Qed.

(** ** Behind the router *)

Context (encode_result : result -> json).

(** [r.Header.Get(k)] of a request the router sent. *)
Definition sent_header (q : backend_request) (k : string) : string :=
  default "" (br_headers q !! CanonicalMIMEHeaderKey k).

(** What the router's client decodes of a response. *)
Definition answer_of (r : client_response) : http_response :=
  mkHttpResponse (cs_status r) (default "" (session_of r))
    (inr (rs_error (cs_body r), from_option encode_result [] (rs_result (cs_body r)))).

(** The backends that listen, by the URL of their endpoint, in the state they are in. *)
Definition backend_net (listening : gmap string Backend) (counter : Z) (q : backend_request) : string + http_response :=
  match listening !! br_url q with
  | None => inl "connection refused"
  | Some b => inr (answer_of (handleMCP (sent_header q) (Some (br_body q)) counter b).1.1)
  end.

(** Two states of a backend that answer list and call requests alike. *)
Definition same_service (b b' : Backend) : Prop :=
  b_ID b' = b_ID b /\ b_Tools b' = b_Tools b /\ ExpectedAuth b' = ExpectedAuth b /\ sessions b' = sessions b.

(** Serving list and call requests does not change the answers to later ones, so one state
    answers a whole run of the router's handler. *)
Lemma answers_are_stable header body counter b header' body' counter' :
  let '(_, _, b') := handleMCP header' body' counter' b in
  (forall req, body = Some req -> rq_method req <> MethodInitialize) ->
  (forall req, body' = Some req -> rq_method req <> MethodInitialize) ->
  same_service b b' /\ (handleMCP header body counter b').1.1 = (handleMCP header body counter b).1.1.
Proof.
  assert (Hsame : forall b', same_service b b' -> (forall req, body = Some req -> rq_method req <> MethodInitialize) ->
    (handleMCP header body counter b').1.1 = (handleMCP header body counter b).1.1).
  { intros b' (H1 & H2 & H3 & H4) Hm. unfold handleMCP. destruct body as [req|]; [|done].
    rewrite !(decide_False (P := rq_method req = MethodInitialize)) by auto.
    unfold validSession, toolList, call_result, auth_ok. rewrite H1, H2, H3, H4.
    repeat (case_decide || case_match); done. }
  destruct (handleMCP header' body' counter' b) as [[resp c1] b'] eqn:Hh. intros Hm Hm'.
  enough (same_service b b') by auto. unfold handleMCP in Hh. destruct body' as [req|]; [|by simplify_eq].
  rewrite (decide_False (P := rq_method req = MethodInitialize)) in Hh by auto.
  repeat (case_decide || case_match); by simplify_eq.
Qed.

Lemma session_header_sent a id server sid :
  sid <> "" -> backend_headers a id server sid !! "Mcp-Session-Id" = Some sid.
Proof.
  intros Hsid. unfold backend_headers, header_set. rewrite (decide_True (P := sid <> "")) by done.
  change (CanonicalMIMEHeaderKey SessionIDHeader) with "Mcp-Session-Id".
  change (CanonicalMIMEHeaderKey ProtocolVersionHeader) with "Mcp-Protocol-Version".
  by rewrite lookup_insert_ne, lookup_insert_eq.
Qed.

(** A tool call that a client sends the router under the name the tool is listed with, in a
    session whose part for the server is one the server handed out, is answered by that server
    for that tool and those arguments, authorised by the credential of that server only. *)
Theorem routed_call_reaches_its_backend url_error listening counter p i raw session s id server b sid tool args :
  configErr (NewAggregator p) = None -> Servers p !! id = Some server ->
  "."%char ∉ to_chars (serverPrefix id server) -> serverToolEnabled server tool = true -> tool <> "" ->
  CanonicalMIMEHeaderKey (routeHeader (NewAggregator p)) <> "Authorization" ->
  let res := mkCallResult [("text", b_ID b +:+ "." +:+ tool)]
    (structured (b_ID b) tool (bool_decide (ExpectedAuth b = "" \/ Credential server = ExpectedAuth b)) args) false in
  decode_call (encode_result (ResCall res)) = inr res ->
  decode_call_params (encode_call_params (mkCall tool args)) = Some (mkCall tool args) ->
  decode_call_params raw = Some (mkCall (serverPrefix id server +:+ "." +:+ tool) args) ->
  (forall q, marshal_error q = None) -> (forall u, url_error u = None) ->
  listening !! (TrimRight (URL server) "/" +:+ "/mcp") = Some b ->
  Backends session !! id = Some sid -> sid <> "" -> sid ∈ sessions b ->
  (callTool (backend_net listening counter) url_error (NewAggregator p) i raw session s).1 = inr res.
Proof.
  intros Hcfg Hs Hdot Hen Hne Hroute res Hdec Hpar Hraw Hm Hu Hl Hb Hsid Hin.
  rewrite (callTool_namespaced _ _ p i raw session s id server tool args) by done.
  rewrite Hb. cbn [default from_option]. unfold callServer. rewrite Hm, Hu. unfold backend_net. cbn [br_url]. rewrite Hl.
  set (q := mkBackendRequest _ _ _). set (auth := sent_header q "authorization").
  assert (Hauth : auth = Credential server).
  { unfold auth, sent_header, q. cbn [br_headers].
    change (CanonicalMIMEHeaderKey "authorization") with "Authorization".
    rewrite backend_authorization by done. by case_decide. }
  assert (Hv : validSession (sent_header q) b = true).
  { unfold validSession, sent_header, q. cbn [br_headers].
    change (CanonicalMIMEHeaderKey SessionIDHeader) with "Mcp-Session-Id". rewrite session_header_sent by done. cbn.
    rewrite decide_False by done. by apply bool_decide_eq_true. }
  assert (Hans : (handleMCP (sent_header q) (Some (br_body q)) counter b).1.1 =
    writeJSON 200 [] (response (cloneRaw i) (ResCall (call_result b (mkCall tool args) auth)))).
  { unfold handleMCP. cbn [br_body q rq_method rq_params rq_id]. rewrite Hv, Hpar. cbn [negb c_name].
    rewrite (decide_False (P := tool = "")) by done. reflexivity. }
  assert (Hres : call_result b (mkCall tool args) auth = res) by (unfold call_result, auth_ok; by rewrite Hauth).
  rewrite Hans, Hres. cbn -[res]. by rewrite Hdec.
Qed.
End backend.

(** ** The Envoy filter (filter.go) *)

(** [LoadProfileFromEnv]: the three errors, or the profile. *)
Inductive load_error :=
  | ProfileEnvRequired
  | ProfileParse (msg : string)
  | ProfileInvalid (e : profile_error).

Definition LoadProfileFromEnv (unmarshal : string -> string + Profile_t) (raw : string) : load_error + Profile_t :=
  if decide (TrimSpace raw = "") then inl ProfileEnvRequired
  else
    match unmarshal raw with
    | inl msg => inl (ProfileParse msg)
    | inr p => match ValidateProfile p with Some e => inl (ProfileInvalid e) | None => inr p end
    end.

(** The request handler: what it keeps for the body handler, if anything. *)
Definition router_handler (method path : string) (headers : list (string * string)) : option transitRequest :=
  let p := stripQuery path in
  if decide (p = "/healthz" \/ p = "/dump") then Some (mkTransit method path headers)
  else if HasPrefix p "/mcp/" then Some (mkTransit method path headers)
  else None.

(** The body handler: [serve] is the mux of [Aggregator.Handler], on whatever state the
    aggregator has; the answer is a status, headers and a body. *)
Definition router_body {S} (line_ok : string -> string -> bool) (header_order : header -> list (string * list string))
    (serve : string -> string -> header -> bytes -> S -> reply * S)
    (ctx : option transitRequest) (data : bytes) (endStream : bool) (s : S) :
    res (option (Z * bytes * list (string * string)) * S) :=
  match ctx with
  | None => Ok (None, s)
  | Some req =>
      if negb endStream || bool_decide (tr_path req = "") then Ok (None, s)
      else if negb (line_ok (tr_method req) (tr_path req)) then Panic "invalid NewRequest arguments"
      else
        let '(rp, s) := serve (tr_method req) (tr_path req) (request_header (tr_headers req)) data s in
        Ok (Some (rp_status rp, rp_body rp, header_order (rp_header rp) ≫= fun '(k, vs) => pair k <$> vs), s)
  end.

(** Egress requests, those of no path of the router, are not touched. *)
Lemma egress_passes {S} line_ok header_order serve method path headers data e (s : S) :
  stripQuery path <> "/healthz" -> stripQuery path <> "/dump" -> HasPrefix (stripQuery path) "/mcp/" = false ->
  router_body line_ok header_order serve (router_handler method path headers) data e s = Ok (None, s).
Proof. intros H1 H2 H3. unfold router_handler. rewrite H3, decide_False; [done | by intros [?|?]]. Qed.

(** A path of the router with a malformed escape panics in the body handler. *)
Lemma router_bad_path_panics {S} header_order serve (s : S) :
  let line_ok := fun _ path => negb (Contains path "%zz") in
  router_body line_ok header_order serve (router_handler "POST" "/mcp/%zz" []) [] true s = Panic "invalid NewRequest arguments".
Proof. reflexivity. Qed.

(** ** A router and a backend that listens *)

Definition toy_encode (r : result) : json :=
  match r with ResCall c => to_bytes (from_option snd "" (head (cr_content c))) | _ => [] end.
Definition toy_backend : Backend :=
  (createSession 0 (NewBackend "srv" ["search"] "cred-a")).2.
Definition toy_listening : gmap string Backend := {[ "http://a/mcp" := toy_backend ]}.
Definition toy_session : compositeSession := mkSession "mcp-profile-router" "dev" "" {[ "a" := "srv-1" ]}.

Lemma routed_call_reaches_its_backend_witness :
  (@callTool toy_json (@backend_net toy_json [] [] (fun _ _ _ _ => []) toy_encode toy_listening 1) toy_url_error
     (NewAggregator toy_profile) [] (to_bytes "a.search") toy_session empty_state).1 =
  inr (mkCallResult [("text", "srv.search")] [] false).
Proof.
  apply (@routed_call_reaches_its_backend toy_json [] [] (fun _ _ _ _ => []) toy_encode toy_url_error toy_listening 1 toy_profile []
           (to_bytes "a.search") toy_session empty_state "a"
           (mkServer "http://a/" "" "cred-a" (Some {[ "search" := true ]})) toy_backend "srv-1" "search" []);
    try reflexivity; try discriminate; try (intros; reflexivity).
  - apply (bool_decide_unpack _). vm_compute. exact I.
Defined.
