(* ===== verification/WsSetup.v ===== *)
(** * WsSetup: how the WebSocket proxy is configured (examples/ws-proxy)

    Its configuration and environment with [os.Expand], the registrations, the upstream filter
    of auth.go and the record of a session.  The environment is a map; the JSON decoder and
    [time.ParseDuration] are parameters. *)
From stdpp Require Import base list gmap strings sets relations.
From Stdlib Require Import ZArith Lia Ascii.
From S2P Require Import Prelude GoStrings Async StreamObject Envoy Grpc FilterState Filter FilterFacts FlushProps CalloutProps CalloutGate StaticCluster SseTap Background WsProxy.

(** ** os.Expand *)

Definition isShellSpecialVar (c : ascii) : bool :=
  bool_decide (c ∈ ["*"; "#"; "$"; "@"; "!"; "?"; "-"; "0"; "1"; "2"; "3"; "4"; "5"; "6"; "7"; "8"; "9"]%char).

Definition isAlphaNum (c : ascii) : bool :=
  let n := nat_of_ascii c in
  bool_decide (c = "_"%char) || ((48 <=? n) && (n <=? 57)) || ((97 <=? n) && (n <=? 122)) || ((65 <=? n) && (n <=? 90)).

(** What precedes the first closing brace. *)
Fixpoint to_brace (s : string) : option string :=
  match s with
  | EmptyString => None
  | String c s' => if decide (c = "}"%char) then Some "" else String c <$> to_brace s'
  end.

Fixpoint alnum_prefix (s : string) : string :=
  match s with
  | EmptyString => ""
  | String c s' => if isAlphaNum c then String c (alnum_prefix s') else ""
  end.

(** After an opening brace: one special character and a closing brace, or all up to one. *)
Definition special_name (rest : string) : option ascii :=
  match rest with
  | String d (String e _) => if isShellSpecialVar d && bool_decide (e = "}"%char) then Some d else None
  | _ => None
  end.

Definition brace_name (rest : string) : string * nat :=
  match to_brace rest with
  | Some "" => ("", 2)
  | Some name => (name, String.length name + 2)
  | None => ("", 1)
  end.

(** The name and how many bytes it takes; the string is not empty. *)
Definition getShellName (s : string) : string * nat :=
  match s with
  | EmptyString => ("", 0)
  | String c rest =>
      if decide (c = "{"%char) then
        match special_name rest with
        | Some d => (String d "", 3)
        | None => brace_name rest
        end
      else if isShellSpecialVar c then (String c "", 1)
      else (alnum_prefix s, String.length (alnum_prefix s))
  end.

Fixpoint sdrop (n : nat) (s : string) : string :=
  match n, s with
  | S n, String _ s => sdrop n s
  | _, _ => s
  end.

(** The loop; [n] bounds the bytes that are left. *)
Fixpoint expand_loop (mapping : string -> string) (n : nat) (s : string) : string :=
  match n, s with
  | S n, String c rest =>
      if decide (c = "$"%char /\ rest <> "") then
        let '(name, w) := getShellName rest in
        (if decide (name = "") then if decide (0 < w) then "" else String c "" else mapping name)
          +:+ expand_loop mapping n (sdrop w rest)
      else String c (expand_loop mapping n rest)
  | _, _ => ""
  end.

Definition Expand (s : string) (mapping : string -> string) : string := expand_loop mapping (String.length s) s.

(** ** The configuration *)

Record Config := mkConfig {
  cfg_UpstreamURL : string;
  cfg_AuthHeader : string;
  cfg_AuthValue : string;
  cfg_ShutdownTimeout : string;
  cfg_ListenAddress : string;
  cfg_EgressURL : string;
  cfg_OTELEndpoint : string;
  cfg_OTELExportInterval : string;
}.

Definition defaults : Config :=
  mkConfig "wss://api.openai.com" "authorization" "Bearer ${OPENAI_API_KEY}" "" "127.0.0.1:10001" "" "" "".

(** [unmarshal] overwrites the fields the JSON names, also when it fails later. *)
Definition parseConfig (unmarshal : string -> Config -> Config) (raw : string) : Config :=
  if decide (raw = "") then defaults else unmarshal raw defaults.

Section env.
Context (getenv : string -> string).

Definition resolveEnv (v : string) : string :=
  Expand v (fun key => if decide (getenv key <> "") then getenv key else "${" +:+ key +:+ "}").

Definition override (key old : string) : string := if decide (getenv key <> "") then getenv key else old.

Definition parseDuration (ParseDuration : string -> option Z) (s : string) (fallback : Z) : Z :=
  if decide (s = "") then fallback else default fallback (ParseDuration s).

Definition rationale : string := "direct-dial for ws-proxy: egress cluster not yet configured".

(** [Register]: the proxy, its sidecar's options, and the session log. *)
Definition Register (ParseDuration : string -> option Z) : WSProxy * Sidecar.SidecarOptions * string :=
  let cfg := defaults in
  let listen := override "WSPROXY_LISTEN_ADDR" (cfg_ListenAddress cfg) in
  let upstream := override "WSPROXY_UPSTREAM_URL" (cfg_UpstreamURL cfg) in
  let auth := override "WSPROXY_AUTH_VALUE" (cfg_AuthValue cfg) in
  let sessionLogPath := override "WSPROXY_SESSION_LOG" "" in
  let egress := override "WSPROXY_EGRESS_URL" (cfg_EgressURL cfg) in
  (mkProxy upstream (cfg_AuthHeader cfg) (resolveEnv auth) egress,
   Sidecar.mkOptions listen (parseDuration ParseDuration (cfg_ShutdownTimeout cfg) 5000000000) egress rationale "",
   sessionLogPath).

Definition RegisterDirect (ParseDuration : string -> option Z) (cfg : Config) : WSProxy * Sidecar.SidecarOptions :=
  (mkProxy (cfg_UpstreamURL cfg) (cfg_AuthHeader cfg) (resolveEnv (cfg_AuthValue cfg)) "",
   Sidecar.mkOptions (cfg_ListenAddress cfg) (parseDuration ParseDuration (cfg_ShutdownTimeout cfg) 5000000000) "" rationale
     (getenv "WSPROXY_DIRECT_STARTUP_LOG")).

(** ** auth.go *)

Record AuthConfig := mkAuth { StripHeaders : list string; InjectHeaders : list (string * string) }.

Definition DefaultAuthConfig : AuthConfig :=
  mkAuth ["authorization"; "x-api-key"] [("authorization", "Bearer ${OPENAI_API_KEY}")].

(** The string between [${] and a closing brace at its end. *)
Definition reference (v : string) : option string :=
  rest ← StripPrefix "${" v;
  match rev (String.list_ascii_of_string rest) with
  | "}"%char :: name => Some (String.string_of_list_ascii (rev name))
  | _ => None
  end.

Definition resolveValue (v : string) : string :=
  match reference v with
  | None => v
  | Some name => if decide (getenv name <> "") then getenv name else v
  end.

(** The upstream filter [ws-auth]. *)
Fixpoint inject (headers : list (string * string)) : prog :=
  match headers with
  | [] => PRet
  | (k, v) :: rest =>
      if decide (resolveValue v <> v) then PAct (ASetRequestHeader k (resolveValue v)) (inject rest) else inject rest
  end.

Fixpoint strip (headers : list string) (k : prog) : prog :=
  match headers with
  | [] => k
  | h :: rest => PAct (ASetRequestHeader h "") (strip rest k)
  end.

Definition ws_auth (_ : Request) : prog :=
  strip (StripHeaders DefaultAuthConfig) (inject (InjectHeaders DefaultAuthConfig)).
End env.

(** ** observability.go *)

Record SessionRecord := mkRecord {
  sr_Path : string; sr_Model : string; sr_InputTokens : Z; sr_OutputTokens : Z; sr_DurationMS : Z;
  sr_Result : string; sr_Reason : string;
}.

(** The record, and the lines of the session log afterwards; [marshal] is the JSON encoder and
    [opened] whether the file could be opened. *)
Definition recordActorSession (marshal : SessionRecord -> option string) (sessionLogPath : string) (opened : bool)
    (path : string) (t : SessionTap) (elapsed : Z) (err : option string) (log : list string) : SessionRecord * list string :=
  let '(result, reason) := match err with None => ("ok", "") | Some e => ("error", e) end in
  let rec := mkRecord path (t_model t) (t_input t) (t_output t) elapsed result reason in
  (rec, if decide (sessionLogPath = "") then log
        else match marshal rec with
             | None => log
             | Some line => if opened then log ++ [line] else log
             end).

(** ** Facts *)

Section expand.
Context (mapping : string -> string).

Lemma sdrop_length n s : String.length (sdrop n s) <= String.length s.
Proof. revert s. induction n as [|n IH]; intros [|c s]; cbn; try done. specialize (IH s). lia. Qed.

Lemma expand_loop_any n m s : String.length s <= n -> String.length s <= m -> expand_loop mapping n s = expand_loop mapping m s.
Proof.
  revert m s. induction n as [|n IH]; intros [|m] [|c rest] Hn Hm; cbn in Hn, Hm; try lia; try done. cbn.
  case_decide as Hc.
  - destruct (getShellName rest) as [name w]. f_equal. pose proof (sdrop_length w rest). apply IH; lia.
  - f_equal. apply IH; lia.
Qed.

Lemma Expand_cons c s : c <> "$"%char -> Expand (String c s) mapping = String c (Expand s mapping).
Proof. intros Hc. unfold Expand. cbn. by rewrite decide_False by naive_solver. Qed.

Definition no_char (c : ascii) (s : string) : Prop := c ∉ String.list_ascii_of_string s.

(** Text without a dollar is kept. *)
Lemma Expand_app pre s : no_char "$" pre -> Expand (pre +:+ s) mapping = pre +:+ Expand s mapping.
Proof.
  unfold no_char. induction pre as [|c pre IH]; cbn; intros Hn; [done|]. apply not_elem_of_cons in Hn as [Hc Hn].
  change (Expand (String c (pre +:+ s)) mapping = String c (pre +:+ Expand s mapping)).
  rewrite Expand_cons by done. by rewrite IH.
Qed.

Lemma to_brace_key key s : no_char "}" key -> to_brace (key +:+ String "}" s) = Some key.
Proof.
  unfold no_char. induction key as [|c key IH]; intros Hn; [done|]. cbn [String.list_ascii_of_string] in Hn. apply not_elem_of_cons in Hn as [Hc Hn].
  change (to_brace (String c key +:+ String "}" s)) with
    (if decide (c = "}"%char) then Some "" else String c <$> to_brace (key +:+ String "}" s)).
  rewrite decide_False by done. by rewrite IH.
Qed.

Lemma sdrop_key key c s : sdrop (String.length key + 1) (key +:+ String c s) = s.
Proof. induction key as [|d key IH]; cbn; [done | exact IH]. Qed.

Lemma special_name_key d key s :
  no_char "}" (String d key) -> special_name (String d key +:+ String "}" s) = None \/ (special_name (String d key +:+ String "}" s) = Some d /\ key = "").
Proof.
  intros Hk. destruct key as [|e key].
  - change (special_name (String d "" +:+ String "}" s)) with
      (if isShellSpecialVar d && bool_decide ("}"%char = "}"%char) then Some d else None).
    rewrite bool_decide_true by done. destruct (isShellSpecialVar d); auto.
  - change (special_name (String d (String e key) +:+ String "}" s)) with
      (if isShellSpecialVar d && bool_decide (e = "}"%char) then Some d else None).
    unfold no_char in Hk. cbn in Hk. rewrite bool_decide_false by set_solver. rewrite andb_false_r. auto.
Qed.

Lemma getShellName_key key s :
  key <> "" -> no_char "}" key ->
  getShellName (String "{" (key +:+ String "}" s)) = (key, String.length key + 2).
Proof.
  intros Hne Hk. pose proof (to_brace_key key s Hk) as Hb. destruct key as [|d key]; [done|].
  unfold getShellName. rewrite decide_True by done. destruct (special_name_key d key s Hk) as [->|[-> ->]]; [|done].
  unfold brace_name. by rewrite Hb.
Qed.

Lemma Expand_dollar rest name w :
  rest <> "" -> getShellName rest = (name, w) -> name <> "" ->
  Expand (String "$" rest) mapping = mapping name +:+ Expand (sdrop w rest) mapping.
Proof.
  intros Hr Hg Hn. unfold Expand.
  change (expand_loop mapping (String.length (String "$" rest)) (String "$" rest)) with
    (if decide ("$"%char = "$"%char /\ rest <> "") then
       let '(name, w) := getShellName rest in
       (if decide (name = "") then if decide (0 < w) then "" else String "$" "" else mapping name)
         +:+ expand_loop mapping (String.length rest) (sdrop w rest)
     else String "$" (expand_loop mapping (String.length rest) rest)).
  rewrite decide_True by done. rewrite Hg, decide_False by done. f_equal.
  apply expand_loop_any; [apply sdrop_length | done].
Qed.

(** A braced reference is replaced by what it maps to. *)
Lemma Expand_reference pre key post :
  no_char "$" pre -> key <> "" -> no_char "}" key ->
  Expand (pre +:+ "${" +:+ key +:+ "}" +:+ post) mapping = pre +:+ mapping key +:+ Expand post mapping.
Proof.
  intros Hp Hne Hk. rewrite Expand_app by done. f_equal.
  change ("${" +:+ key +:+ "}" +:+ post) with (String "$" (String "{" (key +:+ String "}" post))).
  rewrite (Expand_dollar _ key (String.length key + 2)) by (done || by apply getShellName_key). do 2 f_equal.
  replace (String.length key + 2) with (S (String.length key + 1)) by lia. apply sdrop_key.
Qed.

Lemma Expand_plain s : no_char "$" s -> Expand s mapping = s.
Proof. intros Hn. rewrite <-(append_nil s) at 1. rewrite Expand_app by done. apply append_nil. Qed.
End expand.

(** ** What the registrations give *)

Lemma trace_keeps_auth req h :
  (foldl (fun h k => if decide (hdr_Get req k <> "") then hdr_Set k (hdr_Get req k) h else h) h traceHeaders) !! "Authorization" =
  h !! "Authorization".
Proof.
  assert (Hs : Forall (fun k => CanonicalMIMEHeaderKey k <> "Authorization") traceHeaders) by (repeat constructor; done).
  revert h. induction Hs as [|k ks Hk _ IH]; intros h; [done|]. cbn [foldl]. rewrite IH. case_decide; [|done].
  by apply lookup_insert_ne.
Qed.

Section registered.
Context (getenv : string -> string) (ParseDuration : string -> option Z).

(** The registered proxy: in direct mode it dials the provider with the key of the environment;
    with an egress listener it dials that, and nothing it sends depends on the key. *)
Theorem registered_proxy_dials req path :
  getenv "WSPROXY_AUTH_VALUE" = "" -> getenv "OPENAI_API_KEY" <> "" ->
  let p := (Register getenv ParseDuration).1.1 in
  if decide (getenv "WSPROXY_EGRESS_URL" = "") then
    (dial p req path).1 = override getenv "WSPROXY_UPSTREAM_URL" "wss://api.openai.com" +:+ path /\
    (dial p req path).2 !! "Authorization" = Some ("Bearer " +:+ getenv "OPENAI_API_KEY")
  else
    (dial p req path).1 = getenv "WSPROXY_EGRESS_URL" +:+ path /\ (dial p req path).2 !! "Authorization" = None.
Proof.
  intros Ha Hk p.
  assert (Hv : authValue p = "Bearer " +:+ getenv "OPENAI_API_KEY").
  { unfold p, Register, override. cbn. rewrite Ha, decide_False by (intros Hx; by apply Hx). unfold resolveEnv.
    change "Bearer ${OPENAI_API_KEY}" with ("Bearer " +:+ "${" +:+ "OPENAI_API_KEY" +:+ "}" +:+ "").
    rewrite Expand_reference; [|vm_compute; set_solver | done | vm_compute; set_solver].
    cbv beta. rewrite decide_True by done. change (Expand "" _) with "". by rewrite append_nil. }
  assert (He : egressURL p = getenv "WSPROXY_EGRESS_URL").
  { change (egressURL p) with (override getenv "WSPROXY_EGRESS_URL" ""). unfold override. by destruct (decide _) as [|?%dec_stable]. }
  unfold dial. rewrite He. destruct (decide (getenv "WSPROXY_EGRESS_URL" = "")) as [Hg|Hg].
  - rewrite decide_False by (intros Hx; by apply Hx). cbn [fst snd]. split; [done|].
    rewrite trace_keeps_auth, Hv. change (authHeader p) with "authorization". rewrite decide_True by done. apply lookup_insert_eq.
  - rewrite decide_True by done. cbn [fst snd]. split; [done|]. by rewrite trace_keeps_auth.
Qed.

(** [RegisterDirect] never dials an egress listener. *)
Lemma registered_direct cfg req path : (dial (RegisterDirect getenv ParseDuration cfg).1 req path).1 = cfg_UpstreamURL cfg +:+ path.
Proof. done. Qed.
End registered.

(** ** The upstream filter *)

(** The credential that [ws-auth] is configured with is not a lone reference, so it is never
    resolved: whatever the environment holds, the filter blanks both headers of the client and
    injects nothing. *)
Theorem ws_auth_injects_nothing getenv E r s :
  idle_stream s -> handler (cfg (s_f s)) = ws_auth getenv ->
  steered E r s [CReqHeaderSet "authorization" ""; CReqHeaderSet "x-api-key" ""].
Proof.
  intros Hi Hh. unfold steered. rewrite OnRequestHeaders_plain by apply Hi. rewrite Hh.
  assert (Hp : forall q, ws_auth getenv q = PAct (ASetRequestHeader "authorization" "") (PAct (ASetRequestHeader "x-api-key" "") PRet)).
  { intros q. unfold ws_auth. cbn [strip inject StripHeaders InjectHeaders DefaultAuthConfig].
    change (resolveValue getenv "Bearer ${OPENAI_API_KEY}") with "Bearer ${OPENAI_API_KEY}".
    by rewrite decide_False by (intros Hx; by apply Hx). }
  rewrite Hp. destruct (idle_ready E s Hi) as [[Hw Hb Hd Hg (Hl & Hqs & Hs & Hbr & Hst)] Ht].
  set (s0 := request_start E s) in *. set (w := length (s_ws s)) in *. clearbody s0 w.
  cbn [run do_act mbind res_bind]. unfold SetRequestHeader, queued. rewrite Hw. cbn [directWrite negb orb].
  match goal with |- context [if negb (directWrite (writer w ?x)) || _ || _ then _ else _] =>
    replace (writer w x) with (mkWriter false false false) by (unfold writer in *; cbn; by rewrite Hw) end.
  cbn [directWrite negb orb]. queued_end Hw Hqs. by rewrite Ht.
Qed.

(** ** The record of a session *)

(** A session is recorded with the first error of its pumps, so never as ok. *)
Lemma every_session_is_an_error `{WsJson} marshal logPath opened path elapsed log x t e :
  rtc wstep start x -> recorded x = Some (t, e) ->
  sr_Result (recordActorSession marshal logPath opened path t elapsed (snd <$> recorded x) log).1 = "error".
Proof. intros _ ->. done. Qed.

(** ** Witnesses and departures *)

Definition demo_env (key : string) : string := if decide (key = "OPENAI_API_KEY") then "sk-1" else "".

Lemma registered_proxy_dials_witness :
  (dial (Register demo_env (fun _ => None)).1.1 ∅ "/v1").2 !! "Authorization" = Some "Bearer sk-1".
Proof. apply (registered_proxy_dials demo_env (fun _ => None) ∅ "/v1"); done. Defined.

(** [ResolveEnv] changes a value although its variable is unset: the unbraced form becomes
    braced, and malformed references are dropped. *)
Lemma unset_reference_is_rewritten :
  resolveEnv demo_env "k-$HOME" = "k-${HOME}" /\ resolveEnv demo_env "a${}b" = "ab" /\ resolveEnv demo_env "a${b" = "ab" /\
  resolveEnv demo_env "price: 5$" = "price: 5$".
Proof. vm_compute. done. Qed.
