(* ===== verification/ServeLoop.v ===== *)
(** * ServeLoop: how the demo servers run and stop
    (integrations/cluster-router-eg, tiered-router-eg and cluster-async-router-eg: runHTTP and
    RunUpstreamTLS)

    Each server runs in a goroutine that sends what [ListenAndServe] returned to a buffered
    channel; the function waits for the context or for a server, shuts the servers down and
    collects their results.  [runHTTP] is the loop with one server, [RunUpstreamTLS] the loop
    with two, which ignores the errors of [Shutdown].  A server that is shut down returns
    [http.ErrServerClosed]; errors of the network can come at any time. *)
From stdpp Require Import base list gmap strings sets relations.
From Stdlib Require Import ZArith Lia.
From S2P Require Import Prelude.

Inductive error := ErrServerClosed | OtherError (msg : string).
#[export] Instance error_dec : EqDecision error := ltac:(solve_decision).

(** [errors.Is(err, http.ErrServerClosed)] becomes nil. *)
Definition result_of (e : error) : option string := match e with ErrServerClosed => None | OtherError m => Some m end.

(** A server's goroutine: in [ListenAndServe], holding its result, or done. *)
Inductive server_pc := GServing | GReturned (e : error) | GSent.

(** The function: in the [select], before or in the [Shutdown] of the [i]-th server, waiting for
    [k] results, or returned. *)
Inductive main_pc :=
  | MSelect
  | MShut (i : nat)
  | MShutting (i : nat)
  | MWait (k : nat)
  | MReturned (err : option string).

Record loop := mkLoop {
  cancelled : bool;
  closing : list bool;      (* per server: Shutdown or Close was called *)
  servers : list server_pc;
  errc : list error;
  main : main_pc;
}.

Section loop.
(** The number of servers, and whether an error of [Shutdown] is returned. *)
Context (n : nat) (strict : bool).

Definition start : loop := mkLoop false (replicate n false) (replicate n GServing) [] MSelect.

Definition at_main (m : main_pc) (x : loop) : loop := mkLoop (cancelled x) (closing x) (servers x) (errc x) m.
Definition at_server (i : nat) (g : server_pc) (x : loop) : loop :=
  mkLoop (cancelled x) (closing x) (<[i := g]> (servers x)) (errc x) (main x).

(** The case of the [select] for a server's result; with two servers both are closed. *)
Definition server_failed (e : error) (rest : list error) (x : loop) : loop :=
  mkLoop (cancelled x) (if strict then closing x else replicate n true) (servers x) rest (MReturned (result_of e)).

(** What the last result received gives. *)
Definition collected (e : error) : option string := if strict then result_of e else None.

(** The program's own steps. *)
Inductive pstep : loop -> loop -> Prop :=
  | p_closed i x : servers x !! i = Some GServing -> closing x !! i = Some true ->
      pstep x (at_server i (GReturned ErrServerClosed) x)
  | p_send i e x : servers x !! i = Some (GReturned e) -> length (errc x) < n ->
      pstep x (mkLoop (cancelled x) (closing x) (<[i := GSent]> (servers x)) (errc x ++ [e]) (main x))
  | p_ctx x : main x = MSelect -> cancelled x = true -> pstep x (at_main (MShut 0) x)
  | p_err e rest x : main x = MSelect -> errc x = e :: rest -> pstep x (server_failed e rest x)
  | p_shut i x : main x = MShut i -> i < n ->
      pstep x (mkLoop (cancelled x) (<[i := true]> (closing x)) (servers x) (errc x) (MShutting i))
  | p_shut_ok i x : main x = MShutting i -> pstep x (at_main (MShut (S i)) x)
  | p_shut_err i m x : main x = MShutting i ->
      pstep x (at_main (if strict then MReturned (Some m) else MShut (S i)) x)
  | p_shut_all x : main x = MShut n -> pstep x (at_main (MWait n) x)
  | p_recv k e rest x : main x = MWait (S k) -> errc x = e :: rest ->
      pstep x (mkLoop (cancelled x) (closing x) (servers x) rest
                 (if decide (k = 0) then MReturned (collected e) else MWait k)).

(** And the environment's: the context is cancelled, a server fails. *)
Inductive lstep : loop -> loop -> Prop :=
  | l_program x y : pstep x y -> lstep x y
  | l_cancel x : lstep x (mkLoop true (closing x) (servers x) (errc x) (main x))
  | l_fail i m x : servers x !! i = Some GServing -> lstep x (at_server i (GReturned (OtherError m)) x).

(** ** The invariant *)

Definition is_sent (g : server_pc) : Prop := g = GSent.
#[export] Instance is_sent_dec g : Decision (is_sent g).
Proof. destruct g; [right | right | left]; done. Defined.

Definition sent (x : loop) : nat := length (base.filter is_sent (servers x)).

(** How many results the function has taken. *)
Definition taken (m : main_pc) : nat := match m with MWait k => n - k | _ => 0 end.

Definition returned (x : loop) : Prop := match main x with MReturned _ => True | _ => False end.

Record loop_ok (x : loop) : Prop := {
  lo_servers : length (servers x) = n;
  lo_closing : length (closing x) = n;
  lo_results : ~ returned x -> sent x = length (errc x) + taken (main x);
  lo_open : main x = MSelect -> Forall (fun b => b = false) (closing x);
  lo_cancelled : main x = MSelect \/ returned x \/ cancelled x = true;
  lo_shut : forall i, main x = MShut i \/ main x = MShutting i ->
              i <= n /\ (main x = MShutting i -> i < n /\ closing x !! i = Some true) /\ forall j, j < i -> closing x !! j = Some true;
  lo_wait : forall k, main x = MWait k -> 0 < k <= n /\ closing x = replicate n true;
  lo_closed : Forall (fun b => b = false) (closing x) ->
    (ErrServerClosed ∉ errc x) /\ (GReturned ErrServerClosed ∉ servers x);
  lo_nil : main x = MReturned None -> cancelled x = true;
}.

Lemma count_insert i (g g' : server_pc) l :
  l !! i = Some g -> ~ is_sent g ->
  length (base.filter is_sent (<[i := g']> l)) = (if decide (is_sent g') then 1 else 0) + length (base.filter is_sent l).
Proof using Type.
  revert i. induction l as [|h l IH]; intros [|i] Hi Hg; try done.
  - cbn in Hi. injection Hi as ->. change (<[0 := g']> (g :: l)) with (g' :: l). rewrite (filter_cons_False _ g) by done.
    rewrite filter_cons. by case_decide.
  - cbn in Hi. change (<[S i := g']> (h :: l)) with (h :: <[i := g']> l). rewrite !filter_cons. specialize (IH i Hi Hg).
    destruct (decide (is_sent h)); cbn [length]; lia.
Qed.

Lemma start_ok : loop_ok start.
Proof using Type.
  split; unfold start, sent, returned; cbn; try done; try (by rewrite length_replicate).
  - intros _. clear. induction n as [|k IH]; [done|]. cbn [replicate]. by rewrite filter_cons_False.
  - intros _. by apply Forall_replicate.
  - by left.
  - intros i [?|?]; done.
  - intros _. split; [apply not_elem_of_nil|]. by intros [? _]%elem_of_replicate.
Qed.

(** A server's own steps: nothing of the function changes. *)
Lemma server_ok i g e x :
  loop_ok x -> servers x !! i = Some g -> ~ is_sent g -> (e = ErrServerClosed -> closing x !! i = Some true) ->
  loop_ok (at_server i (GReturned e) x).
Proof using Type.
  intros [H1 H2 H3 H4 H4' H5 H6 H7 H8] Hi Hg He. split; cbn; try done.
  - by rewrite length_insert.
  - intros Hr. unfold sent. cbn. rewrite (count_insert i g) by done. rewrite decide_False by done. by apply H3.
  - intros Hf. destruct (H7 Hf) as [Hc Hn]. split; [done|]. intros (j & Hj)%list_elem_of_lookup.
    apply list_lookup_insert_Some in Hj as [(-> & [= ->] & _)|[_ Hj]].
    + rewrite Forall_lookup in Hf. by specialize (Hf _ _ (He eq_refl)).
    + apply Hn. by eapply list_elem_of_lookup_2.
Qed.

Lemma send_ok i e x :
  loop_ok x -> servers x !! i = Some (GReturned e) ->
  loop_ok (mkLoop (cancelled x) (closing x) (<[i := GSent]> (servers x)) (errc x ++ [e]) (main x)).
Proof using Type.
  intros [H1 H2 H3 H4 H4' H5 H6 H7 H8] Hi. split; cbn; try done.
  - by rewrite length_insert.
  - intros Hr. unfold sent. cbn. rewrite (count_insert i (GReturned e)) by done. rewrite decide_True by done.
    specialize (H3 Hr). unfold sent in H3. rewrite H3, length_app. cbn. lia.
  - intros Hf. destruct (H7 Hf) as [Hc Hn]. split.
    + intros [?|He%list_elem_of_singleton]%elem_of_app; [done|]. subst e. apply Hn. by eapply list_elem_of_lookup_2.
    + intros (j & Hj)%list_elem_of_lookup. apply list_lookup_insert_Some in Hj as [(-> & Hx & _)|[_ Hj]]; [done|].
      apply Hn. by eapply list_elem_of_lookup_2.
Qed.

Context (n_pos : 0 < n).

Lemma select_ok x y :
  loop_ok x -> main x = MSelect ->
  (cancelled x = true /\ y = at_main (MShut 0) x) \/ (exists e rest, errc x = e :: rest /\ y = server_failed e rest x) -> loop_ok y.
Proof using n_pos.
  intros Hok Hm [[Hc ->]|(e & rest & He & ->)]; destruct Hok as [H1 H2 H3 H4 H4' H5 H6 H7 H8]; split; cbn; try done.
  - intros _. unfold returned in H3. rewrite Hm in H3. cbn in H3. apply H3. tauto.
  - by right; right.
  - intros i [[= <-]|?]; [|done]. split_and!; [lia | done | lia].
  - destruct strict; [done | apply length_replicate].
  - tauto.
  - intros i [?|?]; done.
  - destruct strict; [|intros Hf; exfalso; destruct n as [|k]; [lia|]; cbn in Hf; by apply Forall_cons in Hf as [? _]].
    intros Hf. destruct (H7 Hf) as [Hc Hn]. split; [|done]. rewrite He in Hc. set_solver.
  - intros [= Hr]. destruct e; [|done]. destruct (H7 (H4 Hm)) as [Hc _]. rewrite He in Hc. set_solver.
Qed.

(** The way through the shutdowns, once the context is cancelled. *)
Lemma shut_ok x y i :
  loop_ok x -> main x = MShut i /\ i < n /\ y = mkLoop (cancelled x) (<[i := true]> (closing x)) (servers x) (errc x) (MShutting i) \/
  main x = MShutting i /\ (y = at_main (MShut (S i)) x \/ exists m, y = at_main (MReturned (Some m)) x) -> loop_ok y.
Proof using n_pos.
  intros Hok Hy. destruct Hok as [H1 H2 H3 H4 H4' H5 H6 H7 H8].
  assert (Hc : cancelled x = true).
  { unfold returned in H4'. destruct Hy as [(Hm & _)|(Hm & _)]; rewrite Hm in H4'; by destruct H4' as [?|[?|?]]. }
  assert (Hr : sent x = length (errc x)).
  { unfold returned in H3. destruct Hy as [(Hm & _)|(Hm & _)]; rewrite Hm in H3; cbn in H3; rewrite H3 by tauto; lia. }
  destruct Hy as [(Hm & Hi & ->)|(Hm & [->|[m ->]])].
  - destruct (H5 i (or_introl Hm)) as (_ & _ & Hj). split; cbn; try done.
    + by rewrite length_insert.
    + intros _. unfold sent in *. cbn. lia.
    + by right; right.
    + intros i' [?|[= <-]]; [done|]. split_and!; [lia | by intros _; rewrite list_lookup_insert_eq by lia|]. intros j Hlt. rewrite list_lookup_insert_ne by lia. by apply Hj.
    + intros Hf. rewrite Forall_lookup in Hf. specialize (Hf i true). rewrite list_lookup_insert_eq in Hf by lia. by specialize (Hf eq_refl).
  - destruct (H5 i (or_intror Hm)) as (_ & Hlt & Hj). destruct (Hlt Hm) as [Hi Hcl]. split; cbn; try done.
    + intros _. unfold sent in *. cbn. lia.
    + by right; right.
    + intros i' [[= <-]|?]; [|done]. split_and!; [lia | done|]. intros j Hj'. destruct (decide (j = i)) as [->|]; [done | apply Hj; lia].
  - split; cbn; try done; [tauto | by intros i' [?|?]].
Qed.

Lemma wait_ok x y :
  loop_ok x -> main x = MShut n /\ y = at_main (MWait n) x \/
  (exists k e rest, main x = MWait (S k) /\ errc x = e :: rest /\
     y = mkLoop (cancelled x) (closing x) (servers x) rest (if decide (k = 0) then MReturned (collected e) else MWait k)) -> loop_ok y.
Proof using n_pos.
  intros [H1 H2 H3 H4 H4' H5 H6 H7 H8] [[Hm ->]|(k & e & rest & Hm & He & ->)].
  - assert (Hc : cancelled x = true) by (unfold returned in H4'; rewrite Hm in H4'; by destruct H4' as [?|[?|?]]).
    destruct (H5 n (or_introl Hm)) as (_ & _ & Hj). split; cbn; try done.
    + intros _. unfold returned in H3. rewrite Hm in H3. cbn in H3. rewrite Nat.sub_diag. apply H3. tauto.
    + by right; right.
    + by intros i [?|?].
    + intros k [= <-]. split; [lia|]. apply list_eq. intros j. destruct (decide (j < n)) as [Hlt|Hge].
      * by rewrite Hj, lookup_replicate_2.
      * rewrite !lookup_ge_None_2; rewrite ?length_replicate; (done || lia).
  - assert (Hc : cancelled x = true) by (unfold returned in H4'; rewrite Hm in H4'; by destruct H4' as [?|[?|?]]).
    destruct (H6 _ Hm) as [Hk Hcl].
    assert (Hs : sent x = S (length rest) + (n - S k)).
    { unfold returned in H3. rewrite Hm in H3. cbn in H3. rewrite H3, He by tauto. done. }
    assert (Hnf : ~ Forall (fun b => b = false) (closing x)).
    { rewrite Hcl. destruct n as [|m]; [lia|]. cbn. by intros [? _]%Forall_cons. }
    destruct (decide (k = 0)) as [->|Hk0]; split; cbn; try done.
    + unfold returned. cbn. tauto.
    + by intros i [?|?].
    + intros _. unfold sent in *. cbn in *. lia.
    + by right; right.
    + by intros i [?|?].
    + intros k' [= <-]. split; [lia | done].
Qed.

Lemma loop_pstep_ok x y : pstep x y -> loop_ok x -> loop_ok y.
Proof using n_pos.
  destruct 1 as [i x Hi Hc|i e x Hi He|x Hm Hc|e rest x Hm He|i x Hm Hn|i x Hm|i m x Hm|x Hm|k e rest x Hm He]; intros Hok.
  - by eapply server_ok.
  - by apply send_ok.
  - eapply select_ok; eauto.
  - eapply select_ok; eauto 6.
  - eapply shut_ok; eauto.
  - eapply shut_ok; eauto.
  - eapply (shut_ok x _ i); [done|]. right. split; [done|]. destruct strict; eauto.
  - eapply wait_ok; eauto.
  - eapply wait_ok; eauto 10.
Qed.

Lemma lstep_ok x y : lstep x y -> loop_ok x -> loop_ok y.
Proof using n_pos.
  destruct 1 as [x y Hp|x|i m x Hi]; intros Hok; [by eapply loop_pstep_ok | | by eapply server_ok].
  destruct Hok as [H1 H2 H3 H4 H4' H5 H6 H7 H8]. split; cbn; try done. by right; right.
Qed.

Lemma loop_reachable_ok x : rtc lstep start x -> loop_ok x.
Proof using n_pos.
  intros Hr. remember start as x0 eqn:H0. assert (Hb : loop_ok x0) by (subst; apply start_ok). clear H0.
  induction Hr as [|x y z Hs _ IH]; [done|]. apply IH. by eapply lstep_ok.
Qed.

(** *** What is left behind *)

Context (shape : n = 1 \/ strict = false).

Record left_ok (x : loop) : Prop := {
  lf_bound : length (errc x) <= sent x;
  lf_final : returned x -> forall i, i < n -> closing x !! i = Some true \/ servers x !! i = Some GSent;
}.

Lemma sent_all l : length (base.filter is_sent l) = length l -> forall i, i < length l -> l !! i = Some GSent.
Proof using Type.
  clear shape n_pos. induction l as [|g l IH]; intros Hl [|i] Hi; cbn in Hi; try lia; rewrite filter_cons in Hl; pose proof (length_filter is_sent l);
    destruct (decide (is_sent g)) as [->|]; cbn [length] in Hl; try lia; [done|].
  change ((GSent :: l) !! S i) with (l !! i). apply IH; lia.
Qed.

Lemma pstep_left x y : pstep x y -> loop_ok x -> left_ok x -> left_ok y.
Proof using n_pos shape.
  destruct 1 as [i x Hi Hc|i e x Hi He|x Hm Hc|e rest x Hm He|i x Hm Hn|i x Hm|i m x Hm|x Hm|k e rest x Hm He]; intros Hok [Hb Hf].
  - split; unfold sent in *; cbn.
    + rewrite (count_insert i GServing) by done. lia.
    + intros Hr j Hj. destruct (decide (j = i)) as [->|]; [by left|]. rewrite list_lookup_insert_ne by done. by apply Hf.
  - split; unfold sent in *; cbn.
    + rewrite (count_insert i (GReturned e)) by done. rewrite decide_True by done. rewrite length_app. cbn. lia.
    + intros Hr j Hj. destruct (decide (j = i)) as [->|]; [|rewrite list_lookup_insert_ne by done; by apply Hf].
      right. apply list_lookup_insert_eq. by rewrite (lo_servers _ Hok).
  - split; [done | by intros []].
  - pose proof (lo_results _ Hok) as Hs. unfold returned in Hs. rewrite Hm, He in Hs. cbn in Hs. specialize (Hs (fun x => x)).
    split; unfold sent in *; cbn; [lia|]. intros _ j Hj. destruct shape as [H1|H1]; [right | left].
    + apply sent_all; rewrite (lo_servers _ Hok); [|done]. pose proof (length_filter is_sent (servers x)). rewrite (lo_servers _ Hok) in *. lia.
    + rewrite H1. by apply lookup_replicate_2.
  - split; [done | by intros []].
  - split; [done | by intros []].
  - split; [done|]. destruct strict; [|by intros []]. intros _ j Hj. destruct shape as [H1|H1]; [|done].
    destruct (lo_shut _ Hok i (or_intror Hm)) as (_ & Hi & _). destruct (Hi Hm) as [Hlt Hcl]. left.
    by replace j with i by lia.
  - split; [done | by intros []].
  - destruct (lo_wait _ Hok _ Hm) as [_ Hcl]. split; unfold sent in *; cbn; [rewrite He in Hb; cbn in Hb; lia|].
    intros _ j Hj. left. rewrite Hcl. by apply lookup_replicate_2.
Qed.

Lemma reachable_left x : rtc lstep start x -> loop_ok x /\ left_ok x.
Proof using n_pos shape.
  intros Hr. remember start as x0 eqn:H0.
  assert (Hb : loop_ok x0 /\ left_ok x0) by (subst; split; [apply start_ok | split; [cbn; lia | by intros []]]). clear H0.
  induction Hr as [|x y z Hs _ IH]; [done|]. apply IH. destruct Hb as [Hok Hl]. split; [by eapply lstep_ok|].
  destruct Hs as [x y Hp|x|i m x Hi]; [by eapply pstep_left | |].
  - by destruct Hl.
  - destruct Hl as [Hb Hf]. split; unfold sent in *; cbn.
    + rewrite (count_insert i GServing) by done. lia.
    + intros Hr j Hj. destruct (decide (j = i)) as [->|]; [|rewrite list_lookup_insert_ne by done; by apply Hf].
      destruct (Hf Hr i Hj) as [?|?]; [by left | congruence].
Qed.

(** *** Termination and progress *)

Definition server_work (g : server_pc) : nat := match g with GServing => 2 | GReturned _ => 1 | GSent => 0 end.
Definition main_work (m : main_pc) : nat :=
  match m with
  | MSelect => 3 * n + 4 + 2 * n
  | MShut i => 3 * n + 3 + 2 * (n - i)
  | MShutting i => 3 * n + 2 + 2 * (n - i)
  | MWait k => k + 1
  | MReturned _ => 0
  end.
Definition work (x : loop) : nat := sum_list (server_work <$> servers x) + main_work (main x).

Lemma work_insert i g g' l : l !! i = Some g ->
  sum_list (server_work <$> <[i := g']> l) + server_work g = sum_list (server_work <$> l) + server_work g'.
Proof using Type.
  clear shape n_pos. revert i. induction l as [|h l IH]; intros [|i] Hi; try done.
  - cbn in Hi. injection Hi as ->. cbn. lia.
  - cbn in Hi. specialize (IH i Hi). change (<[S i := g']> (h :: l)) with (h :: <[i := g']> l). cbn. lia.
Qed.

Lemma pstep_works x y : pstep x y -> loop_ok x -> work y < work x.
Proof using n_pos.
  clear shape.
  destruct 1 as [i x Hi Hc|i e x Hi He|x Hm Hc|e rest x Hm He|i x Hm Hn|i x Hm|i m x Hm|x Hm|k e rest x Hm He];
    intros Hok; unfold work; cbn [servers main at_server at_main server_failed].
  - pose proof (work_insert i _ (GReturned ErrServerClosed) _ Hi). cbn in *. lia.
  - pose proof (work_insert i _ GSent _ Hi). cbn in *. lia.
  - rewrite Hm. cbn [main_work]. lia.
  - rewrite Hm. cbn [main_work]. lia.
  - rewrite Hm. cbn [main_work]. lia.
  - rewrite Hm. destruct (lo_shut _ Hok i (or_intror Hm)) as (_ & Hi & _). destruct (Hi Hm). cbn [main_work]. lia.
  - rewrite Hm. destruct (lo_shut _ Hok i (or_intror Hm)) as (_ & Hi & _). destruct (Hi Hm). destruct strict; cbn [main_work]; lia.
  - rewrite Hm. cbn [main_work]. lia.
  - rewrite Hm. destruct (decide (k = 0)); cbn [main_work]; lia.
Qed.

Lemma pstep_stops x : loop_ok x -> sn pstep x.
Proof using n_pos.
  clear shape. remember (work x) as w eqn:Hw. revert x Hw. induction (lt_wf w) as [w _ IH]. intros x -> Hok.
  constructor. intros y Hy. eapply IH; [by apply pstep_works | done | by eapply loop_pstep_ok].
Qed.

(** A server that may stop and has not sent its result can go on. *)
Lemma server_progress x i :
  loop_ok x -> left_ok x -> i < n -> servers x !! i <> Some GSent ->
  (servers x !! i = Some GServing -> closing x !! i = Some true) -> exists y, pstep x y.
Proof using n_pos shape.
  intros Hok Hl Hi Hs Hc. destruct (lookup_lt_is_Some_2 (servers x) i) as [g Hg]; [by rewrite (lo_servers _ Hok)|].
  rewrite Hg in *. destruct g as [|e|]; [| |done].
  - eexists. apply (p_closed i); [done | by apply Hc].
  - eexists. apply (p_send i e); [done|]. pose proof (lf_bound _ Hl) as Hb.
    assert (sent x < n); [|lia]. rewrite <-(lo_servers _ Hok). unfold sent. pose proof (length_filter is_sent (servers x)).
    destruct (decide (length (base.filter is_sent (servers x)) = length (servers x))) as [He|]; [|lia].
    rewrite (sent_all _ He i) in Hg by (rewrite (lo_servers _ Hok); done). done.
Qed.

Lemma all_sent l : Forall is_sent l -> length (base.filter is_sent l) = length l.
Proof using Type. induction 1 as [|g l Hg _ IH]; [done|]. rewrite filter_cons_True by done. cbn [length]. by rewrite IH. Qed.

Lemma progress x :
  loop_ok x -> left_ok x -> cancelled x = true ->
  (exists y, pstep x y) \/ (returned x /\ Forall is_sent (servers x)).
Proof using n_pos shape.
  intros Hok Hl Hc. destruct (main x) as [|i|i|k|r] eqn:Hm.
  - left. eexists. by apply p_ctx.
  - left. destruct (lo_shut _ Hok i (or_introl Hm)) as (Hi & _ & _). destruct (decide (i < n)) as [Hlt|Hge].
    + eexists. by apply (p_shut i).
    + eexists. apply p_shut_all. rewrite Hm. f_equal. lia.
  - left. eexists. by apply (p_shut_ok i).
  - left. destruct (lo_wait _ Hok _ Hm) as [Hk Hcl]. destruct (errc x) as [|e rest] eqn:He.
    + pose proof (lo_results _ Hok) as Hs. unfold returned in Hs. rewrite Hm, He in Hs. cbn in Hs. specialize (Hs (fun x => x)).
      destruct (decide (Forall is_sent (servers x))) as [Hall|Hex].
      * exfalso. unfold sent in Hs. rewrite all_sent in Hs by done. rewrite (lo_servers _ Hok) in Hs. lia.
      * apply not_Forall_Exists in Hex; [|apply _]. apply Exists_exists in Hex as (g & Hg & Hn).
        apply list_elem_of_lookup in Hg as [i Hi]. pose proof (lookup_lt_Some _ _ _ Hi) as Hlt. rewrite (lo_servers _ Hok) in Hlt.
        apply (server_progress x i Hok Hl Hlt); [intros Hx; apply Hn; rewrite Hi in Hx; by injection Hx |].
        intros _. rewrite Hcl. by apply lookup_replicate_2.
    + destruct k as [|k]; [lia|]. eexists. by apply (p_recv k e rest).
  - destruct (decide (Forall is_sent (servers x))) as [Hall|Hex]; [right; split; [unfold returned; by rewrite Hm | done]|].
    left. apply not_Forall_Exists in Hex; [|apply _]. apply Exists_exists in Hex as (g & Hg & Hn).
    apply list_elem_of_lookup in Hg as [i Hi]. pose proof (lookup_lt_Some _ _ _ Hi) as Hlt. rewrite (lo_servers _ Hok) in Hlt.
    apply (server_progress x i Hok Hl Hlt); [intros Hx; apply Hn; rewrite Hi in Hx; by injection Hx |].
    intros _. destruct (lf_final _ Hl) with (i := i) as [?|Hx]; [unfold returned; by rewrite Hm | done | done|].
    exfalso. apply Hn. rewrite Hi in Hx. by injection Hx.
Qed.

(** The demo servers stop.  Once the context is cancelled, in every interleaving of the
    function, its servers and the network the function returns and every server's goroutine
    ends: their own steps are finite, and where none is left the function has returned and all
    results were sent.  A nil result means that the context was cancelled. *)
Theorem cancelled_servers_stop x :
  rtc lstep start x ->
  (main x = MReturned None -> cancelled x = true) /\
  (cancelled x = true -> sn pstep x /\
     forall y, rtc pstep x y -> (exists z, pstep y z) \/ (returned y /\ Forall is_sent (servers y))).
Proof using n_pos shape.
  intros Hr. destruct (reachable_left x Hr) as [Hok Hl]. split; [apply (lo_nil _ Hok)|]. intros Hc.
  split; [by apply pstep_stops|]. intros y Hp.
  assert (Hy : loop_ok y /\ left_ok y /\ cancelled y = true).
  { clear -Hok Hl Hc Hp n_pos shape. induction Hp as [|x y z Hs _ IH]; [done|]. apply IH; [by eapply loop_pstep_ok | by eapply pstep_left|].
    by destruct Hs. }
  destruct Hy as (? & ? & ?). by apply progress.
Qed.
End loop.

(** ** The two functions *)

Definition runHTTP : loop -> loop -> Prop := lstep 1 true.
Definition RunUpstreamTLS : loop -> loop -> Prop := lstep 2 false.

(** [GetCertificate]: the certificate is served for the expected name only. *)
Definition GetCertificate {Cert} (name expectedSNI serverName : string) (cert : Cert) : string + Cert :=
  if decide (serverName <> expectedSNI)
  then inl ("upstream " +:+ name +:+ " got SNI " +:+ serverName +:+ ", want " +:+ expectedSNI)
  else inr cert.

(** Both functions, the second in the state where a server failed before the context was
    cancelled. *)
Lemma cancelled_servers_stop_witness :
  sn (pstep 2 false) (mkLoop true [false; false] [GReturned (OtherError "bind"); GServing] [] MSelect) /\
  (forall x, rtc runHTTP (start 1) x -> cancelled x = true -> sn (pstep 1 true) x).
Proof.
  split.
  - apply (cancelled_servers_stop 2 false ltac:(lia) (or_intror eq_refl)); [|done].
    eapply rtc_l; [by apply (l_fail _ _ 0 "bind")|]. eapply rtc_l; [apply l_cancel|]. reflexivity.
  - intros x Hr Hc. by apply (cancelled_servers_stop 1 true ltac:(lia) (or_introl eq_refl)).
Defined.
