(* ===== verification/ExampleFilters.v ===== *)
(** * ExampleFilters: middleware, local answers and a body transform
    (examples/filter-chain, examples/spa, examples/body-transform, e2e/filters/guard.go and
    upstream_auth.go)

    Handlers as programs over the Writer.  The chain of examples/filter-chain is built with
    [Chain] of the library; the two filters of examples/spa are composed the way Envoy runs
    them.  The embedded files, the MIME table, the clock and JSON are parameters. *)
From stdpp Require Import base list gmap strings sets.
From Stdlib Require Import ZArith Lia.
From S2P Require Import Prelude GoStrings Async StreamObject Envoy Grpc FilterState Filter FilterFacts FlushProps CalloutProps CalloutGate Registry Logging StaticCluster McpGateway.

(** ** examples/filter-chain *)

(** One statement after another; callbacks of callouts run later, as before. *)
Fixpoint prog_seq (p q : prog) : prog :=
  match p with
  | PRet => q
  | PAct a k => PAct a (prog_seq k q)
  | PQuery c k => PQuery c (fun x => prog_seq (k x) q)
  | PHTTPCallout req fn k => PHTTPCallout req fn (fun i e => prog_seq (k i e) q)
  | PHTTPCalloutAllSettled reqs fn k => PHTTPCalloutAllSettled reqs fn (prog_seq k q)
  | PHTTPCalloutSequence next done_ k => PHTTPCalloutSequence next done_ (prog_seq k q)
  | PGRPCCallout req fn k => PGRPCCallout req fn (fun i e => prog_seq (k i e) q)
  | PGo fn k => PGo fn (prog_seq k q)
  end.

Definition WithLogging (next : Request -> prog) (r : Request) : prog :=
  PAct (ALog LogInfo ("filter-chain: " +:+ r_Method r +:+ " " +:+ r_Path r)) (next r).

Definition WithRequiredHeader (header : string) (next : Request -> prog) (r : Request) : prog :=
  PQuery (QHeader header) (fun v =>
    if decide (v = "") then PAct (ASendLocalResponse 401 (error_body "missing required header") json_header) PRet else next r).

Definition WithStampHeader (name value : string) (next : Request -> prog) (r : Request) : prog :=
  prog_seq (next r) (PAct (ASetRequestHeader name value) PRet).

Definition filter_chain : Request -> prog :=
  Chain (fun _ => PRet) [WithLogging; WithRequiredHeader "x-api-key"; WithStampHeader "x-filtered" "true"].

(** ** e2e/filters *)

Definition guard (_ : Request) : prog :=
  PQuery (QHeader "x-api-key") (fun v =>
    if decide (v = "") then PAct (ASendLocalResponse 401 (error_body "missing x-api-key") []) PRet else PRet).

Definition upstreamAuthOnRequest (_ : Request) : prog := PAct (ASetRequestHeader "authorization" "Bearer test-token") PRet.

(** ** examples/spa *)

Section spa.
(** The files under ui/dist, the MIME type of a path's extension, the time as text, and the
    JSON encoder on string maps. *)
Context (UIFS : string -> option bytes) (indexHTML : bytes) (mime_type : string -> string) (now : string)
        (marshal : list (string * string) -> bytes).

Definition cacheControl (path : string) : string :=
  if HasPrefix path "/assets/" then "public, max-age=31536000, immutable" else "no-cache".

Definition SPAHandler (r : Request) : prog :=
  let path := stripQuery (r_Path r) in
  match UIFS ("ui/dist" +:+ path) with
  | Some data =>
      let ct := if decide (mime_type path = "") then "application/octet-stream" else mime_type path in
      PAct (ASendLocalResponse 200 data [("content-type", ct); ("cache-control", cacheControl path)]) PRet
  | None => PAct (ASendLocalResponse 200 indexHTML [("content-type", "text/html; charset=utf-8"); ("cache-control", "no-cache")]) PRet
  end.

Definition jsonResponse (status : Z) (v : list (string * string)) : prog :=
  PAct (ASendLocalResponse status (marshal v) json_header) PRet.

Definition serveHello (r : Request) : prog :=
  jsonResponse 200 [("message", "hello from inside the .so"); ("filter", r_FilterName r); ("path", r_Path r)].
Definition serveTime : prog := jsonResponse 200 [("time", now)].

Definition is_api (path name : string) : Prop := path = name \/ HasPrefix path (name +:+ "?") = true.
#[global] Instance is_api_dec path name : Decision (is_api path name).
Proof. unfold is_api. apply _. Defined.

Definition APIHandler (r : Request) : prog :=
  let path := r_Path r in
  if decide (is_api path "/api/hello") then serveHello r
  else if decide (is_api path "/api/time") then serveTime
  else if HasPrefix path "/api/" then jsonResponse 404 [("error", "not found"); ("path", path)]
  else PRet.

Definition apiLogMiddleware (next : Request -> prog) (r : Request) : prog :=
  PAct (ALog LogInfo ("[api-backend] " +:+ r_Method r +:+ " " +:+ r_Path r)) (next r).

Definition api_backend : Request -> prog := Chain APIHandler [apiLogMiddleware].
End spa.

(** ** examples/body-transform *)

Section transform.
Context {J : Type} (unmarshal : bytes -> option (gmap string J)) (marshal : gmap string J -> option bytes).

Definition TransformBody (data : bytes) : option bytes :=
  if decide (data = []) then None
  else m ← unmarshal data; v ← m !! "message"; marshal (<["text" := v]> (delete "message" m)).

Definition transform_OnReq (r : Request) : prog :=
  PAct (ALog LogInfo ("body-transform: " +:+ r_Method r +:+ " " +:+ r_Path r)) PRet.

Definition onBody (chunk : BodyChunk) : prog :=
  match TransformBody (bc_Data chunk) with
  | None => PRet
  | Some out => PAct (ASetRequestBody out) PRet
  end.

(** The transform renames the key and nothing else, and is not applied twice. *)
Lemma TransformBody_spec data out :
  (forall m b, marshal m = Some b -> unmarshal b = Some m) ->
  TransformBody data = Some out ->
  exists m v, unmarshal data = Some m /\ m !! "message" = Some v /\
    unmarshal out = Some (<["text" := v]> (delete "message" m)) /\ TransformBody out = None /\
    forall k, k <> "text" -> k <> "message" -> (m' ← unmarshal out; m' !! k) = m !! k.
Proof.
  intros Hrt. unfold TransformBody at 1. case_decide; [done|].
  destruct (unmarshal data) as [m|]; [|done]. cbn. destruct (m !! "message") as [v|] eqn:Hv; [|done]. cbn. intros Hm%Hrt.
  exists m, v. split_and!; [done | done | done | |].
  - unfold TransformBody. case_decide; [done|]. rewrite Hm. cbn. rewrite lookup_insert_ne, lookup_delete_eq by done. done.
  - intros k H1 H2. rewrite Hm. cbn. by rewrite lookup_insert_ne, lookup_delete_ne.
Qed.
End transform.

(** ** What the filters do to a request *)

(** A log line before the rest. *)
Lemma ready_log w l m s : ready w s -> ready w (emit (CLog l m) s) /\ s_tr (emit (CLog l m) s) = s_tr s ++ [CLog l m].
Proof. intros [H1 H2 H3 H4 H5]. split; [by split | done]. Qed.

Section filters.
Context (E : Envoy) (r : Z * option CalloutDelivery).

Definition answered (s : st) (calls : list call) (code : Z) (hdrs : list (string * string)) (body : bytes) : Prop :=
  exists s1, OnRequestHeaders (with_callout E r) false s = Ok (HeadersStatusStop, s1) /\
    s_tr s1 = s_tr s ++ calls ++ [CSendLocalResponse (uint32_of code) hdrs body ""].

Definition req_of (s : st) : Request := newRequestWithContext E (request_start E s).

(** A handler that is one reply after some logging, on a stream that is idle. *)
Lemma answers_now s l m code body hdrs :
  idle_stream s -> handler (cfg (s_f s)) (req_of s) = PAct (ALog l m) (PAct (ASendLocalResponse code body hdrs) PRet) ->
  answered s [CLog l m] code hdrs body.
Proof.
  intros Hi Hh. unfold answered. rewrite OnRequestHeaders_plain by apply Hi. fold (req_of s). rewrite Hh.
  destruct (idle_ready E s Hi) as [Hr Ht]. destruct (ready_log _ l m _ Hr) as [Hr' Ht'].
  destruct (local_now E r _ _ code body hdrs Hr') as (s1 & H1 & H2). exists s1. split; [exact H1|].
  rewrite H2, Ht', Ht. by rewrite <-app_assoc.
Qed.

Lemma answers_plain s code body hdrs :
  idle_stream s -> handler (cfg (s_f s)) (req_of s) = PAct (ASendLocalResponse code body hdrs) PRet ->
  answered s [] code hdrs body.
Proof.
  intros Hi Hh. unfold answered. rewrite OnRequestHeaders_plain by apply Hi. fold (req_of s). rewrite Hh.
  destruct (idle_ready E s Hi) as [Hr Ht]. destruct (local_now E r _ _ code body hdrs Hr) as (s1 & H1 & H2).
  exists s1. split; [exact H1|]. by rewrite H2, Ht.
Qed.

(** The single-page application answers every request itself: the file of the path, or the
    shell; what is fingerprinted may be cached for ever, nothing else. *)
Theorem spa_answers_every_request UIFS indexHTML mime_type s :
  idle_stream s -> handler (cfg (s_f s)) = SPAHandler UIFS indexHTML mime_type ->
  let path := stripQuery (r_Path (req_of s)) in
  exists ct, answered s [] 200 [("content-type", ct); ("cache-control", if decide (UIFS ("ui/dist" +:+ path) = None) then "no-cache" else cacheControl path)]
    (default indexHTML (UIFS ("ui/dist" +:+ path))).
Proof.
  intros Hi Hh path. destruct (UIFS ("ui/dist" +:+ path)) as [data|] eqn:Hf.
  - eexists. rewrite decide_False by done. apply answers_plain; [done|]. rewrite Hh. unfold SPAHandler. fold path. by rewrite Hf.
  - eexists. rewrite decide_True by done. apply answers_plain; [done|]. rewrite Hh. unfold SPAHandler. fold path. by rewrite Hf.
Qed.

(** A chain without the required header stops at it: the request is logged and refused, and is
    not stamped; with the header it is stamped and goes on. *)
Theorem filter_chain_requires_key s :
  idle_stream s -> handler (cfg (s_f s)) = filter_chain ->
  let log := CLog LogInfo ("filter-chain: " +:+ r_Method (req_of s) +:+ " " +:+ r_Path (req_of s)) in
  if decide (ev_request_header E (s_tr s ++ [log]) "x-api-key" = "")
  then answered s [log] 401 json_header (error_body "missing required header")
  else steered E r s [log; CReqHeaderSet "x-filtered" "true"].
Proof.
  intros Hi Hh log. destruct (idle_ready E s Hi) as [Hr Ht].
  destruct (ready_log _ LogInfo ("filter-chain: " +:+ r_Method (req_of s) +:+ " " +:+ r_Path (req_of s)) _ Hr) as [Hr' Ht'].
  fold log in Ht'. rewrite Ht in Ht'. unfold answered, steered. rewrite OnRequestHeaders_plain by apply Hi. fold (req_of s). rewrite Hh.
  unfold filter_chain, Chain. cbn [rev app foldl WithLogging WithRequiredHeader WithStampHeader run do_act mbind res_bind do_query prog_seq].
  change (ev_request_header (with_callout E r)) with (ev_request_header E).
  fold log. fold log in Hr'. set (s0 := emit log (request_start E s)) in *. clearbody s0. rewrite Ht'. case_decide as Hk.
  - destruct (local_now E r _ _ 401 (error_body "missing required header") json_header Hr') as (s1 & H1 & H2).
    exists s1. split; [exact H1|]. rewrite H2, Ht'. by rewrite <-app_assoc.
  - destruct Hr' as [Hw Hb Hd Hg (Hl & Hqs & Hs & Hbr & Hst)]. cbn [run do_act mbind res_bind].
    unfold SetRequestHeader, queued. rewrite Hw. cbn [directWrite negb orb]. queued_end Hw Hqs. rewrite Ht'. by rewrite <-app_assoc.
Qed.

(** [api-backend] answers what is under /api/ and leaves the rest of the requests to the next
    filter. *)
Theorem api_backend_answers_api now marshal s :
  idle_stream s -> handler (cfg (s_f s)) = api_backend now marshal ->
  let log := CLog LogInfo ("[api-backend] " +:+ r_Method (req_of s) +:+ " " +:+ r_Path (req_of s)) in
  if HasPrefix (r_Path (req_of s)) "/api/"
  then exists code body, answered s [log] code json_header body
  else steered E r s [log].
Proof.
  intros Hi Hh log. set (path := r_Path (req_of s)).
  assert (Hp : forall suffix, HasPrefix ("/api/" +:+ suffix) "/api/" = true).
  { intros x. unfold HasPrefix. apply bool_decide_true. exists x. by apply StripPrefix_Some. }
  assert (Hapi : forall n, is_api path ("/api/" +:+ n) -> HasPrefix path "/api/" = true).
  { intros n [->|Hx]; [apply Hp|]. unfold HasPrefix in Hx. apply bool_decide_eq_true in Hx as [y Hy]. apply StripPrefix_Some in Hy as ->.
    apply (Hp ((n +:+ "?") +:+ y)). }
  destruct (HasPrefix path "/api/") eqn:Hpre.
  - unfold api_backend, Chain in Hh. cbn [rev app foldl] in Hh.
    assert (Hx : exists code v, APIHandler now marshal (req_of s) = jsonResponse marshal code v).
    { unfold APIHandler, serveHello, serveTime. fold path. rewrite Hpre. repeat case_decide; eauto. }
    destruct Hx as (code & v & Hx). exists code, (marshal v). apply answers_now; [done|]. rewrite Hh. unfold apiLogMiddleware. by rewrite Hx.
  - assert (Hx : APIHandler now marshal (req_of s) = PRet).
    { unfold APIHandler. fold path. rewrite Hpre.
      rewrite decide_False by (intros Hy; by specialize (Hapi "hello" Hy)).
      by rewrite decide_False by (intros Hy; by specialize (Hapi "time" Hy)). }
    unfold steered. rewrite OnRequestHeaders_plain by apply Hi. fold (req_of s). rewrite Hh.
    unfold api_backend, Chain. cbn [rev app foldl]. unfold apiLogMiddleware. rewrite Hx. cbn [run do_act mbind res_bind].
    destruct (idle_ready E s Hi) as [Hr Ht]. destruct (ready_log _ LogInfo ("[api-backend] " +:+ r_Method (req_of s) +:+ " " +:+ r_Path (req_of s)) _ Hr) as [Hr' Ht'].
    fold log in Hr', Ht' |- *. set (s0 := emit log (request_start E s)) in *. clearbody s0.
    destruct Hr' as [Hw Hb Hd Hg (Hl & Hqs & Hs & Hbr & Hst)]. queued_end Hw Hqs. by rewrite Ht', Ht, app_nil_r.
Qed.
End filters.

(** ** Departures *)

(** A text key the client sent is lost. *)
Lemma text_key_is_replaced :
  TransformBody (fun _ => Some ({["message" := 1; "text" := 2]} : gmap string nat))
    (fun m => if decide (m = {["text" := 1]}) then Some [Byte.x01] else None) [Byte.x00] = Some [Byte.x01].
Proof. vm_compute. reflexivity. Qed.
