(* ===== verification/FakeHandle.v ===== *)
(** * FakeHandle: the fakes that users test their filters with (up/testutil/testutil.go)

    [FakeFilterHandle] plays Envoy in unit tests.  Its state is what its methods record; played
    over the calls of a stream it gives the answers of an [Envoy] record, which satisfies the
    laws the library's theorems assume, so that a test against the fake is an instance of
    them.  The SDK's fake header maps and body buffers are those of another [Envoy] record,
    from which only these answers are taken; [strconv.ParseFloat] is a parameter. *)
From stdpp Require Import base list gmap strings sets.
From Stdlib Require Import ZArith Lia.
From S2P Require Import Prelude GoStrings Async StreamObject Envoy Grpc FilterState Filter FilterFacts FlushProps StreamKeys AbiHandles.

(** ** FakeFilterHandle *)

Record LocalResponse := mkLocalResponse { lr_Status : Z; lr_Headers : list (string * string); lr_Body : bytes; lr_Detail : string }.
Record MetricRecord := mkMetricRecord { mr_ID : Z; mr_Value : Z; mr_Labels : list string }.

(** The two channels are closed or not. *)
Record FakeFilterHandle := mkFake {
  fh_metadata : gmap string (gmap string any);
  fh_filterState : gmap string bytes;
  LocalResponses : list LocalResponse;
  Counters : list MetricRecord;
  Histograms : list MetricRecord;
  ContinuedReq : nat;
  ContinueRequestC : bool;
  LocalResponseC : bool;
}.

Definition NewFilterHandle : FakeFilterHandle := mkFake ∅ ∅ [] [] [] 0 false false.

Definition fh_ContinueRequest (h : FakeFilterHandle) : FakeFilterHandle :=
  mkFake (fh_metadata h) (fh_filterState h) (LocalResponses h) (Counters h) (Histograms h) (S (ContinuedReq h)) true (LocalResponseC h).

Definition fh_SendLocalResponse (status : Z) (headers : list (string * string)) (body : bytes) (detail : string)
    (h : FakeFilterHandle) : FakeFilterHandle :=
  mkFake (fh_metadata h) (fh_filterState h) (LocalResponses h ++ [mkLocalResponse status headers body detail]) (Counters h)
    (Histograms h) (ContinuedReq h) (ContinueRequestC h) true.

Definition fh_SetMetadata (ns key : string) (value : any) (h : FakeFilterHandle) : FakeFilterHandle :=
  mkFake (<[ns := <[key := value]> (default ∅ (fh_metadata h !! ns))]> (fh_metadata h)) (fh_filterState h) (LocalResponses h)
    (Counters h) (Histograms h) (ContinuedReq h) (ContinueRequestC h) (LocalResponseC h).

Definition ClearMetadata (ns key : string) (h : FakeFilterHandle) : FakeFilterHandle :=
  mkFake (match fh_metadata h !! ns with Some m => <[ns := delete key m]> (fh_metadata h) | None => fh_metadata h end)
    (fh_filterState h) (LocalResponses h) (Counters h) (Histograms h) (ContinuedReq h) (ContinueRequestC h) (LocalResponseC h).

Definition stored_at (ns key : string) (h : FakeFilterHandle) : option any := m ← fh_metadata h !! ns; m !! key.

Definition fh_GetMetadataString (ns key : string) (h : FakeFilterHandle) : option string :=
  match stored_at ns key h with Some (VString s) => Some s | _ => None end.

Definition fh_GetMetadataBool (ns key : string) (h : FakeFilterHandle) : option bool :=
  match stored_at ns key h with Some (VBool b) => Some b | _ => None end.

(** Numbers as [float64] bits: [of_int] and [of_float32] are the conversions. *)
Definition metadataNumber (of_int : Z -> Z) (of_float32 : Z -> Z) (ParseFloat : string -> option Z) (v : any) : option Z :=
  match v with
  | VNum _ n => Some (of_int n)
  | VFloat32 b => Some (of_float32 b)
  | VFloat64 b => Some b
  | VString s => ParseFloat s
  | _ => None
  end.

Definition fh_GetMetadataNumber (of_int : Z -> Z) (of_float32 : Z -> Z) (ParseFloat : string -> option Z) (ns key : string)
    (h : FakeFilterHandle) : option Z :=
  v ← stored_at ns key h; metadataNumber of_int of_float32 ParseFloat v.

Definition fh_SetFilterState (key : string) (value : bytes) (h : FakeFilterHandle) : FakeFilterHandle :=
  mkFake (fh_metadata h) (<[key := value]> (fh_filterState h)) (LocalResponses h) (Counters h) (Histograms h) (ContinuedReq h)
    (ContinueRequestC h) (LocalResponseC h).

(** The buffer is nil for an empty value, which is still found. *)
Definition fh_GetFilterState (key : string) (h : FakeFilterHandle) : option UnsafeEnvoyBuffer :=
  match fh_filterState h !! key with
  | None => None
  | Some [] => Some buf_zero
  | Some v => Some (mkBuf (Some OGo) v)
  end.

Definition FilterStateString (key : string) (h : FakeFilterHandle) : option string :=
  String.string_of_list_byte <$> fh_filterState h !! key.

Definition fh_RecordHistogramValue (id value : Z) (labels : list string) (h : FakeFilterHandle) : FakeFilterHandle :=
  mkFake (fh_metadata h) (fh_filterState h) (LocalResponses h) (Counters h) (Histograms h ++ [mkMetricRecord id value labels])
    (ContinuedReq h) (ContinueRequestC h) (LocalResponseC h).

Definition fh_IncrementCounterValue (id value : Z) (labels : list string) (h : FakeFilterHandle) : FakeFilterHandle :=
  mkFake (fh_metadata h) (fh_filterState h) (LocalResponses h) (Counters h ++ [mkMetricRecord id value labels]) (Histograms h)
    (ContinuedReq h) (ContinueRequestC h) (LocalResponseC h).

(** The handle under a call; what is not listed is a method with an empty body. *)
Definition handle_call (h : FakeFilterHandle) (c : call) : FakeFilterHandle :=
  match c with
  | CSendLocalResponse status headers body details => fh_SendLocalResponse status headers body details h
  | CContinueRequest => fh_ContinueRequest h
  | CSetMetadata ns key value => fh_SetMetadata ns key value h
  | CSetFilterState key value => fh_SetFilterState key value h
  | CIncrementCounterValue id delta labels => fh_IncrementCounterValue id delta labels h
  | CRecordHistogramValue id value labels => fh_RecordHistogramValue id value labels h
  | _ => h
  end.

Definition after (tr : list call) : FakeFilterHandle := foldl handle_call NewFilterHandle tr.

(** [HttpCallout] and [StartHttpStream] with the functions of the options, if any. *)
Definition fh_HttpCallout (fn : option (HTTPCalloutRequest -> Z * option CalloutDelivery)) (req : HTTPCalloutRequest) :
    Z * option CalloutDelivery :=
  match fn with Some fn => fn req | None => (HTTPCalloutInitClusterNotFound, None) end.
Definition fh_StartHttpStream (fn : option (HTTPCalloutRequest -> Z * list stream_event)) (req : HTTPCalloutRequest) :
    Z * list stream_event :=
  match fn with Some fn => fn req | None => (HTTPCalloutInitClusterNotFound, []) end.

(** ** The fake as an Envoy *)

Definition fakeEnvoy (B : Envoy) (callout : option (HTTPCalloutRequest -> Z * option CalloutDelivery))
    (stream : option (HTTPCalloutRequest -> Z * list stream_event)) : Envoy :=
  mkEnvoy (ev_request_headers B) (ev_request_header B) (ev_response_header B)
    (fun tr key => (fun b => String.string_of_list_byte (buf_bytes b)) <$> fh_GetFilterState key (after tr))
    (fun _ => None) (ev_body B) (fun _ _ _ => false)
    (fun _ => fh_HttpCallout callout) (fun _ => fh_StartHttpStream stream)
    (ev_nonce B) (ev_unicode B) (ev_stack B).

Lemma after_snoc tr c : after (tr ++ [c]) = handle_call (after tr) c.
Proof. unfold after. by rewrite foldl_app. Qed.

Lemma fake_filter_state B callout stream tr key :
  ev_filter_state (fakeEnvoy B callout stream) tr key = FilterStateString key (after tr).
Proof. cbn. unfold fh_GetFilterState, FilterStateString. by destruct (fh_filterState (after tr) !! key) as [[|]|]. Qed.

(** The fake keeps filter state the way Envoy does: the theorems on stream objects and on
    filter state hold of tests against it. *)
#[export] Instance fake_filter_state_laws B callout stream : FilterStateLaws (fakeEnvoy B callout stream).
Proof.
  split.
  - intros tr k v k'. rewrite !fake_filter_state, after_snoc. unfold FilterStateString. cbn.
    case_decide as Hk; [by subst; rewrite lookup_insert_eq | by rewrite lookup_insert_ne].
  - intros tr c k Hc. rewrite !fake_filter_state, after_snoc. by destruct c.
Qed.

(** Header laws of the SDK's fake header map are laws of the fake handle. *)
#[export] Instance fake_header_laws B callout stream `{HB : !HeaderMapLaws B} : HeaderMapLaws (fakeEnvoy B callout stream).
Proof. destruct HB as [H1 H2 H3 H4]. split; [exact H1 | exact H2 | exact H3 | exact H4]. Qed.

(** ** What a test can assert *)

Definition local_of (c : call) : option LocalResponse :=
  match c with CSendLocalResponse s h b d => Some (mkLocalResponse s h b d) | _ => None end.
Definition counter_of (c : call) : option MetricRecord :=
  match c with CIncrementCounterValue i d l => Some (mkMetricRecord i d l) | _ => None end.
Definition histogram_of (c : call) : option MetricRecord :=
  match c with CRecordHistogramValue i d l => Some (mkMetricRecord i d l) | _ => None end.
Definition continue_of (c : call) : option () := match c with CContinueRequest => Some () | _ => None end.

(** The last value set, by the calls. *)
Definition metadata_of (tr : list call) (ns key : string) : option any :=
  foldl (fun acc c => match c with
                      | CSetMetadata ns' key' v => if decide (ns' = ns /\ key' = key) then Some v else acc
                      | _ => acc
                      end) None tr.

Lemma stored_SetMetadata ns key v ns' key' h :
  stored_at ns' key' (fh_SetMetadata ns key v h) = if decide (ns = ns' /\ key = key') then Some v else stored_at ns' key' h.
Proof.
  unfold stored_at. cbn. destruct (decide (ns = ns')) as [<-|Hn].
  - rewrite lookup_insert_eq. cbn. destruct (decide (key = key')) as [<-|Hk].
    + rewrite lookup_insert_eq. by rewrite decide_True.
    + rewrite lookup_insert_ne by done. rewrite decide_False by naive_solver. by destruct (fh_metadata h !! ns).
  - rewrite lookup_insert_ne by done. by rewrite decide_False by naive_solver.
Qed.

(** The fake reports the stream truthfully: whatever calls a stream made, the recorded local
    responses, counters and histograms are those calls in order, the number of resumptions is
    exact, each channel is closed exactly when its call was made at least once, and metadata
    reads give the last value written under the namespace and key. *)
Theorem fake_records_the_calls tr :
  LocalResponses (after tr) = omap local_of tr /\ Counters (after tr) = omap counter_of tr /\
  Histograms (after tr) = omap histogram_of tr /\ ContinuedReq (after tr) = length (omap continue_of tr) /\
  ContinueRequestC (after tr) = bool_decide (omap continue_of tr <> []) /\
  LocalResponseC (after tr) = bool_decide (omap local_of tr <> []) /\
  (forall ns key, stored_at ns key (after tr) = metadata_of tr ns key).
Proof.
  induction tr as [|c tr (H1 & H2 & H3 & H4 & H5 & H6 & H7)] using rev_ind; [by repeat split|].
  rewrite !after_snoc, !omap_app. unfold metadata_of in *.
  assert (Hne : forall {A} (l : list A) x, bool_decide (l ++ [x] <> []) = true) by (intros; apply bool_decide_true; by destruct l).
  destruct c; cbn [handle_call omap list_omap local_of counter_of histogram_of continue_of]; rewrite ?app_nil_r, ?Hne; cbn;
    rewrite ?length_app; cbn; split_and!; try (done || congruence || lia || (intros; rewrite foldl_app; apply H7)).
  intros ns' key'. rewrite foldl_app. cbn. rewrite <-H7. apply stored_SetMetadata.
Qed.

(** ** FakeClusterLBContext *)

Record FakeClusterLBContext := mkCtx { cx_filterState : gmap string string }.

Definition SyncFilterStateFrom (h : FakeFilterHandle) (c : FakeClusterLBContext) : FakeClusterLBContext :=
  mkCtx ((String.string_of_list_byte <$> fh_filterState h) ∪ cx_filterState c).
Definition NewFakeClusterLBContext (h : FakeFilterHandle) : FakeClusterLBContext := SyncFilterStateFrom h (mkCtx ∅).
Definition cx_GetFilterState (key : string) (c : FakeClusterLBContext) : option string := cx_filterState c !! key.

Definition cx_GetStreamObject (key : string) (g : bag_registry) (c : FakeClusterLBContext) : option any :=
  match cx_GetFilterState StreamObjectIDKey c with
  | None => None
  | Some nonce =>
      if decide (nonce = "") then None
      else match LookupStreamObjectBag nonce g with
           | None => None
           | Some bag => bag_Get bag key g
           end
  end.

Lemma synced h c key :
  cx_GetFilterState key (SyncFilterStateFrom h c) =
  match FilterStateString key h with Some v => Some v | None => cx_GetFilterState key c end.
Proof.
  unfold cx_GetFilterState, SyncFilterStateFrom, FilterStateString. cbn. rewrite lookup_union, lookup_fmap.
  destruct (fh_filterState h !! key); cbn; [by destruct (cx_filterState c !! key) | by destruct (cx_filterState c !! key)].
Qed.

(** The fake context finds what the load balancer's real context finds: after any stream, it
    reads the filter state and the stream objects of that stream. *)
Theorem fake_context_agrees B callout stream s key :
  let E := fakeEnvoy B callout stream in
  let c := NewFakeClusterLBContext (after (s_tr s)) in
  cx_GetFilterState key c = lb_filter_state (lbContext E s) key /\
  forall g, cx_GetStreamObject key g c = lb_GetStreamObject (lbContext E s) key g.
Proof.
  intros E c. assert (Hf : forall k, cx_GetFilterState k c = lb_filter_state (lbContext E s) k).
  { intros k. unfold c, NewFakeClusterLBContext. rewrite synced. unfold lbContext. cbn [lb_filter_state].
    unfold E. rewrite fake_filter_state. by destruct (FilterStateString k (after (s_tr s))). }
  split; [apply Hf|]. intros g. unfold cx_GetStreamObject, lb_GetStreamObject. by rewrite Hf.
Qed.

(** ** FakeClusterMetricsHandle *)

Record FakeClusterMetricsHandle := mkFakeMetrics {
  nextID : Z;
  cm_Counters : list MetricRecord;
  cm_Gauges : list MetricRecord;
  cm_Histograms : list MetricRecord;
}.

Definition MetricsSuccess : Z := 0.

Definition allocID (h : FakeClusterMetricsHandle) : Z * FakeClusterMetricsHandle :=
  let id := uint64_of (nextID h + 1) in (id, mkFakeMetrics id (cm_Counters h) (cm_Gauges h) (cm_Histograms h)).

(** [DefineCounter], [DefineGauge] and [DefineHistogram]. *)
Definition fake_define (_ : metric_kind) (_ : string) (_ : list string) (h : FakeClusterMetricsHandle) :
    Z * Z * FakeClusterMetricsHandle :=
  let '(id, h) := allocID h in (id, MetricsSuccess, h).

Definition fake_update (upd : metric_update) (id : Z) (labels : list string) (value : Z) (h : FakeClusterMetricsHandle) :
    Z * FakeClusterMetricsHandle :=
  let r := mkMetricRecord id value labels in
  (MetricsSuccess,
   match upd with
   | IncrementCounter => mkFakeMetrics (nextID h) (cm_Counters h ++ [r]) (cm_Gauges h) (cm_Histograms h)
   | SetGauge | IncrementGauge | DecrementGauge => mkFakeMetrics (nextID h) (cm_Counters h) (cm_Gauges h ++ [r]) (cm_Histograms h)
   | RecordHistogram => mkFakeMetrics (nextID h) (cm_Counters h) (cm_Gauges h) (cm_Histograms h ++ [r])
   end).

Fixpoint define_all (defs : list (metric_kind * string * list string)) (h : FakeClusterMetricsHandle) : list Z * FakeClusterMetricsHandle :=
  match defs with
  | [] => ([], h)
  | (k, n, tags) :: defs =>
      let '(id, _, h) := fake_define k n tags h in
      let '(ids, h) := define_all defs h in (id :: ids, h)
  end.

(** The identifiers it hands out are distinct, below 2^64 of them. *)
Lemma define_all_ids defs : forall h,
  (0 <= nextID h)%Z -> (nextID h + Z.of_nat (length defs) < 2 ^ 64)%Z ->
  (define_all defs h).1 = (fun i => nextID h + 1 + Z.of_nat i)%Z <$> seq 0 (length defs).
Proof.
  induction defs as [|[[k n] tags] defs IH]; intros h H0 Hb; [done|]. cbn [define_all length] in *.
  assert (Hid : uint64_of (nextID h + 1) = (nextID h + 1)%Z) by (unfold uint64_of; apply Z.mod_small; lia).
  unfold fake_define, allocID. rewrite Hid. set (h1 := mkFakeMetrics _ _ _ _).
  specialize (IH h1). cbn [nextID h1] in IH. destruct (define_all defs h1) as [ids h2]. cbn in *.
  rewrite IH by lia. f_equal; [lia|]. rewrite <-fmap_S_seq, <-list_fmap_compose. apply list_fmap_ext. intros i x _. cbn. lia.
Qed.

Lemma fake_ids_distinct defs h :
  (0 <= nextID h)%Z -> (nextID h + Z.of_nat (length defs) < 2 ^ 64)%Z -> NoDup (define_all defs h).1.
Proof. intros H0 Hb. rewrite define_all_ids by done. apply NoDup_fmap_2_strong; [intros; lia | apply NoDup_seq]. Qed.

(** ** Where a test against the fake says less *)

(** An update of a metric that was never defined succeeds, which Envoy refuses; and the three
    gauge operations are recorded alike. *)
Lemma fake_metrics_accept_unknown id labels v h : (fake_update IncrementCounter id labels v h).1 = MetricsSuccess.
Proof. done. Qed.

Lemma fake_gauges_look_alike id labels v h :
  fake_update SetGauge id labels v h = fake_update IncrementGauge id labels v h /\
  fake_update IncrementGauge id labels v h = fake_update DecrementGauge id labels v h.
Proof. done. Qed.

(** A string that spells a number is read as one. *)
Lemma fake_reads_string_as_number of_int of_float32 ParseFloat b :
  ParseFloat "12" = Some b ->
  fh_GetMetadataNumber of_int of_float32 ParseFloat "ns" "k" (fh_SetMetadata "ns" "k" (VString "12") NewFilterHandle) = Some b.
Proof. intros Hp. unfold fh_GetMetadataNumber. vm_compute stored_at. exact Hp. Qed.
