(* ===== verification/GoFlag.v ===== *)
(** * GoFlag: command lines (the package flag, and the helpers the demo programs share)

    A [flag.FlagSet] of string flags with [ExitOnError]: [Parse] takes the leading arguments
    that are flags, in any of the four spellings, and leaves the rest.  Each of the three
    programs under integrations/*/cmd/demo/main.go has its own copy of [envOr], [newFlagSet]
    and [writeRaw]. *)
From stdpp Require Import base list gmap strings.
From Stdlib Require Import ZArith Lia Ascii.
From S2P Require Import Prelude GoStrings ControlPlane.

(** ** flag.FlagSet *)

(** The flags by name, with their values: the defaults, until they are set. *)
Abbreviation flags := (gmap string string).

Inductive parsed :=
  | PDone (values : flags) (args : list string)
  | PExit (code : Z).

(** The text up to the first equals sign and the text after it. *)
Fixpoint cut_equals (s : string) : option (string * string) :=
  match s with
  | "" => None
  | String c s => if decide (c = "="%char) then Some ("", s) else (fun p => (String c p.1, p.2)) <$> cut_equals s
  end.

(** What [parseOne] sees in the next argument. *)
Inductive arg_kind :=
  | NotAFlag
  | Terminator
  | BadFlag
  | HelpFlag
  | AFlag (name : string) (value : option string).

Definition classify_arg (formal : flags) (s : string) : arg_kind :=
  match s with
  | String c0 (String c1 s2) =>
      if decide (c0 <> "-"%char) then NotAFlag
      else if decide (c1 = "-"%char /\ s2 = "") then Terminator
      else match (if decide (c1 = "-"%char) then s2 else String c1 s2) with
           | "" => BadFlag
           | String n0 ns =>
               if decide (n0 = "-"%char \/ n0 = "="%char) then BadFlag
               else
                 let '(name, value) := match cut_equals ns with Some (n, v) => (String n0 n, Some v) | None => (String n0 ns, None) end in
                 match formal !! name with
                 | None => if decide (name = "help" \/ name = "h") then HelpFlag else BadFlag
                 | Some _ => AFlag name value
                 end
           end
  | _ => NotAFlag
  end.

(** With [ExitOnError] a mistake exits with 2 and a request for help with 0, after a message on
    the standard error. *)
Fixpoint Parse (formal : flags) (args : list string) : parsed :=
  match args with
  | [] => PDone formal []
  | s :: rest =>
      match classify_arg formal s with
      | NotAFlag => PDone formal (s :: rest)
      | Terminator => PDone formal rest
      | BadFlag => PExit 2
      | HelpFlag => PExit 0
      | AFlag name (Some v) => Parse (<[name := v]> formal) rest
      | AFlag name None => match rest with [] => PExit 2 | v :: rest => Parse (<[name := v]> formal) rest end
      end
  end.

(** ** Printing flags and parsing them *)

(** One or two dashes; the value after an equals sign or as the next argument. *)
Record setting := mkSetting { st_dashes2 : bool; st_joined : bool; st_name : string; st_value : string }.

Definition render (x : setting) : list string :=
  let flag := (if st_dashes2 x then "--" else "-") +:+ st_name x in
  if st_joined x then [flag +:+ "=" +:+ st_value x] else [flag; st_value x].

Definition assign (formal : flags) (x : setting) : flags := <[st_name x := st_value x]> formal.

(** A name that can be spelled. *)
Definition spelled_name (name : string) : bool :=
  match name with
  | "" => false
  | String c rest => bool_decide (c <> "-"%char /\ c <> "="%char /\ cut_equals rest = None)
  end.

Lemma cut_equals_app s v : cut_equals s = None -> cut_equals (s +:+ "=" +:+ v) = Some (s, v).
Proof.
  induction s as [|c s IH]; [done|]. change (String c s +:+ "=" +:+ v) with (String c (s +:+ "=" +:+ v)). cbn [cut_equals].
  case_decide; [done|]. destruct (cut_equals s); [done|]. intros _. by rewrite IH.
Qed.

Lemma classify_flag formal (dashes2 : bool) name tail value :
  spelled_name name = true -> is_Some (formal !! name) ->
  (tail = "" /\ value = None) \/ (exists v, tail = "=" +:+ v /\ value = Some v) ->
  classify_arg formal ((if dashes2 then "--" else "-") +:+ name +:+ tail) = AFlag name value.
Proof.
  intros Hn [d Hd] Ht. destruct name as [|c rest]; [done|]. cbn in Hn. apply bool_decide_eq_true in Hn as (H1 & H2 & H3).
  assert (Hcut : match cut_equals (rest +:+ tail) with
                 | Some (n, v) => (String c n, Some v) | None => (String c (rest +:+ tail), None) end =
                 (String c rest, value)).
  { destruct Ht as [[-> ->]|(v & -> & ->)]; [|by rewrite cut_equals_app].
    by rewrite append_nil, H3. }
  destruct dashes2.
  - change ("--" +:+ String c rest +:+ tail) with (String "-" (String "-" (String c (rest +:+ tail)))). unfold classify_arg.
    rewrite decide_False by naive_solver. rewrite decide_False by naive_solver. rewrite decide_True by done.
    rewrite decide_False by naive_solver. by rewrite Hcut, Hd.
  - change ("-" +:+ String c rest +:+ tail) with (String "-" (String c (rest +:+ tail))). unfold classify_arg.
    rewrite decide_False by naive_solver. rewrite decide_False by naive_solver. rewrite decide_False by naive_solver.
    rewrite decide_False by naive_solver. by rewrite Hcut, Hd.
Qed.

(** What was printed is parsed back: any settings of flags of the set, in any of the four
    spellings and with any values, be they empty or themselves like flags, are taken in order,
    a later setting of a name overriding an earlier one; parsing then goes on with the rest. *)
Lemma Parse_render settings : forall formal rest,
  Forall (fun x => spelled_name (st_name x) = true /\ is_Some (formal !! st_name x)) settings ->
  Parse formal ((settings ≫= render) ++ rest) = Parse (fold_left assign settings formal) rest.
Proof.
  induction settings as [|[d j n v] settings IH]; intros formal rest Hf; [done|].
  apply Forall_cons in Hf as [[Hn Hd] Hf]. cbn [st_name] in Hn, Hd.
  assert (Hf' : Forall (fun x => spelled_name (st_name x) = true /\ is_Some (<[n := v]> formal !! st_name x)) settings).
  { eapply Forall_impl; [exact Hf|]. intros x [Hx Hs]. split; [done|]. apply lookup_insert_is_Some'. by right. }
  cbn [mbind list_bind fold_left]. unfold assign at 2. cbn [st_name st_value]. rewrite <-app_assoc, <-IH by done.
  unfold render at 1. cbn [st_dashes2 st_joined st_name st_value]. destruct j; cbn [app Parse].
  - rewrite append_assoc, (classify_flag _ _ _ _ (Some v)); eauto.
  - rewrite <-(append_nil n) at 1.
    rewrite (classify_flag _ _ _ _ None); eauto.
Qed.

(** The rest is left alone from the first argument that is not a flag. *)
Lemma Parse_all formal settings rest :
  Forall (fun x => spelled_name (st_name x) = true /\ is_Some (formal !! st_name x)) settings ->
  match rest with [] => True | s :: _ => classify_arg ∅ s = NotAFlag end ->
  Parse formal ((settings ≫= render) ++ rest) = PDone (fold_left assign settings formal) rest.
Proof.
  intros Hf Hr. rewrite Parse_render by done. destruct rest as [|s rest]; [done|]. cbn [Parse].
  replace (classify_arg _ s) with NotAFlag; [done|]. revert Hr. generalize (fold_left assign settings formal). intros m.
  unfold classify_arg. destruct s as [|c0 [|c1 s2]]; [done|done|]. case_decide; [done|]. case_decide; [done|].
  destruct (if decide _ then _ else _) as [|n0 ns]; [done|]. case_decide; [done|].
  destruct (cut_equals ns) as [[a b]|]; rewrite lookup_empty; by case_decide.
Qed.

(** ** What the programs share *)

Inductive cli_error :=
  | Message (text : string)
  | Unexpected (what : string) (args : list string)
  | FromClient (e : client_error)
  | WriteFailed.

(** The servers of the programs, with their arguments. *)
Inductive server :=
  | RunControl (addr initial : string)
  | RunUpstream (addr name : string)
  | RunUpstreamTLS (addr healthzAddr name expectedSNI certFile keyFile : string).

(** The process exits inside the command, the command returns, or it becomes a server, which
    ends as ServeLoop says. *)
Inductive outcome :=
  | OExit (code : Z)
  | OReturn (err : option cli_error)
  | OServe (s : server).

Definition envOr (getenv : string -> string) (name fallback : string) : string :=
  if decide (getenv name = "") then fallback else getenv name.

Section output.
Context {W : Type} (write : string -> W -> bool * W).

Definition newline : string := String (ascii_of_nat 10) "".
Definition ends_line (s : string) : bool := bool_decide (List.last (to_chars s) "0"%char = ascii_of_nat 10).

(** [out.Write], then a newline unless the text ends with one. *)
Definition writeRaw (raw : string) (w : W) : option cli_error * W :=
  let '(ok, w) := write raw w in
  if negb ok then (Some WriteFailed, w)
  else if bool_decide (raw = "") || negb (ends_line raw) then
    let '(ok, w) := write newline w in ((if ok then None else Some WriteFailed), w)
  else (None, w).

(** [raw, err := ...; if err != nil { return err }; return writeRaw(out, raw)]. *)
Definition show (r : (client_error + string) * W) : outcome * W :=
  match r with
  | (inl e, w) => (OReturn (Some (FromClient e)), w)
  | (inr raw, w) => let '(e, w) := writeRaw raw w in (OReturn e, w)
  end.

(** The flags of a command: name, default. *)
Definition with_flags (defs : list (string * string)) (args : list string)
    (k : flags -> list string -> W -> outcome * W) (w : W) : outcome * W :=
  match Parse (list_to_map defs) args with
  | PExit code => (OExit code, w)
  | PDone values rest => k values rest w
  end.

Definition value_of (values : flags) (name : string) : string := default "" (values !! name).

(** [if fs.NArg() != 0 { return fmt.Errorf(...) }]. *)
Definition no_more (what : string) (rest : list string) (k : W -> outcome * W) (w : W) : outcome * W :=
  match rest with [] => k w | _ => (OReturn (Some (Unexpected what rest)), w) end.

(** The end of [main]: [log.Fatal] of an error exits with 1. *)
Definition finish (r : outcome * W) : (Z + server) * W :=
  match r with
  | (OExit code, w) => (inl code, w)
  | (OReturn (Some _), w) => (inl 1%Z, w)
  | (OReturn None, w) => (inl 0%Z, w)
  | (OServe s, w) => (inr s, w)
  end.

Lemma with_flags_render defs settings rest k w :
  Forall (fun x => spelled_name (st_name x) = true /\ st_name x ∈ defs.*1) settings ->
  match rest with [] => True | s :: _ => classify_arg ∅ s = NotAFlag end ->
  with_flags defs ((settings ≫= render) ++ rest) k w = k (fold_left assign settings (list_to_map defs)) rest w.
Proof.
  intros Hf Hr. unfold with_flags. rewrite Parse_all; [done | | done].
  eapply Forall_impl; [exact Hf|]. intros x [Hn Hi]. split; [done|].
  apply not_eq_None_Some. by intros H%not_elem_of_list_to_map_2.
Qed.
End output.

(** The last setting of a name counts, the default where there is none. *)
Definition last_setting (settings : list setting) (name : string) : option string :=
  fold_left (fun acc x => if decide (st_name x = name) then Some (st_value x) else acc) settings None.

Lemma value_of_settings defs settings name d :
  (list_to_map defs : flags) !! name = Some d ->
  value_of (fold_left assign settings (list_to_map defs)) name = default d (last_setting settings name).
Proof.
  intros Hd. unfold last_setting. induction settings as [|x settings IH] using rev_ind; [by unfold value_of; cbn; rewrite Hd|].
  rewrite !fold_left_app. cbn [fold_left]. unfold value_of, assign at 1. case_decide as Hx.
  - by rewrite Hx, lookup_insert_eq.
  - rewrite lookup_insert_ne by done. apply IH.
Qed.
