(* ===== verification/DemoCli.v ===== *)
(** * DemoCli: the command lines of the demos
    (integrations/{tiered-router,cluster-router,cluster-async-router}-eg/cmd/demo/main.go,
    integrations/cluster-async-router-eg/internal/demo/client.go)

    The commands as functions of their arguments, the environment and a world that answers HTTP
    requests and takes the output. *)
From stdpp Require Import base list gmap strings.
From Stdlib Require Import ZArith Lia Ascii.
From S2P Require Import Prelude GoStrings GoHeap DemoConfig ControlPlane DemoRoutes DemoControl GoFlag.

Section commands.
Context {W : Type} (Do : http_request -> W -> option (Z * string) * W) (unicode : string -> string -> bool).
Context (write : string -> W -> bool * W) (getenv : string -> string).

Definition fail_with (text : string) (w : W) : outcome * W := (OReturn (Some (Message text)), w).

Definition control_flag : string * string := ("control-url", envOr getenv "CONTROL_URL" "http://127.0.0.1:19080").
Definition addr_flag : string * string := ("addr", envOr getenv "ADDR" ":8080").
Definition name_flag : string * string := ("name", envOr getenv "UPSTREAM_NAME" "upstream").

Definition serve_control (args : list string) : W -> outcome * W :=
  with_flags [addr_flag; ("initial-json", getenv "INITIAL_CONFIG_JSON")] args (fun v _ w =>
    (OServe (RunControl (value_of v "addr") (value_of v "initial-json")), w)).

Definition serve_upstream (args : list string) : W -> outcome * W :=
  with_flags [addr_flag; name_flag] args (fun v _ w => (OServe (RunUpstream (value_of v "addr") (value_of v "name")), w)).

(** ** tiered-router-eg *)

Section tiered.
Context (marshal_shard : ShardJSON -> string) (marshal_model : DemoConfig.ModelUpdate -> string).

Definition splitCSV (value : string) : option (list string) :=
  if decide (value = "") then None
  else Some (filter (fun part => part <> "") (TrimSpace <$> Split value ",")).

Definition l1_usage : string := "usage: tiered-router-demo l1 routes|shards".
Definition shards_usage : string :=
  "usage: tiered-router-demo l1 shards add <name> --target <host:port> --prefix <prefix> [--version <value>]".
Definition l2_usage : string := "usage: tiered-router-demo l2 routes|models".
Definition models_usage : string :=
  "usage: tiered-router-demo l2 models add <shard> <name> --target <host:port> --provider <provider>".

Definition shard_flags (name : string) : list (string * string) :=
  [control_flag; ("target", ""); ("prefix", ""); ("shard", name); ("status", "active"); ("version", "updated")].

Definition runL1Shards (args : list string) (w : W) : outcome * W :=
  match args with
  | [] => fail_with shards_usage w
  | verb :: args =>
      if decide (verb <> "add") then fail_with shards_usage w
      else match args with
           | [] => fail_with "l1 shards add requires exactly one shard name" w
           | name :: args =>
               with_flags (shard_flags name) args (fun v rest =>
                 no_more "l1 shards add" rest (fun w =>
                   show write (client_AddShard Do unicode marshal_shard (value_of v "control-url")
                     (mkShardJSON name (value_of v "target") (splitCSV (value_of v "prefix")) (value_of v "shard")
                        (value_of v "status") (value_of v "version")) w))) w
           end
  end.

Definition runL1 (args : list string) (w : W) : outcome * W :=
  match args with
  | [] => fail_with l1_usage w
  | verb :: args =>
      if decide (verb = "routes") then
        with_flags [control_flag] args (fun v _ w => show write (client_L1 Do unicode (value_of v "control-url") w)) w
      else if decide (verb = "shards") then runL1Shards args w
      else fail_with l1_usage w
  end.

Definition model_flags : list (string * string) :=
  [control_flag; ("target", ""); ("provider", ""); ("auth-header", ""); ("profile", ""); ("byok-key-id", "");
   ("version", "updated")].

Definition model_of (shard name : string) (v : flags) : DemoConfig.ModelUpdate :=
  mkModelUpdate shard name (value_of v "target") (value_of v "provider") (value_of v "auth-header") (value_of v "profile")
    (value_of v "byok-key-id") (value_of v "version").

Definition runL2Models (args : list string) (w : W) : outcome * W :=
  match args with
  | [] => fail_with models_usage w
  | verb :: args =>
      if decide (verb <> "add") then fail_with models_usage w
      else match args with
           | shard :: name :: args =>
               with_flags model_flags args (fun v rest =>
                 no_more "l2 models add" rest (fun w =>
                   show write (DemoControl.client_AddModel Do unicode marshal_model (value_of v "control-url") (model_of shard name v) w))) w
           | _ => fail_with "l2 models add requires shard and model name" w
           end
  end.

Definition runL2 (args : list string) (w : W) : outcome * W :=
  match args with
  | [] => fail_with l2_usage w
  | verb :: args =>
      if decide (verb = "routes") then
        match args with
        | [] => fail_with "l2 routes requires one shard name" w
        | shard :: args =>
            with_flags [control_flag] args (fun v _ w => show write (client_L2 Do unicode (value_of v "control-url") shard w)) w
        end
      else if decide (verb = "models") then runL2Models args w
      else fail_with l2_usage w
  end.

Definition tier_runDump (args : list string) : W -> outcome * W :=
  with_flags [control_flag] args (fun v _ w => show write (DemoControl.client_Dump Do unicode (value_of v "control-url") w)).

Definition tier_request_flags : list (string * string) :=
  [("gateway-url", envOr getenv "GATEWAY_URL" "http://127.0.0.1:19081");
   ("host", envOr getenv "GATEWAY_HOST" "tiered-router.example.com"); ("path", "/"); ("tag", ""); ("tenant", "");
   ("user-key", ""); ("byok-key-id", "")].

Definition tier_runRequest (args : list string) (w : W) : outcome * W :=
  match args with
  | [] => fail_with "request requires exactly one model name" w
  | model :: args =>
      with_flags tier_request_flags args (fun v rest =>
        no_more "request" rest (fun w =>
          show write (DemoControl.client_Request Do unicode
            (DemoControl.mkGateway (value_of v "gateway-url") (value_of v "host") model (value_of v "tag") (value_of v "tenant")
               (value_of v "user-key") (value_of v "byok-key-id") (value_of v "path")) w))) w
  end.

(** [os.Args] without the program. *)
Definition tier_main (args : list string) (w : W) : (Z + server) * W :=
  match args with
  | [] => (inl 2%Z, w)
  | cmd :: args =>
      finish (if decide (cmd = "control") then serve_control args w
              else if decide (cmd = "upstream") then serve_upstream args w
              else if decide (cmd = "l1") then runL1 args w
              else if decide (cmd = "l2") then runL2 args w
              else if decide (cmd = "dump") then tier_runDump args w
              else if decide (cmd = "request") then tier_runRequest args w
              else (OExit 2, w))
  end.
End tiered.

(** ** cluster-router-eg *)

Section routes.
Context (marshal_update : DemoRoutes.ModelUpdate -> string).

Definition routes_usage : string :=
  "usage: cluster-router-demo models add <name> --target <host:port> --provider <provider> [--auth-header <value>] [--version <value>]".

Definition runRoutes (args : list string) : W -> outcome * W :=
  with_flags [control_flag] args (fun v _ w => show write (client_Routes Do unicode (value_of v "control-url") w)).

Definition route_runDump (args : list string) : W -> outcome * W :=
  with_flags [control_flag] args (fun v _ w => show write (DemoRoutes.client_Dump Do unicode (value_of v "control-url") w)).

Definition route_model_flags : list (string * string) :=
  [control_flag; ("target", ""); ("provider", ""); ("auth-header", ""); ("version", "updated")].

Definition route_model_of (name : string) (v : flags) : DemoRoutes.ModelUpdate :=
  mkUpdate name (value_of v "target") (value_of v "provider") (value_of v "auth-header") (value_of v "version").

Definition runModels (args : list string) (w : W) : outcome * W :=
  match args with
  | [] => fail_with routes_usage w
  | verb :: args =>
      if decide (verb <> "add") then fail_with routes_usage w
      else match args with
           | [] => fail_with "models add requires exactly one model name" w
           | name :: args =>
               with_flags route_model_flags args (fun v rest =>
                 no_more "models add" rest (fun w =>
                   show write (DemoRoutes.client_AddModel Do unicode marshal_update (value_of v "control-url") (route_model_of name v) w))) w
           end
  end.

Definition route_request_flags : list (string * string) :=
  [("gateway-url", envOr getenv "GATEWAY_URL" "http://127.0.0.1:19081");
   ("host", envOr getenv "GATEWAY_HOST" "cluster-router.example.com"); ("path", "/")].

Definition route_runRequest (args : list string) (w : W) : outcome * W :=
  match args with
  | [] => fail_with "request requires exactly one model name" w
  | model :: args =>
      with_flags route_request_flags args (fun v rest =>
        no_more "request" rest (fun w =>
          show write (DemoRoutes.client_Request Do unicode
            (DemoRoutes.mkGateway (value_of v "gateway-url") (value_of v "host") model (value_of v "path")) w))) w
  end.

Definition route_main (args : list string) (w : W) : (Z + server) * W :=
  match args with
  | [] => (inl 2%Z, w)
  | cmd :: args =>
      finish (if decide (cmd = "control") then serve_control args w
              else if decide (cmd = "upstream") then serve_upstream args w
              else if decide (cmd = "routes") then runRoutes args w
              else if decide (cmd = "dump") then route_runDump args w
              else if decide (cmd = "models") then runModels args w
              else if decide (cmd = "request") then route_runRequest args w
              else (OExit 2, w))
  end.
End routes.

(** ** cluster-async-router-eg *)

Section async.
(** [json.Marshal] of the object with the one field [target]. *)
Context (marshal_target : string -> string).

Record AsyncRequest := mkAsyncRequest { ar_GatewayURL : string; ar_Host : string; ar_Target : string; ar_Path : string }.

(** [Client.do]: as [doJSON], without a content type of its own. *)
Definition async_do (method baseURL path body : string) (headers : list (string * string)) (w : W) :
    (client_error + string) * W :=
  let url := TrimRight baseURL "/" +:+ path in
  let '(host, hs) := fold_left (set_header unicode) headers ("", []) in
  match Do (mkHttp method url host hs body) w with
  | (None, w) => (inl TransportError, w)
  | (Some (status, raw), w) =>
      if (status <? 200)%Z || (300 <=? status)%Z then (inl (StatusError method url status raw), w) else (inr raw, w)
  end.

Definition async_Request (req : AsyncRequest) (w : W) : (client_error + string) * W :=
  let path := if decide (ar_Path req = "") then "/" else ar_Path req in
  let headers := ("content-type", "application/json") :: if decide (ar_Host req = "") then [] else [("host", ar_Host req)] in
  async_do "POST" (ar_GatewayURL req) path (marshal_target (ar_Target req)) headers w.

Definition async_request_flags : list (string * string) :=
  [("gateway-url", envOr getenv "GATEWAY_URL" "http://127.0.0.1:19081");
   ("host", envOr getenv "GATEWAY_HOST" "cluster-async-router.example.com"); ("target", ""); ("path", "/")].

Definition async_runRequest (args : list string) : W -> outcome * W :=
  with_flags async_request_flags args (fun v _ w =>
    if decide (value_of v "target" = "") then fail_with "--target is required" w
    else show write (async_Request
           (mkAsyncRequest (value_of v "gateway-url") (value_of v "host") (value_of v "target") (value_of v "path")) w)).

Definition serve_upstream_tls (args : list string) : W -> outcome * W :=
  with_flags [("addr", envOr getenv "ADDR" ":8443"); ("healthz-addr", envOr getenv "HEALTHZ_ADDR" ":8080"); name_flag;
              ("expected-sni", envOr getenv "EXPECTED_SNI" ""); ("cert-file", envOr getenv "CERT_FILE" "/etc/tls/tls.crt");
              ("key-file", envOr getenv "KEY_FILE" "/etc/tls/tls.key")] args (fun v _ w =>
    if decide (value_of v "expected-sni" = "") then fail_with "--expected-sni is required" w
    else (OServe (RunUpstreamTLS (value_of v "addr") (value_of v "healthz-addr") (value_of v "name") (value_of v "expected-sni")
                    (value_of v "cert-file") (value_of v "key-file")), w)).

Definition async_main (args : list string) (w : W) : (Z + server) * W :=
  match args with
  | [] => (inl 2%Z, w)
  | cmd :: args =>
      finish (if decide (cmd = "upstream") then serve_upstream args w
              else if decide (cmd = "upstream-tls") then serve_upstream_tls args w
              else if decide (cmd = "request") then async_runRequest args w
              else (OExit 2, w))
  end.
End async.
End commands.

(** ** A command against the control plane *)

(** The tests of a command word. *)
Ltac dispatch := repeat ((rewrite decide_False by first [done | tauto]) || (rewrite decide_True by done)); cbn iota.

(** The world of a command: what answers the requests, and the terminal. *)
Definition on_network {S} (Do : http_request -> S -> option (Z * string) * S) (q : http_request) (w : S * string) :
    option (Z * string) * (S * string) :=
  let '(a, s) := Do q w.1 in (a, (s, w.2)).
Definition to_terminal {S} (text : string) (w : S * string) : bool * (S * string) := (true, (w.1, w.2 +:+ text)).

(** A line of output. *)
Definition line (raw : string) : string := if bool_decide (raw = "") || negb (ends_line raw) then raw +:+ newline else raw.

Lemma doJSON_on_network {S} (Do : http_request -> S -> option (Z * string) * S) unicode method base path body headers s out :
  doJSON (on_network Do) unicode method base path body headers (s, out) =
    ((doJSON Do unicode method base path body headers s).1, ((doJSON Do unicode method base path body headers s).2, out)).
Proof. unfold doJSON, on_network. cbn [fst snd]. destruct (Do _ s) as [[[st raw]|] s']; [|done]. by destruct (_ || _)%bool. Qed.

Lemma show_terminal {S} r (s : S) out :
  finish (show to_terminal (r, (s, out))) =
    match r with inl _ => (inl 1%Z, (s, out)) | inr raw => (inl 0%Z, (s, out +:+ line raw)) end.
Proof.
  destruct r as [e|raw]; [done|]. unfold show, writeRaw, to_terminal, line. cbn [fst snd negb].
  destruct (_ || _)%bool; [|done]. cbn. by rewrite append_assoc.
Qed.

Section added.
Context (encode_l1 : L1Val -> string) (encode_l2 : L2Val -> string) (encode_error : string -> string).
Context (encode_dump : L1Val * gmap string DumpL2Config -> string).
Context (decode_shard : string -> option ShardJSON) (decode_model : string -> option DemoConfig.ModelUpdate).
Context (unescape : string -> string) (unmatched : request -> response).
Context (unescape_plain : forall s, "%"%char ∉ to_chars s -> unescape s = s).
Context (unicode : string -> string -> bool) (getenv : string -> string).
Context (marshal_shard : ShardJSON -> string) (marshal_model : DemoConfig.ModelUpdate -> string).

Definition control_plane : control -> hstate -> res (control * hstate) :=
  DemoControl.handler_step encode_l1 encode_l2 encode_error encode_dump decode_shard decode_model unescape unmatched.

(** The program, with the control plane at [root]. *)
Definition demo (root : string) : list string -> control * string -> (Z + server) * (control * string) :=
  tier_main (on_network (over_http control_plane root)) unicode to_terminal getenv marshal_shard marshal_model.

(** What the settings say of a flag. *)
Definition set_to (settings : list setting) (name fallback : string) : string := default fallback (last_setting settings name).

Definition model_set (shard name : string) (settings : list setting) : DemoConfig.ModelUpdate :=
  mkModelUpdate shard name (set_to settings "target" "") (set_to settings "provider" "") (set_to settings "auth-header" "")
    (set_to settings "profile" "") (set_to settings "byok-key-id" "") (set_to settings "version" "updated").

Lemma model_of_settings shard name settings :
  model_of shard name (fold_left assign settings (list_to_map (model_flags getenv))) = model_set shard name settings /\
  value_of (fold_left assign settings (list_to_map (model_flags getenv))) "control-url" =
    set_to settings "control-url" (envOr getenv "CONTROL_URL" "http://127.0.0.1:19080").
Proof. unfold model_of. split; [unfold model_set; f_equal|]; by apply value_of_settings. Qed.

Definition model_command (shard name : string) (settings : list setting) : list string :=
  "l2" :: "models" :: "add" :: shard :: name :: (settings ≫= render).

Lemma run_model_command root shard name settings y out :
  Forall (fun x => st_name x ∈ (model_flags getenv).*1) settings ->
  demo root (model_command shard name settings) (y, out) =
    let '(r, y') := DemoControl.client_AddModel (over_http control_plane root) unicode marshal_model
                      (set_to settings "control-url" (envOr getenv "CONTROL_URL" "http://127.0.0.1:19080"))
                      (model_set shard name settings) y in
    match r with inl _ => (inl 1%Z, (y', out)) | inr raw => (inl 0%Z, (y', out +:+ line raw)) end.
Proof.
  intros Hf. unfold demo, model_command. cbn [tier_main]. unfold runL2, runL2Models.
  dispatch.
  rewrite <-(app_nil_r (settings ≫= render)), with_flags_render; [| |done].
  - cbn [no_more]. destruct (model_of_settings shard name settings) as [-> ->]. unfold DemoControl.client_AddModel.
    rewrite doJSON_on_network, show_terminal. by destruct (doJSON _ _ _ _ _ _ _ y).
  - eapply Forall_impl; [exact Hf|]. intros x Hx. split; [|done]. cbn in Hx. set_unfold in Hx.
    by destruct Hx as [->|[->|[->|[->|[->|[->|[->|[]]]]]]]].
Qed.

Lemma run_routes_command root shard url y out :
  demo root ["l2"; "routes"; shard; "--control-url"; url] (y, out) =
    let '(r, y') := client_L2 (over_http control_plane root) unicode url shard y in
    match r with inl _ => (inl 1%Z, (y', out)) | inr raw => (inl 0%Z, (y', out +:+ line raw)) end.
Proof.
  unfold demo. cbn [tier_main]. unfold runL2. dispatch.
  change ["--control-url"; url] with (([mkSetting true false "control-url" url] ≫= render) ++ []).
  rewrite with_flags_render; [|by repeat constructor|done]. erewrite value_of_settings by done. unfold client_L2, client_get. rewrite doJSON_on_network, show_terminal. by destruct (doJSON _ _ _ _ _ _ _ y).
Qed.

(** A model added from the command line is there: whatever the flags of [l2 models add], in any
    spelling and order, the control plane is asked to add the model they describe (the last
    setting of each flag, its default otherwise).  When the store accepts it the command prints
    the new configuration of the shard and exits with 0, and [l2 routes] prints the same; when
    it refuses it, the command exits with 1, prints nothing, and nothing has changed. *)
Theorem added_model_is_shown shard name settings y out :
  let url := set_to settings "control-url" (envOr getenv "CONTROL_URL" "http://127.0.0.1:19080") in
  let u := model_set shard name settings in
  Forall (fun x => st_name x ∈ (model_flags getenv).*1) settings ->
  decode_model (marshal_model u) = Some u -> plain shard = true -> ct_ok y ->
  exists y', ct_ok y' /\
    match model_error u with
    | Some _ =>
        demo (TrimRight url "/") (model_command shard name settings) (y, out) = (inl 1%Z, (y', out)) /\ ct_val y' = ct_val y
    | None =>
        let c := mkL2Val (or_string (DemoConfig.mu_Version u) "updated")
                   (<[name := DemoConfig.update_model u]> (v2_Models (l2_value shard (ct_val y)))) in
        demo (TrimRight url "/") (model_command shard name settings) (y, out) = (inl 0%Z, (y', out +:+ line (encode_l2 c))) /\
        forall out', exists y'', demo (TrimRight url "/") ["l2"; "routes"; shard; "--control-url"; url] (y', out') =
                                   (inl 0%Z, (y'', out' +:+ line (encode_l2 c)))
    end.
Proof using unescape_plain.
  intros url u Hf Hd Hp Hok.
  destruct (added_model_is_read_back encode_l1 encode_l2 encode_error encode_dump decode_shard decode_model unescape unmatched
              unescape_plain unicode marshal_model url u y Hd Hp Hok) as (y' & Hok' & H).
  exists y'. split; [done|]. rewrite run_model_command by done. fold url u. fold control_plane in H.
  destruct (model_error u) as [e|].
  - destruct H as [-> Hv]. done.
  - cbv zeta in H. destruct H as [-> (y'' & Hr)]. cbv zeta. split; [done|]. intros out'. exists y''.
    rewrite run_routes_command. change shard with (DemoConfig.mu_Shard u) at 1. by rewrite Hr.
Qed.
End added.

(** [splitCSV] gives the parts back: a list of trimmed, non-empty parts without commas that is
    joined with commas, and blanks around them, is read as the list. *)
Lemma splitCSV_join (parts : list string) :
  parts <> [] -> Forall (fun p => p <> "" /\ TrimSpace p = p /\ ","%char ∉ to_chars p) parts ->
  splitCSV (of_chars (join_chars "," (to_chars <$> parts))) = Some parts.
Proof.
  intros Hne Hf. unfold splitCSV. rewrite decide_False.
  - unfold Split. rewrite to_of_chars, Split_join; [|by destruct parts|].
    + f_equal. clear Hne. induction Hf as [|p ps (H1 & H2 & _) Hf IH]; [done|]. cbn. rewrite of_to_chars, H2, decide_True by done.
      by f_equal.
    + apply Forall_fmap. eapply Forall_impl; [exact Hf|]. by intros p (_ & _ & H).
  - intros He. destruct Hf as [|p ps (H1 & _) Hf]; [done|]. apply H1. rewrite <-(of_to_chars p).
    apply (f_equal to_chars) in He. rewrite to_of_chars in He. destruct ps; cbn in He; [by rewrite He|].
    by apply app_eq_nil in He as [_ [=]].
Qed.

(** ** Witness *)

Definition cli_settings : list setting :=
  [mkSetting true false "target" "up:80"; mkSetting false true "provider" "demo"; mkSetting true true "version" "--v3";
   mkSetting false false "target" "up:81"].

(** A JSON that knows one model. *)
Definition cli_decode (body : string) : option DemoConfig.ModelUpdate :=
  if decide (body = "m") then Some (model_set "a" "m" cli_settings) else None.

Abbreviation with_cli f :=
  (f (fun l1 => lv_Version l1) (fun l2 => v2_Version l2) (fun e => e) (fun d => lv_Version d.1) (fun _ => None) cli_decode
     (fun s => s) (fun _ => mkResp 404 false "")).

Definition cli_demo := with_cli demo (fun _ _ => false) (fun _ => "") sj_Name DemoConfig.mu_Name "http://127.0.0.1:19080".
Definition cli_added : (Z + server) * (control * string) := cli_demo (model_command "a" "m" cli_settings) (demo_control, "").

Lemma demo_control_ok : ct_ok demo_control.
Proof. intros l [Hl|Hl]; revert l Hl; apply refs_bound_spec; vm_compute; reflexivity. Qed.

Lemma added_model_is_shown_witness :
  model_command "a" "m" cli_settings =
    ["l2"; "models"; "add"; "a"; "m"; "--target"; "up:80"; "-provider=demo"; "--version=--v3"; "-target"; "up:81"] /\
  exists y', ct_ok y' /\ cli_added = (inl 0%Z, (y', line "--v3")) /\
    forall out', exists y'',
      cli_demo ["l2"; "routes"; "a"; "--control-url"; "http://127.0.0.1:19080"] (y', out') = (inl 0%Z, (y'', out' +:+ line "--v3")).
Proof.
  split; [reflexivity|].
  exact (with_cli added_model_is_shown (fun s _ => eq_refl) (fun _ _ => false) (fun _ => "") sj_Name DemoConfig.mu_Name "a" "m" cli_settings
           demo_control "" ltac:(repeat constructor; apply (bool_decide_unpack _); vm_compute; exact I) eq_refl eq_refl demo_control_ok).
Defined.

(** ** Where the command line surprises *)

(** [request] takes its first argument for the model, a request for help too: it sends the
    request instead of printing the usage. *)
Lemma help_is_taken_for_the_model {W} (Do : http_request -> W -> option (Z * string) * W) unicode write getenv w :
  tier_runRequest Do unicode write getenv ["--help"] w =
  show write (DemoControl.client_Request Do unicode
    (DemoControl.mkGateway (envOr getenv "GATEWAY_URL" "http://127.0.0.1:19081")
       (envOr getenv "GATEWAY_HOST" "tiered-router.example.com") "--help" "" "" "" "" "/") w).
Proof. reflexivity. Qed.

(** Flags before the name are taken for it, and the command is refused. *)
Lemma flags_before_the_name_are_refused {W} (Do : http_request -> W -> option (Z * string) * W) unicode write getenv m w :
  runL1Shards Do unicode write getenv m ["add"; "--target"; "l2:80"; "c"] w =
  (OReturn (Some (Unexpected "l1 shards add" ["l2:80"; "c"])), w).
Proof. reflexivity. Qed.

(** Arguments after the flags of a command that takes none are ignored by [dump] and the two
    [routes]. *)
Lemma leftover_arguments_are_ignored {W} (Do : http_request -> W -> option (Z * string) * W) unicode write getenv w :
  tier_runDump Do unicode write getenv ["no"; "such"; "thing"] w = tier_runDump Do unicode write getenv [] w.
Proof. reflexivity. Qed.
