(* ===== verification/DemoMcp.v ===== *)
(** * DemoMcp: the servers of the tiered MCP demo
    (integrations/mcp-profile-tiered-router-eg/cmd/demo/main.go)

    A fake MCP server per provider and a catalog router per shard.  The state of the fake is
    that of the profile router's demo server (McpBackend), without its check of sessions; the
    router forwards like the one of McpCatalog, from a fixed table, and counts.  The clock,
    JSON and the network are parameters. *)
From stdpp Require Import base list strings gmap sets sorting pretty.
From Stdlib Require Import ZArith Lia Ascii.
From S2P Require Import Prelude GoStrings McpSession McpRouter McpGateway McpCatalog McpBackend GoFlag.

(** ** The fake MCP server *)

Definition toolsByServer : gmap string (list string) :=
  list_to_map [("kiwi", ["search-flight"]); ("aws-knowledge", ["aws____read_documentation"]);
               ("microsoft", ["search_docs"]); ("github", ["search"])].
Definition authByServer : gmap string string :=
  list_to_map [("kiwi", "Bearer kiwi-token"); ("aws-knowledge", "Bearer aws-token");
               ("microsoft", "Bearer microsoft-token"); ("github", "Bearer github-token")].

(** Fields of [fakeBackend] in the order of McpBackend's record. *)
Definition newFakeBackend (server : string) : Backend :=
  NewBackend server (default [] (toolsByServer !! server)) (default "" (authByServer !! server)).

Section demo.
Context (decode_request : bytes -> option JSONRPCRequest) (decode_params : json -> option CallToolParams)
        (encode : JSONRPCResponse -> bytes).
Context (any_object no_capabilities : json) (structured : string -> string -> bool -> json -> json).

(** [createSession]: [now] is what [time.Now().UnixNano()] gives. *)
Definition fake_createSession (now : Z) (b : Backend) : string * Backend :=
  let sessionID := "session-" +:+ b_ID b +:+ "-" +:+ pretty now in
  (sessionID, mkBackend (b_ID b) (b_Tools b) (ExpectedAuth b) ({[sessionID]} ∪ sessions b) (listCalls b) (callCalls b) (lastAuth b)).

Definition fake_handleMCP (header : string -> string) (body : bytes) (now : Z) (b : Backend) : client_response * Backend :=
  match decode_request body with
  | None => (McpRouter.writeJSON 400 [] (errorResponse [] (-32700) "invalid JSON-RPC request"), b)
  | Some req =>
      if decide (rq_method req = MethodInitialize) then
        let '(sessionID, b) := fake_createSession now b in
        (McpRouter.writeJSON 200 [(SessionIDHeader, sessionID); (ProtocolVersionHeader, ProtocolVersion)]
           (response (rq_id req) (ResInit (mkInit ProtocolVersion [("tools", no_capabilities)]
                                             (mkImplementation ("fake-mcp-" +:+ b_ID b) "dev")))), b)
      else if decide (rq_method req = MethodToolsList) then
        (McpRouter.writeJSON 200 [] (response (rq_id req) (ResTools (toolList any_object b))), recordList (header "authorization") b)
      else if decide (rq_method req = MethodToolsCall) then
        let invalid := McpRouter.writeJSON 200 [] (errorResponse (rq_id req) (-32602) "invalid tools/call params") in
        match decode_params (rq_params req) with
        | None => (invalid, b)
        | Some params =>
            if decide (c_name params = "") then (invalid, b)
            else (McpRouter.writeJSON 200 [] (response (rq_id req) (ResCall (call_result structured b params (header "authorization")))),
                  recordCall (c_name params) (header "authorization") b)
        end
      else (McpRouter.writeJSON 200 [] (errorResponse (rq_id req) (-32601) ("unsupported method: " +:+ rq_method req)), b)
  end.

(** ** The catalog router *)

Definition serversByShard : gmap string (gmap string McpCatalog.Server) :=
  let at_ host token := mkServer ("http://mcp-" +:+ host +:+ ".transit-dataplane.svc.cluster.local:8080") ("Bearer " +:+ token) in
  list_to_map
    [("a", list_to_map [("kiwi", at_ "kiwi" "kiwi-token"); ("aws-knowledge", at_ "aws-knowledge" "aws-token")]);
     ("b", list_to_map [("microsoft", at_ "microsoft" "microsoft-token"); ("github", at_ "github" "github-token")])].

Record catalogRouter := mkCatalog {
  ct_shard : string;
  ct_servers : gmap string McpCatalog.Server;
  ct_requests : gmap string Z;
}.

(** [None]: [log.Fatalf]. *)
Definition newCatalogRouter (shard : string) : option catalogRouter :=
  let servers := default ∅ (serversByShard !! shard) in
  if decide (size servers = 0) then None else Some (mkCatalog shard servers ∅).

Definition catalog_record (serverID : string) (c : catalogRouter) : catalogRouter :=
  mkCatalog (ct_shard c) (ct_servers c) (<[serverID := (default 0 (ct_requests c !! serverID) + 1)%Z]> (ct_requests c)).

Definition headerOr (h : header) (name fallback : string) : string :=
  if decide (h_Get h name <> "") then h_Get h name else fallback.

Section network.
(** An answer is a status, headers and what can be read of the body. *)
Context {W : Type} (Do : server_request -> W -> (string + Z * header * bytes) * W) (url_error : string -> option string).
Context (unicode : string -> string -> bool) (header_order : header -> list (string * list string)).

Definition catalog_headers (serverID : string) (server : McpCatalog.Server) (from : header) : header :=
  let h := h_Set "content-type" (headerOr from "content-type" "application/json") ∅ in
  let h := h_Set "accept" (headerOr from "accept" "application/json") h in
  let h := h_Set "x-mcp-server" serverID h in
  let h := if decide (sv_Credential server <> "") then h_Set "authorization" (sv_Credential server) h else h in
  let h := copy_nonempty SessionIDHeader from h in
  copy_nonempty ProtocolVersionHeader from h.

Definition demo_writeJSON (status : Z) (v : JSONRPCResponse) : reply :=
  mkReply status (h_Set "content-type" "application/json" ∅) (encode v).

Definition demo_handleServer (serverID : string) (r : McpCatalog.client_request) (c : catalogRouter) (w : W) :
    reply * catalogRouter * W :=
  match ct_servers c !! serverID with
  | None =>
      (demo_writeJSON 404 (errorResponse [] (-32004) ("unknown catalog server on shard " +:+ ct_shard c +:+ ": " +:+ serverID)), c, w)
  | Some server =>
      let c := catalog_record serverID c in
      match McpCatalog.cq_body r with
      | inl e => (demo_writeJSON 400 (errorResponse [] (-32700) ("read body: " +:+ e)), c, w)
      | inr body =>
          let url := TrimRight (sv_URL server) "/" +:+ "/mcp" in
          match url_error url with
          | Some e => (demo_writeJSON 502 (errorResponse [] (-32003) ("catalog request failed: " +:+ e)), c, w)
          | None =>
              match Do (mkServerRequest url (catalog_headers serverID server (McpCatalog.cq_header r)) body) w with
              | (inl _, w) => (demo_writeJSON 502 (errorResponse [] (-32003) ("catalog backend failed: " +:+ serverID)), c, w)
              | (inr (status, hs, answer), w) =>
                  (mkReply status (copyResponseHeaders unicode header_order ∅ hs) answer, c, w)
              end
          end
      end
  end.
End network.

(** ** The router in front of the fakes *)

(** The fakes by the URL they answer POSTs at; [now] for each. *)
Definition fakes_Do (now : Z) (q : server_request) (w : gmap string Backend) : (string + Z * header * bytes) * gmap string Backend :=
  match w !! sq_url q with
  | None => (inl "no such host", w)
  | Some b =>
      let '(r, b) := fake_handleMCP (h_Get (sq_header q)) (sq_body q) now b in
      (inr (cs_status r, foldl (fun h '(k, v) => h_Set k v h) ∅ (cs_headers r), encode (cs_body r)), <[sq_url q := b]> w)
  end.

(** A backend of the deployment: [fake-mcp --server=<id>], whatever it has served. *)
Definition is_fake (id : string) (b : Backend) : Prop := b_ID b = id /\ ExpectedAuth b = ExpectedAuth (newFakeBackend id).

Definition fake_url (id : string) : string := "http://mcp-" +:+ id +:+ ".transit-dataplane.svc.cluster.local:8080/mcp".

(** The tables agree: a server of a shard is sent to at its own host, with the credential its
    fake expects. *)
Definition table_agrees (id : string) (server : McpCatalog.Server) : bool :=
  bool_decide (TrimRight (sv_URL server) "/" +:+ "/mcp" = fake_url id) &&
  bool_decide (sv_Credential server <> "") && bool_decide (sv_Credential server = ExpectedAuth (newFakeBackend id)).

Lemma tables_agree shard c id server :
  newCatalogRouter shard = Some c -> ct_servers c !! id = Some server -> table_agrees id server = true.
Proof.
  unfold newCatalogRouter. case_decide; [done|]. intros [= <-]. cbn [ct_servers].
  assert (Ht : map_Forall (fun _ servers => map_Forall (fun id server => table_agrees id server = true) servers) serversByShard)
    by (apply (bool_decide_unpack _); vm_compute; exact I).
  destruct (serversByShard !! shard) as [servers|] eqn:Es; [|done]. intros Hs. exact (Ht _ _ Es _ _ Hs).
Qed.

Lemma catalog_authorization id server from :
  sv_Credential server <> "" -> h_Get (catalog_headers id server from) "authorization" = sv_Credential server.
Proof.
  intros Hc. unfold catalog_headers, h_Get. rewrite !copy_nonempty_other by done. rewrite decide_True by done.
  unfold h_Set at 1. by rewrite lookup_insert_eq.
Qed.

(** Tool calls reach the right fake with the right credential: for every shard, every server of
    its catalog and every [tools/call] with a tool's name, whatever headers the client sent, the
    fake of that server answers that the authorization is the expected one, and counts the
    call; the router counts the request, and no other server or counter is touched.  A request
    for a server of another shard is answered 404 without a request being made. *)
Theorem catalog_calls_are_authorized shard c id r w now unicode header_order url_error :
  newCatalogRouter shard = Some c -> (forall url, url_error url = None) ->
  let '(rp, c', w') := demo_handleServer (fakes_Do now) url_error unicode header_order id r c w in
  match ct_servers c !! id with
  | None => rp_status rp = 404%Z /\ c' = c /\ w' = w
  | Some _ =>
      ct_requests c' !! id = Some (default 0 (ct_requests c !! id) + 1)%Z /\
      (forall id', id' <> id -> ct_requests c' !! id' = ct_requests c !! id') /\
      forall b body req params,
        w !! fake_url id = Some b -> is_fake id b -> McpCatalog.cq_body r = inr body -> decode_request body = Some req ->
        rq_method req = MethodToolsCall -> decode_params (rq_params req) = Some params -> c_name params <> "" ->
        rp_status rp = 200%Z /\
        rp_body rp = encode (response (rq_id req) (ResCall (mkCallResult [("text", id +:+ "." +:+ c_name params)]
                       (structured id (c_name params) true (c_arguments params)) false))) /\
        exists b', w' = <[fake_url id := b']> w /\ is_fake id b' /\ bd_LastAuthOK (McpBackend.Dump b') = true /\
          bd_CallCalls (McpBackend.Dump b') !! c_name params = Some (default 0 (callCalls b !! c_name params) + 1)%Z
  end.
Proof.
  intros Hn Hu. unfold demo_handleServer. destruct (ct_servers c !! id) as [server|] eqn:Es; [|by split_and!].
  pose proof (tables_agree shard c id server Hn Es) as Ha. unfold table_agrees in Ha.
  apply andb_prop in Ha as [[Hurl%bool_decide_eq_true Hc%bool_decide_eq_true]%andb_prop Hcred%bool_decide_eq_true].
  set (c1 := catalog_record id c).
  assert (Hcount : ct_requests c1 !! id = Some (default 0 (ct_requests c !! id) + 1)%Z /\
                   forall id', id' <> id -> ct_requests c1 !! id' = ct_requests c !! id').
  { split; [apply lookup_insert_eq | intros; by apply lookup_insert_ne]. }
  destruct (McpCatalog.cq_body r) as [e|body] eqn:Eb; [split_and!; [apply Hcount | apply Hcount | done]|].
  rewrite Hu. destruct (fakes_Do now _ w) as [[e|[[status hs] answer]] w'] eqn:Ed;
    (split_and!; [apply Hcount | apply Hcount |]); intros b body' req params Hb [Hid Hexp] [= <-] Hreq Hm Hp Hne;
    unfold fakes_Do in Ed; cbn [sq_url sq_header sq_body] in Ed; rewrite Hurl, Hb in Ed; unfold fake_handleMCP in Ed;
    rewrite Hreq, Hm, Hp in Ed; rewrite !decide_False in Ed by done; rewrite decide_True in Ed by done.
  { by rewrite decide_False in Ed. }
  rewrite decide_False in Ed by done. rewrite catalog_authorization in Ed by done. injection Ed as <- <- <- <-.
  assert (Hok : auth_ok b (sv_Credential server) = true) by (unfold auth_ok; apply bool_decide_true; right; congruence).
  split_and!; [done | cbn; unfold call_result; by rewrite Hid, Hok |].
  eexists. split_and!; [done | done | | apply lookup_insert_eq]. unfold McpBackend.Dump, auth_ok. cbn.
  apply bool_decide_true. right. congruence.
Qed.
End demo.

(** ** The program *)

(** What the patterns of the fake's [http.ServeMux] answer; [None] is the mux's own answer. *)
Inductive fake_answer := FHealthy | FDump (d : BackendDump) | FMcp (r : client_response).

Definition fake_handler (handleMCP : Backend -> client_response * Backend) (method path : string) (b : Backend) :
    option (fake_answer * Backend) :=
  let get := bool_decide (method = "GET" \/ method = "HEAD") in
  if get && bool_decide (path = "/healthz") then Some (FHealthy, b)
  else if get && bool_decide (path = "/dump") then Some (FDump (McpBackend.Dump b), b)
  else if bool_decide (method = "POST") && bool_decide (path = "/mcp" \/ path = "/_egress/mcp") then
    let '(r, b) := handleMCP b in Some (FMcp r, b)
  else None.

Definition catalog_dump (c : catalogRouter) : string * gmap string Z := (ct_shard c, ct_requests c).

(** The process a command line starts, or its exit code. *)
Inductive mcp_process :=
  | Placeholder (addr : string)
  | FakeMCP (addr : string) (b : Backend)
  | CatalogProcess (addr : string) (c : catalogRouter).

Definition start_with (defs : list (string * string)) (args : list string) (k : flags -> Z + mcp_process) : Z + mcp_process :=
  match Parse (list_to_map defs) args with PExit code => inl code | PDone v _ => k v end.

Definition runPlaceholder (args : list string) : Z + mcp_process :=
  start_with [("addr", ":8080")] args (fun v => inr (Placeholder (value_of v "addr"))).

Definition runFakeMCP (args : list string) : Z + mcp_process :=
  start_with [("server", ""); ("addr", ":8080")] args (fun v =>
    if decide (value_of v "server" = "") then inl 1%Z else inr (FakeMCP (value_of v "addr") (newFakeBackend (value_of v "server")))).

Definition runCatalogRouter (args : list string) : Z + mcp_process :=
  start_with [("shard", ""); ("addr", ":8080")] args (fun v =>
    match newCatalogRouter (value_of v "shard") with
    | None => inl 1%Z
    | Some c => inr (CatalogProcess (value_of v "addr") c)
    end).

Definition mcp_demo_main (args : list string) : Z + mcp_process :=
  match args with
  | [] => inl 2%Z
  | cmd :: args =>
      if decide (cmd = "placeholder") then runPlaceholder args
      else if decide (cmd = "fake-mcp") then runFakeMCP args
      else if decide (cmd = "catalog-router") then runCatalogRouter args
      else inl 2%Z
  end.

(** The deployment's command lines start what the theorem above assumes: the fakes of the
    servers and the catalogs of the two shards, which no server is in twice; any other shard is
    refused. *)
Lemma deployment_starts :
  (forall id, id <> "" -> mcp_demo_main ["fake-mcp"; "--server=" +:+ id; "--addr=:8080"] = inr (FakeMCP ":8080" (newFakeBackend id)) /\
              is_fake id (newFakeBackend id)) /\
  (forall shard, mcp_demo_main ["catalog-router"; "--shard=" +:+ shard; "--addr=:8080"] =
     match newCatalogRouter shard with Some c => inr (CatalogProcess ":8080" c) | None => inl 1%Z end) /\
  (forall shard, is_Some (newCatalogRouter shard) <-> shard = "a" \/ shard = "b").
Proof.
  split_and!.
  - intros id Hid. split; [|done]. cbn [mcp_demo_main]. rewrite decide_False by done. rewrite decide_True by done.
    unfold runFakeMCP, start_with.
    change ["--server=" +:+ id; "--addr=:8080"] with
      (([mkSetting true true "server" id; mkSetting true true "addr" ":8080"] ≫= render) ++ []).
    rewrite Parse_all; [|by repeat (constructor; [split; [done | by eexists]|])|done]. erewrite !value_of_settings by done. by rewrite decide_False.
  - intros shard. cbn [mcp_demo_main]. rewrite !decide_False by done. rewrite decide_True by done.
    unfold runCatalogRouter, start_with.
    change ["--shard=" +:+ shard; "--addr=:8080"] with
      (([mkSetting true true "shard" shard; mkSetting true true "addr" ":8080"] ≫= render) ++ []).
    rewrite Parse_all; [|by repeat (constructor; [split; [done | by eexists]|])|done]. 
    rewrite (value_of_settings _ _ "shard" ""), (value_of_settings _ _ "addr" ":8080") by done. reflexivity.
  - intros shard. split; [|intros [-> | ->]; apply (bool_decide_unpack _); vm_compute; exact I]. unfold newCatalogRouter. case_decide as He; [by intros []|]. intros _.
    destruct (decide (shard = "a")); [by left|]. destruct (decide (shard = "b")); [by right|]. destruct He.
    unfold serversByShard. cbn [list_to_map foldr fst snd]. by rewrite !lookup_insert_ne, lookup_empty by done.
Qed.

(** ** Witness *)

Definition mcp_decode (body : bytes) : option JSONRPCRequest :=
  match body with [] => None | _ => Some (mkRequest body MethodToolsCall []) end.
Definition mcp_call (b : bool) : bytes := [if b then Byte.x01 else Byte.x00].

Definition mcp_world : gmap string Backend := {[fake_url "kiwi" := newFakeBackend "kiwi"]}.
Definition mcp_client : McpCatalog.client_request :=
  McpCatalog.mkClientRequest (h_Set "authorization" "Bearer mine" ∅) (inr (mcp_call true)).

Definition mcp_catalog : catalogRouter := mkCatalog "a" (default ∅ (serversByShard !! "a")) ∅.

Lemma catalog_calls_are_authorized_witness :
  newCatalogRouter "a" = Some mcp_catalog /\
    let '(rp, c', w') := demo_handleServer rs_id (fakes_Do mcp_decode (fun _ => Some (mkCall "search-flight" [])) rs_id [] []
                           (fun _ _ ok _ => mcp_call ok) 7) (fun _ => None) (fun _ _ => false) map_to_list "kiwi" mcp_client mcp_catalog mcp_world in
    rp_status rp = 200%Z /\ ct_requests c' !! "kiwi" = Some 1%Z.
Proof.
  split; [vm_compute; reflexivity|].
  pose proof (catalog_calls_are_authorized mcp_decode (fun _ => Some (mkCall "search-flight" [])) rs_id [] []
    (fun _ _ ok _ => mcp_call ok) "a" mcp_catalog "kiwi" mcp_client mcp_world 7
    (fun _ _ => false) map_to_list (fun _ => None) ltac:(vm_compute; reflexivity) ltac:(done)) as H.
  destruct (demo_handleServer _ _ _ _ _ _ _ _ _) as [[rp c'] w']. destruct (ct_servers _ !! "kiwi") eqn:E; [|by vm_compute in E].
  destruct H as (H1 & _ & H2). split; [|exact H1].
  apply (H2 (newFakeBackend "kiwi") (mcp_call true) (mkRequest (mcp_call true) MethodToolsCall []) (mkCall "search-flight" []));
    try done; vm_compute; reflexivity.
Defined.
