(* ===== verification/GrpcGate.v ===== *)
(** * GrpcGate: a filter that asks a rate limit service over gRPC (examples/grpc-callout)

    The handler of the buffered request body asks the service and rejects the request when it
    says so; every failure of the service lets the request through.  Protocol buffers and the
    constants generated from them are parameters. *)
From stdpp Require Import base list gmap strings.
From Stdlib Require Import ZArith Lia.
From S2P Require Import Prelude GoStrings Async StreamObject Envoy Grpc FilterState Filter FilterFacts FlushProps CalloutProps CalloutGate.

Record RateLimitRequest := mkRateLimit {
  rl_Domain : string;
  rl_Descriptors : list (list (string * string));
  rl_HitsAddend : Z;
}.

Definition BuildRateLimitRequest (value : string) : RateLimitRequest :=
  mkRateLimit "transit-grpc-callout" [[("body-key", value)]] 1.

Section grpc_callout.
(** [proto.Marshal] and [proto.Unmarshal] (the overall code of a response), the name of the
    method and the code OVER_LIMIT. *)
Context (marshal : RateLimitRequest -> option bytes) (unmarshal : bytes -> option Z).
Context (ShouldRateLimit_FullMethodName : string) (OVER_LIMIT : Z).

Definition IsOverLimit (code : Z) : bool := bool_decide (code = OVER_LIMIT).

(** Whether the callback rejects the request. *)
Definition rejects (resp : GRPCCalloutResponse) : bool :=
  if decide (gr_Result resp <> HTTPCalloutSuccess \/ gr_GRPCStatus resp <> 0%Z) then false
  else match unmarshal (gr_Body resp) with None => false | Some code => IsOverLimit code end.

Definition over_limit_reply : Z * bytes * list (string * string) :=
  (429%Z, String.list_byte_of_string "rate limit exceeded", [("content-type", "text/plain"); ("x-rls-status", "over-limit")]).

Definition on_rls_response (resp : GRPCCalloutResponse) : prog :=
  if decide (gr_Result resp <> HTTPCalloutSuccess \/ gr_GRPCStatus resp <> 0%Z) then PRet
  else match unmarshal (gr_Body resp) with
       | None => PRet
       | Some code => if IsOverLimit code then PAct (ASendLocalResponse over_limit_reply.1.1 over_limit_reply.1.2 over_limit_reply.2) PRet
                      else PRet
       end.

Definition rls_callout (msg : bytes) : GRPCCalloutRequest :=
  mkGrpcReq "rls-service" "" ShouldRateLimit_FullMethodName msg 1000.

Definition grpc_headersHandler (_ : Request) : prog := PRet.

Definition grpc_bodyHandler (chunk : BodyChunk) : prog :=
  if negb (bc_EndStream chunk) then PRet
  else match marshal (BuildRateLimitRequest (String.string_of_list_byte (bc_Data chunk))) with
       | None => PAct (ASendLocalResponse 500 (String.list_byte_of_string "rls marshal error") [("content-type", "text/plain")]) PRet
       | Some msg => PGRPCCallout (rls_callout msg) on_rls_response (fun _ _ => PRet)
       end.

(** ** What Envoy delivers *)

(** What an event that does not end the stream adds to the response and the raw body. *)
Definition gather (x : GRPCCalloutResponse * bytes) (e : stream_event) : GRPCCalloutResponse * bytes :=
  match e with
  | SHeaders h | STrailers h => (gc_resp (applyGRPCHeaders h (mkGrpcCb 0 (fun _ => PRet) false x.1 x.2)), x.2)
  | SData body => (x.1, x.2 ++ concat (ToBytes <$> body))
  | _ => x
  end.

Definition ends (e : stream_event) : bool := match e with SComplete | SReset => true | _ => false end.

Definition fresh_response : GRPCCalloutResponse := mkGrpcResp HTTPCalloutSuccess 0 "" [].

(** The response of the events, with the final one. *)
Definition answer (events : list stream_event) (fin : stream_event) : GRPCCalloutResponse :=
  let '(resp, raw) := fold_left gather events (fresh_response, []) in
  let result := match fin with SComplete => HTTPCalloutSuccess | _ => HTTPCalloutReset end in
  mkGrpcResp result (gr_GRPCStatus resp) (gr_GRPCMessage resp)
    (if decide (result = HTTPCalloutSuccess)
     then match decodeGRPCFrame raw with Some b => b | None => [] end else gr_Body resp).

Fixpoint deliver (E : Envoy) (g : nat) (events : list stream_event) (s : st) : res st :=
  match events with [] => Ok s | e :: events => s ← OnGrpcStreamEvent E g e s; deliver E g events s end.

Definition with_stream (E : Envoy) (r : Z * list stream_event) : Envoy :=
  mkEnvoy (ev_request_headers E) (ev_request_header E) (ev_response_header E) (ev_filter_state E)
    (ev_request_id E) (ev_body E) (ev_override E) (ev_callout E) (fun _ _ => r) (ev_nonce E) (ev_unicode E) (ev_stack E).

Lemma on_response_rejects resp :
  on_rls_response resp =
    if rejects resp then PAct (ASendLocalResponse over_limit_reply.1.1 over_limit_reply.1.2 over_limit_reply.2) PRet else PRet.
Proof. unfold on_rls_response, rejects. case_decide; [done|]. by destruct (unmarshal _). Qed.

Lemma deliver_quiet E g w fn events : Forall (fun e => ends e = false) events -> forall s x,
  s_grpcs s !! g = Some (mkGrpcCb w fn false x.1 x.2) ->
  exists s', (forall rest, deliver E g (events ++ rest) s = deliver E g rest s') /\ s_f s' = s_f s /\ s_tr s' = s_tr s /\
    s_ws s' = s_ws s /\ s_grpcs s' !! g = Some (mkGrpcCb w fn false (fold_left gather events x).1 (fold_left gather events x).2).
Proof.
  induction 1 as [|e events He Hf IH]; intros s x Hg; [by exists s|].
  assert (Hs : exists s1, OnGrpcStreamEvent E g e s = Ok s1 /\ s_f s1 = s_f s /\ s_tr s1 = s_tr s /\ s_ws s1 = s_ws s /\
            s_grpcs s1 !! g = Some (mkGrpcCb w fn false (gather x e).1 (gather x e).2)).
  { unfold OnGrpcStreamEvent. rewrite Hg. destruct e as [h|b|h| |]; try done; eexists; (split; [reflexivity|]);
      (split_and!; [done | done | done |]); unfold upd_grpc; cbn [s_grpcs set_s_grpcs]; rewrite list_lookup_alter_eq, Hg; cbn;
      try done; unfold applyGRPCHeaders; by destruct (parseGRPCHeaders h). }
  destruct Hs as (s1 & Ho & H1 & H2 & H3 & H4). destruct (IH s1 _ H4) as (s' & Hd & K1 & K2 & K3 & K4).
  exists s'. split_and!; [|congruence | congruence | congruence | done]. intros rest. cbn [app deliver]. rewrite Ho. apply Hd.
Qed.

(** The state in which the answer arrives: the stream is paused in the callout. *)
Record waiting (g w : nat) (s : st) : Prop := {
  wt_callback : s_grpcs s !! g = Some (mkGrpcCb w on_rls_response false fresh_response []);
  wt_paused : calloutState (s_f s) = calloutStatePaused;
  wt_live : streamDone (s_f s) = false;
  wt_queued : queued w s = true;
  wt_untouched : untouched s;
}.

Definition reply_429 : call := CSendLocalResponse 429 over_limit_reply.2 over_limit_reply.1.2 "".

Lemma waiting_answered E g w s events fin :
  waiting g w s -> Forall (fun e => ends e = false) events -> ends fin = true ->
  exists s', deliver E g (events ++ [fin]) s = Ok s' /\
    s_tr s' = s_tr s ++ [if rejects (answer events fin) then reply_429 else CContinueRequest].
Proof.
  intros [Hc Hp Hl Hq (Hlr & Hqs & Hst & Hbr & _)] Hf He.
  destruct (deliver_quiet E g w on_rls_response events Hf s (fresh_response, []) Hc) as (s1 & -> & H1 & H2 & H3 & H4).
  assert (Hr : exists s0, s_f s0 = s_f s /\ s_tr s0 = s_tr s /\ s_ws s0 = s_ws s /\
            deliver E g [fin] s1 = (x ← run E w (on_rls_response (answer events fin)) s0; Ok (handoff E x))).
  { unfold answer. destruct (fold_left gather events (fresh_response, [])) as [resp raw]. cbn [fst snd] in H4.
    cbn [deliver]. unfold OnGrpcStreamEvent. rewrite H4. destruct fin; try done;
      cbn [grpc_event gc_w gc_fn]; unfold grpc_finish; rewrite H4; cbn [gc_once gc_w gc_fn gc_resp gc_body];
      change (streamDone (s_f (set_s_grpcs ?a s1))) with (streamDone (s_f s1)); rewrite H1, Hl;
      exists (set_s_grpcs (<[g := mkGrpcCb w on_rls_response true resp raw]> (s_grpcs s1)) s1); (split_and!; [done | done | done |]); by destruct (run _ _ _ _). }
  destruct Hr as (s0 & K1 & K2 & K3 & ->). rewrite on_response_rejects. destruct (rejects _).
  - cbn [run do_act mbind res_bind]. unfold SendLocalResponse. replace (queued w s0) with (queued w s) by (unfold queued, writer; by rewrite K1, K3).
    rewrite Hq, K1, Hlr. eexists. split; [reflexivity|].
    unfold handoff, cas. rewrite decide_True by (cbn; by rewrite K1). erewrite flush_reply by reflexivity. cbn. by rewrite K2.
  - cbn [run mbind res_bind]. eexists. split; [reflexivity|]. unfold handoff, cas. rewrite K1, decide_True by done.
    rewrite flush_trace by (cbn; by rewrite K1). cbn. by rewrite K1, K2, Hqs, Hst, Hbr.
Qed.

(** ** The request body *)

(** The chunks the handler is given: Envoy's buffer, or the frame when it is empty. *)
Definition body_source (E : Envoy) (body : option (list bytes)) (s : st) : option (list bytes) :=
  match ev_body E (s_tr s) BufferedRequest with
  | Some chunks => if (0 <? body_size chunks)%nat then Some chunks else body
  | None => body
  end.

(** A stream of the filter, when its body is complete. *)
Record body_ready (s : st) : Prop := {
  br_handler : requestBodyHandler (cfg (s_f s)) = Some grpc_bodyHandler;
  br_buffer : bufferBody (cfg (s_f s)) = true;
  br_mutable : mutableRequestBody (cfg (s_f s)) = true;
  br_live : streamDone (s_f s) = false;
  br_go : goStarted (s_f s) = false;
  br_untouched : untouched s;
}.

Definition handed (s : st) (data : bytes) : BodyChunk :=
  mkBodyChunk data true (requestContentEncoding (s_f s)) (requestContentType (s_f s)).

Definition asked (s : st) (data msg : bytes) : list call :=
  [UserRequestBody (handed s data); CStartHttpStream (grpc_request (rls_callout msg)) true (TGrpc (length (s_grpcs s)))].

(** The state after the callout was started, from the new writer on. *)
Definition after_start (s : st) (data msg : bytes) : st :=
  let w := length (s_ws s) in
  emit (CStartHttpStream (grpc_request (rls_callout msg)) true (TGrpc (length (s_grpcs s))))
    (start_callout w
       (set_s_grpcs (s_grpcs s ++ [mkGrpcCb w on_rls_response false fresh_response []])
          (emit (UserRequestBody (handed s data)) (set_s_ws (s_ws s ++ [mkWriter false false false]) s)))).

Lemma new_writer s x : writer (length (s_ws s)) (set_s_ws (s_ws s ++ [x]) s) = x.
Proof. unfold writer. cbn. by rewrite lookup_app_r, Nat.sub_diag by lia. Qed.

Lemma after_start_writer s data msg : writer (length (s_ws s)) (after_start s data msg) = mkWriter true false false.
Proof. unfold after_start, writer. cbn. by rewrite list_lookup_alter_eq, lookup_app_r, Nat.sub_diag by lia. Qed.

Lemma run_body_handler E init s data msg :
  marshal (BuildRateLimitRequest (String.string_of_list_byte data)) = Some msg ->
  run (with_stream E (init, [])) (length (s_ws s)) (grpc_bodyHandler (handed s data))
    (emit (UserRequestBody (handed s data)) (set_s_ws (s_ws s ++ [mkWriter false false false]) s)) =
  Ok (if decide (init = HTTPCalloutInitSuccess) then after_start s data msg else reject_callout (length (s_ws s)) (after_start s data msg)).
Proof.
  intros Hm. unfold grpc_bodyHandler. cbn [bc_EndStream handed negb bc_Data]. rewrite Hm. cbn [run]. unfold GRPCCallout.
  change (writer ?w (emit ?c ?x)) with (writer w x). rewrite new_writer. cbn [calloutStarted w_goStarted orb].
  cbn [ev_stream with_stream grpc_events mbind res_bind]. by case_decide.
Qed.

Lemma body_started E init s body chunks msg :
  body_ready s -> body_source E body s = Some chunks ->
  marshal (BuildRateLimitRequest (String.string_of_list_byte (concat chunks))) = Some msg ->
  exists status s1, OnRequestBody (with_stream E (init, [])) body true s = Ok (status, s1) /\
    if decide (init = HTTPCalloutInitSuccess)
    then status = BodyStatusStopAndBuffer /\ s_tr s1 = s_tr s ++ asked s (concat chunks) msg /\
         waiting (length (s_grpcs s)) (length (s_ws s)) s1
    else status = BodyStatusContinue /\
         s_tr s1 = s_tr s ++ asked s (concat chunks) msg ++ [CReqHeaderSet "content-length" (Itoa_len (concat chunks))].
Proof.
  intros [Hh Hb Hm Hl Hg Hu] Hsrc Hmsg. pose proof Hu as (Hlr & Hqs & Hst & Hbr & Hs).
  unfold OnRequestBody. rewrite Hh, Hb. cbn [negb andb].
  unfold body_source in Hsrc. cbn [ev_body with_stream]. rewrite Hsrc. cbn [newWriter]. unfold call_requestBodyHandler.
  change (cfg (s_f (set_s_ws ?a s))) with (cfg (s_f s)). rewrite Hh. cbv zeta.
  change (mkBodyChunk (concat chunks) true _ _) with (handed s (concat chunks)). rewrite run_body_handler with (msg := msg) by done.
  pose proof (after_start_writer s (concat chunks) msg) as Hw. set (w := length (s_ws s)) in *.
  set (s3 := after_start s (concat chunks) msg) in *. cbn [mbind res_bind]. case_decide as Hi.
  - unfold pausePendingCallout, cas. rewrite Hw. cbn [calloutStarted]. rewrite decide_True by done.
    do 2 eexists. split; [reflexivity|]. split; [done|]. split.
    + unfold s3, after_start, asked. cbn. by rewrite <-app_assoc.
    + split; try done.
      * unfold s3, after_start. cbn. by rewrite lookup_app_r, Nat.sub_diag by lia.
      * unfold queued. rewrite writer_upd_f, Hw. apply orb_true_r.
  - assert (Hw' : calloutStarted (writer w (reject_callout w s3)) = false).
    { unfold reject_callout, writer. cbn. rewrite list_lookup_alter_eq. by destruct (alter _ _ _ !! w). }
    unfold pausePendingCallout, flushCompletedCallout. rewrite Hw'. cbn iota beta.
    change (goStarted (s_f (reject_callout w s3))) with (goStarted (s_f s)). rewrite Hg, Hw'.
    change (cfg (s_f (reject_callout w s3))) with (cfg (s_f s)).
    change (hasRequestBodyReplacement (s_f (reject_callout w s3))) with (hasRequestBodyReplacement (s_f s)).
    rewrite Hb, Hm, Hbr. cbn [andb]. rewrite flush_filter by exact Hlr. cbn [stopped set_stopped cfg].
    change (bufferBody (cfg (set_hasRequestBodyReplacement false _))) with (bufferBody (cfg (s_f s))).
    change (mutableRequestBody (cfg (set_hasRequestBodyReplacement false _))) with (mutableRequestBody (cfg (s_f s))).
    rewrite Hb, Hm. cbn [andb]. do 2 eexists. split; [reflexivity|]. split; [done|].
    change (s_tr (emit ?c ?x)) with (s_tr x ++ [c]). rewrite flush_trace by exact Hlr. unfold s3. cbn. rewrite Hqs, Hst, Hbr.
    cbn. unfold asked. by rewrite <-!app_assoc.
Qed.

(** The rate limit filter fails open: when the body of a request is complete the service is
    asked once, with the body as the key.  If Envoy refuses the call the request goes on as it
    is.  Otherwise it waits, and whatever the service answers, in however many events and
    whether the answer completes or is reset, the request is resumed, unless the answer
    completed with status 0 and decodes to OVER_LIMIT: then, and only then, the client is
    answered 429 and the request is never resumed. *)
Theorem grpc_callout_fails_open E init s body chunks msg :
  body_ready s -> body_source E body s = Some chunks ->
  marshal (BuildRateLimitRequest (String.string_of_list_byte (concat chunks))) = Some msg ->
  let E' := with_stream E (init, []) in
  exists status s1, OnRequestBody E' body true s = Ok (status, s1) /\
    if decide (init = HTTPCalloutInitSuccess)
    then status = BodyStatusStopAndBuffer /\ s_tr s1 = s_tr s ++ asked s (concat chunks) msg /\
         forall events fin, Forall (fun e => ends e = false) events -> ends fin = true ->
           exists s2, deliver E' (length (s_grpcs s)) (events ++ [fin]) s1 = Ok s2 /\
             s_tr s2 = s_tr s1 ++ [if rejects (answer events fin) then reply_429 else CContinueRequest] /\
             (rejects (answer events fin) = true <->
                fin = SComplete /\ gr_GRPCStatus (answer events fin) = 0%Z /\
                unmarshal (gr_Body (answer events fin)) = Some OVER_LIMIT)
    else status = BodyStatusContinue /\
         s_tr s1 = s_tr s ++ asked s (concat chunks) msg ++ [CReqHeaderSet "content-length" (Itoa_len (concat chunks))].
Proof.
  intros Hr Hsrc Hm E'. destruct (body_started E init s body chunks msg Hr Hsrc Hm) as (status & s1 & Ho & H).
  exists status, s1. split; [exact Ho|]. case_decide; [|exact H]. destruct H as (H1 & H2 & H3). split_and!; [done | done |].
  intros events fin Hf He. destruct (waiting_answered E' _ _ _ events fin H3 Hf He) as (s2 & Hd & Ht).
  exists s2. split_and!; [done | done |]. unfold rejects.
  assert (Hres : gr_Result (answer events fin) = HTTPCalloutSuccess <-> fin = SComplete).
  { unfold answer. destruct (fold_left _ _ _). by destruct fin. }
  case_decide as Hc.
  - split; [done|]. intros (-> & Hz & _). destruct Hc as [Hc|Hc]; [by destruct Hc; apply Hres | done].
  - destruct (unmarshal _) as [code|]; unfold IsOverLimit; [rewrite bool_decide_eq_true|]; split; try naive_solver.
    apply Decidable.not_or in Hc as [H1c H2c]. intros ->. split_and!; [apply Hres | | done]; by apply dec_stable.
Qed.
End grpc_callout.

(** ** Witness *)

Definition rls_marshal (r : RateLimitRequest) : option bytes :=
  Some (concat (concat (map (map (fun kv => String.list_byte_of_string kv.2)) (rl_Descriptors r)))).
Definition rls_unmarshal (b : bytes) : option Z := match b with [Byte.x02] => Some 2%Z | [] => None | _ => Some 1%Z end.
Definition rls_cfg : filterConfig :=
  FilterState.mkConfig "grpc-callout" grpc_headersHandler None (Some (grpc_bodyHandler rls_marshal rls_unmarshal "/rls" 2)) None None
    true true.
Definition rls_stream : st := newStream rls_cfg.
Definition rls_over : list stream_event := [SHeaders []; SData [mkBuf (Some OGo) (encodeGRPCFrame [Byte.x02])]; STrailers []].

Lemma grpc_callout_fails_open_witness :
  let E := simEnvoy [] (0%Z, None) in
  (rejects rls_unmarshal 2 (answer rls_over SComplete) = true /\ rejects rls_unmarshal 2 (answer rls_over SReset) = false) /\
  exists s1, OnRequestBody (with_stream E (HTTPCalloutInitSuccess, [])) (Some [[Byte.x61]]) true rls_stream =
               Ok (BodyStatusStopAndBuffer, s1) /\
    exists s2, deliver (with_stream E (HTTPCalloutInitSuccess, [])) 0 (rls_over ++ [SComplete]) s1 = Ok s2 /\
      s_tr s2 = s_tr s1 ++ [reply_429].
Proof.
  intros E. split; [split; vm_compute; reflexivity|].
  destruct (grpc_callout_fails_open rls_marshal rls_unmarshal "/rls" 2 E HTTPCalloutInitSuccess rls_stream (Some [[Byte.x61]])
              [[Byte.x61]] [Byte.x61]) as (status & s1 & Ho & H); [by repeat split | reflexivity | reflexivity |].
  destruct (decide (HTTPCalloutInitSuccess = HTTPCalloutInitSuccess)) as [_|n]; [|by destruct n]. destruct H as (-> & _ & H).
  exists s1. split; [exact Ho|]. destruct (H rls_over SComplete) as (s2 & Hd & Ht & _); [by repeat constructor | done |].
  exists s2. split; [exact Hd|]. rewrite Ht. f_equal.
Defined.
